(* ===== verification/_CoqProject ===== *)
-Q . S2P
Prelude.v
Sched.v
Ts.v
RtBandwidth.v
Rt.v
RtProps.v
SchedClass.v
ClassProps.v
Frames.v
CoreInv.v
SetSched.v
SetProps.v
Wake.v
CoreProps.v
Switch.v
SwitchProps.v
InOrder.v
Moves.v
InPlace.v
Stages.v
Requeue.v
Affinity.v
Steps.v
Tickless.v
Callers.v
Hotplug.v
HotplugProps.v
HotplugCpu.v
WakeQ.v
Boot.v
BootProps.v
TaskGroups.v
GroupProps.v
GroupSteps.v
GroupCfs.v
Scull.v
CharDevs.v
CStrings.v
ShellParse.v
ShellJobs.v
Xmerge.v
Procfs.v
