(* ===== verification/Prelude.v ===== *)
(** * Kernel programming exercises: a scheduling class, a shell, drivers, a system call

    The repository holds course work on the Linux kernel.  Its largest part is
    a 4.19 scheduler with a new time-sharing class (TS); the others are a
    shell, a system call that concatenates files, character drivers, and small
    tools and demonstrations.  This development models the parts that keep
    state or decide something, and proves what they guarantee, and where they
    do not do what they mean to.

    ** The parts and their files

    - [Prelude]: updates of records, C integers, the state monad with crashes
      in which all code is written, its weakest preconditions [wp], sums, and
      the kernel's linked lists ([Klist]).
    - The scheduler, [src/HW5-scheduler/]:
      - [Sched]: the records of [kernel/sched/sched.h] and
        [include/linux/sched.h], one [kstate] for the machine, and the inline
        helpers; [update_rq_clock] and [resched_curr] of [core.c].
      - [Ts]: [ts.c].  Its queues are forty sequences per CPU.
      - [RtBandwidth], [Rt]: [rt.c], the accounting of runtime and its timer,
        and the class itself; [RtProps] has the theorems on [Rt].
      - [SchedClass]: the table of methods of a class, and the functions of
        [core.c] that go through it to queue, move, pick and preempt tasks;
        [ClassProps] has the theorems.  [Rt] and [Ts] are two of the tables;
        the others are the parameter [OtherClasses], since [fair.c],
        [deadline.c], [stop_task.c] and [idle.c] are not in the repository.
        In the other direction the classes call the core through [CoreOps]
        and [PutPrev], which [SchedClass] implements.
      - [SetSched]: the system calls of [core.c] that set and read policies,
        priorities and nice values, and priority inheritance; [SetProps] has
        the theorems.
      - [Wake], [Switch]: waking tasks up and setting up new ones; [__schedule]
        and its callers, the tick, and moving tasks between CPUs.  What they
        call in other files is in the classes [CoreEnv] and [SwitchEnv].
      - [Frames], [CoreInv]: what the operations leave alone, and the invariant
        of the machine, which ties the queues of all CPUs to the classes and
        [on_rq] of the tasks.  On it, [CoreProps] follows a wake-up and the
        moving of tasks, [SwitchProps] the choice of the next task, [InOrder] a
        call of [__schedule], and [Steps] every sequence of such steps.  In
        between are the steps that change a task which may be queued and
        running: [Stages] takes it off its queue and back, with [InPlace] for
        a real-time task that stays linked meanwhile and [Moves] for one that
        goes to another CPU; [Requeue] changes its policy, inherited priority
        or nice value, [Affinity] the CPUs it may use.  The laws of the other classes
        that this needs are [OtherLaws], [SwitchLaws] and [ChangeLaws].
      - [Hotplug]: CPUs that come and go, over a state [hstate] that has the
        machine as [cpus], on which [sched] runs the scheduler; what cpusets,
        [topology.c] and the others do is the class [HotplugEnv].
        [HotplugProps] empties a dying CPU, [HotplugCpu] has the two ends of
        the state machine of a CPU.  [Boot] is [sched_init], and [BootProps]
        follows it to a machine in order.  [WakeQ] is the list of tasks to
        wake up that goes through the tasks themselves.
      - [Tickless]: when a CPU may do without its tick, who gets its timers,
        and the tick that another CPU takes over, as a state machine between
        the CPUs and the work queue ([tick_step]).  [Callers]: preemption,
        [yield_to], waiting for I/O, and what the kernel counts.
      - [TaskGroups]: the cpu controller of cgroups in [core.c], and the
        bandwidth of groups in [rt.c].  Its state [gstate] has the groups, and
        the machine as the field [kernel], on which [kern] runs the scheduler;
        [fair.c] and the cgroup core are the class [FairGroups].  [GroupProps]
        describes the groups by a tree, and the walk over them as its
        traversal; [GroupSteps] has the admission of real-time bandwidth over
        every sequence of changes, [GroupCfs] the quotas and weights.
    - The character drivers, [src/HW4-xmerge/Labs/lab9/lab09-examples/]:
      [Scull] is the memory device, [CharDevs] the loading and unloading of
      all five modules.
    - The strings of C and what the programs call on them: [CStrings].
    - The shell, [src/HW2.3-Shell/myshell.c]: [ShellParse] is the command
      line, [ShellJobs] the processes and jobs.
    - The system call xmerge, [src/HW4-xmerge/]: [Xmerge] has the call and the
      function of its test program that does the same with libc.
    - The process lister and the load display, [src/HW1/]: [Procfs].

    ** How the code is translated

    A function is a computation of the monad [M] over the state of its part,
    named as in C; a static loop has a [Fixpoint] of its own.  A failed
    [BUG_ON], an access out of an array, a broken list, a division by zero and
    a null dereference are crashes: [wp m Q s] says that [m] does not crash
    from [s] and ends in [Q], so the theorems are of total correctness.
    Integers are [Z], with the wrap-around of the type written where the code
    can reach it.  A [struct task_struct *] or [struct rq *] is a number, so
    what is shared in C is shared here.

    Each function of the scheduler is atomic: locks, RCU, barriers, tracing,
    statistics and [printk] are left out.  The configuration is SMP on 64 bits
    with HZ=1000, without RT_GROUP_SCHED (but for [TaskGroups]), SCHED_DEBUG, SCHEDSTATS, SCHED_HRTICK,
    IRQ_TIME_ACCOUNTING, PARAVIRT and (but for [Tickless]) NO_HZ_FULL.  CPU masks are ascending
    lists; the priority search [cpupri_find], the scheduling domains, resource
    limits, capabilities and the features of [sched_features] are parameters.

    ** What is shown

    - TS class: over every sequence of its operations the queues hold a task
      once and nothing crashes ([ts_safety]); which task runs next, round robin
      within a level, and how a CPU-bound task sinks; and that a task that
      wakes up waits on the queue of its old level ([ts_wakeup_misplaced]).
    - Real-time class: the bitmap, queues, counters, cached priorities and the
      pushable list stay consistent ([rt_safety]); the highest priority is
      picked; slices; a change in place keeps the place; the overload mask and
      the walk over it; conservation of lent runtime and unthrottling.
    - Core: pushing tasks terminates and loses none, the order of the classes,
      and that the fast path of [pick_next_task] does not see TS tasks.
    - The machine: a woken task is on the queue of one CPU that it may use
      ([wake_up_spec]); [__schedule] takes a task off its queue exactly if it
      waits, and runs one that is queued here ([schedule_spec]); after every
      sequence of switches, ticks, yields, wake-ups and changes of tasks on all
      CPUs the queues hold exactly the tasks that are on_rq
      ([machine_in_order]), and a switch, a tick and a wake-up still return
      ([machine_progress]); a change of policy moves a task to the queue of its
      new class ([setscheduler_requeues]), a change of its CPUs to one of them
      ([set_cpus_allowed_spec]).
    - CPUs: booting leads to a machine in order ([boot_in_order]); a dying CPU
      gets rid of its real-time tasks, but not of TS tasks
      ([migrate_tasks_spec]); suspend and resume restore what they count
      ([suspend_resume]), a refused [sched_cpu_deactivate] does not
      ([deactivate_busy]); a wake queue is a queue ([wake_q_spec]); the tick of a
      CPU that is taken over is queued once while the CPU is up, and its states
      never mix ([tick_work_once]).
    - Task groups: the walk over the pointers is the traversal of the tree
      ([walk_is_traversal]); what is admitted stays within the parent's and
      the global bandwidth ([rt_groups_admitted]), but for the overflow of
      [to_ratio] ([rt_admission_overflow]); quotas nest ([cfs_quotas_nest]) on
      the legacy hierarchy and vanish on the other ([cfs_quotas_vanish]); a
      weight is read back as it was written.
    - Policies: a refused call changes nothing, an accepted one leaves policy,
      priority and class in agreement.
    - Drivers: what is written is read back, block by block; every block is
      freed once; modules load completely or clean up.
    - Shell: the argument vector of a command, the commands of a pipeline,
      termination of parsing; the job list refines a table of process groups;
      and the lines and children on which it crashes.
    - xmerge: the output is the concatenation of the inputs up to the first
      that fails, with the result and count that belong to it; descriptors are
      closed and the address limit is restored; the test program agrees, but
      for one error code.

    - Tools: the lister prints the processes asked for in the order asked for
      ([myps_spec]), but for sizes that do not fit into an [int].

    ** Bounds and fuel

    A loop that C bounds by data is a recursion on the data.  The others have
    fuel: [parse_loop] one more than the line has characters
    ([parsing_terminates]), [push_rt_tasks] one more than there are pushable
    tasks ([push_rt_tasks_terminates]), [rto_next_cpu] two
    ([rto_walk_complete]), [copy_loop] one read more than the file has bytes
    ([xmerge_spec]), [pick_next_task] one round when no class asks for a retry
    ([pick_next_task_class_order]), and [setsched_recheck] two rounds, since
    no one changes the policy in between.  [fallback_loop] is a recursion on
    the widenings of the mask that are left, of which there are at most two;
    [schedule] and [setaffinity_again] repeat while other CPUs ask for it, so
    their fuel is a bound on such requests.  [walk_loop] takes at most two
    steps for a group and one for a child ([walk_cost]).  [migrate_loop] takes
    one round more than real-time tasks are queued ([migrate_tasks_spec]),
    [wake_up_nodes] one more than tasks are on the list ([wake_q_spec]).

    ** Not modelled

    - [core.c]: [wait_task_inactive], which busy-waits, the timers of [hrtick],
      and the output for debugging; the run queues of groups are in [fair.c] and in the branches
      of [rt.c] for RT_GROUP_SCHED.
    - The labs 4, 6, 7 and 8, and the test programs: they fork, wait and
      print. *)

From stdpp Require Export base option list numbers functions sorting sets gmap.
From Stdlib Require Export ZArith Lia.

#[global] Open Scope Z_scope.

(** ** Functional update of records

    [r <| f := v |>] is the record [r] with field [f] replaced, and
    [r <| f ::= g |>] applies [g] to the field.  A record gets its updates by
    one eta function (the record rebuilt from its projections) and one
    [Field] instance per field, solved by [solve_field]. *)

Class Field {R T : Type} (proj : R -> T) : Type := upd : (T -> T) -> R -> R.
Arguments upd {R T} proj {_} _ !_ /.

Ltac solve_field eta :=
  lazymatch goal with
  | |- @Field ?R ?T ?proj =>
      let g := fresh "g" in
      let r := fresh "r" in
      refine (fun (g : T -> T) (r : R) => _);
      let body := eval cbv beta delta [eta] in (eta r) in
      let p := eval pattern (proj r) in body in
      lazymatch p with
      | ?k _ => let res := eval cbv beta in (k (g (proj r))) in exact res
      end
  end.

Declare Scope kernel_scope.
Delimit Scope kernel_scope with kernel.
#[global] Open Scope kernel_scope.

#[warnings="-postfix-notation-not-level-1"]
Notation "r <| f ::= g |>" := (upd f g r)
  (at level 12, left associativity, format "r  <|  f  ::=  g  |>") : kernel_scope.
#[warnings="-postfix-notation-not-level-1"]
Notation "r <| f := v |>" := (upd f (fun _ => v) r)
  (at level 12, left associativity, format "r  <|  f  :=  v  |>") : kernel_scope.

(** ** C integers

    A C integer is a [Z]; the wrap-around of a fixed-width type is written
    where the code can reach it.  Signed conversions are those of the
    two's-complement machines the kernel runs on; C's [/] and [%] on signed
    operands are [Z.quot] and [Z.rem]. *)

Definition u32 (z : Z) : Z := z mod 2 ^ 32.
Definition u64 (z : Z) : Z := z mod 2 ^ 64.
Definition s32 (z : Z) : Z := (z + 2 ^ 31) mod 2 ^ 32 - 2 ^ 31.
Definition s64 (z : Z) : Z := (z + 2 ^ 63) mod 2 ^ 64 - 2 ^ 63.

(** [flags & mask] as a truth value. *)
Definition has (flags mask : Z) : bool := negb (Z.land flags mask =? 0).

(** A C truth value as an [int]. *)
Definition b2z (b : bool) : Z := if b then 1 else 0.

Lemma u32_small z : 0 <= z < 2 ^ 32 -> u32 z = z.
Proof. apply Z.mod_small. Qed.

Lemma u64_small z : 0 <= z < 2 ^ 64 -> u64 z = z.
Proof. apply Z.mod_small. Qed.

Lemma s32_small z : - 2 ^ 31 <= z < 2 ^ 31 -> s32 z = z.
Proof. intros H. unfold s32. rewrite Z.mod_small; lia. Qed.

Lemma s64_small z : - 2 ^ 63 <= z < 2 ^ 63 -> s64 z = z.
Proof. intros H. unfold s64. rewrite Z.mod_small; lia. Qed.

Lemma u32_s32 z : 0 <= z < 2 ^ 32 -> u32 (s32 z) = z.
Proof.
  intros H. unfold u32, s32. destruct (Z.lt_ge_cases z (2 ^ 31)).
  - rewrite (Z.mod_small (z + 2 ^ 31)) by lia. rewrite Z.mod_small; lia.
  - replace (z + 2 ^ 31) with (z - 2 ^ 31 + 1 * 2 ^ 32) by lia.
    rewrite Z.mod_add, (Z.mod_small (z - 2 ^ 31)) by lia.
    replace (z - 2 ^ 31 - 2 ^ 31) with (z + (-1) * 2 ^ 32) by lia.
    rewrite Z.mod_add, Z.mod_small; lia.
Qed.

Lemma u32_range z : 0 <= u32 z < 2 ^ 32.
Proof. apply Z.mod_pos_bound. lia. Qed.

Lemma u64_range z : 0 <= u64 z < 2 ^ 64.
Proof. apply Z.mod_pos_bound. lia. Qed.

Lemma s32_range z : - 2 ^ 31 <= s32 z < 2 ^ 31.
Proof.
  unfold s32. pose proof (Z.mod_pos_bound (z + 2 ^ 31) (2 ^ 32) ltac:(lia)). lia.
Qed.

Lemma s64_range z : - 2 ^ 63 <= s64 z < 2 ^ 63.
Proof.
  unfold s64. pose proof (Z.mod_pos_bound (z + 2 ^ 63) (2 ^ 64) ltac:(lia)). lia.
Qed.

(** ** Effects

    Code that changes state runs in a state monad whose computations may
    crash: [Crash] is what the machine does at a failed [BUG_ON], a read or
    write outside an array, a corrupted list, a division by zero or a null
    dereference.  There is no partial result after a crash. *)

Inductive fault : Type :=
| Bug          (** a failed [BUG_ON] or [BUG] *)
| BadIndex     (** an access outside an array *)
| BadLink      (** linking a linked list node, or unlinking an unlinked one *)
| DivByZero
| NullDeref
| OutOfFuel.   (** a bounded loop of the model was not long enough *)

Inductive outcome (A : Type) : Type :=
| Done (a : A)
| Crash (f : fault).
Arguments Done {_} _.
Arguments Crash {_} _.

Definition M (St A : Type) : Type := St -> outcome (A * St).

Section Monad.
Context {St : Type}.

Definition ret {A} (a : A) : M St A := fun s => Done (a, s).

Definition bind {A B} (m : M St A) (k : A -> M St B) : M St B :=
  fun s => match m s with
           | Done (a, s') => k a s'
           | Crash f => Crash f
           end.

Definition gets {A} (f : St -> A) : M St A := fun s => Done (f s, s).
Definition modify (f : St -> St) : M St unit := fun s => Done (tt, f s).
Definition crash {A} (f : fault) : M St A := fun _ => Crash f.
Definition bug_on (b : bool) : M St unit := if b then crash Bug else ret tt.

(** The value of an access that may be out of bounds. *)
Definition require {A} (f : fault) (o : option A) : M St A :=
  match o with Some a => ret a | None => crash f end.

Definition when (b : bool) (m : M St unit) : M St unit := if b then m else ret tt.

(** [for (x in l) body(x)]. *)
Fixpoint foreach {A} (l : list A) (body : A -> M St unit) : M St unit :=
  match l with
  | [] => ret tt
  | x :: l' => bind (body x) (fun _ => foreach l' body)
  end.

(** Total correctness: from [s] the computation does not crash and ends
    in [Q]. *)
Definition wp {A} (m : M St A) (Q : A -> St -> Prop) (s : St) : Prop :=
  match m s with Done (a, s') => Q a s' | Crash _ => False end.
End Monad.

Notation "'let!' x ':=' m 'in' k" := (bind m (fun x => k))
  (at level 10, x pattern, m at level 100, k at level 200,
   format "'[v' 'let!'  x  ':='  m  'in' '/' k ']'") : kernel_scope.
Notation "'do!' m 'in' k" := (bind m (fun _ => k))
  (at level 10, m at level 100, k at level 200,
   format "'[v' 'do!'  m  'in' '/' k ']'") : kernel_scope.

Section MonadLaws.
Context {St : Type}.

Lemma bind_done {A B} (m : M St A) (k : A -> M St B) s a s' :
  m s = Done (a, s') -> bind m k s = k a s'.
Proof. unfold bind. by intros ->. Qed.

Lemma bind_inv {A B} (m : M St A) (k : A -> M St B) s r :
  bind m k s = Done r -> exists a s', m s = Done (a, s') /\ k a s' = Done r.
Proof. unfold bind. destruct (m s) as [[a s']|]; naive_solver. Qed.

Lemma bind_gets {A B} (f : St -> A) (k : A -> M St B) s : bind (gets f) k s = k (f s) s.
Proof. done. Qed.

Lemma ret_inv {A} (a b : A) (s s' : St) : ret a s = Done (b, s') -> b = a /\ s' = s.
Proof. intros H. by injection H. Qed.

Implicit Types (s : St).

Lemma wp_done {A} (m : M St A) Q s :
  wp m Q s <-> exists a s', m s = Done (a, s') /\ Q a s'.
Proof. unfold wp. destruct (m s) as [[a s']|]; naive_solver. Qed.

Lemma wp_intro {A} (m : M St A) Q s a s' : m s = Done (a, s') -> Q a s' -> wp m Q s.
Proof. unfold wp. by intros ->. Qed.

Lemma wp_elim {A} (m : M St A) (Q : A -> St -> Prop) s a s' :
  wp m Q s -> m s = Done (a, s') -> Q a s'.
Proof. unfold wp. intros H E. by rewrite E in H. Qed.

Lemma wp_bind {A B} (m : M St A) (k : A -> M St B) Q s :
  wp m (fun a => wp (k a) Q) s -> wp (bind m k) Q s.
Proof. unfold wp, bind. by destruct (m s) as [[a s']|]. Qed.

Lemma wp_mono {A} (m : M St A) (Q Q' : A -> St -> Prop) s :
  wp m Q s -> (forall a s', Q a s' -> Q' a s') -> wp m Q' s.
Proof. unfold wp. destruct (m s) as [[a s']|]; auto. Qed.

Lemma wp_and {A} (m : M St A) (Q Q' : A -> St -> Prop) s :
  wp m Q s -> wp m Q' s -> wp m (fun a s' => Q a s' /\ Q' a s') s.
Proof. unfold wp. by destruct (m s) as [[a s']|]. Qed.

Lemma wp_if {A} (b : bool) (m m' : M St A) Q s :
  (b = true -> wp m Q s) -> (b = false -> wp m' Q s) -> wp (if b then m else m') Q s.
Proof. destruct b; auto. Qed.

Lemma wp_when (b : bool) (m : M St unit) (Q : unit -> St -> Prop) s :
  (b = true -> wp m Q s) -> (b = false -> Q tt s) -> wp (when b m) Q s.
Proof. destruct b; intros H1 H2; [by apply H1 | by apply H2]. Qed.

Lemma wp_bug_on (b : bool) (Q : unit -> St -> Prop) s :
  b = false -> Q tt s -> wp (bug_on b) Q s.
Proof. by intros ->. Qed.

Lemma wp_same {A} (m m' : M St A) Q s : m s = m' s -> wp m' Q s -> wp m Q s.
Proof. unfold wp. by intros ->. Qed.

Lemma wp_reassoc {A} (m1 m2 : M St unit) (k : M St A) Q s :
  wp (do! (do! m1 in m2) in k) Q s -> wp (do! m1 in do! m2 in k) Q s.
Proof. unfold wp, bind. by destruct (m1 s) as [[[] s1]|]. Qed.

Lemma wp_foreach {A} (P : St -> Prop) (l : list A) (body : A -> M St unit) s :
  P s -> (forall x s, x ∈ l -> P s -> wp (body x) (fun _ => P) s) ->
  wp (foreach l body) (fun _ => P) s.
Proof.
  revert s. induction l as [|x l IH]; intros s Hs H; [done|].
  apply wp_bind. eapply wp_mono; [by apply H; [by left|]|].
  intros [] s' Hs'. apply IH; [done|]. intros y s'' Hy. apply H. by right.
Qed.
End MonadLaws.

(** *** What a computation keeps

    [frames R m]: the state in which [m] ends, if it does, is related to the
    one in which it started.  That it ends is for [wp] to say; [wp_frames]
    puts the two together. *)

Definition frames {St A} (R : St -> St -> Prop) (m : M St A) : Prop :=
  forall s a s', m s = Done (a, s') -> R s s'.

Create HintDb frames.

Section Frames.
Context {St : Type} (R : St -> St -> Prop) `{!PreOrder R}.

Lemma frames_ret {A} (a : A) : frames R (ret a).
Proof. by intros s b s' [-> ->]%ret_inv. Qed.

Lemma frames_gets {A} (f : St -> A) : frames R (gets f).
Proof. intros s b s' H. by injection H as _ <-. Qed.

Lemma frames_crash {A} f : frames R (@crash St A f).
Proof. done. Qed.

Lemma frames_bug_on b : frames R (bug_on b).
Proof. destruct b; [apply frames_crash | apply frames_ret]. Qed.

Lemma frames_require {A} f (o : option A) : frames R (require f o).
Proof. destruct o; [apply frames_ret | apply frames_crash]. Qed.

Lemma frames_modify f : (forall s, R s (f s)) -> frames R (modify f).
Proof. intros Hf s b s' H. injection H as _ <-. apply Hf. Qed.

Lemma frames_bind {A B} (m : M St A) (k : A -> M St B) :
  frames R m -> (forall a, frames R (k a)) -> frames R (bind m k).
Proof.
  intros Hm Hk s b s' (a & s1 & H1 & H2)%bind_inv. etrans; [by eapply Hm | by eapply Hk].
Qed.

Lemma frames_when b (m : M St unit) : frames R m -> frames R (when b m).
Proof. destruct b; [done | intros _; apply frames_ret]. Qed.

Lemma frames_foreach {A} (l : list A) (body : A -> M St unit) :
  (forall x, frames R (body x)) -> frames R (foreach l body).
Proof.
  intros H. induction l as [|x l IH]; [apply frames_ret|].
  apply frames_bind; [apply H | intros _; exact IH].
Qed.

Lemma wp_frames {A} (m : M St A) Q s :
  frames R m -> wp m Q s -> wp m (fun a s' => Q a s' /\ R s s') s.
Proof.
  intros Hf (a & s' & He & HQ)%wp_done. apply (wp_intro _ _ _ _ _ He). split; [done | by eapply Hf].
Qed.
End Frames.

(** The head constant of a term. *)
Ltac head_of t := lazymatch t with ?f _ => head_of f | _ => t end.

(** One step of a goal [frames R m]; [leaf] solves what is left of a
    [modify]. *)
Ltac frames_step leaf :=
  lazymatch goal with
  | |- frames _ (bind _ _) => apply frames_bind; [exact _ | | intros ?]
  | |- frames _ (ret _) => apply frames_ret; exact _
  | |- frames _ (gets _) => apply frames_gets; exact _
  | |- frames _ (crash _) => apply frames_crash
  | |- frames _ (bug_on _) => apply frames_bug_on; exact _
  | |- frames _ (require _ _) => apply frames_require; exact _
  | |- frames _ (when _ _) => apply frames_when; [exact _|]
  | |- frames _ (foreach _ _) => apply frames_foreach; [exact _ | intros ?]
  | |- frames _ (modify _) => apply frames_modify; intros ?; solve [leaf]
  | |- frames _ (let _ := _ in _) => cbv zeta
  | |- frames _ (match ?x with _ => _ end) => destruct x
  | |- frames _ ?m => first [ solve [auto 2 with frames] | let h := head_of m in unfold h ]
  end.

(** A computation that never crashes; what it does is then for [frames] to
    say. *)
Definition total {St A} (m : M St A) : Prop := forall s, exists r, m s = Done r.

Section Total.
Context {St : Type}.

Lemma total_bind {A B} (m : M St A) (k : A -> M St B) :
  total m -> (forall a, total (k a)) -> total (bind m k).
Proof.
  intros Hm Hk s. destruct (Hm s) as [[a s1] H1]. destruct (Hk a s1) as [r H2]. exists r.
  by rewrite (bind_done _ _ _ _ _ H1).
Qed.

Lemma total_ret {A} (a : A) : total (@ret St A a).
Proof. intros s. by eexists. Qed.

Lemma total_gets {A} (f : St -> A) : total (gets f).
Proof. intros s. by eexists. Qed.

Lemma total_modify (f : St -> St) : total (modify f).
Proof. intros s. by eexists. Qed.

Lemma total_when b (m : M St unit) : total m -> total (when b m).
Proof. destruct b; [done | intros _; apply total_ret]. Qed.

Lemma wp_total (R : St -> St -> Prop) {A} (m : M St A) s :
  total m -> frames R m -> wp m (fun _ s' => R s s') s.
Proof. intros Ht Hf. destruct (Ht s) as [[a s'] He]. apply (wp_intro _ _ _ _ _ He). by eapply Hf. Qed.
End Total.

Ltac total_tac :=
  repeat lazymatch goal with
  | |- total (bind _ _) => apply total_bind; [|intros ?]
  | |- total (ret _) => apply total_ret
  | |- total (gets _) => apply total_gets
  | |- total (modify _) => apply total_modify
  | |- total (when _ _) => apply total_when
  | |- total (let _ := _ in _) => cbv zeta
  | |- total (match ?x with _ => _ end) => destruct x
  | |- total ?m => first [ solve [auto 2 with frames] | let h := head_of m in unfold h ]
  end.

(** A total computation and what it keeps by [R]. *)
Ltac wtotal R :=
  eapply wp_mono;
  [eapply (wp_total R); [solve [total_tac] | solve [auto 2 with frames | repeat frames_step fail]] | cbv beta].

(** ** Lists *)

Lemma filter_iff_in {A} (P Q : A -> Prop) `{!forall x, Decision (P x), !forall x, Decision (Q x)}
    (l : list A) :
  (forall x, x ∈ l -> P x <-> Q x) -> filter P l = filter Q l.
Proof.
  induction l as [|x l IH]; intros Hl; [done|].
  rewrite !filter_cons, IH by (intros; apply Hl; by right).
  pose proof (Hl x ltac:(by left)). do 2 case_decide; tauto.
Qed.

(** Checking two tables entry by entry. *)
Lemma forallb_zip {A B} (f : A -> B -> bool) (l : list A) (k : list B) i a b :
  forallb (fun '(x, y) => f x y) (zip l k) = true ->
  l !! i = Some a -> k !! i = Some b -> f a b = true.
Proof.
  intros H Ha Hb. rewrite forallb_forall in H. apply (H (a, b)).
  apply list_elem_of_In, list_elem_of_lookup. exists i. apply lookup_zip_with_Some. eauto.
Qed.

(** ** Sums *)

Definition sumZ {A} (f : A -> Z) (l : list A) : Z := foldr (fun x n => f x + n) 0 l.

Section Sums.
Context {A : Type}.
Implicit Types (f g : A -> Z) (l : list A).

Lemma sumZ_cons f x l : sumZ f (x :: l) = f x + sumZ f l.
Proof. done. Qed.

Lemma sumZ_app f l l' : sumZ f (l ++ l') = sumZ f l + sumZ f l'.
Proof. induction l as [|x l IH]; [done|]. rewrite <- app_comm_cons, !sumZ_cons, IH. lia. Qed.

Lemma sumZ_ext f g l : (forall x, x ∈ l -> f x = g x) -> sumZ f l = sumZ g l.
Proof.
  induction l as [|x l IH]; intros H; [done|]. rewrite !sumZ_cons.
  rewrite (H x), IH; [done | intros; apply H; by right | by left].
Qed.

Lemma sumZ_le f g l : (forall x, x ∈ l -> f x <= g x) -> sumZ f l <= sumZ g l.
Proof.
  induction l as [|x l IH]; intros H; [done|]. rewrite !sumZ_cons.
  pose proof (H x ltac:(by left)). pose proof (IH (fun y Hy => H y ltac:(by right))). lia.
Qed.

Lemma sumZ_nonneg f l : (forall x, x ∈ l -> 0 <= f x) -> 0 <= sumZ f l.
Proof.
  intros H. induction l as [|x l IH]; [done|]. rewrite sumZ_cons.
  pose proof (H x ltac:(by left)). pose proof (IH (fun y Hy => H y ltac:(by right))). lia.
Qed.

#[global] Instance sumZ_perm f : Proper ((≡ₚ) ==> eq) (sumZ f).
Proof. induction 1; rewrite ?sumZ_cons; congruence || lia. Qed.

Lemma sumZ_const k l : sumZ (fun _ => k) l = k * Z.of_nat (length l).
Proof. induction l as [|x l IH]; [cbn; lia|]. rewrite sumZ_cons, IH. cbn [length]. lia. Qed.

Lemma sumZ_insert f i x y l :
  l !! i = Some x -> sumZ f (<[i := y]> l) = sumZ f l - f x + f y.
Proof.
  revert i. induction l as [|z l IH]; intros [|i] H; simplify_eq/=; rewrite ?sumZ_cons; [lia|].
  change (sumZ f (z :: <[i := y]> l) = f z + sumZ f l - f x + f y).
  rewrite sumZ_cons, (IH i H). lia.
Qed.
End Sums.

Lemma elem_of_list_insert {A} (l : list A) i x y : y ∈ <[i := x]> l -> y = x \/ y ∈ l.
Proof.
  intros (k & Hk)%list_elem_of_lookup. destruct (decide (k = i)) as [->|Hne].
  - left. apply list_lookup_insert_Some in Hk as [(_ & -> & _)|[? _]]; [done|lia].
  - right. rewrite list_lookup_insert_ne in Hk by done. by apply (list_elem_of_lookup_2 _ k).
Qed.

Lemma alter_insert {A} (f : A -> A) (l : list A) i x :
  l !! i = Some x -> alter f i l = <[i := f x]> l.
Proof.
  revert i. induction l as [|z l IH]; intros [|i] H; simplify_eq/=; [done|].
  by rewrite (IH i H).
Qed.

(** [run] evaluates the head of a monadic computation in the goal. *)
Ltac run :=
  repeat first
    [ progress cbn beta iota delta [bind ret gets modify crash bug_on require when]
    | progress simpl ].

(** One step of a goal [wp m Q s]; it stops at a call, for [wcall] to apply
    the callee's lemma. *)
Ltac wstep :=
  lazymatch goal with
  | |- wp (bind _ _) _ _ => apply wp_bind
  | |- wp (ret ?a) ?Q ?s => change (Q a s); cbv beta
  | |- wp (gets ?f) ?Q ?s => change (Q (f s) s); cbv beta
  | |- wp (modify ?f) ?Q ?s => change (Q tt (f s)); cbv beta
  | |- wp (when _ _) _ _ => apply wp_when; intros
  | |- wp (if _ then _ else _) _ _ => apply wp_if; intros
  | |- wp (let '(_, _) := ?p in _) _ _ => destruct p
  end.

(** The steps up to the next branch or call. *)
Ltac wgo :=
  repeat lazymatch goal with
  | |- wp (bind _ _) _ _ => wstep
  | |- wp (ret _) _ _ => wstep
  | |- wp (gets _) _ _ => wstep
  | |- wp (modify _) _ _ => wstep
  end.

(** Use the specification [H] of the computation at the head. *)
Ltac wcall H := eapply wp_mono; [eapply H | cbv beta].

(** The same, with what the computation keeps by [R]. *)
Ltac wcall_frames R H :=
  eapply wp_mono; [eapply (wp_frames R); [solve [auto 2 with frames] | eapply H] | cbv beta].

(** Case analysis on every condition of the goal. *)
Ltac split_ifs :=
  repeat match goal with |- context [if ?b then _ else _] => destruct b eqn:? end.

(** ** Kernel lists

    [struct list_head] ([linux/list.h]) is a doubly linked list threaded
    through its entries.  An array of list heads is represented by the array
    of the sequences of their entries; an entry has one link field, so it can
    be on one list only, and linking it twice or unlinking it when it is on no
    list corrupts memory: [None] here, a [BadLink] crash in the code. *)

Module Klist.
Section Klist.
Context {E : Type} `{!EqDecision E}.
Implicit Types (q : list (list E)) (e : E) (i : Z).

(** [q[i]] with the C index [i], [None] outside the array. *)
Definition at_index q i : option (list E) :=
  if i <? 0 then None else q !! Z.to_nat i.

Definition linked e q : bool := bool_decide (e ∈ concat q).

Definition put_at i l q : list (list E) := <[Z.to_nat i := l]> q.

Definition list_add_tail e i q : option (list (list E)) :=
  if linked e q then None else
  match at_index q i with Some l => Some (put_at i (l ++ [e]) q) | None => None end.

Definition list_add e i q : option (list (list E)) :=
  if linked e q then None else
  match at_index q i with Some l => Some (put_at i (e :: l) q) | None => None end.

Definition unlink e q : list (list E) := map (filter (fun x => x <> e)) q.

Definition list_del e q : option (list (list E)) :=
  if linked e q then Some (unlink e q) else None.

Definition list_move_tail e i q : option (list (list E)) :=
  q' ← list_del e q; list_add_tail e i q'.

Definition list_move e i q : option (list (list E)) :=
  q' ← list_del e q; list_add e i q'.

Definition list_empty i q : bool :=
  match at_index q i with Some (_ :: _) => false | _ => true end.

Definition list_first i q : option E :=
  match at_index q i with Some (e :: _) => Some e | _ => None end.

(** Every entry is on at most one list, once. *)
Definition wf q : Prop := NoDup (concat q).

Lemma at_index_Some q i l :
  at_index q i = Some l <-> 0 <= i /\ q !! Z.to_nat i = Some l.
Proof. unfold at_index. destruct (Z.ltb_spec i 0); naive_solver lia. Qed.

Lemma at_index_lookup q i :
  0 <= i -> at_index q i = q !! Z.to_nat i.
Proof. unfold at_index. destruct (Z.ltb_spec i 0); [lia | done]. Qed.

Lemma at_index_is_Some q i :
  is_Some (at_index q i) <-> 0 <= i < Z.of_nat (length q).
Proof.
  unfold at_index. destruct (Z.ltb_spec i 0).
  - split; [by intros [] | lia].
  - rewrite lookup_lt_is_Some. lia.
Qed.

Lemma at_index_elem q i l e : at_index q i = Some l -> e ∈ l -> e ∈ concat q.
Proof.
  intros [_ Hl]%at_index_Some He. apply list_elem_of_In, in_concat.
  exists l. split; apply list_elem_of_In; [by eapply list_elem_of_lookup_2 | done].
Qed.

Lemma elem_concat q e :
  e ∈ concat q <-> exists i l, at_index q i = Some l /\ e ∈ l.
Proof.
  split; [|intros (i & l & ? & ?); by eapply at_index_elem].
  intros (l & Hl & He)%list_elem_of_In%in_concat.
  apply list_elem_of_In, list_elem_of_lookup in Hl as [n Hn].
  exists (Z.of_nat n), l. rewrite at_index_Some, Nat2Z.id.
  split; [split; [lia | done] | by apply list_elem_of_In].
Qed.

Lemma at_index_put q i j l :
  0 <= i < Z.of_nat (length q) ->
  at_index (put_at i l q) j = if decide (i = j) then Some l else at_index q j.
Proof.
  intros Hi. unfold at_index, put_at. destruct (Z.ltb_spec j 0).
  - by rewrite decide_False by lia.
  - case_decide; subst.
    + rewrite list_lookup_insert_eq by lia. done.
    + rewrite list_lookup_insert_ne by lia. done.
Qed.

Lemma at_index_unlink e q i :
  at_index (unlink e q) i = filter (fun x => x <> e) <$> at_index q i.
Proof.
  unfold at_index, unlink. destruct (i <? 0); [done|]. by rewrite list_lookup_fmap.
Qed.

Lemma concat_put q i l l' :
  at_index q i = Some l -> concat (put_at i l' q) ++ l ≡ₚ l' ++ concat q.
Proof.
  intros [_ H]%at_index_Some. unfold put_at. revert H.
  generalize (Z.to_nat i) as n. intros n. revert n.
  induction q as [|l0 q IH]; intros [|n] H; simplify_eq/=.
  - rewrite <- app_assoc, (Permutation_app_comm (concat q)). done.
  - rewrite <- app_assoc, (IH _ H). rewrite !app_assoc.
    by rewrite (Permutation_app_comm l0).
Qed.

Lemma filter_not_elem e (l : list E) : e ∉ l -> filter (fun x => x <> e) l = l.
Proof.
  induction l as [|x l IH]; [done|]. intros [Hx Hl]%not_elem_of_cons.
  rewrite filter_cons_True by naive_solver. by rewrite IH.
Qed.

Lemma concat_unlink e q : concat (unlink e q) = filter (fun x => x <> e) (concat q).
Proof.
  induction q as [|l q IH]; simpl; [done|]. by rewrite filter_app, IH.
Qed.

Lemma filter_ne_perm e (l : list E) :
  NoDup l -> e ∈ l -> e :: filter (fun x => x <> e) l ≡ₚ l.
Proof.
  induction l as [|x l IH]; [by intros _ ?%not_elem_of_nil|].
  intros [Hx Hl]%NoDup_cons He. destruct (decide (x = e)) as [->|Hne].
  - rewrite filter_cons_False, filter_not_elem by naive_solver. done.
  - rewrite filter_cons_True by done. rewrite Permutation_swap. f_equiv.
    apply IH; [done|]. apply elem_of_cons in He. naive_solver.
Qed.

(** *** What the operations do *)

Lemma linked_spec e q : linked e q = true <-> e ∈ concat q.
Proof. apply bool_decide_eq_true. Qed.

Lemma unlinked_spec e q : linked e q = false <-> e ∉ concat q.
Proof. apply bool_decide_eq_false. Qed.

Lemma list_add_tail_Some e i q q' :
  list_add_tail e i q = Some q' <->
  e ∉ concat q /\ exists l, at_index q i = Some l /\ q' = put_at i (l ++ [e]) q.
Proof.
  unfold list_add_tail. destruct (linked e q) eqn:Hl.
  - apply linked_spec in Hl. naive_solver.
  - apply unlinked_spec in Hl. destruct (at_index q i); naive_solver.
Qed.

Lemma list_add_Some e i q q' :
  list_add e i q = Some q' <->
  e ∉ concat q /\ exists l, at_index q i = Some l /\ q' = put_at i (e :: l) q.
Proof.
  unfold list_add. destruct (linked e q) eqn:Hl.
  - apply linked_spec in Hl. naive_solver.
  - apply unlinked_spec in Hl. destruct (at_index q i); naive_solver.
Qed.

Lemma list_del_Some e q q' :
  list_del e q = Some q' <-> e ∈ concat q /\ q' = unlink e q.
Proof.
  unfold list_del. destruct (linked e q) eqn:Hl.
  - apply linked_spec in Hl. naive_solver.
  - apply unlinked_spec in Hl. naive_solver.
Qed.

Lemma unlink_not_elem e q : e ∉ concat (unlink e q).
Proof. rewrite concat_unlink, list_elem_of_filter. naive_solver. Qed.

Lemma elem_unlink e x q : x ∈ concat (unlink e q) <-> x ∈ concat q /\ x <> e.
Proof. rewrite concat_unlink, list_elem_of_filter. naive_solver. Qed.

Lemma length_put i l q : length (put_at i l q) = length q.
Proof. apply length_insert. Qed.

Lemma length_unlink e q : length (unlink e q) = length q.
Proof. apply length_map. Qed.

Lemma put_tail_perm e i l q :
  at_index q i = Some l -> concat (put_at i (l ++ [e]) q) ≡ₚ e :: concat q.
Proof.
  intros H. apply (Permutation_app_inv_r l). rewrite (concat_put _ _ _ _ H).
  rewrite <- app_assoc, (Permutation_app_comm l). simpl.
  by rewrite (Permutation_app_comm (concat q)).
Qed.

Lemma put_head_perm e i l q :
  at_index q i = Some l -> concat (put_at i (e :: l) q) ≡ₚ e :: concat q.
Proof.
  intros H. apply (Permutation_app_inv_r l). rewrite (concat_put _ _ _ _ H). simpl.
  by rewrite (Permutation_app_comm l).
Qed.

Lemma unlink_perm e q : wf q -> e ∈ concat q -> e :: concat (unlink e q) ≡ₚ concat q.
Proof. intros Hq He. rewrite concat_unlink. by apply filter_ne_perm. Qed.

Lemma wf_put_tail e i l q :
  wf q -> e ∉ concat q -> at_index q i = Some l -> wf (put_at i (l ++ [e]) q).
Proof.
  unfold wf. intros Hq He Hl. rewrite (put_tail_perm _ _ _ _ Hl). by constructor.
Qed.

Lemma wf_put_head e i l q :
  wf q -> e ∉ concat q -> at_index q i = Some l -> wf (put_at i (e :: l) q).
Proof.
  unfold wf. intros Hq He Hl. rewrite (put_head_perm _ _ _ _ Hl). by constructor.
Qed.

Lemma wf_unlink e q : wf q -> wf (unlink e q).
Proof. unfold wf. rewrite concat_unlink. apply NoDup_filter. Qed.

(** An entry of a well-formed array is on one list only. *)
Lemma wf_unique q i j l l' e :
  wf q -> at_index q i = Some l -> at_index q j = Some l' -> e ∈ l -> e ∈ l' -> i = j.
Proof.
  intros Hq Hi Hj He He'. destruct (decide (i = j)) as [|Hne]; [done|exfalso].
  assert (Hr : 0 <= i < Z.of_nat (length q)) by (apply at_index_is_Some; eauto).
  pose proof (concat_put q i l [] Hi) as Hp. simpl in Hp.
  assert (Hnd : NoDup (concat (put_at i [] q) ++ l)) by (by rewrite Hp).
  apply NoDup_app in Hnd as (_ & Hd & _). apply (Hd e); [|done].
  eapply (at_index_elem _ j); [|done].
  rewrite at_index_put by done. by rewrite decide_False.
Qed.
Lemma wf_level q i l : wf q -> at_index q i = Some l -> NoDup l.
Proof.
  intros Hq Hi. pose proof (concat_put q i l [] Hi) as Hp. simpl in Hp.
  assert (Hnd : NoDup (concat (put_at i [] q) ++ l)) by (by rewrite Hp).
  by apply NoDup_app in Hnd as (_ & _ & Hnd).
Qed.

Lemma put_put i (l l' : list E) q : put_at i l (put_at i l' q) = put_at i l q.
Proof. apply list_insert_insert_eq. Qed.

Lemma at_index_ext q q' :
  (forall i, at_index q i = at_index q' i) -> q = q'.
Proof.
  intros H. apply list_eq. intros n. specialize (H (Z.of_nat n)).
  unfold at_index in H. destruct (Z.ltb_spec (Z.of_nat n) 0); [lia|].
  by rewrite Nat2Z.id in H.
Qed.

(** Unlinking the head of a list. *)
Lemma unlink_head q i e l : wf q -> at_index q i = Some (e :: l) -> unlink e q = put_at i l q.
Proof.
  intros Hwf Hi. pose proof (wf_level _ _ _ Hwf Hi) as [Hnd _]%NoDup_cons.
  apply at_index_ext. intros j.
  rewrite at_index_unlink, at_index_put by (apply at_index_is_Some; eauto).
  case_decide as Hd.
  - subst i. rewrite Hi. simpl. by rewrite filter_cons_False, filter_not_elem by naive_solver.
  - destruct (at_index q j) as [l'|] eqn:Hl'; [|done]. simpl. f_equal.
    apply filter_not_elem. intros Hp. apply Hd.
    eapply (wf_unique q i _ _ _ e); eauto. by left.
Qed.
End Klist.
End Klist.
