(* ===== verification/Sched.v ===== *)
(** * Data of the scheduler

    The records of [kernel/sched/sched.h] and [include/linux/sched.h] that the
    scheduler's code reads and writes, the state of the machine it runs on, and
    the small inline helpers of the two headers.  A [struct task_struct *] is a
    [task], a [struct rq *] is the number of its CPU; a pointer that may be
    null is an [option]. *)

From S2P Require Import Prelude.

Abbreviation task := Z (only parsing).
Abbreviation cpu := Z (only parsing).

(** ** Constants *)

(** [include/uapi/linux/sched.h] *)
Definition SCHED_NORMAL : Z := 0.
Definition SCHED_FIFO : Z := 1.
Definition SCHED_RR : Z := 2.
Definition SCHED_BATCH : Z := 3.
Definition SCHED_IDLE : Z := 5.
Definition SCHED_DEADLINE : Z := 6.
Definition SCHED_TS : Z := 10.
Definition SCHED_RESET_ON_FORK : Z := 0x40000000.
Definition SCHED_FLAG_RESET_ON_FORK : Z := 0x01.
Definition SCHED_FLAG_RECLAIM : Z := 0x02.
Definition SCHED_FLAG_DL_OVERRUN : Z := 0x04.
Definition SCHED_FLAG_ALL : Z :=
  Z.lor (Z.lor SCHED_FLAG_RESET_ON_FORK SCHED_FLAG_RECLAIM) SCHED_FLAG_DL_OVERRUN.

(** [include/linux/sched.h], [tsk->state] and [tsk->flags] *)
Definition TASK_RUNNING : Z := 0x0000.
Definition TASK_INTERRUPTIBLE : Z := 0x0001.
Definition TASK_UNINTERRUPTIBLE : Z := 0x0002.
Definition TASK_DEAD : Z := 0x0080.
Definition TASK_WAKING : Z := 0x0200.
Definition TASK_NOLOAD : Z := 0x0400.
Definition TASK_NEW : Z := 0x0800.
Definition TASK_IDLE : Z := Z.lor TASK_UNINTERRUPTIBLE TASK_NOLOAD.
Definition TASK_NORMAL : Z := Z.lor TASK_INTERRUPTIBLE TASK_UNINTERRUPTIBLE.
Definition PF_IDLE : Z := 0x00000002.
Definition PF_WQ_WORKER : Z := 0x00000020.
Definition PF_NOFREEZE : Z := 0x00008000.
Definition PF_FROZEN : Z := 0x00010000.
Definition PF_KTHREAD : Z := 0x00200000.
Definition PF_NO_SETAFFINITY : Z := 0x04000000.

(** [kernel/sched/sched.h] *)
Definition TASK_ON_RQ_QUEUED : Z := 1.
Definition TASK_ON_RQ_MIGRATING : Z := 2.
Definition WF_SYNC : Z := 0x01.
Definition WF_FORK : Z := 0x02.
Definition WF_MIGRATED : Z := 0x4.
Definition WEIGHT_IDLEPRIO : Z := 3.
Definition WMULT_IDLEPRIO : Z := 1431655765.
Definition DEQUEUE_SLEEP : Z := 0x01.
Definition DEQUEUE_SAVE : Z := 0x02.
Definition DEQUEUE_MOVE : Z := 0x04.
Definition DEQUEUE_NOCLOCK : Z := 0x08.
Definition ENQUEUE_WAKEUP : Z := 0x01.
Definition ENQUEUE_RESTORE : Z := 0x02.
Definition ENQUEUE_MOVE : Z := 0x04.
Definition ENQUEUE_NOCLOCK : Z := 0x08.
Definition ENQUEUE_HEAD : Z := 0x10.
Definition ENQUEUE_REPLENISH : Z := 0x20.
Definition ENQUEUE_MIGRATED : Z := 0x40.
Definition RQCF_REQ_SKIP : Z := 0x01.
Definition RQCF_ACT_SKIP : Z := 0x02.
Definition RUNTIME_INF : Z := u64 (-1).
Definition SCHED_FLAG_SUGOV : Z := 0x10000000.

(** The ABI's priority ranges ([linux/sched/prio.h]): real-time priorities
    are [0..99], the 40 nice levels are [100..139]. *)
Definition MAX_DL_PRIO : Z := 0.
Definition MAX_RT_PRIO : Z := 100.
Definition MAX_USER_RT_PRIO : Z := 100.
Definition MAX_PRIO : Z := 140.
Definition MIN_NICE : Z := -20.
Definition MAX_NICE : Z := 19.
Definition NICE_WIDTH : Z := 40.
Definition DEFAULT_PRIO : Z := 120.
Definition NICE_TO_PRIO (nice : Z) : Z := nice + DEFAULT_PRIO.
Definition PRIO_TO_NICE (prio : Z) : Z := prio - DEFAULT_PRIO.
Definition rt_prio (prio : Z) : bool := prio <? MAX_RT_PRIO.
Definition dl_prio (prio : Z) : bool := prio <? MAX_DL_PRIO.

(** Error numbers of the ABI. *)
Definition EPERM : Z := 1.
Definition ESRCH : Z := 3.
Definition E2BIG : Z := 7.
Definition EAGAIN : Z := 11.
Definition ENOMEM : Z := 12.
Definition EFAULT : Z := 14.
Definition EBUSY : Z := 16.
Definition EINVAL : Z := 22.
Definition EFBIG : Z := 27.
Definition ERANGE : Z := 34.

(** ** Tasks *)

(** The scheduling classes, by the name of their [struct sched_class]; the last
    one is that of [fake_task] in [core.c]. *)
Inductive sched_class_t : Type :=
| stop_sched_class | dl_sched_class | rt_sched_class
| ts_sched_class | fair_sched_class | idle_sched_class
| fake_sched_class.

#[export] Instance sched_class_eq : EqDecision sched_class_t.
Proof. solve_decision. Defined.

(** [struct sched_entity] *)
Record sched_entity : Type := mk_sched_entity {
  load_weight : Z;  (** [load.weight] *)
  load_inv_weight : Z;  (** [load.inv_weight] *)
  se_on_rq : Z;
  exec_start : Z;
  sum_exec_runtime : Z;
  vruntime : Z;
  prev_sum_exec_runtime : Z;
  nr_migrations : Z
}.

Definition eta_sched_entity (r : sched_entity) : sched_entity :=
  mk_sched_entity
    (load_weight r) (load_inv_weight r) (se_on_rq r) (exec_start r)
    (sum_exec_runtime r) (vruntime r) (prev_sum_exec_runtime r)
    (nr_migrations r).
#[export] Instance load_weight_field : Field load_weight. Proof. solve_field eta_sched_entity. Defined.
#[export] Instance load_inv_weight_field : Field load_inv_weight. Proof. solve_field eta_sched_entity. Defined.
#[export] Instance se_on_rq_field : Field se_on_rq. Proof. solve_field eta_sched_entity. Defined.
#[export] Instance exec_start_field : Field exec_start. Proof. solve_field eta_sched_entity. Defined.
#[export] Instance sum_exec_runtime_field : Field sum_exec_runtime. Proof. solve_field eta_sched_entity. Defined.
#[export] Instance vruntime_field : Field vruntime. Proof. solve_field eta_sched_entity. Defined.
#[export] Instance prev_sum_exec_runtime_field : Field prev_sum_exec_runtime. Proof. solve_field eta_sched_entity. Defined.
#[export] Instance nr_migrations_field : Field nr_migrations. Proof. solve_field eta_sched_entity. Defined.

(** [struct sched_rt_entity]; its [run_list] node is in [rt_rq]'s queues *)
Record sched_rt_entity : Type := mk_sched_rt_entity {
  timeout : Z;
  watchdog_stamp : Z;
  rt_time_slice : Z;  (** [time_slice] *)
  rt_on_rq : Z;  (** [on_rq] *)
  on_list : Z
}.

Definition eta_sched_rt_entity (r : sched_rt_entity) : sched_rt_entity :=
  mk_sched_rt_entity
    (timeout r) (watchdog_stamp r) (rt_time_slice r) (rt_on_rq r)
    (on_list r).
#[export] Instance timeout_field : Field timeout. Proof. solve_field eta_sched_rt_entity. Defined.
#[export] Instance watchdog_stamp_field : Field watchdog_stamp. Proof. solve_field eta_sched_rt_entity. Defined.
#[export] Instance rt_time_slice_field : Field rt_time_slice. Proof. solve_field eta_sched_rt_entity. Defined.
#[export] Instance rt_on_rq_field : Field rt_on_rq. Proof. solve_field eta_sched_rt_entity. Defined.
#[export] Instance on_list_field : Field on_list. Proof. solve_field eta_sched_rt_entity. Defined.

(** [struct sched_dl_entity] *)
Record sched_dl_entity : Type := mk_sched_dl_entity {
  dl_runtime : Z;
  dl_deadline : Z;
  dl_period : Z;
  deadline : Z;
  dl_flags : Z;  (** [flags] *)
  dl_boosted : Z
}.

Definition eta_sched_dl_entity (r : sched_dl_entity) : sched_dl_entity :=
  mk_sched_dl_entity
    (dl_runtime r) (dl_deadline r) (dl_period r) (deadline r) (dl_flags
    r) (dl_boosted r).
#[export] Instance dl_runtime_field : Field dl_runtime. Proof. solve_field eta_sched_dl_entity. Defined.
#[export] Instance dl_deadline_field : Field dl_deadline. Proof. solve_field eta_sched_dl_entity. Defined.
#[export] Instance dl_period_field : Field dl_period. Proof. solve_field eta_sched_dl_entity. Defined.
#[export] Instance deadline_field : Field deadline. Proof. solve_field eta_sched_dl_entity. Defined.
#[export] Instance dl_flags_field : Field dl_flags. Proof. solve_field eta_sched_dl_entity. Defined.
#[export] Instance dl_boosted_field : Field dl_boosted. Proof. solve_field eta_sched_dl_entity. Defined.

(** [struct sched_ts_entity]; its [list] node is in [ts_rq]'s queues *)
Record sched_ts_entity : Type := mk_sched_ts_entity {
  ts_time_slice : Z  (** [time_slice] *)
}.

Definition eta_sched_ts_entity (r : sched_ts_entity) : sched_ts_entity :=
  mk_sched_ts_entity
    (ts_time_slice r).
#[export] Instance ts_time_slice_field : Field ts_time_slice. Proof. solve_field eta_sched_ts_entity. Defined.

(** [struct task_struct] *)
Record task_struct : Type := mk_task_struct {
  state : Z;
  flags : Z;
  on_cpu : Z;
  task_cpu : cpu;  (** [cpu] *)
  recent_used_cpu : cpu;
  wake_cpu : cpu;
  on_rq : Z;
  prio : Z;
  static_prio : Z;
  normal_prio : Z;
  rt_priority : Z;
  sched_class : sched_class_t;
  se : sched_entity;
  rt : sched_rt_entity;
  dl : sched_dl_entity;
  ts : sched_ts_entity;
  policy : Z;
  nr_cpus_allowed : Z;
  cpus_allowed : list cpu;
  mm : bool;  (** [mm != NULL] *)
  sched_reset_on_fork : Z;
  sched_contributes_to_load : Z;
  sched_remote_wakeup : Z;
  in_iowait : Z;
  tif_need_resched : bool;  (** [TIF_NEED_RESCHED] *)
  tif_polling : bool;  (** [TIF_POLLING_NRFLAG] *)
  pi_top_task : option task;
  pid : Z;
  nvcsw : Z;
  nivcsw : Z;
  sched_exp : Z;  (** [cputime_expires.sched_exp] *)
  uid : Z;  (** [cred->uid] *)
  euid : Z  (** [cred->euid] *)
}.

Definition eta_task_struct (r : task_struct) : task_struct :=
  mk_task_struct
    (state r) (flags r) (on_cpu r) (task_cpu r) (recent_used_cpu r)
    (wake_cpu r) (on_rq r) (prio r) (static_prio r) (normal_prio r)
    (rt_priority r) (sched_class r) (se r) (rt r) (dl r) (ts r) (policy
    r) (nr_cpus_allowed r) (cpus_allowed r) (mm r) (sched_reset_on_fork
    r) (sched_contributes_to_load r) (sched_remote_wakeup r) (in_iowait r) (tif_need_resched r)
    (tif_polling r) (pi_top_task r) (pid r) (nvcsw r) (nivcsw r)
    (sched_exp r) (uid r) (euid r).
#[export] Instance state_field : Field state. Proof. solve_field eta_task_struct. Defined.
#[export] Instance flags_field : Field flags. Proof. solve_field eta_task_struct. Defined.
#[export] Instance on_cpu_field : Field on_cpu. Proof. solve_field eta_task_struct. Defined.
#[export] Instance task_cpu_field : Field task_cpu. Proof. solve_field eta_task_struct. Defined.
#[export] Instance recent_used_cpu_field : Field recent_used_cpu. Proof. solve_field eta_task_struct. Defined.
#[export] Instance wake_cpu_field : Field wake_cpu. Proof. solve_field eta_task_struct. Defined.
#[export] Instance on_rq_field : Field on_rq. Proof. solve_field eta_task_struct. Defined.
#[export] Instance prio_field : Field prio. Proof. solve_field eta_task_struct. Defined.
#[export] Instance static_prio_field : Field static_prio. Proof. solve_field eta_task_struct. Defined.
#[export] Instance normal_prio_field : Field normal_prio. Proof. solve_field eta_task_struct. Defined.
#[export] Instance rt_priority_field : Field rt_priority. Proof. solve_field eta_task_struct. Defined.
#[export] Instance sched_class_field : Field sched_class. Proof. solve_field eta_task_struct. Defined.
#[export] Instance se_field : Field se. Proof. solve_field eta_task_struct. Defined.
#[export] Instance rt_field : Field rt. Proof. solve_field eta_task_struct. Defined.
#[export] Instance dl_field : Field dl. Proof. solve_field eta_task_struct. Defined.
#[export] Instance ts_field : Field ts. Proof. solve_field eta_task_struct. Defined.
#[export] Instance policy_field : Field policy. Proof. solve_field eta_task_struct. Defined.
#[export] Instance nr_cpus_allowed_field : Field nr_cpus_allowed. Proof. solve_field eta_task_struct. Defined.
#[export] Instance cpus_allowed_field : Field cpus_allowed. Proof. solve_field eta_task_struct. Defined.
#[export] Instance mm_field : Field mm. Proof. solve_field eta_task_struct. Defined.
#[export] Instance sched_reset_on_fork_field : Field sched_reset_on_fork. Proof. solve_field eta_task_struct. Defined.
#[export] Instance sched_contributes_to_load_field : Field sched_contributes_to_load. Proof. solve_field eta_task_struct. Defined.
#[export] Instance sched_remote_wakeup_field : Field sched_remote_wakeup. Proof. solve_field eta_task_struct. Defined.
#[export] Instance in_iowait_field : Field in_iowait. Proof. solve_field eta_task_struct. Defined.
#[export] Instance tif_need_resched_field : Field tif_need_resched. Proof. solve_field eta_task_struct. Defined.
#[export] Instance tif_polling_field : Field tif_polling. Proof. solve_field eta_task_struct. Defined.
#[export] Instance pi_top_task_field : Field pi_top_task. Proof. solve_field eta_task_struct. Defined.
#[export] Instance pid_field : Field pid. Proof. solve_field eta_task_struct. Defined.
#[export] Instance nvcsw_field : Field nvcsw. Proof. solve_field eta_task_struct. Defined.
#[export] Instance nivcsw_field : Field nivcsw. Proof. solve_field eta_task_struct. Defined.
#[export] Instance sched_exp_field : Field sched_exp. Proof. solve_field eta_task_struct. Defined.
#[export] Instance uid_field : Field uid. Proof. solve_field eta_task_struct. Defined.
#[export] Instance euid_field : Field euid. Proof. solve_field eta_task_struct. Defined.

(** ** Run queues *)

(** [struct rt_rq] *)
Record rt_rq : Type := mk_rt_rq {
  bitmap : list bool;  (** [active.bitmap], [MAX_RT_PRIO + 1] bits *)
  rt_queue : list (list task);  (** [active.queue] *)
  rt_nr_running : Z;
  rr_nr_running : Z;
  hp_curr : Z;  (** [highest_prio.curr] *)
  hp_next : Z;  (** [highest_prio.next] *)
  rt_nr_migratory : Z;
  rt_nr_total : Z;
  overloaded : Z;
  pushable_tasks : list (Z * task);  (** a plist: node priority and task *)
  rt_queued : Z;
  rt_throttled : Z;
  rt_time : Z;
  rt_runtime : Z
}.

Definition eta_rt_rq (r : rt_rq) : rt_rq :=
  mk_rt_rq
    (bitmap r) (rt_queue r) (rt_nr_running r) (rr_nr_running r) (hp_curr
    r) (hp_next r) (rt_nr_migratory r) (rt_nr_total r) (overloaded r)
    (pushable_tasks r) (rt_queued r) (rt_throttled r) (rt_time r)
    (rt_runtime r).
#[export] Instance bitmap_field : Field bitmap. Proof. solve_field eta_rt_rq. Defined.
#[export] Instance rt_queue_field : Field rt_queue. Proof. solve_field eta_rt_rq. Defined.
#[export] Instance rt_nr_running_field : Field rt_nr_running. Proof. solve_field eta_rt_rq. Defined.
#[export] Instance rr_nr_running_field : Field rr_nr_running. Proof. solve_field eta_rt_rq. Defined.
#[export] Instance hp_curr_field : Field hp_curr. Proof. solve_field eta_rt_rq. Defined.
#[export] Instance hp_next_field : Field hp_next. Proof. solve_field eta_rt_rq. Defined.
#[export] Instance rt_nr_migratory_field : Field rt_nr_migratory. Proof. solve_field eta_rt_rq. Defined.
#[export] Instance rt_nr_total_field : Field rt_nr_total. Proof. solve_field eta_rt_rq. Defined.
#[export] Instance overloaded_field : Field overloaded. Proof. solve_field eta_rt_rq. Defined.
#[export] Instance pushable_tasks_field : Field pushable_tasks. Proof. solve_field eta_rt_rq. Defined.
#[export] Instance rt_queued_field : Field rt_queued. Proof. solve_field eta_rt_rq. Defined.
#[export] Instance rt_throttled_field : Field rt_throttled. Proof. solve_field eta_rt_rq. Defined.
#[export] Instance rt_time_field : Field rt_time. Proof. solve_field eta_rt_rq. Defined.
#[export] Instance rt_runtime_field : Field rt_runtime. Proof. solve_field eta_rt_rq. Defined.

(** [struct rq] *)
Record rq : Type := mk_rq {
  nr_running : Z;
  rq_load_weight : Z;  (** [load.weight] *)
  nr_switches : Z;
  h_nr_running : Z;  (** [cfs.h_nr_running] *)
  rq_rt : rt_rq;  (** [rt] *)
  dl_nr_running : Z;  (** [dl.dl_nr_running] *)
  ts_queue : list (list task);  (** [ts.queue] *)
  nr_uninterruptible : Z;
  curr : task;
  idle : task;
  stop : option task;
  clock_update_flags : Z;
  clock : Z;
  clock_task : Z;
  nr_iowait : Z;
  balance_callback : list Z;  (** the queued callbacks *)
  online : bool;
  idle_stamp : Z;
  avg_idle : Z;
  max_idle_balance_cost : Z;
  wake_list : list task;
  idle_balance : Z;
  nohz_flags : Z
}.

Definition eta_rq (r : rq) : rq :=
  mk_rq
    (nr_running r) (rq_load_weight r) (nr_switches r) (h_nr_running r)
    (rq_rt r) (dl_nr_running r) (ts_queue r) (nr_uninterruptible r)
    (curr r) (idle r) (stop r) (clock_update_flags r) (clock r)
    (clock_task r) (nr_iowait r) (balance_callback r) (online r)
    (idle_stamp r) (avg_idle r) (max_idle_balance_cost r) (wake_list r)
    (idle_balance r) (nohz_flags r).
#[export] Instance nr_running_field : Field nr_running. Proof. solve_field eta_rq. Defined.
#[export] Instance rq_load_weight_field : Field rq_load_weight. Proof. solve_field eta_rq. Defined.
#[export] Instance nr_switches_field : Field nr_switches. Proof. solve_field eta_rq. Defined.
#[export] Instance h_nr_running_field : Field h_nr_running. Proof. solve_field eta_rq. Defined.
#[export] Instance rq_rt_field : Field rq_rt. Proof. solve_field eta_rq. Defined.
#[export] Instance dl_nr_running_field : Field dl_nr_running. Proof. solve_field eta_rq. Defined.
#[export] Instance ts_queue_field : Field ts_queue. Proof. solve_field eta_rq. Defined.
#[export] Instance nr_uninterruptible_field : Field nr_uninterruptible. Proof. solve_field eta_rq. Defined.
#[export] Instance curr_field : Field curr. Proof. solve_field eta_rq. Defined.
#[export] Instance idle_field : Field idle. Proof. solve_field eta_rq. Defined.
#[export] Instance stop_field : Field stop. Proof. solve_field eta_rq. Defined.
#[export] Instance clock_update_flags_field : Field clock_update_flags. Proof. solve_field eta_rq. Defined.
#[export] Instance clock_field : Field clock. Proof. solve_field eta_rq. Defined.
#[export] Instance clock_task_field : Field clock_task. Proof. solve_field eta_rq. Defined.
#[export] Instance nr_iowait_field : Field nr_iowait. Proof. solve_field eta_rq. Defined.
#[export] Instance balance_callback_field : Field balance_callback. Proof. solve_field eta_rq. Defined.
#[export] Instance online_field : Field online. Proof. solve_field eta_rq. Defined.
#[export] Instance idle_stamp_field : Field idle_stamp. Proof. solve_field eta_rq. Defined.
#[export] Instance avg_idle_field : Field avg_idle. Proof. solve_field eta_rq. Defined.
#[export] Instance max_idle_balance_cost_field : Field max_idle_balance_cost. Proof. solve_field eta_rq. Defined.
#[export] Instance wake_list_field : Field wake_list. Proof. solve_field eta_rq. Defined.
#[export] Instance idle_balance_field : Field idle_balance. Proof. solve_field eta_rq. Defined.
#[export] Instance nohz_flags_field : Field nohz_flags. Proof. solve_field eta_rq. Defined.

(** ** The machine *)

(** [struct root_domain] *)
Record root_domain : Type := mk_root_domain {
  rto_count : Z;
  rto_mask : list cpu;
  span : list cpu;
  overload : bool;
  cpupri : cpu -> Z;  (** the last [cpupri_set] of each CPU *)
  rd_dl_bw : Z;  (** [dl_bw.bw] *)
  rto_loop_next : Z;
  rto_loop_start : Z;
  rto_loop : Z;
  rto_cpu : Z;
  rto_push_work : list cpu  (** the [irq_work_queue_on] calls, latest first *)
}.

Definition eta_root_domain (r : root_domain) : root_domain :=
  mk_root_domain
    (rto_count r) (rto_mask r) (span r) (overload r) (cpupri r) (rd_dl_bw r)
    (rto_loop_next r) (rto_loop_start r) (rto_loop r) (rto_cpu r) (rto_push_work r).
#[export] Instance rto_count_field : Field rto_count. Proof. solve_field eta_root_domain. Defined.
#[export] Instance rto_mask_field : Field rto_mask. Proof. solve_field eta_root_domain. Defined.
#[export] Instance span_field : Field span. Proof. solve_field eta_root_domain. Defined.
#[export] Instance overload_field : Field overload. Proof. solve_field eta_root_domain. Defined.
#[export] Instance cpupri_field : Field cpupri. Proof. solve_field eta_root_domain. Defined.
#[export] Instance rd_dl_bw_field : Field rd_dl_bw. Proof. solve_field eta_root_domain. Defined.
#[export] Instance rto_loop_next_field : Field rto_loop_next. Proof. solve_field eta_root_domain. Defined.
#[export] Instance rto_loop_start_field : Field rto_loop_start. Proof. solve_field eta_root_domain. Defined.
#[export] Instance rto_loop_field : Field rto_loop. Proof. solve_field eta_root_domain. Defined.
#[export] Instance rto_cpu_field : Field rto_cpu. Proof. solve_field eta_root_domain. Defined.
#[export] Instance rto_push_work_field : Field rto_push_work. Proof. solve_field eta_root_domain. Defined.

(** [struct rt_bandwidth] *)
Record rt_bandwidth : Type := mk_rt_bandwidth {
  rt_period : Z;
  rt_bw_runtime : Z;  (** [rt_runtime] *)
  rt_period_active : Z;
  timer_active : bool  (** [hrtimer_active(&rt_period_timer)] *)
}.

Definition eta_rt_bandwidth (r : rt_bandwidth) : rt_bandwidth :=
  mk_rt_bandwidth
    (rt_period r) (rt_bw_runtime r) (rt_period_active r) (timer_active
    r).
#[export] Instance rt_period_field : Field rt_period. Proof. solve_field eta_rt_bandwidth. Defined.
#[export] Instance rt_bw_runtime_field : Field rt_bw_runtime. Proof. solve_field eta_rt_bandwidth. Defined.
#[export] Instance rt_period_active_field : Field rt_period_active. Proof. solve_field eta_rt_bandwidth. Defined.
#[export] Instance timer_active_field : Field timer_active. Proof. solve_field eta_rt_bandwidth. Defined.

(** The state the scheduler's code reads and writes *)
Record kstate : Type := mk_kstate {
  tasks : task -> task_struct;
  rqs : cpu -> rq;  (** [cpu_rq(cpu)] *)
  this_cpu : cpu;  (** [smp_processor_id()] *)
  rd : root_domain;  (** every [rq->rd] *)
  def_rt_bandwidth : rt_bandwidth;
  sysctl_sched_rt_period : Z;
  sysctl_sched_rt_runtime : Z;
  sched_rr_timeslice : Z;
  sysctl_sched_rr_timeslice : Z;
  scheduler_running : Z;
  jiffies : Z;
  possible_cpus : list cpu;
  online_cpus : list cpu;
  active_cpus : list cpu;
  hw_clock : cpu -> Z;  (** what [sched_clock_cpu] reads *)
  preempt_need_resched : bool;  (** of the running CPU *)
  resched_ipis : list cpu  (** [smp_send_reschedule] calls, latest first *)
}.

Definition eta_kstate (r : kstate) : kstate :=
  mk_kstate
    (tasks r) (rqs r) (this_cpu r) (rd r) (def_rt_bandwidth r)
    (sysctl_sched_rt_period r) (sysctl_sched_rt_runtime r)
    (sched_rr_timeslice r) (sysctl_sched_rr_timeslice r)
    (scheduler_running r) (jiffies r) (possible_cpus r) (online_cpus r)
    (active_cpus r) (hw_clock r) (preempt_need_resched r) (resched_ipis
    r).
#[export] Instance tasks_field : Field tasks. Proof. solve_field eta_kstate. Defined.
#[export] Instance rqs_field : Field rqs. Proof. solve_field eta_kstate. Defined.
#[export] Instance this_cpu_field : Field this_cpu. Proof. solve_field eta_kstate. Defined.
#[export] Instance rd_field : Field rd. Proof. solve_field eta_kstate. Defined.
#[export] Instance def_rt_bandwidth_field : Field def_rt_bandwidth. Proof. solve_field eta_kstate. Defined.
#[export] Instance sysctl_sched_rt_period_field : Field sysctl_sched_rt_period. Proof. solve_field eta_kstate. Defined.
#[export] Instance sysctl_sched_rt_runtime_field : Field sysctl_sched_rt_runtime. Proof. solve_field eta_kstate. Defined.
#[export] Instance sched_rr_timeslice_field : Field sched_rr_timeslice. Proof. solve_field eta_kstate. Defined.
#[export] Instance sysctl_sched_rr_timeslice_field : Field sysctl_sched_rr_timeslice. Proof. solve_field eta_kstate. Defined.
#[export] Instance scheduler_running_field : Field scheduler_running. Proof. solve_field eta_kstate. Defined.
#[export] Instance jiffies_field : Field jiffies. Proof. solve_field eta_kstate. Defined.
#[export] Instance possible_cpus_field : Field possible_cpus. Proof. solve_field eta_kstate. Defined.
#[export] Instance online_cpus_field : Field online_cpus. Proof. solve_field eta_kstate. Defined.
#[export] Instance active_cpus_field : Field active_cpus. Proof. solve_field eta_kstate. Defined.
#[export] Instance hw_clock_field : Field hw_clock. Proof. solve_field eta_kstate. Defined.
#[export] Instance preempt_need_resched_field : Field preempt_need_resched. Proof. solve_field eta_kstate. Defined.
#[export] Instance resched_ipis_field : Field resched_ipis. Proof. solve_field eta_kstate. Defined.
(** A computation of the kernel. *)
Abbreviation K := (M kstate).

Definition get_task (p : task) : K task_struct := gets (fun s => tasks s p).
Definition set_task (p : task) (f : task_struct -> task_struct) : K unit :=
  modify (fun s => s <| tasks ::= alter f p |>).
Definition get_rq (c : cpu) : K rq := gets (fun s => rqs s c).
Definition set_rq (c : cpu) (f : rq -> rq) : K unit :=
  modify (fun s => s <| rqs ::= alter f c |>).
Definition get_rt (c : cpu) : K rt_rq := gets (fun s => rq_rt (rqs s c)).
Definition set_rt (c : cpu) (f : rt_rq -> rt_rq) : K unit :=
  set_rq c (fun r => r <| rq_rt ::= f |>).

(** [run], through the accesses to the state. *)
Ltac krun := unfold get_task, set_task, get_rq, set_rq, get_rt, set_rt; run.

(** ** Containers

    A [cpumask] is the ascending list of its CPUs.  A [plist] is the list of
    its nodes with the priority each was added with; [plist_add] keeps it
    sorted, behind the nodes of equal priority. *)

Fixpoint cpumask_set_cpu (c : cpu) (m : list cpu) : list cpu :=
  match m with
  | [] => [c]
  | i :: m' => if c =? i then m else if c <? i then c :: m else i :: cpumask_set_cpu c m'
  end.

Definition cpumask_clear_cpu (c : cpu) (m : list cpu) : list cpu :=
  filter (fun i => i <> c) m.

Definition cpumask_test_cpu (c : cpu) (m : list cpu) : bool := bool_decide (c ∈ m).

Fixpoint plist_add (pr : Z) (p : task) (l : list (Z * task)) : list (Z * task) :=
  match l with
  | [] => [(pr, p)]
  | n :: l' => if n.1 <=? pr then n :: plist_add pr p l' else (pr, p) :: l
  end.

Definition plist_del (p : task) (l : list (Z * task)) : list (Z * task) :=
  filter (fun n => n.2 <> p) l.

(** ** What the scheduler is built on

    The feature bits of [kernel/sched/features.h], and the resource limits of
    a task ([task_rlimit] and [task_rlimit_max] of [RLIMIT_RTTIME]). *)

Inductive feature : Type := RT_RUNTIME_SHARE | RT_PUSH_IPI | TTWU_QUEUE.

Class SchedFeat : Type := sched_feat : feature -> bool.

Class Rlimits : Type := {
  rlimit_rttime : task -> Z;
  rlimit_rttime_max : task -> Z
}.

Definition RLIM_INFINITY : Z := u64 (-1).

(** ** Inline helpers *)

Section Policies.
Definition idle_policy (policy : Z) : bool := policy =? SCHED_IDLE.
Definition fair_policy (policy : Z) : bool :=
  (policy =? SCHED_NORMAL) || (policy =? SCHED_BATCH).
Definition rt_policy (policy : Z) : bool :=
  (policy =? SCHED_FIFO) || (policy =? SCHED_RR).
Definition dl_policy (policy : Z) : bool := policy =? SCHED_DEADLINE.
Definition ts_policy (policy : Z) : bool := policy =? SCHED_TS.
Definition valid_policy (policy : Z) : bool :=
  idle_policy policy || fair_policy policy || rt_policy policy
  || dl_policy policy || ts_policy policy.
End Policies.

Definition task_has_rt_policy (p : task_struct) : bool := rt_policy (policy p).
Definition task_has_dl_policy (p : task_struct) : bool := dl_policy (policy p).
Definition task_nice (p : task_struct) : Z := PRIO_TO_NICE (static_prio p).
Definition rt_task (p : task_struct) : bool := rt_prio (prio p).
Definition dl_task (p : task_struct) : bool := dl_prio (prio p).

Definition task_on_rq_queued (p : task_struct) : bool := on_rq p =? TASK_ON_RQ_QUEUED.
Definition task_on_rq_migrating (p : task_struct) : bool := on_rq p =? TASK_ON_RQ_MIGRATING.
Definition task_current (r : rq) (p : task) : bool := bool_decide (curr r = p).
Definition task_running (p : task_struct) : bool := negb (on_cpu p =? 0).

Definition task_contributes_to_load (p : task_struct) : bool :=
  has (state p) TASK_UNINTERRUPTIBLE && negb (has (flags p) PF_FROZEN)
  && negb (has (state p) TASK_NOLOAD).

(** [!CONFIG_64BIT] aside: on 64-bit machines loads carry ten more bits. *)
Definition SCHED_FIXEDPOINT_SHIFT : Z := 10.
Definition scale_load (w : Z) : Z := u64 (Z.shiftl w SCHED_FIXEDPOINT_SHIFT).
Definition scale_load_down (w : Z) : Z :=
  if negb (w =? 0) then Z.max 2 (Z.shiftr w SCHED_FIXEDPOINT_SHIFT) else w.

Definition add_nr_running (c : cpu) (count : Z) : K unit :=
  let! r := get_rq c in
  let prev_nr := nr_running r in
  do! set_rq c (fun r => r <| nr_running := u32 (prev_nr + count) |>) in
  let! r := get_rq c in
  when ((prev_nr <? 2) && (2 <=? nr_running r))
       (let! d := gets rd in
        when (negb (overload d)) (modify (fun s => s <| rd ::= fun d => d <| overload := true |> |>))).

Definition sub_nr_running (c : cpu) (count : Z) : K unit :=
  set_rq c (fun r => r <| nr_running ::= fun n => u32 (n - count) |>).

Definition rq_clock_skip_update (c : cpu) : K unit :=
  set_rq c (fun r => r <| clock_update_flags ::= fun f => Z.lor f RQCF_REQ_SKIP |>).

Definition rq_clock_cancel_skipupdate (c : cpu) : K unit :=
  set_rq c (fun r => r <| clock_update_flags ::= fun f => Z.land f (Z.lnot RQCF_REQ_SKIP) |>).

Definition global_rt_period (s : kstate) : Z := u64 (u64 (sysctl_sched_rt_period s) * 1000).
Definition global_rt_runtime (s : kstate) : Z :=
  if sysctl_sched_rt_runtime s <? 0 then RUNTIME_INF
  else u64 (u64 (sysctl_sched_rt_runtime s) * 1000).
Definition rt_bandwidth_enabled (s : kstate) : bool := 0 <=? sysctl_sched_rt_runtime s.
Definition dl_bandwidth_enabled (s : kstate) : bool := 0 <=? sysctl_sched_rt_runtime s.

(** ** Clocks and rescheduling ([core.c]) *)

Definition update_rq_clock_task (c : cpu) (delta : Z) : K unit :=
  set_rq c (fun r => r <| clock_task ::= fun t => u64 (t + delta) |>).

Definition update_rq_clock (c : cpu) : K unit :=
  let! r := get_rq c in
  if has (clock_update_flags r) RQCF_ACT_SKIP then ret tt else
  let! now := gets (fun s => hw_clock s c) in
  let delta := s64 (now - clock r) in
  if delta <? 0 then ret tt else
  do! set_rq c (fun r => r <| clock ::= fun t => u64 (t + delta) |>) in
  update_rq_clock_task c delta.

Definition set_tsk_need_resched (p : task) : K unit :=
  set_task p (fun t => t <| tif_need_resched := true |>).
Definition clear_tsk_need_resched (p : task) : K unit :=
  set_task p (fun t => t <| tif_need_resched := false |>).

Definition set_nr_and_not_polling (p : task) : K bool :=
  let! t := get_task p in
  do! set_tsk_need_resched p in
  ret (negb (tif_polling t)).

Definition set_nr_if_polling (p : task) : K bool :=
  let! t := get_task p in
  if negb (tif_polling t) then ret false else
  if tif_need_resched t then ret true else
  do! set_tsk_need_resched p in ret true.

Definition resched_curr (c : cpu) : K unit :=
  let! r := get_rq c in
  let! t := get_task (curr r) in
  if tif_need_resched t then ret tt else
  let! me := gets this_cpu in
  if bool_decide (c = me) then
    do! set_tsk_need_resched (curr r) in
    modify (fun s => s <| preempt_need_resched := true |>)
  else
    let! ipi := set_nr_and_not_polling (curr r) in
    when ipi (modify (fun s => s <| resched_ipis ::= cons c |>)).

Definition resched_cpu (c : cpu) : K unit :=
  let! on := gets online_cpus in
  let! me := gets this_cpu in
  when (bool_decide (c ∈ on) || bool_decide (c = me)) (resched_curr c).

(** The callbacks of a run queue are a list linked by their [next] fields, and
    [head->next] of the last one is null, so only the others are recognised as
    queued already. *)
Definition queue_balance_callback (c : cpu) (f : Z) : K unit :=
  let! r := get_rq c in
  if bool_decide (f ∈ removelast (balance_callback r)) then ret tt else
  set_rq c (fun r => r <| balance_callback ::= cons f |>).

(** [g'] is [g] with the run queue of [c] changed by [F]. *)
Definition rq_upd (c : cpu) (F : rq -> rq) (g g' : cpu -> rq) : Prop :=
  g' c = F (g c) /\ forall i, i <> c -> g' i = g i.

Lemma rq_upd_alter c F g : rq_upd c F g (alter F c g).
Proof. split; [by rewrite fn_lookup_alter | intros; by rewrite fn_lookup_alter_ne]. Qed.

Lemma rq_upd_id c F g : F (g c) = g c -> rq_upd c F g g.
Proof. done. Qed.

Lemma rq_upd_trans c F G g1 g2 g3 :
  rq_upd c F g1 g2 -> rq_upd c G g2 g3 -> rq_upd c (fun r => G (F r)) g1 g3.
Proof.
  intros [H1 H1'] [H2 H2']. split; [by rewrite H2, H1 | intros; by rewrite H2', H1'].
Qed.

(** [add_nr_running] changes the count of [c] and perhaps the overload flag of
    the root domain. *)
Lemma add_nr_running_run c n s :
  exists b, add_nr_running c n s
    = Done (tt, s <| rqs ::= alter (fun r => r <| nr_running := u32 (nr_running (rqs s c) + n) |>) c |>
                  <| rd ::= fun d => d <| overload := b |> |>).
Proof.
  unfold add_nr_running. krun.
  match goal with |- context [when ?b _] => destruct b end; krun.
  - destruct (overload (rd s)) eqn:Ho; krun; [exists true | exists true]; [|done].
    destruct s as [? ? ? []]. simpl in *. by rewrite Ho.
  - exists (overload (rd s)). by destruct s as [? ? ? []].
Qed.

(** [resched_curr] only raises the flag of the running task, and may send an
    interrupt. *)
Lemma resched_curr_run c s :
  exists ts' pn ips,
    resched_curr c s = Done (tt, s <| tasks := ts' |> <| preempt_need_resched := pn |>
                                   <| resched_ipis := ips |>) /\
    (forall p, ts' p = tasks s p \/ ts' p = tasks s p <| tif_need_resched := true |>) /\
    tif_need_resched (ts' (curr (rqs s c))) = true.
Proof.
  unfold resched_curr, set_nr_and_not_polling, set_tsk_need_resched. krun.
  destruct (tif_need_resched (tasks s (curr (rqs s c)))) eqn:Hr.
  { exists (tasks s), (preempt_need_resched s), (resched_ipis s). split; [by destruct s | eauto]. }
  set (f := alter (fun t => t <| tif_need_resched := true |>) (curr (rqs s c)) (tasks s)).
  assert (Hf : forall p, f p = tasks s p \/ f p = tasks s p <| tif_need_resched := true |>).
  { intros p. unfold f. destruct (decide (p = curr (rqs s c))) as [->|].
    - right. by rewrite fn_lookup_alter.
    - left. by rewrite fn_lookup_alter_ne. }
  assert (Hc : tif_need_resched (f (curr (rqs s c))) = true)
    by (unfold f; by rewrite fn_lookup_alter).
  krun. case_bool_decide.
  - exists f, true, (resched_ipis s). by destruct s.
  - krun. destruct (tif_polling (tasks s (curr (rqs s c)))) eqn:Hp.
    + exists f, (preempt_need_resched s), (resched_ipis s). by destruct s.
    + exists f, (preempt_need_resched s), (c :: resched_ipis s). by destruct s.
Qed.

(** ** Calls through [p->sched_class]

    A scheduling class calls one method of the others, [put_prev_task], on
    the task that was running. *)

Class PutPrev : Type := put_prev_op : sched_class_t -> cpu -> task -> K unit.

Definition put_prev_task `{PutPrev} (c : cpu) (prev : task) : K unit :=
  let! t := get_task prev in
  put_prev_op (sched_class t) c prev.
#[global] Arguments put_prev_task {_} _ _ : simpl never.

(** What [pick_next_task] of a class returns: [RETRY_TASK], [NULL] or a task. *)
Inductive picked : Type := RETRY_TASK | NO_TASK | PICKED (p : task).

(** The operations of [core.c] that the classes call to move a task. *)
Class CoreOps : Type := {
  deactivate_task_op : cpu -> task -> Z -> K unit;
  set_task_cpu_op : task -> cpu -> K unit;
  activate_task_op : cpu -> task -> Z -> K unit
}.

(** ** A small machine

    Two CPUs, idle, with tasks of default priority: the concrete state on
    which the theorems are instantiated. *)

Module Machine.
Definition task0 : task_struct :=
  mk_task_struct TASK_RUNNING 0 0 0 0 0 0 120 120 120 0 fair_sched_class
    (mk_sched_entity 0 0 0 0 0 0 0 0) (mk_sched_rt_entity 0 0 100 0 0)
    (mk_sched_dl_entity 0 0 0 0 0 0) (mk_sched_ts_entity 0)
    SCHED_NORMAL 2 [0; 1] true 0 0 0 0 false false None 0 0 0 0 0 0.
Definition rt_rq0 : rt_rq :=
  mk_rt_rq (repeat false 100 ++ [true]) (repeat [] 100) 0 0 MAX_RT_PRIO MAX_RT_PRIO
    0 0 0 [] 0 0 0 950000000.
Definition rq0 (c : cpu) : rq :=
  mk_rq 0 0 0 0 rt_rq0 0 (repeat [] 40) 0 (- c - 1) (- c - 1) None 0 0 0 0 [] true 0 0 0 [] 0 0.
Definition rd0 : root_domain := mk_root_domain 0 [] [0; 1] false (fun _ => -1) 0 0 0 0 (-1) [].
(** The idle task of CPU [c] is task [-c-1]. *)
Definition tasks0 (p : task) : task_struct :=
  if p <? 0 then
    task0 <| sched_class := idle_sched_class |> <| prio := 140 |> <| on_rq := 1 |>
          <| task_cpu := - p - 1 |> <| on_cpu := 1 |>
  else task0.
Definition machine0 : kstate :=
  mk_kstate tasks0 rq0 0 rd0 (mk_rt_bandwidth 1000000000 950000000 0 false)
    1000000 950000 100 100 1 1000 [0; 1] [0; 1] [0; 1] (fun _ => 0) false [].

(** The state a computation ends in. *)
Definition after {A} (m : K A) (s : kstate) : kstate :=
  match m s with Done (_, s') => s' | Crash _ => s end.
End Machine.
