(* ===== verification/Ts.v ===== *)
(** * The time-sharing class ([kernel/sched/ts.c])

    Forty FIFO queues, one per level; level [i] holds the tasks of priority
    [139 - i], so a higher level is a higher priority.  [printk] calls are
    left out: they change no state. *)

From S2P Require Import Prelude Sched.

Definition MAX_TS_PRIO : nat := 40.

(** ** Levels and slices *)

Definition get_new_prio (prio type : Z) : Z :=
  let prio := 139 - prio in
  if (prio <? 0) || (39 <? prio) then 139 else
  let new_prio :=
    if type =? 0 then
      if prio <? 10 then 0 else prio - 10
    else
      if prio <? 10 then 30
      else if prio <? 20 then 31
      else if prio <? 25 then prio + 12
      else if prio <? 27 then prio + 11
      else if prio =? 27 then 37
      else if prio <? 30 then 38
      else 39 in
  139 - new_prio.

Definition get_num_ticks (prio : Z) : Z :=
  let prio := 139 - prio in
  if prio <? 0 then 0
  else if prio <? 10 then 16
  else if prio <? 20 then 12
  else if prio <? 30 then 8
  else if prio <? 40 then 4
  else 0.

(** ** Operations on a run queue *)

Definition ts_level (p : task_struct) : Z := 139 - prio p.

Definition init_ts_rq (c : cpu) : K unit :=
  set_rq c (fun r => r <| ts_queue := repeat [] MAX_TS_PRIO |>).

(** Apply a list operation to [rq->ts.queue]. *)
Definition on_ts_queue (c : cpu) (f : list (list task) -> option (list (list task))) : K unit :=
  let! r := get_rq c in
  let! q := require BadLink (f (ts_queue r)) in
  set_rq c (fun r => r <| ts_queue := q |>).

Definition enqueue_task_ts (c : cpu) (p : task) (flags : Z) : K unit :=
  let! t := get_task p in
  let idx := 139 - prio t in
  do! when (has flags ENQUEUE_WAKEUP)
        (set_task p (fun t => t <| prio := get_new_prio (prio t) 1 |>)) in
  on_ts_queue c (Klist.list_add_tail p idx).

Definition dequeue_task_ts (c : cpu) (p : task) (flags : Z) : K unit :=
  on_ts_queue c (Klist.list_del p).

Definition yield_task_ts (c : cpu) : K unit :=
  let! r := get_rq c in
  let! t := get_task (curr r) in
  let idx := 139 - prio t in
  on_ts_queue c (Klist.list_move_tail (curr r) idx).

Definition check_preempt_curr_ts (c : cpu) (p : task) (flags : Z) : K unit :=
  let! r := get_rq c in
  let! tc := get_task (curr r) in
  let! t := get_task p in
  when (prio t <? prio tc) (resched_curr c).

(** The loop [for (i = MAX_TS_PRIO - 1; i >= 0; i--)]: [n] is [i + 1]. *)
Fixpoint first_ts_entity (q : list (list task)) (n : nat) : option task :=
  match n with
  | O => None
  | S i => if Klist.list_empty (Z.of_nat i) q then first_ts_entity q i
           else Klist.list_first (Z.of_nat i) q
  end.

#[global] Arguments first_ts_entity : simpl never.

Definition pick_next_task_ts `{PutPrev} (c : cpu) (prev : task) : K (option task) :=
  let! r := get_rq c in
  match first_ts_entity (ts_queue r) MAX_TS_PRIO with
  | None => ret None
  | Some p => do! put_prev_task c prev in ret (Some p)
  end.

Definition put_prev_task_ts (c : cpu) (p : task) : K unit := ret tt.
Definition set_curr_task_ts (c : cpu) : K unit := ret tt.

Definition task_tick_ts (c : cpu) (p : task) (queued : Z) : K unit :=
  let! t := get_task p in
  if negb (policy t =? SCHED_TS) then ret tt else
  do! set_task p (fun t => t <| ts ::= fun e => e <| ts_time_slice ::= fun n => u32 (n - 1) |> |>) in
  let! t := get_task p in
  if negb (ts_time_slice (ts t) =? 0) then ret tt else
  do! set_task p (fun t => t <| prio := get_new_prio (prio t) 0 |>) in
  do! set_task p (fun t => t <| ts ::= fun e => e <| ts_time_slice := u32 (get_num_ticks (prio t)) |> |>) in
  let! t := get_task p in
  let idx := 139 - prio t in
  do! on_ts_queue c (Klist.list_move_tail p idx) in
  resched_curr c.

Definition get_rr_interval_ts (c : cpu) (p : task) : K Z :=
  let! t := get_task p in
  ret (u32 (get_num_ticks (prio t))).

Definition prio_changed_ts (c : cpu) (p : task) (oldprio : Z) : K unit := ret tt.
Definition switched_to_ts (c : cpu) (p : task) : K unit := ret tt.
Definition update_curr_ts (c : cpu) : K unit := ret tt.
Definition select_task_rq_ts (p : task) (c : cpu) (sd_flag flags : Z) : K cpu :=
  let! t := get_task p in
  ret (task_cpu t).

(** ** Levels and slices: what the two tables are *)

Section Tables.
Implicit Types prio type : Z.

(** The tables on a valid priority, by its level. *)
Lemma get_new_prio_valid prio type :
  100 <= prio <= 139 -> 100 <= get_new_prio prio type <= 139.
Proof.
  intros H. unfold get_new_prio.
  split_ifs; lia.
Qed.

Lemma get_num_ticks_valid prio :
  100 <= prio <= 139 -> 4 <= get_num_ticks prio <= 16.
Proof.
  intros H. unfold get_num_ticks.
  split_ifs; lia.
Qed.

Lemma get_new_prio_expire prio :
  100 <= prio <= 139 -> get_new_prio prio 0 = Z.min 139 (prio + 10).
Proof.
  intros H. unfold get_new_prio.
  split_ifs; lia.
Qed.

Lemma get_new_prio_sleep prio :
  100 < prio <= 139 -> get_new_prio prio 1 < prio.
Proof.
  intros H. unfold get_new_prio.
  split_ifs; lia.
Qed.

Lemma get_new_prio_sleep_mono prio prio' :
  100 <= prio <= prio' -> prio' <= 139 -> get_new_prio prio 1 <= get_new_prio prio' 1.
Proof.
  intros H H'. unfold get_new_prio.
  split_ifs; lia.
Qed.

Lemma get_num_ticks_mono prio prio' :
  100 <= prio <= prio' -> prio' <= 139 -> get_num_ticks prio <= get_num_ticks prio'.
Proof.
  intros H H'. unfold get_num_ticks.
  split_ifs; lia.
Qed.
End Tables.

(** ** The queues *)

(** The queues of [s] on CPU [c] are those of [q]. *)
Definition ts_put (c : cpu) (q : list (list task)) (s : kstate) : kstate :=
  s <| rqs ::= alter (fun r => r <| ts_queue := q |>) c |>.

Definition task_put (p : task) (f : task_struct -> task_struct) (s : kstate) : kstate :=
  s <| tasks ::= alter f p |>.

(** Forty well-formed queues of tasks of valid priority. *)
Definition ts_wf_q (q : list (list task)) (pr : task -> Z) : Prop :=
  length q = MAX_TS_PRIO /\ Klist.wf q /\ forall p, p ∈ concat q -> 100 <= pr p <= 139.

(** Every queued task is on the queue of its level. *)
Definition ts_sorted_q (q : list (list task)) (pr : task -> Z) : Prop :=
  forall i l p, Klist.at_index q i = Some l -> p ∈ l -> 139 - pr p = i.

Definition prio_of (s : kstate) (p : task) : Z := prio (tasks s p).
Definition ts_q (c : cpu) (s : kstate) : list (list task) := ts_queue (rqs s c).
Definition ts_wf (c : cpu) (s : kstate) : Prop := ts_wf_q (ts_q c s) (prio_of s).
Definition ts_sorted (c : cpu) (s : kstate) : Prop := ts_sorted_q (ts_q c s) (prio_of s).
Definition ts_queued (c : cpu) (s : kstate) (p : task) : Prop := p ∈ concat (ts_q c s).

Section Queues.
Implicit Types (q : list (list task)) (pr : task -> Z) (p : task).

Lemma wf_q_level q pr prio :
  ts_wf_q q pr -> 100 <= prio <= 139 -> exists l, Klist.at_index q (139 - prio) = Some l.
Proof.
  intros (Hlen & _) Hp. apply Klist.at_index_is_Some. rewrite Hlen. unfold MAX_TS_PRIO. lia.
Qed.

Lemma wf_q_put_tail q pr p i l :
  ts_wf_q q pr -> p ∉ concat q -> 100 <= pr p <= 139 -> Klist.at_index q i = Some l ->
  ts_wf_q (Klist.put_at i (l ++ [p]) q) pr.
Proof.
  intros (Hlen & Hwf & Hpr) Hp Hprio Hl.
  split; [by rewrite Klist.length_put | split; [by apply Klist.wf_put_tail|]].
  intros x. rewrite (Klist.put_tail_perm _ _ _ _ Hl).
  intros [->|Hx]%elem_of_cons; [done | by apply Hpr].
Qed.

Lemma wf_q_unlink q pr p : ts_wf_q q pr -> ts_wf_q (Klist.unlink p q) pr.
Proof.
  intros (Hlen & Hwf & Hpr).
  split; [by rewrite Klist.length_unlink | split; [by apply Klist.wf_unlink|]].
  intros x [Hx _]%Klist.elem_unlink. by apply Hpr.
Qed.

Lemma wf_q_ext q pr pr' :
  ts_wf_q q pr -> (forall p, p ∈ concat q -> pr' p = pr p) -> ts_wf_q q pr'.
Proof.
  intros (Hlen & Hwf & Hpr) He. split; [done | split; [done|]].
  intros p Hp. rewrite He by done. by apply Hpr.
Qed.

Lemma sorted_q_put_tail q pr p i l :
  ts_sorted_q q pr -> 139 - pr p = i -> Klist.at_index q i = Some l ->
  ts_sorted_q (Klist.put_at i (l ++ [p]) q) pr.
Proof.
  intros Hs Hp Hl j l' x. rewrite Klist.at_index_put by (apply Klist.at_index_is_Some; eauto).
  case_decide as Hij; [|by apply Hs].
  intros [= <-] [Hx|Hx]%elem_of_app; [subst j; by eapply Hs|].
  apply list_elem_of_singleton in Hx. congruence.
Qed.

Lemma sorted_q_unlink q pr p : ts_sorted_q q pr -> ts_sorted_q (Klist.unlink p q) pr.
Proof.
  intros Hs i l x. rewrite Klist.at_index_unlink, fmap_Some.
  intros (l' & Hl & ->) [_ Hx]%list_elem_of_filter. by eapply Hs.
Qed.

Lemma sorted_q_ext q pr pr' :
  ts_sorted_q q pr -> (forall p, p ∈ concat q -> pr' p = pr p) -> ts_sorted_q q pr'.
Proof.
  intros Hs He i l p Hl Hp. rewrite He by by eapply Klist.at_index_elem. by eapply Hs.
Qed.

(** Moving a queued task to the tail of the level of its priority. *)
Lemma move_tail_spec q pr p :
  ts_wf_q q pr -> p ∈ concat q ->
  exists q', Klist.list_move_tail p (139 - pr p) q = Some q' /\ ts_wf_q q' pr /\
    (ts_sorted_q (Klist.unlink p q) pr -> ts_sorted_q q' pr) /\
    concat q' ≡ₚ concat q.
Proof.
  intros Hwf Hp. pose proof Hwf as (_ & Hq & Hpr).
  pose proof (wf_q_unlink _ _ p Hwf) as Hwf'.
  destruct (wf_q_level _ _ _ Hwf' (Hpr p Hp)) as [l Hl].
  exists (Klist.put_at (139 - pr p) (l ++ [p]) (Klist.unlink p q)). split; [|split; [|split]].
  - unfold Klist.list_move_tail.
    rewrite (proj2 (Klist.list_del_Some p q _)) by done. simpl.
    apply Klist.list_add_tail_Some. split; [apply Klist.unlink_not_elem | eauto].
  - apply wf_q_put_tail; [done | apply Klist.unlink_not_elem | by apply Hpr | done].
  - intros Hs. by apply sorted_q_put_tail.
  - rewrite (Klist.put_tail_perm _ _ _ _ Hl). by apply Klist.unlink_perm.
Qed.
End Queues.

Section Operations.
Implicit Types (c : cpu) (p : task) (s : kstate) (q : list (list task)).

Lemma on_ts_queue_done c f s q :
  f (ts_q c s) = Some q -> on_ts_queue c f s = Done (tt, ts_put c q s).
Proof. intros H. unfold on_ts_queue. krun. unfold ts_q in H. by rewrite H. Qed.

Lemma ts_q_put c q s : ts_q c (ts_put c q s) = q.
Proof. unfold ts_q, ts_put. simpl. by rewrite fn_lookup_alter. Qed.

Lemma ts_q_task_put c p f s : ts_q c (task_put p f s) = ts_q c s.
Proof. done. Qed.

Lemma prio_of_put c q s : prio_of (ts_put c q s) = prio_of s.
Proof. done. Qed.

Lemma prio_of_task_put p f s : prio_of (task_put p f s) p = prio (f (tasks s p)).
Proof. unfold prio_of, task_put. simpl. by rewrite fn_lookup_alter. Qed.

Lemma prio_of_task_put_ne p x f s : x <> p -> prio_of (task_put p f s) x = prio_of s x.
Proof. intros H. unfold prio_of, task_put. simpl. by rewrite fn_lookup_alter_ne. Qed.

(** Changing the priority of a task that is not queued. *)
Lemma wf_q_new_prio q s p f :
  ts_wf_q q (prio_of s) -> p ∉ concat q -> ts_wf_q q (prio_of (task_put p f s)).
Proof.
  intros Hwf Hp. eapply wf_q_ext; [done|]. intros x Hx. apply prio_of_task_put_ne. congruence.
Qed.

Lemma sorted_q_new_prio q s p f :
  ts_sorted_q q (prio_of s) -> p ∉ concat q -> ts_sorted_q q (prio_of (task_put p f s)).
Proof.
  intros Hwf Hp. eapply sorted_q_ext; [done|]. intros x Hx. apply prio_of_task_put_ne. congruence.
Qed.

Lemma resched_curr_ts c s :
  exists s', resched_curr c s = Done (tt, s') /\ ts_q c s' = ts_q c s /\
    (forall p, prio_of s' p = prio_of s p /\ ts (tasks s' p) = ts (tasks s p) /\
               policy (tasks s' p) = policy (tasks s p)) /\
    tif_need_resched (tasks s' (curr (rqs s c))) = true /\ rqs s' = rqs s.
Proof.
  destruct (resched_curr_run c s) as (f & pn & ips & -> & Hf & Hc).
  eexists. split; [reflexivity|]. split; [done | split; [|done]]. intros p. unfold prio_of. simpl.
  by destruct (Hf p) as [-> | ->].
Qed.
End Operations.

(** What the class relies on when it calls [put_prev_task] of another class:
    the call ends, and leaves the queues and the priorities alone. *)
Class PutPrevTs `{PutPrev} : Prop :=
  put_prev_ts : forall c prev s, exists s',
    put_prev_task c prev s = Done (tt, s') /\
    (forall c', ts_q c' s' = ts_q c' s) /\ (forall p, prio_of s' p = prio_of s p).

(** ** What each operation does *)

Section Specs.
Implicit Types (c : cpu) (p : task) (s : kstate).

Lemma enqueue_task_ts_run c p fl s :
  ts_wf c s -> ~ ts_queued c s p -> 100 <= prio_of s p <= 139 ->
  exists l s', Klist.at_index (ts_q c s) (139 - prio_of s p) = Some l /\
    enqueue_task_ts c p fl s = Done (tt, s') /\
    ts_q c s' = Klist.put_at (139 - prio_of s p) (l ++ [p]) (ts_q c s) /\
    prio_of s' p = (if has fl ENQUEUE_WAKEUP then get_new_prio (prio_of s p) 1
                    else prio_of s p) /\
    (forall x, x <> p -> prio_of s' x = prio_of s x).
Proof.
  intros Hwf Hp Hprio. destruct (wf_q_level _ _ _ Hwf Hprio) as [l Hl].
  pose proof (proj2 (Klist.list_add_tail_Some p _ _ _) (conj Hp (ex_intro _ l (conj Hl eq_refl))))
    as Hadd.
  unfold enqueue_task_ts. krun. fold (prio_of s p).
  destruct (has fl ENQUEUE_WAKEUP); krun; exists l; eexists; (split; [done|]).
  - pose (s1 := task_put p (fun t => t <| prio := get_new_prio (prio t) 1 |>) s).
    split; [by apply (on_ts_queue_done c _ s1)|]. rewrite ts_q_put, prio_of_put.
    split; [done | split].
    + unfold s1. by rewrite prio_of_task_put.
    + intros x Hx. by apply prio_of_task_put_ne.
  - split; [by apply on_ts_queue_done|]. by rewrite ts_q_put.
Qed.

Lemma dequeue_task_ts_run c p fl s :
  ts_queued c s p ->
  dequeue_task_ts c p fl s = Done (tt, ts_put c (Klist.unlink p (ts_q c s)) s).
Proof. intros Hp. apply on_ts_queue_done. by apply Klist.list_del_Some. Qed.

Lemma yield_task_ts_run c s :
  ts_wf c s -> ts_queued c s (curr (rqs s c)) ->
  exists q', Klist.list_move_tail (curr (rqs s c)) (139 - prio_of s (curr (rqs s c)))
               (ts_q c s) = Some q' /\
    yield_task_ts c s = Done (tt, ts_put c q' s) /\
    ts_wf c (ts_put c q' s) /\ (ts_sorted c s -> ts_sorted c (ts_put c q' s)).
Proof.
  intros Hwf Hp. destruct (move_tail_spec _ _ _ Hwf Hp) as (q' & Hq' & Hwf' & Hs & _).
  exists q'. split; [done | split; [|split]].
  - unfold yield_task_ts. krun. by apply on_ts_queue_done.
  - unfold ts_wf. by rewrite ts_q_put.
  - intros Hsort. unfold ts_sorted. rewrite ts_q_put. apply Hs. by apply sorted_q_unlink.
Qed.

(** A tick that leaves time on the slice. *)
Lemma task_tick_ts_running c p k s :
  policy (tasks s p) = SCHED_TS -> ts_time_slice (ts (tasks s p)) = k -> 1 < k < 2 ^ 32 ->
  exists s', task_tick_ts c p 0 s = Done (tt, s') /\ ts_q c s' = ts_q c s /\
    (forall x, prio_of s' x = prio_of s x) /\ policy (tasks s' p) = SCHED_TS /\
    ts_time_slice (ts (tasks s' p)) = k - 1.
Proof.
  intros Hpol Hk Hlt. unfold task_tick_ts. krun. rewrite Hpol. krun.
  rewrite fn_lookup_alter. simpl. rewrite Hk, u32_small by lia.
  destruct (Z.eqb_spec (k - 1) 0); [lia|]. krun. eexists. split; [done|]. simpl.
  rewrite fn_lookup_alter. simpl. rewrite Hk, u32_small by lia.
  split; [done | split; [|done]]. intros x. unfold prio_of. simpl.
  destruct (decide (x = p)) as [->|]; [by rewrite fn_lookup_alter | by rewrite fn_lookup_alter_ne].
Qed.

(** The tick that ends the slice. *)
Lemma task_tick_ts_expired c p s :
  ts_wf c s -> ts_queued c s p ->
  policy (tasks s p) = SCHED_TS -> ts_time_slice (ts (tasks s p)) = 1 ->
  exists s', task_tick_ts c p 0 s = Done (tt, s') /\ ts_wf c s' /\ ts_queued c s' p /\
    (ts_sorted c s -> ts_sorted c s') /\
    prio_of s' p = Z.min 139 (prio_of s p + 10) /\
    (forall x, x <> p -> prio_of s' x = prio_of s x) /\
    policy (tasks s' p) = SCHED_TS /\
    ts_time_slice (ts (tasks s' p)) = get_num_ticks (prio_of s' p) /\
    tif_need_resched (tasks s' (curr (rqs s c))) = true /\
    Klist.list_move_tail p (139 - prio_of s' p) (ts_q c s) = Some (ts_q c s').
Proof.
  intros Hwf Hp Hpol Hk. pose proof (proj2 (proj2 Hwf) p Hp) as Hprio.
  unfold task_tick_ts. krun. rewrite Hpol. krun. rewrite fn_lookup_alter. simpl. rewrite Hk.
  rewrite u32_small by lia. krun. rewrite !fn_lookup_alter. simpl.
  rewrite get_new_prio_expire by done.
  set (pr := Z.min 139 (prio (tasks s p) + 10)).
  assert (Hpr : 100 <= pr <= 139) by (unfold prio_of in *; lia).
  match goal with |- exists s', bind (on_ts_queue c _) _ ?t = _ /\ _ => set (s1 := t) end.
  assert (Ht : tasks s1 p = tasks s p <| ts := mk_sched_ts_entity (get_num_ticks pr) |>
                              <| prio := pr |>).
  { unfold s1. simpl. rewrite !fn_lookup_alter. simpl. rewrite get_new_prio_expire by done.
    fold pr. rewrite u32_small; [done|]. pose proof (get_num_ticks_valid pr Hpr). lia. }
  assert (Hne : forall x, x <> p -> prio_of s1 x = prio_of s x).
  { intros x Hx. unfold s1, prio_of. simpl. by rewrite !fn_lookup_alter_ne. }
  assert (Hwf1 : ts_wf c s1).
  { destruct Hwf as (? & ? & Hr). split; [done | split; [done|]]. intros x Hx.
    destruct (decide (x = p)) as [->|]; [|by rewrite Hne; [apply Hr|]].
    unfold prio_of. by rewrite Ht. }
  assert (Hp1 : prio_of s1 p = pr) by (unfold prio_of; by rewrite Ht).
  destruct (move_tail_spec (ts_q c s1) (prio_of s1) p) as (q' & Hq' & Hwf' & Hs' & Hperm);
    [done | done |].
  rewrite (bind_done _ _ _ _ _ (on_ts_queue_done c _ s1 q' ltac:(by rewrite Hp1 in Hq'))).
  destruct (resched_curr_ts c (ts_put c q' s1)) as (s' & -> & Hq & Hf & Hres & _).
  assert (Hf' : forall x, prio_of s' x = prio_of s1 x) by (intros x; apply Hf).
  rewrite ts_q_put in Hq. exists s'. split; [done|].
  split. { unfold ts_wf. rewrite Hq. eapply wf_q_ext; [apply Hwf'|]. intros. apply Hf'. }
  split. { unfold ts_queued. by rewrite Hq, Hperm. }
  split. { intros Hs. unfold ts_sorted. rewrite Hq.
           eapply sorted_q_ext; [apply Hs'|intros; apply Hf'].
           eapply sorted_q_ext; [by apply sorted_q_unlink|].
           intros x [_ Hx]%Klist.elem_unlink. by apply Hne. }
  rewrite Hf', Hp1. split; [done|].
  split. { intros x Hx. rewrite Hf'. by apply Hne. }
  destruct (Hf p) as (_ & -> & ->). change (tasks (ts_put c q' s1)) with (tasks s1).
  rewrite Ht. split; [done|].
  split; [done|]. split; [|by rewrite Hq, <- Hp1].
  unfold ts_put, s1 in Hres. simpl in Hres. by rewrite fn_lookup_alter in Hres.
Qed.
End Specs.

(** ** Reachable queues *)

(** One operation of the class on CPU [c], called as the core calls it: a task
    is enqueued when it is not queued and dequeued, yielded or ticked when it
    is; [ev_frame] is any other code of the kernel, which leaves the queues
    and the priorities of queued tasks alone.  [fls] are the flags that
    enqueues may have.  The event is the task that takes its place behind the
    others of its level, if any: one that is enqueued, that yields, or whose
    slice ends. *)
Inductive ts_event `{PutPrev} (fls : Z -> Prop) (c : cpu) : option task -> kstate -> kstate -> Prop :=
| ev_enqueue p fl s s' :
    fls fl -> ~ ts_queued c s p -> 100 <= prio_of s p <= 139 ->
    enqueue_task_ts c p fl s = Done (tt, s') -> ts_event fls c (Some p) s s'
| ev_dequeue p fl s s' :
    ts_queued c s p -> dequeue_task_ts c p fl s = Done (tt, s') -> ts_event fls c None s s'
| ev_yield s s' :
    ts_queued c s (curr (rqs s c)) -> yield_task_ts c s = Done (tt, s') ->
    ts_event fls c (Some (curr (rqs s c))) s s'
| ev_tick p s s' :
    ts_queued c s p -> policy (tasks s p) = SCHED_TS ->
    0 <= ts_time_slice (ts (tasks s p)) < 2 ^ 32 ->
    task_tick_ts c p 0 s = Done (tt, s') ->
    ts_event fls c (if ts_time_slice (ts (tasks s p)) =? 1 then Some p else None) s s'
| ev_pick prev next s s' :
    pick_next_task_ts c prev s = Done (next, s') -> ts_event fls c None s s'
| ev_frame s s' :
    ts_q c s' = ts_q c s -> (forall p, ts_queued c s p -> prio_of s' p = prio_of s p) ->
    ts_event fls c None s s'.

Definition ts_step `{PutPrev} (fls : Z -> Prop) (c : cpu) (s s' : kstate) : Prop :=
  exists ev, ts_event fls c ev s s'.

(** Any sequence of operations, and the tasks that went to the end of their
    level, in order. *)
Inductive ts_history `{PutPrev} (fls : Z -> Prop) (c : cpu) (s : kstate) : list task -> kstate -> Prop :=
| hist_nil : ts_history fls c s [] s
| hist_event h ev s1 s2 :
    ts_history fls c s h s1 -> ts_event fls c ev s1 s2 -> ts_history fls c s (h ++ option_list ev) s2.

(** [a] went to the end of its level for the last time before [b] did. *)
Definition joined_before (h : list task) (a b : task) : Prop :=
  exists h1 h2, h = h1 ++ a :: h2 /\ a ∉ h2 /\ b ∈ h2.

(** The levels hold their tasks in the order of [h]. *)
Definition ts_ordered_q (h : list task) (q : list (list task)) : Prop :=
  (forall i l, Klist.at_index q i = Some l -> StronglySorted (joined_before h) l) /\
  forall p, p ∈ concat q -> p ∈ h.

Section Order.
Implicit Types (h : list task) (q : list (list task)) (a b p : task).

Lemma joined_before_snoc h a b p : a <> p -> joined_before h a b -> joined_before (h ++ [p]) a b.
Proof.
  intros Hp (h1 & h2 & -> & Ha & Hb). exists h1, (h2 ++ [p]). rewrite <- (assoc_L (++)). split; [done|].
  rewrite !elem_of_app, list_elem_of_singleton. split; [intros [?|?]; done|by left].
Qed.

Lemma joined_before_last h a p : a <> p -> a ∈ h -> joined_before (h ++ [p]) a p.
Proof.
  intros Hp (h1 & h2 & -> & Ha)%list_elem_of_split_r. exists h1, (h2 ++ [p]). rewrite <- (assoc_L (++)). split; [done|].
  rewrite !elem_of_app, !list_elem_of_singleton. split; [intros [?|?]; done|by right].
Qed.

Lemma sorted_filter {A} (R : A -> A -> Prop) (P : A -> Prop) `{forall x, Decision (P x)} l :
  StronglySorted R l -> StronglySorted R (filter P l).
Proof.
  induction 1 as [|x l Hl IH Hx]; [constructor|]. rewrite filter_cons. case_decide; [|done].
  constructor; [done|]. rewrite Forall_forall in *. intros y [_ Hy]%list_elem_of_filter. by apply Hx.
Qed.

Lemma sorted_snoc {A} (R : A -> A -> Prop) l x :
  StronglySorted R l -> (forall y, y ∈ l -> R y x) -> StronglySorted R (l ++ [x]).
Proof.
  induction 1 as [|y l Hl IH Hy]; intros Hx; cbn [app]; [by repeat constructor|]. constructor.
  - apply IH. intros z Hz. apply Hx. by right.
  - apply Forall_app. split; [done|]. apply Forall_singleton, Hx. by left.
Qed.

Lemma ordered_unlink h q p : ts_ordered_q h q -> ts_ordered_q h (Klist.unlink p q).
Proof.
  intros [H1 H2]. split; [|intros x [Hx _]%Klist.elem_unlink; by apply H2].
  intros i l. rewrite Klist.at_index_unlink, fmap_Some. intros (l' & Hl & ->). eapply sorted_filter, H1, Hl.
Qed.

(** [p] goes to the end of a level. *)
Lemma ordered_put_tail h q p i l :
  ts_ordered_q h q -> p ∉ concat q -> Klist.at_index q i = Some l ->
  ts_ordered_q (h ++ [p]) (Klist.put_at i (l ++ [p]) q).
Proof.
  intros [H1 H2] Hp Hl.
  assert (Hkeep : forall j l', Klist.at_index q j = Some l' -> StronglySorted (joined_before (h ++ [p])) l').
  { intros j l' Hj. pose proof (H1 j l' Hj) as Hs.
    assert (Hne : forall x, x ∈ l' -> x <> p) by (intros x Hx ->; by apply Hp, (Klist.at_index_elem q j l')).
    clear Hj. induction Hs as [|x l' Hs IH Hx]; constructor.
    - apply IH. intros y Hy. apply Hne. by right.
    - eapply Forall_impl; [exact Hx|]. intros y. apply joined_before_snoc, Hne. by left. }
  split.
  - intros j l'. rewrite Klist.at_index_put by (apply Klist.at_index_is_Some; eauto). case_decide as Hij; [|by apply Hkeep].
    intros [= <-]. apply sorted_snoc; [by eapply Hkeep|]. intros x Hx.
    pose proof (Klist.at_index_elem q i l x Hl Hx) as Hq. apply joined_before_last; [by intros ->|by apply H2].
  - intros x. rewrite (Klist.put_tail_perm _ _ _ _ Hl), elem_of_app, elem_of_cons, list_elem_of_singleton.
    intros [->|Hx]; [by right|left; by apply H2].
Qed.

Lemma ordered_move_tail h q p i q' :
  Klist.wf q -> ts_ordered_q h q -> p ∈ concat q -> Klist.list_move_tail p i q = Some q' -> ts_ordered_q (h ++ [p]) q'.
Proof.
  intros Hwf Ho Hp. unfold Klist.list_move_tail. rewrite (proj2 (Klist.list_del_Some p q _)) by done. simpl.
  intros (Hn & l & Hl & ->)%Klist.list_add_tail_Some. apply ordered_put_tail; [by apply ordered_unlink|done|done].
Qed.
End Order.

Section Reachability.
Context `{Hpp : PutPrev} {Hpt : PutPrevTs}.
Implicit Types (c : cpu) (p : task) (s : kstate).

Lemma init_ts_rq_wf c s :
  exists s', init_ts_rq c s = Done (tt, s') /\ ts_wf c s' /\ ts_sorted c s' /\ forall p, ~ ts_queued c s' p.
Proof.
  unfold init_ts_rq. krun. eexists. split; [done|].
  unfold ts_wf, ts_sorted, ts_queued, ts_q. simpl. rewrite fn_lookup_alter. simpl.
  split; [|split; [intros i l p Hl Hp|intros p; by apply not_elem_of_nil]].
  - split; [done | split; [unfold Klist.wf; apply NoDup_nil_2 |]].
    by intros p ?%not_elem_of_nil.
  - exfalso. pose proof (Klist.at_index_elem _ _ _ _ Hl Hp) as He.
    by apply not_elem_of_nil in He.
Qed.

(** A tick whose slice was already 0 wraps to the largest slice. *)
Lemma task_tick_ts_zero c p s :
  policy (tasks s p) = SCHED_TS -> ts_time_slice (ts (tasks s p)) = 0 ->
  exists s', task_tick_ts c p 0 s = Done (tt, s') /\ ts_q c s' = ts_q c s /\
    (forall x, prio_of s' x = prio_of s x).
Proof.
  intros Hpol Hk. unfold task_tick_ts. krun. rewrite Hpol. krun.
  rewrite fn_lookup_alter. simpl. rewrite Hk. krun. eexists. split; [done|].
  split; [done|]. intros x. unfold prio_of. simpl.
  destruct (decide (x = p)) as [->|]; [by rewrite fn_lookup_alter | by rewrite fn_lookup_alter_ne].
Qed.

Lemma task_tick_ts_run c p s :
  ts_wf c s -> ts_queued c s p -> policy (tasks s p) = SCHED_TS ->
  0 <= ts_time_slice (ts (tasks s p)) < 2 ^ 32 ->
  exists s', task_tick_ts c p 0 s = Done (tt, s') /\ ts_wf c s' /\
    (ts_sorted c s -> ts_sorted c s').
Proof.
  intros Hwf Hp Hpol Hk.
  assert (Hkeep : forall s', ts_q c s' = ts_q c s -> (forall x, prio_of s' x = prio_of s x) ->
            ts_wf c s' /\ (ts_sorted c s -> ts_sorted c s')).
  { intros s' Hq Hpr. unfold ts_wf, ts_sorted. rewrite Hq.
    split; [by eapply wf_q_ext | intros; by eapply sorted_q_ext]. }
  destruct (Z.lt_total (ts_time_slice (ts (tasks s p))) 1) as [H0|[H1|H1]].
  - destruct (task_tick_ts_zero c p s) as (s' & ? & ? & ?); [done | lia |]. eauto.
  - destruct (task_tick_ts_expired c p s) as (s' & ?); naive_solver.
  - destruct (task_tick_ts_running c p _ s Hpol eq_refl) as (s' & ? & ? & ? & _); [lia|]. eauto.
Qed.

Lemma pick_next_task_ts_run c prev s :
  exists s', pick_next_task_ts c prev s
             = Done (first_ts_entity (ts_q c s) MAX_TS_PRIO, s') /\
    ts_q c s' = ts_q c s /\ (forall x, prio_of s' x = prio_of s x).
Proof.
  unfold pick_next_task_ts. krun. unfold ts_q.
  destruct (first_ts_entity (ts_queue (rqs s c)) MAX_TS_PRIO) eqn:Hf.
  - destruct (put_prev_ts c prev s) as (s' & Hs' & Hq & Hpr).
    exists s'. split; [|split; [exact (Hq c) | exact Hpr]].
    by rewrite (bind_done _ _ _ _ _ Hs').
  - eauto.
Qed.

Lemma ts_step_wf fls c s s' : ts_step fls c s s' -> ts_wf c s -> ts_wf c s'.
Proof.
  intros [ev Hstep] Hwf. destruct Hstep as
    [p fl s s' Hfl Hp Hprio He | p fl s s' Hp He | s s' Hp He | p s s' Hp Hpol Hk He
    | prev next s s' He | s s' Hq Hpr].
  - destruct (enqueue_task_ts_run c p fl s Hwf Hp Hprio) as (l & s1 & Hl & He' & Hq & Hpp' & Hne).
    rewrite He in He'. injection He' as <-. unfold ts_wf. rewrite Hq.
    apply wf_q_put_tail; [|done| |done].
    + eapply wf_q_ext; [done|]. intros x Hx. apply Hne. intros ->. by apply Hp.
    + rewrite Hpp'. destruct (has _ _); [by apply get_new_prio_valid | done].
  - rewrite dequeue_task_ts_run in He by done. injection He as <-.
    unfold ts_wf. rewrite ts_q_put. by apply wf_q_unlink.
  - destruct (yield_task_ts_run c s Hwf Hp) as (q' & _ & He' & Hw & _).
    rewrite He in He'. by injection He' as ->.
  - destruct (task_tick_ts_run c p s Hwf Hp Hpol Hk) as (s1 & He' & Hw & _).
    rewrite He in He'. by injection He' as ->.
  - destruct (pick_next_task_ts_run c prev s) as (s1 & He' & Hq & Hpr).
    rewrite He in He'. injection He' as _ ->.
    unfold ts_wf. rewrite Hq. by eapply wf_q_ext.
  - unfold ts_wf. rewrite Hq. by eapply wf_q_ext.
Qed.

Lemma ts_reachable_wf fls c s s' : ts_wf c s -> rtc (ts_step fls c) s s' -> ts_wf c s'.
Proof. intros Hwf Hr. induction Hr; eauto using ts_step_wf. Qed.

(** A task that is enqueued without [ENQUEUE_WAKEUP] is put on the queue of
    its level. *)
Definition no_wakeup (fl : Z) : Prop := has fl ENQUEUE_WAKEUP = false.

Lemma enqueue_sorted c p fl s :
  ts_wf c s -> ts_sorted c s -> ~ ts_queued c s p -> 100 <= prio_of s p <= 139 ->
  no_wakeup fl ->
  exists s', enqueue_task_ts c p fl s = Done (tt, s') /\ ts_sorted c s'.
Proof.
  intros Hwf Hs Hp Hprio Hfl.
  destruct (enqueue_task_ts_run c p fl s Hwf Hp Hprio) as (l & s1 & Hl & He & Hq & Hpp' & Hne).
  rewrite Hfl in Hpp'. exists s1. split; [done|]. unfold ts_sorted. rewrite Hq.
  apply sorted_q_put_tail; [|lia|done].
  eapply sorted_q_ext; [done|]. intros x Hx. apply Hne. intros ->. by apply Hp.
Qed.

Lemma ts_step_sorted c s s' :
  ts_step no_wakeup c s s' -> ts_wf c s -> ts_sorted c s -> ts_sorted c s'.
Proof.
  intros [ev Hstep] Hwf Hs. destruct Hstep as
    [p fl s s' Hfl Hp Hprio He | p fl s s' Hp He | s s' Hp He | p s s' Hp Hpol Hk He
    | prev next s s' He | s s' Hq Hpr].
  - destruct (enqueue_sorted c p fl s) as (s1 & He' & Hs1); [done..|].
    rewrite He in He'. by injection He' as ->.
  - rewrite dequeue_task_ts_run in He by done. injection He as <-.
    unfold ts_sorted. rewrite ts_q_put. by apply sorted_q_unlink.
  - destruct (yield_task_ts_run c s Hwf Hp) as (q' & _ & He' & _ & Hs1).
    rewrite He in He'. injection He' as ->. by apply Hs1.
  - destruct (task_tick_ts_run c p s Hwf Hp Hpol Hk) as (s1 & He' & _ & Hs1).
    rewrite He in He'. injection He' as ->. by apply Hs1.
  - destruct (pick_next_task_ts_run c prev s) as (s1 & He' & Hq & Hpr).
    rewrite He in He'. injection He' as _ ->.
    unfold ts_sorted. rewrite Hq. by eapply sorted_q_ext.
  - unfold ts_sorted. rewrite Hq. by eapply sorted_q_ext.
Qed.

Lemma ts_reachable_sorted c s s' :
  ts_wf c s -> ts_sorted c s -> rtc (ts_step no_wakeup c) s s' -> ts_sorted c s'.
Proof. intros Hwf Hs Hr. induction Hr; eauto using ts_step_wf, ts_step_sorted. Qed.

Lemma ts_history_rtc fls c s h s' : ts_history fls c s h s' -> rtc (ts_step fls c) s s'.
Proof. induction 1; [done|]. eapply rtc_r; [done|]. by eexists. Qed.

(** The order of the queues is that of the history, whatever the flags. *)
Lemma ts_event_ordered fls c ev h s s' :
  ts_event fls c ev s s' -> ts_wf c s -> ts_ordered_q h (ts_q c s) -> ts_ordered_q (h ++ option_list ev) (ts_q c s').
Proof.
  intros Hev Hwf Ho. assert (Hsame : ts_q c s' = ts_q c s -> ts_ordered_q (h ++ []) (ts_q c s')).
  { intros ->. by rewrite app_nil_r. }
  destruct Hev as
    [p fl s s' Hfl Hp Hprio He | p fl s s' Hp He | s s' Hp He | p s s' Hp Hpol Hk He
    | prev next s s' He | s s' Hq Hpr]; cbn [option_list].
  - destruct (enqueue_task_ts_run c p fl s Hwf Hp Hprio) as (l & s1 & Hl & He' & Hq & _).
    rewrite He in He'. injection He' as <-. rewrite Hq. by apply ordered_put_tail.
  - rewrite dequeue_task_ts_run in He by done. injection He as <-. rewrite ts_q_put, app_nil_r. by apply ordered_unlink.
  - destruct (yield_task_ts_run c s Hwf Hp) as (q' & Hm & He' & _).
    rewrite He in He'. injection He' as ->. rewrite ts_q_put. eapply ordered_move_tail; [apply Hwf|done|done|exact Hm].
  - destruct (Z.eqb_spec (ts_time_slice (ts (tasks s p))) 1) as [E|E].
    + destruct (task_tick_ts_expired c p s Hwf Hp Hpol E) as (s1 & He' & _ & _ & _ & _ & _ & _ & _ & _ & Hm).
      rewrite He in He'. injection He' as <-. eapply ordered_move_tail; [apply Hwf|done|done|exact Hm].
    + apply Hsame. destruct (decide (ts_time_slice (ts (tasks s p)) = 0)) as [E0|E0].
      * destruct (task_tick_ts_zero c p s Hpol E0) as (s1 & He' & Hq & _). rewrite He in He'. by injection He' as <-.
      * destruct (task_tick_ts_running c p _ s Hpol eq_refl) as (s1 & He' & Hq & _); [lia|].
        rewrite He in He'. by injection He' as <-.
  - destruct (pick_next_task_ts_run c prev s) as (s1 & He' & Hq & _). rewrite He in He'. injection He' as _ ->. by apply Hsame.
  - by apply Hsame.
Qed.

Lemma ts_history_ordered fls c s h s' :
  ts_wf c s -> (forall p, ~ ts_queued c s p) -> ts_history fls c s h s' -> ts_ordered_q h (ts_q c s').
Proof.
  intros Hwf Hn Hh. induction Hh as [|h ev s1 s2 Hh IH Hev].
  - split; [|intros p Hp; by destruct (Hn p)]. intros i l Hl.
    destruct l as [|x l]; [constructor|]. destruct (Hn x). eapply Klist.at_index_elem; [exact Hl|by left].
  - eapply ts_event_ordered; [done| |done]. by eapply ts_reachable_wf, ts_history_rtc.
Qed.
End Reachability.

(** ** Picking *)

Section Picking.
Implicit Types (q : list (list task)) (p : task).

Lemma first_ts_entity_S q n :
  first_ts_entity q (S n)
  = if Klist.list_empty (Z.of_nat n) q then first_ts_entity q n
    else Klist.list_first (Z.of_nat n) q.
Proof. done. Qed.

Lemma first_ts_entity_spec q n :
  (n <= length q)%nat ->
  match first_ts_entity q n with
  | Some p => exists i l, Klist.at_index q i = Some (p :: l) /\ i < Z.of_nat n /\
                forall j l', Klist.at_index q j = Some l' -> i < j < Z.of_nat n -> l' = []
  | None => forall j l', Klist.at_index q j = Some l' -> j < Z.of_nat n -> l' = []
  end.
Proof.
  induction n as [|n IH]; intros Hn; [|rewrite first_ts_entity_S].
  - intros j l [Hj _]%Klist.at_index_Some. lia.
  - assert (Hl : is_Some (Klist.at_index q (Z.of_nat n))) by (apply Klist.at_index_is_Some; lia).
    unfold Klist.list_empty, Klist.list_first. destruct Hl as [[|x l] Hl]; rewrite Hl.
    + specialize (IH ltac:(lia)). destruct (first_ts_entity q n) as [p|].
      * destruct IH as (i & l & Hi & Hlt & Hj). exists i, l. split; [done | split; [lia|]].
        intros j l' Hj' Hij. destruct (decide (j = Z.of_nat n)) as [->|]; [congruence|].
        apply (Hj j l'); [done | lia].
      * intros j l' Hj' Hij. destruct (decide (j = Z.of_nat n)) as [->|]; [congruence|].
        apply (IH j l'); [done | lia].
    + exists (Z.of_nat n), l. split; [done | split; [lia|]]. intros. lia.
Qed.

Lemma first_ts_entity_None q pr :
  ts_wf_q q pr -> first_ts_entity q MAX_TS_PRIO = None <-> concat q = [].
Proof.
  intros (Hlen & _). pose proof (first_ts_entity_spec q MAX_TS_PRIO) as Hs.
  destruct (first_ts_entity q MAX_TS_PRIO) as [p|].
  - destruct Hs as (i & l & Hi & _); [lia|].
    pose proof (Klist.at_index_elem q i _ p Hi ltac:(by left)) as Hp.
    split; [done|]. intros Hc. rewrite Hc in Hp. by apply not_elem_of_nil in Hp.
  - split; [intros _|done]. apply elem_of_nil_inv. intros p (i & l & Hi & Hp)%Klist.elem_concat.
    assert (Hr : 0 <= i < Z.of_nat (length q)) by (apply Klist.at_index_is_Some; eauto).
    rewrite (Hs ltac:(lia) i l Hi ltac:(lia)) in Hp. by apply not_elem_of_nil in Hp.
Qed.

Lemma first_ts_entity_highest q pr p :
  ts_wf_q q pr -> ts_sorted_q q pr -> first_ts_entity q MAX_TS_PRIO = Some p ->
  (exists l, Klist.at_index q (139 - pr p) = Some (p :: l)) /\
  forall x, x ∈ concat q -> pr p <= pr x.
Proof.
  intros (Hlen & _ & Hv) Hsort Hf. pose proof (first_ts_entity_spec q MAX_TS_PRIO) as Hs.
  rewrite Hf in Hs. destruct Hs as (i & l & Hi & Hlt & Habove); [lia|].
  pose proof (Hsort i _ p Hi ltac:(by left)) as Hpi. split; [rewrite Hpi; eauto|].
  intros x (j & l' & Hj & Hx)%Klist.elem_concat.
  pose proof (Hsort j l' x Hj Hx) as Hxj.
  assert (Hr : 0 <= j < Z.of_nat (length q)) by (apply Klist.at_index_is_Some; eauto).
  destruct (Z.lt_ge_cases i j); [|lia].
  rewrite (Habove j l' Hj ltac:(lia)) in Hx. by apply not_elem_of_nil in Hx.
Qed.
End Picking.

(** ** Iterated operations *)

(** [n] ticks of the task [p]. *)
Fixpoint ts_ticks (c : cpu) (p : task) (n : nat) : K unit :=
  match n with
  | O => ret tt
  | S n => do! task_tick_ts c p 0 in ts_ticks c p n
  end.

(** [n] times: pick a task, run it, and have it yield. *)
Fixpoint ts_rounds `{PutPrev} (c : cpu) (n : nat) : K (list task) :=
  match n with
  | O => ret []
  | S n =>
      let! r := get_rq c in
      let! next := pick_next_task_ts c (curr r) in
      match next with
      | None => ret []
      | Some p =>
          do! set_rq c (fun r => r <| curr := p |>) in
          do! yield_task_ts c in
          let! l := ts_rounds c n in
          ret (p :: l)
      end
  end.

Section Ticks.
Implicit Types (c : cpu) (p : task) (s : kstate).

Lemma ts_ticks_app c p m n s s1 :
  ts_ticks c p m s = Done (tt, s1) -> ts_ticks c p (m + n) s = ts_ticks c p n s1.
Proof.
  revert s. induction m as [|m IH]; intros s H; [by injection H as ->|].
  cbn [ts_ticks Nat.add] in *. unfold bind in *.
  destruct (task_tick_ts c p 0 s) as [[[] s']|]; [by apply IH | done].
Qed.

(** What a run of ticks keeps, and what it ends in. *)
Definition tick_inv c p (pr k : Z) s : Prop :=
  ts_wf c s /\ ts_queued c s p /\ policy (tasks s p) = SCHED_TS /\
  ts_time_slice (ts (tasks s p)) = k /\ prio_of s p = pr.

Lemma tick_inv_step c p pr k s :
  tick_inv c p pr k s -> 1 < k < 2 ^ 32 ->
  exists s', task_tick_ts c p 0 s = Done (tt, s') /\ tick_inv c p pr (k - 1) s'.
Proof.
  intros (Hwf & Hp & Hpol & Hk & Hpr) Hlt.
  destruct (task_tick_ts_running c p k s Hpol Hk Hlt) as (s' & ? & Hq & Hf & ? & ?).
  exists s'. split; [done|]. split; [|split; [|split; [done | split; [done|]]]].
  - unfold ts_wf. rewrite Hq. by eapply wf_q_ext.
  - unfold ts_queued. by rewrite Hq.
  - by rewrite Hf.
Qed.

Lemma ts_slice_expires c p pr k s :
  tick_inv c p pr (Z.of_nat k) s -> (1 <= k)%nat -> Z.of_nat k < 2 ^ 32 ->
  exists s', ts_ticks c p k s = Done (tt, s') /\
    tick_inv c p (Z.min 139 (pr + 10)) (get_num_ticks (Z.min 139 (pr + 10))) s'.
Proof.
  revert s. induction k as [|k IH]; intros s Hi H1 Hlt; [lia|].
  cbn [ts_ticks]. destruct (decide (k = 0)%nat) as [->|Hk].
  - destruct Hi as (Hwf & Hp & Hpol & Hk & <-).
    destruct (task_tick_ts_expired c p s Hwf Hp Hpol Hk)
      as (s' & He & Hwf' & Hp' & _ & Hpr & _ & Hpol' & Hk' & _).
    exists s'. split; [by rewrite (bind_done _ _ _ _ _ He)|].
    rewrite Hpr in Hk'. done.
  - destruct (tick_inv_step _ _ _ _ _ Hi) as (s1 & He & Hi1); [lia|].
    destruct (IH s1) as (s' & Hs' & Hi'); [|lia|lia|].
    { by replace (Z.of_nat k) with (Z.of_nat (S k) - 1) by lia. }
    exists s'. split; [by rewrite (bind_done _ _ _ _ _ He) | done].
Qed.

Lemma ts_slices_expire c p pr k s :
  tick_inv c p pr k s -> 100 <= pr <= 139 -> 1 <= k <= 16 ->
  exists n s', (n <= 16)%nat /\ ts_ticks c p n s = Done (tt, s') /\
    tick_inv c p (Z.min 139 (pr + 10)) (get_num_ticks (Z.min 139 (pr + 10))) s'.
Proof.
  intros Hi Hpr Hk. exists (Z.to_nat k).
  destruct (ts_slice_expires c p pr (Z.to_nat k) s) as (s' & ? & ?); [| lia | lia |].
  - by rewrite Z2Nat.id by lia.
  - exists s'. split; [lia|done].
Qed.
End Ticks.

Section Rounds.
Context `{Hpp : PutPrev} {Hpt : PutPrevTs}.
Implicit Types (c : cpu) (p : task) (s : kstate) (q : list (list task)).

(** [l] is the list of the highest level that is not empty, level [i]. *)
Definition top_level q (i : Z) (l : list task) : Prop :=
  Klist.at_index q i = Some l /\
  forall j l', Klist.at_index q j = Some l' -> i < j -> l' = [].

Lemma top_level_first q i p l :
  length q = MAX_TS_PRIO -> top_level q i (p :: l) -> first_ts_entity q MAX_TS_PRIO = Some p.
Proof.
  intros Hlen [Hi Hab]. pose proof (first_ts_entity_spec q MAX_TS_PRIO ltac:(lia)) as Hs.
  assert (Hr : 0 <= i < Z.of_nat (length q)) by (apply Klist.at_index_is_Some; eauto).
  destruct (first_ts_entity q MAX_TS_PRIO) as [x|].
  - destruct Hs as (j & l' & Hj & Hlt & Habove).
    destruct (Z.lt_total i j) as [H|[->|H]].
    + by specialize (Hab _ _ Hj H).
    + congruence.
    + specialize (Habove i _ Hi). rewrite Hlen in Hr. discriminate Habove. lia.
  - discriminate (Hs i _ Hi). rewrite <- Hlen. lia.
Qed.

(** One round: the head of the highest level goes to its tail. *)
Lemma ts_round c s i p l :
  ts_wf c s -> ts_sorted c s -> top_level (ts_q c s) i (p :: l) ->
  exists s', (forall n, ts_rounds c (S n) s
               = (let! l := ts_rounds c n in ret (p :: l)) s') /\
    ts_q c s' = Klist.put_at i (l ++ [p]) (ts_q c s) /\
    (forall x, prio_of s' x = prio_of s x) /\ ts_wf c s' /\ ts_sorted c s'.
Proof.
  intros Hwf Hsort Htop. pose proof Htop as [Hi Hab].
  pose proof (top_level_first _ _ _ _ (proj1 Hwf) Htop) as Hf.
  destruct (pick_next_task_ts_run c (curr (rqs s c)) s) as (s1 & Hpick & Hq1 & Hpr1).
  rewrite Hf in Hpick.
  pose (s2 := s1 <| rqs ::= alter (fun r => r <| curr := p |>) c |>).
  assert (Hq2 : ts_q c s2 = ts_q c s).
  { rewrite <- Hq1. unfold ts_q, s2. simpl. by rewrite fn_lookup_alter. }
  assert (Hc2 : curr (rqs s2 c) = p) by (unfold s2; simpl; by rewrite fn_lookup_alter).
  assert (Hpr2 : forall x, prio_of s2 x = prio_of s x) by (intros; apply Hpr1).
  assert (Hp : ts_queued c s p) by (eapply (Klist.at_index_elem _ i); [done | by left]).
  assert (Hwf2 : ts_wf c s2) by (unfold ts_wf; rewrite Hq2; by eapply wf_q_ext).
  assert (Hs2 : ts_sorted c s2) by (unfold ts_sorted; rewrite Hq2; by eapply sorted_q_ext).
  destruct (yield_task_ts_run c s2 Hwf2) as (q' & Hq' & Hy & Hwf3 & Hs3).
  { unfold ts_queued. by rewrite Hc2, Hq2. }
  exists (ts_put c q' s2). rewrite Hc2, Hpr2, Hq2 in Hq'.
  rewrite (Hsort i (p :: l) p Hi ltac:(by left)) in Hq'.
  unfold Klist.list_move_tail in Hq'.
  rewrite (proj2 (Klist.list_del_Some p _ _)) in Hq' by done. simpl in Hq'.
  apply Klist.list_add_tail_Some in Hq' as (_ & l0 & Hl0 & ->).
  rewrite (Klist.unlink_head _ i p l) in * by (done || apply Hwf).
  rewrite Klist.at_index_put, decide_True in Hl0 by (done || apply Klist.at_index_is_Some; eauto).
  injection Hl0 as <-. split.
  - intros n. cbn [ts_rounds]. unfold bind at 1, get_rq, gets.
    rewrite (bind_done _ _ _ _ _ Hpick). unfold bind at 1, set_rq, modify. fold s2.
    by rewrite (bind_done _ _ _ _ _ Hy).
  - split; [by rewrite ts_q_put, Klist.put_put | split; [done | split; [done | by apply Hs3]]].
Qed.

Lemma ts_rounds_level c i l1 l2 : forall s,
  ts_wf c s -> ts_sorted c s -> top_level (ts_q c s) i (l1 ++ l2) ->
  exists s', ts_rounds c (length l1) s = Done (l1, s') /\
    ts_q c s' = Klist.put_at i (l2 ++ l1) (ts_q c s) /\
    (forall x, prio_of s' x = prio_of s x).
Proof.
  revert l2. induction l1 as [|p l1 IH]; intros l2 s Hwf Hs Htop.
  - exists s. split; [done | split; [|done]]. rewrite app_nil_r.
    destruct Htop as [[_ Hi]%Klist.at_index_Some _]. symmetry. by apply list_insert_id.
  - destruct (ts_round c s i p (l1 ++ l2) Hwf Hs Htop) as (s1 & Hr & Hq & Hpr & Hwf1 & Hs1).
    rewrite <- app_assoc in Hq. pose proof Htop as [Hi Hab].
    assert (Hin : 0 <= i < Z.of_nat (length (ts_q c s))) by (apply Klist.at_index_is_Some; eauto).
    destruct (IH (l2 ++ [p]) s1 Hwf1 Hs1) as (s' & Hs' & Hq' & Hpr').
    { rewrite Hq. split.
      - rewrite Klist.at_index_put by done. by rewrite decide_True.
      - intros j l'. rewrite Klist.at_index_put by done. case_decide; [lia | apply Hab]. }
    exists s'. cbn [length]. rewrite Hr. rewrite (bind_done _ _ _ _ _ Hs').
    split; [done|]. rewrite Hq', Hq, Klist.put_put, <- app_assoc. split; [done|].
    intros x. by rewrite Hpr'.
Qed.
End Rounds.

(** ** The properties of the class *)

(** A [put_prev_task] that does nothing, for the concrete instances. *)
Definition put_prev_nop : PutPrev := fun _ _ _ => ret tt.

Lemma put_prev_nop_ts : @PutPrevTs put_prev_nop.
Proof. intros c prev s. exists s. done. Qed.

Section Properties.
Context `{Hpp : PutPrev} {Hpt : PutPrevTs}.

(** C8: After [init_ts_rq] and any sequence of operations of the class, with
    any other kernel code in between that leaves the queues alone, the forty
    queues hold each task once, all of valid priority, and no operation the
    core can call next crashes: enqueuing a task that is not queued, and
    dequeuing, yielding, ticking or picking. *)
Theorem ts_safety c s0 s1 s :
  init_ts_rq c s0 = Done (tt, s1) -> rtc (ts_step (fun _ => True) c) s1 s ->
  ts_wf c s /\
  (forall p fl, ~ ts_queued c s p -> 100 <= prio_of s p <= 139 ->
     exists s', enqueue_task_ts c p fl s = Done (tt, s') /\ ts_queued c s' p) /\
  (forall p fl, ts_queued c s p ->
     exists s', dequeue_task_ts c p fl s = Done (tt, s') /\ ~ ts_queued c s' p) /\
  (ts_queued c s (curr (rqs s c)) -> exists s', yield_task_ts c s = Done (tt, s')) /\
  (forall p, ts_queued c s p -> policy (tasks s p) = SCHED_TS ->
     0 <= ts_time_slice (ts (tasks s p)) < 2 ^ 32 ->
     exists s', task_tick_ts c p 0 s = Done (tt, s')) /\
  (forall prev, exists next s', pick_next_task_ts c prev s = Done (next, s')).
Proof.
  intros Hinit Hr. destruct (init_ts_rq_wf c s0) as (s1' & Hi & Hwf1 & _).
  rewrite Hi in Hinit. injection Hinit as ->.
  pose proof (ts_reachable_wf _ c _ _ Hwf1 Hr) as Hwf. split; [done|]. repeat split.
  - intros p fl Hp Hprio.
    destruct (enqueue_task_ts_run c p fl s Hwf Hp Hprio) as (l & s' & Hl & He & Hq & _).
    exists s'. split; [done|]. unfold ts_queued. rewrite Hq, (Klist.put_tail_perm _ _ _ _ Hl). by left.
  - intros p fl Hp. rewrite dequeue_task_ts_run by done. eexists. split; [done|].
    unfold ts_queued. rewrite ts_q_put. apply Klist.unlink_not_elem.
  - intros Hp. destruct (yield_task_ts_run c s Hwf Hp) as (q' & _ & He & _). eauto.
  - intros p Hp Hpol Hk. destruct (task_tick_ts_run c p s Hwf Hp Hpol Hk) as (s' & He & _). eauto.
  - intros prev. destruct (pick_next_task_ts_run c prev s) as (s' & He & _). eauto.
Qed.

(** C11: As long as no task is enqueued with [ENQUEUE_WAKEUP], every queued
    task is on the queue of its level, and [pick_next_task_ts] picks, among the
    queued tasks of the highest priority, the one that has waited longest: it
    was enqueued, yielded or used up its slice for the last time before each of
    the others was.  It picks none when no task is queued. *)
Theorem ts_pick_highest c prev s0 s1 h s :
  init_ts_rq c s0 = Done (tt, s1) -> ts_history no_wakeup c s1 h s ->
  ts_sorted c s /\
  exists next s', pick_next_task_ts c prev s = Done (next, s') /\
    match next with
    | Some p => ts_queued c s p /\ (forall x, ts_queued c s x -> prio_of s p <= prio_of s x) /\
                (forall x, ts_queued c s x -> x <> p -> prio_of s x = prio_of s p -> joined_before h p x)
    | None => forall x, ~ ts_queued c s x
    end.
Proof.
  intros Hinit Hh. destruct (init_ts_rq_wf c s0) as (s1' & Hi & Hwf1 & Hs1 & Hn).
  rewrite Hi in Hinit. injection Hinit as ->. pose proof (ts_history_rtc _ _ _ _ _ Hh) as Hr.
  pose proof (ts_reachable_wf _ c _ _ Hwf1 Hr) as Hwf.
  pose proof (ts_reachable_sorted c _ _ Hwf1 Hs1 Hr) as Hs. split; [done|].
  destruct (pick_next_task_ts_run c prev s) as (s' & He & _ & _).
  eexists _, s'. split; [exact He|].
  destruct (first_ts_entity (ts_q c s) MAX_TS_PRIO) as [p|] eqn:Hf.
  - destruct (first_ts_entity_highest _ _ _ Hwf Hs Hf) as [[l Hl] Hhigh].
    split; [eapply Klist.at_index_elem; [exact Hl|by left]|]. split; [done|]. intros x Hx Hxp Hprio.
    destruct (ts_history_ordered _ c s1 h s Hwf1 Hn Hh) as [Ho _].
    pose proof (Ho _ _ Hl) as [_ Hall]%StronglySorted_inv. rewrite Forall_forall in Hall. apply Hall.
    apply Klist.elem_concat in Hx as (i & l' & Hi' & Hx). rewrite <- (Hs i l' x Hi' Hx), Hprio, Hl in Hi'.
    injection Hi' as <-. by apply elem_of_cons in Hx as [->|].
  - apply (first_ts_entity_None _ (prio_of s)) in Hf; [|done].
    intros x. unfold ts_queued. rewrite Hf. apply not_elem_of_nil.
Qed.

(** C19: Round robin: when the highest level that is not empty holds the
    tasks [l], picking and yielding [length l] times runs the tasks of [l]
    in their order, each once, and leaves the queues as they were. *)
Theorem ts_round_robin c s i l :
  ts_wf c s -> ts_sorted c s -> top_level (ts_q c s) i l ->
  exists s', ts_rounds c (length l) s = Done (l, s') /\ ts_q c s' = ts_q c s.
Proof.
  intros Hwf Hs Htop.
  destruct (ts_rounds_level c i l [] s Hwf Hs) as (s' & He & Hq & _); [by rewrite app_nil_r|].
  exists s'. split; [done|]. rewrite Hq. simpl. destruct Htop as [[_ Hi]%Klist.at_index_Some _].
  by apply list_insert_id.
Qed.
End Properties.

(** C20: A task that uses up its slices sinks: within 64 ticks a queued task
    with a slice of at most 16 ticks is at the lowest priority, with the
    slice of that priority, and still queued. *)
Theorem ts_cpu_bound_sinks c p s :
  ts_wf c s -> ts_queued c s p -> policy (tasks s p) = SCHED_TS ->
  1 <= ts_time_slice (ts (tasks s p)) <= 16 ->
  exists n s', (n <= 64)%nat /\ ts_ticks c p n s = Done (tt, s') /\
    ts_wf c s' /\ ts_queued c s' p /\ prio_of s' p = 139 /\
    ts_time_slice (ts (tasks s' p)) = 16.
Proof.
  intros Hwf Hp Hpol Hk.
  assert (Hpr : 100 <= prio_of s p <= 139) by (by apply Hwf).
  assert (Hi : tick_inv c p (prio_of s p) (ts_time_slice (ts (tasks s p))) s) by done.
  revert Hi Hpr Hk. generalize (prio_of s p) as pr. generalize (ts_time_slice (ts (tasks s p))) as k.
  intros k pr Hi Hpr Hk.
  assert (Hv : forall x, 100 <= x <= 139 -> 1 <= get_num_ticks x <= 16).
  { intros x Hx. pose proof (get_num_ticks_valid x Hx). lia. }
  destruct (ts_slices_expire c p pr k s Hi Hpr Hk) as (n1 & s1 & Hn1 & He1 & Hi1).
  apply ts_slices_expire in Hi1 as (n2 & s2 & Hn2 & He2 & Hi2); [|lia|apply Hv; lia].
  apply ts_slices_expire in Hi2 as (n3 & s3 & Hn3 & He3 & Hi3); [|lia|apply Hv; lia].
  apply ts_slices_expire in Hi3 as (n4 & s4 & Hn4 & He4 & Hi4); [|lia|apply Hv; lia].
  exists (n1 + (n2 + (n3 + n4)))%nat, s4. split; [lia|].
  rewrite (ts_ticks_app _ _ _ _ _ _ He1), (ts_ticks_app _ _ _ _ _ _ He2),
    (ts_ticks_app _ _ _ _ _ _ He3). split; [done|].
  replace (Z.min 139 (Z.min 139 (Z.min 139 (Z.min 139 (pr + 10) + 10) + 10) + 10)) with 139
    in Hi4 by lia.
  destruct Hi4 as (? & ? & _ & ? & ?). done.
Qed.

(** A task enqueued with [ENQUEUE_WAKEUP] is put on the queue of the level
    it slept at, while its priority is raised, so it waits below the level
    its new priority has. *)
Theorem ts_wakeup_misplaced c p fl s :
  ts_wf c s -> ~ ts_queued c s p -> 100 < prio_of s p <= 139 ->
  has fl ENQUEUE_WAKEUP = true ->
  exists s' l, enqueue_task_ts c p fl s = Done (tt, s') /\
    Klist.at_index (ts_q c s') (139 - prio_of s p) = Some (l ++ [p]) /\
    139 - prio_of s p < 139 - prio_of s' p /\ ~ ts_sorted c s'.
Proof.
  intros Hwf Hp Hprio Hfl.
  destruct (enqueue_task_ts_run c p fl s Hwf Hp ltac:(lia)) as (l & s' & Hl & He & Hq & Hpp & _).
  rewrite Hfl in Hpp. pose proof (get_new_prio_sleep (prio_of s p) Hprio) as Hlt.
  assert (Hat : Klist.at_index (ts_q c s') (139 - prio_of s p) = Some (l ++ [p])).
  { rewrite Hq, Klist.at_index_put by (apply Klist.at_index_is_Some; eauto).
    by rewrite decide_True. }
  exists s', l. repeat split; [done | done | lia |].
  intros Hs. specialize (Hs _ _ p Hat). rewrite Hpp in Hs.
  assert (p ∈ l ++ [p]) as Hin by (apply elem_of_app; right; by apply list_elem_of_singleton).
  specialize (Hs Hin). lia.
Qed.

(** The tables: on every valid priority, using up a slice lowers the
    priority by ten levels down to the lowest, a wake-up raises it unless it is
    the highest, both stay valid, and lower priorities get longer slices. *)
Theorem ts_tables pr :
  100 <= pr <= 139 ->
  get_new_prio pr 0 = Z.min 139 (pr + 10) /\
  (get_new_prio pr 1 < pr \/ get_new_prio pr 1 = pr /\ pr = 100) /\
  100 <= get_new_prio pr 1 <= 109 /\
  get_num_ticks pr = 4 * ((pr - 100) / 10 + 1) /\
  get_num_ticks (get_new_prio pr 1) = 4.
Proof.
  intros H. split; [by apply get_new_prio_expire|].
  assert (H1 : 100 <= get_new_prio pr 1 <= 109) by (unfold get_new_prio; split_ifs; lia).
  split; [unfold get_new_prio; split_ifs; lia | split; [done | split]].
  - unfold get_num_ticks. split_ifs; Z.div_mod_to_equations; lia.
  - unfold get_num_ticks. split_ifs; lia.
Qed.

(** *** Concrete instances *)

Import Machine.

(** Three queued tasks of priorities 120, 120 and 130. *)
Definition ts_example : kstate :=
  after (do! init_ts_rq 0 in
         do! set_task 1 (fun t => t <| policy := SCHED_TS |> <| ts := mk_sched_ts_entity 12 |>) in
         do! set_task 3 (fun t => t <| prio := 130 |>) in
         do! enqueue_task_ts 0 3 0 in
         do! enqueue_task_ts 0 1 0 in
         enqueue_task_ts 0 2 0) machine0.

Lemma ts_example_wf : ts_wf 0 ts_example.
Proof.
  split; [vm_compute; done | split].
  - unfold Klist.wf. vm_compute. apply (bool_decide_unpack _). done.
  - assert (Hall : Forall (fun p => 100 <= prio_of ts_example p <= 139)
                     (concat (ts_q 0 ts_example))) by (apply (bool_decide_unpack _); vm_compute; done).
    by apply Forall_forall.
Qed.

Lemma ts_sorted_check q pr :
  forallb (fun '(i, l) => forallb (fun p => 139 - pr p =? i) l)
          (zip (seqZ 0 (Z.of_nat (length q))) q) = true ->
  ts_sorted_q q pr.
Proof.
  intros H i l p [Hi Hl]%Klist.at_index_Some Hp.
  rewrite List.forallb_forall in H. specialize (H (i, l)). simpl in H.
  assert (Hin : In (i, l) (zip (seqZ 0 (Z.of_nat (length q))) q)).
  { apply list_elem_of_In, list_elem_of_lookup. exists (Z.to_nat i).
    rewrite lookup_zip_with, Hl. pose proof (lookup_lt_Some _ _ _ Hl).
    rewrite lookup_seqZ_lt by lia. simpl. repeat f_equal. lia. }
  specialize (H Hin). rewrite List.forallb_forall in H.
  apply Z.eqb_eq, H. by apply list_elem_of_In.
Qed.

Lemma ts_example_sorted : ts_sorted 0 ts_example.
Proof. apply ts_sorted_check. vm_compute. done. Qed.

Definition ts_booted : kstate := after (init_ts_rq 0) machine0.

Lemma ts_safety_witness :
  (exists s, rtc (@ts_step put_prev_nop (fun _ => True) 0) ts_booted s /\ ts_q 0 s <> ts_q 0 ts_booted) /\
  ts_wf 0 (after (enqueue_task_ts 0 1 1) ts_booted).
Proof.
  assert (Hr : rtc (@ts_step put_prev_nop (fun _ => True) 0) ts_booted
                 (after (enqueue_task_ts 0 1 1) ts_booted)).
  { apply rtc_once. exists (Some 1). apply ev_enqueue with (fl := 1);
      [done | unfold ts_queued; vm_compute; set_solver | by vm_compute | done]. }
  split; [exists (after (enqueue_task_ts 0 1 1) ts_booted); split; [exact Hr | vm_compute; discriminate]|].
  apply (@ts_safety put_prev_nop put_prev_nop_ts 0 machine0 ts_booted _ eq_refl Hr).
Defined.

(** Tasks 1 and 2 of one priority are enqueued, and task 1 yields. *)
Definition ts_two : kstate := after (do! enqueue_task_ts 0 1 0 in enqueue_task_ts 0 2 0) ts_booted.
Definition ts_yielded : kstate :=
  after (yield_task_ts 0) (ts_two <| rqs ::= alter (fun r => r <| curr := 1 |>) 0 |>).

Lemma ts_two_history : @ts_history put_prev_nop no_wakeup 0 ts_booted [1; 2; 1] ts_yielded.
Proof.
  set (s1 := after (enqueue_task_ts 0 1 0) ts_booted).
  set (s2 := ts_two <| rqs ::= alter (fun r => r <| curr := 1 |>) 0 |>).
  apply (hist_event no_wakeup 0 ts_booted [1; 2] (Some 1) s2).
  - apply (hist_event no_wakeup 0 ts_booted [1; 2] None ts_two).
    + apply (hist_event no_wakeup 0 ts_booted [1] (Some 2) s1).
      * apply (hist_event no_wakeup 0 ts_booted [] (Some 1) ts_booted); [constructor|].
        apply ev_enqueue with (fl := 0); [done|unfold ts_queued; vm_compute; set_solver|by vm_compute|done].
      * apply ev_enqueue with (fl := 0); [done|unfold ts_queued; vm_compute; set_solver|by vm_compute|done].
    + by apply ev_frame.
  - change (Some 1) with (Some (curr (rqs s2 0))). apply ev_yield; [|done]. unfold ts_queued. vm_compute. set_solver.
Qed.

Lemma ts_pick_highest_witness :
  ts_sorted 0 ts_yielded /\ exists s', @pick_next_task_ts put_prev_nop 0 1 ts_yielded = Done (Some 2, s') /\
    joined_before [1; 2; 1] 2 1.
Proof.
  destruct (@ts_pick_highest put_prev_nop put_prev_nop_ts 0 1 machine0 ts_booted [1; 2; 1] ts_yielded eq_refl ts_two_history)
    as (H1 & next & s' & H2 & H3).
  split; [exact H1|]. assert (next = Some 2) as ->.
  { assert (match @pick_next_task_ts put_prev_nop 0 1 ts_yielded with Done (n, _) => n | _ => None end = Some 2) as E
      by (by vm_compute). by rewrite H2 in E. }
  exists s'. split; [exact H2|]. apply H3; [unfold ts_queued; vm_compute; set_solver|done|by vm_compute].
Defined.

Lemma ts_round_robin_witness :
  exists s', @ts_rounds put_prev_nop 0 2 ts_example = Done ([1; 2], s') /\ ts_q 0 s' = ts_q 0 ts_example.
Proof.
  apply (@ts_round_robin put_prev_nop put_prev_nop_ts 0 ts_example 19 [1; 2]).
  - apply ts_example_wf.
  - apply ts_example_sorted.
  - split; [by vm_compute|]. intros j l' Hj Hlt.
    assert (Hc : Forall (fun l => l = []) (drop 20 (ts_q 0 ts_example))) by (vm_compute; repeat constructor).
    apply Klist.at_index_Some in Hj as [_ Hj]. rewrite Forall_lookup in Hc.
    apply (Hc (Z.to_nat j - 20)%nat). rewrite lookup_drop.
    replace (20 + (Z.to_nat j - 20))%nat with (Z.to_nat j) by lia. done.
Defined.

Lemma ts_cpu_bound_sinks_witness :
  exists n s', (n <= 64)%nat /\ ts_ticks 0 1 n ts_example = Done (tt, s') /\
    ts_wf 0 s' /\ ts_queued 0 s' 1 /\ prio_of s' 1 = 139 /\ ts_time_slice (ts (tasks s' 1)) = 16.
Proof.
  apply ts_cpu_bound_sinks; [apply ts_example_wf | | by vm_compute | by vm_compute].
  unfold ts_queued. vm_compute. set_solver.
Defined.

Lemma ts_wakeup_misplaced_witness :
  exists s' l, enqueue_task_ts 0 4 1 ts_example = Done (tt, s') /\
    Klist.at_index (ts_q 0 s') 19 = Some (l ++ [4]) /\ 19 < 139 - prio_of s' 4 /\ ~ ts_sorted 0 s'.
Proof.
  apply (ts_wakeup_misplaced 0 4 1 ts_example); [apply ts_example_wf | | by vm_compute | by vm_compute].
  unfold ts_queued. vm_compute. set_solver.
Defined.

Lemma ts_tables_witness : get_new_prio 120 0 = 130 /\ get_num_ticks (get_new_prio 120 1) = 4.
Proof. destruct (ts_tables 120) as (H1 & _ & _ & _ & H2); [lia|]. split; [exact H1 | exact H2]. Defined.
