(* ===== verification/RtBandwidth.v ===== *)
(** * Real-time bandwidth ([kernel/sched/rt.c])

    Each CPU may run real-time tasks for [rt_runtime] out of every
    [rt_period]; a CPU that runs out borrows from the others, and is throttled
    when there is nothing left to borrow.  Without [CONFIG_RT_GROUP_SCHED]
    there is one bandwidth, [def_rt_bandwidth], and one [rt_rq] per CPU, so
    the loops over a CPU's [rt_rq]s and over an entity's parents run once.
    [hrtimer]s are outside the model: the timer is active or not, and the
    successive results of [hrtimer_forward_now] are an argument. *)

From S2P Require Import Prelude Sched.

Definition set_bw (f : rt_bandwidth -> rt_bandwidth) : K unit :=
  modify (fun s => s <| def_rt_bandwidth ::= f |>).

Definition init_rt_bandwidth (period runtime : Z) : K unit :=
  do! set_bw (fun b => b <| rt_period := period |>) in
  set_bw (fun b => b <| rt_bw_runtime := runtime |>).

Definition start_rt_bandwidth : K unit :=
  let! s := gets (fun s => s) in
  let b := def_rt_bandwidth s in
  if negb (rt_bandwidth_enabled s) || (rt_bw_runtime b =? RUNTIME_INF) then ret tt else
  when (rt_period_active b =? 0)
    (do! set_bw (fun b => b <| rt_period_active := 1 |>) in
     set_bw (fun b => b <| timer_active := true |>)).

(** ** The share of a CPU's run queue *)

Definition rt_rq_throttled (r : rt_rq) : bool := negb (rt_throttled r =? 0).

Definition dequeue_top_rt_rq (c : cpu) : K unit :=
  let! r := get_rq c in
  if rt_queued (rq_rt r) =? 0 then ret tt else
  do! bug_on (nr_running r =? 0) in
  do! sub_nr_running c (rt_nr_running (rq_rt r)) in
  set_rt c (fun r => r <| rt_queued := 0 |>).

Definition enqueue_top_rt_rq (c : cpu) : K unit :=
  let! r := get_rt c in
  if negb (rt_queued r =? 0) then ret tt else
  if rt_rq_throttled r then ret tt else
  when (negb (rt_nr_running r =? 0))
    (do! add_nr_running c (rt_nr_running r) in
     set_rt c (fun r => r <| rt_queued := 1 |>)).

Definition sched_rt_rq_enqueue (c : cpu) : K unit :=
  let! r := get_rt c in
  if rt_nr_running r =? 0 then ret tt else
  do! enqueue_top_rt_rq c in
  resched_curr c.

Definition sched_rt_rq_dequeue (c : cpu) : K unit := dequeue_top_rt_rq c.

Definition sched_rt_runtime (r : rt_rq) : Z := rt_runtime r.
Definition sched_rt_period (s : kstate) : Z := rt_period (def_rt_bandwidth s).
Definition sched_rt_period_mask (s : kstate) : list cpu := online_cpus s.

Definition sched_rt_bandwidth_account (c : cpu) : K bool :=
  let! r := get_rt c in
  let! b := gets def_rt_bandwidth in
  ret (timer_active b || (rt_time r <? rt_bw_runtime b)).

(** ** Borrowing *)

(** The loop over [rd->span], on the CPUs that are left. *)
Fixpoint balance_runtime_loop (c : cpu) (weight period : Z) (l : list cpu) : K unit :=
  match l with
  | [] => ret tt
  | i :: l =>
      if i =? c then balance_runtime_loop c weight period l else
      let! iter := get_rt i in
      if rt_runtime iter =? RUNTIME_INF then balance_runtime_loop c weight period l else
      let diff := s64 (rt_runtime iter - rt_time iter) in
      if 0 <? diff then
        let diff := s64 (u64 diff / weight) in
        let! r := get_rt c in
        let diff := if period <? u64 (rt_runtime r + diff)
                    then s64 (period - rt_runtime r) else diff in
        do! set_rt i (fun r => r <| rt_runtime ::= fun t => u64 (t - diff) |>) in
        do! set_rt c (fun r => r <| rt_runtime ::= fun t => u64 (t + diff) |>) in
        let! r := get_rt c in
        if rt_runtime r =? period then ret tt
        else balance_runtime_loop c weight period l
      else balance_runtime_loop c weight period l
  end.

Definition do_balance_runtime (c : cpu) : K unit :=
  let! s := gets (fun s => s) in
  let weight := Z.of_nat (length (span (rd s))) in
  balance_runtime_loop c weight (rt_period (def_rt_bandwidth s)) (span (rd s)).

(** The reclaim loop of [__disable_runtime]; it returns [want]. *)
Fixpoint reclaim_loop (c : cpu) (want : Z) (l : list cpu) : K Z :=
  match l with
  | [] => ret want
  | i :: l =>
      let! iter := get_rt i in
      if (i =? c) || (rt_runtime iter =? RUNTIME_INF) then reclaim_loop c want l else
      let! want :=
        (if 0 <? want then
           let diff := Z.min (s64 (rt_runtime iter)) want in
           do! set_rt i (fun r => r <| rt_runtime ::= fun t => u64 (t - diff) |>) in
           ret (s64 (want - diff))
         else
           do! set_rt i (fun r => r <| rt_runtime ::= fun t => u64 (t - want) |>) in
           ret 0) in
      if want =? 0 then ret want else reclaim_loop c want l
  end.

Definition __disable_runtime (c : cpu) : K unit :=
  let! s := gets (fun s => s) in
  if scheduler_running s =? 0 then ret tt else
  let! r := get_rt c in
  let runtime := rt_bw_runtime (def_rt_bandwidth s) in
  do! (if (rt_runtime r =? RUNTIME_INF) || (rt_runtime r =? runtime) then ret tt else
       let! want := reclaim_loop c (s64 (runtime - rt_runtime r)) (span (rd s)) in
       bug_on (negb (want =? 0))) in
  do! set_rt c (fun r => r <| rt_runtime := RUNTIME_INF |>) in
  do! set_rt c (fun r => r <| rt_throttled := 0 |>) in
  sched_rt_rq_enqueue c.

Definition __enable_runtime (c : cpu) : K unit :=
  let! s := gets (fun s => s) in
  if scheduler_running s =? 0 then ret tt else
  do! set_rt c (fun r => r <| rt_runtime := rt_bw_runtime (def_rt_bandwidth s) |>) in
  do! set_rt c (fun r => r <| rt_time := 0 |>) in
  set_rt c (fun r => r <| rt_throttled := 0 |>).

Definition balance_runtime `{SchedFeat} (c : cpu) : K unit :=
  if negb (sched_feat RT_RUNTIME_SHARE) then ret tt else
  let! r := get_rt c in
  when (rt_runtime r <? rt_time r) (do_balance_runtime c).

(** ** The period timer *)

(** The part of the timer's loop that runs with [rt_time] not zero: it
    returns [enqueue] and whether the run queue is not idle. *)
Definition replenish `{SchedFeat} (c : cpu) (overrun : Z) : K (bool * bool) :=
  let! r := get_rt c in
  do! when (rt_rq_throttled r) (balance_runtime c) in
  let! r := get_rt c in
  let runtime := rt_runtime r in
  do! set_rt c (fun r => r <| rt_time ::= fun t => t - Z.min t (u64 (overrun * runtime)) |>) in
  let! r := get_rq c in
  let! enqueue :=
    (if rt_rq_throttled (rq_rt r) && (rt_time (rq_rt r) <? runtime) then
       do! set_rt c (fun r => r <| rt_throttled := 0 |>) in
       do! when (negb (rt_nr_running (rq_rt r) =? 0) && bool_decide (curr r = idle r))
             (rq_clock_cancel_skipupdate c) in
       ret true
     else ret false) in
  let! r := get_rt c in
  ret (enqueue, negb (rt_time r =? 0) || negb (rt_nr_running r =? 0)).

(** The body of the loop for CPU [i]: whether it is busy, whether it is
    throttled. *)
Definition period_timer_cpu `{SchedFeat} (overrun : Z) (i : cpu) : K (bool * bool) :=
  let! b := gets def_rt_bandwidth in
  let! r := get_rt i in
  do! when (negb (sched_feat RT_RUNTIME_SHARE) && negb (rt_runtime r =? RUNTIME_INF))
        (set_rt i (fun r => r <| rt_runtime := rt_bw_runtime b |>)) in
  let! r := get_rt i in
  if (rt_time r =? 0) && (rt_nr_running r =? 0) then ret (false, false) else
  do! update_rq_clock i in
  let! r := get_rt i in
  let! res :=
    (if negb (rt_time r =? 0) then replenish i overrun
     else ret (negb (rt_nr_running r =? 0) && negb (rt_rq_throttled r),
               negb (rt_nr_running r =? 0))) in
  let '(enqueue, busy) := res in
  let! r := get_rt i in
  do! when enqueue (sched_rt_rq_enqueue i) in
  ret (busy, rt_rq_throttled r).

Fixpoint period_timer_loop `{SchedFeat} (overrun : Z) (l : list cpu) (idle throttled : bool)
    : K (bool * bool) :=
  match l with
  | [] => ret (idle, throttled)
  | i :: l =>
      let! res := period_timer_cpu overrun i in
      period_timer_loop overrun l (idle && negb res.1) (throttled || res.2)
  end.

Definition do_sched_rt_period_timer `{SchedFeat} (overrun : Z) : K bool :=
  let! s := gets (fun s => s) in
  let! res := period_timer_loop overrun (sched_rt_period_mask s) true false in
  let '(idle, throttled) := res in
  let! s := gets (fun s => s) in
  if negb throttled && (negb (rt_bandwidth_enabled s)
                        || (rt_bw_runtime (def_rt_bandwidth s) =? RUNTIME_INF))
  then ret true else ret idle.

(** [overruns] are the results of [hrtimer_forward_now] before it returns 0;
    the result is [HRTIMER_RESTART]. *)
Fixpoint rt_period_timer_loop `{SchedFeat} (overruns : list Z) (idle : bool) : K bool :=
  match overruns with
  | [] => ret idle
  | o :: l =>
      if o =? 0 then ret idle else
      let! idle := do_sched_rt_period_timer o in
      rt_period_timer_loop l idle
  end.

Definition sched_rt_period_timer `{SchedFeat} (overruns : list Z) : K bool :=
  let! idle := rt_period_timer_loop overruns false in
  do! when idle (set_bw (fun b => b <| rt_period_active := 0 |>)) in
  ret (negb idle).

(** ** Accounting *)

Definition sched_rt_runtime_exceeded `{SchedFeat} (c : cpu) : K bool :=
  let! s := gets (fun s => s) in
  let! r := get_rt c in
  let runtime := sched_rt_runtime r in
  if rt_rq_throttled r then ret (rt_rq_throttled r) else
  if sched_rt_period s <=? runtime then ret false else
  do! balance_runtime c in
  let! r := get_rt c in
  let runtime := sched_rt_runtime r in
  if runtime =? RUNTIME_INF then ret false else
  if runtime <? rt_time r then
    do! (if negb (rt_bw_runtime (def_rt_bandwidth s) =? 0)
         then set_rt c (fun r => r <| rt_throttled := 1 |>)
         else set_rt c (fun r => r <| rt_time := 0 |>)) in
    let! r := get_rt c in
    if rt_rq_throttled r then
      do! sched_rt_rq_dequeue c in
      ret true
    else ret false
  else ret false.

Definition update_curr_rt `{SchedFeat} (c : cpu) : K unit :=
  let! r := get_rq c in
  let! t := get_task (curr r) in
  if negb (bool_decide (sched_class t = rt_sched_class)) then ret tt else
  let now := clock_task r in
  let delta_exec := u64 (now - exec_start (se t)) in
  if s64 delta_exec <=? 0 then ret tt else
  do! set_task (curr r) (fun t => t <| se ::= fun e =>
        e <| sum_exec_runtime ::= fun x => u64 (x + delta_exec) |> |>) in
  do! set_task (curr r) (fun t => t <| se ::= fun e => e <| exec_start := now |> |>) in
  let! s := gets (fun s => s) in
  if negb (rt_bandwidth_enabled s) then ret tt else
  let! rt := get_rt c in
  when (negb (sched_rt_runtime rt =? RUNTIME_INF))
    (do! set_rt c (fun r => r <| rt_time ::= fun t => u64 (t + delta_exec) |>) in
     let! exceeded := sched_rt_runtime_exceeded c in
     when exceeded (resched_curr c)).

(** ** The sysctl handlers

    [proc] is [proc_dointvec] on the table's variables, which parses the
    buffer and writes them; the two deadline functions are
    [kernel/sched/deadline.c]'s. *)

Definition sched_rt_global_constraints : K Z :=
  let! s := gets (fun s => s) in
  do! foreach (possible_cpus s) (fun i =>
        let! s := gets (fun s => s) in
        set_rt i (fun r => r <| rt_runtime := global_rt_runtime s |>)) in
  ret 0.

(** [sysctl_sched_rt_runtime] is an [int], compared with the unsigned
    [RUNTIME_INF] and with the unsigned period. *)
Definition sched_rt_global_validate : K Z :=
  let! s := gets (fun s => s) in
  if sysctl_sched_rt_period s <=? 0 then ret (- EINVAL) else
  if negb (u64 (sysctl_sched_rt_runtime s) =? RUNTIME_INF)
     && (sysctl_sched_rt_period s <? u32 (sysctl_sched_rt_runtime s)) then ret (- EINVAL)
  else ret 0.

Definition sched_rt_do_global : K unit :=
  do! modify (fun s => s <| def_rt_bandwidth ::= fun b => b <| rt_bw_runtime := global_rt_runtime s |> |>) in
  modify (fun s => s <| def_rt_bandwidth ::= fun b => b <| rt_period := global_rt_period s |> |>).

Section Handlers.
Context (sched_dl_global_validate : K Z) (sched_dl_do_global : K unit).
Context (msecs_to_jiffies : Z -> Z).

(** The chain of [goto undo]s: each step runs if the last returned 0. *)
Definition sched_rt_handler (write : bool) (proc : K Z) : K Z :=
  let! old := gets (fun s => s) in
  let old_period := s32 (sysctl_sched_rt_period old) in
  let old_runtime := sysctl_sched_rt_runtime old in
  let undo :=
    do! modify (fun s => s <| sysctl_sched_rt_period := u32 old_period |>) in
    modify (fun s => s <| sysctl_sched_rt_runtime := old_runtime |>) in
  let! r := proc in
  if negb ((r =? 0) && write) then ret r else
  let! r := sched_rt_global_validate in
  if negb (r =? 0) then do! undo in ret r else
  let! r := sched_dl_global_validate in
  if negb (r =? 0) then do! undo in ret r else
  let! r := sched_rt_global_constraints in
  if negb (r =? 0) then do! undo in ret r else
  do! sched_rt_do_global in
  do! sched_dl_do_global in
  ret r.

Definition RR_TIMESLICE : Z := 100.

Definition sched_rr_handler (write : bool) (proc : K Z) : K Z :=
  let! r := proc in
  do! when ((r =? 0) && write)
    (modify (fun s => s <| sched_rr_timeslice :=
       if sysctl_sched_rr_timeslice s <=? 0 then RR_TIMESLICE
       else msecs_to_jiffies (sysctl_sched_rr_timeslice s) |>)) in
  ret r.
End Handlers.

Lemma RUNTIME_INF_eq : RUNTIME_INF = 2 ^ 64 - 1.
Proof. done. Qed.

(** ** Lending is all that borrowing does *)

Abbreviation runtime_of g i := (rt_runtime (rq_rt (g i))) (only parsing).
Abbreviation time_of g i := (rt_time (rq_rt (g i))) (only parsing).

(** The run queues [g'] are [g] up to their [rt_runtime]. *)
Definition only_runtime (g g' : cpu -> rq) : Prop :=
  forall i, g' i = g i <| rq_rt ::= fun r => r <| rt_runtime := runtime_of g' i |> |>.

Section Lending.
Implicit Types (g : cpu -> rq) (c i : cpu) (l : list cpu).

Lemma rq_rt_eta r : r <| rq_rt ::= fun t => t <| rt_runtime := rt_runtime (rq_rt r) |> |> = r.
Proof. by destruct r as [? ? ? ? []]. Qed.

#[global] Instance only_runtime_preorder : PreOrder only_runtime.
Proof.
  split.
  - intros g i. by rewrite rq_rt_eta.
  - intros g1 g2 g3 H12 H23 i. rewrite (H23 i) at 1. rewrite (H12 i) at 1. by destruct (g1 i).
Qed.

Lemma only_runtime_time g g' i : only_runtime g g' -> time_of g' i = time_of g i.
Proof. intros H. by rewrite H. Qed.

Definition alter_runtime i (F : Z -> Z) g : cpu -> rq :=
  alter (fun r => r <| rq_rt ::= fun r => r <| rt_runtime ::= F |> |>) i g.

Lemma alter_runtime_eq i F g : runtime_of (alter_runtime i F g) i = F (runtime_of g i).
Proof. unfold alter_runtime. by rewrite fn_lookup_alter. Qed.

Lemma alter_runtime_ne i j F g : i <> j -> alter_runtime i F g j = g j.
Proof. intros H. unfold alter_runtime. by rewrite fn_lookup_alter_ne. Qed.

Lemma alter_runtime_only i F g : only_runtime g (alter_runtime i F g).
Proof.
  intros j. unfold alter_runtime. destruct (decide (i = j)) as [->|].
  - by rewrite fn_lookup_alter.
  - rewrite fn_lookup_alter_ne by done. by rewrite rq_rt_eta.
Qed.

Lemma kstate_rqs_eta (s : kstate) : s <| rqs := rqs s |> = s.
Proof. by destruct s. Qed.

Lemma set_runtime_run i F (s : kstate) :
  set_rt i (fun r => r <| rt_runtime ::= F |>) s
  = Done (tt, s <| rqs := alter_runtime i F (rqs s) |>).
Proof. done. Qed.

Lemma sum_alter_runtime i F g l :
  NoDup l -> i ∈ l ->
  sumZ (fun j => runtime_of (alter_runtime i F g) j) l
  = sumZ (fun j => runtime_of g j) l + (F (runtime_of g i) - runtime_of g i).
Proof.
  intros Hnd (l1 & l2 & ->)%list_elem_of_split.
  apply NoDup_app in Hnd as (_ & Hd & [Hi2 _]%NoDup_cons).
  assert (Hi1 : i ∉ l1) by (intros Hi; apply (Hd i Hi); by left).
  rewrite !sumZ_app, !sumZ_cons, alter_runtime_eq.
  rewrite (sumZ_ext _ (fun j => runtime_of g j) l1), (sumZ_ext _ (fun j => runtime_of g j) l2);
    [lia| |]; intros j Hj; rewrite alter_runtime_ne; congruence.
Qed.
End Lending.

(** ** Borrowing *)

(** A CPU takes part in borrowing: its runtime is not infinite. *)
Definition lends (g : cpu -> rq) (i : cpu) : Prop := runtime_of g i <> RUNTIME_INF.

(** Runtimes and times of [l] that do not overflow. *)
Definition rt_bounds (g : cpu -> rq) (l : list cpu) : Prop :=
  forall i, i ∈ l -> 0 <= time_of g i < 2 ^ 63 /\
    (lends g i -> 0 <= runtime_of g i < 2 ^ 62).

Section Borrowing.
Context (c : cpu) (weight period : Z).
Hypothesis Hweight : 0 < weight.
Hypothesis Hperiod : 0 < period < 2 ^ 62.
Implicit Types (g : cpu -> rq) (l : list cpu) (s : kstate).

(** What a run of the loop from [g] to [g'] does. *)
Definition borrowed l g g' : Prop :=
  only_runtime g g' /\
  (forall i, i <> c -> i ∉ l -> g' i = g i) /\
  runtime_of g c <= runtime_of g' c <= period /\
  runtime_of g' c + sumZ (fun i => runtime_of g' i) (filter (fun i => i <> c) l)
  = runtime_of g c + sumZ (fun i => runtime_of g i) (filter (fun i => i <> c) l) /\
  (forall i, i <> c -> Z.min (runtime_of g i) (time_of g i) <= runtime_of g' i <= runtime_of g i) /\
  (forall i, i <> c -> ~ lends g i -> runtime_of g' i = runtime_of g i).

Lemma borrowed_refl l g : runtime_of g c <= period -> borrowed l g g.
Proof. intros. split; [done|]. repeat split; lia. Qed.
(** Moving [d] of runtime from [i] to [c]. *)
Definition transfer i d g : cpu -> rq :=
  alter_runtime c (fun t => u64 (t + d)) (alter_runtime i (fun t => u64 (t - d)) g).

Lemma transfer_spec i d g :
  i <> c -> 0 <= runtime_of g i - d < 2 ^ 63 -> 0 <= runtime_of g c + d < 2 ^ 63 ->
  only_runtime g (transfer i d g) /\
  runtime_of (transfer i d g) c = runtime_of g c + d /\
  runtime_of (transfer i d g) i = runtime_of g i - d /\
  (forall j, j <> c -> j <> i -> transfer i d g j = g j).
Proof.
  intros Hi Hd Hc. unfold transfer. split; [|split; [|split]].
  - etrans; apply alter_runtime_only.
  - rewrite alter_runtime_eq, alter_runtime_ne by congruence. apply u64_small. lia.
  - rewrite alter_runtime_ne by congruence. rewrite alter_runtime_eq. apply u64_small. lia.
  - intros j Hj Hji. by rewrite !alter_runtime_ne by congruence.
Qed.

Lemma borrowed_skip i l g g' :
  i = c \/ g' i = g i -> borrowed l g g' -> borrowed (i :: l) g g'.
Proof.
  intros Hi (Ho & Hf & Hc & Hsum & Hl). split; [done|]. split; [|split; [done | split; [|done]]].
  - intros j Hj Hn. apply Hf; [done|]. intros ?. apply Hn. by right.
  - destruct (decide (i = c)) as [->|Hne].
    + by rewrite filter_cons_False by naive_solver.
    + rewrite filter_cons_True by done. rewrite !sumZ_cons.
      destruct Hi as [? | ->]; [done|]. lia.
Qed.

Lemma borrowed_transfer i d l g g' :
  i <> c -> i ∉ l -> lends g i -> 0 <= d <= runtime_of g i - time_of g i ->
  runtime_of g i < 2 ^ 63 -> 0 <= time_of g i ->
  0 <= runtime_of g c -> runtime_of g c + d <= period ->
  borrowed l (transfer i d g) g' -> borrowed (i :: l) g g'.
Proof.
  intros Hi Hil Hli Hd Hr Ht Hc Hcd (Ho & Hf & Hcc & Hsum & Hl & Hn).
  destruct (transfer_spec i d g) as (Ho1 & Hc1 & Hi1 & Hj1); [done|lia..|].
  assert (Hgi : runtime_of g' i = runtime_of g i - d) by (by rewrite Hf).
  split; [by etrans|]. split; [|split; [lia|split; [|split]]].
  - intros j Hj Hnj. rewrite Hf; [|done|set_solver]. apply Hj1; set_solver.
  - rewrite filter_cons_True by done. rewrite !sumZ_cons, Hgi.
    assert (Hs : sumZ (fun j => runtime_of (transfer i d g) j) (filter (fun j => j <> c) l)
                 = sumZ (fun j => runtime_of g j) (filter (fun j => j <> c) l)).
    { apply sumZ_ext. intros j [Hj Hjl]%list_elem_of_filter. rewrite Hj1; congruence. }
    lia.
  - intros j Hj. destruct (decide (j = i)) as [->|Hji]; [lia|].
    specialize (Hl j Hj). rewrite <- (only_runtime_time _ _ j Ho1).
    rewrite Hj1 in Hl |- * by done. done.
  - intros j Hj Hlj. assert (j <> i) by (intros ->; done).
    unfold lends in Hn, Hlj. specialize (Hn j Hj). rewrite Hj1 in Hn by done. by apply Hn.
Qed.

Lemma balance_runtime_loop_run l s :
  NoDup l -> lends (rqs s) c -> runtime_of (rqs s) c <= period -> rt_bounds (rqs s) (c :: l) ->
  exists g', balance_runtime_loop c weight period l s = Done (tt, s <| rqs := g' |>) /\
             borrowed l (rqs s) g'.
Proof.
  revert s. induction l as [|i l IH]; intros s Hnd Hc Hcp Hb.
  { exists (rqs s). rewrite kstate_rqs_eta. split; [done|]. by apply borrowed_refl. }
  apply NoDup_cons in Hnd as [Hil Hnd].
  assert (Hb' : rt_bounds (rqs s) (c :: l)) by (intros j Hj; apply Hb; set_solver).
  destruct (Hb c ltac:(by left)) as [_ Hrc]. specialize (Hrc Hc).
  assert (Hskip : i = c \/ True -> exists g',
    balance_runtime_loop c weight period l s = Done (tt, s <| rqs := g' |>) /\
    borrowed (i :: l) (rqs s) g').
  { intros _. destruct (IH s Hnd Hc Hcp Hb') as (g' & Hg' & Hbor). exists g'. split; [done|].
    apply borrowed_skip; [|done]. destruct (decide (i = c)); [by left | right].
    by apply Hbor. }
  cbn [balance_runtime_loop]. destruct (Z.eqb_spec i c) as [Hic|Hic]; [by apply Hskip; left|].
  unfold bind at 1, get_rt, gets.
  destruct (Z.eqb_spec (runtime_of (rqs s) i) RUNTIME_INF) as [Hinf|Hinf]; [apply Hskip; by right|].
  destruct (Hb i ltac:(by right; left)) as [Hti Hri]. specialize (Hri Hinf).
  rewrite s64_small by lia.
  destruct (Z.ltb_spec 0 (runtime_of (rqs s) i - time_of (rqs s) i)) as [Hdiff|];
    [|apply Hskip; by right].
  remember (runtime_of (rqs s) i - time_of (rqs s) i) as d0 eqn:Hd0.
  assert (Hq : 0 <= d0 / weight <= d0).
  { split; [apply Z.div_pos; lia | apply Z.div_le_upper_bound; nia]. }
  rewrite (u64_small d0), (s64_small (d0 / weight)) by lia.
  unfold bind at 1. rewrite u64_small by lia.
  remember (if period <? _ then _ else _) as d eqn:Heq.
  assert (Hd : 0 <= d <= d0 /\ runtime_of (rqs s) c + d <= period).
  { subst d. destruct (Z.ltb_spec period (runtime_of (rqs s) c + d0 / weight));
      rewrite ?s64_small by lia; lia. }
  set (s1 := s <| rqs := transfer i d (rqs s) |>).
  assert (Hstep : forall k : K unit,
    (do! set_rt i (fun r => r <| rt_runtime ::= fun t => u64 (t - d) |>) in
     do! set_rt c (fun r => r <| rt_runtime ::= fun t => u64 (t + d) |>) in k) s = k s1) by done.
  rewrite Hstep. unfold bind.
  destruct (transfer_spec i d (rqs s)) as (Ho1 & Hc1 & Hi1 & Hj1); [done|lia..|].
  assert (Hc1' : runtime_of (rqs s1) c = runtime_of (rqs s) c + d) by done.
  assert (Hfin : forall g', borrowed l (transfer i d (rqs s)) g' -> borrowed (i :: l) (rqs s) g').
  { intros g'. apply borrowed_transfer; [done..|lia|lia|lia|lia|lia]. }
  destruct (Z.eqb_spec (runtime_of (rqs s1) c) period).
  - exists (transfer i d (rqs s)). split; [done|]. apply Hfin, borrowed_refl. lia.
  - destruct (IH s1 Hnd) as (g' & Hg' & Hbor).
    + unfold lends. rewrite Hc1', RUNTIME_INF_eq. lia.
    + lia.
    + intros j Hj. change (rqs s1) with (transfer i d (rqs s)) in *.
      rewrite (only_runtime_time _ _ j Ho1). destruct (Hb' j Hj) as [Htj Hrj]. split; [done|]. intros Hlj.
      destruct (decide (j = c)) as [->|]; [rewrite Hc1'; lia|].
      assert (j <> i) by set_solver.
      unfold lends in Hlj. rewrite Hj1 in Hlj |- * by done. by apply Hrj.
    + exists g'. split; [exact Hg' | by apply Hfin].
Qed.

(** With more than a period of runtime, the excess goes to the first CPU
    that has some to spare. *)
Lemma balance_runtime_loop_excess l s :
  lends (rqs s) c -> period < runtime_of (rqs s) c -> rt_bounds (rqs s) (c :: l) ->
  exists g', balance_runtime_loop c weight period l s = Done (tt, s <| rqs := g' |>) /\
    (g' = rqs s \/ exists i, i ∈ l /\ i <> c /\ lends (rqs s) i /\
       g' = transfer i (period - runtime_of (rqs s) c) (rqs s)).
Proof.
  intros Hc Hcp. induction l as [|i l IH]; intros Hb.
  { exists (rqs s). rewrite kstate_rqs_eta. split; [done|]. by left. }
  destruct (Hb c ltac:(by left)) as [_ Hrc]. specialize (Hrc Hc).
  assert (Hskip : exists g',
    balance_runtime_loop c weight period l s = Done (tt, s <| rqs := g' |>) /\
    (g' = rqs s \/ exists j, j ∈ i :: l /\ j <> c /\ lends (rqs s) j /\
       g' = transfer j (period - runtime_of (rqs s) c) (rqs s))).
  { destruct IH as (g' & Hg' & Hor); [intros j Hj; apply Hb; set_solver|].
    exists g'. split; [done|]. destruct Hor as [?|(j & ? & ?)]; [by left | right].
    exists j. split; [by right | done]. }
  cbn [balance_runtime_loop]. destruct (Z.eqb_spec i c) as [Hic|Hic]; [done|].
  unfold bind at 1, get_rt, gets.
  destruct (Z.eqb_spec (runtime_of (rqs s) i) RUNTIME_INF) as [Hinf|Hinf]; [done|].
  destruct (Hb i ltac:(by right; left)) as [Hti Hri]. specialize (Hri Hinf).
  rewrite s64_small by lia.
  destruct (Z.ltb_spec 0 (runtime_of (rqs s) i - time_of (rqs s) i)) as [Hdiff|]; [|done].
  remember (runtime_of (rqs s) i - time_of (rqs s) i) as d0 eqn:Hd0.
  assert (Hq : 0 <= d0 / weight <= d0).
  { split; [apply Z.div_pos; lia | apply Z.div_le_upper_bound; nia]. }
  rewrite (u64_small d0), (s64_small (d0 / weight)) by lia.
  unfold bind at 1. rewrite u64_small by lia.
  destruct (Z.ltb_spec period (runtime_of (rqs s) c + d0 / weight)); [|lia].
  rewrite s64_small by lia.
  set (d := period - runtime_of (rqs s) c).
  assert (Hd : d = period - runtime_of (rqs s) c) by done.
  destruct (transfer_spec i d (rqs s)) as (Ho1 & Hc1 & Hi1 & Hj1); [done|lia|lia|].
  exists (transfer i d (rqs s)).
  assert (Hstep : forall k : K unit,
    (do! set_rt i (fun r => r <| rt_runtime ::= fun t => u64 (t - d) |>) in
     do! set_rt c (fun r => r <| rt_runtime ::= fun t => u64 (t + d) |>) in k) s
    = k (s <| rqs := transfer i d (rqs s) |>)) by done.
  rewrite Hstep. unfold bind. cbn [rqs upd rqs_field].
  split; [|right; exists i; split; [by left | done]].
  change (rqs (s <| rqs := transfer i d (rqs s) |>)) with (transfer i d (rqs s)).
  destruct (Z.eqb_spec (runtime_of (transfer i d (rqs s)) c) period); [done | lia].
Qed.
End Borrowing.

(** ** Reclaiming *)

(** The CPUs of [l] other than [c] that take part in borrowing. *)
Definition lenders (c : cpu) (g : cpu -> rq) (l : list cpu) : list cpu :=
  filter (fun i => i <> c /\ runtime_of g i <> RUNTIME_INF) l.

Section Reclaim.
Implicit Types (g : cpu -> rq) (c i : cpu) (l : list cpu) (s : kstate) (w : Z).

Lemma lenders_ext c g g' l :
  (forall i, i ∈ l -> i <> c -> runtime_of g' i = runtime_of g i) -> lenders c g' l = lenders c g l.
Proof.
  intros H. apply filter_iff_in. intros i Hi. destruct (decide (i = c)); [tauto|].
  by rewrite H.
Qed.

Lemma lenders_elem c g l i : i ∈ lenders c g l <-> i ∈ l /\ i <> c /\ lends g i.
Proof. unfold lenders. rewrite list_elem_of_filter. unfold lends. naive_solver. Qed.

(** What reclaiming [w] from the CPUs of [l] does. *)
Definition reclaimed c l w g g' : Prop :=
  only_runtime g g' /\
  (forall i, i ∉ lenders c g l -> g' i = g i) /\
  (forall i, i ∈ lenders c g l -> 0 <= runtime_of g' i < 2 ^ 63) /\
  sumZ (fun i => runtime_of g' i) (lenders c g l)
  = sumZ (fun i => runtime_of g i) (lenders c g l) - w.

Lemma reclaimed_one c i l w g :
  i <> c -> lends g i -> i ∉ l ->
  0 <= runtime_of g i - w < 2 ^ 63 ->
  (forall j, j ∈ l -> lends g j -> 0 <= runtime_of g j < 2 ^ 62) ->
  reclaimed c (i :: l) w g (alter_runtime i (fun t => u64 (t - w)) g).
Proof.
  intros Hi Hl Hil Hw Hb.
  assert (Hcons : lenders c g (i :: l) = i :: lenders c g l).
  { unfold lenders. by rewrite filter_cons_True. }
  assert (Hn : forall j, j ∈ lenders c g l -> i <> j).
  { intros j [Hj _]%lenders_elem ->. by apply Hil. }
  split; [apply alter_runtime_only|]. rewrite Hcons. split; [|split].
  - intros j Hj. apply alter_runtime_ne. set_solver.
  - intros j [->|Hj]%elem_of_cons.
    + rewrite alter_runtime_eq, u64_small by lia. lia.
    + rewrite alter_runtime_ne by by apply Hn.
      apply lenders_elem in Hj as (Hj & _ & Hlj). pose proof (Hb j Hj Hlj). lia.
  - rewrite !sumZ_cons, alter_runtime_eq, u64_small by lia.
    rewrite (sumZ_ext _ (fun j => runtime_of g j)); [lia|].
    intros j Hj. by rewrite alter_runtime_ne by by apply Hn.
Qed.

Lemma reclaimed_cons c i l w d g g' :
  i <> c -> lends g i -> i ∉ l -> d = runtime_of g i -> 0 <= d < 2 ^ 62 ->
  reclaimed c l (w - d) (alter_runtime i (fun t => u64 (t - d)) g) g' ->
  reclaimed c (i :: l) w g g'.
Proof.
  intros Hi Hl Hil Hd Hdb (Ho & Hf & Hb & Hs).
  assert (Hcons : lenders c g (i :: l) = i :: lenders c g l).
  { unfold lenders. by rewrite filter_cons_True. }
  assert (Hne : forall j, j ∈ l -> i <> j) by (intros j Hj ->; by apply Hil).
  rewrite (lenders_ext c g) in Hf, Hb, Hs
    by (intros j Hj _; by rewrite alter_runtime_ne by by apply Hne).
  assert (Hn : i ∉ lenders c g l) by (intros [? _]%lenders_elem; by apply Hil).
  assert (Hg'i : runtime_of g' i = 0).
  { rewrite (Hf i Hn), alter_runtime_eq, u64_small by lia. lia. }
  split; [by etrans; [apply alter_runtime_only|]|]. rewrite Hcons. split; [|split].
  - intros j Hj. rewrite Hf by set_solver. apply alter_runtime_ne. set_solver.
  - intros j [->|Hj]%elem_of_cons; [lia | by apply Hb].
  - rewrite !sumZ_cons, Hg'i, Hs.
    rewrite (sumZ_ext _ (fun j => runtime_of g j)); [lia|].
    intros j [Hj _]%lenders_elem. by rewrite alter_runtime_ne by by apply Hne.
Qed.

Lemma reclaimed_skip c i l w g g' :
  i = c \/ ~ lends g i -> reclaimed c l w g g' -> reclaimed c (i :: l) w g g'.
Proof.
  intros Hi Hr. unfold reclaimed.
  assert (Hcons : lenders c g (i :: l) = lenders c g l).
  { unfold lenders. rewrite filter_cons_False; [done|]. unfold lends in Hi. naive_solver. }
  by rewrite Hcons.
Qed.

Lemma reclaim_loop_run c l : forall w s,
  NoDup l -> w <> 0 -> - 2 ^ 62 < w < 2 ^ 62 ->
  (forall i, i ∈ l -> lends (rqs s) i -> 0 <= runtime_of (rqs s) i < 2 ^ 62) ->
  (0 < w -> w <= sumZ (fun i => runtime_of (rqs s) i) (lenders c (rqs s) l)) ->
  (w < 0 -> lenders c (rqs s) l <> []) ->
  exists g', reclaim_loop c w l s = Done (0, s <| rqs := g' |>) /\ reclaimed c l w (rqs s) g'.
Proof.
  induction l as [|i l IH]; intros w s Hnd Hw Hwb Hb Hpos Hneg.
  { exfalso. cbn in Hpos. destruct (Z.lt_total w 0) as [?|[?|?]]; [by apply Hneg | done | lia]. }
  apply NoDup_cons in Hnd as [Hil Hnd]. cbn [reclaim_loop]. unfold bind at 1, get_rt, gets.
  destruct (decide (i <> c /\ lends (rqs s) i)) as [[Hi Hl]|Hskip].
  - assert (Hcond : (i =? c) || (runtime_of (rqs s) i =? RUNTIME_INF) = false).
    { apply orb_false_iff. split; by apply Z.eqb_neq. }
    rewrite Hcond. pose proof (Hb i ltac:(by left) Hl) as Hri. rewrite s64_small by lia.
    assert (Hb' : forall j, j ∈ l -> lends (rqs s) j -> 0 <= runtime_of (rqs s) j < 2 ^ 62)
      by (intros; apply Hb; [by right | done]).
    destruct (Z.ltb_spec 0 w) as [Hw0|Hw0].
    + rewrite s64_small by lia. unfold bind, set_rt, set_rq, modify, ret.
      destruct (Z.eqb_spec (w - Z.min (runtime_of (rqs s) i) w) 0) as [H0|H0].
      * rewrite H0. eexists. split; [reflexivity|].
        replace (Z.min (runtime_of (rqs s) i) w) with w by lia.
        apply reclaimed_one; [done..|lia|done].
      * assert (Hlt : runtime_of (rqs s) i < w) by lia.
        replace (Z.min (runtime_of (rqs s) i) w) with (runtime_of (rqs s) i) in * by lia.
        pose (s1 := s <| rqs := alter_runtime i (fun t => u64 (t - runtime_of (rqs s) i)) (rqs s) |>).
        assert (Hsame : forall j, j ∈ l -> rqs s1 j = rqs s j).
        { intros j Hj. apply alter_runtime_ne. intros ->. by apply Hil. }
        destruct (IH (w - runtime_of (rqs s) i) s1) as (g' & Hg' & Hrec).
        -- done.
        -- done.
        -- lia.
        -- intros j Hj. unfold lends. rewrite Hsame by done. by apply Hb'.
        -- intros _. specialize (Hpos Hw0). unfold lenders in Hpos.
           rewrite filter_cons_True, sumZ_cons in Hpos by done.
           rewrite (lenders_ext c (rqs s)) by (intros; by rewrite Hsame).
           rewrite (sumZ_ext _ (fun j => runtime_of (rqs s) j)); [unfold lenders; lia|].
           intros j [Hj _]%lenders_elem. by rewrite Hsame.
        -- lia.
        -- exists g'. split; [exact Hg'|]. by eapply reclaimed_cons.
    + unfold bind, set_rt, set_rq, modify, ret. cbn [Z.eqb].
      eexists. split; [reflexivity|]. apply reclaimed_one; [done..|lia|done].
  - assert (Hcond : (i =? c) || (runtime_of (rqs s) i =? RUNTIME_INF) = true).
    { apply orb_true_iff. unfold lends in Hskip. rewrite !Z.eqb_eq.
      destruct (decide (i = c)); [by left|right]. destruct (decide (runtime_of (rqs s) i = RUNTIME_INF)); [done|].
      exfalso. by apply Hskip. }
    rewrite Hcond.
    assert (Hlen : lenders c (rqs s) (i :: l) = lenders c (rqs s) l)
      by (unfold lenders; by rewrite filter_cons_False).
    rewrite Hlen in Hpos, Hneg.
    destruct (IH w s) as (g' & Hg' & Hrec); [done..| |done|done|].
    { intros. apply Hb; [by right | done]. }
    exists g'. split; [done|]. apply reclaimed_skip; [|done].
    destruct (decide (i = c)); [by left|right]. intros Hl. by apply Hskip.
Qed.
End Reclaim.

(** ** The total runtime *)

(** What CPU [i] holds beyond its own share [R]. *)
Definition debt (R : Z) (g : cpu -> rq) (i : cpu) : Z :=
  runtime_of g i - (if runtime_of g i =? RUNTIME_INF then RUNTIME_INF else R).

(** The shared bandwidth is used up exactly: what some CPUs have borrowed
    others have lent. *)
Record rt_bw_inv (s : kstate) : Prop := {
  inv_running : scheduler_running s <> 0;
  inv_span : NoDup (span (rd s));
  inv_period : 0 < rt_period (def_rt_bandwidth s) < 2 ^ 62;
  inv_runtime : 0 < rt_bw_runtime (def_rt_bandwidth s);
  inv_capacity : rt_bw_runtime (def_rt_bandwidth s) * Z.of_nat (length (span (rd s))) < 2 ^ 62;
  inv_bounds : forall i, i ∈ span (rd s) ->
    0 <= time_of (rqs s) i < 2 ^ 63 /\ (lends (rqs s) i -> 0 <= runtime_of (rqs s) i);
  inv_debt : sumZ (debt (rt_bw_runtime (def_rt_bandwidth s)) (rqs s)) (span (rd s)) = 0
}.

Section Total.
Implicit Types (g : cpu -> rq) (c i : cpu) (l : list cpu) (s : kstate) (R : Z).

Lemma debt_lends R g i : lends g i -> debt R g i = runtime_of g i - R.
Proof. intros H. unfold debt. by destruct (Z.eqb_spec (runtime_of g i) RUNTIME_INF). Qed.

Lemma debt_inf R g i : ~ lends g i -> debt R g i = 0.
Proof.
  unfold debt, lends. intros H.
  destruct (Z.eqb_spec (runtime_of g i) RUNTIME_INF); [lia | by destruct H].
Qed.

Lemma lends_dec g i : lends g i \/ ~ lends g i.
Proof. unfold lends. destruct (decide (runtime_of g i = RUNTIME_INF)); naive_solver. Qed.

(** The debts of all CPUs but [c] are those of the lenders. *)
Lemma debt_lenders R c g l :
  NoDup l -> c ∈ l ->
  sumZ (debt R g) l
  = debt R g c + (sumZ (fun i => runtime_of g i) (lenders c g l)
                  - R * Z.of_nat (length (lenders c g l))).
Proof.
  intros Hnd Hc. rewrite <- (Klist.filter_ne_perm c l) at 1 by done. rewrite sumZ_cons. f_equal.
  unfold lenders. clear Hnd Hc. induction l as [|i l IH]; [cbn; lia|].
  destruct (decide (i = c)) as [->|Hic].
  { rewrite !filter_cons_False by naive_solver. done. }
  rewrite filter_cons_True by done. rewrite sumZ_cons.
  destruct (lends_dec g i) as [Hl|Hl].
  - rewrite debt_lends by done. rewrite filter_cons_True by done.
    rewrite sumZ_cons. cbn [length]. lia.
  - rewrite debt_inf by done. rewrite filter_cons_False by (unfold lends in Hl; naive_solver). lia.
Qed.

(** No CPU holds more than all shares together. *)
Lemma inv_upper s i :
  rt_bw_inv s -> i ∈ span (rd s) -> lends (rqs s) i ->
  0 <= runtime_of (rqs s) i < 2 ^ 62.
Proof.
  intros [_ Hnd _ HR Hcap Hb Hd] Hi Hl. split; [by apply Hb|].
  rewrite (debt_lenders _ i) in Hd by done. rewrite debt_lends in Hd by done.
  assert (Hpos : 0 <= sumZ (fun j => runtime_of (rqs s) j) (lenders i (rqs s) (span (rd s)))).
  { apply sumZ_nonneg. intros j (Hj & _ & Hlj)%lenders_elem. by apply Hb. }
  assert (Hlen : (length (lenders i (rqs s) (span (rd s))) < length (span (rd s)))%nat).
  { unfold lenders. apply (length_filter_lt _ _ i); naive_solver. }
  nia.
Qed.

Lemma inv_rt_bounds s c : rt_bw_inv s -> c ∈ span (rd s) -> rt_bounds (rqs s) (c :: span (rd s)).
Proof.
  intros H Hc i Hi. assert (i ∈ span (rd s)) by set_solver.
  split; [by apply (inv_bounds s) | by apply inv_upper].
Qed.

(** Changing run queues, not the debts' total. *)
Lemma inv_change s g' :
  rt_bw_inv s -> only_runtime (rqs s) g' ->
  (forall i, i ∈ span (rd s) -> lends g' i -> 0 <= runtime_of g' i) ->
  sumZ (debt (rt_bw_runtime (def_rt_bandwidth s)) g') (span (rd s)) = 0 ->
  rt_bw_inv (s <| rqs := g' |>).
Proof.
  intros [? ? ? ? ? Hb Hd] Ho Hb' Hd'. split; try done.
  intros i Hi. simpl. rewrite (only_runtime_time _ _ i Ho). split; [by apply Hb | by apply Hb'].
Qed.

Lemma debt_same_lends R g g' l :
  (forall i, i ∈ l -> lends g i <-> lends g' i) ->
  sumZ (fun i => runtime_of g' i) l = sumZ (fun i => runtime_of g i) l ->
  sumZ (debt R g') l = sumZ (debt R g) l.
Proof.
  intros Hl Hs. enough (H : sumZ (debt R g') l - sumZ (fun i => runtime_of g' i) l
    = sumZ (debt R g) l - sumZ (fun i => runtime_of g i) l) by lia.
  clear Hs. induction l as [|i l IH]; [done|]. rewrite !sumZ_cons.
  specialize (IH (fun j Hj => Hl j ltac:(by right))).
  destruct (Hl i ltac:(by left)) as [H1 H2]. destruct (lends_dec g i) as [H|H].
  - rewrite !debt_lends by auto. lia.
  - rewrite !debt_inf by auto. unfold lends in *.
    destruct (decide (runtime_of g i = RUNTIME_INF)) as [->|]; [|naive_solver].
    destruct (decide (runtime_of g' i = RUNTIME_INF)) as [->|]; [|naive_solver]. lia.
Qed.

Lemma sum_split c g l :
  NoDup l -> c ∈ l ->
  sumZ (fun i => runtime_of g i) l
  = runtime_of g c + sumZ (fun i => runtime_of g i) (filter (fun i => i <> c) l).
Proof. intros Hnd Hc. by rewrite <- (Klist.filter_ne_perm c l) at 1. Qed.

Lemma do_balance_runtime_run c s :
  rt_bw_inv s -> c ∈ span (rd s) -> lends (rqs s) c ->
  exists g', do_balance_runtime c s = Done (tt, s <| rqs := g' |>) /\
    only_runtime (rqs s) g' /\ rt_bw_inv (s <| rqs := g' |>).
Proof.
  intros Hinv Hc Hl. pose proof (inv_rt_bounds s c Hinv Hc) as Hb.
  pose proof (inv_period s Hinv) as HP. pose proof (inv_span s Hinv) as Hnd.
  pose proof (inv_upper s c Hinv Hc Hl) as Hrc. pose proof (inv_debt s Hinv) as Hd.
  assert (Hw : 0 < Z.of_nat (length (span (rd s)))).
  { destruct (span (rd s)); [by apply not_elem_of_nil in Hc | cbn [length]; lia]. }
  unfold do_balance_runtime. krun.
  destruct (Z.le_gt_cases (runtime_of (rqs s) c) (rt_period (def_rt_bandwidth s))) as [Hle|Hgt].
  - destruct (balance_runtime_loop_run c _ _ Hw HP (span (rd s)) s Hnd Hl Hle Hb)
      as (g' & Hg' & Ho & _ & Hcc & Hs & Hi & Hn).
    exists g'. split; [done|]. split; [done|].
    assert (Hlc : lends g' c) by (unfold lends; rewrite RUNTIME_INF_eq; lia).
    assert (Hli : forall i, i ∈ span (rd s) -> lends (rqs s) i <-> lends g' i).
    { intros i Hin. destruct (decide (i = c)) as [->|Hic]; [done|].
      destruct (lends_dec (rqs s) i) as [H|H].
      - pose proof (inv_upper s i Hinv Hin H). specialize (Hi i Hic).
        split; [intros _|done]. unfold lends. rewrite RUNTIME_INF_eq. lia.
      - unfold lends in *. by rewrite Hn. }
    apply inv_change; [done|done| |].
    + intros i Hin Hlg. destruct (decide (i = c)) as [->|Hic]; [lia|].
      apply Hli in Hlg; [|done]. pose proof (inv_upper s i Hinv Hin Hlg).
      destruct (inv_bounds s Hinv i Hin) as [Ht _]. specialize (Hi i Hic). lia.
    + rewrite <- Hd. apply debt_same_lends; [done|].
      rewrite (sum_split c g'), (sum_split c (rqs s)) by done. done.
  - destruct (balance_runtime_loop_excess c _ _ Hw HP (span (rd s)) s Hl Hgt Hb)
      as (g' & Hg' & [->|(i & Hin & Hic & Hli & ->)]).
    { exists (rqs s). split; [done|]. split; [done|]. by rewrite kstate_rqs_eta. }
    eexists. split; [done|]. pose proof (inv_upper s i Hinv Hin Hli) as Hri.
    destruct (transfer_spec c i
                (rt_period (def_rt_bandwidth s) - runtime_of (rqs s) c) (rqs s))
      as (Ho & H1 & H2 & H3); [done|lia|lia|].
    split; [done|].
    set (g' := transfer c i _ (rqs s)) in *.
    assert (Hrt : forall j, j <> c -> j <> i -> runtime_of g' j = runtime_of (rqs s) j)
      by (intros; by rewrite H3).
    apply inv_change; [done|done| |].
    + intros j Hj. destruct (decide (j = c)) as [->|]; [lia|].
      destruct (decide (j = i)) as [->|]; [lia|]. unfold lends. rewrite Hrt by done.
      by apply (inv_bounds s).
    + rewrite <- Hd. apply debt_same_lends.
      * intros j Hj. unfold lends in *. destruct (decide (j = c)) as [->|].
        { rewrite H1, RUNTIME_INF_eq in *. lia. }
        destruct (decide (j = i)) as [->|]; [|by rewrite Hrt].
        rewrite H2, RUNTIME_INF_eq in *. lia.
      * unfold g', transfer. rewrite !sum_alter_runtime by done.
        fold g'. rewrite alter_runtime_ne by done. rewrite !u64_small by lia. lia.
Qed.
End Total.

(** ** Taking a CPU offline and online *)

(** [s'] has the bandwidth of [s]. *)
Definition bw_same (s s' : kstate) : Prop :=
  (forall i, runtime_of (rqs s') i = runtime_of (rqs s) i /\ time_of (rqs s') i = time_of (rqs s) i) /\
  span (rd s') = span (rd s) /\ def_rt_bandwidth s' = def_rt_bandwidth s /\
  scheduler_running s' = scheduler_running s.

Section Offline.
Implicit Types (g : cpu -> rq) (c i : cpu) (s : kstate).

Lemma bw_same_refl s : bw_same s s.
Proof. done. Qed.

Lemma bw_same_trans s1 s2 s3 : bw_same s1 s2 -> bw_same s2 s3 -> bw_same s1 s3.
Proof.
  intros (Ha & ? & ? & ?) (Hb & ? & ? & ?). split; [|repeat split; congruence].
  intros i. destruct (Ha i), (Hb i). split; congruence.
Qed.

Lemma bw_same_inv s s' : bw_same s s' -> rt_bw_inv s -> rt_bw_inv s'.
Proof.
  intros (Hg & Hsp & Hbw & Hr) [? ? ? ? ? Hb Hd].
  assert (Hl : forall i, lends (rqs s') i <-> lends (rqs s) i)
    by (intros i; unfold lends; destruct (Hg i) as [-> _]; done).
  split; rewrite ?Hsp, ?Hbw, ?Hr; [done..| |].
  - intros i Hi. rewrite Hl. destruct (Hg i) as [-> ->]. by apply Hb.
  - rewrite <- Hd. apply sumZ_ext. intros i _. unfold debt. by destruct (Hg i) as [-> _].
Qed.

(** [c]'s share of the run queue, back. *)
Definition enqueue_top_rq (r : rq) : rq :=
  if negb (rt_queued (rq_rt r) =? 0) || rt_rq_throttled (rq_rt r)
     || (rt_nr_running (rq_rt r) =? 0) then r
  else r <| nr_running ::= fun n => u32 (n + rt_nr_running (rq_rt r)) |>
         <| rq_rt ::= fun r => r <| rt_queued := 1 |> |>.

Lemma enqueue_top_run c s :
  exists g' b, enqueue_top_rt_rq c s
      = Done (tt, s <| rqs := g' |> <| rd ::= fun d => d <| overload := b |> |>) /\
    rq_upd c enqueue_top_rq (rqs s) g'.
Proof.
  unfold enqueue_top_rt_rq. unfold bind at 1, get_rt, gets.
  assert (Hid : forall b : bool, b = true ->
    b = negb (rt_queued (rq_rt (rqs s c)) =? 0) || rt_rq_throttled (rq_rt (rqs s c))
         || (rt_nr_running (rq_rt (rqs s c)) =? 0) ->
    exists g' b, Done (tt, s) = Done (tt, s <| rqs := g' |> <| rd ::= fun d => d <| overload := b |> |>) /\
    rq_upd c enqueue_top_rq (rqs s) g').
  { intros b Hb Heq. exists (rqs s), (overload (rd s)). split; [by destruct s as [? ? ? []]|].
    apply rq_upd_id. unfold enqueue_top_rq. by rewrite <- Heq, Hb. }
  destruct (negb (rt_queued (rq_rt (rqs s c)) =? 0)) eqn:Hq; [by apply (Hid true); rewrite ?Hq|].
  destruct (rt_rq_throttled (rq_rt (rqs s c))) eqn:Ht; [by apply (Hid true); rewrite ?Hq, ?Ht|].
  destruct (rt_nr_running (rq_rt (rqs s c)) =? 0) eqn:Hn; [by apply (Hid true); rewrite ?Hq, ?Ht, ?Hn|].
  cbn [when negb]. destruct (add_nr_running_run c (rt_nr_running (rq_rt (rqs s c))) s) as (b & Hadd).
  rewrite (bind_done _ _ _ _ _ Hadd). eexists _, b. split; [reflexivity|]. split.
  - simpl. rewrite fn_lookup_alter, decide_True by done.
    unfold enqueue_top_rq. by rewrite Hq, Ht, Hn.
  - intros i Hi. simpl. destruct (decide (c = i)) as [->|Hne]; [done|].
    by rewrite fn_lookup_alter_ne.
Qed.

(** What [sched_rt_rq_enqueue] keeps of the machine besides run queues. *)
Lemma sched_rt_rq_enqueue_run c s :
  exists g' ts' b pn ips, sched_rt_rq_enqueue c s
      = Done (tt, s <| rqs := g' |> <| rd ::= fun d => d <| overload := b |> |>
                    <| tasks := ts' |> <| preempt_need_resched := pn |> <| resched_ipis := ips |>) /\
    rq_upd c enqueue_top_rq (rqs s) g'.
Proof.
  unfold sched_rt_rq_enqueue. unfold bind at 1, get_rt, gets.
  destruct (rt_nr_running (rq_rt (rqs s c)) =? 0) eqn:Hn.
  { exists (rqs s), (tasks s), (overload (rd s)), (preempt_need_resched s), (resched_ipis s).
    split; [by destruct s as [? ? ? []]|]. apply rq_upd_id. unfold enqueue_top_rq.
    rewrite Hn. by rewrite !orb_true_r. }
  destruct (enqueue_top_run c s) as (g' & b & Hs1 & Hg).
  rewrite (bind_done _ _ _ _ _ Hs1).
  destruct (resched_curr_run c (s <| rqs := g' |> <| rd ::= fun d => d <| overload := b |> |>))
    as (ts' & pn & ips & -> & _).
  eexists g', ts', b, pn, ips. split; [reflexivity | done].
Qed.

Lemma enqueue_top_rq_rt r :
  rt_runtime (rq_rt (enqueue_top_rq r)) = rt_runtime (rq_rt r) /\
  rt_time (rq_rt (enqueue_top_rq r)) = rt_time (rq_rt r).
Proof. unfold enqueue_top_rq. by split_ifs. Qed.

Lemma sched_rt_rq_enqueue_bw c s :
  exists s', sched_rt_rq_enqueue c s = Done (tt, s') /\ bw_same s s'.
Proof.
  destruct (sched_rt_rq_enqueue_run c s) as (g' & ts' & b & pn & ips & -> & Hc & Hi).
  eexists. split; [done|]. split; [|done]. intros i. simpl.
  destruct (decide (i = c)) as [->|]; [|by rewrite Hi]. rewrite Hc. apply enqueue_top_rq_rt.
Qed.

(** What a CPU that is disabled has lent or borrowed. *)
Definition balance_of c s : Z :=
  if runtime_of (rqs s) c =? RUNTIME_INF then 0 else rt_bw_runtime (def_rt_bandwidth s) - runtime_of (rqs s) c.

(** Before [c] is disabled, every other debt is settled without it. *)
Lemma give_back_run c s :
  rt_bw_inv s -> c ∈ span (rd s) -> let R := rt_bw_runtime (def_rt_bandwidth s) in
  exists g', (if (runtime_of (rqs s) c =? RUNTIME_INF) || (runtime_of (rqs s) c =? R)
      then ret tt
      else let! want := reclaim_loop c (s64 (R - runtime_of (rqs s) c)) (span (rd s)) in
           bug_on (negb (want =? 0))) s = Done (tt, s <| rqs := g' |>) /\
    reclaimed c (span (rd s)) (balance_of c s) (rqs s) g'.
Proof.
  intros Hinv Hc R. unfold balance_of. fold R. pose proof (inv_debt s Hinv) as Hd. fold R in Hd.
  rewrite (debt_lenders R c) in Hd by (done || apply Hinv).
  assert (H0 : reclaimed c (span (rd s)) 0 (rqs s) (rqs s)).
  { split; [done | split; [done | split; [|lia]]].
    intros i (Hi & _ & Hl)%lenders_elem. pose proof (inv_upper s i Hinv Hi Hl). lia. }
  destruct (Z.eqb_spec (runtime_of (rqs s) c) RUNTIME_INF) as [Hinf|Hl]; cbn [orb].
  { exists (rqs s). by rewrite kstate_rqs_eta. }
  pose proof (inv_upper s c Hinv Hc Hl) as Hrc. rewrite debt_lends in Hd by done.
  destruct (Z.eqb_spec (runtime_of (rqs s) c) R) as [HR|HR].
  { exists (rqs s). rewrite kstate_rqs_eta. split; [done|]. by replace (R - _) with 0 by lia. }
  pose proof (inv_capacity s Hinv) as Hcap. fold R in Hcap.
  pose proof (inv_runtime s Hinv) as HR0. fold R in HR0.
  assert (Hlen : 1 <= Z.of_nat (length (span (rd s)))).
  { destruct (span (rd s)); [by apply not_elem_of_nil in Hc | cbn [length]; lia]. }
  rewrite s64_small by nia.
  destruct (reclaim_loop_run c (span (rd s)) (R - runtime_of (rqs s) c) s) as (g' & Hg' & Hr).
  - apply Hinv.
  - lia.
  - nia.
  - intros i Hi Hli. by apply inv_upper.
  - nia.
  - intros Hneg Hnil. rewrite Hnil in Hd. cbn in Hd. lia.
  - exists g'. rewrite (bind_done _ _ _ _ _ Hg'). done.
Qed.

(** Those who lend are the same once [c] has no runtime of its own. *)
Lemma given_up_lenders c s g' w :
  reclaimed c (span (rd s)) w (rqs s) g' ->
  lenders c (alter_runtime c (fun _ => RUNTIME_INF) g') (span (rd s)) = lenders c (rqs s) (span (rd s)).
Proof.
  intros (_ & Hf & Hb & _). unfold lenders. apply filter_iff_in. intros i Hi.
  destruct (decide (i = c)) as [->|Hic]; [naive_solver|]. rewrite alter_runtime_ne by congruence.
  destruct (lends_dec (rqs s) i) as [Hl|Hl].
  - assert (Hin : i ∈ lenders c (rqs s) (span (rd s))) by by apply lenders_elem.
    specialize (Hb i Hin). unfold lends in Hl. rewrite RUNTIME_INF_eq in *.
    split; (split; [done | lia]).
  - rewrite Hf; [naive_solver|]. intros (_ & _ & ?)%lenders_elem. done.
Qed.

Lemma given_up_inv c s g' :
  rt_bw_inv s -> c ∈ span (rd s) -> reclaimed c (span (rd s)) (balance_of c s) (rqs s) g' ->
  rt_bw_inv (s <| rqs := alter_runtime c (fun _ => RUNTIME_INF) g' |>).
Proof.
  intros Hinv Hc Hrec. pose proof (given_up_lenders c s g' _ Hrec) as Hln. destruct Hrec as (Ho & Hf & Hb & Hs).
  set (g2 := alter_runtime c (fun _ => RUNTIME_INF) g') in *. set (R := rt_bw_runtime (def_rt_bandwidth s)).
  pose proof (inv_debt s Hinv) as Hd. fold R in Hd. rewrite (debt_lenders R c) in Hd by (done || apply Hinv).
  assert (Hg2c : runtime_of g2 c = RUNTIME_INF) by apply alter_runtime_eq.
  assert (Hg2 : forall i, i <> c -> g2 i = g' i) by (intros i Hi; apply alter_runtime_ne; congruence).
  apply inv_change; [done| | |].
  - etrans; [exact Ho | apply alter_runtime_only].
  - intros i Hi Hl. destruct (decide (i = c)) as [->|Hic]; [done|].
    assert (Hin : i ∈ lenders c (rqs s) (span (rd s))) by (rewrite <- Hln; by apply lenders_elem).
    rewrite Hg2 by done. apply Hb in Hin. lia.
  - fold R. rewrite (debt_lenders R c) by (done || apply Hinv). rewrite Hln.
    rewrite debt_inf by (unfold lends; tauto).
    rewrite (sumZ_ext _ (fun i => runtime_of g' i)), Hs
      by (intros i (_ & ? & _)%lenders_elem; by rewrite Hg2).
    unfold balance_of. fold R. destruct (Z.eqb_spec (runtime_of (rqs s) c) RUNTIME_INF) as [Hinf|Hl].
    + rewrite debt_inf in Hd by (unfold lends; tauto). lia.
    + rewrite debt_lends in Hd by done. lia.
Qed.

Lemma __disable_runtime_run c s :
  rt_bw_inv s -> c ∈ span (rd s) ->
  exists s', __disable_runtime c s = Done (tt, s') /\ rt_bw_inv s' /\
    ~ lends (rqs s') c /\ span (rd s') = span (rd s).
Proof.
  intros Hinv Hc. unfold __disable_runtime. unfold bind at 1, gets.
  destruct (Z.eqb_spec (scheduler_running s) 0) as [H0|_]; [by destruct (inv_running s Hinv)|].
  unfold bind at 1, get_rt, gets. destruct (give_back_run c s Hinv Hc) as (g' & Hrun & Hrec).
  cbv zeta in Hrun. rewrite (bind_done _ _ _ _ _ Hrun). unfold bind, set_rt, set_rq, modify.
  match goal with |- context [sched_rt_rq_enqueue c ?t] => set (s1 := t) end.
  assert (Hsame : bw_same (s <| rqs := alter_runtime c (fun _ => RUNTIME_INF) g' |>) s1).
  { split; [|done]. intros i. unfold s1, alter_runtime. simpl. destruct (decide (c = i)) as [->|].
    - rewrite !fn_lookup_alter. done.
    - by rewrite !fn_lookup_alter_ne. }
  assert (Hl1 : ~ lends (rqs s1) c).
  { unfold lends. destruct (proj1 Hsame c) as [-> _]. simpl. rewrite alter_runtime_eq. tauto. }
  pose proof (bw_same_inv _ _ Hsame (given_up_inv c s g' Hinv Hc Hrec)) as Hinv1.
  destruct (sched_rt_rq_enqueue_bw c s1) as (s' & Hs' & Hsame').
  exists s'. split; [done|]. split; [by eapply bw_same_inv|].
  destruct Hsame' as (Hg & Hsp & _). split; [|by rewrite Hsp].
  unfold lends. by destruct (Hg c) as [-> _].
Qed.

Lemma __enable_runtime_run c s :
  rt_bw_inv s -> c ∈ span (rd s) -> ~ lends (rqs s) c ->
  exists s', __enable_runtime c s = Done (tt, s') /\ rt_bw_inv s' /\ span (rd s') = span (rd s).
Proof.
  intros Hinv Hc Hl. unfold __enable_runtime. unfold bind at 1, gets.
  destruct (Z.eqb_spec (scheduler_running s) 0) as [H0|_]; [by destruct (inv_running s Hinv)|].
  eexists. split; [reflexivity|]. set (R := rt_bw_runtime (def_rt_bandwidth s)).
  match goal with |- rt_bw_inv ?t /\ _ => set (s1 := t) end. split; [|done].
  destruct Hinv as [? ? ? HR ? Hb Hd].
  assert (H1 : runtime_of (rqs s1) c = R /\ time_of (rqs s1) c = 0)
    by (unfold s1; simpl; by rewrite !fn_lookup_alter).
  assert (H2 : forall i, i <> c -> rqs s1 i = rqs s i)
    by (intros i Hi; unfold s1; simpl; by rewrite !fn_lookup_alter_ne).
  destruct H1 as [H1 H1']. split; try done.
  - intros i Hi. destruct (decide (i = c)) as [->|Hic].
    + rewrite H1, H1'. fold R in HR. split; [done | lia].
    + rewrite H2 by done. unfold lends. rewrite H2 by done. by apply Hb.
  - change (rt_bw_runtime _) with R. fold R in Hd. rewrite <- Hd.
    apply sumZ_ext. intros i Hi. destruct (decide (i = c)) as [->|Hic].
    + rewrite (debt_inf R (rqs s)) by done. unfold debt. rewrite H1.
      destruct (Z.eqb_spec R RUNTIME_INF) as [->|]; lia.
    + unfold debt. by rewrite H2.
Qed.

End Offline.

(** One operation on the shared bandwidth: borrowing, a CPU going offline or
    coming back online; [bw_other] is any other code, which leaves runtimes
    and the bandwidth alone. *)
Inductive bw_step : kstate -> kstate -> Prop :=
| bw_balance c s s' :
    c ∈ span (rd s) -> lends (rqs s) c -> do_balance_runtime c s = Done (tt, s') -> bw_step s s'
| bw_disable c s s' :
    c ∈ span (rd s) -> __disable_runtime c s = Done (tt, s') -> bw_step s s'
| bw_enable c s s' :
    c ∈ span (rd s) -> ~ lends (rqs s) c -> __enable_runtime c s = Done (tt, s') -> bw_step s s'
| bw_other s s' :
    (forall i, runtime_of (rqs s') i = runtime_of (rqs s) i) ->
    (forall i, i ∈ span (rd s) -> 0 <= time_of (rqs s') i < 2 ^ 63) ->
    span (rd s') = span (rd s) -> def_rt_bandwidth s' = def_rt_bandwidth s ->
    scheduler_running s' = scheduler_running s -> bw_step s s'.

Lemma bw_step_inv s s' : bw_step s s' -> rt_bw_inv s -> rt_bw_inv s'.
Proof.
  intros Hstep Hinv. destruct Hstep as
    [c s s' Hc Hl He | c s s' Hc He | c s s' Hc Hl He | s s' Hr Ht Hsp Hbw Hrun].
  - destruct (do_balance_runtime_run c s Hinv Hc Hl) as (g' & He' & _ & Hi).
    rewrite He in He'. by injection He' as ->.
  - destruct (__disable_runtime_run c s Hinv Hc) as (s1 & He' & Hi & _).
    rewrite He in He'. by injection He' as ->.
  - destruct (__enable_runtime_run c s Hinv Hc Hl) as (s1 & He' & Hi & _).
    rewrite He in He'. by injection He' as ->.
  - destruct Hinv as [? ? ? ? ? Hb Hd]. split; rewrite ?Hsp, ?Hbw, ?Hrun; [done..| |].
    + intros i Hi. split; [by apply Ht|]. unfold lends. rewrite Hr. by apply Hb.
    + rewrite <- Hd. apply sumZ_ext. intros i _. unfold debt. by rewrite Hr.
Qed.

Lemma bw_reachable_inv s s' : rt_bw_inv s -> rtc bw_step s s' -> rt_bw_inv s'.
Proof. intros Hi Hr. induction Hr; eauto using bw_step_inv. Qed.

(** ** Throttling and replenishment *)

Section Throttle.
Context `{Hfeat : SchedFeat}.
Implicit Types (c i : cpu) (s : kstate) (r : rt_rq).

(** Times and runtimes are in range, and no CPU has more than a period. *)
Definition cpu_ok (period : Z) r : Prop :=
  0 <= rt_time r < 2 ^ 63 /\ (rt_runtime r <> RUNTIME_INF -> 0 <= rt_runtime r <= period).

Record timer_ok s : Prop := {
  to_online : NoDup (online_cpus s);
  to_span : NoDup (span (rd s));
  to_within : forall i, i ∈ online_cpus s -> i ∈ span (rd s);
  to_period : 0 < rt_period (def_rt_bandwidth s) < 2 ^ 62;
  to_runtime : 0 < rt_bw_runtime (def_rt_bandwidth s) <= rt_period (def_rt_bandwidth s);
  to_cpus : forall i, i ∈ span (rd s) -> cpu_ok (rt_period (def_rt_bandwidth s)) (rq_rt (rqs s i))
}.

(** What a CPU gets back in a period, at least. *)
Definition share_of (R : Z) r : Z := if sched_feat RT_RUNTIME_SHARE then rt_runtime r else R.

(** The timer's effect on the [rt_rq] of a throttled CPU: it gets a runtime [b]
    back, and runs again if that pays for the time. *)
Definition ticked (R period : Z) r r' : Prop :=
  rt_throttled r <> 0 -> 0 < rt_time r -> rt_runtime r <> RUNTIME_INF -> rt_runtime r <= rt_time r ->
  exists b, share_of R r <= b <= period /\ rt_time r' = rt_time r - Z.min (rt_time r) b /\
  rt_nr_running r' = rt_nr_running r /\
  if rt_time r' <? b then rt_throttled r' = 0 /\ (rt_nr_running r <> 0 -> rt_queued r' <> 0)
  else rt_throttled r' = rt_throttled r /\ rt_runtime r' = b.

(** A run queue that may have lent a part of the runtime it had left. *)
Definition lent (r r' : rq) : Prop :=
  r' = r <| rq_rt ::= fun t => t <| rt_runtime := rt_runtime (rq_rt r') |> |> /\
  Z.min (rt_runtime (rq_rt r)) (rt_time (rq_rt r)) <= rt_runtime (rq_rt r') <= rt_runtime (rq_rt r) /\
  (rt_runtime (rq_rt r) = RUNTIME_INF -> rt_runtime (rq_rt r') = RUNTIME_INF).

Lemma lent_refl (r : rq) : lent r r.
Proof. split; [by rewrite rq_rt_eta|]. split; [lia|done]. Qed.

Lemma lent_trans (r1 r2 r3 : rq) : lent r1 r2 -> lent r2 r3 -> lent r1 r3.
Proof.
  intros (E1 & B1 & I1) (E2 & B2 & I2).
  assert (Et : rt_time (rq_rt r2) = rt_time (rq_rt r1)) by by rewrite E1.
  split; [rewrite E2 at 1; rewrite E1; by destruct r1|]. split; [lia|]. auto.
Qed.

(** One that has nothing left lends nothing. *)
Lemma lent_nothing (r r' : rq) : lent r r' -> rt_runtime (rq_rt r) <= rt_time (rq_rt r) -> r' = r.
Proof.
  intros (E & B & _) H. rewrite E. replace (rt_runtime (rq_rt r')) with (rt_runtime (rq_rt r)) by lia. apply rq_rt_eta.
Qed.

(** Run queues other than [i]'s lend at most, and the bandwidth, the online
    CPUs and the span of the root domain are kept. *)
Definition timer_frame i (s s' : kstate) : Prop :=
  (forall j, j <> i -> lent (rqs s j) (rqs s' j)) /\
  def_rt_bandwidth s' = def_rt_bandwidth s /\ online_cpus s' = online_cpus s /\ span (rd s') = span (rd s).

Lemma timer_frame_trans i s1 s2 s3 :
  timer_frame i s1 s2 -> timer_frame i s2 s3 -> timer_frame i s1 s3.
Proof.
  intros (Ha & ? & ? & ?) (Hb & ? & ? & ?). split; [|split_and!; congruence].
  intros j Hj. eapply lent_trans; [by apply Ha|by apply Hb].
Qed.

Lemma timer_frame_same i s s' :
  (forall j, j <> i -> rqs s' j = rqs s j) -> def_rt_bandwidth s' = def_rt_bandwidth s ->
  online_cpus s' = online_cpus s -> span (rd s') = span (rd s) -> timer_frame i s s'.
Proof. intros H ???. split; [|done]. intros j Hj. rewrite H by done. apply lent_refl. Qed.

Lemma timer_frame_refl i s : timer_frame i s s.
Proof. by apply timer_frame_same. Qed.
#[local] Hint Resolve timer_frame_refl : core.

Lemma timer_ok_frame i s s' :
  timer_ok s -> timer_frame i s s' -> (i ∈ span (rd s) -> cpu_ok (rt_period (def_rt_bandwidth s)) (rq_rt (rqs s' i))) ->
  timer_ok s'.
Proof.
  intros [T1 T2 T3 T4 T5 T6] (Hl & Eb & Eo & Er) Hi. split; rewrite ?Eb, ?Eo, ?Er; try done.
  intros j Hj. destruct (decide (j = i)) as [->|Hji]; [by apply Hi|].
  destruct (T6 j Hj) as [Ht Hr], (Hl j Hji) as (E & B & I). rewrite E. split; simpl; [done|].
  intros Hinf. assert (rt_runtime (rq_rt (rqs s j)) <> RUNTIME_INF) as Hn by (intros ?; auto). specialize (Hr Hn). lia.
Qed.

Lemma set_rt_frame i F s :
  wp (set_rt i F) (fun _ s' => timer_frame i s s' /\ rq_rt (rqs s' i) = F (rq_rt (rqs s i))) s.
Proof.
  eapply wp_intro; [reflexivity|]. split; [apply timer_frame_same; try done|].
  - intros j Hj. simpl. by rewrite fn_lookup_alter_ne.
  - simpl. by rewrite fn_lookup_alter.
Qed.

(** A change of [i]'s run queue outside its [rt_rq]. *)
Lemma set_rq_frame i F s :
  (forall r : rq, rq_rt (F r) = rq_rt r) ->
  wp (set_rq i F) (fun _ s' => timer_frame i s s' /\ rq_rt (rqs s' i) = rq_rt (rqs s i)) s.
Proof.
  intros HF. eapply wp_intro; [reflexivity|]. split; [apply timer_frame_same; try done|].
  - intros j Hj. simpl. by rewrite fn_lookup_alter_ne.
  - simpl. by rewrite fn_lookup_alter, HF.
Qed.

Lemma update_rq_clock_frame i s :
  wp (update_rq_clock i)
     (fun _ s' => timer_frame i s s' /\ rq_rt (rqs s' i) = rq_rt (rqs s i)) s.
Proof.
  unfold update_rq_clock, update_rq_clock_task, get_rq. do 2 wstep. wstep; [by wstep|].
  do 2 wstep. wstep; [by wstep|]. wstep. wcall set_rq_frame; [done|].
  intros [] s1 [Hf1 Hr1]. wcall set_rq_frame; [done|].
  intros [] s2 [Hf2 Hr2]. split; [by eapply timer_frame_trans | congruence].
Qed.

Lemma sched_rt_rq_enqueue_frame i s :
  wp (sched_rt_rq_enqueue i)
     (fun _ s' => timer_frame i s s' /\ rqs s' i = enqueue_top_rq (rqs s i)) s.
Proof.
  destruct (sched_rt_rq_enqueue_run i s) as (g' & ts' & b & pn & ips & He & Hc & Hi).
  eapply wp_intro; [exact He|]. split; [apply timer_frame_same; [exact Hi|done..] | exact Hc].
Qed.

Lemma enqueue_top_rq_spec (r : rq) :
  let r' := rq_rt (enqueue_top_rq r) in
  rt_runtime r' = rt_runtime (rq_rt r) /\ rt_time r' = rt_time (rq_rt r) /\
  rt_nr_running r' = rt_nr_running (rq_rt r) /\ rt_throttled r' = rt_throttled (rq_rt r) /\
  (rt_throttled (rq_rt r) = 0 -> rt_nr_running (rq_rt r) <> 0 -> rt_queued r' <> 0).
Proof.
  unfold enqueue_top_rq. destruct (negb (rt_queued (rq_rt r) =? 0)) eqn:Hq.
  { apply negb_true_iff, Z.eqb_neq in Hq. done. }
  unfold rt_rq_throttled. destruct (Z.eqb_spec (rt_throttled (rq_rt r)) 0) as [H0|H0]; [|done].
  destruct (Z.eqb_spec (rt_nr_running (rq_rt r)) 0); done.
Qed.

(** Before it is replenished a CPU borrows, if [RT_RUNTIME_SHARE] is on. *)
Lemma balance_runtime_frame i s :
  timer_ok s -> i ∈ span (rd s) ->
  wp (balance_runtime i) (fun _ s' => timer_frame i s s' /\ exists b,
    rq_rt (rqs s' i) = rq_rt (rqs s i) <| rt_runtime := b |> /\ runtime_of (rqs s) i <= b /\
    (lends (rqs s) i -> b <= rt_period (def_rt_bandwidth s)) /\ (~ lends (rqs s) i -> b = RUNTIME_INF)) s.
Proof.
  intros Hok Hi. assert (Hnop : timer_frame i s s /\ exists b,
    rq_rt (rqs s i) = rq_rt (rqs s i) <| rt_runtime := b |> /\ runtime_of (rqs s) i <= b /\
    (lends (rqs s) i -> b <= rt_period (def_rt_bandwidth s)) /\ (~ lends (rqs s) i -> b = RUNTIME_INF)).
  { split; [apply timer_frame_refl|]. exists (runtime_of (rqs s) i). split; [by destruct (rq_rt (rqs s i))|].
    split; [lia|]. split; [apply (to_cpus _ Hok i Hi)|]. unfold lends.
    destruct (decide (runtime_of (rqs s) i = RUNTIME_INF)); naive_solver. }
  unfold balance_runtime. destruct (negb _); [by wstep|]. unfold get_rt. wgo.
  destruct (Z.ltb_spec (runtime_of (rqs s) i) (time_of (rqs s) i)) as [Hlt|]; cbn [when]; [|by wstep].
  destruct (to_cpus _ Hok i Hi) as [Ht Hr].
  assert (Hl : lends (rqs s) i) by (unfold lends; rewrite RUNTIME_INF_eq; lia).
  unfold do_balance_runtime. wgo.
  assert (Hw : 0 < Z.of_nat (length (span (rd s)))).
  { destruct (span (rd s)); [by apply not_elem_of_nil in Hi | cbn [length]; lia]. }
  destruct (balance_runtime_loop_run i _ _ Hw (to_period _ Hok) (span (rd s)) s (to_span _ Hok) Hl)
    as (g' & Hg' & Ho & Hf & Hc & _ & Hm & Hn); [by apply Hr| |].
  { intros j [->|Hj]%elem_of_cons; [|destruct (to_cpus _ Hok j Hj) as [Htj Hrj]]; (split; [done|]);
      intros Hlj; [specialize (Hr Hl)|specialize (Hrj Hlj)]; pose proof (to_period _ Hok); lia. }
  eapply wp_intro; [exact Hg'|]. split.
  - split; [|done]. intros j Hj. simpl. split; [apply Ho|]. split; [by apply Hm|]. intros Hinf.
    rewrite (Hn j Hj); [done|]. intros Hlj. by apply Hlj.
  - exists (runtime_of g' i). simpl. split; [rewrite (Ho i) at 1; by destruct (rqs s i)|]. split; [lia|]. by split; [lia|].
Qed.

Lemma replenish_run i s :
  timer_ok s -> i ∈ span (rd s) ->
  wp (replenish i 1) (fun res s' => timer_frame i s s' /\ exists b, let r := rq_rt (rqs s i) in
    let t := rt_time r - Z.min (rt_time r) b in
    rt_runtime r <= b /\ (lends (rqs s) i -> b <= rt_period (def_rt_bandwidth s)) /\ (~ lends (rqs s) i -> b = RUNTIME_INF) /\
    res.1 = rt_rq_throttled r && (t <? b) /\
    rq_rt (rqs s' i)
    = r <| rt_runtime := b |> <| rt_time := t |> <| rt_throttled ::= fun x => if res.1 then 0 else x |>) s.
Proof.
  intros Hok Hi. unfold replenish, get_rt, get_rq. wgo.
  apply (wp_mono _ (fun _ s' => timer_frame i s s' /\ exists b,
    rq_rt (rqs s' i) = rq_rt (rqs s i) <| rt_runtime := b |> /\ runtime_of (rqs s) i <= b /\
    (lends (rqs s) i -> b <= rt_period (def_rt_bandwidth s)) /\ (~ lends (rqs s) i -> b = RUNTIME_INF))).
  { destruct (rt_rq_throttled _); cbn [when]; [by apply balance_runtime_frame|]. wstep.
    split; [apply timer_frame_refl|]. exists (runtime_of (rqs s) i). split; [by destruct (rq_rt (rqs s i))|].
    split; [lia|]. split; [apply (to_cpus _ Hok i Hi)|]. unfold lends.
    destruct (decide (runtime_of (rqs s) i = RUNTIME_INF)); naive_solver. }
  intros [] s0 (Hf0 & b & Er0 & Hb1 & Hb2 & Hb3). wgo. wcall set_rt_frame. intros [] s1 [Hf1 Hr1]. wgo.
  destruct (to_cpus _ Hok i Hi) as [Ht Hr]. rewrite Er0 in Hr1. simpl in Hr1. rewrite Er0. simpl.
  set (r := rq_rt (rqs s i)) in *.
  assert (Hub : u64 (1 * b) = b).
  { rewrite Z.mul_1_l. apply u64_small. pose proof (to_period _ Hok). destruct (lends_dec (rqs s) i) as [Hl|Hl].
    - specialize (Hb2 Hl). specialize (Hr Hl). lia.
    - rewrite (Hb3 Hl), RUNTIME_INF_eq. lia. }
  assert (Hr1' : rq_rt (rqs s1 i) = r <| rt_runtime := b |> <| rt_time := rt_time r - Z.min (rt_time r) b |>).
  { rewrite Hr1. unfold upd, rt_time_field. simpl. do 2 f_equal. rewrite Hub. done. }
  clear Hr1. rewrite Hr1'. simpl. change (rt_rq_throttled (_ <| rt_time := _ |>)) with (rt_rq_throttled r). wstep.
  - wgo. wcall set_rt_frame. intros [] s2 [Hf2 Hr2]. wgo.
    apply (wp_mono _ (fun _ s' => timer_frame i s2 s' /\ rq_rt (rqs s' i) = rq_rt (rqs s2 i))).
    { wstep; [apply set_rq_frame; done|]. split; [apply timer_frame_refl|done]. }
    intros [] s3 [Hf3 Hr3]. wgo. split; [by do 3 (eapply timer_frame_trans; [done|])|].
    exists b. split_and!; [done..|]. cbn [fst]. by rewrite Hr3, Hr2, Hr1'.
  - wgo. split; [by eapply timer_frame_trans|]. exists b. split_and!; [done..|]. cbn [fst]. rewrite Hr1'. by destruct r.
Qed.

Lemma period_timer_cpu_run i s :
  timer_ok s -> i ∈ span (rd s) ->
  wp (period_timer_cpu 1 i) (fun res s' =>
    timer_frame i s s' /\ timer_ok s' /\
    ticked (rt_bw_runtime (def_rt_bandwidth s)) (rt_period (def_rt_bandwidth s)) (rq_rt (rqs s i)) (rq_rt (rqs s' i))) s.
Proof.
  intros Hok Hi. unfold period_timer_cpu, get_rt. wgo.
  set (R := rt_bw_runtime (def_rt_bandwidth s)). set (P := rt_period (def_rt_bandwidth s)).
  set (r := rq_rt (rqs s i)). destruct (to_cpus _ Hok i Hi) as [Ht Hr]. fold r P in Ht, Hr.
  set (b0 := if rt_runtime r =? RUNTIME_INF then RUNTIME_INF else share_of R r).
  apply (wp_mono _ (fun _ s' => timer_frame i s s' /\ rq_rt (rqs s' i) = r <| rt_runtime := b0 |>)).
  { unfold b0, share_of. destruct (Z.eqb_spec (rt_runtime r) RUNTIME_INF) as [E|E]; cbn [negb andb].
    - rewrite andb_false_r. cbn [when]. wstep. split; [apply timer_frame_refl|]. rewrite <- E. unfold r. by destruct (rq_rt _).
    - rewrite andb_true_r. destruct (sched_feat RT_RUNTIME_SHARE); cbn [negb when].
      + wstep. split; [apply timer_frame_refl|]. unfold r. by destruct (rq_rt _).
      + eapply wp_mono; [apply set_rt_frame|]. by intros [] s' [H1 H2]. }
  intros [] s1 [Hf1 Hr1]. wgo. rewrite Hr1. simpl.
  assert (Hb0 : b0 <> RUNTIME_INF -> 0 <= b0 <= P).
  { unfold b0, share_of. destruct (Z.eqb_spec (rt_runtime r) RUNTIME_INF) as [|Hn]; [done|]. intros _.
    destruct (sched_feat _); [by apply Hr|]. pose proof (to_runtime _ Hok) as Hrt. fold R P in Hrt. lia. }
  assert (Hok1 : timer_ok s1) by (eapply timer_ok_frame; [exact Hok|exact Hf1|]; intros _; by rewrite Hr1).
  wstep.
  { wgo. split; [done|]. split; [done|]. intros Hthr Hpos Hinf. exfalso.
    apply andb_true_iff in H as [H _]. apply Z.eqb_eq in H. lia. }
  wgo. wcall update_rq_clock_frame. intros [] s2 [Hf2 Hr2]. wgo.
  assert (Hf02 : timer_frame i s s2) by by eapply timer_frame_trans.
  assert (Hok2 : timer_ok s2) by (eapply timer_ok_frame; [exact Hok|exact Hf02|]; intros _; by rewrite Hr2, Hr1).
  assert (Hspan : i ∈ span (rd s2)) by (destruct Hf02 as (_ & _ & _ & ->); done).
  rewrite Hr2, Hr1. simpl. destruct (Z.eqb_spec (rt_time r) 0) as [Hz|Hz]; cbn [negb].
  - wgo. cbv beta iota. wgo.
    apply (wp_mono _ (fun _ s' => timer_frame i s2 s' /\ (rqs s' i = rqs s2 i \/ rqs s' i = enqueue_top_rq (rqs s2 i)))).
    { wstep; [wcall sched_rt_rq_enqueue_frame; intros [] s' [? ?]; auto|split; [apply timer_frame_refl|by left]]. }
    intros [] s3 [Hf3 H3]. wgo. assert (Hf03 : timer_frame i s s3) by by eapply timer_frame_trans.
    split; [done|]. split; [|intros ?; lia]. eapply timer_ok_frame; [exact Hok|exact Hf03|]. intros _.
    destruct (enqueue_top_rq_spec (rqs s2 i)) as (E1 & E2 & _).
    destruct H3 as [-> | ->]; unfold cpu_ok; rewrite ?E1, ?E2, Hr2, Hr1; by split.
  - wcall replenish_run; [done|done|]. intros [enq busy] s3 (Hf3 & b & Hb1 & Hb2 & Hb3 & He & Hr3). cbn [fst] in *. wgo.
    assert (Hf03 : timer_frame i s s3) by by eapply timer_frame_trans.
    apply (wp_mono _ (fun _ s' => timer_frame i s3 s' /\
      rqs s' i = if enq then enqueue_top_rq (rqs s3 i) else rqs s3 i)).
    { destruct enq; [apply sched_rt_rq_enqueue_frame | split; [apply timer_frame_refl|done]]. }
    intros [] s4 [Hf4 Hr4]. wgo. assert (Hf04 : timer_frame i s s4) by by eapply timer_frame_trans.
    destruct Hf02 as (_ & Ebw & _). unfold lends in Hb2, Hb3. rewrite Ebw in Hb2. rewrite Hr2, Hr1 in He, Hr3, Hb1, Hb2, Hb3.
    simpl in He, Hr3, Hb1, Hb2, Hb3. fold P in Hb2.
    set (t := rt_time r - Z.min (rt_time r) b) in *.
    destruct (enqueue_top_rq_spec (rqs s3 i)) as (E1 & E2 & E3 & E4 & E5). cbv zeta in *.
    assert (Hfin : rt_runtime (rq_rt (rqs s4 i)) = b /\ rt_time (rq_rt (rqs s4 i)) = t /\
      rt_nr_running (rq_rt (rqs s4 i)) = rt_nr_running r /\ rt_throttled (rq_rt (rqs s4 i)) = if enq then 0 else rt_throttled r).
    { rewrite Hr4. destruct enq; rewrite ?E1, ?E2, ?E3, ?E4, Hr3; simpl; done. }
    destruct Hfin as (F1 & F2 & F3 & F4).
    assert (Hb : b <> RUNTIME_INF -> b <= P /\ 0 <= b).
    { intros Hn. destruct (decide (b0 = RUNTIME_INF)) as [E|E].
      - exfalso. apply Hn, Hb3. intros H0. by apply H0.
      - split; [by apply Hb2|]. specialize (Hb0 E). lia. }
    assert (Hb00 : 0 <= b0).
    { destruct (decide (b0 = RUNTIME_INF)) as [-> |E]; [done|]. by apply Hb0. }
    split; [done|]. split.
    { eapply timer_ok_frame; [exact Hok|exact Hf04|]. intros _. split; rewrite ?F1, ?F2; [unfold t; lia|].
      intros Hn. destruct (Hb Hn). lia. }
    intros Hthr Hpos Hinf Hle.
    assert (Eb0 : b0 = share_of R r) by (unfold b0; by rewrite (proj2 (Z.eqb_neq _ _))).
    assert (Hb0' : b0 <> RUNTIME_INF).
    { rewrite Eb0. unfold share_of. destruct (sched_feat _); [done|]. pose proof (to_runtime _ Hok) as Hrt. pose proof (to_period _ Hok) as Hpr.
      fold R P in Hrt. fold P in Hpr. rewrite RUNTIME_INF_eq. lia. }
    exists b. specialize (Hb2 Hb0'). split; [lia|]. split; [by rewrite F2|]. split; [done|]. rewrite F2, F4.
    unfold rt_rq_throttled in He. simpl in He.
    replace (rt_throttled r =? 0) with false in He by (symmetry; by apply Z.eqb_neq). cbn [negb andb] in He.
    rewrite He in *. destruct (t <? b) eqn:Hlt; [|done]. split; [done|]. intros Hnr. rewrite Hr4. apply E5; rewrite Hr3; done.
Qed.

(** One pass over the CPUs of [l]. *)
Lemma period_timer_loop_run l : forall idle thr s,
  timer_ok s -> NoDup l -> (forall c, c ∈ l -> c ∈ span (rd s)) ->
  wp (period_timer_loop 1 l idle thr) (fun _ s' =>
    (forall c, c ∉ l -> lent (rqs s c) (rqs s' c)) /\
    (forall c, c ∈ l -> ticked (rt_bw_runtime (def_rt_bandwidth s)) (rt_period (def_rt_bandwidth s))
                          (rq_rt (rqs s c)) (rq_rt (rqs s' c))) /\
    timer_ok s' /\ def_rt_bandwidth s' = def_rt_bandwidth s /\ online_cpus s' = online_cpus s) s.
Proof.
  induction l as [|i l IH]; intros idle thr s Hok Hnd Hl; cbn [period_timer_loop].
  { wgo. split; [intros c _; apply lent_refl | split; [|done]]. by intros c ?%not_elem_of_nil. }
  apply NoDup_cons in Hnd as [Hi Hnd]. wgo. wcall period_timer_cpu_run; [done|apply Hl; by left|].
  intros res s1 ((Hr1 & Hb1 & Ho1 & Hd1) & Hok1 & Ht1). wcall IH; [done|done|intros c Hc; rewrite Hd1; apply Hl; by right|].
  intros _ s2 (Hr2 & Ht2 & Hok2 & Hb2 & Ho2). split; [|split; [|split_and!; congruence || done]].
  - intros c Hc. eapply lent_trans; [apply Hr1|apply Hr2]; set_solver.
  - intros c [->|Hc]%elem_of_cons.
    + intros A1 A2 A3 A4. destruct (Ht1 A1 A2 A3 A4) as (b & B1 & B2 & B3 & B4). exists b.
      pose proof (Hr2 i Hi) as Hlent. destruct (Z.ltb_spec (rt_time (rq_rt (rqs s1 i))) b) as [Hlt|Hge].
      * destruct Hlent as (E & _). rewrite E. simpl. rewrite (proj2 (Z.ltb_lt _ _)) by done. done.
      * destruct B4 as [B4 B5]. rewrite (lent_nothing _ _ Hlent) by lia. by rewrite (proj2 (Z.ltb_ge _ _)).
    + specialize (Ht2 c Hc). assert (c <> i) as Hne by (intros ->; by apply Hi).
      intros A1 A2 A3 A4. rewrite Hb1, (lent_nothing _ _ (Hr1 c Hne) A4) in Ht2. by apply Ht2.
Qed.

Lemma period_timer_run s :
  timer_ok s ->
  wp (do_sched_rt_period_timer 1) (fun _ s' =>
    (forall c, c ∈ online_cpus s ->
       ticked (rt_bw_runtime (def_rt_bandwidth s)) (rt_period (def_rt_bandwidth s)) (rq_rt (rqs s c)) (rq_rt (rqs s' c))) /\
    timer_ok s' /\ def_rt_bandwidth s' = def_rt_bandwidth s /\ online_cpus s' = online_cpus s) s.
Proof.
  intros Hok. unfold do_sched_rt_period_timer. wgo. wcall period_timer_loop_run; [done|apply Hok|apply Hok|].
  intros [idle thr] s' (_ & Ht & Hok' & Hb & Ho). wgo. by destruct (_ && _).
Qed.

(** [n] periods of the timer. *)
Fixpoint timer_periods (n : nat) : K unit :=
  match n with
  | O => ret tt
  | S n => do! do_sched_rt_period_timer 1 in timer_periods n
  end.

(** Within [n] periods the time that was overrun is paid back: what the CPU has
    borrowed stays with it until then. *)
Lemma timer_periods_unthrottle c m0 n : forall s,
  timer_ok s -> c ∈ online_cpus s ->
  let r := rq_rt (rqs s c) in
  rt_throttled r <> 0 -> rt_runtime r <> RUNTIME_INF -> rt_runtime r <= rt_time r ->
  0 < m0 <= share_of (rt_bw_runtime (def_rt_bandwidth s)) r -> 0 < rt_time r < m0 * (Z.of_nat n + 1) ->
  (0 < n)%nat ->
  exists m s', (0 < m <= n)%nat /\ timer_periods m s = Done (tt, s') /\
    rt_throttled (rq_rt (rqs s' c)) = 0 /\
    (rt_nr_running r <> 0 -> rt_queued (rq_rt (rqs s' c)) <> 0).
Proof.
  induction n as [|n IH]; intros s Hok Hc r Hthr Hinf Hle Hm Ht Hn; [lia|].
  pose proof (period_timer_run s Hok) as Hw. apply wp_done in Hw as (res & s1 & He & Hw).
  destruct Hw as (Htick & Hok1 & Hb & Ho).
  destruct (Htick c Hc Hthr ltac:(fold r; lia) Hinf Hle) as (b & Hb1 & Ht1 & Hn1 & Hif). fold r in Hb1, Ht1, Hn1, Hif.
  destruct (Z.ltb_spec (rt_time (rq_rt (rqs s1 c))) b) as [Hlt|Hge].
  - exists 1%nat, s1. split; [lia|]. cbn [timer_periods]. rewrite (bind_done _ _ _ _ _ He).
    destruct Hif as [? ?]. done.
  - destruct Hif as [Hthr1 Hr1]. pose proof (to_period _ Hok) as Hper.
    destruct (IH s1) as (m & s' & Hm' & Hs' & ? & Hq).
    + done.
    + by rewrite Ho.
    + by rewrite Hthr1.
    + rewrite Hr1, RUNTIME_INF_eq. lia.
    + lia.
    + rewrite Hb. unfold share_of in *. rewrite Hr1. destruct (sched_feat _); lia.
    + rewrite Ht1 in *. lia.
    + destruct n; [|lia]. rewrite Ht1 in *. lia.
    + exists (S m), s'. split; [lia|]. cbn [timer_periods]. rewrite (bind_done _ _ _ _ _ He).
      rewrite <- Hn1. done.
Qed.
End Throttle.

(** ** The sysctl *)

(** The bandwidth that the two variables describe is in force. *)
Definition rt_configured (s : kstate) : Prop :=
  rt_bw_runtime (def_rt_bandwidth s) = global_rt_runtime s /\
  rt_period (def_rt_bandwidth s) = global_rt_period s /\
  (forall i, i ∈ possible_cpus s -> runtime_of (rqs s) i = global_rt_runtime s).

Section Sysctl.
Implicit Types (s : kstate).

Lemma global_constraints_run s :
  wp sched_rt_global_constraints (fun r s' => r = 0 /\ exists g', s' = s <| rqs := g' |> /\
    only_runtime (rqs s) g' /\
    forall i, i ∈ possible_cpus s -> runtime_of g' i = global_rt_runtime s) s.
Proof.
  unfold sched_rt_global_constraints. wgo.
  enough (H : forall l s0, (exists g', s0 = s <| rqs := g' |> /\ only_runtime (rqs s) g') ->
    wp (foreach l (fun i => let! s := gets (fun s => s) in
          set_rt i (fun r => r <| rt_runtime := global_rt_runtime s |>)))
       (fun _ s' => exists g', s' = s <| rqs := g' |> /\ only_runtime (rqs s) g' /\
          forall i, i ∈ l \/ runtime_of (rqs s0) i = global_rt_runtime s ->
            runtime_of g' i = global_rt_runtime s) s0).
  { wcall (H (possible_cpus s) s).
    - exists (rqs s). by rewrite kstate_rqs_eta.
    - intros [] s' (g' & -> & Ho & Hr). wgo. split; [done|]. exists g'. split; [done|].
      split; [done|]. intros i Hi. apply Hr. by left. }
  induction l as [|i l IH]; intros s0 (g & -> & Ho); cbn [foreach].
  - wgo. exists g. split; [done|]. split; [done|]. intros i [Hi|Hi]; [|done].
    by apply not_elem_of_nil in Hi.
  - wgo. change (global_rt_runtime (s <| rqs := g |>)) with (global_rt_runtime s).
    set (F := fun _ : Z => global_rt_runtime s).
    apply (wp_intro _ _ _ tt (s <| rqs := alter_runtime i F g |>)); [done|].
    wcall IH.
    + exists (alter_runtime i F g). split; [done|].
      etrans; [exact Ho | apply alter_runtime_only].
    + intros [] s' (g' & -> & Ho' & Hr'). exists g'. split; [done|]. split; [done|].
      intros j Hj. apply Hr'. simpl. destruct (decide (i = j)) as [->|Hne].
      * right. by rewrite alter_runtime_eq.
      * destruct Hj as [[?|Hj]%elem_of_cons|Hj]; [congruence | by left | right].
        by rewrite alter_runtime_ne.
Qed.
End Sysctl.

(** ** The properties of the bandwidth code *)

(** C17: Borrowing conserves runtime: from a state where the CPUs that take part
    in borrowing together hold exactly one share each, borrowing, taking CPUs
    offline and bringing them back keep it so, each holds a runtime of at
    least 0, and the [BUG_ON(want)] of [__disable_runtime] never fires. *)
Theorem rt_runtime_conserved s s' :
  rt_bw_inv s -> rtc bw_step s s' ->
  sumZ (debt (rt_bw_runtime (def_rt_bandwidth s')) (rqs s')) (span (rd s')) = 0 /\
  (forall c, c ∈ span (rd s') -> lends (rqs s') c -> 0 <= runtime_of (rqs s') c) /\
  (forall c, c ∈ span (rd s') -> exists s'', __disable_runtime c s' = Done (tt, s'')) /\
  (forall c, c ∈ span (rd s') -> lends (rqs s') c ->
     exists s'', do_balance_runtime c s' = Done (tt, s'')).
Proof.
  intros Hinv Hr. pose proof (bw_reachable_inv _ _ Hinv Hr) as Hi. split_and!.
  - apply Hi.
  - intros c Hc. by apply Hi.
  - intros c Hc. destruct (__disable_runtime_run c s' Hi Hc) as (s'' & H & _). eauto.
  - intros c Hc Hl. destruct (do_balance_runtime_run c s' Hi Hc Hl) as (g' & H & _). eauto.
Qed.

(** A CPU that borrows gains exactly what the others lose, ends with at
    most a period of runtime, and no CPU lends time it has already used; run
    queues change in their runtime only. *)
Theorem do_balance_runtime_lends c s :
  NoDup (span (rd s)) -> c ∈ span (rd s) -> lends (rqs s) c ->
  0 < rt_period (def_rt_bandwidth s) < 2 ^ 62 ->
  runtime_of (rqs s) c <= rt_period (def_rt_bandwidth s) ->
  rt_bounds (rqs s) (span (rd s)) ->
  exists g', do_balance_runtime c s = Done (tt, s <| rqs := g' |>) /\
    only_runtime (rqs s) g' /\
    runtime_of (rqs s) c <= runtime_of g' c <= rt_period (def_rt_bandwidth s) /\
    sumZ (fun i => runtime_of g' i) (span (rd s)) = sumZ (fun i => runtime_of (rqs s) i) (span (rd s)) /\
    forall i, i <> c ->
      Z.min (runtime_of (rqs s) i) (time_of (rqs s) i) <= runtime_of g' i <= runtime_of (rqs s) i.
Proof.
  intros Hnd Hc Hl HP Hcp Hb. unfold do_balance_runtime. krun.
  assert (Hw : 0 < Z.of_nat (length (span (rd s)))).
  { destruct (span (rd s)); [by apply not_elem_of_nil in Hc | cbn [length]; lia]. }
  assert (Hb' : rt_bounds (rqs s) (c :: span (rd s))) by (intros i Hi; apply Hb; set_solver).
  destruct (balance_runtime_loop_run c _ _ Hw HP (span (rd s)) s Hnd Hl Hcp Hb')
    as (g' & Hg' & Ho & _ & [Hc1 Hc2] & Hs & Hi & _).
  exists g'. split_and!; [done..| |done].
  rewrite (sum_split c g'), (sum_split c (rqs s)) by done. done.
Qed.

(** C18: Throttling ends, with borrowing or without: the tasks of a CPU that
    overran by less than [n] times its share can run again after at most [n]
    periods of the timer.  The share is the runtime that the CPU has, with
    [RT_RUNTIME_SHARE], and the bandwidth without: in each period it gets that
    back, and what it borrows from the other CPUs in addition. *)
Theorem timer_unthrottles `{SchedFeat} c n s :
  let r := rq_rt (rqs s c) in
  let share := if sched_feat RT_RUNTIME_SHARE then rt_runtime r else rt_bw_runtime (def_rt_bandwidth s) in
  timer_ok s -> c ∈ online_cpus s ->
  rt_throttled r <> 0 -> rt_runtime r <> RUNTIME_INF -> 0 < rt_runtime r <= rt_time r ->
  rt_time r < share * (Z.of_nat n + 1) -> (0 < n)%nat ->
  exists m s', (0 < m <= n)%nat /\ timer_periods m s = Done (tt, s') /\
    rt_throttled (rq_rt (rqs s' c)) = 0 /\
    (rt_nr_running r <> 0 -> rt_queued (rq_rt (rqs s' c)) <> 0).
Proof.
  intros r share Hok Hc Hthr Hinf Hr Ht Hn. apply (timer_periods_unthrottle c share n); fold r; try done; [lia| |].
  - unfold share_of, share. pose proof (to_runtime _ Hok). destruct (sched_feat _); lia.
  - lia.
Qed.

(** A write to the real-time sysctls is atomic: when the new values are
    refused, by the range check or by the deadline class, the whole state is
    as before the write; when they are accepted they are in force on every
    CPU. *)
Theorem sched_rt_handler_atomic dl_validate dl_do_global (proc : K Z) s p r :
  (forall t, exists z, dl_validate t = Done (z, t)) ->
  (forall t, exists d, dl_do_global t = Done (tt, t <| rd := d |>)) ->
  proc s = Done (0, s <| sysctl_sched_rt_period := p |> <| sysctl_sched_rt_runtime := r |>) ->
  0 <= sysctl_sched_rt_period s < 2 ^ 32 -> 0 <= p < 2 ^ 32 ->
  exists ret s', sched_rt_handler dl_validate dl_do_global true proc s = Done (ret, s') /\
    (ret <> 0 -> s' = s) /\
    (ret = 0 -> rt_configured s' /\ sysctl_sched_rt_period s' = p /\
       sysctl_sched_rt_runtime s' = r /\ 0 < p /\ (u64 r = RUNTIME_INF \/ u32 r <= p)).
Proof.
  intros Hval Hdo Hproc Hs Hp.
  set (s1 := s <| sysctl_sched_rt_period := p |> <| sysctl_sched_rt_runtime := r |>) in *.
  assert (Hundo : s1 <| sysctl_sched_rt_period := u32 (s32 (sysctl_sched_rt_period s)) |>
                     <| sysctl_sched_rt_runtime := sysctl_sched_rt_runtime s |> = s).
  { rewrite u32_s32 by done. by destruct s. }
  apply wp_done. unfold sched_rt_handler. wgo. apply (wp_intro _ _ _ _ _ Hproc).
  cbn [negb andb Z.eqb]. wgo. unfold sched_rt_global_validate. wgo.
  change (sysctl_sched_rt_period s1) with p. change (sysctl_sched_rt_runtime s1) with r.
  destruct (Z.leb_spec p 0) as [Hp0|Hp0].
  { wgo. change (negb (- EINVAL =? 0)) with true. cbv iota. wgo. rewrite Hundo.
    split; [done | discriminate]. }
  destruct (negb (u64 r =? RUNTIME_INF) && (p <? u32 r)) eqn:Hr.
  { wgo. change (negb (- EINVAL =? 0)) with true. cbv iota. wgo. rewrite Hundo.
    split; [done | discriminate]. }
  wgo. cbn [negb Z.eqb]. wgo. destruct (Hval s1) as [z Hz]. apply (wp_intro _ _ _ _ _ Hz).
  destruct (Z.eqb_spec z 0) as [->|Hz0]; cbn [negb].
  2: { wgo. rewrite Hundo. done. }
  wgo. wcall global_constraints_run. intros ? s2 (-> & g' & -> & _ & Hg').
  cbn [negb Z.eqb]. wgo. unfold sched_rt_do_global. wgo.
  match goal with |- wp dl_do_global _ ?t => destruct (Hdo t) as [d Hd] end.
  apply (wp_intro _ _ _ _ _ Hd). wgo. split; [done|]. intros _.
  split_and!; [|done|done|lia|].
  - split_and!; [done..|]. intros i Hi. by apply Hg'.
  - apply andb_false_iff in Hr as [Hr|Hr].
    + left. by apply negb_false_iff, Z.eqb_eq in Hr.
    + right. by apply Z.ltb_ge in Hr.
Qed.

(** *** Concrete instances *)

Import Machine.

Lemma machine0_bw_inv : rt_bw_inv machine0.
Proof.
  split; try (by vm_compute).
  apply (bool_decide_unpack _). by vm_compute.
Qed.

(** CPU 0 borrows what is left of its period from CPU 1. *)
Lemma rt_runtime_conserved_witness :
  rt_runtime (rq_rt (rqs (after (do_balance_runtime 0) machine0) 0)) = 1000000000 /\
  sumZ (debt 950000000 (rqs (after (do_balance_runtime 0) machine0))) [0; 1] = 0.
Proof.
  split; [by vm_compute|].
  apply (rt_runtime_conserved machine0 (after (do_balance_runtime 0) machine0)).
  - apply machine0_bw_inv.
  - apply rtc_once, bw_balance with (c := 0); [by left | by vm_compute | reflexivity].
Defined.

Lemma do_balance_runtime_lends_witness :
  exists g', do_balance_runtime 0 machine0 = Done (tt, machine0 <| rqs := g' |>) /\
    sumZ (fun i => rt_runtime (rq_rt (g' i))) [0; 1] = 1900000000.
Proof.
  destruct (do_balance_runtime_lends 0 machine0) as (g' & Hg' & _ & _ & Hs & _).
  - apply (bool_decide_unpack _). by vm_compute.
  - by left.
  - by vm_compute.
  - by vm_compute.
  - by vm_compute.
  - intros i Hi. by vm_compute.
  - exists g'. split; [exact Hg' | exact Hs].
Defined.

(** CPU 0 overran its 0.95 s by 1.15 s, and is throttled; with borrowing from
    CPU 1 it gets 1 s back in each period. *)
Definition throttled0 : kstate :=
  after (set_rt 0 (fun r => r <| rt_throttled := 1 |> <| rt_time := 2100000000 |>
                              <| rt_nr_running := 1 |>)) machine0.

Definition share_all : SchedFeat := fun f => true.

Lemma throttled0_ok : timer_ok throttled0.
Proof.
  assert (Hnd : NoDup [0; 1]) by (apply (bool_decide_unpack _); by vm_compute).
  split; [exact Hnd|exact Hnd|done|by vm_compute|by vm_compute|].
  intros i. change (span (rd throttled0)) with [0; 1].
  intros [->|[->|[]%elem_of_nil]%elem_of_cons]%elem_of_cons; by vm_compute.
Qed.

Lemma timer_unthrottles_witness :
  rt_runtime (rq_rt (rqs (after (@timer_periods share_all 1) throttled0) 0)) = 1000000000 /\
  rt_throttled (rq_rt (rqs (after (@timer_periods share_all 1) throttled0) 0)) = 1 /\
  exists m s', (0 < m <= 2)%nat /\ @timer_periods share_all m throttled0 = Done (tt, s') /\
    rt_throttled (rq_rt (rqs s' 0)) = 0 /\
    (rt_nr_running (rq_rt (rqs throttled0 0)) <> 0 -> rt_queued (rq_rt (rqs s' 0)) <> 0).
Proof.
  split; [by vm_compute|]. split; [by vm_compute|].
  apply (@timer_unthrottles share_all 0 2 throttled0);
    [exact throttled0_ok|by left|by vm_compute|by vm_compute|by vm_compute|by vm_compute|lia].
Defined.

(** A runtime of twice the period is refused. *)
Lemma sched_rt_handler_atomic_witness :
  exists ret s', sched_rt_handler (fun s => Done (0, s)) (fun s => Done (tt, s)) true
      (fun s => Done (0, s <| sysctl_sched_rt_period := 1000000 |> <| sysctl_sched_rt_runtime := 2000000 |>))
      machine0 = Done (ret, s') /\ (ret <> 0 -> s' = machine0).
Proof.
  destruct (sched_rt_handler_atomic (fun s => Done (0, s)) (fun s => Done (tt, s))
    (fun s => Done (0, s <| sysctl_sched_rt_period := 1000000 |> <| sysctl_sched_rt_runtime := 2000000 |>))
    machine0 1000000 2000000) as (ret & s' & H1 & H2 & _).
  - intros t. by exists 0.
  - intros t. exists (rd t). by destruct t.
  - reflexivity.
  - by vm_compute.
  - by vm_compute.
  - exists ret, s'. split; [exact H1 | exact H2].
Defined.
