(* ===== verification/Rt.v ===== *)
(** * The real-time class ([kernel/sched/rt.c])

    The tasks of each of the 100 real-time priorities wait on a FIFO queue of
    their own; a bitmap says which queues are not empty.  Each run queue also
    counts its tasks, knows its highest priorities, and keeps the tasks that
    could run elsewhere on a list sorted by priority, from which overloaded
    CPUs push tasks to others and idle ones pull them.

    The configuration is SMP without [CONFIG_RT_GROUP_SCHED], so an entity is
    a task, [group_rt_rq] is null and the loops over an entity's parents run
    once.  Locks are not modelled: a run queue that is locked is not changed
    by others, and [double_lock_balance] never has to drop a lock.  CPU
    priorities ([cpupri.c]), the spans of scheduling domains and the resource
    limits of tasks are parameters. *)

From S2P Require Import Prelude Sched RtBandwidth.

(** ** The world outside *)

(** [cpupri_find]: the CPUs that run tasks of lower priority than [p] and that
    [p] may use, none if it returns 0. *)
Class Cpupri : Type := cpupri_find : kstate -> task -> list cpu.

(** The spans of the domains of a CPU that have [SD_WAKE_AFFINE], inner ones
    first. *)
Class Topology : Type := wake_affine_spans : cpu -> list (list cpu).

Definition CPUPRI_INVALID : Z := -1.
Definition SD_BALANCE_FORK : Z := 0x0008.
Definition SD_BALANCE_WAKE : Z := 0x0010.
Definition RT_MAX_TRIES : nat := 3.
Definition HZ : Z := 1000.
Definition USEC_PER_SEC : Z := 1000000.

(** ** Bitmaps *)

Fixpoint sched_find_first_bit (b : list bool) : Z :=
  match b with
  | [] => 0
  | true :: _ => 0
  | false :: b => 1 + sched_find_first_bit b
  end.

(** [__set_bit] and [__clear_bit]. *)
Definition put_bit (i : Z) (v : bool) (b : list bool) : option (list bool) :=
  if (0 <=? i) && (i <? Z.of_nat (length b)) then Some (<[Z.to_nat i := v]> b) else None.

Definition set_rt_bit (c : cpu) (i : Z) (v : bool) : K unit :=
  let! r := get_rt c in
  let! b := require BadIndex (put_bit i v (bitmap r)) in
  set_rt c (fun r => r <| bitmap := b |>).

(** A list operation on [active.queue]. *)
Definition on_rt_queue (c : cpu) (f : list (list task) -> option (list (list task))) : K unit :=
  let! r := get_rt c in
  let! q := require BadLink (f (rt_queue r)) in
  set_rt c (fun r => r <| rt_queue := q |>).

(** The loop of [init_rt_rq] over the priorities from [i] on. *)
Fixpoint init_rt_queues (c : cpu) (n : nat) (i : Z) : K unit :=
  match n with
  | O => ret tt
  | S n =>
      do! set_rt c (fun r => r <| rt_queue ::= Klist.put_at i [] |>) in
      do! set_rt_bit c i false in
      init_rt_queues c n (i + 1)
  end.

Definition init_rt_rq (c : cpu) : K unit :=
  do! init_rt_queues c (Z.to_nat MAX_RT_PRIO) 0 in
  do! set_rt_bit c MAX_RT_PRIO true in
  set_rt c (fun r =>
    r <| hp_curr := MAX_RT_PRIO |> <| hp_next := MAX_RT_PRIO |> <| rt_nr_migratory := 0 |>
      <| overloaded := 0 |> <| pushable_tasks := [] |> <| rt_queued := 0 |>
      <| rt_time := 0 |> <| rt_throttled := 0 |> <| rt_runtime := 0 |>).

(** ** Overload and migration *)

Definition need_pull_rt_task (c : cpu) (prev : task) : K bool :=
  let! r := get_rt c in
  let! t := get_task prev in
  ret (prio t <? hp_curr r).

Definition rt_overloaded (s : kstate) : Z := rto_count (rd s).

Definition set_rd (f : root_domain -> root_domain) : K unit :=
  modify (fun s => s <| rd ::= f |>).

Definition rt_set_overload (c : cpu) : K unit :=
  let! r := get_rq c in
  if negb (online r) then ret tt else
  do! set_rd (fun d => d <| rto_mask ::= cpumask_set_cpu c |>) in
  set_rd (fun d => d <| rto_count ::= fun n => s32 (n + 1) |>).

Definition rt_clear_overload (c : cpu) : K unit :=
  let! r := get_rq c in
  if negb (online r) then ret tt else
  do! set_rd (fun d => d <| rto_count ::= fun n => s32 (n - 1) |>) in
  set_rd (fun d => d <| rto_mask ::= cpumask_clear_cpu c |>).

Definition update_rt_migration (c : cpu) : K unit :=
  let! r := get_rt c in
  if negb (rt_nr_migratory r =? 0) && (1 <? rt_nr_total r) then
    when (overloaded r =? 0)
      (do! rt_set_overload c in
       set_rt c (fun r => r <| overloaded := 1 |>))
  else
    when (negb (overloaded r =? 0))
      (do! rt_clear_overload c in
       set_rt c (fun r => r <| overloaded := 0 |>)).

Definition inc_rt_migration (c : cpu) (p : task) : K unit :=
  let! t := get_task p in
  do! set_rt c (fun r => r <| rt_nr_total ::= fun n => u64 (n + 1) |>) in
  do! when (1 <? nr_cpus_allowed t)
        (set_rt c (fun r => r <| rt_nr_migratory ::= fun n => u64 (n + 1) |>)) in
  update_rt_migration c.

Definition dec_rt_migration (c : cpu) (p : task) : K unit :=
  let! t := get_task p in
  do! set_rt c (fun r => r <| rt_nr_total ::= fun n => u64 (n - 1) |>) in
  do! when (1 <? nr_cpus_allowed t)
        (set_rt c (fun r => r <| rt_nr_migratory ::= fun n => u64 (n - 1) |>)) in
  update_rt_migration c.

(** ** Pushable tasks *)

Definition has_pushable_tasks (r : rt_rq) : bool :=
  match pushable_tasks r with [] => false | _ => true end.

(** The two callbacks of a CPU. *)
Definition rt_push_head : Z := 0.
Definition rt_pull_head : Z := 1.

Definition rt_queue_push_tasks (c : cpu) : K unit :=
  let! r := get_rt c in
  if negb (has_pushable_tasks r) then ret tt else queue_balance_callback c rt_push_head.

Definition rt_queue_pull_task (c : cpu) : K unit := queue_balance_callback c rt_pull_head.

Definition enqueue_pushable_task (c : cpu) (p : task) : K unit :=
  do! set_rt c (fun r => r <| pushable_tasks ::= plist_del p |>) in
  let! t := get_task p in
  do! set_rt c (fun r => r <| pushable_tasks ::= plist_add (prio t) p |>) in
  let! r := get_rt c in
  when (prio t <? hp_next r) (set_rt c (fun r => r <| hp_next := prio t |>)).

Definition dequeue_pushable_task (c : cpu) (p : task) : K unit :=
  do! set_rt c (fun r => r <| pushable_tasks ::= plist_del p |>) in
  let! r := get_rt c in
  match pushable_tasks r with
  | (_, p') :: _ =>
      let! t := get_task p' in
      set_rt c (fun r => r <| hp_next := prio t |>)
  | [] => set_rt c (fun r => r <| hp_next := MAX_RT_PRIO |>)
  end.

(** ** Counting the tasks *)

Definition cpupri_set (c : cpu) (pri : Z) : K unit :=
  set_rd (fun d => d <| cpupri ::= <[c := pri]> |>).

Definition inc_rt_prio_smp (c : cpu) (prio prev_prio : Z) : K unit :=
  let! r := get_rq c in
  when (online r && (prio <? prev_prio)) (cpupri_set c prio).

Definition dec_rt_prio_smp (c : cpu) (prio prev_prio : Z) : K unit :=
  let! r := get_rq c in
  when (online r && negb (hp_curr (rq_rt r) =? prev_prio)) (cpupri_set c (hp_curr (rq_rt r))).

Definition inc_rt_prio (c : cpu) (prio : Z) : K unit :=
  let! r := get_rt c in
  let prev_prio := hp_curr r in
  do! when (prio <? prev_prio) (set_rt c (fun r => r <| hp_curr := prio |>)) in
  inc_rt_prio_smp c prio prev_prio.

Definition dec_rt_prio (c : cpu) (prio : Z) : K unit :=
  let! r := get_rt c in
  let prev_prio := hp_curr r in
  do! (if negb (rt_nr_running r =? 0) then
         when (prio =? prev_prio)
           (set_rt c (fun r => r <| hp_curr := sched_find_first_bit (bitmap r) |>))
       else set_rt c (fun r => r <| hp_curr := MAX_RT_PRIO |>)) in
  dec_rt_prio_smp c prio prev_prio.

Definition inc_rt_group : K unit := start_rt_bandwidth.

Definition rt_se_nr_running : Z := 1.
Definition rt_se_rr_nr_running (t : task_struct) : Z := if policy t =? SCHED_RR then 1 else 0.

Definition inc_rt_tasks (c : cpu) (p : task) : K unit :=
  let! t := get_task p in
  do! set_rt c (fun r => r <| rt_nr_running ::= fun n => u32 (n + rt_se_nr_running) |>) in
  do! set_rt c (fun r => r <| rr_nr_running ::= fun n => u32 (n + rt_se_rr_nr_running t) |>) in
  do! inc_rt_prio c (prio t) in
  do! inc_rt_migration c p in
  inc_rt_group.

Definition dec_rt_tasks (c : cpu) (p : task) : K unit :=
  let! t := get_task p in
  do! set_rt c (fun r => r <| rt_nr_running ::= fun n => u32 (n - rt_se_nr_running) |>) in
  do! set_rt c (fun r => r <| rr_nr_running ::= fun n => u32 (n - rt_se_rr_nr_running t) |>) in
  do! dec_rt_prio c (prio t) in
  dec_rt_migration c p.

(** ** The queues *)

Definition set_rt_se (p : task) (f : sched_rt_entity -> sched_rt_entity) : K unit :=
  set_task p (fun t => t <| rt ::= f |>).

Definition on_rt_rq (t : task_struct) : bool := negb (rt_on_rq (rt t) =? 0).

Definition move_entity (flags : Z) : bool :=
  negb (Z.land flags (Z.lor DEQUEUE_SAVE DEQUEUE_MOVE) =? DEQUEUE_SAVE).

(** [list_del_init] of an entity that is on no list does nothing. *)
Definition __delist_rt_entity (c : cpu) (p : task) : K unit :=
  let! t := get_task p in
  do! set_rt c (fun r => r <| rt_queue ::= Klist.unlink p |>) in
  let! r := get_rt c in
  do! when (Klist.list_empty (prio t) (rt_queue r)) (set_rt_bit c (prio t) false) in
  set_rt_se p (fun e => e <| on_list := 0 |>).

Definition __enqueue_rt_entity (p : task) (flags : Z) : K unit :=
  let! t := get_task p in
  let c := task_cpu t in
  do! when (move_entity flags)
    (do! (if has flags ENQUEUE_HEAD then on_rt_queue c (Klist.list_add p (prio t))
          else on_rt_queue c (Klist.list_add_tail p (prio t))) in
     do! set_rt_bit c (prio t) true in
     set_rt_se p (fun e => e <| on_list := 1 |>)) in
  do! set_rt_se p (fun e => e <| rt_on_rq := 1 |>) in
  inc_rt_tasks c p.

Definition __dequeue_rt_entity (p : task) (flags : Z) : K unit :=
  let! t := get_task p in
  let c := task_cpu t in
  do! when (move_entity flags) (__delist_rt_entity c p) in
  do! set_rt_se p (fun e => e <| rt_on_rq := 0 |>) in
  dec_rt_tasks c p.

Definition dequeue_rt_stack (p : task) (flags : Z) : K unit :=
  let! t := get_task p in
  do! dequeue_top_rt_rq (task_cpu t) in
  let! t := get_task p in
  when (on_rt_rq t) (__dequeue_rt_entity p flags).

Definition enqueue_rt_entity (p : task) (flags : Z) : K unit :=
  let! t := get_task p in
  let c := task_cpu t in
  do! dequeue_rt_stack p flags in
  do! __enqueue_rt_entity p flags in
  enqueue_top_rt_rq c.

Definition dequeue_rt_entity (p : task) (flags : Z) : K unit :=
  let! t := get_task p in
  let c := task_cpu t in
  do! dequeue_rt_stack p flags in
  enqueue_top_rt_rq c.

Definition enqueue_task_rt (c : cpu) (p : task) (flags : Z) : K unit :=
  do! when (has flags ENQUEUE_WAKEUP) (set_rt_se p (fun e => e <| timeout := 0 |>)) in
  do! enqueue_rt_entity p flags in
  let! r := get_rq c in
  let! t := get_task p in
  when (negb (task_current r p) && (1 <? nr_cpus_allowed t)) (enqueue_pushable_task c p).

Definition dequeue_task_rt `{SchedFeat} (c : cpu) (p : task) (flags : Z) : K unit :=
  do! update_curr_rt c in
  do! dequeue_rt_entity p flags in
  dequeue_pushable_task c p.

Definition requeue_rt_entity (c : cpu) (p : task) (head : bool) : K unit :=
  let! t := get_task p in
  when (on_rt_rq t)
    (do! set_rt c (fun r => r <| rt_queue ::= Klist.unlink p |>) in
     if head then on_rt_queue c (Klist.list_add p (prio t))
     else on_rt_queue c (Klist.list_add_tail p (prio t))).

Definition requeue_task_rt (c : cpu) (p : task) (head : bool) : K unit :=
  let! t := get_task p in
  requeue_rt_entity (task_cpu t) p head.

Definition yield_task_rt (c : cpu) : K unit :=
  let! r := get_rq c in
  requeue_task_rt c (curr r) false.

(** ** Preemption and picking *)

Definition find_lowest_rq `{Cpupri, Topology} (p : task) : K (option cpu) :=
  let! s := gets (fun s => s) in
  let t := tasks s p in
  if nr_cpus_allowed t =? 1 then ret None else
  match cpupri_find s p with
  | [] => ret None
  | lowest_mask =>
      if cpumask_test_cpu (task_cpu t) lowest_mask then ret (Some (task_cpu t)) else
      let this_cpu := if cpumask_test_cpu (this_cpu s) lowest_mask then Some (this_cpu s) else None in
      (* [for_each_domain] *)
      let fix domains l :=
        match l with
        | [] => match this_cpu with Some c => Some c | None => head lowest_mask end
        | sd :: l =>
            if match this_cpu with Some c => cpumask_test_cpu c sd | None => false end
            then this_cpu
            else match list_find (fun i => i ∈ sd) lowest_mask with
                 | Some (_, best_cpu) => Some best_cpu
                 | None => domains l
                 end
        end in
      ret (domains (wake_affine_spans (task_cpu t)))
  end.

(** [-1] is [None]. *)
Definition select_task_rq_rt `{Cpupri, Topology} (p : task) (c : cpu) (sd_flag flags : Z) : K cpu :=
  if negb (sd_flag =? SD_BALANCE_WAKE) && negb (sd_flag =? SD_BALANCE_FORK) then ret c else
  let! s := gets (fun s => s) in
  let tc := tasks s (curr (rqs s c)) in
  if rt_task tc && ((nr_cpus_allowed tc <? 2) || (prio tc <=? prio (tasks s p))) then
    let! target := find_lowest_rq p in
    let! s := gets (fun s => s) in
    match target with
    | Some i => if prio (tasks s p) <? hp_curr (rq_rt (rqs s i)) then ret i else ret c
    | None => ret c
    end
  else ret c.

Definition check_preempt_equal_prio `{Cpupri} (c : cpu) (p : task) : K unit :=
  let! s := gets (fun s => s) in
  let cr := curr (rqs s c) in
  if (nr_cpus_allowed (tasks s cr) =? 1) || bool_decide (cpupri_find s cr = []) then ret tt else
  if negb (nr_cpus_allowed (tasks s p) =? 1) && negb (bool_decide (cpupri_find s p = [])) then ret tt else
  do! requeue_task_rt c p true in
  resched_curr c.

Definition check_preempt_curr_rt `{Cpupri} (c : cpu) (p : task) (flags : Z) : K unit :=
  let! s := gets (fun s => s) in
  let t := tasks s p in
  let tc := tasks s (curr (rqs s c)) in
  if prio t <? prio tc then resched_curr c else
  when ((prio t =? prio tc) && negb (tif_need_resched tc)) (check_preempt_equal_prio c p).

Definition pick_next_rt_entity (c : cpu) : K task :=
  let! r := get_rt c in
  let idx := sched_find_first_bit (bitmap r) in
  do! bug_on (MAX_RT_PRIO <=? idx) in
  require BadLink (Klist.list_first idx (rt_queue r)).

Definition _pick_next_task_rt (c : cpu) : K task :=
  let! p := pick_next_rt_entity c in
  let! r := get_rq c in
  do! set_task p (fun t => t <| se ::= fun e => e <| exec_start := clock_task r |> |>) in
  ret p.

Definition put_prev_task_rt `{SchedFeat} (c : cpu) (p : task) : K unit :=
  do! update_curr_rt c in
  let! t := get_task p in
  when (on_rt_rq t && (1 <? nr_cpus_allowed t)) (enqueue_pushable_task c p).

(** ** Pushing *)

Definition pick_rt_task (t : task_struct) (c : cpu) : bool :=
  negb (task_running t) && cpumask_test_cpu c (cpus_allowed t).

(** [plist_for_each_entry]. *)
Fixpoint first_rt_task (s : kstate) (c : cpu) (l : list (Z * task)) : option task :=
  match l with
  | [] => None
  | (_, p) :: l => if pick_rt_task (tasks s p) c then Some p else first_rt_task s c l
  end.

Definition pick_highest_pushable_task (src c : cpu) : K (option task) :=
  let! s := gets (fun s => s) in
  let r := rq_rt (rqs s src) in
  if negb (has_pushable_tasks r) then ret None else ret (first_rt_task s c (pushable_tasks r)).

(** The retry loop; with the locks held it never goes round. *)
Fixpoint find_lock_lowest_loop `{Cpupri, Topology} (p : task) (c : cpu) (tries : nat)
    : K (option cpu) :=
  match tries with
  | O => ret None
  | S tries =>
      let! target := find_lowest_rq p in
      match target with
      | None => ret None
      | Some i =>
          if i =? c then ret None else
          let! s := gets (fun s => s) in
          if hp_curr (rq_rt (rqs s i)) <=? prio (tasks s p) then ret None else
          if prio (tasks s p) <? hp_curr (rq_rt (rqs s i)) then ret (Some i) else
          find_lock_lowest_loop p c tries
      end
  end.

Definition find_lock_lowest_rq `{Cpupri, Topology} (p : task) (c : cpu) : K (option cpu) :=
  find_lock_lowest_loop p c RT_MAX_TRIES.

Definition pick_next_pushable_task (c : cpu) : K (option task) :=
  let! s := gets (fun s => s) in
  let r := rqs s c in
  match pushable_tasks (rq_rt r) with
  | [] => ret None
  | (_, p) :: _ =>
      let t := tasks s p in
      do! bug_on (negb (c =? task_cpu t)) in
      do! bug_on (task_current r p) in
      do! bug_on (nr_cpus_allowed t <=? 1) in
      do! bug_on (negb (task_on_rq_queued t)) in
      do! bug_on (negb (rt_task t)) in
      ret (Some p)
  end.

(** From the label [retry] on. *)
Fixpoint push_rt_task_retry `{Cpupri, Topology, CoreOps} (c : cpu) (next_task : task) (fuel : nat)
    : K bool :=
  match fuel with
  | O => crash OutOfFuel
  | S fuel =>
      let! s := gets (fun s => s) in
      let r := rqs s c in
      if bool_decide (next_task = curr r) then ret false else
      if prio (tasks s next_task) <? prio (tasks s (curr r)) then
        do! resched_curr c in ret false
      else
      let! lowest_rq := find_lock_lowest_rq next_task c in
      match lowest_rq with
      | None =>
          let! p := pick_next_pushable_task c in
          match p with
          | None => ret false
          | Some p =>
              if bool_decide (p = next_task) then ret false
              else push_rt_task_retry c p fuel
          end
      | Some i =>
          do! deactivate_task_op c next_task 0 in
          do! set_task_cpu_op next_task i in
          do! activate_task_op i next_task 0 in
          do! resched_curr i in
          ret true
      end
  end.

Definition push_rt_task `{Cpupri, Topology, CoreOps} (c : cpu) : K bool :=
  let! r := get_rt c in
  if overloaded r =? 0 then ret false else
  let! next_task := pick_next_pushable_task c in
  match next_task with
  | None => ret false
  | Some p => push_rt_task_retry c p 1
  end.

(** [while (push_rt_task(rq));]: each round takes a task off the list. *)
Fixpoint push_rt_tasks_loop `{Cpupri, Topology, CoreOps} (c : cpu) (fuel : nat) : K unit :=
  match fuel with
  | O => crash OutOfFuel
  | S fuel =>
      let! moved := push_rt_task c in
      when moved (push_rt_tasks_loop c fuel)
  end.

Definition push_rt_tasks `{Cpupri, Topology, CoreOps} (c : cpu) : K unit :=
  let! r := get_rt c in
  push_rt_tasks_loop c (S (length (pushable_tasks r))).

(** *** Pushing by interrupt *)

(** [cpumask_next(n, mask)], [None] for [nr_cpu_ids]. *)
Definition cpumask_next (n : cpu) (m : list cpu) : option cpu :=
  snd <$> list_find (fun i => n < i) m.

(** The loop of [rto_next_cpu]. *)
Fixpoint rto_next_cpu_loop (fuel : nat) : K cpu :=
  match fuel with
  | O => crash OutOfFuel
  | S fuel =>
      let! d := gets rd in
      match cpumask_next (rto_cpu d) (rto_mask d) with
      | Some c =>
          do! set_rd (fun d => d <| rto_cpu := c |>) in
          ret c
      | None =>
          do! set_rd (fun d => d <| rto_cpu := -1 |>) in
          if rto_loop d =? rto_loop_next d then ret (-1) else
          do! set_rd (fun d => d <| rto_loop := rto_loop_next d |>) in
          rto_next_cpu_loop fuel
      end
  end.

Definition rto_next_cpu : K cpu := rto_next_cpu_loop 2.

Definition rto_start_trylock : K bool :=
  let! d := gets rd in
  if rto_loop_start d =? 0 then
    do! set_rd (fun d => d <| rto_loop_start := 1 |>) in ret true
  else ret false.

Definition rto_start_unlock : K unit := set_rd (fun d => d <| rto_loop_start := 0 |>).

Definition irq_work_queue_on (c : cpu) : K unit :=
  set_rd (fun d => d <| rto_push_work ::= cons c |>).

Definition tell_cpu_to_push : K unit :=
  do! set_rd (fun d => d <| rto_loop_next ::= fun n => s32 (n + 1) |>) in
  let! locked := rto_start_trylock in
  if negb locked then ret tt else
  let! d := gets rd in
  let! c := (if rto_cpu d <? 0 then rto_next_cpu else ret (-1)) in
  do! rto_start_unlock in
  when (0 <=? c) (irq_work_queue_on c).

Definition rto_push_irq_work_func `{Cpupri, Topology, CoreOps} : K unit :=
  let! me := gets this_cpu in
  let! r := get_rt me in
  do! when (has_pushable_tasks r) (push_rt_tasks me) in
  let! c := rto_next_cpu in
  if c <? 0 then ret tt else irq_work_queue_on c.

(** ** Pulling *)

(** One CPU of [rto_mask]: whether a task was pulled from it. *)
Definition pull_from `{CoreOps} (me src : cpu) : K bool :=
  let! s := gets (fun s => s) in
  if hp_curr (rq_rt (rqs s me)) <=? hp_next (rq_rt (rqs s src)) then ret false else
  let! p := pick_highest_pushable_task src me in
  match p with
  | None => ret false
  | Some p =>
      let! s := gets (fun s => s) in
      if negb (prio (tasks s p) <? hp_curr (rq_rt (rqs s me))) then ret false else
      if prio (tasks s p) <? prio (tasks s (curr (rqs s src))) then ret false else
      do! deactivate_task_op src p 0 in
      do! set_task_cpu_op p me in
      do! activate_task_op me p 0 in
      ret true
  end.

Fixpoint pull_rt_task_loop `{CoreOps} (me : cpu) (l : list cpu) (resched : bool) : K bool :=
  match l with
  | [] => ret resched
  | i :: l =>
      if i =? me then pull_rt_task_loop me l resched else
      let! pulled := pull_from me i in
      pull_rt_task_loop me l (resched || pulled)
  end.

Definition pull_rt_task `{SchedFeat, CoreOps} (me : cpu) : K unit :=
  let! s := gets (fun s => s) in
  let rt_overload_count := rt_overloaded s in
  if rt_overload_count =? 0 then ret tt else
  if (rt_overload_count =? 1) && cpumask_test_cpu me (rto_mask (rd s)) then ret tt else
  if sched_feat RT_PUSH_IPI then tell_cpu_to_push else
  let! resched := pull_rt_task_loop me (rto_mask (rd s)) false in
  when resched (resched_curr me).

(** ** The other methods of the class *)

Definition pick_next_task_rt `{SchedFeat, CoreOps, PutPrev} (c : cpu) (prev : task) : K picked :=
  let! need := need_pull_rt_task c prev in
  do! when need (pull_rt_task c) in
  let! s := gets (fun s => s) in
  let r := rqs s c in
  let retry := match stop r with Some p => task_on_rq_queued (tasks s p) | None => false end
               || negb (dl_nr_running r =? 0) in
  if need && retry then ret RETRY_TASK else
  let! t := get_task prev in
  do! when (bool_decide (sched_class t = rt_sched_class)) (update_curr_rt c) in
  let! r := get_rt c in
  if rt_queued r =? 0 then ret NO_TASK else
  do! put_prev_task c prev in
  let! p := _pick_next_task_rt c in
  do! dequeue_pushable_task c p in
  do! rt_queue_push_tasks c in
  ret (PICKED p).

Definition task_woken_rt `{Cpupri, Topology, CoreOps} (c : cpu) (p : task) : K unit :=
  let! s := gets (fun s => s) in
  let t := tasks s p in
  let tc := tasks s (curr (rqs s c)) in
  when (negb (task_running t) && negb (tif_need_resched tc) && (1 <? nr_cpus_allowed t)
        && (dl_task tc || rt_task tc)
        && ((nr_cpus_allowed tc <? 2) || (prio tc <=? prio t)))
    (push_rt_tasks c).

Definition rq_online_rt (c : cpu) : K unit :=
  let! r := get_rt c in
  do! when (negb (overloaded r =? 0)) (rt_set_overload c) in
  do! __enable_runtime c in
  let! r := get_rt c in
  cpupri_set c (hp_curr r).

Definition rq_offline_rt (c : cpu) : K unit :=
  let! r := get_rt c in
  do! when (negb (overloaded r =? 0)) (rt_clear_overload c) in
  do! __disable_runtime c in
  cpupri_set c CPUPRI_INVALID.

Definition switched_from_rt (c : cpu) (p : task) : K unit :=
  let! t := get_task p in
  let! r := get_rt c in
  if negb (task_on_rq_queued t) || negb (rt_nr_running r =? 0) then ret tt else
  rt_queue_pull_task c.

Definition switched_to_rt (c : cpu) (p : task) : K unit :=
  let! s := gets (fun s => s) in
  let t := tasks s p in
  let r := rqs s c in
  if task_on_rq_queued t && negb (bool_decide (curr r = p)) then
    do! when ((1 <? nr_cpus_allowed t) && negb (overloaded (rq_rt r) =? 0))
          (rt_queue_push_tasks c) in
    let! s := gets (fun s => s) in
    when ((prio (tasks s p) <? prio (tasks s (curr (rqs s c))))
          && bool_decide (c ∈ online_cpus s))
      (resched_curr c)
  else ret tt.

Definition prio_changed_rt (c : cpu) (p : task) (oldprio : Z) : K unit :=
  let! s := gets (fun s => s) in
  let t := tasks s p in
  if negb (task_on_rq_queued t) then ret tt else
  if bool_decide (curr (rqs s c) = p) then
    do! when (oldprio <? prio t) (rt_queue_pull_task c) in
    let! r := get_rt c in
    when (hp_curr r <? prio t) (resched_curr c)
  else
    when (prio t <? prio (tasks s (curr (rqs s c)))) (resched_curr c).

Definition watchdog `{Rlimits} (c : cpu) (p : task) : K unit :=
  let soft := rlimit_rttime p in
  let hard := rlimit_rttime_max p in
  if soft =? RLIM_INFINITY then ret tt else
  let! s := gets (fun s => s) in
  do! when (negb (watchdog_stamp (rt (tasks s p)) =? jiffies s))
    (do! set_rt_se p (fun e => e <| timeout ::= fun n => u64 (n + 1) |>) in
     set_rt_se p (fun e => e <| watchdog_stamp := jiffies s |>)) in
  let tick := USEC_PER_SEC / HZ in
  let next := u64 (Z.min soft hard + (tick - 1)) / tick in
  let! t := get_task p in
  when (next <? timeout (rt t))
    (set_task p (fun t => t <| sched_exp := sum_exec_runtime (se t) |>)).

(** [run_list.prev != run_list.next]: the entity is not alone on its list. *)
Definition shares_list (p : task) (q : list (list task)) : bool :=
  existsb (fun l => bool_decide (p ∈ l) && (1 <? Z.of_nat (length l))) q.

Definition task_tick_rt `{SchedFeat, Rlimits} (c : cpu) (p : task) (queued : Z) : K unit :=
  do! update_curr_rt c in
  do! watchdog c p in
  let! t := get_task p in
  if negb (policy t =? SCHED_RR) then ret tt else
  do! set_rt_se p (fun e => e <| rt_time_slice ::= fun n => u32 (n - 1) |>) in
  let! t := get_task p in
  if negb (rt_time_slice (rt t) =? 0) then ret tt else
  let! slice := gets sched_rr_timeslice in
  do! set_rt_se p (fun e => e <| rt_time_slice := u32 slice |>) in
  let! t := get_task p in
  let! r := get_rt (task_cpu t) in
  when (shares_list p (rt_queue r))
    (do! requeue_task_rt c p false in
     resched_curr c).

Definition set_curr_task_rt (c : cpu) : K unit :=
  let! r := get_rq c in
  do! set_task (curr r) (fun t => t <| se ::= fun e => e <| exec_start := clock_task r |> |>) in
  dequeue_pushable_task c (curr r).

Definition get_rr_interval_rt (c : cpu) (p : task) : K Z :=
  let! s := gets (fun s => s) in
  ret (if policy (tasks s p) =? SCHED_RR then u32 (sched_rr_timeslice s) else 0).

(** ** What the operations do to a run queue

    The operations on task [p] of CPU [c] change the [rt_rq] of [c] and the
    entity of [p]; the functions below say how. *)

(** [s'] is [s] with [F] applied to [c]'s [rt_rq] and [G] to [p]'s entity; the
    root domain and the bandwidth may have changed. *)
Record rt_eff (c : cpu) (p : task) (F : rt_rq -> rt_rq)
    (G : sched_rt_entity -> sched_rt_entity) (s s' : kstate) : Prop := {
  eff_rq : rqs s' c = rqs s c <| rq_rt ::= F |>;
  eff_rqs : forall i, i <> c -> rqs s' i = rqs s i;
  eff_task : tasks s' p = tasks s p <| rt ::= G |>;
  eff_tasks : forall x, x <> p -> tasks s' x = tasks s x
}.

(** [update_rt_migration] on the flag. *)
Definition mig_update (r : rt_rq) : rt_rq :=
  if negb (rt_nr_migratory r =? 0) && (1 <? rt_nr_total r) then
    if overloaded r =? 0 then r <| overloaded := 1 |> else r
  else if overloaded r =? 0 then r else r <| overloaded := 0 |>.

Definition add_migration (t : task_struct) (n : Z) (r : rt_rq) : rt_rq :=
  mig_update (r <| rt_nr_total ::= fun x => u64 (x + n) |>
                <| rt_nr_migratory ::= fun x => if 1 <? nr_cpus_allowed t then u64 (x + n) else x |>).

Definition inc_tasks (t : task_struct) (r : rt_rq) : rt_rq :=
  add_migration t 1
    (r <| rt_nr_running ::= fun n => u32 (n + 1) |>
       <| rr_nr_running ::= fun n => u32 (n + rt_se_rr_nr_running t) |>
       <| hp_curr ::= fun h => if prio t <? h then prio t else h |>).

Definition dec_tasks (t : task_struct) (r : rt_rq) : rt_rq :=
  let r1 := r <| rt_nr_running ::= fun n => u32 (n - 1) |>
              <| rr_nr_running ::= fun n => u32 (n - rt_se_rr_nr_running t) |> in
  add_migration t (-1)
    (r1 <| hp_curr ::= fun h => if negb (rt_nr_running r1 =? 0) then
                                  if prio t =? h then sched_find_first_bit (bitmap r1) else h
                                else MAX_RT_PRIO |>).

Section Effects.
Implicit Types (c : cpu) (p : task) (s : kstate).

Lemma rt_eff_refl c p s : rt_eff c p (fun r => r) (fun e => e) s s.
Proof. split; try done; [by destruct (rqs s c) | by destruct (tasks s p)]. Qed.

Lemma rt_eff_trans c p F1 F2 G1 G2 s1 s2 s3 :
  rt_eff c p F1 G1 s1 s2 -> rt_eff c p F2 G2 s2 s3 ->
  rt_eff c p (fun r => F2 (F1 r)) (fun e => G2 (G1 e)) s1 s3.
Proof.
  intros [A1 A2 A3 A4] [B1 B2 B3 B4]. split.
  - by rewrite B1, A1.
  - intros i Hi. by rewrite B2, A2.
  - by rewrite B3, A3.
  - intros x Hx. by rewrite B4, A4.
Qed.

(** Only the value of [F] on [c]'s [rt_rq] matters. *)
Lemma rt_eff_ext c p F F' G G' s s' :
  F (rq_rt (rqs s c)) = F' (rq_rt (rqs s c)) -> G (rt (tasks s p)) = G' (rt (tasks s p)) ->
  rt_eff c p F G s s' -> rt_eff c p F' G' s s'.
Proof.
  intros HF HG [A1 A2 A3 A4]. split; try done.
  - rewrite A1. destruct (rqs s c). simpl in *. unfold upd, rq_rt_field. simpl. by rewrite HF.
  - rewrite A3. destruct (tasks s p). simpl in *. unfold upd, rt_field. simpl. by rewrite HG.
Qed.

Lemma rt_eff_rt c p F G s s' : rt_eff c p F G s s' -> rq_rt (rqs s' c) = F (rq_rt (rqs s c)).
Proof. intros [-> _ _ _]. done. Qed.

Lemma set_rt_eff c p F s : wp (set_rt c F) (fun _ => rt_eff c p F (fun e => e) s) s.
Proof.
  eapply wp_intro; [reflexivity|]. split; simpl.
  - by rewrite fn_lookup_alter.
  - intros i Hi. by rewrite fn_lookup_alter_ne.
  - by destruct (tasks s p).
  - done.
Qed.

Lemma set_rt_se_eff c p G s : wp (set_rt_se p G) (fun _ => rt_eff c p (fun r => r) G s) s.
Proof.
  eapply wp_intro; [reflexivity|]. split; simpl.
  - by destruct (rqs s c).
  - done.
  - by rewrite fn_lookup_alter.
  - intros x Hx. by rewrite fn_lookup_alter_ne.
Qed.

(** Computations that leave run queues and tasks alone. *)
Lemma set_rd_eff c p f s : wp (set_rd f) (fun _ => rt_eff c p (fun r => r) (fun e => e) s) s.
Proof.
  eapply wp_intro; [reflexivity|]. split; try done; simpl;
    [by destruct (rqs s c) | by destruct (tasks s p)].
Qed.

Lemma set_bw_eff c p f s : wp (set_bw f) (fun _ => rt_eff c p (fun r => r) (fun e => e) s) s.
Proof.
  eapply wp_intro; [reflexivity|]. split; try done; simpl;
    [by destruct (rqs s c) | by destruct (tasks s p)].
Qed.

Lemma rt_eff_id_trans c p s1 s2 s3 :
  rt_eff c p (fun r => r) (fun e => e) s1 s2 -> rt_eff c p (fun r => r) (fun e => e) s2 s3 ->
  rt_eff c p (fun r => r) (fun e => e) s1 s3.
Proof. apply rt_eff_trans. Qed.

Lemma rt_set_overload_eff c c' p s :
  wp (rt_set_overload c') (fun _ => rt_eff c p (fun r => r) (fun e => e) s) s.
Proof.
  unfold rt_set_overload, get_rq. wgo. destruct (negb _); [apply rt_eff_refl|]. wgo.
  wcall set_rd_eff. intros [] s1 H1. wcall set_rd_eff. intros [] s2 H2.
  by eapply rt_eff_id_trans.
Qed.

Lemma rt_clear_overload_eff c c' p s :
  wp (rt_clear_overload c') (fun _ => rt_eff c p (fun r => r) (fun e => e) s) s.
Proof.
  unfold rt_clear_overload, get_rq. wgo. destruct (negb _); [apply rt_eff_refl|]. wgo.
  wcall set_rd_eff. intros [] s1 H1. wcall set_rd_eff. intros [] s2 H2.
  by eapply rt_eff_id_trans.
Qed.

Lemma start_rt_bandwidth_eff c p s :
  wp start_rt_bandwidth (fun _ => rt_eff c p (fun r => r) (fun e => e) s) s.
Proof.
  unfold start_rt_bandwidth. wgo. destruct (_ || _); [apply rt_eff_refl|].
  wstep; [|apply rt_eff_refl]. wgo. wcall set_bw_eff. intros [] s1 H1.
  wcall set_bw_eff. intros [] s2 H2. by eapply rt_eff_id_trans.
Qed.

Lemma update_rt_migration_eff c p s :
  wp (update_rt_migration c) (fun _ => rt_eff c p mig_update (fun e => e) s) s.
Proof.
  unfold update_rt_migration, get_rt. wgo.
  assert (Hid : forall b : bool, mig_update (rq_rt (rqs s c)) = rq_rt (rqs s c) ->
    rt_eff c p mig_update (fun e => e) s s).
  { intros _ Hm. eapply rt_eff_ext; [| |apply rt_eff_refl]; [by rewrite Hm | done]. }
  assert (Hset : forall (m : K unit) v, wp m (fun _ => rt_eff c p (fun r => r) (fun e => e) s) s ->
    mig_update (rq_rt (rqs s c)) = rq_rt (rqs s c) <| overloaded := v |> ->
    wp (do! m in set_rt c (fun r => r <| overloaded := v |>))
       (fun _ => rt_eff c p mig_update (fun e => e) s) s).
  { intros m v Hm Hv. wgo. eapply wp_mono; [exact Hm|]. intros [] s1 H1. cbv beta.
    wcall set_rt_eff. intros [] s2 H2. eapply rt_eff_ext; [| |by eapply rt_eff_trans]; done. }
  unfold mig_update in *. destruct (_ && _) eqn:Hc.
  - wstep; [|apply (Hid true); by rewrite H].
    apply Hset; [apply rt_set_overload_eff | by rewrite H].
  - wstep; [|apply (Hid true); apply negb_false_iff in H; by rewrite H].
    apply Hset; [apply rt_clear_overload_eff | apply negb_true_iff in H; by rewrite H].
Qed.
End Effects.

(** *** Counting *)

Section Counting.
Implicit Types (c : cpu) (p : task) (s : kstate).

(** A sequence of effects, the first one stated. *)
Lemma wp_eff_bind {A B} c p F F' G G' (m : K A) (k : A -> K B) s :
  wp m (fun _ => rt_eff c p F G s) s ->
  (forall a s1, rt_eff c p F G s s1 -> wp (k a) (fun _ => rt_eff c p F' G' s1) s1) ->
  wp (bind m k) (fun _ => rt_eff c p (fun r => F' (F r)) (fun e => G' (G e)) s) s.
Proof.
  intros Hm Hk. wgo. eapply wp_mono; [exact Hm|]. intros a s1 H1. cbv beta.
  eapply wp_mono; [by apply Hk|]. intros b s2 H2. eapply rt_eff_trans; [exact H1 | exact H2].
Qed.

Lemma wp_eff_ext {A} c p F F' G G' (m : K A) s :
  F (rq_rt (rqs s c)) = F' (rq_rt (rqs s c)) -> G (rt (tasks s p)) = G' (rt (tasks s p)) ->
  wp m (fun _ => rt_eff c p F G s) s -> wp m (fun _ => rt_eff c p F' G' s) s.
Proof. intros HF HG H. eapply wp_mono; [exact H|]. intros. by eapply rt_eff_ext. Qed.

(** A conditional change of the [rt_rq]. *)
Lemma when_set_rt_eff c p (b : bool) F s :
  wp (when b (set_rt c F)) (fun _ => rt_eff c p (fun r => if b then F r else r) (fun e => e) s) s.
Proof. destruct b; [apply set_rt_eff | apply rt_eff_refl]. Qed.

Lemma cpupri_eff c c' p (b : bool) pri s :
  wp (when b (cpupri_set c' pri)) (fun _ => rt_eff c p (fun r => r) (fun e => e) s) s.
Proof. destruct b; [apply set_rd_eff | apply rt_eff_refl]. Qed.

Lemma inc_rt_prio_eff c p pr s :
  wp (inc_rt_prio c pr)
     (fun _ => rt_eff c p (fun r => r <| hp_curr ::= fun h => if pr <? h then pr else h |>)
                      (fun e => e) s) s.
Proof.
  unfold inc_rt_prio, get_rt. do 2 wstep.
  eapply wp_eff_ext; [| |eapply wp_eff_bind; [apply when_set_rt_eff|]].
  3: { intros [] s1 _. unfold inc_rt_prio_smp, get_rq. wgo. apply cpupri_eff. }
  - cbv beta. destruct (pr <? _) eqn:E; unfold upd, hp_curr_field; [by rewrite E|].
    rewrite E. by destruct (rq_rt (rqs s c)).
  - done.
Qed.

Lemma dec_rt_prio_eff c p pr s :
  wp (dec_rt_prio c pr)
     (fun _ => rt_eff c p
        (fun r => r <| hp_curr ::= fun h => if negb (rt_nr_running r =? 0) then
                         if pr =? h then sched_find_first_bit (bitmap r) else h
                       else MAX_RT_PRIO |>)
        (fun e => e) s) s.
Proof.
  unfold dec_rt_prio, get_rt. do 2 wstep.
  apply (wp_eff_ext c p (fun r => (if negb (rt_nr_running (rq_rt (rqs s c)) =? 0) then
      fun r => if pr =? hp_curr (rq_rt (rqs s c))
               then r <| hp_curr := sched_find_first_bit (bitmap r) |> else r
    else fun r => r <| hp_curr := MAX_RT_PRIO |>) r) _ (fun e => e)).
  - cbv beta. set (r := rq_rt (rqs s c)). destruct (negb (rt_nr_running r =? 0)) eqn:E;
      unfold upd, hp_curr_field; rewrite ?E; [|done].
    destruct (pr =? hp_curr r); [done | by destruct r].
  - done.
  - apply (wp_eff_bind c p _ (fun r => r) _ (fun e => e)).
    + destruct (negb _); [|apply set_rt_eff]. destruct (pr =? _); [apply set_rt_eff | apply rt_eff_refl].
    + intros [] s1 _. unfold dec_rt_prio_smp, get_rq. wgo. apply cpupri_eff.
Qed.

(** What two additions to the counts of migration do. *)
Lemma migration_eff c p n (b : bool) s :
  wp (do! set_rt c (fun r => r <| rt_nr_total ::= fun x => u64 (x + n) |>) in
      do! when b (set_rt c (fun r => r <| rt_nr_migratory ::= fun x => u64 (x + n) |>)) in
      update_rt_migration c)
     (fun _ => rt_eff c p (fun r => mig_update (r <| rt_nr_total ::= fun x => u64 (x + n) |>
              <| rt_nr_migratory ::= fun x => if b then u64 (x + n) else x |>)) (fun e => e) s) s.
Proof.
  eapply wp_eff_ext; [| |eapply wp_eff_bind; [apply set_rt_eff|]].
  3: { intros [] s1 _. eapply wp_eff_bind; [apply when_set_rt_eff|].
       intros [] s2 _. apply update_rt_migration_eff. }
  - cbv beta. f_equal. by destruct b, (rq_rt (rqs s c)).
  - done.
Qed.

Lemma inc_rt_migration_eff c p s :
  wp (inc_rt_migration c p)
     (fun _ => rt_eff c p (add_migration (tasks s p) 1) (fun e => e) s) s.
Proof. unfold inc_rt_migration, get_task. do 2 wstep. apply migration_eff. Qed.

Lemma dec_rt_migration_eff c p s :
  wp (dec_rt_migration c p)
     (fun _ => rt_eff c p (add_migration (tasks s p) (-1)) (fun e => e) s) s.
Proof. unfold dec_rt_migration, get_task. do 2 wstep. apply migration_eff. Qed.

(** The parts of a task that its entity does not hold. *)
Lemma eff_add_migration c p F G s s1 n :
  rt_eff c p F G s s1 -> add_migration (tasks s1 p) n = add_migration (tasks s p) n.
Proof. intros [_ _ Ht _]. unfold add_migration. by rewrite Ht. Qed.

Lemma inc_rt_tasks_eff c p s :
  wp (inc_rt_tasks c p) (fun _ => rt_eff c p (inc_tasks (tasks s p)) (fun e => e) s) s.
Proof.
  unfold inc_rt_tasks, get_task. do 2 wstep.
  eapply wp_eff_ext; [| |eapply wp_eff_bind; [apply set_rt_eff|]; intros [] s1 H1;
    eapply wp_eff_bind; [apply set_rt_eff|]; intros [] s2 H2;
    eapply wp_eff_bind; [apply inc_rt_prio_eff|]; intros [] s3 H3;
    eapply wp_eff_bind; [|intros [] s4 _; apply start_rt_bandwidth_eff]].
  3: { pose proof (rt_eff_trans _ _ _ _ _ _ _ _ _ (rt_eff_trans _ _ _ _ _ _ _ _ _ H1 H2) H3) as H.
       assert (Hm : wp (inc_rt_migration c p) (fun _ => rt_eff c p (add_migration (tasks s p) 1)
                                                   (fun e => e) s3) s3)
         by (rewrite <- (eff_add_migration _ _ _ _ _ _ 1 H); apply inc_rt_migration_eff).
       exact Hm. }
  - done.
  - done.
Qed.

Lemma dec_rt_tasks_eff c p s :
  wp (dec_rt_tasks c p) (fun _ => rt_eff c p (dec_tasks (tasks s p)) (fun e => e) s) s.
Proof.
  unfold dec_rt_tasks, get_task. do 2 wstep.
  eapply wp_eff_ext; [| |eapply wp_eff_bind; [apply set_rt_eff|]; intros [] s1 H1;
    eapply wp_eff_bind; [apply set_rt_eff|]; intros [] s2 H2;
    eapply wp_eff_bind; [apply dec_rt_prio_eff|]; intros [] s3 H3].
  3: { pose proof (rt_eff_trans _ _ _ _ _ _ _ _ _ (rt_eff_trans _ _ _ _ _ _ _ _ _ H1 H2) H3) as H.
       assert (Hm : wp (dec_rt_migration c p) (fun _ => rt_eff c p (add_migration (tasks s p) (-1))
                                                   (fun e => e) s3) s3)
         by (rewrite <- (eff_add_migration _ _ _ _ _ _ (-1) H); apply dec_rt_migration_eff).
       exact Hm. }
  - done.
  - done.
Qed.
End Counting.

(** *** Linking and unlinking *)

Definition link_rt (head : bool) (p : task) (pr : Z) (r : rt_rq) : rt_rq :=
  let l := default [] (Klist.at_index (rt_queue r) pr) in
  r <| rt_queue ::= Klist.put_at pr (if head then p :: l else l ++ [p]) |>
    <| bitmap ::= <[Z.to_nat pr := true]> |>.

Definition unlink_rt (p : task) (pr : Z) (r : rt_rq) : rt_rq :=
  r <| rt_queue ::= Klist.unlink p |>
    <| bitmap ::= fun b => if Klist.list_empty pr (Klist.unlink p (rt_queue r))
                           then <[Z.to_nat pr := false]> b else b |>.

(** The arrays have their sizes. *)
Definition rt_sized (r : rt_rq) : Prop :=
  length (rt_queue r) = 100%nat /\ length (bitmap r) = 101%nat.

Section Linking.
Implicit Types (c : cpu) (p : task) (s : kstate) (r : rt_rq).

Lemma put_bit_Some i v b :
  0 <= i < Z.of_nat (length b) -> put_bit i v b = Some (<[Z.to_nat i := v]> b).
Proof.
  intros H. unfold put_bit. destruct (Z.leb_spec 0 i); [|lia].
  destruct (Z.ltb_spec i (Z.of_nat (length b))); [done | lia].
Qed.

Lemma set_rt_bit_eff c p i v s :
  0 <= i <= 100 -> rt_sized (rq_rt (rqs s c)) ->
  wp (set_rt_bit c i v)
     (fun _ => rt_eff c p (fun r => r <| bitmap ::= <[Z.to_nat i := v]> |>) (fun e => e) s) s.
Proof.
  intros Hi [_ Hb]. unfold set_rt_bit, get_rt. do 3 wstep.
  rewrite put_bit_Some by lia. cbn [require]. wstep. wcall set_rt_eff. intros [] s1 H1.
  eapply rt_eff_ext; [| |exact H1]; done.
Qed.

Lemma on_rt_queue_eff c p f q s :
  f (rt_queue (rq_rt (rqs s c))) = Some q ->
  wp (on_rt_queue c f) (fun _ => rt_eff c p (fun r => r <| rt_queue := q |>) (fun e => e) s) s.
Proof.
  intros Hf. unfold on_rt_queue, get_rt. do 3 wstep. rewrite Hf. cbn [require]. wstep.
  apply set_rt_eff.
Qed.

Lemma sized_level r i : rt_sized r -> 0 <= i < 100 -> is_Some (Klist.at_index (rt_queue r) i).
Proof. intros [Hq _] Hi. apply Klist.at_index_is_Some. rewrite Hq. lia. Qed.

(** Adding an unlinked task at either end of its queue. *)
Lemma add_rt_queue_eff c p (head : bool) i s :
  p ∉ concat (rt_queue (rq_rt (rqs s c))) -> 0 <= i < 100 -> rt_sized (rq_rt (rqs s c)) ->
  wp (if head then on_rt_queue c (Klist.list_add p i) else on_rt_queue c (Klist.list_add_tail p i))
     (fun _ => rt_eff c p
        (fun r => let l := default [] (Klist.at_index (rt_queue r) i) in
                  r <| rt_queue ::= Klist.put_at i (if head then p :: l else l ++ [p]) |>)
        (fun e => e) s) s.
Proof.
  intros Hp Hi Hs. destruct (sized_level _ i Hs Hi) as [l Hl].
  destruct head; (eapply wp_eff_ext; [| |apply on_rt_queue_eff]; [|done|]).
  2: { apply Klist.list_add_Some. eauto. }
  3: { apply Klist.list_add_tail_Some. eauto. }
  all: cbv beta zeta; by rewrite Hl.
Qed.

(** Linking a task, as [__enqueue_rt_entity] does. *)
Lemma link_eff c p (head : bool) pr s :
  p ∉ concat (rt_queue (rq_rt (rqs s c))) -> 0 <= pr < 100 -> rt_sized (rq_rt (rqs s c)) ->
  wp (do! (if head then on_rt_queue c (Klist.list_add p pr)
           else on_rt_queue c (Klist.list_add_tail p pr)) in
      do! set_rt_bit c pr true in
      set_rt_se p (fun e => e <| on_list := 1 |>))
     (fun _ => rt_eff c p (link_rt head p pr) (fun e => e <| on_list := 1 |>) s) s.
Proof.
  intros Hp Hpr Hs.
  eapply wp_eff_ext; [| |eapply wp_eff_bind; [by apply add_rt_queue_eff|]; intros [] s1 H1;
     eapply wp_eff_bind; [apply set_rt_bit_eff; [lia|]|intros [] s2 _; apply set_rt_se_eff]].
  - done.
  - done.
  - rewrite (rt_eff_rt _ _ _ _ _ _ H1). destruct Hs as [Hq Hb].
    split; [by rewrite <- Hq; apply Klist.length_put | done].
Qed.

(** The effects of the counts, after an effect on the same task. *)
Lemma inc_after c p F G s s1 :
  rt_eff c p F G s s1 ->
  wp (inc_rt_tasks c p) (fun _ => rt_eff c p (inc_tasks (tasks s p)) (fun e => e) s1) s1.
Proof.
  intros [_ _ Ht _]. eapply wp_eff_ext; [| |apply inc_rt_tasks_eff]; [|done].
  unfold inc_tasks, add_migration. by rewrite Ht.
Qed.

Lemma dec_after c p F G s s1 :
  rt_eff c p F G s s1 ->
  wp (dec_rt_tasks c p) (fun _ => rt_eff c p (dec_tasks (tasks s p)) (fun e => e) s1) s1.
Proof.
  intros [_ _ Ht _]. eapply wp_eff_ext; [| |apply dec_rt_tasks_eff]; [|done].
  unfold dec_tasks, add_migration. by rewrite Ht.
Qed.

Lemma __enqueue_rt_entity_eff c p fl s :
  task_cpu (tasks s p) = c ->
  (move_entity fl = true -> p ∉ concat (rt_queue (rq_rt (rqs s c))) /\
     0 <= prio (tasks s p) < 100 /\ rt_sized (rq_rt (rqs s c))) ->
  wp (__enqueue_rt_entity p fl)
     (fun _ => rt_eff c p
        (fun r => inc_tasks (tasks s p)
           (if move_entity fl then link_rt (has fl ENQUEUE_HEAD) p (prio (tasks s p)) r else r))
        (fun e => (if move_entity fl then e <| on_list := 1 |> else e) <| rt_on_rq := 1 |>) s) s.
Proof.
  intros Hc Hm. unfold __enqueue_rt_entity, get_task. do 2 wstep. rewrite Hc.
  apply (wp_eff_bind c p (fun r => if move_entity fl
             then link_rt (has fl ENQUEUE_HEAD) p (prio (tasks s p)) r else r) _
           (fun e => if move_entity fl then e <| on_list := 1 |> else e)
           (fun e => e <| rt_on_rq := 1 |>)).
  - destruct (move_entity fl); cbn [when]; [|apply rt_eff_refl].
    destruct (Hm eq_refl) as (Hp & Hpr & Hs). by apply link_eff.
  - intros [] s1 H1.
    apply (wp_eff_bind c p (fun r => r) _ (fun e => e <| rt_on_rq := 1 |>) (fun e => e)).
    + apply set_rt_se_eff.
    + intros [] s2 H2. eapply inc_after. eapply rt_eff_trans; [exact H1 | exact H2].
Qed.

Lemma __delist_rt_entity_eff c p s :
  0 <= prio (tasks s p) < 100 -> rt_sized (rq_rt (rqs s c)) ->
  wp (__delist_rt_entity c p)
     (fun _ => rt_eff c p (unlink_rt p (prio (tasks s p))) (fun e => e <| on_list := 0 |>) s) s.
Proof.
  intros Hpr Hs. unfold __delist_rt_entity, get_task. do 2 wstep.
  set (F2 := fun r => r <| bitmap ::= fun b => if Klist.list_empty (prio (tasks s p)) (rt_queue r)
                         then <[Z.to_nat (prio (tasks s p)) := false]> b else b |>).
  apply (wp_eff_ext c p (fun r => F2 (r <| rt_queue ::= Klist.unlink p |>)) _
           (fun e => e <| on_list := 0 |>)); [done | done|].
  apply (wp_eff_bind c p _ F2 (fun e => e) (fun e => e <| on_list := 0 |>)); [apply set_rt_eff|].
  intros [] s1 H1. unfold get_rt. do 2 wstep.
  apply (wp_eff_bind c p F2 (fun r => r) (fun e => e) (fun e => e <| on_list := 0 |>));
    [|intros [] s2 _; apply set_rt_se_eff].
  destruct (Klist.list_empty (prio (tasks s p)) (rt_queue (rq_rt (rqs s1 c)))) eqn:He; cbn [when].
  - eapply wp_eff_ext; [| |apply set_rt_bit_eff; [lia|]].
    + cbv beta. unfold F2. by rewrite He.
    + done.
    + rewrite (rt_eff_rt _ _ _ _ _ _ H1). destruct Hs as [Hq Hb].
      split; [by rewrite <- Hq; apply Klist.length_unlink | done].
  - eapply rt_eff_ext; [| |apply rt_eff_refl]; [|done].
    unfold F2. rewrite He. by destruct (rq_rt (rqs s1 c)).
Qed.

Lemma __dequeue_rt_entity_eff c p fl s :
  task_cpu (tasks s p) = c ->
  (move_entity fl = true -> 0 <= prio (tasks s p) < 100 /\ rt_sized (rq_rt (rqs s c))) ->
  wp (__dequeue_rt_entity p fl)
     (fun _ => rt_eff c p
        (fun r => dec_tasks (tasks s p)
           (if move_entity fl then unlink_rt p (prio (tasks s p)) r else r))
        (fun e => (if move_entity fl then e <| on_list := 0 |> else e) <| rt_on_rq := 0 |>) s) s.
Proof.
  intros Hc Hm. unfold __dequeue_rt_entity, get_task. do 2 wstep. rewrite Hc.
  apply (wp_eff_bind c p (fun r => if move_entity fl
             then unlink_rt p (prio (tasks s p)) r else r) _
           (fun e => if move_entity fl then e <| on_list := 0 |> else e)
           (fun e => e <| rt_on_rq := 0 |>)).
  - destruct (move_entity fl); cbn [when]; [|apply rt_eff_refl].
    destruct (Hm eq_refl) as (Hpr & Hs). by apply __delist_rt_entity_eff.
  - intros [] s1 H1.
    apply (wp_eff_bind c p (fun r => r) _ (fun e => e <| rt_on_rq := 0 |>) (fun e => e)).
    + apply set_rt_se_eff.
    + intros [] s2 H2. eapply dec_after. eapply rt_eff_trans; [exact H1 | exact H2].
Qed.
End Linking.

(** *** A run queue and a task *)

(** Like [rt_eff], for a change [H] of [c]'s whole run queue. *)
Record rq_eff (c : cpu) (p : task) (H : rq -> rq)
    (G : sched_rt_entity -> sched_rt_entity) (s s' : kstate) : Prop := {
  req_rq : rqs s' c = H (rqs s c);
  req_rqs : forall i, i <> c -> rqs s' i = rqs s i;
  req_task : tasks s' p = tasks s p <| rt ::= G |>;
  req_tasks : forall x, x <> p -> tasks s' x = tasks s x
}.

Definition dequeue_top_rq (r : rq) : rq :=
  if rt_queued (rq_rt r) =? 0 then r
  else r <| nr_running ::= fun n => u32 (n - rt_nr_running (rq_rt r)) |>
         <| rq_rt ::= fun r => r <| rt_queued := 0 |> |>.

(** [enqueue_pushable_task] and [dequeue_pushable_task]. *)
Definition push_in (pr : Z) (p : task) (r : rt_rq) : rt_rq :=
  r <| pushable_tasks ::= fun l => plist_add pr p (plist_del p l) |>
    <| hp_next ::= fun h => if pr <? h then pr else h |>.

Definition push_out (pr : task -> Z) (p : task) (r : rt_rq) : rt_rq :=
  let l := plist_del p (pushable_tasks r) in
  r <| pushable_tasks := l |>
    <| hp_next := match l with (_, x) :: _ => pr x | [] => MAX_RT_PRIO end |>.

Section RqEffects.
Implicit Types (c : cpu) (p : task) (s : kstate).

Lemma rt_rq_eff c p F G s s' :
  rt_eff c p F G s s' -> rq_eff c p (fun r => r <| rq_rt ::= F |>) G s s'.
Proof. by intros [? ? ? ?]. Qed.

Lemma rq_eff_trans c p H1 H2 G1 G2 s1 s2 s3 :
  rq_eff c p H1 G1 s1 s2 -> rq_eff c p H2 G2 s2 s3 ->
  rq_eff c p (fun r => H2 (H1 r)) (fun e => G2 (G1 e)) s1 s3.
Proof.
  intros [A1 A2 A3 A4] [B1 B2 B3 B4]. split.
  - by rewrite B1, A1.
  - intros i Hi. by rewrite B2, A2.
  - by rewrite B3, A3.
  - intros x Hx. by rewrite B4, A4.
Qed.

Lemma rq_eff_id c p H s s' :
  rqs s' c = H (rqs s c) -> (forall i, i <> c -> rqs s' i = rqs s i) -> tasks s' = tasks s ->
  rq_eff c p H (fun e => e) s s'.
Proof. intros H1 H2 H3. split; try done; rewrite H3; [by destruct (tasks s p) | done]. Qed.

Lemma dequeue_top_eff c p s :
  (rt_queued (rq_rt (rqs s c)) <> 0 -> nr_running (rqs s c) <> 0) ->
  wp (dequeue_top_rt_rq c) (fun _ => rq_eff c p dequeue_top_rq (fun e => e) s) s.
Proof.
  intros Hn. unfold dequeue_top_rt_rq, get_rq, sub_nr_running. do 2 wstep.
  destruct (Z.eqb_spec (rt_queued (rq_rt (rqs s c))) 0) as [H0|H0].
  - apply rq_eff_id; [|done..]. unfold dequeue_top_rq. by rewrite H0.
  - wstep. apply wp_bug_on; [by apply Z.eqb_neq, Hn|].
    unfold set_rt, set_rq. wgo. apply rq_eff_id; [| |done]; simpl.
    + rewrite ?fn_lookup_alter, ?decide_True by done. unfold dequeue_top_rq.
      by rewrite (proj2 (Z.eqb_neq _ _) H0).
    + intros i Hi. destruct (decide (c = i)); [congruence|]. by rewrite ?fn_lookup_alter_ne.
Qed.

Lemma enqueue_top_eff c p s :
  wp (enqueue_top_rt_rq c) (fun _ => rq_eff c p enqueue_top_rq (fun e => e) s) s.
Proof.
  destruct (enqueue_top_run c s) as (g' & b & He & Hc & Hi).
  eapply wp_intro; [exact He|]. by apply rq_eff_id.
Qed.

Lemma enqueue_pushable_task_eff c p s :
  wp (enqueue_pushable_task c p)
     (fun _ => rt_eff c p (push_in (prio (tasks s p)) p) (fun e => e) s) s.
Proof.
  unfold enqueue_pushable_task.
  set (F3 := fun r => r <| hp_next ::= fun h => if prio (tasks s p) <? h then prio (tasks s p) else h |>).
  set (F2 := fun r => r <| pushable_tasks ::= plist_add (prio (tasks s p)) p |>).
  apply (wp_eff_ext c p (fun r => F3 (F2 (r <| pushable_tasks ::= plist_del p |>))) _ (fun e => e));
    [done | done |].
  apply (wp_eff_bind c p (fun r => r <| pushable_tasks ::= plist_del p |>) (fun r => F3 (F2 r))
           (fun e => e) (fun e => e)); [apply set_rt_eff|]. intros [] s1 [_ _ Ht _].
  unfold get_task. do 2 wstep. rewrite Ht. simpl.
  apply (wp_eff_bind c p F2 F3 (fun e => e) (fun e => e)); [apply set_rt_eff|].
  intros [] s2 _. unfold get_rt. do 2 wstep.
  eapply wp_eff_ext; [| |apply when_set_rt_eff]; [|done]. unfold F3.
  destruct (_ <? _) eqn:E; unfold upd, hp_next_field; rewrite E; [done | by destruct (rq_rt (rqs s2 c))].
Qed.

Lemma dequeue_pushable_task_eff c p s :
  wp (dequeue_pushable_task c p)
     (fun _ => rt_eff c p (push_out (fun x => prio (tasks s x)) p) (fun e => e) s) s.
Proof.
  unfold dequeue_pushable_task.
  set (F2 := fun r => r <| hp_next := match pushable_tasks r with
      | (_, x) :: _ => prio (tasks s x) | [] => MAX_RT_PRIO end |>).
  apply (wp_eff_ext c p (fun r => F2 (r <| pushable_tasks ::= plist_del p |>)) _ (fun e => e));
    [done | done |].
  apply (wp_eff_bind c p (fun r => r <| pushable_tasks ::= plist_del p |>) F2 (fun e => e) (fun e => e));
    [apply set_rt_eff|].
  intros [] s1 [_ _ Ht Hts]. unfold get_rt. do 2 wstep.
  destruct (pushable_tasks (rq_rt (rqs s1 c))) as [|[n x] l] eqn:Hl.
  - eapply wp_eff_ext; [| |apply set_rt_eff]; [|done]. unfold F2. by rewrite Hl.
  - unfold get_task. do 2 wstep. eapply wp_eff_ext; [| |apply set_rt_eff]; [|done].
    unfold F2. rewrite Hl. destruct (decide (x = p)) as [->|Hx]; [by rewrite Ht | by rewrite Hts].
Qed.

(** The whole of [enqueue_rt_entity], for a task that is not queued. *)
Lemma enqueue_rt_entity_eff c p fl s :
  task_cpu (tasks s p) = c -> rt_on_rq (rt (tasks s p)) = 0 ->
  (rt_queued (rq_rt (rqs s c)) <> 0 -> nr_running (rqs s c) <> 0) ->
  (move_entity fl = true -> p ∉ concat (rt_queue (rq_rt (rqs s c))) /\
     0 <= prio (tasks s p) < 100 /\ rt_sized (rq_rt (rqs s c))) ->
  wp (enqueue_rt_entity p fl)
     (fun _ => rq_eff c p
        (fun r => enqueue_top_rq (dequeue_top_rq r <| rq_rt ::= fun r => inc_tasks (tasks s p)
           (if move_entity fl then link_rt (has fl ENQUEUE_HEAD) p (prio (tasks s p)) r else r) |>))
        (fun e => (if move_entity fl then e <| on_list := 1 |> else e) <| rt_on_rq := 1 |>) s) s.
Proof.
  intros Hc Hon Hq Hm. unfold enqueue_rt_entity, get_task. do 3 wstep. rewrite Hc.
  unfold dequeue_rt_stack, get_task. do 3 wstep. rewrite Hc.
  eapply wp_mono; [by apply (dequeue_top_eff c p)|]. cbv beta. intros [] s1 H1. do 2 wstep.
  pose proof (req_task _ _ _ _ _ _ H1) as Ht1.
  replace (on_rt_rq (tasks s1 p)) with false
    by (unfold on_rt_rq; rewrite Ht1; simpl; by rewrite Hon).
  cbn [when]. wgo.
  assert (Hdq : rt_queue (rq_rt (rqs s1 c)) = rt_queue (rq_rt (rqs s c)) /\
                bitmap (rq_rt (rqs s1 c)) = bitmap (rq_rt (rqs s c))).
  { rewrite (req_rq _ _ _ _ _ _ H1). unfold dequeue_top_rq. by destruct (_ =? 0). }
  eapply wp_mono; [apply (__enqueue_rt_entity_eff c p fl s1)|]; rewrite Ht1; simpl; [done| |].
  { intros Hmv. unfold rt_sized. destruct Hdq as [-> ->]. by apply Hm. }
  intros [] s2 H2%rt_rq_eff. eapply wp_mono; [apply (enqueue_top_eff c p)|]. intros [] s3 H3.
  pose proof (rq_eff_trans _ _ _ _ _ _ _ _ _ (rq_eff_trans _ _ _ _ _ _ _ _ _ H1 H2) H3) as H.
  exact H.
Qed.

(** The whole of [dequeue_rt_entity], for a queued task. *)
Lemma dequeue_rt_entity_eff c p fl s :
  task_cpu (tasks s p) = c -> rt_on_rq (rt (tasks s p)) <> 0 ->
  (rt_queued (rq_rt (rqs s c)) <> 0 -> nr_running (rqs s c) <> 0) ->
  (move_entity fl = true -> 0 <= prio (tasks s p) < 100 /\ rt_sized (rq_rt (rqs s c))) ->
  wp (dequeue_rt_entity p fl)
     (fun _ => rq_eff c p
        (fun r => enqueue_top_rq (dequeue_top_rq r <| rq_rt ::= fun r => dec_tasks (tasks s p)
           (if move_entity fl then unlink_rt p (prio (tasks s p)) r else r) |>))
        (fun e => (if move_entity fl then e <| on_list := 0 |> else e) <| rt_on_rq := 0 |>) s) s.
Proof.
  intros Hc Hon Hq Hm. unfold dequeue_rt_entity, get_task. do 3 wstep. rewrite Hc.
  unfold dequeue_rt_stack, get_task. do 3 wstep. rewrite Hc.
  eapply wp_mono; [by apply (dequeue_top_eff c p)|]. cbv beta. intros [] s1 H1. do 2 wstep.
  pose proof (req_task _ _ _ _ _ _ H1) as Ht1.
  replace (on_rt_rq (tasks s1 p)) with true
    by (unfold on_rt_rq; rewrite Ht1; simpl; by destruct (Z.eqb_spec (rt_on_rq (rt (tasks s p))) 0)).
  cbn [when].
  assert (Hdq : rt_queue (rq_rt (rqs s1 c)) = rt_queue (rq_rt (rqs s c)) /\
                bitmap (rq_rt (rqs s1 c)) = bitmap (rq_rt (rqs s c))).
  { rewrite (req_rq _ _ _ _ _ _ H1). unfold dequeue_top_rq. by destruct (_ =? 0). }
  eapply wp_mono; [apply (__dequeue_rt_entity_eff c p fl s1)|]; rewrite Ht1; simpl; [done| |].
  { intros Hmv. unfold rt_sized. destruct Hdq as [-> ->]. by apply Hm. }
  intros [] s2 H2%rt_rq_eff. eapply wp_mono; [apply (enqueue_top_eff c p)|]. intros [] s3 H3.
  pose proof (rq_eff_trans _ _ _ _ _ _ _ _ _ (rq_eff_trans _ _ _ _ _ _ _ _ _ H1 H2) H3) as H.
  exact H.
Qed.
End RqEffects.

(** ** The invariant of a run queue *)

Definition overload_flag (r : rt_rq) : Z :=
  b2z (negb (rt_nr_migratory r =? 0) && (1 <? rt_nr_total r)).

(** The tasks that [rt_nr_running] does not count. *)
Definition others (r : rq) : Z :=
  nr_running r - (if rt_queued (rq_rt r) =? 0 then 0 else rt_nr_running (rq_rt r)).

(** The queues and the bitmap. *)
Record rt_array (c : cpu) (t : task -> task_struct) (r : rt_rq) : Prop := {
  ra_sized : rt_sized r;
  ra_delim : bitmap r !! 100%nat = Some true;
  ra_bits : forall i, 0 <= i < 100 ->
    bitmap r !! Z.to_nat i = Some (negb (Klist.list_empty i (rt_queue r)));
  ra_wf : Klist.wf (rt_queue r);
  ra_level : forall i l p, Klist.at_index (rt_queue r) i = Some l -> p ∈ l -> prio (t p) = i;
  ra_on : forall p, p ∈ concat (rt_queue r) -> task_cpu (t p) = c /\ rt_on_rq (rt (t p)) <> 0
}.

(** The counts, for the list [l] of the queued tasks. *)
Record rt_counts (t : task -> task_struct) (l : list task) (r : rt_rq) : Prop := {
  rc_nr : rt_nr_running r = Z.of_nat (length l);
  rc_rr : rr_nr_running r = sumZ (fun p => rt_se_rr_nr_running (t p)) l;
  rc_total : rt_nr_total r = Z.of_nat (length l);
  rc_mig : rt_nr_migratory r = sumZ (fun p => b2z (1 <? nr_cpus_allowed (t p))) l;
  rc_over : overloaded r = overload_flag r
}.

(** The pushable tasks: queued tasks that may run elsewhere, sorted by
    priority. *)
Record rt_push (t : task -> task_struct) (l : list task) (r : rt_rq) : Prop := {
  rp_sorted : StronglySorted Z.le (pushable_tasks r).*1;
  rp_nodup : NoDup (pushable_tasks r).*2;
  rp_task : forall n p, (n, p) ∈ pushable_tasks r ->
    n = prio (t p) /\ p ∈ l /\ 1 < nr_cpus_allowed (t p);
  rp_next : hp_next r = match pushable_tasks r with (n, _) :: _ => n | [] => MAX_RT_PRIO end
}.

(** All but the pushable tasks. *)
Record rt_base (c : cpu) (t : task -> task_struct) (r : rq) : Prop := {
  ri_array : rt_array c t (rq_rt r);
  ri_hp : hp_curr (rq_rt r) = sched_find_first_bit (bitmap (rq_rt r));
  ri_counts : rt_counts t (concat (rt_queue (rq_rt r))) (rq_rt r);
  ri_queued : rt_queued (rq_rt r) <> 0 -> rt_nr_running (rq_rt r) <> 0;
  ri_others : 0 <= others r;
  ri_bound : others r + Z.of_nat (length (concat (rt_queue (rq_rt r)))) < 2 ^ 31
}.

Record rt_inv (c : cpu) (t : task -> task_struct) (r : rq) : Prop := {
  ri_base : rt_base c t r;
  ri_push : rt_push t (concat (rt_queue (rq_rt r))) (rq_rt r)
}.

Section Bitmap.
Implicit Types (b : list bool) (n : nat).

Lemma ffb_spec b n :
  b !! n = Some true ->
  exists k, sched_find_first_bit b = Z.of_nat k /\ (k <= n)%nat /\ b !! k = Some true /\
    forall j, (j < k)%nat -> b !! j = Some false.
Proof.
  revert n. induction b as [|[] b IH]; intros [|n] H; simplify_eq/=.
  - exists O. split_and!; [done|lia|done|lia].
  - exists O. split_and!; [done|lia|done|lia].
  - destruct (IH n H) as (k & -> & Hk & Hb & Hj). exists (S k). split_and!; [lia|lia|done|].
    intros [|j] Hlt; [done|]. apply Hj. lia.
Qed.

Lemma ffb_unique b k :
  b !! k = Some true -> (forall j, (j < k)%nat -> b !! j <> Some true) ->
  sched_find_first_bit b = Z.of_nat k.
Proof.
  intros Hk Hj. destruct (ffb_spec b k Hk) as (m & -> & Hm & Hbm & _).
  destruct (decide (m < k)%nat) as [Hlt|]; [by destruct (Hj m Hlt)|]. lia.
Qed.

(** Setting a bit. *)
Lemma ffb_set b n :
  b !! 100%nat = Some true -> (n <= 100)%nat ->
  sched_find_first_bit (<[n := true]> b) = Z.min (Z.of_nat n) (sched_find_first_bit b).
Proof.
  intros Hd Hn. destruct (ffb_spec b 100 Hd) as (k & -> & Hk & Hb & Hj).
  assert (Hlen : (100 < length b)%nat) by (by eapply lookup_lt_Some).
  destruct (decide (n <= k)%nat).
  - rewrite Z.min_l by lia. apply ffb_unique; [by rewrite list_lookup_insert_eq by lia|].
    intros j Hjn. rewrite list_lookup_insert_ne by lia. rewrite Hj by lia. done.
  - rewrite Z.min_r by lia. apply ffb_unique; [by rewrite list_lookup_insert_ne by lia|].
    intros j Hjk. rewrite list_lookup_insert_ne by lia. rewrite Hj by lia. done.
Qed.
End Bitmap.

Section Plist.
Implicit Types (l : list (Z * task)) (p : task).

Lemma plist_add_perm pr p l : plist_add pr p l ≡ₚ (pr, p) :: l.
Proof.
  induction l as [|n l IH]; [done|]. simpl. destruct (n.1 <=? pr); [|done].
  rewrite IH. apply Permutation_swap.
Qed.

Lemma plist_add_sorted pr p l :
  StronglySorted Z.le l.*1 -> StronglySorted Z.le (plist_add pr p l).*1.
Proof.
  induction l as [|n l IH]; simpl; [by repeat constructor|].
  intros [Hs Hf]%StronglySorted_inv. destruct (Z.leb_spec n.1 pr) as [Hle|Hgt]; simpl.
  - constructor; [by apply IH|]. rewrite Forall_forall in *. intros x Hx.
    apply list_elem_of_fmap in Hx as ([m y] & -> & Hy). rewrite plist_add_perm in Hy.
    apply elem_of_cons in Hy as [[= -> ->]|Hy]; [done|]. apply Hf.
    apply list_elem_of_fmap. by exists (m, y).
  - constructor; [by constructor|]. constructor; [simpl; lia|].
    eapply Forall_impl; [exact Hf|]. simpl. lia.
Qed.

Lemma plist_del_elem n q p l : (n, q) ∈ plist_del p l <-> (n, q) ∈ l /\ q <> p.
Proof. unfold plist_del. rewrite list_elem_of_filter. simpl. tauto. Qed.

Lemma plist_del_sublist p l : plist_del p l `sublist_of` l.
Proof. apply sublist_filter. Qed.

Lemma plist_del_sorted p l : StronglySorted Z.le l.*1 -> StronglySorted Z.le (plist_del p l).*1.
Proof.
  induction l as [|[n q] l IH]; simpl; [done|]. intros [Hs Hf]%StronglySorted_inv.
  unfold plist_del in *. rewrite filter_cons. case_decide; [|by apply IH]. simpl.
  constructor; [by apply IH|]. rewrite Forall_forall in *. intros x Hx. apply Hf.
  apply list_elem_of_fmap in Hx as ([m y] & -> & [_ Hy]%list_elem_of_filter).
  apply list_elem_of_fmap. by exists (m, y).
Qed.

Lemma plist_del_nodup p l : NoDup l.*2 -> NoDup (plist_del p l).*2 /\ p ∉ (plist_del p l).*2.
Proof.
  intros Hnd. split.
  - eapply sublist_NoDup; [exact Hnd|]. apply fmap_sublist, plist_del_sublist.
  - intros ([n q] & -> & Hq)%list_elem_of_fmap. by apply plist_del_elem in Hq as [_ ?].
Qed.

(** The first node of a plist after an addition. *)
Lemma plist_add_head pr p l :
  match plist_add pr p l with (n, _) :: _ => n | [] => MAX_RT_PRIO end
  = match l with (n, _) :: _ => if pr <? n then pr else n | [] => pr end.
Proof.
  destruct l as [|[n q] l]; [done|]. simpl.
  destruct (Z.leb_spec n pr), (Z.ltb_spec pr n); done || lia.
Qed.
End Plist.

(** *** The invariant under each change *)

Section Counts.
Implicit Types (t : task -> task_struct) (l : list task) (r : rt_rq) (p : task).

Lemma mig_update_spec r :
  overloaded r = 0 \/ overloaded r = 1 ->
  mig_update r = r <| overloaded := overload_flag r |>.
Proof.
  intros H. unfold mig_update, overload_flag. destruct r. simpl in *.
  destruct (_ && _); destruct H as [-> | ->]; done.
Qed.

Lemma counts_flag t l r : rt_counts t l r -> overloaded r = 0 \/ overloaded r = 1.
Proof. intros [_ _ _ _ ->]. unfold overload_flag. destruct (_ && _); [by right | by left]. Qed.

Lemma rr_range (t : task_struct) : 0 <= rt_se_rr_nr_running t <= 1.
Proof. unfold rt_se_rr_nr_running. by destruct (_ =? _). Qed.

Lemma b2z_range b : 0 <= b2z b <= 1.
Proof. by destruct b. Qed.

Lemma sum_range (f : task -> Z) l :
  (forall p, 0 <= f p <= 1) -> 0 <= sumZ f l <= Z.of_nat (length l).
Proof.
  intros H. split; [apply sumZ_nonneg; intros; apply H|].
  rewrite <- (Z.mul_1_l (Z.of_nat _)), <- (sumZ_const 1 l). apply sumZ_le. intros; apply H.
Qed.

Lemma counts_perm t l l' r : l ≡ₚ l' -> rt_counts t l r -> rt_counts t l' r.
Proof. intros Hp [? ? ? ? ?]. split; [by rewrite <- Hp..|done]. Qed.

(** The counts see a task's policy and affinity only. *)
Lemma counts_ext t t' l r :
  (forall p, p ∈ l -> policy (t' p) = policy (t p) /\ nr_cpus_allowed (t' p) = nr_cpus_allowed (t p)) ->
  rt_counts t l r -> rt_counts t' l r.
Proof.
  intros He [? Hrr ? Hm ?]. split; try done.
  - rewrite Hrr. apply sumZ_ext. intros p Hp. unfold rt_se_rr_nr_running.
    by destruct (He p Hp) as [-> _].
  - rewrite Hm. apply sumZ_ext. intros p Hp. by destruct (He p Hp) as [_ ->].
Qed.

Lemma inc_tasks_counts t l p r :
  rt_counts t l r -> Z.of_nat (length l) < 2 ^ 31 - 1 -> rt_counts t (p :: l) (inc_tasks (t p) r).
Proof.
  intros Hc Hb. pose proof (counts_flag _ _ _ Hc) as Hf. destruct Hc as [Hn Hrr Ht Hm Ho].
  pose proof (sum_range (fun p => rt_se_rr_nr_running (t p)) l (fun p => rr_range (t p))) as B1.
  pose proof (sum_range (fun p => b2z (1 <? nr_cpus_allowed (t p))) l (fun p => b2z_range _)) as B2.
  pose proof (rr_range (t p)) as B3.
  unfold inc_tasks, add_migration. rewrite mig_update_spec by done.
  split; simpl; rewrite ?sumZ_cons.
  - rewrite Hn, u32_small; lia.
  - rewrite Hrr, u32_small; lia.
  - rewrite Ht, u64_small; lia.
  - rewrite Hm. destruct (1 <? nr_cpus_allowed (t p)); cbn [b2z]; [rewrite u64_small|]; lia.
  - done.
Qed.

Lemma dec_tasks_counts t l p r :
  rt_counts t (p :: l) r -> Z.of_nat (length l) < 2 ^ 31 - 1 -> rt_counts t l (dec_tasks (t p) r).
Proof.
  intros Hc Hb. pose proof (counts_flag _ _ _ Hc) as Hf. destruct Hc as [Hn Hrr Ht Hm Ho].
  rewrite sumZ_cons in Hrr, Hm. cbn [length] in Hn, Ht.
  pose proof (sum_range (fun p => rt_se_rr_nr_running (t p)) l (fun p => rr_range (t p))) as B1.
  pose proof (sum_range (fun p => b2z (1 <? nr_cpus_allowed (t p))) l (fun p => b2z_range _)) as B2.
  pose proof (rr_range (t p)) as B3.
  unfold dec_tasks, add_migration. cbv zeta. rewrite mig_update_spec by done.
  split; simpl.
  - rewrite Hn, u32_small; lia.
  - rewrite Hrr, u32_small; lia.
  - rewrite Ht, u64_small; lia.
  - rewrite Hm. destruct (1 <? nr_cpus_allowed (t p)); cbn [b2z]; [rewrite u64_small|]; lia.
  - done.
Qed.
End Counts.

Section Array.
Implicit Types (t : task -> task_struct) (r : rt_rq) (p : task) (c : cpu) (i : Z).

(** [t'] differs from [t] in [p]'s entity only. *)
Definition entity_only p t t' : Prop :=
  (forall x, x <> p -> t' x = t x) /\ exists G, t' p = t p <| rt ::= G |>.

Lemma entity_only_view p t t' x :
  entity_only p t t' ->
  prio (t' x) = prio (t x) /\ policy (t' x) = policy (t x) /\
  nr_cpus_allowed (t' x) = nr_cpus_allowed (t x) /\ task_cpu (t' x) = task_cpu (t x).
Proof.
  intros [Hx [G Hp]]. destruct (decide (x = p)) as [->|Hne]; [by rewrite Hp | by rewrite Hx].
Qed.

Lemma array_bit c t r i :
  rt_array c t r -> 0 <= i < 100 ->
  (bitmap r !! Z.to_nat i = Some true <-> exists p l, Klist.at_index (rt_queue r) i = Some (p :: l)).
Proof.
  intros [Hs _ Hb _ _ _] Hi. rewrite (Hb i Hi). unfold Klist.list_empty.
  destruct (sized_level r i Hs Hi) as [[|p l] ->]; simpl; [naive_solver | naive_solver].
Qed.

Lemma link_array c t t' r head p pr :
  rt_array c t r -> entity_only p t t' -> p ∉ concat (rt_queue r) ->
  pr = prio (t p) -> 0 <= pr < 100 -> task_cpu (t p) = c -> rt_on_rq (rt (t' p)) <> 0 ->
  rt_array c t' (link_rt head p pr r) /\
  concat (rt_queue (link_rt head p pr r)) ≡ₚ p :: concat (rt_queue r).
Proof.
  intros [Hs Hd Hb Hwf Hl Ho] He Hp Hpr Hr Hc Hon.
  destruct (sized_level r pr Hs Hr) as [l Hat].
  assert (Hin : 0 <= pr < Z.of_nat (length (rt_queue r))) by (destruct Hs as [-> _]; lia).
  set (l' := if head then p :: l else l ++ [p]).
  assert (Hq : rt_queue (link_rt head p pr r) = Klist.put_at pr l' (rt_queue r))
    by (unfold link_rt; simpl; by rewrite Hat).
  assert (Hbm : bitmap (link_rt head p pr r) = <[Z.to_nat pr := true]> (bitmap r)) by done.
  assert (Hl' : forall x, x ∈ l' <-> x = p \/ x ∈ l).
  { intros x. unfold l'. destruct head; set_solver. }
  assert (Hperm : concat (Klist.put_at pr l' (rt_queue r)) ≡ₚ p :: concat (rt_queue r)).
  { unfold l'. destruct head; [by apply Klist.put_head_perm | by apply Klist.put_tail_perm]. }
  split; [|by rewrite Hq]. split; rewrite ?Hq, ?Hbm.
  - destruct Hs as [H1 H2]. split; [by rewrite Hq, Klist.length_put | by rewrite Hbm, length_insert].
  - by rewrite list_lookup_insert_ne by lia.
  - intros i Hi. unfold Klist.list_empty. rewrite Klist.at_index_put by done.
    destruct (decide (pr = i)) as [->|Hne].
    + rewrite list_lookup_insert_eq by (destruct Hs as [_ ->]; lia).
      assert (Hnn : l' <> []) by (unfold l'; destruct head; [done | by destruct l]).
      by destruct l'.
    + rewrite list_lookup_insert_ne by lia. by apply Hb.
  - unfold l'. destruct head; [by apply Klist.wf_put_head | by apply Klist.wf_put_tail].
  - intros i l0 x. rewrite Klist.at_index_put by done.
    destruct (entity_only_view p t t' x He) as [-> _].
    destruct (decide (pr = i)) as [->|Hne]; [|by apply Hl].
    intros [= <-]. rewrite Hl'. intros [->|Hx]; [done | by eapply Hl].
  - intros x. rewrite Hperm. intros Hx.
    destruct (entity_only_view p t t' x He) as (_ & _ & _ & ->).
    destruct (decide (x = p)) as [->|Hne]; [done|].
    destruct He as [He _]. rewrite He by done. apply Ho. set_solver.
Qed.

Lemma link_hp c t r head p pr :
  rt_array c t r -> 0 <= pr < 100 -> hp_curr r = sched_find_first_bit (bitmap r) ->
  sched_find_first_bit (bitmap (link_rt head p pr r))
  = if pr <? hp_curr r then pr else hp_curr r.
Proof.
  intros [_ Hd _ _ _ _] Hr Hh. change (bitmap (link_rt _ _ _ _)) with (<[Z.to_nat pr := true]> (bitmap r)).
  rewrite ffb_set by (done || lia). rewrite Hh, Z2Nat.id by lia.
  destruct (Z.ltb_spec pr (sched_find_first_bit (bitmap r))); lia.
Qed.

Lemma unlink_array c t t' r p pr :
  rt_array c t r -> entity_only p t t' -> p ∈ concat (rt_queue r) -> pr = prio (t p) ->
  rt_array c t' (unlink_rt p pr r) /\
  p :: concat (rt_queue (unlink_rt p pr r)) ≡ₚ concat (rt_queue r) /\ 0 <= pr < 100.
Proof.
  intros [Hs Hd Hb Hwf Hl Ho] He Hp Hpr.
  apply Klist.elem_concat in Hp as Hp'. destruct Hp' as (i & l & Hi & Hpl).
  assert (Hr : 0 <= i < 100).
  { assert (H : is_Some (Klist.at_index (rt_queue r) i)) by eauto.
    apply Klist.at_index_is_Some in H. destruct Hs as [Hlen _]. rewrite Hlen in H. lia. }
  pose proof (Hl i l p Hi Hpl) as Hpi. rewrite <- Hpr in Hpi. subst i.
  split; [|split; [by apply Klist.unlink_perm | done]].
  assert (Hbm : forall n, (n <> Z.to_nat pr)%nat -> bitmap (unlink_rt p pr r) !! n = bitmap r !! n).
  { intros n Hn. unfold unlink_rt. simpl.
    destruct (Klist.list_empty pr _); [by rewrite list_lookup_insert_ne | done]. }
  split.
  - destruct Hs as [H1 H2]. split; [by simpl; rewrite Klist.length_unlink|]. simpl.
    destruct (Klist.list_empty pr _); [by rewrite length_insert | done].
  - rewrite Hbm by lia. done.
  - intros i Hri. destruct (decide (i = pr)) as [->|Hne].
    + unfold unlink_rt. simpl. destruct (Klist.list_empty pr (Klist.unlink p (rt_queue r))) eqn:E.
      * rewrite list_lookup_insert_eq; [done|]. destruct Hs as [_ ->]. lia.
      * rewrite (Hb pr Hr). simpl. f_equal. unfold Klist.list_empty. rewrite Hi.
        by destruct l as [|x l]; [apply not_elem_of_nil in Hpl|].
    + rewrite Hbm by lia. rewrite (Hb i Hri). f_equal. simpl. f_equal.
      unfold Klist.list_empty. rewrite Klist.at_index_unlink.
      destruct (Klist.at_index (rt_queue r) i) as [l0|] eqn:Hl0; [|done]. simpl.
      rewrite Klist.filter_not_elem; [done|]. intros Hx. apply Hne.
      by eapply (Klist.wf_unique (rt_queue r)).
  - simpl. by apply Klist.wf_unlink.
  - intros i l0 x. simpl. rewrite Klist.at_index_unlink.
    intros (l1 & Hl1 & ->)%fmap_Some [_ Hx]%list_elem_of_filter.
    destruct (entity_only_view p t t' x He) as [-> _]. by eapply Hl.
  - intros x. simpl. intros [Hx Hne]%Klist.elem_unlink.
    destruct He as [He _]. rewrite He by done. by apply Ho.
Qed.

(** The highest priority after [p] leaves. *)
Lemma unlink_hp c t r p pr :
  rt_array c t r -> p ∈ concat (rt_queue r) -> pr = prio (t p) ->
  hp_curr r = sched_find_first_bit (bitmap r) ->
  sched_find_first_bit (bitmap (unlink_rt p pr r))
  = (if bool_decide (concat (rt_queue (unlink_rt p pr r)) = []) then MAX_RT_PRIO
     else if pr =? hp_curr r then sched_find_first_bit (bitmap (unlink_rt p pr r))
     else hp_curr r).
Proof.
  intros Ha Hp Hpr Hh.
  destruct (unlink_array c t t r p pr Ha) as (Ha' & Hperm & Hr).
  { split; [done|]. exists (fun e => e). by destruct (t p). }
  { done. }
  { done. }
  case_bool_decide as Hnil.
  - apply (ffb_unique _ 100); [apply Ha'|]. intros j Hj.
    replace j with (Z.to_nat (Z.of_nat j)) by lia.
    rewrite (array_bit c t _ (Z.of_nat j) Ha') by lia. intros (x & l & Hx).
    assert (Hin : x ∈ concat (rt_queue (unlink_rt p pr r)))
      by (eapply Klist.at_index_elem; [exact Hx | by left]).
    rewrite Hnil in Hin. by apply not_elem_of_nil in Hin.
  - destruct (Z.eqb_spec pr (hp_curr r)) as [|Hne]; [done|].
    destruct (ffb_spec (bitmap r) 100 (ra_delim _ _ _ Ha)) as (k & Hk & Hk100 & Hbk & Hj).
    rewrite Hh, Hk. apply ffb_unique.
    + unfold unlink_rt. simpl. destruct (Klist.list_empty _ _); [|done].
      rewrite list_lookup_insert_ne; [done|]. lia.
    + intros j Hjk. unfold unlink_rt. simpl. destruct (Klist.list_empty _ _); [|by rewrite Hj].
      destruct (decide (Z.to_nat pr = j)) as [<-|].
      * rewrite list_lookup_insert_eq; [done|]. destruct (ra_sized _ _ _ Ha) as [_ ->]. lia.
      * rewrite list_lookup_insert_ne by done. by rewrite Hj.
Qed.
End Array.

(** *** The whole run queue *)

(** An [rt_rq] without its share of the CPU and its bandwidth. *)
Definition rt_core (r : rt_rq) : rt_rq :=
  r <| rt_queued := 0 |> <| rt_throttled := 0 |> <| rt_time := 0 |> <| rt_runtime := 0 |>.

Ltac core_fields H :=
  pose proof (f_equal bitmap H); pose proof (f_equal rt_queue H);
  pose proof (f_equal rt_nr_running H); pose proof (f_equal rr_nr_running H);
  pose proof (f_equal hp_curr H); pose proof (f_equal hp_next H);
  pose proof (f_equal rt_nr_migratory H); pose proof (f_equal rt_nr_total H);
  pose proof (f_equal overloaded H); pose proof (f_equal pushable_tasks H); simpl in *.

Section Whole.
Implicit Types (t : task -> task_struct) (r : rq) (p : task) (c : cpu).

Lemma core_array c t x y : rt_core x = rt_core y -> rt_array c t x -> rt_array c t y.
Proof. intros H Ha. core_fields H. destruct Ha. destruct x, y; simpl in *; simplify_eq. by split. Qed.

Lemma core_counts t l x y : rt_core x = rt_core y -> rt_counts t l x -> rt_counts t l y.
Proof. intros H Ha. core_fields H. destruct Ha. destruct x, y; simpl in *; simplify_eq. by split. Qed.

Lemma core_push t l x y : rt_core x = rt_core y -> rt_push t l x -> rt_push t l y.
Proof. intros H Ha. core_fields H. destruct Ha. destruct x, y; simpl in *; simplify_eq. by split. Qed.

Lemma core_base c t r r' :
  rt_core (rq_rt r) = rt_core (rq_rt r') ->
  (rt_queued (rq_rt r') <> 0 -> rt_nr_running (rq_rt r') <> 0) ->
  others r' = others r -> rt_base c t r -> rt_base c t r'.
Proof.
  intros H Hq Ho [Ha Hh Hc _ H0 Hb].
  assert (Eq : rt_queue (rq_rt r') = rt_queue (rq_rt r)) by (symmetry; exact (f_equal rt_queue H)).
  split; rewrite ?Eq, ?Ho.
  - by eapply core_array.
  - pose proof (f_equal bitmap H) as Eb. pose proof (f_equal hp_curr H) as Eh.
    simpl in *. by rewrite <- Eb, <- Eh.
  - by eapply core_counts.
  - done.
  - done.
  - done.
Qed.

Lemma core_inv c t r r' :
  rt_core (rq_rt r) = rt_core (rq_rt r') ->
  (rt_queued (rq_rt r') <> 0 -> rt_nr_running (rq_rt r') <> 0) ->
  others r' = others r -> rt_inv c t r -> rt_inv c t r'.
Proof.
  intros H Hq Ho [Hb Hp]. split; [by eapply core_base|].
  assert (Eq : rt_queue (rq_rt r') = rt_queue (rq_rt r)) by (symmetry; exact (f_equal rt_queue H)).
  rewrite Eq. by eapply core_push.
Qed.

Lemma inv_nr_running c t r :
  rt_base c t r -> rt_queued (rq_rt r) <> 0 -> 0 < rt_nr_running (rq_rt r) <= nr_running r /\
    nr_running r < 2 ^ 31.
Proof.
  intros [_ _ [Hn _ _ _ _] Hq Ho Hb] H. specialize (Hq H). unfold others in *.
  destruct (Z.eqb_spec (rt_queued (rq_rt r)) 0); [done|]. lia.
Qed.

(** The counts of [r] add up. *)
Record rt_topped (r : rq) : Prop := {
  to_queued : rt_queued (rq_rt r) <> 0 -> rt_nr_running (rq_rt r) <> 0;
  to_others : 0 <= others r;
  to_nr : 0 <= rt_nr_running (rq_rt r);
  to_bound : others r + rt_nr_running (rq_rt r) < 2 ^ 31
}.

Lemma base_topped c t r : rt_base c t r -> rt_topped r.
Proof.
  intros [_ _ [Hn _ _ _ _] Hq Ho Hb]. by split; rewrite ?Hn; try lia.
Qed.

Lemma topped_running r : rt_topped r -> rt_queued (rq_rt r) <> 0 -> nr_running r <> 0.
Proof.
  intros [Hq Ho Hn _] H. specialize (Hq H). revert Ho. unfold others.
  rewrite (proj2 (Z.eqb_neq _ _) H). lia.
Qed.

Lemma top_spec r :
  rt_topped r ->
  rt_core (rq_rt (dequeue_top_rq r)) = rt_core (rq_rt r) /\
  rt_queued (rq_rt (dequeue_top_rq r)) = 0 /\ nr_running (dequeue_top_rq r) = others r /\
  curr (dequeue_top_rq r) = curr r.
Proof.
  unfold dequeue_top_rq, others. intros [H0 H1 H2 H3]. unfold others in *.
  destruct (Z.eqb_spec (rt_queued (rq_rt r)) 0) as [H|H]; [split_and!; [done..|lia|done]|].
  split_and!; [done..| |done]. simpl. apply u32_small. lia.
Qed.

Lemma dequeue_top_spec c t r :
  rt_base c t r ->
  rt_core (rq_rt (dequeue_top_rq r)) = rt_core (rq_rt r) /\
  rt_queued (rq_rt (dequeue_top_rq r)) = 0 /\ nr_running (dequeue_top_rq r) = others r /\
  curr (dequeue_top_rq r) = curr r.
Proof. intros Hi. by eapply top_spec, base_topped. Qed.

Lemma enqueue_top_spec r :
  rt_queued (rq_rt r) = 0 -> 0 <= nr_running r -> 0 <= rt_nr_running (rq_rt r) ->
  nr_running r + rt_nr_running (rq_rt r) < 2 ^ 32 ->
  rt_core (rq_rt (enqueue_top_rq r)) = rt_core (rq_rt r) /\
  (rt_queued (rq_rt (enqueue_top_rq r)) <> 0 -> rt_nr_running (rq_rt (enqueue_top_rq r)) <> 0) /\
  others (enqueue_top_rq r) = nr_running r /\ curr (enqueue_top_rq r) = curr r /\
  rt_throttled (rq_rt (enqueue_top_rq r)) = rt_throttled (rq_rt r).
Proof.
  intros Hq H1 H2 H3. unfold enqueue_top_rq. rewrite Hq. cbn [Z.eqb negb orb].
  destruct (rt_rq_throttled (rq_rt r)); cbn [orb].
  { unfold others. rewrite Hq. split_and!; [done|done| |done|done]. cbn. lia. }
  destruct (Z.eqb_spec (rt_nr_running (rq_rt r)) 0) as [H0|H0].
  { unfold others. rewrite Hq. split_and!; [done|done| |done|done]. cbn. lia. }
  unfold others. simpl. split_and!; try done. rewrite u32_small by lia. lia.
Qed.

(** Changing the [rt_rq] between [dequeue_top_rt_rq] and
    [enqueue_top_rt_rq]. *)
Lemma inv_middle c t t' r (F : rt_rq -> rt_rq) :
  let x := F (rq_rt (dequeue_top_rq r)) in
  rt_base c t r ->
  rt_queued x = 0 -> rt_array c t' x -> hp_curr x = sched_find_first_bit (bitmap x) ->
  rt_counts t' (concat (rt_queue x)) x ->
  others r + Z.of_nat (length (concat (rt_queue x))) < 2 ^ 31 ->
  rt_base c t' (enqueue_top_rq (dequeue_top_rq r <| rq_rt ::= F |>)) /\
  rt_core (rq_rt (enqueue_top_rq (dequeue_top_rq r <| rq_rt ::= F |>))) = rt_core x /\
  curr (enqueue_top_rq (dequeue_top_rq r <| rq_rt ::= F |>)) = curr r /\
  others (enqueue_top_rq (dequeue_top_rq r <| rq_rt ::= F |>)) = others r.
Proof.
  intros x Hi Hq Ha Hh Hc Hb.
  destruct (dequeue_top_spec c t r Hi) as (_ & _ & Hn & Hcur).
  pose proof (ri_others _ _ _ Hi) as Ho. pose proof (rc_nr _ _ _ Hc) as Hnr.
  set (r2 := dequeue_top_rq r <| rq_rt ::= F |>).
  assert (Hr2 : nr_running r2 = others r) by done.
  destruct (enqueue_top_spec r2) as (E1 & E2 & E3 & E4 & _); [done|lia|simpl; fold x; lia|simpl; fold x; lia|].
  assert (Hx : rq_rt r2 = x) by done. rewrite Hx in E1.
  split; [|split; [done | split; [by rewrite E4 | by rewrite E3, Hr2]]].
  assert (Eq : rt_queue (rq_rt (enqueue_top_rq r2)) = rt_queue x) by exact (f_equal rt_queue E1).
  split; rewrite ?Eq, ?E3, ?Hr2.
  - by eapply core_array.
  - pose proof (f_equal bitmap E1) as Eb. pose proof (f_equal hp_curr E1) as Eh.
    simpl in Eb, Eh. rewrite Eb, Eh. done.
  - by eapply core_counts.
  - done.
  - done.
  - done.
Qed.

(** The counts leave the queues, and the list of pushable tasks, alone. *)
Lemma inc_tasks_frame ts x :
  rt_queue (inc_tasks ts x) = rt_queue x /\ bitmap (inc_tasks ts x) = bitmap x /\
  pushable_tasks (inc_tasks ts x) = pushable_tasks x /\ hp_next (inc_tasks ts x) = hp_next x /\
  rt_queued (inc_tasks ts x) = rt_queued x /\
  hp_curr (inc_tasks ts x) = (if prio ts <? hp_curr x then prio ts else hp_curr x).
Proof. unfold inc_tasks, add_migration, mig_update. destruct (_ && _), (_ =? _); done. Qed.

Lemma dec_tasks_frame ts x :
  rt_queue (dec_tasks ts x) = rt_queue x /\ bitmap (dec_tasks ts x) = bitmap x /\
  pushable_tasks (dec_tasks ts x) = pushable_tasks x /\ hp_next (dec_tasks ts x) = hp_next x /\
  rt_queued (dec_tasks ts x) = rt_queued x /\
  hp_curr (dec_tasks ts x)
  = (if negb (u32 (rt_nr_running x - 1) =? 0) then
       if prio ts =? hp_curr x then sched_find_first_bit (bitmap x) else hp_curr x
     else MAX_RT_PRIO).
Proof. unfold dec_tasks, add_migration, mig_update. cbv zeta. destruct (_ && _), (_ =? _); done. Qed.

Lemma push_mono t t' l l' x y :
  (forall p, p ∈ l -> p ∈ l') ->
  (forall p, p ∈ l -> prio (t' p) = prio (t p) /\ nr_cpus_allowed (t' p) = nr_cpus_allowed (t p)) ->
  pushable_tasks y = pushable_tasks x -> hp_next y = hp_next x ->
  rt_push t l x -> rt_push t' l' y.
Proof.
  intros Hl Ht Hpu Hne [H1 H2 H3 H4]. split; rewrite ?Hpu, ?Hne; [done..| |done].
  intros n p Hp. destruct (H3 n p Hp) as (? & Hin & ?). destruct (Ht p Hin) as [-> ->]. auto.
Qed.

(** The run queue between the two, still without [p]'s change. *)
Lemma top_view c t r :
  rt_base c t r ->
  let x := rq_rt (dequeue_top_rq r) in
  rt_queue x = rt_queue (rq_rt r) /\ rt_queued x = 0 /\ rt_array c t x /\
  rt_counts t (concat (rt_queue x)) x /\ hp_curr x = sched_find_first_bit (bitmap x) /\
  pushable_tasks x = pushable_tasks (rq_rt r) /\ hp_next x = hp_next (rq_rt r).
Proof.
  intros Hi x. destruct (dequeue_top_spec c t r Hi) as (Hcore & Hq0 & _ & _). fold x in Hcore, Hq0.
  destruct Hi as [Ha Hh Hcnt _ _ _].
  assert (Eq : rt_queue x = rt_queue (rq_rt r)) by exact (f_equal rt_queue Hcore).
  pose proof (f_equal bitmap Hcore) as E1. pose proof (f_equal hp_curr Hcore) as E2.
  split_and!; [done|done|by eapply core_array| | | |].
  - rewrite Eq. by eapply core_counts.
  - simpl in *. by rewrite E1, E2.
  - exact (f_equal pushable_tasks Hcore).
  - exact (f_equal hp_next Hcore).
Qed.

Lemma base_enqueue c t t' r p head :
  rt_base c t r -> entity_only p t t' -> p ∉ concat (rt_queue (rq_rt r)) ->
  0 <= prio (t p) < 100 -> task_cpu (t p) = c -> rt_on_rq (rt (t' p)) <> 0 ->
  others r + Z.of_nat (length (concat (rt_queue (rq_rt r)))) < 2 ^ 31 - 1 ->
  let F x := inc_tasks (t p) (link_rt head p (prio (t p)) x) in
  let r' := enqueue_top_rq (dequeue_top_rq r <| rq_rt ::= F |>) in
  rt_base c t' r' /\
  rt_core (rq_rt r') = rt_core (F (rq_rt (dequeue_top_rq r))) /\
  concat (rt_queue (rq_rt r')) ≡ₚ p :: concat (rt_queue (rq_rt r)) /\ curr r' = curr r /\
  others r' = others r.
Proof.
  intros Hi He Hp Hpr Hc Hon Hb F r'.
  destruct (top_view c t r Hi) as (Eq & Hq0 & Ha & Hcnt & Hh & _).
  pose proof (ri_others _ _ _ Hi) as Ho.
  set (x := rq_rt (dequeue_top_rq r)) in *. rewrite <- Eq in Hp.
  destruct (link_array c t t' x head p (prio (t p)) Ha He Hp eq_refl Hpr Hc Hon) as [Ha2 Hperm].
  set (y := link_rt head p (prio (t p)) x) in *.
  destruct (inc_tasks_frame (t p) y) as (F1 & F2 & _ & _ & F5 & F6).
  assert (Hlen : Z.of_nat (length (concat (rt_queue y)))
                 = Z.of_nat (length (concat (rt_queue (rq_rt r)))) + 1).
  { rewrite Hperm, Eq. cbn [length]. lia. }
  destruct (inv_middle c t t' r F) as (H1 & H2 & H3); fold x; unfold F; fold y; rewrite ?F1.
  - done.
  - by rewrite F5.
  - destruct Ha2 as [[? ?] ? ? ? ? ?]. split; unfold rt_sized; rewrite ?F1, ?F2; done.
  - rewrite F6, F2. change (hp_curr y) with (hp_curr x). symmetry. by apply (link_hp c t).
  - eapply counts_ext; [intros z _; by destruct (entity_only_view p t t' z He) as (_ & ? & ? & _)|].
    eapply counts_perm; [symmetry; exact Hperm|]. apply inc_tasks_counts; [by destruct Hcnt|].
    rewrite Eq. lia.
  - rewrite Hlen. lia.
  - split_and!; [exact H1 | exact H2 | | apply H3 | apply H3].
    pose proof (f_equal rt_queue H2) as E. simpl in E. unfold r'. rewrite E.
    change (F (rq_rt (dequeue_top_rq r))) with (inc_tasks (t p) y). by rewrite F1, Hperm, Eq.
Qed.

Lemma base_dequeue c t t' r p :
  rt_base c t r -> entity_only p t t' -> p ∈ concat (rt_queue (rq_rt r)) ->
  let F x := dec_tasks (t p) (unlink_rt p (prio (t p)) x) in
  let r' := enqueue_top_rq (dequeue_top_rq r <| rq_rt ::= F |>) in
  rt_base c t' r' /\
  rt_core (rq_rt r') = rt_core (F (rq_rt (dequeue_top_rq r))) /\
  p :: concat (rt_queue (rq_rt r')) ≡ₚ concat (rt_queue (rq_rt r)) /\ curr r' = curr r /\
  others r' = others r.
Proof.
  intros Hi He Hp F r'.
  destruct (top_view c t r Hi) as (Eq & Hq0 & Ha & Hcnt & Hh & _).
  pose proof (ri_bound _ _ _ Hi) as Hb. pose proof (ri_others _ _ _ Hi) as Ho.
  set (x := rq_rt (dequeue_top_rq r)) in *. rewrite <- Eq in Hp.
  destruct (unlink_array c t t' x p (prio (t p)) Ha He Hp eq_refl) as (Ha2 & Hperm & Hpr).
  pose proof (unlink_hp c t x p (prio (t p)) Ha Hp eq_refl Hh) as Hhp.
  set (y := unlink_rt p (prio (t p)) x) in *.
  destruct (dec_tasks_frame (t p) y) as (F1 & F2 & _ & _ & F5 & F6).
  assert (Hlen : Z.of_nat (length (concat (rt_queue (rq_rt r))))
                 = Z.of_nat (length (concat (rt_queue y))) + 1).
  { rewrite <- Eq, <- Hperm. cbn [length]. lia. }
  destruct (inv_middle c t t' r F) as (H1 & H2 & H3); fold x; unfold F; fold y; rewrite ?F1.
  - done.
  - by rewrite F5.
  - destruct Ha2 as [[? ?] ? ? ? ? ?]. split; unfold rt_sized; rewrite ?F1, ?F2; done.
  - rewrite F6, F2. change (hp_curr y) with (hp_curr x). rewrite Hhp at 2.
    assert (Hn : rt_nr_running y = Z.of_nat (length (concat (rt_queue y))) + 1).
    { change (rt_nr_running y) with (rt_nr_running x). rewrite (rc_nr _ _ _ Hcnt), Eq. lia. }
    rewrite Hn, u32_small by lia. case_bool_decide as Hnil.
    + rewrite Hnil. done.
    + destruct (Z.eqb_spec (Z.of_nat (length (concat (rt_queue y))) + 1 - 1) 0) as [H0|]; [|done].
      exfalso. apply Hnil, nil_length_inv. lia.
  - eapply counts_ext; [intros z _; by destruct (entity_only_view p t t' z He) as (_ & ? & ? & _)|].
    apply dec_tasks_counts; [|lia]. eapply counts_perm; [symmetry; exact Hperm | by destruct Hcnt].
  - lia.
  - split_and!; [exact H1 | exact H2 | | apply H3 | apply H3].
    pose proof (f_equal rt_queue H2) as E. simpl in E. unfold r'. rewrite E.
    change (F (rq_rt (dequeue_top_rq r))) with (dec_tasks (t p) y). by rewrite F1, Hperm, Eq.
Qed.
End Whole.

Section Pushable.
Implicit Types (t : task -> task_struct) (l : list task) (r : rt_rq) (p : task).

Lemma push_in_inv t l r p :
  rt_push t l r -> p ∈ l -> 1 < nr_cpus_allowed (t p) -> prio (t p) < 100 ->
  rt_push t l (push_in (prio (t p)) p r).
Proof.
  intros [Hs Hnd Ht Hn] Hp Hc Hpr. unfold push_in. split; simpl.
  - by apply plist_add_sorted, plist_del_sorted.
  - rewrite plist_add_perm. simpl. destruct (plist_del_nodup p _ Hnd). by constructor.
  - intros n x. rewrite plist_add_perm. intros [[= -> ->]|Hx]%elem_of_cons; [done|].
    apply plist_del_elem in Hx as [Hx _]. by apply Ht.
  - rewrite plist_add_head, Hn. destruct (pushable_tasks r) as [|[n q] L] eqn:El.
    { simpl. unfold MAX_RT_PRIO. by destruct (Z.ltb_spec (prio (t p)) 100); [|lia]. }
    destruct (Ht n q ltac:(by left)) as [Hnq _]. unfold plist_del. rewrite filter_cons. simpl.
    case_decide as Hq; [done|]. assert (q = p) as -> by (destruct (decide (q = p)); [done | by destruct Hq]).
    rewrite <- Hnq. rewrite Z.ltb_irrefl. fold (plist_del p L).
    destruct (plist_del p L) as [|[n2 q2] L2] eqn:E2; [done|].
    simpl in Hs. apply StronglySorted_inv in Hs as [_ Hall]. rewrite Forall_forall in Hall.
    assert (Hin : (n2, q2) ∈ plist_del p L) by (rewrite E2; by left).
    apply plist_del_elem in Hin as [Hin _].
    specialize (Hall n2). destruct (Z.ltb_spec n n2); [done|].
    assert (n <= n2); [|lia]. apply Hall, list_elem_of_fmap. by exists (n2, q2).
Qed.

Lemma push_out_inv t l l' r p :
  rt_push t l r -> (forall x, x ∈ l -> x <> p -> x ∈ l') ->
  rt_push t l' (push_out (fun x => prio (t x)) p r) /\
  p ∉ (pushable_tasks (push_out (fun x => prio (t x)) p r)).*2.
Proof.
  intros [Hs Hnd Ht Hn] Hl. destruct (plist_del_nodup p _ Hnd) as [Hnd' Hp'].
  split; [|exact Hp']. unfold push_out. split; simpl.
  - by apply plist_del_sorted.
  - done.
  - intros n x [Hx Hne]%plist_del_elem. destruct (Ht n x Hx) as (? & ? & ?). auto.
  - destruct (plist_del p (pushable_tasks r)) as [|[n x] L] eqn:E; [done|].
    assert (Hin : (n, x) ∈ plist_del p (pushable_tasks r)) by (rewrite E; by left).
    apply plist_del_elem in Hin as [Hin _]. by destruct (Ht n x Hin) as [-> _].
Qed.

(** Changing the list of pushable tasks does not matter to the rest. *)
Definition only_push (F : rt_rq -> rt_rq) : Prop :=
  forall r, F r = r <| pushable_tasks := pushable_tasks (F r) |> <| hp_next := hp_next (F r) |>.

Lemma push_in_only pr p : only_push (push_in pr p).
Proof. by intros []. Qed.

Lemma push_out_only pr p : only_push (push_out pr p).
Proof. by intros []. Qed.

Lemma only_push_base c t (r : rq) F :
  only_push F -> rt_base c t r -> rt_base c t (r <| rq_rt ::= F |>).
Proof.
  intros HF [[[? ?] ? ? ? ? ?] ? [? ? ? ? ?] ? ? ?]. unfold upd, rq_rt_field.
  rewrite (HF (rq_rt r)). split; [by split | done | by split | done..].
Qed.

(** What the invariant sees of the tasks. *)
Definition same_view t t' : Prop :=
  forall x, prio (t' x) = prio (t x) /\ policy (t' x) = policy (t x) /\
    nr_cpus_allowed (t' x) = nr_cpus_allowed (t x) /\ task_cpu (t' x) = task_cpu (t x) /\
    rt_on_rq (rt (t' x)) = rt_on_rq (rt (t x)).

Lemma same_view_trans t1 t2 t3 : same_view t1 t2 -> same_view t2 t3 -> same_view t1 t3.
Proof.
  intros A B x. destruct (A x) as (? & ? & ? & ? & ?), (B x) as (? & ? & ? & ? & ?).
  split_and!; congruence.
Qed.

Lemma view_base c t t' (r : rq) : same_view t t' -> rt_base c t r -> rt_base c t' r.
Proof.
  intros Hv [[? ? ? ? Hl Ho] ? Hc ? ? ?]. split; [|done| |done..].
  - split; [done..| |].
    + intros i l p Hi Hp. destruct (Hv p) as (-> & _). by eapply Hl.
    + intros p Hp. destruct (Hv p) as (_ & _ & _ & -> & ->). by apply Ho.
  - eapply counts_ext; [|exact Hc]. intros p _. by destruct (Hv p) as (_ & ? & ? & _).
Qed.

Lemma view_inv c t t' (r : rq) : same_view t t' -> rt_inv c t r -> rt_inv c t' r.
Proof.
  intros Hv [Hb Hp]. split; [by eapply view_base|].
  eapply push_mono; [| |reflexivity|reflexivity|exact Hp]; [done|].
  intros x _. by destruct (Hv x) as (? & _ & ? & _).
Qed.

Lemma rt_eff_view c p F s s' : rt_eff c p F (fun e => e) s s' -> same_view (tasks s) (tasks s').
Proof.
  intros [_ _ Ht Hts] x. destruct (decide (x = p)) as [->|Hx]; [by rewrite Ht | by rewrite Hts].
Qed.

(** Rebuilding the state's invariant from a change of one task's entity. *)
Lemma eff_entity c p H G s s' : rq_eff c p H G s s' -> entity_only p (tasks s) (tasks s').
Proof. intros [_ _ Ht Hts]. split; [done | by exists G]. Qed.
End Pushable.

(** ** Enqueuing and dequeuing *)

Section EnqueueDequeue.
Implicit Types (c : cpu) (p : task) (s : kstate).

(** A task that can be enqueued. *)
Record rt_enqueuable c p s : Prop := {
  en_cpu : task_cpu (tasks s p) = c;
  en_off : rt_on_rq (rt (tasks s p)) = 0;
  en_new : p ∉ concat (rt_queue (rq_rt (rqs s c)));
  en_prio : 0 <= prio (tasks s p) < 100;
  en_room : others (rqs s c) + Z.of_nat (length (concat (rt_queue (rq_rt (rqs s c))))) < 2 ^ 31 - 1
}.

Definition rt_queue_of c s : list (list task) := rt_queue (rq_rt (rqs s c)).

Lemma base_top_ok c t r : rt_base c t r -> rt_queued (rq_rt r) <> 0 -> nr_running r <> 0.
Proof. intros Hi Hq. destruct (inv_nr_running c t r Hi Hq). lia. Qed.

Lemma base_sized c t r : rt_base c t r -> rt_sized (rq_rt r).
Proof. intros [[? _ _ _ _ _] _ _ _ _ _]. done. Qed.

Lemma eff_queue_link c t r head p :
  rt_base c t r ->
  rt_queue (inc_tasks (t p) (link_rt head p (prio (t p)) (rq_rt (dequeue_top_rq r))))
  = rt_queue (link_rt head p (prio (t p)) (rq_rt r)).
Proof.
  intros Hi. destruct (inc_tasks_frame (t p) (link_rt head p (prio (t p)) (rq_rt (dequeue_top_rq r))))
    as (-> & _). destruct (top_view c t r Hi) as (Eq & _). unfold link_rt. simpl. by rewrite Eq.
Qed.

Lemma inv_enqueue c t t' r p head :
  rt_inv c t r -> entity_only p t t' -> p ∉ concat (rt_queue (rq_rt r)) ->
  0 <= prio (t p) < 100 -> task_cpu (t p) = c -> rt_on_rq (rt (t' p)) <> 0 ->
  others r + Z.of_nat (length (concat (rt_queue (rq_rt r)))) < 2 ^ 31 - 1 ->
  let r' := enqueue_top_rq (dequeue_top_rq r <| rq_rt ::= fun x =>
              inc_tasks (t p) (link_rt head p (prio (t p)) x) |>) in
  rt_inv c t' r' /\ rt_queue (rq_rt r') = rt_queue (link_rt head p (prio (t p)) (rq_rt r)) /\
  p ∈ concat (rt_queue (rq_rt r')) /\ curr r' = curr r /\
  pushable_tasks (rq_rt r') = pushable_tasks (rq_rt r) /\ others r' = others r.
Proof.
  intros [Hi Hpush] He Hp Hpr Hc Hon Hb r'.
  destruct (base_enqueue c t t' r p head Hi He Hp Hpr Hc Hon Hb) as (H1 & H2 & H3 & H4 & H5). fold r' in H1, H2, H3, H4, H5.
  destruct (top_view c t r Hi) as (_ & _ & _ & _ & _ & P1 & P2).
  destruct (inc_tasks_frame (t p) (link_rt head p (prio (t p)) (rq_rt (dequeue_top_rq r))))
    as (_ & _ & F3 & F4 & _).
  pose proof (f_equal rt_queue H2) as E. simpl in E. split; [split; [exact H1|]|].
  - apply (push_mono t t' (concat (rt_queue (rq_rt r))) _ (rq_rt r)); [| | | |done].
    + intros x Hx. rewrite H3. by right.
    + intros x _. by destruct (entity_only_view p t t' x He) as (? & _ & ? & _).
    + pose proof (f_equal pushable_tasks H2) as Ep. simpl in Ep. rewrite Ep, F3. exact P1.
    + pose proof (f_equal hp_next H2) as Ep. simpl in Ep. rewrite Ep, F4. exact P2.
  - rewrite E. split; [by apply (eff_queue_link c)|]. split; [|split; [done | split; [|done]]].
    + rewrite <- E, H3. by left.
    + pose proof (f_equal pushable_tasks H2) as Ep. simpl in Ep. rewrite Ep, F3. exact P1.
Qed.

Lemma enqueue_task_rt_run c p fl s :
  rt_inv c (tasks s) (rqs s c) -> rt_enqueuable c p s -> move_entity fl = true ->
  wp (enqueue_task_rt c p fl) (fun _ s' =>
    rt_inv c (tasks s') (rqs s' c) /\
    rt_queue_of c s' = rt_queue (link_rt (has fl ENQUEUE_HEAD) p (prio (tasks s p)) (rq_rt (rqs s c))) /\
    p ∈ concat (rt_queue_of c s') /\
    (forall i, i <> c -> rqs s' i = rqs s i) /\ entity_only p (tasks s) (tasks s') /\
    curr (rqs s' c) = curr (rqs s c) /\ others (rqs s' c) = others (rqs s c) /\
    forall x, x ∈ (pushable_tasks (rq_rt (rqs s' c))).*2 ->
      x ∈ (pushable_tasks (rq_rt (rqs s c))).*2 \/ x = p /\ p <> curr (rqs s c)) s.
Proof.
  intros Hinv [Hcpu Hoff Hnew Hprio Hroom] Hmv. unfold enqueue_task_rt. wstep.
  apply (wp_mono _ (fun _ s1 => exists G, rt_eff c p (fun r => r) G s s1 /\
           rt_on_rq (G (rt (tasks s p))) = rt_on_rq (rt (tasks s p)))).
  { wstep.
    - wcall set_rt_se_eff. intros [] s1 H1. eexists. split; [exact H1 | done].
    - exists (fun e => e). split; [apply rt_eff_refl | done]. }
  intros [] s1 (G1 & H1 & Hg). wstep.
  pose proof (eff_task _ _ _ _ _ _ H1) as Ht1.
  assert (Hr1 : rqs s1 c = rqs s c) by (rewrite (eff_rq _ _ _ _ _ _ H1); by destruct (rqs s c)).
  pose proof (ri_base _ _ _ Hinv) as Hbase.
  eapply wp_mono; [apply (enqueue_rt_entity_eff c p fl s1)|]; rewrite ?Ht1, ?Hr1; simpl.
  { done. } { by rewrite Hg. } { by eapply base_top_ok. }
  { intros _. split_and!; [done|lia|lia|by eapply base_sized..]. }
  rewrite Hmv. intros [] s2 H2.
  pose proof (rq_eff_trans _ _ _ _ _ _ _ _ _ (rt_rq_eff _ _ _ _ _ _ H1) H2) as H12.
  pose proof (eff_entity _ _ _ _ _ _ H12) as He.
  assert (Hon : rt_on_rq (rt (tasks s2 p)) <> 0)
    by (rewrite (req_task _ _ _ _ _ _ H2); simpl; done).
  destruct (inv_enqueue c (tasks s) (tasks s2) (rqs s c) p (has fl ENQUEUE_HEAD) Hinv He Hnew
              Hprio Hcpu Hon Hroom) as (I1 & I2 & I3 & I4 & I5 & I6).
  pose proof (req_rq _ _ _ _ _ _ H2) as Hrq2. rewrite Hr1 in Hrq2.
  match type of I1 with rt_inv _ _ ?x => assert (Hrr : rqs s2 c = x) by exact Hrq2 end.
  rewrite <- Hrr in I1, I2, I3, I4, I5, I6.
  assert (Hoth : forall i, i <> c -> rqs s2 i = rqs s i).
  { intros i Hi. rewrite (req_rqs _ _ _ _ _ _ H2), (eff_rqs _ _ _ _ _ _ H1); done. }
  unfold get_rq, get_task. wgo. wstep; [|split_and!; try done; rewrite I5; by left].
  apply andb_true_iff in H as [Hnc Hmc%Z.ltb_lt].
  apply negb_true_iff, bool_decide_eq_false in Hnc. rewrite I4 in Hnc.
  eapply wp_mono; [apply (enqueue_pushable_task_eff c p s2)|]. cbv beta. intros [] s3 H3.
  pose proof (rt_eff_view _ _ _ _ _ H3) as Hv.
  assert (Hpr2 : prio (tasks s2 p) = prio (tasks s p) /\
                 nr_cpus_allowed (tasks s2 p) = nr_cpus_allowed (tasks s p)).
  { by destruct (entity_only_view p _ _ p He) as (? & _ & ? & _). }
  destruct Hpr2 as [Hpr2 Hnc2].
  assert (Hq3 : rt_queue (rq_rt (rqs s3 c)) = rt_queue (rq_rt (rqs s2 c)))
    by (rewrite (eff_rq _ _ _ _ _ _ H3); done).
  split_and!.
  - apply (view_inv _ _ _ _ Hv). split.
    + rewrite (eff_rq _ _ _ _ _ _ H3). apply only_push_base; [apply push_in_only | apply I1].
    + rewrite Hq3, (eff_rq _ _ _ _ _ _ H3). apply push_in_inv; [apply I1 | exact I3 | done | lia].
  - unfold rt_queue_of. rewrite Hq3. exact I2.
  - unfold rt_queue_of. rewrite Hq3. exact I3.
  - intros i Hi. rewrite (eff_rqs _ _ _ _ _ _ H3) by done. by apply Hoth.
  - destruct He as [He [G HG]]. split.
    + intros x Hx. rewrite (eff_tasks _ _ _ _ _ _ H3) by done. by apply He.
    + exists G. rewrite (eff_task _ _ _ _ _ _ H3), HG. done.
  - rewrite (eff_rq _ _ _ _ _ _ H3). exact I4.
  - rewrite (eff_rq _ _ _ _ _ _ H3). exact I6.
  - intros x. rewrite (eff_rq _ _ _ _ _ _ H3). simpl. rewrite plist_add_perm. simpl. rewrite elem_of_cons.
    intros [->|Hx]; [right; by apply not_eq_sym in Hnc|left]. rewrite <- I5.
    apply list_elem_of_fmap in Hx as ([n y] & -> & [Hx _]%plist_del_elem). apply list_elem_of_fmap. eauto.
Qed.
End EnqueueDequeue.

(** ** Accounting does not touch the queues *)

(** What [update_curr_rt] keeps of every CPU and task: [c] may lose its share
    of the run queue, with the tasks uncounted. *)
Record acct_frame (s s' : kstate) : Prop := {
  af_core : forall i, rt_core (rq_rt (rqs s' i)) = rt_core (rq_rt (rqs s i));
  af_curr : forall i, curr (rqs s' i) = curr (rqs s i);
  af_others : forall i, others (rqs s' i) = others (rqs s i);
  af_queued : forall i, rt_queued (rq_rt (rqs s' i)) <> 0 -> rt_queued (rq_rt (rqs s i)) <> 0;
  af_tasks : same_view (tasks s) (tasks s');
  af_rt : forall x, rt (tasks s' x) = rt (tasks s x);
  af_slice : sched_rr_timeslice s' = sched_rr_timeslice s;
  af_class : forall x, sched_class (tasks s' x) = sched_class (tasks s x);
  af_on_rq : forall x, on_rq (tasks s' x) = on_rq (tasks s x)
}.

Section Accounting.
Context `{Hfeat : SchedFeat}.
Implicit Types (c : cpu) (p : task) (s : kstate).

Lemma acct_refl s : acct_frame s s.
Proof. by split. Qed.

Lemma acct_trans s1 s2 s3 : acct_frame s1 s2 -> acct_frame s2 s3 -> acct_frame s1 s3.
Proof.
  intros [A1 A2 A3 A4 A5 A6 A7 A8 A9] [B1 B2 B3 B4 B5 B6 B7 B8 B9].
  split; try (intros i; by rewrite ?B1, ?B2, ?B3, ?B6, ?B8, ?B9).
  - intros i Hi. by apply A4, B4.
  - by eapply same_view_trans.
  - congruence.
Qed.

Lemma acct_base c s s' :
  acct_frame s s' -> rt_base c (tasks s) (rqs s c) -> rt_base c (tasks s') (rqs s' c).
Proof.
  intros [Hc _ Ho Hq Hv _ _ _ _] Hb. apply (view_base _ _ _ _ Hv).
  apply (core_base c (tasks s) (rqs s c)); [done| |done|done].
  intros H%Hq. pose proof (f_equal rt_nr_running (Hc c)) as E. simpl in E. rewrite E.
  by apply Hb.
Qed.

Lemma acct_inv c s s' :
  acct_frame s s' -> rt_inv c (tasks s) (rqs s c) -> rt_inv c (tasks s') (rqs s' c).
Proof.
  intros Hf [Hb Hp]. split; [by eapply acct_base|]. pose proof Hf as [Hc _ _ _ Hv _ _ _ _].
  pose proof (f_equal rt_queue (Hc c)) as E. simpl in E. rewrite E.
  apply (core_push _ _ (rq_rt (rqs s c))); [done|].
  eapply push_mono; [| |reflexivity|reflexivity|exact Hp]; [done|].
  intros x _. by destruct (Hv x) as (? & _ & ? & _).
Qed.

(** A change of a task's accounting fields. *)
Lemma set_task_acct p f s :
  (forall t, prio (f t) = prio t /\ policy (f t) = policy t /\ nr_cpus_allowed (f t) = nr_cpus_allowed t
             /\ task_cpu (f t) = task_cpu t /\ rt (f t) = rt t /\ sched_class (f t) = sched_class t
             /\ on_rq (f t) = on_rq t) ->
  wp (set_task p f) (fun _ => acct_frame s) s.
Proof.
  intros Hf. eapply wp_intro; [reflexivity|]. split; try done.
  - intros x. simpl. destruct (decide (p = x)) as [->|Hx]; [|by rewrite fn_lookup_alter_ne].
    rewrite fn_lookup_alter. by destruct (Hf (tasks s x)) as (? & ? & ? & ? & -> & _).
  - intros x. simpl. destruct (decide (p = x)) as [->|Hx]; [|by rewrite fn_lookup_alter_ne].
    rewrite fn_lookup_alter. apply Hf.
  - intros x. simpl. destruct (decide (p = x)) as [->|Hx]; [|by rewrite fn_lookup_alter_ne].
    rewrite fn_lookup_alter. apply Hf.
  - intros x. simpl. destruct (decide (p = x)) as [->|Hx]; [|by rewrite fn_lookup_alter_ne].
    rewrite fn_lookup_alter. apply Hf.
Qed.

(** A change of [rt_time], [rt_throttled] or [rt_runtime]. *)
Lemma set_rt_acct c f s :
  (forall r, rt_core (f r) = rt_core r /\ rt_queued (f r) = rt_queued r) ->
  wp (set_rt c f) (fun _ => acct_frame s) s.
Proof.
  intros Hf. eapply wp_intro; [reflexivity|].
  assert (H : forall i, let r' := rqs (s <| rqs ::= alter (fun r => r <| rq_rt ::= f |>) c |>) i in
    rt_core (rq_rt r') = rt_core (rq_rt (rqs s i)) /\ curr r' = curr (rqs s i) /\
    others r' = others (rqs s i) /\ rt_queued (rq_rt r') = rt_queued (rq_rt (rqs s i))).
  { intros i. simpl. destruct (decide (c = i)) as [->|Hi]; [|by rewrite fn_lookup_alter_ne].
    rewrite fn_lookup_alter. unfold others. simpl. destruct (Hf (rq_rt (rqs s i))) as [Hc Hq].
    pose proof (f_equal rt_nr_running Hc) as E. simpl in E. by rewrite Hq, E. }
  split; try (intros i; apply H); try done.
  intros i. by destruct (H i) as (_ & _ & _ & ->).
Qed.

Lemma balance_runtime_loop_acct c w per l : forall s,
  wp (balance_runtime_loop c w per l) (fun _ => acct_frame s) s.
Proof.
  induction l as [|i l IH]; intros s; cbn [balance_runtime_loop]; [apply acct_refl|].
  destruct (i =? c); [apply IH|]. unfold get_rt. wgo. destruct (_ =? _); [apply IH|].
  cbv zeta. destruct (0 <? _); [|apply IH]. wgo. wcall set_rt_acct; [done|]. intros [] s1 H1.
  wgo. wcall set_rt_acct; [done|]. intros [] s2 H2. wgo.
  pose proof (acct_trans _ _ _ H1 H2) as H12. destruct (_ =? _); [done|].
  wcall IH. intros [] s3 H3. by eapply acct_trans.
Qed.

Lemma balance_runtime_acct c s : wp (balance_runtime c) (fun _ => acct_frame s) s.
Proof.
  unfold balance_runtime, do_balance_runtime, get_rt. destruct (negb _); [apply acct_refl|]. wgo.
  wstep; [|apply acct_refl]. wgo. apply balance_runtime_loop_acct.
Qed.

Lemma acct_topped c s s' : acct_frame s s' -> rt_topped (rqs s c) -> rt_topped (rqs s' c).
Proof.
  intros Hf [H1 H2 H3 H4]. assert (E : rt_nr_running (rq_rt (rqs s' c)) = rt_nr_running (rq_rt (rqs s c))) by exact (f_equal rt_nr_running (af_core _ _ Hf c)).
  split; rewrite ?(af_others _ _ Hf), ?E; try done. intros H. by apply H1, (af_queued _ _ Hf).
Qed.

Lemma dequeue_top_acct c s :
  rt_topped (rqs s c) -> wp (dequeue_top_rt_rq c) (fun _ => acct_frame s) s.
Proof.
  intros Hb.
  assert (Hs : wp (dequeue_top_rt_rq c) (fun _ s' => sched_rr_timeslice s' = sched_rr_timeslice s) s).
  { unfold dequeue_top_rt_rq, get_rq. wgo. destruct (Z.eqb_spec (rt_queued (rq_rt (rqs s c))) 0); [done|].
    wgo. apply wp_bug_on; [|done]. by apply Z.eqb_neq, topped_running. }
  assert (He : wp (dequeue_top_rt_rq c) (fun _ => rq_eff c 0 dequeue_top_rq (fun e => e) s) s)
    by (apply dequeue_top_eff; by apply topped_running).
  apply wp_done in He as (u & s' & Heq & [Hc Hi Ht Hts]).
  pose proof (wp_elim _ _ _ _ _ Hs Heq) as Hsl. cbv beta in Hsl. apply (wp_intro _ _ _ _ _ Heq).
  destruct (top_spec (rqs s c) Hb) as (E1 & E2 & E3 & E4).
  assert (Ho : others (dequeue_top_rq (rqs s c)) = others (rqs s c))
    by (unfold others at 1; rewrite E2, E3; cbn; lia).
  split.
  - intros i. destruct (decide (i = c)) as [->|]; [by rewrite Hc | by rewrite Hi].
  - intros i. destruct (decide (i = c)) as [->|]; [by rewrite Hc | by rewrite Hi].
  - intros i. destruct (decide (i = c)) as [->|]; [by rewrite Hc | by rewrite Hi].
  - intros i. destruct (decide (i = c)) as [->|]; [by rewrite Hc, E2 | by rewrite Hi].
  - intros x. destruct (decide (x = 0)) as [->|]; [by rewrite Ht | by rewrite Hts].
  - intros x. destruct (decide (x = 0)) as [->|]; [by rewrite Ht | by rewrite Hts].
  - done.
  - intros x. destruct (decide (x = 0)) as [->|]; [by rewrite Ht | by rewrite Hts].
  - intros x. destruct (decide (x = 0)) as [->|]; [by rewrite Ht | by rewrite Hts].
Qed.

Lemma resched_curr_acct c s : wp (resched_curr c) (fun _ => acct_frame s) s.
Proof.
  destruct (resched_curr_run c s) as (ts' & pn & ips & He & Hts & _).
  eapply wp_intro; [exact He|]. split; try done.
  all: intros x; simpl; by destruct (Hts x) as [-> | ->].
Qed.

Lemma sched_rt_runtime_exceeded_acct c s :
  rt_topped (rqs s c) -> wp (sched_rt_runtime_exceeded c) (fun _ => acct_frame s) s.
Proof.
  intros Hb. unfold sched_rt_runtime_exceeded, get_rt. wgo.
  destruct (rt_rq_throttled _); [apply acct_refl|]. destruct (_ <=? _); [apply acct_refl|]. wgo.
  wcall balance_runtime_acct. intros [] s1 H1. wgo.
  destruct (_ =? RUNTIME_INF); [done|]. destruct (_ <? _); [|done]. wgo.
  apply (wp_mono _ (fun _ => acct_frame s)).
  { destruct (negb _); wcall set_rt_acct; try done; intros [] s2 H2; by eapply acct_trans. }
  intros [] s2 H2. wgo. destruct (rt_rq_throttled _); [|done]. wgo. unfold sched_rt_rq_dequeue.
  wcall dequeue_top_acct; [by apply (acct_topped c s)|]. intros [] s3 H3. wgo. by eapply acct_trans.
Qed.

Lemma update_curr_rt_topped c s :
  rt_topped (rqs s c) -> wp (update_curr_rt c) (fun _ => acct_frame s) s.
Proof.
  intros Hb. unfold update_curr_rt, get_rq, get_task, get_rt. wgo.
  destruct (negb _); [apply acct_refl|]. cbv zeta. destruct (_ <=? 0); [apply acct_refl|]. wgo.
  wcall set_task_acct; [done|]. intros [] s1 H1. wgo.
  wcall set_task_acct; [done|]. intros [] s2 H2. wgo.
  pose proof (acct_trans _ _ _ H1 H2) as H12. destruct (negb _); [done|]. wgo.
  wstep; [|done]. wgo. wcall set_rt_acct; [done|]. intros [] s3 H3. wgo.
  pose proof (acct_trans _ _ _ H12 H3) as H13.
  wcall sched_rt_runtime_exceeded_acct; [by apply (acct_topped c s)|]. intros ex s4 H4.
  pose proof (acct_trans _ _ _ H13 H4) as H14. wstep; [|done].
  wcall resched_curr_acct. intros [] s5 H5. by eapply acct_trans.
Qed.

Lemma update_curr_rt_acct c s :
  rt_base c (tasks s) (rqs s c) -> wp (update_curr_rt c) (fun _ => acct_frame s) s.
Proof. intros Hb. by eapply update_curr_rt_topped, base_topped. Qed.
End Accounting.

(** ** Dequeuing *)

Section Dequeue.
Context `{Hfeat : SchedFeat}.
Implicit Types (c : cpu) (p : task) (s : kstate).

Lemma inv_dequeue c t t' r p :
  rt_inv c t r -> entity_only p t t' -> p ∈ concat (rt_queue (rq_rt r)) ->
  let r' := enqueue_top_rq (dequeue_top_rq r <| rq_rt ::= fun x =>
              dec_tasks (t p) (unlink_rt p (prio (t p)) x) |>) in
  let r'' := r' <| rq_rt ::= push_out (fun x => prio (t' x)) p |> in
  rt_inv c t' r'' /\ rt_queue (rq_rt r'') = Klist.unlink p (rt_queue (rq_rt r)) /\
  p ∉ (pushable_tasks (rq_rt r'')).*2 /\ curr r'' = curr r /\
  pushable_tasks (rq_rt r'') = plist_del p (pushable_tasks (rq_rt r)) /\ others r'' = others r.
Proof.
  intros [Hi Hpush] He Hp r' r''.
  destruct (base_dequeue c t t' r p Hi He Hp) as (H1 & H2 & H3 & H4 & H5). fold r' in H1, H2, H3, H4, H5.
  destruct (top_view c t r Hi) as (Eq & _ & _ & _ & _ & P1 & P2).
  destruct (dec_tasks_frame (t p) (unlink_rt p (prio (t p)) (rq_rt (dequeue_top_rq r))))
    as (F1 & _ & F3 & F4 & _).
  pose proof (f_equal rt_queue H2) as E. simpl in E.
  pose proof (f_equal pushable_tasks H2) as Ep. simpl in Ep.
  pose proof (f_equal hp_next H2) as Eh. simpl in Eh.
  assert (Hpush' : rt_push t' (concat (rt_queue (rq_rt r))) (rq_rt r')).
  { apply (push_mono t t' (concat (rt_queue (rq_rt r))) _ (rq_rt r)); [done| | | |done].
    - intros x _. by destruct (entity_only_view p t t' x He) as (? & _ & ? & _).
    - rewrite Ep, F3. exact P1.
    - rewrite Eh, F4. exact P2. }
  destruct (push_out_inv t' (concat (rt_queue (rq_rt r))) (concat (rt_queue (rq_rt r'))) (rq_rt r') p
              Hpush') as [Q1 Q2].
  { intros x Hx Hne. rewrite <- H3 in Hx. apply elem_of_cons in Hx as [?|?]; done. }
  split; [split; [by apply only_push_base; [apply push_out_only|] | exact Q1]|].
  split; [|split; [exact Q2 | split; [exact H4|]]].
  2: { split; [|exact H5]. change (plist_del p (pushable_tasks (rq_rt r')) = plist_del p (pushable_tasks (rq_rt r))).
       by rewrite Ep, F3, <- P1. }
  change (rt_queue (rq_rt r'')) with (rt_queue (rq_rt r')). rewrite E, F1. simpl. by rewrite Eq.
Qed.

Lemma dequeue_task_rt_run c p fl s :
  rt_inv c (tasks s) (rqs s c) -> p ∈ concat (rt_queue_of c s) -> move_entity fl = true ->
  wp (dequeue_task_rt c p fl) (fun _ s' =>
    rt_inv c (tasks s') (rqs s' c) /\
    rt_queue_of c s' = Klist.unlink p (rt_queue_of c s) /\
    p ∉ (pushable_tasks (rq_rt (rqs s' c))).*2 /\ rt_on_rq (rt (tasks s' p)) = 0 /\
    pushable_tasks (rq_rt (rqs s' c)) = plist_del p (pushable_tasks (rq_rt (rqs s c))) /\
    curr (rqs s' c) = curr (rqs s c) /\ others (rqs s' c) = others (rqs s c) /\
    exists s1, acct_frame s s1 /\ entity_only p (tasks s1) (tasks s') /\
      forall i, i <> c -> rqs s' i = rqs s1 i) s.
Proof.
  intros Hinv0 Hp0 Hmv. unfold dequeue_task_rt. wstep.
  wcall update_curr_rt_acct; [apply Hinv0|]. intros [] s1 H1.
  pose proof (acct_inv c _ _ H1 Hinv0) as Hinv.
  assert (Eq : rt_queue_of c s1 = rt_queue_of c s) by exact (f_equal rt_queue (af_core _ _ H1 c)).
  assert (Hp : p ∈ concat (rt_queue_of c s1)) by by rewrite Eq.
  pose proof (ri_base _ _ _ Hinv) as Hbase. pose proof (ri_array _ _ _ Hbase) as Ha.
  destruct (ra_on _ _ _ Ha p Hp) as [Hcpu Hon].
  destruct (unlink_array c _ (tasks s1) _ p (prio (tasks s1 p)) Ha) as (_ & _ & Hpr); [|exact Hp|reflexivity|].
  { split; [done|]. exists (fun e => e). by destruct (tasks s1 p). }
  wstep. eapply wp_mono; [apply (dequeue_rt_entity_eff c p fl s1)|].
  { done. } { done. } { by eapply base_top_ok. }
  { intros _. split; [done | by eapply base_sized]. }
  rewrite Hmv. cbv beta. intros [] s2 H2. pose proof (eff_entity _ _ _ _ _ _ H2) as He.
  destruct (inv_dequeue c (tasks s1) (tasks s2) (rqs s1 c) p Hinv He Hp) as (I1 & I2 & I3 & I4 & I5 & I6).
  eapply wp_mono; [apply (dequeue_pushable_task_eff c p s2)|]. cbv beta. intros [] s3 H3.
  pose proof (rt_eff_view _ _ _ _ _ H3) as Hv.
  assert (Hr3 : rqs s3 c = enqueue_top_rq (dequeue_top_rq (rqs s1 c) <| rq_rt ::= fun x =>
              dec_tasks (tasks s1 p) (unlink_rt p (prio (tasks s1 p)) x) |>)
              <| rq_rt ::= push_out (fun x => prio (tasks s2 x)) p |>).
  { rewrite (eff_rq _ _ _ _ _ _ H3), (req_rq _ _ _ _ _ _ H2). done. }
  cbv zeta in I1, I2, I3, I4, I5, I6. rewrite <- Hr3 in I1, I2, I3, I4, I5, I6.
  split_and!; [by eapply view_inv| |done| | | | |].
  - unfold rt_queue_of at 1. by rewrite I2, <- Eq.
  - rewrite (eff_task _ _ _ _ _ _ H3), (req_task _ _ _ _ _ _ H2). done.
  - rewrite I5. f_equal. exact (f_equal pushable_tasks (af_core _ _ H1 c)).
  - rewrite I4. apply (af_curr _ _ H1).
  - rewrite I6. apply (af_others _ _ H1).
  - exists s1. split; [done|]. split.
    + destruct He as [He [G HG]]. split.
      * intros x Hx. rewrite (eff_tasks _ _ _ _ _ _ H3) by done. by apply He.
      * exists G. rewrite (eff_task _ _ _ _ _ _ H3), HG. done.
    + intros i Hi. by rewrite (eff_rqs _ _ _ _ _ _ H3), (req_rqs _ _ _ _ _ _ H2).
Qed.
End Dequeue.

(** ** Requeuing and picking *)

Section Requeue.
Implicit Types (c : cpu) (p : task) (s : kstate).

(** Moving a queued task to an end of its queue. *)
Definition requeue_q (head : bool) p (pr : Z) (q : list (list task)) : list (list task) :=
  let l := default [] (Klist.at_index (Klist.unlink p q) pr) in
  Klist.put_at pr (if head then p :: l else l ++ [p]) (Klist.unlink p q).

Lemma requeue_array c t r head p :
  rt_array c t r -> p ∈ concat (rt_queue r) ->
  rt_array c t (r <| rt_queue := requeue_q head p (prio (t p)) (rt_queue r) |>) /\
  concat (requeue_q head p (prio (t p)) (rt_queue r)) ≡ₚ concat (rt_queue r).
Proof.
  intros Ha Hp. assert (He : entity_only p t t).
  { split; [done|]. exists (fun e => e). by destruct (t p). }
  destruct (unlink_array c t t r p (prio (t p)) Ha He Hp eq_refl) as (Ha1 & Hperm & Hpr).
  destruct (ra_on _ _ _ Ha p Hp) as [Hcpu Hon].
  destruct (link_array c t t (unlink_rt p (prio (t p)) r) head p (prio (t p)) Ha1 He
              (Klist.unlink_not_elem p _) eq_refl Hpr Hcpu Hon) as [Ha2 Hperm2].
  split; [|by rewrite <- Hperm; exact Hperm2].
  assert (Hb : bitmap (link_rt head p (prio (t p)) (unlink_rt p (prio (t p)) r)) = bitmap r).
  { apply list_eq. intros n.
    assert (Hbit : bitmap r !! Z.to_nat (prio (t p)) = Some true).
    { apply (array_bit c t r _ Ha Hpr). apply Klist.elem_concat in Hp as (i & l & Hi & Hl).
      rewrite (ra_level _ _ _ Ha i l p Hi Hl). destruct l as [|x l]; [by apply not_elem_of_nil in Hl|].
      eauto. }
    destruct (ra_sized _ _ _ Ha) as [_ Hlen].
    unfold link_rt, unlink_rt. simpl. destruct (decide (n = Z.to_nat (prio (t p)))) as [->|Hn].
    - rewrite list_lookup_insert_eq; [done|]. destruct (Klist.list_empty _ _); rewrite ?length_insert; lia.
    - rewrite list_lookup_insert_ne by done.
      destruct (Klist.list_empty _ _); [by rewrite list_lookup_insert_ne | done]. }
  destruct Ha2 as [[A1 A2] A3 A4 A5 A6 A7]. rewrite Hb in *.
  by split.
Qed.

Lemma requeue_rt_entity_run c p head s :
  rt_base c (tasks s) (rqs s c) -> p ∈ concat (rt_queue_of c s) ->
  wp (requeue_rt_entity c p head) (fun _ s' =>
    rt_eff c p (fun r => r <| rt_queue ::= requeue_q head p (prio (tasks s p)) |>) (fun e => e) s s') s.
Proof.
  intros Hi Hp. pose proof (ri_array _ _ _ Hi) as Ha. unfold requeue_rt_entity, get_task. do 2 wstep.
  destruct (ra_on _ _ _ Ha p Hp) as [_ Hon]. unfold on_rt_rq.
  destruct (Z.eqb_spec (rt_on_rq (rt (tasks s p))) 0); [done|]. cbn [negb when].
  assert (He : entity_only p (tasks s) (tasks s)).
  { split; [done|]. exists (fun e => e). by destruct (tasks s p). }
  destruct (unlink_array c _ _ _ p (prio (tasks s p)) Ha He Hp eq_refl) as (Ha1 & _ & Hpr).
  set (F2 := fun r => let l := default [] (Klist.at_index (rt_queue r) (prio (tasks s p))) in
                  r <| rt_queue ::= Klist.put_at (prio (tasks s p)) (if head then p :: l else l ++ [p]) |>).
  apply (wp_eff_ext c p (fun r => F2 (r <| rt_queue ::= Klist.unlink p |>)) _ (fun e => e)); [done|done|].
  apply (wp_eff_bind c p (fun r => r <| rt_queue ::= Klist.unlink p |>) F2 (fun e => e) (fun e => e));
    [apply set_rt_eff|]. intros [] s1 H1.
  apply add_rt_queue_eff; [|done|]; rewrite (rt_eff_rt _ _ _ _ _ _ H1); simpl.
  - apply Klist.unlink_not_elem.
  - destruct (base_sized _ _ _ Hi) as [A B]. split; simpl; [by rewrite Klist.length_unlink | done].
Qed.

Lemma requeue_inv c t (r : rq) p head :
  rt_inv c t r -> p ∈ concat (rt_queue (rq_rt r)) ->
  rt_inv c t (r <| rq_rt ::= fun x => x <| rt_queue ::= requeue_q head p (prio (t p)) |> |>).
Proof.
  intros [[Ha Hh Hc Hq Ho Hb] Hp] Hin.
  destruct (requeue_array c t (rq_rt r) head p Ha Hin) as [Ha' Hperm].
  split; [split|]; simpl; try done.
  - eapply counts_perm; [symmetry; exact Hperm|]. by destruct Hc.
  - rewrite Hperm. exact Hb.
  - apply (push_mono t t (concat (rt_queue (rq_rt r))) _ (rq_rt r)); [|done..].
    intros x Hx. by rewrite Hperm.
Qed.

Lemma yield_task_rt_run c s :
  rt_inv c (tasks s) (rqs s c) -> curr (rqs s c) ∈ concat (rt_queue_of c s) ->
  wp (yield_task_rt c) (fun _ s' =>
    rt_inv c (tasks s') (rqs s' c) /\
    rt_queue_of c s' = requeue_q false (curr (rqs s c)) (prio (tasks s (curr (rqs s c)))) (rt_queue_of c s) /\
    (forall i, i <> c -> rqs s' i = rqs s i) /\ same_view (tasks s) (tasks s')) s.
Proof.
  intros Hi Hp. unfold yield_task_rt, requeue_task_rt, get_rq, get_task. wgo.
  pose proof (ri_base _ _ _ Hi) as Hb.
  destruct (ra_on _ _ _ (ri_array _ _ _ Hb) _ Hp) as [-> _].
  wcall requeue_rt_entity_run; [done|done|]. intros [] s' H.
  pose proof (rt_eff_view _ _ _ _ _ H) as Hv. split_and!.
  - apply (view_inv _ _ _ _ Hv). rewrite (eff_rq _ _ _ _ _ _ H). by apply requeue_inv.
  - unfold rt_queue_of. by rewrite (eff_rq _ _ _ _ _ _ H).
  - apply H.
  - done.
Qed.

(** The first task of the first queue that is not empty. *)
Lemma pick_next_rt_entity_run c s :
  rt_base c (tasks s) (rqs s c) -> concat (rt_queue_of c s) <> [] ->
  wp (pick_next_rt_entity c) (fun p s' => s' = s /\
    (exists l, Klist.at_index (rt_queue_of c s) (prio (tasks s p)) = Some (p :: l)) /\
    prio (tasks s p) = hp_curr (rq_rt (rqs s c)) /\
    forall x, x ∈ concat (rt_queue_of c s) -> prio (tasks s p) <= prio (tasks s x)) s.
Proof.
  intros [Ha Hh _ _ _ _] Hne. unfold pick_next_rt_entity, get_rt. do 2 wstep. cbv zeta.
  destruct (ffb_spec _ _ (ra_delim _ _ _ Ha)) as (k & Hk & Hk100 & Hbk & Hj). rewrite Hk.
  assert (Hlev : forall x, x ∈ concat (rt_queue_of c s) ->
            0 <= prio (tasks s x) < 100 /\ Z.of_nat k <= prio (tasks s x)).
  { intros x Hx. destruct (proj1 (Klist.elem_concat _ _) Hx) as (i & l & Hi & Hl).
    pose proof (ra_level _ _ _ Ha i l x Hi Hl) as ->.
    assert (Hr : 0 <= i < 100).
    { assert (H : is_Some (Klist.at_index (rt_queue_of c s) i)) by eauto.
      apply Klist.at_index_is_Some in H. destruct (ra_sized _ _ _ Ha) as [Hlen _].
      unfold rt_queue_of in H. rewrite Hlen in H. lia. }
    split; [done|]. destruct (Z.lt_ge_cases i (Z.of_nat k)); [|done].
    assert (Hb : bitmap (rq_rt (rqs s c)) !! Z.to_nat i = Some true).
    { apply (array_bit c _ _ i Ha Hr). destruct l; [by apply not_elem_of_nil in Hl | eauto]. }
    rewrite Hj in Hb by lia. done. }
  assert (Hk' : Z.of_nat k < 100).
  { destruct (concat (rt_queue_of c s)) as [|x l] eqn:E; [done|].
    destruct (Hlev x ltac:(by left)). lia. }
  wstep. apply wp_bug_on; [apply Z.leb_gt; unfold MAX_RT_PRIO; lia|].
  assert (Hf : exists p l, Klist.at_index (rt_queue_of c s) (Z.of_nat k) = Some (p :: l)).
  { apply (array_bit c _ _ _ Ha); [lia|]. by rewrite Nat2Z.id. }
  destruct Hf as (p & l & Hl). unfold Klist.list_first. unfold rt_queue_of in *. rewrite Hl.
  cbn [require]. wstep.
  assert (Hp : prio (tasks s p) = Z.of_nat k) by (eapply (ra_level _ _ _ Ha); [exact Hl | by left]).
  rewrite Hp. split_and!; [done | by exists l | by rewrite Hh | ]. intros x Hx. by apply Hlev.
Qed.
End Requeue.

(** ** The other operations keep the invariant *)

Section Keep.
Context `{Hfeat : SchedFeat} `{Hlim : Rlimits}.
Implicit Types (c : cpu) (p : task) (s : kstate).

Definition keeps_rt c s (s' : kstate) : Prop :=
  rt_inv c (tasks s') (rqs s' c) /\ rt_queue_of c s' = rt_queue_of c s.

Lemma keeps_acct c s s' : rt_inv c (tasks s) (rqs s c) -> acct_frame s s' -> keeps_rt c s s'.
Proof.
  intros Hi Hf. split; [by eapply acct_inv|]. exact (f_equal rt_queue (af_core _ _ Hf c)).
Qed.

Lemma queued_prio c s p :
  rt_base c (tasks s) (rqs s c) -> p ∈ concat (rt_queue_of c s) ->
  0 <= prio (tasks s p) < 100 /\ task_cpu (tasks s p) = c /\ rt_on_rq (rt (tasks s p)) <> 0.
Proof.
  intros Hb Hp. pose proof (ri_array _ _ _ Hb) as Ha. split; [|by apply (ra_on _ _ _ Ha)].
  destruct (unlink_array c _ (tasks s) _ p (prio (tasks s p)) Ha) as (_ & _ & ?); [|done|done|done].
  split; [done|]. exists (fun e => e). by destruct (tasks s p).
Qed.

Lemma enqueue_pushable_keeps c p s :
  rt_inv c (tasks s) (rqs s c) -> p ∈ concat (rt_queue_of c s) -> 1 < nr_cpus_allowed (tasks s p) ->
  wp (enqueue_pushable_task c p) (fun _ => keeps_rt c s) s.
Proof.
  intros Hi Hp Hn. wcall enqueue_pushable_task_eff. intros [] s1 H1.
  destruct (queued_prio c s p (ri_base _ _ _ Hi) Hp) as (Hpr & _).
  assert (Hq : rt_queue_of c s1 = rt_queue_of c s)
    by (unfold rt_queue_of; by rewrite (eff_rq _ _ _ _ _ _ H1)).
  split; [|done]. apply (view_inv _ _ _ _ (rt_eff_view _ _ _ _ _ H1)).
  rewrite (eff_rq _ _ _ _ _ _ H1). split.
  - apply only_push_base; [apply push_in_only | apply Hi].
  - apply push_in_inv; [apply Hi | exact Hp | done | lia].
Qed.

Lemma dequeue_pushable_keeps c p s :
  rt_inv c (tasks s) (rqs s c) ->
  wp (dequeue_pushable_task c p) (fun _ s' => keeps_rt c s s' /\
      p ∉ (pushable_tasks (rq_rt (rqs s' c))).*2) s.
Proof.
  intros Hi. wcall dequeue_pushable_task_eff. intros [] s1 H1.
  destruct (push_out_inv (tasks s) (concat (rt_queue_of c s)) (concat (rt_queue_of c s))
              (rq_rt (rqs s c)) p (ri_push _ _ _ Hi) (fun x Hx _ => Hx)) as [Q1 Q2].
  rewrite <- (rt_eff_rt _ _ _ _ _ _ H1) in Q2. split; [|done]. split.
  - apply (view_inv _ _ _ _ (rt_eff_view _ _ _ _ _ H1)). rewrite (eff_rq _ _ _ _ _ _ H1).
    split; [apply only_push_base; [apply push_out_only | apply Hi] | exact Q1].
  - unfold rt_queue_of. by rewrite (eff_rq _ _ _ _ _ _ H1).
Qed.

Lemma keeps_trans c s1 s2 s3 : keeps_rt c s1 s2 -> keeps_rt c s2 s3 -> keeps_rt c s1 s3.
Proof. intros [_ H1] [? H2]. split; [done | congruence]. Qed.

(** [p] is either queued on [c] or on no queue. *)
Lemma put_prev_task_rt_run c p s :
  rt_inv c (tasks s) (rqs s c) ->
  (rt_on_rq (rt (tasks s p)) <> 0 -> p ∈ concat (rt_queue_of c s)) ->
  wp (put_prev_task_rt c p) (fun _ => keeps_rt c s) s.
Proof.
  intros Hi Hp. unfold put_prev_task_rt. wstep. wcall update_curr_rt_acct; [apply Hi|].
  intros [] s1 H1. pose proof (keeps_acct c s s1 Hi H1) as [Hi1 Hq1].
  unfold get_task. do 2 wstep. wstep; [|by split].
  apply andb_true_iff in H as [Hon Hn]. apply Z.ltb_lt in Hn.
  eapply wp_mono; [apply enqueue_pushable_keeps; [done| |done]|].
  - rewrite Hq1. apply Hp. destruct (af_tasks _ _ H1 p) as (_ & _ & _ & _ & <-).
    unfold on_rt_rq in Hon. by destruct (Z.eqb_spec (rt_on_rq (rt (tasks s1 p))) 0).
  - intros [] s2 H2. by eapply keeps_trans.
Qed.

(** Changing a task's accounting, or an entity's slice. *)
Lemma set_task_keeps c p f s :
  (forall t, prio (f t) = prio t /\ policy (f t) = policy t /\ nr_cpus_allowed (f t) = nr_cpus_allowed t
             /\ task_cpu (f t) = task_cpu t /\ rt_on_rq (rt (f t)) = rt_on_rq (rt t)) ->
  rt_inv c (tasks s) (rqs s c) ->
  wp (set_task p f) (fun _ s' => keeps_rt c s s' /\ same_view (tasks s) (tasks s') /\ rqs s' = rqs s) s.
Proof.
  intros Hf Hi. eapply wp_intro; [reflexivity|].
  assert (Hv : same_view (tasks s) (alter f p (tasks s))).
  { intros x. destruct (decide (p = x)) as [->|Hx]; [by rewrite fn_lookup_alter|].
    by rewrite fn_lookup_alter_ne. }
  split; [|done]. split; [by apply (view_inv _ _ _ _ Hv) | done].
Qed.

Lemma pick_rt_run c s :
  rt_inv c (tasks s) (rqs s c) -> concat (rt_queue_of c s) <> [] ->
  wp (let! p := _pick_next_task_rt c in do! dequeue_pushable_task c p in ret p)
     (fun p s' => keeps_rt c s s' /\
        (exists l, Klist.at_index (rt_queue_of c s) (prio (tasks s p)) = Some (p :: l)) /\
        prio (tasks s p) = hp_curr (rq_rt (rqs s c)) /\
        (forall x, x ∈ concat (rt_queue_of c s) -> prio (tasks s p) <= prio (tasks s x)) /\
        p ∉ (pushable_tasks (rq_rt (rqs s' c))).*2) s.
Proof.
  intros Hi Hne. unfold _pick_next_task_rt. do 2 wstep.
  wcall pick_next_rt_entity_run; [apply Hi|done|]. intros p s0 (-> & Hl & Hh & Hmin).
  unfold get_rq. wgo. wcall set_task_keeps; [done|done|]. intros [] s1 (H1 & Hv1 & _). wgo.
  wcall dequeue_pushable_keeps; [apply H1|]. intros [] s2 [H2 Hp2]. wgo.
  split; [by eapply keeps_trans | done].
Qed.

Lemma watchdog_keeps c p s :
  rt_inv c (tasks s) (rqs s c) ->
  wp (watchdog c p) (fun _ s' => keeps_rt c s s' /\ same_view (tasks s) (tasks s') /\ rqs s' = rqs s) s.
Proof.
  intros Hi. assert (Hrefl : keeps_rt c s s /\ same_view (tasks s) (tasks s) /\ rqs s = rqs s) by done.
  unfold watchdog. cbv zeta. destruct (_ =? _); [done|]. wgo.
  apply (wp_mono _ (fun _ s' => keeps_rt c s s' /\ same_view (tasks s) (tasks s') /\ rqs s' = rqs s)).
  { wstep; [|done]. wstep. wcall set_task_keeps; [done|done|]. intros [] s1 (H1 & V1 & R1).
    wcall set_task_keeps; [done|apply H1|]. intros [] s2 (H2 & V2 & R2).
    split; [by eapply keeps_trans | split; [by eapply same_view_trans | congruence]]. }
  intros [] s1 (H1 & V1 & R1). unfold get_task. wgo. wstep; [|done].
  wcall set_task_keeps; [done|apply H1|]. intros [] s2 (H2 & V2 & R2).
  split; [by eapply keeps_trans | split; [by eapply same_view_trans | congruence]].
Qed.
End Keep.

Section Tick.
Context `{Hfeat : SchedFeat} `{Hlim : Rlimits}.
Implicit Types (c : cpu) (p : task) (s : kstate).

(** A task of the invariant shares its list when its level holds others. *)
Lemma shares_list_spec c s p :
  rt_base c (tasks s) (rqs s c) -> p ∈ concat (rt_queue_of c s) ->
  exists l, Klist.at_index (rt_queue_of c s) (prio (tasks s p)) = Some l /\ p ∈ l /\
    shares_list p (rt_queue_of c s) = (1 <? Z.of_nat (length l)).
Proof.
  intros Hb Hp. pose proof (ri_array _ _ _ Hb) as Ha.
  apply Klist.elem_concat in Hp as (i & l & Hi & Hl). pose proof (ra_level _ _ _ Ha i l p Hi Hl) as ->.
  exists l. split_and!; [done..|]. unfold shares_list. apply eq_true_iff_eq.
  rewrite existsb_exists. split.
  - intros (l' & Hl' & H). apply andb_true_iff in H as [Hpl H]. apply bool_decide_eq_true in Hpl.
    apply list_elem_of_In, list_elem_of_lookup in Hl' as [n Hn].
    assert (Hn' : Klist.at_index (rt_queue_of c s) (Z.of_nat n) = Some l').
    { apply Klist.at_index_Some. rewrite Nat2Z.id. split; [lia | done]. }
    pose proof (Klist.wf_unique _ _ _ _ _ _ (ra_wf _ _ _ Ha) Hi Hn' Hl Hpl) as Heq. congruence.
  - intros H. exists l. apply Klist.at_index_Some in Hi as [_ Hi]. split.
    + apply list_elem_of_In. by eapply list_elem_of_lookup_2.
    + rewrite H, andb_true_r. by apply bool_decide_eq_true.
Qed.

(** The slice and the queue after a tick. *)
Definition ticked_rt c p s s' : Prop :=
  let k := rt_time_slice (rt (tasks s p)) in
  let k' := rt_time_slice (rt (tasks s' p)) in
  if negb (policy (tasks s p) =? SCHED_RR) then k' = k /\ rt_queue_of c s' = rt_queue_of c s
  else if negb (u32 (k - 1) =? 0) then
    k' = u32 (k - 1) /\ rt_queue_of c s' = rt_queue_of c s /\ sched_rr_timeslice s' = sched_rr_timeslice s
  else k' = u32 (sched_rr_timeslice s) /\
    if shares_list p (rt_queue_of c s) then
      rt_queue_of c s' = requeue_q false p (prio (tasks s p)) (rt_queue_of c s) /\
      tif_need_resched (tasks s' (curr (rqs s c))) = true
    else rt_queue_of c s' = rt_queue_of c s.

Lemma set_slice_keeps c p v s :
  rt_inv c (tasks s) (rqs s c) ->
  wp (set_rt_se p (fun e => e <| rt_time_slice ::= v |>)) (fun _ s' =>
    keeps_rt c s s' /\ same_view (tasks s) (tasks s') /\ rqs s' = rqs s /\
    rt_time_slice (rt (tasks s' p)) = v (rt_time_slice (rt (tasks s p))) /\
    sched_rr_timeslice s' = sched_rr_timeslice s) s.
Proof.
  intros Hi. pose proof (set_task_keeps c p (fun t => t <| rt ::= fun e => e <| rt_time_slice ::= v |> |>) s)
    as H. apply wp_done in H as (u & s' & He & H1 & H2 & H3); [|done|done].
  injection He as _ <-. eapply wp_intro; [reflexivity|]. split_and!; [done..| |done].
  simpl. by rewrite fn_lookup_alter.
Qed.

Lemma watchdog_slice c p s :
  wp (watchdog c p) (fun _ s' => rt_time_slice (rt (tasks s' p)) = rt_time_slice (rt (tasks s p)) /\
                               sched_rr_timeslice s' = sched_rr_timeslice s) s.
Proof.
  unfold watchdog. cbv zeta. destruct (_ =? _); [done|]. wgo. unfold get_task.
  destruct (negb _); cbn [when]; wgo; unfold set_rt_se, set_task; wgo;
    (wstep; [wgo|]); simpl; rewrite ?fn_lookup_alter, ?decide_True by done; done.
Qed.

Lemma task_tick_rt_run c p q s :
  rt_inv c (tasks s) (rqs s c) -> p ∈ concat (rt_queue_of c s) ->
  wp (task_tick_rt c p q) (fun _ s' => rt_inv c (tasks s') (rqs s' c) /\
    same_view (tasks s) (tasks s') /\ ticked_rt c p s s') s.
Proof.
  intros Hi Hp. unfold task_tick_rt. wstep. wcall update_curr_rt_acct; [apply Hi|]. intros [] s1 H1.
  pose proof (keeps_acct c s s1 Hi H1) as [Hi1 Hq1]. wstep.
  eapply wp_mono; [apply wp_and; [by apply watchdog_keeps | apply watchdog_slice]|].
  intros [] s2 (([Hi2 Hq2] & V2 & R2) & Hk2 & Hs2). unfold get_task, get_rt. do 2 wstep.
  rewrite (af_rt _ _ H1) in Hk2. rewrite (af_slice _ _ H1) in Hs2.
  pose proof (same_view_trans _ _ _ (af_tasks _ _ H1) V2) as V.
  destruct (V p) as (Ep & Epol & _ & Ecpu & _). rewrite Epol. unfold ticked_rt. cbv zeta.
  destruct (negb (policy (tasks s p) =? SCHED_RR)).
  { wgo. split_and!; [done|done|done|congruence]. }
  wstep. wcall set_slice_keeps; [done|]. intros [] s3 ([Hi3 Hq3] & V3 & R3 & Hk3 & Hs3). wgo.
  rewrite Hk3, Hk2. destruct (negb (u32 _ =? 0)).
  { wgo. split_and!; [done|by eapply same_view_trans|congruence..]. }
  wgo. wcall set_slice_keeps; [done|]. intros [] s4 ([Hi4 Hq4] & V4 & R4 & Hk4 & _). wgo.
  pose proof (same_view_trans _ _ _ (same_view_trans _ _ _ V V3) V4) as V'.
  assert (Hq : rt_queue_of c s4 = rt_queue_of c s) by congruence.
  destruct (V' p) as (Ep' & _ & _ & Ecpu' & _).
  destruct (queued_prio c s p (ri_base _ _ _ Hi) Hp) as (_ & Ecp & _).
  rewrite Ecpu', Ecp. fold (rt_queue_of c s4). rewrite Hq, Hs3, Hs2 in *.
  destruct (shares_list p (rt_queue_of c s)); cbn [when]; [|wgo; by split_and!].
  unfold requeue_task_rt, get_task. wgo. rewrite Ecpu', Ecp.
  wcall requeue_rt_entity_run; [apply Hi4 | by rewrite Hq|]. intros [] s5 H5.
  pose proof (rt_eff_view _ _ _ _ _ H5) as V5.
  destruct (resched_curr_run c s5) as (ts' & pn & ips & He & Hts & Hres).
  eapply wp_intro; [exact He|].
  assert (V6 : same_view (tasks s4) ts').
  { eapply same_view_trans; [exact V5|]. intros x. by destruct (Hts x) as [-> | ->]. }
  assert (Hcur : curr (rqs s5 c) = curr (rqs s c)).
  { rewrite (eff_rq _ _ _ _ _ _ H5). simpl. rewrite R4, R3, R2. apply (af_curr _ _ H1). }
  split_and!; simpl.
  - apply (view_inv _ _ _ _ V6). rewrite (eff_rq _ _ _ _ _ _ H5). apply requeue_inv; [done|].
    unfold rt_queue_of in Hq. by rewrite Hq.
  - by eapply same_view_trans; [exact V'|].
  - destruct (Hts p) as [-> | ->]; simpl; rewrite (eff_task _ _ _ _ _ _ H5); simpl; exact Hk4.
  - unfold rt_queue_of at 1. simpl. rewrite (eff_rq _ _ _ _ _ _ H5). simpl.
    unfold rt_queue_of in Hq. rewrite Hq, Ep'. done.
  - by rewrite Hcur in Hres.
Qed.
End Tick.

(** ** Booting *)

Section Boot.
Implicit Types (c : cpu) (s : kstate).

(** A run queue as it comes zeroed from memory. *)
Definition rt_fresh (r : rq) : Prop :=
  rt_sized (rq_rt r) /\ rt_nr_running (rq_rt r) = 0 /\ rr_nr_running (rq_rt r) = 0 /\
  rt_nr_total (rq_rt r) = 0 /\ 0 <= nr_running r < 2 ^ 31.

(** The queues below [i] are empty. *)
Definition cleared (i : Z) (r : rt_rq) : Prop :=
  rt_sized r /\ forall j, 0 <= j < i ->
    Klist.at_index (rt_queue r) j = Some [] /\ bitmap r !! Z.to_nat j = Some false.

Lemma init_rt_queues_run c n : forall i s,
  cleared i (rq_rt (rqs s c)) -> 0 <= i -> i + Z.of_nat n <= 100 ->
  wp (init_rt_queues c n i) (fun _ s' =>
    cleared (i + Z.of_nat n) (rq_rt (rqs s' c)) /\
    rqs s' c = rqs s c <| rq_rt ::= fun r => r <| rt_queue := rt_queue (rq_rt (rqs s' c)) |>
                                             <| bitmap := bitmap (rq_rt (rqs s' c)) |> |>) s.
Proof.
  induction n as [|n IH]; intros i s Hc Hi Hn; cbn [init_rt_queues].
  { wgo. rewrite Z.add_0_r. split; [done|]. by destruct (rqs s c) as [? ? ? ? []]. }
  destruct Hc as [[Hq Hb] Hcl]. wstep. wcall (set_rt_eff c 0). intros [] s1 H1. wstep.
  pose proof (rt_eff_rt _ _ _ _ _ _ H1) as R1.
  wcall (set_rt_bit_eff c 0); [lia| |].
  { rewrite R1. split; simpl; [by rewrite Klist.length_put | done]. }
  intros [] s2 H2. pose proof (rt_eff_rt _ _ _ _ _ _ H2) as R2. rewrite R1 in R2.
  wcall (IH (i + 1) s2).
  - rewrite R2. split; [by split; simpl; rewrite ?Klist.length_put, ?length_insert|].
    intros j Hj. simpl. rewrite Klist.at_index_put by lia. destruct (decide (i = j)) as [->|Hne].
    + split; [done|]. rewrite list_lookup_insert_eq; [done | lia].
    + rewrite list_lookup_insert_ne by lia. apply Hcl. lia.
  - lia.
  - lia.
  - intros [] s3 [H3 E3]. split; [by replace (i + Z.of_nat (S n)) with (i + 1 + Z.of_nat n) by lia|].
    rewrite E3 at 1. rewrite (eff_rq _ _ _ _ _ _ H2), (eff_rq _ _ _ _ _ _ H1). done.
Qed.

Lemma init_rt_rq_run c t s :
  rt_fresh (rqs s c) ->
  wp (init_rt_rq c) (fun _ s' => rt_inv c t (rqs s' c) /\ concat (rt_queue_of c s') = []) s.
Proof.
  intros (Hs & Hn & Hrr & Ht & Hnr). unfold init_rt_rq. wstep.
  wcall (init_rt_queues_run c (Z.to_nat MAX_RT_PRIO) 0); [split; [done | lia] | done | done |].
  intros [] s1 [[Hs1 Hc1] E1]. wstep. wcall (set_rt_bit_eff c 0); [done | done |].
  intros [] s2 H2. wcall (set_rt_eff c 0). intros [] s3 H3.
  pose proof (eff_rq _ _ _ _ _ _ H3) as R3. rewrite (eff_rq _ _ _ _ _ _ H2), E1 in R3.
  change (Z.to_nat MAX_RT_PRIO) with 100%nat in *.
  set (q := rt_queue (rq_rt (rqs s1 c))) in *. set (b := bitmap (rq_rt (rqs s1 c))) in *.
  destruct Hs1 as [Hq Hb]. fold q in Hq. fold b in Hb.
  change (0 + Z.of_nat (Z.to_nat MAX_RT_PRIO)) with 100 in Hc1.
  assert (Hnil : concat q = []).
  { apply elem_of_nil_inv. intros p (i & l & Hi & Hl)%Klist.elem_concat.
    assert (Hr : is_Some (Klist.at_index q i)) by eauto. apply Klist.at_index_is_Some in Hr.
    rewrite Hq in Hr. destruct (Hc1 i) as [E _]; [lia|]. fold q in E. rewrite E in Hi.
    injection Hi as <-. by apply not_elem_of_nil in Hl. }
  assert (Eq : rt_queue (rq_rt (rqs s3 c)) = q) by by rewrite R3.
  assert (Hffb : sched_find_first_bit (<[100%nat := true]> b) = 100).
  { apply (ffb_unique _ 100); [by rewrite list_lookup_insert_eq by lia|].
    intros j Hj. rewrite list_lookup_insert_ne by lia. destruct (Hc1 (Z.of_nat j)) as [_ E]; [lia|].
    rewrite Nat2Z.id in E. fold b in E. by rewrite E. }
  split; [|by unfold rt_queue_of; rewrite Eq]. rewrite R3. split; [split|]; simpl; rewrite ?Hnil.
  - split; simpl.
    + split; simpl; [done | by rewrite length_insert].
    + by rewrite list_lookup_insert_eq by lia.
    + intros i Hi. rewrite list_lookup_insert_ne by lia. destruct (Hc1 i) as [E1' E2]; [lia|].
      unfold Klist.list_empty. fold q in E1'. fold b in E2. by rewrite E1', E2.
    + unfold Klist.wf. rewrite Hnil. constructor.
    + intros i l p Hi Hp. exfalso. pose proof (Klist.at_index_elem q i l p Hi Hp) as H.
      rewrite Hnil in H. by apply not_elem_of_nil in H.
    + intros p. rewrite Hnil. by intros ?%not_elem_of_nil.
  - by rewrite Hffb.
  - split; simpl; rewrite ?Hn, ?Hrr, ?Ht; done.
  - done.
  - unfold others. simpl. lia.
  - unfold others. simpl. lia.
  - split; simpl; [constructor | constructor | by intros ? ? ?%not_elem_of_nil | done].
Qed.
End Boot.

