(* ===== verification/RtProps.v ===== *)
(** * The real-time class: what it guarantees

    The theorems on the model of [kernel/sched/rt.c] in [Rt.v]: safety over
    every sequence of operations, which task is picked, the time slices of
    [SCHED_RR], the place in the queue kept by [DEQUEUE_SAVE], and the overload
    mask that pushing and pulling are driven by. *)

From S2P Require Import Prelude Sched RtBandwidth Rt.

(** ** [DEQUEUE_SAVE] and [ENQUEUE_RESTORE]

    Without [DEQUEUE_MOVE] a dequeued entity stays linked, so that enqueuing it
    again finds it where it was. *)

Section SaveRestore.
Context `{Hfeat : SchedFeat}.
Implicit Types (c : cpu) (p : task) (s : kstate) (t : task -> task_struct) (r : rq).

(** What the class sees of a task ([same_view]). *)
Definition task_view (t t' : task_struct) : Prop :=
  prio t' = prio t /\ policy t' = policy t /\ nr_cpus_allowed t' = nr_cpus_allowed t /\
  task_cpu t' = task_cpu t /\ rt_on_rq (rt t') = rt_on_rq (rt t).

(** The class sees a difference in [p] only, and not in what links it. *)
Definition relinks p t t' : Prop :=
  (forall x, x <> p -> task_view (t x) (t' x)) /\ prio (t' p) = prio (t p) /\
  task_cpu (t' p) = task_cpu (t p).

(** What is left of the invariant while [p] is uncounted. *)
Record rt_without c p t r : Prop := {
  rw_array : forall t', relinks p t t' -> rt_on_rq (rt (t' p)) <> 0 -> rt_array c t' (rq_rt r);
  rw_in : p ∈ concat (rt_queue (rq_rt r));
  rw_prio : 0 <= prio (t p) < 100;
  rw_counts : rt_counts t (filter (fun x => x <> p) (concat (rt_queue (rq_rt r)))) (rq_rt r);
  rw_hp : (if prio (t p) <? hp_curr (rq_rt r) then prio (t p) else hp_curr (rq_rt r))
          = sched_find_first_bit (bitmap (rq_rt r));
  rw_queued : rt_queued (rq_rt r) <> 0 -> rt_nr_running (rq_rt r) <> 0;
  rw_others : 0 <= others r;
  rw_bound : others r + Z.of_nat (length (concat (rt_queue (rq_rt r)))) < 2 ^ 31;
  rw_push : rt_push t (filter (fun x => x <> p) (concat (rt_queue (rq_rt r)))) (rq_rt r)
}.

Lemma array_only c p t t' (x : rt_rq) :
  rt_array c t x -> (forall y, y <> p -> task_view (t y) (t' y)) -> prio (t' p) = prio (t p) ->
  task_cpu (t' p) = task_cpu (t p) -> rt_on_rq (rt (t' p)) <> 0 -> rt_array c t' x.
Proof.
  intros [? ? ? ? Hl Ho] Hx Hp Hc Hon. split; [done..| |].
  - intros i l y Hi Hin. rewrite <- (Hl i l y Hi Hin).
    destruct (decide (y = p)) as [->|Hne]; [done | by destruct (Hx y Hne)].
  - intros y Hin. destruct (Ho y Hin) as [? ?].
    destruct (decide (y = p)) as [->|Hne]; [by rewrite Hc | by destruct (Hx y Hne) as (_ & _ & _ & -> & ->)].
Qed.

(** A queue with one task: its level is the first of the bitmap. *)
Lemma single_ffb c t (r : rt_rq) p :
  rt_array c t r -> concat (rt_queue r) = [p] ->
  sched_find_first_bit (bitmap r) = prio (t p).
Proof.
  intros Ha Hc. assert (Hp : p ∈ concat (rt_queue r)) by (rewrite Hc; by left).
  destruct (unlink_array c t t r p (prio (t p)) Ha) as (_ & _ & Hr); [|done|done|].
  { split; [done|]. exists (fun e => e). by destruct (t p). }
  apply Klist.elem_concat in Hp as (i & l & Hi & Hl).
  pose proof (ra_level _ _ _ Ha i l p Hi Hl) as <-.
  rewrite (ffb_unique _ (Z.to_nat (prio (t p)))); [lia| |].
  - apply (array_bit c t _ _ Ha Hr). destruct l as [|x l]; [by apply not_elem_of_nil in Hl | eauto].
  - intros j Hj. replace j with (Z.to_nat (Z.of_nat j)) by lia.
    rewrite (array_bit c t _ (Z.of_nat j) Ha) by lia. intros (x & l' & Hx).
    assert (Hin : x ∈ concat (rt_queue r)) by (eapply Klist.at_index_elem; [exact Hx | by left]).
    rewrite Hc in Hin. apply list_elem_of_singleton in Hin as ->.
    pose proof (ra_level _ _ _ Ha _ _ p Hx ltac:(by left)). lia.
Qed.

(** The highest priority while [p] is uncounted. *)
Lemma dec_hp c t x p :
  rt_array c t x -> p ∈ concat (rt_queue x) -> hp_curr x = sched_find_first_bit (bitmap x) ->
  rt_nr_running x = Z.of_nat (length (concat (rt_queue x))) ->
  Z.of_nat (length (concat (rt_queue x))) < 2 ^ 31 ->
  let h := hp_curr (dec_tasks (t p) x) in
  (if prio (t p) <? h then prio (t p) else h) = sched_find_first_bit (bitmap x).
Proof.
  intros Ha Hp Hh Hn Hb h.
  destruct (unlink_array c t t x p (prio (t p)) Ha) as (_ & _ & Hr); [|done|done|].
  { split; [done|]. exists (fun e => e). by destruct (t p). }
  assert (Hle : sched_find_first_bit (bitmap x) <= prio (t p)).
  { destruct (ffb_spec _ _ (ra_delim _ _ _ Ha)) as (k & -> & _ & _ & Hj).
    apply Klist.elem_concat in Hp as (i & l & Hi & Hl).
    pose proof (ra_level _ _ _ Ha i l p Hi Hl) as <-.
    destruct (decide (prio (t p) < Z.of_nat k)) as [Hlt|]; [exfalso|lia].
    assert (Hb1 : bitmap x !! Z.to_nat (prio (t p)) = Some true).
    { apply (array_bit c t _ _ Ha Hr). destruct l as [|y l]; [by apply not_elem_of_nil in Hl | eauto]. }
    rewrite Hj in Hb1 by lia. done. }
  destruct (dec_tasks_frame (t p) x) as (_ & _ & _ & _ & _ & F6).
  assert (Hlen : (0 < length (concat (rt_queue x)))%nat)
    by (destruct (concat (rt_queue x)); [by apply not_elem_of_nil in Hp | cbn; lia]).
  unfold h. rewrite F6, Hn, u32_small by lia.
  destruct (Z.eqb_spec (Z.of_nat (length (concat (rt_queue x))) - 1) 0) as [H1|H1]; cbn [negb].
  - destruct (concat (rt_queue x)) as [|y [|]] eqn:E; [done| |cbn in H1; lia].
    apply list_elem_of_singleton in Hp as ->. rewrite (single_ffb c t x y Ha E).
    unfold MAX_RT_PRIO. by destruct (Z.ltb_spec (prio (t y)) 100); [|lia].
  - rewrite Hh. set (k := sched_find_first_bit (bitmap x)) in *. destruct (_ =? k); destruct (Z.ltb_spec (prio (t p)) k); lia.
Qed.

Lemma filter_perm p (l : list task) : NoDup l -> p ∈ l -> p :: filter (fun x => x <> p) l ≡ₚ l.
Proof. apply Klist.filter_ne_perm. Qed.

Lemma without_topped c p t r : rt_without c p t r -> rt_topped r.
Proof.
  intros [_ _ _ Wc _ Wq Wo Wb _]. pose proof (rc_nr _ _ _ Wc) as Hn.
  pose proof (length_filter (fun x => x <> p) (concat (rt_queue (rq_rt r)))).
  by split; [..|lia|lia].
Qed.

(** Changing the counts between [dequeue_top_rt_rq] and
    [enqueue_top_rt_rq]. *)
Lemma top_change r F :
  rt_topped r ->
  let x := F (rq_rt (dequeue_top_rq r)) in
  let r' := enqueue_top_rq (dequeue_top_rq r <| rq_rt ::= F |>) in
  rt_queued x = 0 -> 0 <= rt_nr_running x -> others r + rt_nr_running x < 2 ^ 32 ->
  rt_core (rq_rt r') = rt_core x /\ others r' = others r /\ curr r' = curr r /\
  (rt_queued (rq_rt r') <> 0 -> rt_nr_running (rq_rt r') <> 0).
Proof.
  intros Hr x r' Hq Hn Hb. destruct (top_spec r Hr) as (_ & _ & T3 & T4). destruct Hr as [_ H1 H2 H3].
  destruct (enqueue_top_spec (dequeue_top_rq r <| rq_rt ::= F |>)) as (E1 & E2 & E3 & E4 & _); simpl.
  - done.
  - lia.
  - done.
  - rewrite T3. exact Hb.
  - split_and!; [exact E1 | exact (eq_trans E3 T3) | exact (eq_trans E4 T4) | exact E2].
Qed.

Lemma core_queue (x y : rt_rq) : rt_core x = rt_core y ->
  rt_queue x = rt_queue y /\ bitmap x = bitmap y /\ hp_curr x = hp_curr y /\
  rt_nr_running x = rt_nr_running y /\ pushable_tasks x = pushable_tasks y /\ hp_next x = hp_next y.
Proof. intros H. core_fields H. by split_and!. Qed.

Lemma same_queue_array c t (x y : rt_rq) :
  rt_queue y = rt_queue x -> bitmap y = bitmap x -> rt_array c t x -> rt_array c t y.
Proof. intros H1 H2 [[? ?] ? ? ? ? ?]. split; unfold rt_sized; rewrite ?H1, ?H2; done. Qed.

(** Dequeuing [p] but leaving it linked. *)
Lemma without_dequeue c p t t' r :
  rt_inv c t r -> entity_only p t t' -> p ∈ concat (rt_queue (rq_rt r)) ->
  let r1 := enqueue_top_rq (dequeue_top_rq r <| rq_rt ::= dec_tasks (t p) |>) in
  let r2 := r1 <| rq_rt ::= push_out (fun x => prio (t' x)) p |> in
  rt_without c p t' r2 /\ rt_queue (rq_rt r2) = rt_queue (rq_rt r) /\ others r2 = others r /\
  pushable_tasks (rq_rt r2) = plist_del p (pushable_tasks (rq_rt r)).
Proof.
  intros [Hi Hpush] He Hp r1 r2. pose proof (top_view c t r Hi) as (Eq & Hq0 & Ha & Hcnt & Hh & P1 & P2).
  pose proof (ri_others _ _ _ Hi) as Ho. pose proof (ri_bound _ _ _ Hi) as Hb.
  pose proof (rc_nr _ _ _ (ri_counts _ _ _ Hi)) as Hn.
  set (x := rq_rt (dequeue_top_rq r)) in *. rewrite <- Eq in Hp.
  destruct (unlink_array c t t x p (prio (t p)) Ha) as (_ & _ & Hr); [|done|done|].
  { split; [done|]. exists (fun e => e). by destruct (t p). }
  pose proof (filter_perm p _ (ra_wf _ _ _ Ha) Hp) as Hperm.
  set (l := filter (fun x => x <> p) (concat (rt_queue x))) in *.
  assert (Hlen : length (concat (rt_queue x)) = S (length l)) by by rewrite <- Hperm.
  destruct (dec_tasks_frame (t p) x) as (F1 & F2 & F3 & F4 & F5 & _).
  rewrite <- Eq, Hlen in Hb, Hn.
  assert (Hc1 : rt_counts t l (dec_tasks (t p) x))
    by (apply dec_tasks_counts; [by eapply counts_perm | lia]).
  pose proof (rc_nr _ _ _ Hc1) as Hn1.
  destruct (top_change r (dec_tasks (t p))) as (C1 & C2 & C3 & C4); fold x; try lia; [by eapply base_topped|].
  fold r1 in C1, C2, C3, C4. destruct (core_queue _ _ C1) as (D1 & D2 & D3 & D4 & D5 & D6).
  fold x in D1, D2, D3, D5, D6.
  rewrite F1 in D1. rewrite F2 in D2. rewrite F3 in D5. rewrite F4 in D6.
  assert (Hview : forall y, prio (t' y) = prio (t y) /\ policy (t' y) = policy (t y) /\
            nr_cpus_allowed (t' y) = nr_cpus_allowed (t y) /\ task_cpu (t' y) = task_cpu (t y))
    by (intros y; by apply (entity_only_view p)).
  split; [|split; [simpl; by rewrite D1, Eq | split; [exact C2|]]].
  2: { simpl. by rewrite D5, P1. }
  split; simpl; rewrite ?D1; fold l.
  - intros t2 (H1 & H2 & H3) Hon. eapply (same_queue_array _ _ x); [exact D1 | exact D2|].
    eapply (array_only c p t); [done| | | |done].
    + intros y Hy. specialize (H1 y Hy). by rewrite (proj1 He y Hy) in H1.
    + rewrite H2. apply Hview.
    + rewrite H3. apply Hview.
  - done.
  - by destruct (Hview p) as [-> _].
  - eapply counts_ext; [intros y _; split; apply Hview|].
    apply (core_counts t l _ (rq_rt r1)) in Hc1; [|done]. by destruct Hc1.
  - destruct (Hview p) as [-> _]. rewrite D3, D2. eapply dec_hp; [done|done|done| |].
    + by rewrite (rc_nr _ _ _ Hcnt).
    + rewrite Hlen. lia.
  - exact C4.
  - change (0 <= others r1). lia.
  - change (others r1 + Z.of_nat (length (concat (rt_queue x))) < 2 ^ 31). rewrite C2, Hlen. lia.
  - assert (Hpu : rt_push t' (concat (rt_queue x)) (rq_rt r1)).
    { eapply (push_mono t t'); [| | | |exact Hpush].
      - by rewrite Eq.
      - intros y _. split; apply Hview.
      - by rewrite D5.
      - by rewrite D6. }
    apply (push_out_inv t' (concat (rt_queue x)) l (rq_rt r1) p Hpu).
    intros y Hy Hne. unfold l. by apply list_elem_of_filter.
Qed.

Lemma without_relinks c p t t' r : relinks p t t' -> rt_without c p t r -> rt_without c p t' r.
Proof.
  intros (H1 & H2 & H3) [Wa Wi Wp Wc Wh Wq Wo Wb Wu].
  assert (Hl : forall x, x ∈ filter (fun x => x <> p) (concat (rt_queue (rq_rt r))) -> task_view (t x) (t' x))
    by (intros x [? _]%list_elem_of_filter; by apply H1).
  split; rewrite ?H2; try done.
  - intros t2 (K1 & K2 & K3). apply Wa. split_and!; [|congruence|congruence].
    intros x Hx. destruct (K1 x Hx) as (? & ? & ? & ? & ?), (H1 x Hx) as (? & ? & ? & ? & ?). split_and!; congruence.
  - eapply counts_ext; [|exact Wc]. intros x Hx. by destruct (Hl x Hx) as (_ & ? & ? & _).
  - eapply push_mono; [done| |reflexivity|reflexivity|exact Wu]. intros x Hx. by destruct (Hl x Hx) as (? & _ & ? & _).
Qed.

(** Accounting does not matter. *)
Lemma core_without c p t r r' :
  rt_core (rq_rt r') = rt_core (rq_rt r) -> others r' = others r ->
  (rt_queued (rq_rt r') <> 0 -> rt_queued (rq_rt r) <> 0) -> rt_without c p t r -> rt_without c p t r'.
Proof.
  intros H Ho Hq [Wa Wi Wp Wc Wh Wq Wo Wb Wu]. destruct (core_queue _ _ H) as (E1 & E2 & E3 & E4 & E5 & E6).
  split; rewrite ?Ho, ?E1, ?E2, ?E3, ?E4; auto.
  - intros t' Hr Hon. eapply core_array; [symmetry; exact H|by apply Wa].
  - eapply core_counts; [symmetry; exact H|done].
  - eapply core_push; [symmetry; exact H|done].
Qed.

(** Enqueuing [p] where it still is. *)
Lemma without_enqueue c p t t' r :
  rt_without c p t r -> entity_only p t t' -> rt_on_rq (rt (t' p)) <> 0 ->
  let r' := enqueue_top_rq (dequeue_top_rq r <| rq_rt ::= inc_tasks (t p) |>) in
  rt_inv c t' r' /\ rt_queue (rq_rt r') = rt_queue (rq_rt r) /\ curr r' = curr r /\ others r' = others r /\
  pushable_tasks (rq_rt r') = pushable_tasks (rq_rt r).
Proof.
  intros [Wa Wi Wp Wc Wh Wq Wo Wb Wu] He Hon r'.
  assert (Hrel : relinks p t t').
  { split; [intros x Hx; by rewrite (proj1 He x Hx)|]. by destruct (entity_only_view p t t' p He) as (? & _ & _ & ?). }
  pose proof (Wa t' Hrel Hon) as Ha. pose proof (ra_wf _ _ _ Ha) as Hnd.
  pose proof (filter_perm p _ Hnd Wi) as Hperm.
  set (l := filter (fun x => x <> p) (concat (rt_queue (rq_rt r)))) in *.
  assert (Hlen : length (concat (rt_queue (rq_rt r))) = S (length l)) by by rewrite <- Hperm.
  pose proof (rc_nr _ _ _ Wc) as Hn.
  assert (Hto : rt_topped r) by (split; [done|done|lia|lia]).
  destruct (top_spec r Hto) as (T1 & T2 & _).
  destruct (core_queue _ _ T1) as (Q1 & Q2 & Q3 & Q4 & Q5 & Q6).
  set (x := rq_rt (dequeue_top_rq r)) in *.
  destruct (inc_tasks_frame (t p) x) as (F1 & F2 & F3 & F4 & F5 & F6).
  assert (Hc1 : rt_counts t (p :: l) (inc_tasks (t p) x))
    by (apply inc_tasks_counts; [by apply (core_counts t l (rq_rt r)) | lia]).
  pose proof (rc_nr _ _ _ Hc1) as Hn1. cbn [length] in Hn1.
  destruct (top_change r (inc_tasks (t p))) as (C1 & C2 & C3 & C4); fold x; try lia; [exact Hto|].
  fold r' in C1, C2, C3, C4. destruct (core_queue _ _ C1) as (D1 & D2 & D3 & D4 & D5 & D6).
  fold x in D1, D2, D3, D5, D6.
  rewrite F1, Q1 in D1. rewrite F2, Q2 in D2. rewrite F3, Q5 in D5. rewrite F4, Q6 in D6.
  rewrite F6, Q3, Wh in D3.
  split; [|by split_and!]. split; [split|]; rewrite ?D1.
  - by eapply same_queue_array.
  - by rewrite D2, D3.
  - eapply counts_ext; [intros y _; by destruct (entity_only_view p t t' y He) as (_ & ? & ? & _)|].
    eapply counts_perm; [exact Hperm|]. by apply (core_counts t (p :: l) (inc_tasks (t p) x)).
  - exact C4.
  - lia.
  - lia.
  - eapply (push_mono t t' l); [| |exact D5|exact D6|exact Wu].
    + intros y [_ Hy]%list_elem_of_filter. done.
    + intros y _. by destruct (entity_only_view p t t' y He) as (? & _ & ? & _).
Qed.

Lemma dequeue_save_run c p fl s :
  rt_inv c (tasks s) (rqs s c) -> p ∈ concat (rt_queue_of c s) -> move_entity fl = false ->
  wp (dequeue_task_rt c p fl) (fun _ s' =>
    rt_without c p (tasks s') (rqs s' c) /\ rt_queue_of c s' = rt_queue_of c s /\
    task_cpu (tasks s' p) = c /\ rt_on_rq (rt (tasks s' p)) = 0 /\ others (rqs s' c) = others (rqs s c) /\
    pushable_tasks (rq_rt (rqs s' c)) = plist_del p (pushable_tasks (rq_rt (rqs s c))) /\
    exists s1, acct_frame s s1 /\ entity_only p (tasks s1) (tasks s') /\
      forall i, i <> c -> rqs s' i = rqs s1 i) s.
Proof.
  intros Hinv0 Hp0 Hmv. unfold dequeue_task_rt. wstep.
  wcall update_curr_rt_acct; [apply Hinv0|]. intros [] s1 H1.
  destruct (keeps_acct c s s1 Hinv0 H1) as [Hinv Eq].
  assert (Hp : p ∈ concat (rt_queue_of c s1)) by by rewrite Eq.
  pose proof (ri_base _ _ _ Hinv) as Hbase. pose proof (ri_array _ _ _ Hbase) as Ha.
  destruct (ra_on _ _ _ Ha p Hp) as [Hcpu Hon].
  wstep. eapply wp_mono; [apply (dequeue_rt_entity_eff c p fl s1)|].
  { done. } { done. } { by eapply base_top_ok. } { by rewrite Hmv. }
  rewrite Hmv. cbv beta. intros [] s2 H2. pose proof (eff_entity _ _ _ _ _ _ H2) as He.
  destruct (without_dequeue c p (tasks s1) (tasks s2) (rqs s1 c) Hinv He Hp) as (I1 & I2 & I3 & I4).
  eapply wp_mono; [apply (dequeue_pushable_task_eff c p s2)|]. cbv beta. intros [] s3 H3.
  pose proof (req_rq _ _ _ _ _ _ H2) as R2. pose proof (eff_rq _ _ _ _ _ _ H3) as R3.
  rewrite R2 in R3. cbv zeta in I1, I2, I3, I4.
  match type of I1 with rt_without _ _ _ ?x => assert (Hr : rqs s3 c = x) by exact R3 end.
  rewrite <- Hr in I1, I2, I3, I4.
  assert (Ht : tasks s3 p = tasks s2 p)
    by (rewrite (eff_task _ _ _ _ _ _ H3); by destruct (tasks s2 p)).
  split_and!.
  - apply (without_relinks c p (tasks s2)); [|done].
    split; [intros x Hx; by rewrite (eff_tasks _ _ _ _ _ _ H3) | by rewrite Ht].
  - unfold rt_queue_of at 1. by rewrite I2, <- Eq.
  - by rewrite Ht, (req_task _ _ _ _ _ _ H2).
  - by rewrite Ht, (req_task _ _ _ _ _ _ H2).
  - rewrite I3. apply (af_others _ _ H1).
  - rewrite I4. f_equal. exact (f_equal pushable_tasks (af_core _ _ H1 c)).
  - exists s1. split; [done|]. split.
    + destruct He as [He [G HG]]. split; [intros x Hx; rewrite (eff_tasks _ _ _ _ _ _ H3) by done; by apply He|].
      exists G. by rewrite Ht.
    + intros i Hi. by rewrite (eff_rqs _ _ _ _ _ _ H3), (req_rqs _ _ _ _ _ _ H2).
Qed.

Lemma enqueue_restore_run c p fl s :
  rt_without c p (tasks s) (rqs s c) -> task_cpu (tasks s p) = c ->
  rt_on_rq (rt (tasks s p)) = 0 -> move_entity fl = false ->
  wp (enqueue_task_rt c p fl) (fun _ s' =>
    rt_inv c (tasks s') (rqs s' c) /\ rt_queue_of c s' = rt_queue_of c s /\
    (forall i, i <> c -> rqs s' i = rqs s i) /\ entity_only p (tasks s) (tasks s') /\
    others (rqs s' c) = others (rqs s c) /\ forall x, x ∈ (pushable_tasks (rq_rt (rqs s' c))).*2 ->
      x ∈ (pushable_tasks (rq_rt (rqs s c))).*2 \/ x = p /\ p <> curr (rqs s c)) s.
Proof.
  intros Hw Hcpu Hoff Hmv. unfold enqueue_task_rt. wstep.
  apply (wp_mono _ (fun _ s1 => exists G, rt_eff c p (fun x => x) G s s1 /\
           rt_on_rq (G (rt (tasks s p))) = 0)).
  { wstep; [wcall set_rt_se_eff; intros [] s1 H1; by eexists | exists (fun e => e)].
    split; [apply rt_eff_refl | done]. }
  intros [] s1 (G1 & H1 & Hg). wstep. pose proof (eff_task _ _ _ _ _ _ H1) as Ht1.
  assert (Hr1 : rqs s1 c = rqs s c) by (rewrite (eff_rq _ _ _ _ _ _ H1); by destruct (rqs s c)).
  assert (Hw1 : rt_without c p (tasks s1) (rqs s1 c)).
  { rewrite Hr1. apply (without_relinks c p (tasks s)); [|done].
    split; [intros x Hx; by rewrite (eff_tasks _ _ _ _ _ _ H1) | by rewrite Ht1]. }
  eapply wp_mono; [apply (enqueue_rt_entity_eff c p fl s1)|].
  { by rewrite Ht1. } { by rewrite Ht1. }
  { intros Hq. pose proof (rw_queued _ _ _ _ Hw1 Hq) as H0. pose proof (rw_others _ _ _ _ Hw1) as Ho.
    pose proof (rc_nr _ _ _ (rw_counts _ _ _ _ Hw1)) as Hn.
    unfold others in Ho. destruct (Z.eqb_spec (rt_queued (rq_rt (rqs s1 c))) 0); [done | lia]. }
  { by rewrite Hmv. }
  rewrite Hmv. cbv beta. intros [] s2 H2. pose proof (eff_entity _ _ _ _ _ _ H2) as He.
  assert (Hon : rt_on_rq (rt (tasks s2 p)) <> 0) by (rewrite (req_task _ _ _ _ _ _ H2); done).
  destruct (without_enqueue c p (tasks s1) (tasks s2) (rqs s1 c) Hw1 He Hon) as (I1 & I2 & I3 & I4 & I5).
  cbv zeta in I1, I2, I3, I4, I5. pose proof (req_rq _ _ _ _ _ _ H2) as R2.
  match type of I1 with rt_inv _ _ ?x => assert (Hr : rqs s2 c = x) by exact R2 end.
  rewrite <- Hr in I1, I2, I3, I4, I5. rewrite Hr1 in I2, I3, I4, I5.
  assert (Hoth : forall i, i <> c -> rqs s2 i = rqs s i)
    by (intros i Hi; by rewrite (req_rqs _ _ _ _ _ _ H2), (eff_rqs _ _ _ _ _ _ H1)).
  assert (He2 : entity_only p (tasks s) (tasks s2))
    by (apply eff_entity with (1 := rq_eff_trans _ _ _ _ _ _ _ _ _ (rt_rq_eff _ _ _ _ _ _ H1) H2)).
  unfold get_rq, get_task. wgo. wstep; [|split_and!; try done; rewrite I5; by left].
  apply andb_true_iff in H as [Hnc Hmc%Z.ltb_lt].
  apply negb_true_iff, bool_decide_eq_false in Hnc. rewrite I3 in Hnc.
  apply (wp_mono _ (fun _ s' => keeps_rt c s2 s' /\ rt_eff c p (push_in (prio (tasks s2 p)) p) (fun e => e) s2 s')).
  { apply wp_and; [by apply enqueue_pushable_keeps; [|unfold rt_queue_of; rewrite I2; apply (rw_in _ _ _ _ Hw)|]|].
    apply enqueue_pushable_task_eff. }
  intros [] s3 [[K1 K2] H3]. split_and!.
  - done.
  - rewrite K2. exact I2.
  - intros i Hi. rewrite (eff_rqs _ _ _ _ _ _ H3) by done. by apply Hoth.
  - destruct He2 as [E1 [G HG]]. split; [intros x Hx; rewrite (eff_tasks _ _ _ _ _ _ H3) by done; by apply E1|].
    exists G. rewrite (eff_task _ _ _ _ _ _ H3), HG. done.
  - rewrite (eff_rq _ _ _ _ _ _ H3). exact I4.
  - intros x. rewrite (eff_rq _ _ _ _ _ _ H3). simpl. rewrite plist_add_perm. simpl. rewrite elem_of_cons, I5.
    intros [->|([n y] & -> & [Hx _]%plist_del_elem)%list_elem_of_fmap]; [right; by apply not_eq_sym in Hnc|].
    left. apply list_elem_of_fmap. by exists (n, y).
Qed.
End SaveRestore.

(** ** Sequences of operations *)

Section Reachability.
Context `{Hfeat : SchedFeat} `{Hlim : Rlimits}.
Implicit Types (c : cpu) (p : task) (s : kstate).

Definition rt_task_queued c s p : Prop := p ∈ concat (rt_queue_of c s).

(** What the rest of the kernel may do in between to what this class relies
    on: run its own tasks, and change the tasks that are not queued here. *)
Definition rt_outside c s s' : Prop :=
  rq_rt (rqs s' c) = rq_rt (rqs s c) /\ 0 <= others (rqs s' c) /\
  others (rqs s' c) + Z.of_nat (length (concat (rt_queue_of c s))) < 2 ^ 31 /\
  forall p, rt_task_queued c s p ->
    prio (tasks s' p) = prio (tasks s p) /\ policy (tasks s' p) = policy (tasks s p) /\
    nr_cpus_allowed (tasks s' p) = nr_cpus_allowed (tasks s p) /\
    task_cpu (tasks s' p) = task_cpu (tasks s p) /\
    rt_on_rq (rt (tasks s' p)) = rt_on_rq (rt (tasks s p)).

(** The change of a task between a [DEQUEUE_SAVE] and its
    [ENQUEUE_RESTORE]. *)
Definition in_place (f : task_struct -> task_struct) : Prop :=
  forall t, prio (f t) = prio t /\ task_cpu (f t) = task_cpu t /\ rt (f t) = rt t.

Definition change_in_place c p fl (f : task_struct -> task_struct) : K unit :=
  do! dequeue_task_rt c p fl in
  do! set_task p f in
  enqueue_task_rt c p fl.

Inductive rt_step c : kstate -> kstate -> Prop :=
| step_enqueue p fl s s' :
    rt_enqueuable c p s -> move_entity fl = true ->
    enqueue_task_rt c p fl s = Done (tt, s') -> rt_step c s s'
| step_dequeue p fl s s' :
    rt_task_queued c s p -> move_entity fl = true ->
    dequeue_task_rt c p fl s = Done (tt, s') -> rt_step c s s'
| step_change p fl f s s' :
    rt_task_queued c s p -> move_entity fl = false -> in_place f ->
    change_in_place c p fl f s = Done (tt, s') -> rt_step c s s'
| step_yield s s' :
    rt_task_queued c s (curr (rqs s c)) -> yield_task_rt c s = Done (tt, s') -> rt_step c s s'
| step_tick p q s s' :
    rt_task_queued c s p -> task_tick_rt c p q s = Done (tt, s') -> rt_step c s s'
| step_put_prev p s s' :
    (rt_on_rq (rt (tasks s p)) <> 0 -> rt_task_queued c s p) ->
    put_prev_task_rt c p s = Done (tt, s') -> rt_step c s s'
| step_pick p s s' :
    concat (rt_queue_of c s) <> [] ->
    (let! p := _pick_next_task_rt c in do! dequeue_pushable_task c p in ret p) s = Done (p, s') ->
    rt_step c s s'
| step_outside s s' : rt_outside c s s' -> rt_step c s s'.

Definition rt_ok c s : Prop := rt_inv c (tasks s) (rqs s c).

Lemma change_in_place_run c p fl f s :
  rt_ok c s -> rt_task_queued c s p -> move_entity fl = false -> in_place f ->
  wp (change_in_place c p fl f) (fun _ s' => rt_ok c s' /\ rt_queue_of c s' = rt_queue_of c s) s.
Proof.
  intros Hi Hp Hmv Hf. unfold change_in_place. wstep. wcall dequeue_save_run; [done..|].
  intros [] s1 (Hw & Hq & Hc & Hon & _). unfold set_task. wgo. destruct (Hf (tasks s1 p)) as (F1 & F2 & F3).
  wcall enqueue_restore_run; simpl; rewrite ?fn_lookup_alter.
  - apply (without_relinks c p (tasks s1)); [|done]. split; [|by rewrite fn_lookup_alter].
    intros x Hx. by rewrite fn_lookup_alter_ne.
  - congruence.
  - by rewrite F3.
  - done.
  - intros [] s2 (H1 & H2 & _). split; [exact H1|]. rewrite H2. exact Hq.
Qed.

Lemma outside_ok c s s' : rt_ok c s -> rt_outside c s s' -> rt_ok c s'.
Proof.
  intros [[Ha Hh Hc Hq Ho Hb] Hp] (E & H0 & H1 & Hv). unfold rt_task_queued, rt_queue_of in *.
  split; [split|]; rewrite ?E; try done.
  - destruct Ha as [? ? ? ? Hl Hon]. split; [done..| |].
    + intros i l p Hi Hin. destruct (Hv p) as (-> & _); [by eapply Klist.at_index_elem | by eapply Hl].
    + intros p Hin. destruct (Hv p Hin) as (_ & _ & _ & -> & ->). by apply Hon.
  - eapply counts_ext; [|exact Hc]. intros p Hin. by destruct (Hv p Hin) as (_ & ? & ? & _).
  - eapply push_mono; [| |reflexivity|reflexivity|exact Hp]; [done|].
    intros p Hin. by destruct (Hv p Hin) as (? & _ & ? & _).
Qed.

Lemma rt_step_ok c s s' : rt_step c s s' -> rt_ok c s -> rt_ok c s'.
Proof.
  intros [p fl ? ? H1 H2 He|p fl ? ? H1 H2 He|p fl f ? ? H1 H2 H3 He|? ? H1 He|p q ? ? H1 He
         |p ? ? H1 He|p ? ? H1 He|? ? H1] Hi.
  - by apply (wp_elim _ _ _ _ _ (enqueue_task_rt_run c p fl _ Hi H1 H2)) in He as [? _].
  - by apply (wp_elim _ _ _ _ _ (dequeue_task_rt_run c p fl _ Hi H1 H2)) in He as [? _].
  - by apply (wp_elim _ _ _ _ _ (change_in_place_run c p fl f _ Hi H1 H2 H3)) in He as [? _].
  - by apply (wp_elim _ _ _ _ _ (yield_task_rt_run c _ Hi H1)) in He as [? _].
  - by apply (wp_elim _ _ _ _ _ (task_tick_rt_run c p q _ Hi H1)) in He as [? _].
  - by apply (wp_elim _ _ _ _ _ (put_prev_task_rt_run c p _ Hi H1)) in He as [? _].
  - by apply (wp_elim _ _ _ _ _ (pick_rt_run c _ Hi H1)) in He as [[? _] _].
  - by eapply outside_ok.
Qed.

Lemma rt_reachable_ok c s s' : rtc (rt_step c) s s' -> rt_ok c s -> rt_ok c s'.
Proof. induction 1; eauto using rt_step_ok. Qed.

Lemma init_ok c s0 s1 : rt_fresh (rqs s0 c) -> init_rt_rq c s0 = Done (tt, s1) -> rt_ok c s1.
Proof. intros Hf He. by apply (wp_elim _ _ _ _ _ (init_rt_rq_run c (tasks s1) s0 Hf)) in He as [? _]. Qed.
End Reachability.

(** ** The walk over the overloaded CPUs *)

Section Walk.
Implicit Types (c n : cpu) (m : list cpu) (s : kstate).

(** The CPUs that successive calls of [rto_next_cpu] return, up to the [-1]
    that ends the walk. *)
Fixpoint rto_walk (fuel : nat) : K (list cpu) :=
  match fuel with
  | O => crash OutOfFuel
  | S fuel =>
      let! c := rto_next_cpu in
      if c <? 0 then ret [] else
      let! l := rto_walk fuel in
      ret (c :: l)
  end.

Definition rest n m : list cpu := filter (fun i => n < i) m.

Lemma cpumask_next_rest n m : cpumask_next n m = head (rest n m).
Proof.
  unfold cpumask_next, rest. induction m as [|i m IH]; [done|]. simpl.
  rewrite filter_cons. case_decide; [done|]. rewrite <- IH.
  destruct (list_find (fun i => n < i) m) as [[]|]; done.
Qed.

Lemma rest_tail n c m l : StronglySorted Z.lt m -> rest n m = c :: l -> rest c m = l /\ n < c.
Proof.
  induction m as [|i m IH]; [done|]. intros [Hs Hall]%StronglySorted_inv. rewrite Forall_forall in Hall.
  unfold rest. rewrite !filter_cons. case_decide as Hn.
  - intros [= -> <-]. rewrite decide_False by lia. split; [|done].
    apply filter_iff_in. intros x Hx%Hall. lia.
  - intros H. destruct (IH Hs H) as [H1 H2]. rewrite decide_False by lia. done.
Qed.

Lemma rest_all m : (forall c, c ∈ m -> 0 <= c) -> rest (-1) m = m.
Proof.
  intros H. unfold rest. induction m as [|i m IH]; [done|]. rewrite filter_cons_True.
  - f_equal. apply IH. intros c Hc. apply H. by right.
  - pose proof (H i ltac:(by left)). lia.
Qed.

(** What one call finds, when no request came in since the last one. *)
Lemma rto_next_cpu_run s :
  rto_loop (rd s) = rto_loop_next (rd s) ->
  let c := match rest (rto_cpu (rd s)) (rto_mask (rd s)) with c :: _ => c | [] => -1 end in
  rto_next_cpu s = Done (c, s <| rd ::= fun d => d <| rto_cpu := c |> |>).
Proof.
  intros H. unfold rto_next_cpu, rto_next_cpu_loop, set_rd. krun. rewrite cpumask_next_rest.
  destruct (rest _ _) as [|c l]; [|done]. krun. by rewrite H, Z.eqb_refl.
Qed.

Lemma rto_walk_run (n : nat) : forall s,
  rto_loop (rd s) = rto_loop_next (rd s) -> StronglySorted Z.lt (rto_mask (rd s)) ->
  -1 <= rto_cpu (rd s) ->
  (length (rest (rto_cpu (rd s)) (rto_mask (rd s))) < n)%nat ->
  exists s', rto_walk n s = Done (rest (rto_cpu (rd s)) (rto_mask (rd s)), s') /\ rto_cpu (rd s') = -1.
Proof.
  induction n as [|n IH]; intros s Hl Hs Hc Hn; [lia|]. cbn [rto_walk]. unfold bind at 1.
  rewrite rto_next_cpu_run by done. cbv zeta.
  destruct (rest (rto_cpu (rd s)) (rto_mask (rd s))) as [|c l] eqn:E; [by eexists|].
  destruct (rest_tail _ _ _ _ Hs E) as [E' Hlt].
  destruct (Z.ltb_spec c 0); [lia|].
  destruct (IH (s <| rd ::= fun d => d <| rto_cpu := c |> |>)) as (s' & He & H'); simpl; [done|done|lia| |].
  - rewrite E'. cbn in Hn. lia.
  - exists s'. simpl in He. rewrite E' in He. unfold bind. by rewrite He.
Qed.
End Walk.

(** ** The overload mask *)

Section Overload.
Implicit Types (c : cpu) (p : task) (s : kstate).

(** [CONFIG_NR_CPUS] of a large configuration. *)
Definition NR_CPUS : Z := 8192.

(** The mask holds the online CPUs that are flagged, and its size is
    counted. *)
Record overload_inv s : Prop := {
  oi_count : rto_count (rd s) = Z.of_nat (length (rto_mask (rd s)));
  oi_sorted : StronglySorted Z.lt (rto_mask (rd s));
  oi_mask : forall i, i ∈ rto_mask (rd s) <->
              online (rqs s i) = true /\ overloaded (rq_rt (rqs s i)) <> 0;
  oi_room : forall i, online (rqs s i) = true -> 0 <= i < NR_CPUS
}.

Lemma sorted_nodup (m : list cpu) : StronglySorted Z.lt m -> NoDup m.
Proof.
  induction m as [|j m IH]; [constructor|]. intros [Hs Hall]%StronglySorted_inv.
  constructor; [|by apply IH]. rewrite Forall_forall in Hall. intros Hj%Hall. lia.
Qed.

Lemma mask_size s : overload_inv s -> Z.of_nat (length (rto_mask (rd s))) <= NR_CPUS.
Proof.
  intros [_ Hs Hm Hr]. assert (H : submseteq (rto_mask (rd s)) (seqZ 0 NR_CPUS)).
  { apply NoDup_submseteq; [by apply sorted_nodup|]. intros i [Hi _]%Hm.
    apply elem_of_seqZ. by apply Hr. }
  apply submseteq_length in H. rewrite length_seqZ in H. unfold NR_CPUS in *. lia.
Qed.

Lemma set_cpu_elem c i (m : list cpu) : i ∈ cpumask_set_cpu c m <-> i = c \/ i ∈ m.
Proof.
  induction m as [|j m IH]; simpl; [set_solver|].
  destruct (Z.eqb_spec c j); [set_solver|]. destruct (c <? j); [set_solver|].
  rewrite !elem_of_cons, IH. tauto.
Qed.

Lemma set_cpu_sorted c (m : list cpu) :
  StronglySorted Z.lt m -> StronglySorted Z.lt (cpumask_set_cpu c m).
Proof.
  induction m as [|j m IH]; simpl; [by repeat constructor|].
  intros [Hs Hall]%StronglySorted_inv. pose proof Hall as Hall'. rewrite Forall_forall in Hall'.
  destruct (Z.eqb_spec c j); [by constructor|]. destruct (Z.ltb_spec c j).
  - constructor; [by constructor|]. apply Forall_forall.
    intros x [->|Hx]%elem_of_cons; [done|]. specialize (Hall' _ Hx). lia.
  - constructor; [by apply IH|]. apply Forall_forall.
    intros x [->|Hx]%set_cpu_elem; [lia | by apply Hall'].
Qed.

Lemma set_cpu_length c (m : list cpu) :
  StronglySorted Z.lt m -> c ∉ m -> length (cpumask_set_cpu c m) = S (length m).
Proof.
  induction m as [|j m IH]; simpl; [done|]. intros [Hs _]%StronglySorted_inv [Hc Hm]%not_elem_of_cons.
  destruct (Z.eqb_spec c j); [done|]. destruct (c <? j); [done|]. simpl. by rewrite IH.
Qed.

Lemma clear_cpu_sorted c (m : list cpu) :
  StronglySorted Z.lt m -> StronglySorted Z.lt (cpumask_clear_cpu c m).
Proof.
  unfold cpumask_clear_cpu. induction m as [|j m IH]; [done|]. rewrite filter_cons.
  intros [Hs Hall]%StronglySorted_inv. case_decide; [|by apply IH].
  constructor; [by apply IH|]. apply Forall_forall. rewrite Forall_forall in Hall.
  intros x [_ Hx]%list_elem_of_filter. by apply Hall.
Qed.

Lemma clear_cpu_length c (m : list cpu) :
  StronglySorted Z.lt m -> c ∈ m -> S (length (cpumask_clear_cpu c m)) = length m.
Proof.
  intros Hs Hc. rewrite <- (filter_perm c m (sorted_nodup m Hs) Hc) at 2. done.
Qed.

Lemma room_alter c s :
  (forall i, online (rqs s i) = true -> 0 <= i < NR_CPUS) ->
  forall v i, online (alter (fun r => r <| rq_rt ::= fun x => x <| overloaded := v |> |>) c (rqs s) i) = true ->
    0 <= i < NR_CPUS.
Proof.
  intros H v i. destruct (decide (c = i)) as [->|Hne]; [|rewrite fn_lookup_alter_ne by done; apply H].
  rewrite fn_lookup_alter. apply H.
Qed.

(** [update_rt_migration] publishes the flag. *)
Lemma update_rt_migration_run c s :
  overload_inv s -> overloaded (rq_rt (rqs s c)) = 0 \/ overloaded (rq_rt (rqs s c)) = 1 ->
  wp (update_rt_migration c) (fun _ s' => overload_inv s' /\
    rq_rt (rqs s' c) = rq_rt (rqs s c) <| overloaded := overload_flag (rq_rt (rqs s c)) |> /\
    online (rqs s' c) = online (rqs s c) /\ forall i, i <> c -> rqs s' i = rqs s i) s.
Proof.
  intros Hi Hf. pose proof (mask_size s Hi) as Hsz. unfold NR_CPUS in Hsz.
  unfold update_rt_migration, get_rt, overload_flag. wgo.
  assert (Hkeep : forall v, overloaded (rq_rt (rqs s c)) = v ->
    overload_inv s /\ rq_rt (rqs s c) = rq_rt (rqs s c) <| overloaded := v |> /\
    online (rqs s c) = online (rqs s c) /\ forall i, i <> c -> rqs s i = rqs s i).
  { intros v <-. split; [done|]. split; [by destruct (rq_rt (rqs s c)) | done]. }
  destruct (negb (rt_nr_migratory _ =? 0) && _); cbn [b2z].
  all: destruct Hf as [Hf|Hf]; rewrite Hf; cbn [Z.eqb negb when]; try (by apply Hkeep).
  all: destruct Hi as [Hc Hs Hm Hr]; pose proof (room_alter c s Hr) as Hroom; unfold rt_set_overload, rt_clear_overload, get_rq, set_rt, set_rq, set_rd.
  all: wgo; destruct (online (rqs s c)) eqn:Hon; cbn [negb]; wgo.
  all: split_and!; try (by simpl; rewrite fn_lookup_alter); try (by intros i Hi; simpl; rewrite fn_lookup_alter_ne by done).
  - assert (Hc' : c ∉ rto_mask (rd s)) by (rewrite Hm, Hf; tauto).
    split; simpl.
    + rewrite set_cpu_length by done. rewrite Hc, s32_small; lia.
    + by apply set_cpu_sorted.
    + intros i. rewrite set_cpu_elem, Hm. destruct (decide (c = i)) as [->|Hne].
      * rewrite fn_lookup_alter. simpl. rewrite Hon. naive_solver.
      * rewrite fn_lookup_alter_ne by done. naive_solver.
    + exact (Hroom _).
  - split; simpl; [done|done| |exact (Hroom _)]. intros i. rewrite Hm. destruct (decide (c = i)) as [->|Hne].
    + rewrite fn_lookup_alter. simpl. rewrite Hon. naive_solver.
    + by rewrite fn_lookup_alter_ne.
  - assert (Hc' : c ∈ rto_mask (rd s)) by (rewrite Hm, Hf; done).
    pose proof (clear_cpu_length c _ Hs Hc') as Hlen.
    split; simpl.
    + rewrite Hc, s32_small; lia.
    + by apply clear_cpu_sorted.
    + intros i. unfold cpumask_clear_cpu. rewrite list_elem_of_filter, Hm.
      destruct (decide (c = i)) as [->|Hne].
      * rewrite fn_lookup_alter. simpl. naive_solver.
      * rewrite fn_lookup_alter_ne by done. naive_solver.
    + exact (Hroom _).
  - split; simpl; [done|done| |exact (Hroom _)]. intros i. rewrite Hm. destruct (decide (c = i)) as [->|Hne].
    + rewrite fn_lookup_alter. simpl. rewrite Hon. naive_solver.
    + by rewrite fn_lookup_alter_ne.
Qed.
End Overload.

(** ** Properties *)

Section Properties.
Context `{Hfeat : SchedFeat} `{Hlim : Rlimits}.
Implicit Types (c : cpu) (p : task) (s : kstate).

(** C9: After [init_rt_rq] and any sequence of operations of the class, with
    any other kernel code in between that leaves this queue and its tasks
    alone, the run queue is consistent: the bitmap says which of the hundred
    queues are not empty, every queued task is there once, on the queue of
    its priority, all counters count the queued tasks, [highest_prio] is the
    highest priority and the highest pushable one, and the pushable tasks are
    the sorted list of queued tasks that may migrate.  No operation the core
    can call next fails. *)
Theorem rt_safety c s0 s1 s :
  rt_fresh (rqs s0 c) -> init_rt_rq c s0 = Done (tt, s1) -> rtc (rt_step c) s1 s ->
  rt_inv c (tasks s) (rqs s c) /\
  (forall p fl, rt_enqueuable c p s -> move_entity fl = true ->
     exists s', enqueue_task_rt c p fl s = Done (tt, s') /\ rt_task_queued c s' p) /\
  (forall p fl, rt_task_queued c s p -> move_entity fl = true ->
     exists s', dequeue_task_rt c p fl s = Done (tt, s') /\ ~ rt_task_queued c s' p) /\
  (rt_task_queued c s (curr (rqs s c)) -> exists s', yield_task_rt c s = Done (tt, s')) /\
  (forall p q, rt_task_queued c s p -> exists s', task_tick_rt c p q s = Done (tt, s')) /\
  (forall p, (rt_on_rq (rt (tasks s p)) <> 0 -> rt_task_queued c s p) ->
     exists s', put_prev_task_rt c p s = Done (tt, s')) /\
  (concat (rt_queue_of c s) <> [] -> exists p s', _pick_next_task_rt c s = Done (p, s')).
Proof.
  intros Hf Hinit Hr. pose proof (rt_reachable_ok c _ _ Hr (init_ok c s0 s1 Hf Hinit)) as Hi.
  split_and!; [exact Hi| | | | | |].
  - intros p fl H1 H2. pose proof (enqueue_task_rt_run c p fl s Hi H1 H2) as H.
    apply wp_done in H as ([] & s' & He & _ & _ & Hq & _). eauto.
  - intros p fl H1 H2. pose proof (dequeue_task_rt_run c p fl s Hi H1 H2) as H.
    apply wp_done in H as ([] & s' & He & _ & Hq & _). exists s'. split; [done|].
    unfold rt_task_queued. rewrite Hq. apply Klist.unlink_not_elem.
  - intros H1. pose proof (yield_task_rt_run c s Hi H1) as H.
    apply wp_done in H as ([] & s' & He & _). eauto.
  - intros p q H1. pose proof (task_tick_rt_run c p q s Hi H1) as H.
    apply wp_done in H as ([] & s' & He & _). eauto.
  - intros p H1. pose proof (put_prev_task_rt_run c p s Hi H1) as H.
    apply wp_done in H as ([] & s' & He & _). eauto.
  - intros H1. pose proof (pick_rt_run c s Hi H1) as H.
    apply wp_done in H as (p & s' & He & _).
    apply bind_inv in He as (p' & s2 & He & _). eauto.
Qed.

(** Queuing the push callback keeps the queues. *)
Lemma queue_push_keeps c s :
  rt_ok c s -> wp (rt_queue_push_tasks c) (fun _ s' => keeps_rt c s s' /\ tasks s' = tasks s /\
    rq_rt (rqs s' c) = rq_rt (rqs s c)) s.
Proof.
  intros Hi. unfold rt_queue_push_tasks, queue_balance_callback, get_rt, get_rq, set_rq. wgo.
  destruct (negb _); [done|]. wgo. case_bool_decide; [done|].
  assert (E : forall f, rq_rt (alter (fun r => r <| balance_callback ::= f |>) c (rqs s) c) = rq_rt (rqs s c))
    by (intros f; by rewrite fn_lookup_alter).
  wgo. split_and!; [|done|apply E]. split; [|unfold rt_queue_of; f_equal; apply E].
  apply (core_inv c _ (rqs s c)); simpl; rewrite ?fn_lookup_alter; simpl; [done| |done|exact Hi].
  apply (ri_base _ _ _ Hi).
Qed.

(** Two consistent states with the same queues agree on the priorities. *)
Lemma same_queue_prio c s s' x :
  rt_ok c s -> rt_ok c s' -> rt_queue_of c s' = rt_queue_of c s -> rt_task_queued c s x ->
  prio (tasks s' x) = prio (tasks s x).
Proof.
  intros [H _] [H' _] Hq Hx. apply Klist.elem_concat in Hx as (i & l & Hi & Hl).
  rewrite (ra_level _ _ _ (ri_array _ _ _ H) i l x Hi Hl).
  unfold rt_queue_of in *. rewrite <- Hq in Hi. by apply (ra_level _ _ _ (ri_array _ _ _ H') i l).
Qed.

(** [p] is first on the queue of the highest priority. *)
Definition rt_first c s p : Prop :=
  (exists l, Klist.at_index (rt_queue_of c s) (prio (tasks s p)) = Some (p :: l)) /\
  prio (tasks s p) = hp_curr (rq_rt (rqs s c)) /\
  forall x, rt_task_queued c s x -> prio (tasks s p) <= prio (tasks s x).

Lemma same_queue_first c s s' p :
  rt_ok c s -> rt_ok c s' -> rt_queue_of c s' = rt_queue_of c s ->
  rt_first c s' p -> rt_first c s p.
Proof.
  intros H H' Hq ((l & Hl) & Hh & Hmin). rewrite Hq in Hl.
  assert (Hp : rt_task_queued c s p) by (eapply Klist.at_index_elem; [exact Hl | by left]).
  pose proof (same_queue_prio c s s' p H H' Hq Hp) as Ep. rewrite Ep in *.
  assert (Hmin' : forall x, rt_task_queued c s x -> prio (tasks s p) <= prio (tasks s x)).
  { intros x Hx. rewrite <- (same_queue_prio c s s' x) by done. apply Hmin.
    unfold rt_task_queued. by rewrite Hq. }
  split_and!; [by exists l| |done].
  assert (Hne : concat (rt_queue_of c s) <> []) by (intros E; unfold rt_task_queued in Hp; rewrite E in Hp; by apply not_elem_of_nil in Hp).
  pose proof (pick_next_rt_entity_run c s (ri_base _ _ _ H) Hne) as Hpick.
  apply wp_done in Hpick as (p0 & s0 & _ & _ & (l0 & Hl0) & Hh0 & Hmin0).
  assert (Hp0 : rt_task_queued c s p0) by (eapply Klist.at_index_elem; [exact Hl0 | by left]).
  specialize (Hmin' _ Hp0). specialize (Hmin0 _ Hp). lia.
Qed.

(** [rt_queued] says that the class takes part in the run queue: its tasks are
    counted there unless it is throttled. *)
Definition rt_flagged (r : rt_rq) : Prop := rt_queued r = 0 <-> rt_throttled r <> 0 \/ rt_nr_running r = 0.

Definition same_flags c s s' : Prop :=
  rt_queued (rq_rt (rqs s' c)) = rt_queued (rq_rt (rqs s c)) /\
  rt_throttled (rq_rt (rqs s' c)) = rt_throttled (rq_rt (rqs s c)) /\
  rt_nr_running (rq_rt (rqs s' c)) = rt_nr_running (rq_rt (rqs s c)).

#[local] Instance same_flags_preorder c : PreOrder (same_flags c).
Proof. split; [done|]. intros s1 s2 s3 (? & ? & ?) (? & ? & ?). split_and!; congruence. Qed.

Lemma set_rt_flags c i f s :
  (forall r, rt_queued (f r) = rt_queued r /\ rt_throttled (f r) = rt_throttled r /\ rt_nr_running (f r) = rt_nr_running r) ->
  wp (set_rt i f) (fun _ => same_flags c s) s.
Proof.
  intros Hf. eapply wp_intro; [reflexivity|]. unfold same_flags. simpl.
  destruct (decide (i = c)) as [->|]; [rewrite fn_lookup_alter; simpl; destruct (Hf (rq_rt (rqs s c))); tauto|].
  by rewrite fn_lookup_alter_ne.
Qed.

Lemma balance_flags c s : wp (balance_runtime c) (fun _ => same_flags c s) s.
Proof.
  unfold balance_runtime, do_balance_runtime, get_rt. destruct (negb _); [done|]. wgo. wstep; [|done]. wgo.
  enough (Hloop : forall w per l s0, wp (balance_runtime_loop c w per l) (fun _ => same_flags c s0) s0) by apply Hloop.
  intros w per l. induction l as [|i l IH]; intros s0; cbn [balance_runtime_loop]; [done|].
  destruct (i =? c); [apply IH|]. unfold get_rt. wgo. destruct (_ =? _); [apply IH|].
  cbv zeta. destruct (0 <? _); [|apply IH]. wgo. wcall (set_rt_flags c); [done|]. intros [] s1 H1.
  wgo. wcall (set_rt_flags c); [done|]. intros [] s2 H2. wgo. assert (H12 : same_flags c s0 s2) by by etrans.
  destruct (_ =? _); [done|]. wcall IH. intros [] s3 H3. by etrans.
Qed.

(** Accounting throttles the class, with the tasks uncounted, or keeps the flags. *)
Definition flags_step c s s' : Prop :=
  same_flags c s s' \/
  rt_queued (rq_rt (rqs s' c)) = 0 /\ rt_throttled (rq_rt (rqs s' c)) <> 0.

Lemma exceeded_flags c s : rt_topped (rqs s c) -> wp (sched_rt_runtime_exceeded c) (fun _ => flags_step c s) s.
Proof.
  intros Hb. unfold sched_rt_runtime_exceeded, get_rt. wgo.
  destruct (rt_rq_throttled _) eqn:Ht; [by left|]. destruct (_ <=? _); [by left|]. wgo.
  eapply wp_mono; [apply wp_and; [apply balance_flags|apply balance_runtime_acct]|]. intros [] s1 [H1 A1]. wgo.
  destruct (_ =? RUNTIME_INF); [by left|]. destruct (_ <? _); [|by left]. wgo.
  apply (wp_mono _ (fun _ s' => acct_frame s s' /\ (same_flags c s s' \/ rt_throttled (rq_rt (rqs s' c)) <> 0))).
  { destruct (negb _).
    - eapply wp_mono; [apply wp_and; [apply set_rt_acct; done|apply (set_rt_frame c)]|]. intros [] s2 (A2 & _ & E).
      split; [by eapply acct_trans|]. right. by rewrite E.
    - eapply wp_mono; [apply wp_and; [apply set_rt_acct; done|by apply (set_rt_flags c)]|]. intros [] s2 [A2 H2].
      split; [by eapply acct_trans|]. left. by etrans. }
  intros [] s2 [A2 H2]. wgo. unfold rt_rq_throttled in *.
  destruct (Z.eqb_spec (rt_throttled (rq_rt (rqs s2 c))) 0) as [H0|H0]; cbn [negb].
  { destruct H2 as [H2|H2]; [by left|done]. }
  wgo. unfold sched_rt_rq_dequeue. wcall (dequeue_top_eff c 0); [apply topped_running; by eapply acct_topped|].
  intros [] s3 [E3 _ _ _]. wgo. right. rewrite E3. unfold dequeue_top_rq.
  destruct (Z.eqb_spec (rt_queued (rq_rt (rqs s2 c))) 0); done.
Qed.

Lemma update_curr_flags c s : rt_topped (rqs s c) -> wp (update_curr_rt c) (fun _ => flags_step c s) s.
Proof.
  intros Hb. unfold update_curr_rt, get_rq, get_task, get_rt. wgo.
  assert (Htask : forall p f s0, wp (set_task p f) (fun _ s' => rqs s' = rqs s0) s0) by done.
  destruct (negb _); [by left|]. cbv zeta. destruct (_ <=? 0); [by left|]. wgo.
  wcall Htask. intros [] s1 H1. wgo. wcall Htask. intros [] s2 H2. wgo.
  assert (H12 : same_flags c s s2) by (unfold same_flags; by rewrite H2, H1).
  destruct (negb _); [by left|]. wgo. wstep; [|by left]. wgo.
  eapply wp_mono; [apply wp_and; [apply set_rt_acct; done|by apply (set_rt_flags c)]|]. intros [] s3 [A3 H3]. wgo.
  wcall exceeded_flags; [apply (acct_topped c s2); [done|by rewrite H2, H1]|]. intros ex s4 H4.
  assert (H14 : flags_step c s s4).
  { destruct H4 as [H4|H4]; [left|by right]. etrans; [exact H12|]. by etrans. }
  wstep; [|done]. destruct (resched_curr_run c s4) as (ts' & pn & ips & He & _). eapply wp_intro; [exact He|]. exact H14.
Qed.

(** The flag is right again after accounting. *)
Lemma flagged_step c s s' :
  flags_step c s s' -> rt_flagged (rq_rt (rqs s c)) -> rt_flagged (rq_rt (rqs s' c)).
Proof.
  unfold rt_flagged. intros [(-> & -> & ->)|[H1 H2]]; [done|]. intros _. tauto.
Qed.

(** C10: [pick_next_task_rt], when the previous task is a real-time task and no
    other CPU's tasks are wanted, accounts for the time that it ran.  If that
    throttles the class, or the class is throttled already, or no task is
    queued, there is no task to pick; otherwise the task picked is at the head
    of the queue of the highest priority, which is [highest_prio.curr], and it
    is no longer pushable.  The queues are as before. *)
Theorem rt_pick_highest `{Hops : CoreOps} `{Hpp : PutPrev} c prev s :
  rt_ok c s -> rt_flagged (rq_rt (rqs s c)) -> hp_curr (rq_rt (rqs s c)) <= prio (tasks s prev) ->
  sched_class (tasks s prev) = rt_sched_class ->
  (rt_on_rq (rt (tasks s prev)) <> 0 -> rt_task_queued c s prev) ->
  (forall i p, put_prev_op rt_sched_class i p = put_prev_task_rt i p) ->
  exists s1 r s', update_curr_rt c s = Done (tt, s1) /\ pick_next_task_rt c prev s = Done (r, s') /\
    rt_ok c s' /\ rt_queue_of c s' = rt_queue_of c s /\
    match r with
    | NO_TASK => rt_throttled (rq_rt (rqs s1 c)) <> 0 \/ (forall x, ~ rt_task_queued c s x)
    | PICKED p => rt_throttled (rq_rt (rqs s1 c)) = 0 /\ rt_first c s p /\ p ∉ (pushable_tasks (rq_rt (rqs s' c))).*2
    | RETRY_TASK => False
    end.
Proof.
  intros Hi Hfl Hhp Hcl Hon Hput. pose proof (base_topped _ _ _ (ri_base _ _ _ Hi)) as Htop.
  pose proof (wp_and _ _ _ _ (update_curr_rt_acct c s (ri_base _ _ _ Hi)) (update_curr_flags c s Htop)) as Hu.
  apply wp_done in Hu as ([] & s1 & He1 & H1 & Hs1). exists s1.
  enough (Hw : wp (pick_next_task_rt c prev) (fun r s' => rt_ok c s' /\ rt_queue_of c s' = rt_queue_of c s /\
    match r with
    | NO_TASK => rt_throttled (rq_rt (rqs s1 c)) <> 0 \/ (forall x, ~ rt_task_queued c s x)
    | PICKED p => rt_throttled (rq_rt (rqs s1 c)) = 0 /\ rt_first c s p /\ p ∉ (pushable_tasks (rq_rt (rqs s' c))).*2
    | RETRY_TASK => False
    end) s).
  { apply wp_done in Hw as (r & s' & He & H). by exists r, s'. }
  unfold pick_next_task_rt, need_pull_rt_task, get_rt, get_task. wgo.
  destruct (Z.ltb_spec (prio (tasks s prev)) (hp_curr (rq_rt (rqs s c)))); [lia|].
  cbn [when andb]. wgo. rewrite Hcl, bool_decide_true by done. cbn [when].
  apply (wp_intro _ _ _ _ _ He1). pose proof (keeps_acct c s s1 Hi H1) as [Hi1 Hq1].
  pose proof (flagged_step c s s1 Hs1 Hfl) as Hfl1. unfold rt_flagged in Hfl1.
  pose proof (rc_nr _ _ _ (ri_counts _ _ _ (ri_base _ _ _ Hi1))) as Hnr. fold (rt_queue_of c s1) in Hnr.
  wgo. destruct (Z.eqb_spec (rt_queued (rq_rt (rqs s1 c))) 0) as [H0|H0].
  { wgo. split_and!; [done|done|]. apply Hfl1 in H0 as [H0|H0]; [by left|right]. rewrite H0, Hq1 in Hnr.
    intros x. unfold rt_task_queued. destruct (concat (rt_queue_of c s)); [apply not_elem_of_nil|done]. }
  unfold put_prev_task, get_task. wgo. rewrite (af_class _ _ H1), Hcl, Hput.
  wcall put_prev_task_rt_run; [done| |].
  { unfold rt_task_queued in Hon. rewrite Hq1. destruct (af_tasks _ _ H1 prev) as (_ & _ & _ & _ & ->). done. }
  intros [] s2 [Hi2 Hq2].
  assert (Hne : concat (rt_queue_of c s2) <> []).
  { intros E. apply H0, Hfl1. right. by rewrite Hnr, <- Hq2, E. }
  pose proof (pick_rt_run c s2 Hi2 Hne) as Hpick. apply wp_done in Hpick as (p & s3 & He & [Hi3 Hq3] & Hl & Hh & Hmin & Hpu).
  apply bind_inv in He as (p' & s3' & He2 & He). apply bind_inv in He as ([] & s3'' & He3 & He4).
  injection He4 as -> ->. wstep. apply (wp_intro _ _ _ _ _ He2). wstep. apply (wp_intro _ _ _ _ _ He3). wstep.
  wcall queue_push_keeps; [exact Hi3|]. intros [] s4 ([Hi4 Hq4] & _ & Hr4). wgo.
  assert (Hthr : rt_throttled (rq_rt (rqs s1 c)) = 0).
  { destruct (decide (rt_throttled (rq_rt (rqs s1 c)) = 0)); [done|]. exfalso. apply H0, Hfl1. by left. }
  split_and!; [done|by rewrite Hq4, Hq3, Hq2|done| |by rewrite Hr4].
  apply (same_queue_first c s s2); [done|done|by rewrite Hq2|by split_and!].
Qed.

Lemma save_in_place fl :
  has fl DEQUEUE_SAVE = true -> has fl DEQUEUE_MOVE = false -> move_entity fl = false.
Proof.
  unfold has, move_entity, DEQUEUE_SAVE, DEQUEUE_MOVE. rewrite negb_false_iff, Z.eqb_eq, Z.land_lor_distr_r.
  intros Hs ->. rewrite Z.lor_0_r.
  assert (H2 : forall n, 0 <= n -> n <> 1 -> Z.testbit 2 n = false).
  { intros n Hn Hne. apply (Z.pow2_bits_false 1). lia. }
  assert (E : Z.land fl 2 = if Z.testbit fl 1 then 2 else 0).
  { apply Z.bits_inj'. intros n Hn. rewrite Z.land_spec.
    destruct (decide (n = 1)) as [->|]; [by destruct (Z.testbit fl 1)|].
    rewrite H2, andb_false_r by done. destruct (Z.testbit fl 1); [by rewrite H2 | by rewrite Z.bits_0]. }
  rewrite E in Hs |- *. by destruct (Z.testbit fl 1).
Qed.

(** C26: [DEQUEUE_SAVE] and [ENQUEUE_RESTORE] without [DEQUEUE_MOVE]: whatever
    is changed of a queued task in between but its priority, its CPU and its
    real-time entity, so its affinity, policy or nice value, the task keeps its
    place in its queue, and the run queue is consistent with the task as
    changed. *)
Theorem rt_change_in_place c p fl f s :
  rt_ok c s -> rt_task_queued c s p ->
  has fl DEQUEUE_SAVE = true -> has fl DEQUEUE_MOVE = false -> in_place f ->
  exists s', change_in_place c p fl f s = Done (tt, s') /\ rt_ok c s' /\
    rt_queue_of c s' = rt_queue_of c s.
Proof.
  intros Hi Hp Hsv Hmo Hf. pose proof (save_in_place fl Hsv Hmo) as Hmv. pose proof (change_in_place_run c p fl f s Hi Hp Hmv Hf) as H.
  apply wp_done in H as ([] & s' & ?). eauto.
Qed.

(** The ticks of a task that keeps running. *)
Fixpoint rt_ticks c p (n : nat) : K unit :=
  match n with
  | O => ret tt
  | S n => do! task_tick_rt c p 0 in rt_ticks c p n
  end.

Lemma shares_perm p pr (q : list (list task)) (l : list task) :
  Klist.wf q -> Klist.at_index q pr = Some l -> p ∈ l ->
  shares_list p q = (1 <? Z.of_nat (length l)).
Proof.
  intros Hwf Hl Hp. unfold shares_list. apply eq_true_iff_eq. rewrite existsb_exists.
  split.
  - intros (l' & Hin & [Hp' Hlen]%andb_true_iff). apply bool_decide_eq_true in Hp'.
    apply list_elem_of_In, list_elem_of_lookup in Hin as [i Hi].
    assert (Hi' : Klist.at_index q (Z.of_nat i) = Some l')
      by (apply Klist.at_index_Some; rewrite Nat2Z.id; split; [lia | done]).
    assert (Z.of_nat i = pr) by (by eapply Klist.wf_unique). subst pr.
    rewrite Hl in Hi'. by injection Hi' as ->.
  - intros Hlen. exists l. split; [|by rewrite bool_decide_true, Hlen].
    apply Klist.at_index_Some in Hl as [_ Hl]. apply list_elem_of_In. by eapply list_elem_of_lookup_2.
Qed.

Lemma requeue_head p pr (q : list (list task)) l :
  Klist.wf q -> Klist.at_index q pr = Some (p :: l) -> requeue_q false p pr q = Klist.put_at pr (l ++ [p]) q.
Proof.
  intros Hwf Hl. unfold requeue_q. rewrite (Klist.unlink_head q pr p l Hwf Hl).
  rewrite Klist.at_index_put by (apply Klist.at_index_is_Some; eauto). rewrite decide_True by done.
  apply Klist.put_put.
Qed.

Lemma rt_ticks_run c p (n : nat) : forall k s,
  rt_ok c s -> rt_task_queued c s p -> policy (tasks s p) = SCHED_RR ->
  rt_time_slice (rt (tasks s p)) = k -> Z.of_nat n < k < 2 ^ 32 ->
  exists s', rt_ticks c p n s = Done (tt, s') /\ rt_ok c s' /\ rt_queue_of c s' = rt_queue_of c s /\
    same_view (tasks s) (tasks s') /\ rt_time_slice (rt (tasks s' p)) = k - Z.of_nat n /\
    sched_rr_timeslice s' = sched_rr_timeslice s.
Proof.
  induction n as [|n IH]; intros k s Hi Hp Hpol Hk Hn; cbn [rt_ticks].
  { exists s. split_and!; [done..|lia|done]. }
  pose proof (task_tick_rt_run c p 0 s Hi Hp) as H. apply wp_done in H as ([] & s1 & He & Hi1 & Hv & Ht).
  unfold ticked_rt in Ht. rewrite Hpol, Hk, u32_small in Ht by lia. cbn [Z.eqb SCHED_RR negb] in Ht.
  destruct (Z.eqb_spec (k - 1) 0); [lia|]. destruct Ht as (Hk1 & Hq1 & Hs1).
  destruct (IH (k - 1) s1) as (s2 & He2 & Hi2 & Hq2 & Hv2 & Hk2 & Hs2); [done| | |done|lia|].
  { unfold rt_task_queued. by rewrite Hq1. }
  { by destruct (Hv p) as (_ & -> & _). }
  exists s2. unfold bind. rewrite He. split_and!; [done|done|congruence|by eapply same_view_trans|lia|congruence].
Qed.

(** A [SCHED_RR] task that runs at the head of its queue with [k] ticks of
    its slice left keeps its place for [k - 1] ticks; the [k]-th gives it a
    new slice, and if other tasks of its priority are waiting, puts it behind
    them and asks for the running task to be rescheduled. *)
Theorem rt_rr_slice c p l s :
  rt_ok c s -> Klist.at_index (rt_queue_of c s) (prio (tasks s p)) = Some (p :: l) ->
  policy (tasks s p) = SCHED_RR -> 0 < rt_time_slice (rt (tasks s p)) < 2 ^ 32 ->
  exists s1 s2,
    rt_ticks c p (Z.to_nat (rt_time_slice (rt (tasks s p)) - 1)) s = Done (tt, s1) /\
    rt_queue_of c s1 = rt_queue_of c s /\ rt_time_slice (rt (tasks s1 p)) = 1 /\
    task_tick_rt c p 0 s1 = Done (tt, s2) /\ rt_ok c s2 /\
    rt_time_slice (rt (tasks s2 p)) = u32 (sched_rr_timeslice s) /\
    rt_queue_of c s2 = Klist.put_at (prio (tasks s p)) (l ++ [p]) (rt_queue_of c s) /\
    (l <> [] -> tif_need_resched (tasks s2 (curr (rqs s1 c))) = true).
Proof.
  intros Hi Hl Hpol Hk. set (k := rt_time_slice (rt (tasks s p))) in *.
  assert (Hp : rt_task_queued c s p) by (eapply Klist.at_index_elem; [exact Hl | by left]).
  destruct (rt_ticks_run c p (Z.to_nat (k - 1)) k s) as (s1 & He1 & Hi1 & Hq1 & Hv1 & Hk1 & Hs1);
    [done|done|done|done|lia|].
  assert (Hp1 : rt_task_queued c s1 p) by (unfold rt_task_queued; by rewrite Hq1).
  pose proof (task_tick_rt_run c p 0 s1 Hi1 Hp1) as H. apply wp_done in H as ([] & s2 & He2 & Hi2 & _ & Ht).
  exists s1, s2. split_and!; [done|done|lia|done|done|..]; unfold ticked_rt in Ht; cbv zeta in Ht;
    destruct (Hv1 p) as (Epr & Epol & _); rewrite Epol, Hpol, Hk1, u32_small, Z2Nat.id in Ht by lia;
    cbn [Z.eqb SCHED_RR negb] in Ht; (destruct (Z.eqb_spec (k - (k - 1) - 1) 0); [cbn [negb] in Ht|lia]);
    rewrite Hs1, Hq1, Epr in Ht;
    assert (Hwf : Klist.wf (rt_queue_of c s)) by apply (ra_wf _ _ _ (ri_array _ _ _ (ri_base _ _ _ Hi)));
    rewrite (shares_perm p _ _ _ Hwf Hl ltac:(by left)) in Ht; destruct Ht as [Hk2 Ht].
  - done.
  - destruct (1 <? _) eqn:E; [destruct Ht as [-> _]; by apply requeue_head|]. rewrite Ht.
    destruct l; [|by apply Z.ltb_ge in E; cbn in E; lia]. simpl. symmetry.
    apply Klist.at_index_Some in Hl as [_ Hl]. by apply list_insert_id.
  - intros Hne. destruct l as [|y l]; [done|].
    destruct (Z.ltb_spec 1 (Z.of_nat (length (p :: y :: l)))); [apply Ht | cbn in *; lia].
Qed.
End Properties.

(** A push walk that starts afresh visits every overloaded CPU once, in
    ascending order, and ends, leaving the cursor reset for the next walk; each
    call of [rto_next_cpu] takes at most two rounds of its loop. *)
Theorem rto_walk_complete s :
  rto_cpu (rd s) = -1 -> rto_loop (rd s) = rto_loop_next (rd s) ->
  StronglySorted Z.lt (rto_mask (rd s)) -> (forall c, c ∈ rto_mask (rd s) -> 0 <= c) ->
  exists s', rto_walk (S (length (rto_mask (rd s)))) s = Done (rto_mask (rd s), s') /\
    rto_cpu (rd s') = -1.
Proof.
  intros Hc Hl Hs H0.
  destruct (rto_walk_run (S (length (rto_mask (rd s)))) s) as (s' & He & H'); [done|done|lia| |].
  - rewrite Hc, rest_all by done. lia.
  - exists s'. by rewrite Hc, rest_all in He.
Qed.

(** Counting a task in or out publishes whether its CPU is overloaded: from
    a root domain whose mask holds exactly the online CPUs flagged as overloaded
    and whose count is the size of the mask, [inc_rt_migration] and
    [dec_rt_migration] lead to one again, with the CPU flagged if and only if it
    now has two tasks of which one may migrate. *)
Theorem rt_overload_published (add : bool) c p s :
  overload_inv s -> overloaded (rq_rt (rqs s c)) = 0 \/ overloaded (rq_rt (rqs s c)) = 1 ->
  exists s', (if add then inc_rt_migration c p else dec_rt_migration c p) s = Done (tt, s') /\
    overload_inv s' /\
    let r := rq_rt (rqs s c) in
    let r' := rq_rt (rqs s' c) in
    let d := if add then 1 else -1 in
    rt_nr_total r' = u64 (rt_nr_total r + d) /\
    rt_nr_migratory r' = (if 1 <? nr_cpus_allowed (tasks s p)
                          then u64 (rt_nr_migratory r + d) else rt_nr_migratory r) /\
    (online (rqs s c) = true -> (c ∈ rto_mask (rd s') <-> rt_nr_migratory r' <> 0 /\ 1 < rt_nr_total r')).
Proof.
  intros Hi Hf.
  assert (H : forall d, wp (let! t := get_task p in
      do! set_rt c (fun r => r <| rt_nr_total ::= fun n => u64 (n + d) |>) in
      do! when (1 <? nr_cpus_allowed t) (set_rt c (fun r => r <| rt_nr_migratory ::= fun n => u64 (n + d) |>)) in
      update_rt_migration c) (fun _ s' => overload_inv s' /\
    let r := rq_rt (rqs s c) in
    let r' := rq_rt (rqs s' c) in
    rt_nr_total r' = u64 (rt_nr_total r + d) /\
    rt_nr_migratory r' = (if 1 <? nr_cpus_allowed (tasks s p)
                          then u64 (rt_nr_migratory r + d) else rt_nr_migratory r) /\
    (online (rqs s c) = true -> (c ∈ rto_mask (rd s') <-> rt_nr_migratory r' <> 0 /\ 1 < rt_nr_total r'))) s).
  { intros d. unfold get_task. wgo.
    set (F := fun r => r <| rt_nr_total ::= fun n => u64 (n + d) |>
                         <| rt_nr_migratory ::= fun n => if 1 <? nr_cpus_allowed (tasks s p) then u64 (n + d) else n |>).
    apply (wp_mono _ (fun _ s1 => exists s2, when (1 <? nr_cpus_allowed (tasks s p))
      (set_rt c (fun r => r <| rt_nr_migratory ::= fun n => u64 (n + d) |>)) s1 = Done (tt, s2) /\
      rd s2 = rd s /\ online (rqs s2 c) = online (rqs s c) /\
      rq_rt (rqs s2 c) = F (rq_rt (rqs s c)) /\ forall i, i <> c -> rqs s2 i = rqs s i)).
    { unfold set_rt, set_rq. wgo. destruct (1 <? nr_cpus_allowed (tasks s p)); cbn [when]; eexists;
        (split; [reflexivity|]); simpl; rewrite ?fn_lookup_alter; split_and!; try done;
        intros i Hic; by rewrite ?fn_lookup_alter_ne. }
    intros [] s1 (s2 & He & Hrd & Hon & Hr & Hrs). wstep. apply (wp_intro _ _ _ _ _ He).
    wcall update_rt_migration_run.
    - destruct Hi as [? ? Hm Hroom]. split; rewrite ?Hrd; [done|done| |].
      + intros i. rewrite Hm. destruct (decide (i = c)) as [->|Hne]; [by rewrite Hon, Hr | by rewrite Hrs].
      + intros i. destruct (decide (i = c)) as [->|Hne]; [rewrite Hon; apply Hroom | rewrite Hrs by done; apply Hroom].
    - by rewrite Hr.
    - intros [] s3 (Hi3 & Hr3 & Hon3 & _). rewrite Hr in Hr3. split; [done|]. cbv zeta. rewrite Hr3. simpl.
      split_and!; [done|done|]. intros Hon'. rewrite (oi_mask _ Hi3), Hon3, Hon, Hr3. simpl.
      unfold overload_flag. simpl.
      destruct (Z.eqb_spec (if 1 <? nr_cpus_allowed (tasks s p) then u64 (rt_nr_migratory (rq_rt (rqs s c)) + d)
                            else rt_nr_migratory (rq_rt (rqs s c))) 0),
        (Z.ltb_spec 1 (u64 (rt_nr_total (rq_rt (rqs s c)) + d))); cbn; naive_solver lia. }
  specialize (H (if add then 1 else -1)). apply wp_done in H as ([] & s' & He & H).
  exists s'. split; [by destruct add | exact H].
Qed.

(** ** Concrete instances *)

Module Example.
Import Machine.

#[local] Instance features : SchedFeat := fun _ => true.
#[local] Instance limits : Rlimits :=
  {| rlimit_rttime := fun _ => RLIM_INFINITY; rlimit_rttime_max := fun _ => RLIM_INFINITY |}.
#[local] Instance prev_of_rt : PutPrev := fun _ c p => put_prev_task_rt c p.
#[local] Instance no_moves : CoreOps :=
  {| deactivate_task_op := fun _ _ _ => ret tt; set_task_cpu_op := fun _ _ => ret tt;
     activate_task_op := fun _ _ _ => ret tt |}.

Definition rt_of (pr pol slice : Z) (t : task_struct) : task_struct :=
  t <| prio := pr |> <| policy := pol |> <| sched_class := rt_sched_class |>
    <| rt ::= fun e => e <| rt_time_slice := slice |> |>.

Definition before_boot : kstate :=
  after (do! set_task 1 (rt_of 50 SCHED_RR 2) in
         do! set_task 2 (rt_of 50 SCHED_RR 100) in
         set_task 3 (rt_of 70 SCHED_FIFO 100)) machine0.

Definition boot0 : kstate := after (init_rt_rq 0) before_boot.
Definition boot1 : kstate := after (enqueue_task_rt 0 3 0) boot0.
Definition boot2 : kstate := after (enqueue_task_rt 0 1 0) boot1.
Definition boot3 : kstate := after (enqueue_task_rt 0 2 0) boot2.

Lemma before_boot_fresh : rt_fresh (rqs before_boot 0).
Proof. split; [by vm_compute | by vm_compute]. Qed.

Lemma boot_steps : rtc (rt_step 0) boot0 boot3.
Proof.
  assert (H : forall p s s', rt_enqueuable 0 p s -> enqueue_task_rt 0 p 0 s = Done (tt, s') -> rt_step 0 s s')
    by (intros p s s' H1 H2; apply (step_enqueue 0 p 0 s s' H1); [by vm_compute | exact H2]).
  eapply rtc_l; [apply (H 3 boot0 boot1)|eapply rtc_l; [apply (H 1 boot1 boot2)|
    apply rtc_once, (H 2 boot2 boot3)]].
  all: try (by vm_compute).
  all: split; try (by vm_compute); try (apply (bool_decide_unpack _); by vm_compute).
Qed.

Lemma boot3_ok : rt_ok 0 boot3.
Proof.
  eapply rt_reachable_ok; [exact boot_steps|].
  apply (init_ok 0 before_boot boot0); [exact before_boot_fresh | by vm_compute].
Qed.

Lemma rt_safety_witness :
  rt_inv 0 (tasks boot3) (rqs boot3 0) /\
  exists s', dequeue_task_rt 0 3 0 boot3 = Done (tt, s') /\ ~ rt_task_queued 0 s' 3.
Proof.
  destruct (rt_safety 0 before_boot boot0 boot3) as (H & _ & Hd & _);
    [exact before_boot_fresh | by vm_compute | exact boot_steps|].
  split; [exact H|]. apply Hd; [|by vm_compute]. unfold rt_task_queued. apply (bool_decide_unpack _). by vm_compute.
Defined.

(** Tasks 1 and 2 have priority 50 and task 3 has 70: task 1 is picked. *)
Lemma boot3_flagged : rt_flagged (rq_rt (rqs boot3 0)).
Proof. unfold rt_flagged. apply (bool_decide_unpack _). by vm_compute. Qed.

Lemma rt_pick_highest_witness :
  exists s', pick_next_task_rt 0 3 boot3 = Done (PICKED 1, s') /\ rt_first 0 boot3 1.
Proof.
  destruct (rt_pick_highest 0 3 boot3) as (s1 & r & s' & _ & He & _ & _ & Hr).
  - exact boot3_ok.
  - exact boot3_flagged.
  - by vm_compute.
  - by vm_compute.
  - intros _. unfold rt_task_queued. apply (bool_decide_unpack _). by vm_compute.
  - done.
  - assert (E : fst <$> (match pick_next_task_rt 0 3 boot3 with Done x => Some x | Crash _ => None end)
                = Some (PICKED 1)) by by vm_compute.
    rewrite He in E. injection E as ->. exists s'. split; [exact He | apply Hr].
Defined.

(** Task 2 may run on CPU 0 only: it stays behind task 1. *)
Definition pin (t : task_struct) : task_struct := t <| nr_cpus_allowed := 1 |> <| cpus_allowed := [0] |>.

Lemma rt_change_in_place_witness :
  exists s', change_in_place 0 2 (Z.lor DEQUEUE_SAVE DEQUEUE_NOCLOCK) pin boot3 = Done (tt, s') /\
    Klist.at_index (rt_queue_of 0 s') 50 = Some [1; 2].
Proof.
  destruct (rt_change_in_place 0 2 (Z.lor DEQUEUE_SAVE DEQUEUE_NOCLOCK) pin boot3) as (s' & He & _ & Hq).
  - exact boot3_ok.
  - unfold rt_task_queued. apply (bool_decide_unpack _). by vm_compute.
  - by vm_compute.
  - by vm_compute.
  - done.
  - exists s'. split; [exact He|]. rewrite Hq. by vm_compute.
Defined.

(** Task 1 has two ticks left, task 2 waits behind it. *)
Lemma rt_rr_slice_witness :
  exists s1 s2, rt_ticks 0 1 1 boot3 = Done (tt, s1) /\ task_tick_rt 0 1 0 s1 = Done (tt, s2) /\
    Klist.at_index (rt_queue_of 0 s2) 50 = Some [2; 1] /\ rt_time_slice (rt (tasks s2 1)) = 100.
Proof.
  destruct (rt_rr_slice 0 1 [2] boot3) as (s1 & s2 & H1 & _ & _ & H2 & _ & H3 & H4 & _).
  - exact boot3_ok.
  - by vm_compute.
  - by vm_compute.
  - by vm_compute.
  - exists s1, s2. split; [exact H1|]. split; [exact H2|]. split; [rewrite H4; by vm_compute|].
    rewrite H3. by vm_compute.
Defined.

(** CPUs 2, 5 and 7 are overloaded. *)
Definition overloaded3 : kstate :=
  machine0 <| rd ::= fun d => d <| rto_mask := [2; 5; 7] |> <| rto_count := 3 |> |>.

Lemma rto_walk_complete_witness :
  exists s', rto_walk 4 overloaded3 = Done ([2; 5; 7], s') /\ rto_cpu (rd s') = -1.
Proof.
  apply (rto_walk_complete overloaded3).
  - done.
  - done.
  - repeat constructor; lia.
  - intros c Hc. simpl in Hc. set_solver by lia.
Defined.

(** The second task to come in makes CPU 0 overloaded. *)
Definition two_cpus : kstate :=
  after (do! set_rq 0 (fun r => r <| online := true |>) in
         do! set_rt 0 (fun r => r <| rt_nr_total := 1 |>) in
         modify (fun s => s <| rqs ::= fun g i => (g i) <| online := bool_decide (i = 0 \/ i = 1) |> |>)) machine0.

Lemma rt_overload_published_witness :
  exists s', inc_rt_migration 0 1 two_cpus = Done (tt, s') /\ 0 ∈ rto_mask (rd s').
Proof.
  destruct (rt_overload_published true 0 1 two_cpus) as (s' & He & _ & Ht & Hm & Ho).
  - split; [done | constructor | |].
    + intros i. split; [by intros ?%not_elem_of_nil|]. intros [_ H]. exfalso. apply H.
      unfold two_cpus. simpl. destruct (decide (i = 0)) as [->|Hne]; [done|].
      by rewrite !fn_lookup_alter_ne.
    + intros i. unfold two_cpus. simpl. rewrite bool_decide_eq_true. unfold NR_CPUS. lia.
  - by left.
  - exists s'. split; [exact He|]. apply Ho; [done|]. rewrite Ht, Hm. by vm_compute.
Defined.
End Example.
