(* ===== verification/SchedClass.v ===== *)
(** * Scheduling classes and the core that drives them ([kernel/sched/core.c])

    A [struct sched_class] is a record of methods.  [rt_sched_class] and
    [ts_sched_class] are tables of the operations of [Rt.v] and [Ts.v]; the
    tables of [stop.c], [deadline.c], [fair.c] and [idle.c] are parameters.
    The core moves tasks between run queues through these tables. *)

From S2P Require Import Prelude Sched Ts RtBandwidth Rt.

(** ** The tables *)

Record class_methods : Type := mk_class_methods {
  m_enqueue_task : cpu -> task -> Z -> K unit;
  m_dequeue_task : cpu -> task -> Z -> K unit;
  m_yield_task : cpu -> K unit;
  m_check_preempt_curr : cpu -> task -> Z -> K unit;
  m_pick_next_task : cpu -> task -> K picked;
  m_put_prev_task : cpu -> task -> K unit;
  m_select_task_rq : task -> cpu -> Z -> Z -> K cpu;
  m_migrate_task_rq : option (task -> cpu -> K unit);
  m_task_woken : option (cpu -> task -> K unit);
  m_set_cpus_allowed : task -> list cpu -> K unit;
  m_rq_online : option (cpu -> K unit);
  m_rq_offline : option (cpu -> K unit);
  m_set_curr_task : cpu -> K unit;
  m_task_tick : cpu -> task -> Z -> K unit;
  m_task_fork : option (task -> K unit);
  m_task_dead : option (task -> K unit);
  m_switched_from : option (cpu -> task -> K unit);
  m_switched_to : cpu -> task -> K unit;
  m_prio_changed : cpu -> task -> Z -> K unit;
  m_get_rr_interval : option (cpu -> task -> K Z)
}.

(** The classes of the other files of [kernel/sched/], and the functions of
    these files that [core.c] calls.  [other_callback] are the balance
    callbacks of other classes. *)
Class OtherClasses : Type := {
  other_class : sched_class_t -> class_methods;
  reweight_task : task -> Z -> K unit;
  other_callback : Z -> cpu -> K unit
}.

(** [for_each_class]: the order of the [next] fields. *)
Definition sched_classes : list sched_class_t :=
  [stop_sched_class; dl_sched_class; rt_sched_class; ts_sched_class;
   fair_sched_class; idle_sched_class].

Definition call_if {A} (m : option A) (f : A -> K unit) : K unit :=
  match m with Some m => f m | None => ret tt end.

(** ** Load weights *)

Definition sched_prio_to_weight : list Z :=
  [88761; 71755; 56483; 46273; 36291;
   29154; 23254; 18705; 14949; 11916;
   9548; 7620; 6100; 4904; 3906;
   3121; 2501; 1991; 1586; 1277;
   1024; 820; 655; 526; 423;
   335; 272; 215; 172; 137;
   110; 87; 70; 56; 45;
   36; 29; 23; 18; 15].

Definition sched_prio_to_wmult : list Z :=
  [48388; 59856; 76040; 92818; 118348;
   147320; 184698; 229616; 287308; 360437;
   449829; 563644; 704093; 875809; 1099582;
   1376151; 1717300; 2157191; 2708050; 3363326;
   4194304; 5237765; 6557202; 8165337; 10153587;
   12820798; 15790321; 19976592; 24970740; 31350126;
   39045157; 49367440; 61356676; 76695844; 95443717;
   119304647; 148102320; 186737708; 238609294; 286331153].

(** An entry of one of the tables. *)
Definition table_at (t : list Z) (i : Z) : K Z :=
  require BadIndex (if i <? 0 then None else t !! Z.to_nat i).

Definition set_load_weight `{OtherClasses} (p : task) (update_load : bool) : K unit :=
  let! t := get_task p in
  let prio := static_prio t - MAX_RT_PRIO in
  if idle_policy (policy t) then
    do! set_task p (fun t => t <| se ::= fun e => e <| load_weight := scale_load WEIGHT_IDLEPRIO |> |>) in
    set_task p (fun t => t <| se ::= fun e => e <| load_inv_weight := WMULT_IDLEPRIO |> |>)
  else if update_load && bool_decide (sched_class t = fair_sched_class) then reweight_task p prio
  else
    let! w := table_at sched_prio_to_weight prio in
    do! set_task p (fun t => t <| se ::= fun e => e <| load_weight := scale_load w |> |>) in
    let! w := table_at sched_prio_to_wmult prio in
    set_task p (fun t => t <| se ::= fun e => e <| load_inv_weight := w |> |>).

(** ** Priorities *)

Definition __normal_prio (t : task_struct) : Z := static_prio t.

Definition normal_prio_of (t : task_struct) : Z :=
  if task_has_dl_policy t then MAX_DL_PRIO - 1
  else if task_has_rt_policy t then MAX_RT_PRIO - 1 - rt_priority t
  else __normal_prio t.

(** [effective_prio]; it stores [normal_prio]. *)
Definition effective_prio (p : task) : K Z :=
  do! set_task p (fun t => t <| normal_prio := normal_prio_of t |>) in
  let! t := get_task p in
  if negb (rt_prio (prio t)) then ret (normal_prio t) else ret (prio t).

Definition task_prio (t : task_struct) : Z := prio t - MAX_RT_PRIO.

(** ** Queuing

    [enqueue_task] and [dequeue_task] without the statistics of
    [sched_info]. *)

Section Core.
Context `{Hfeat : SchedFeat} `{Hlim : Rlimits} `{Hpri : Cpupri} `{Htop : Topology}.
Context `{Hoth : OtherClasses}.

(** A method that [fake_sched_class] leaves NULL. *)
Definition null_method {A} : K A := crash NullDeref.

Definition class_enqueue (k : sched_class_t) : cpu -> task -> Z -> K unit :=
  match k with
  | fake_sched_class => fun _ _ _ => null_method
  | rt_sched_class => enqueue_task_rt
  | ts_sched_class => enqueue_task_ts
  | _ => m_enqueue_task (other_class k)
  end.

Definition class_dequeue (k : sched_class_t) : cpu -> task -> Z -> K unit :=
  match k with
  | fake_sched_class => fun _ _ _ => null_method
  | rt_sched_class => dequeue_task_rt
  | ts_sched_class => dequeue_task_ts
  | _ => m_dequeue_task (other_class k)
  end.

Definition class_migrate (k : sched_class_t) : option (task -> cpu -> K unit) :=
  match k with
  | rt_sched_class | ts_sched_class | fake_sched_class => None
  | _ => m_migrate_task_rq (other_class k)
  end.

Definition put_prev_task_fake (c : cpu) (prev : task) : K unit := ret tt.

#[export] Instance class_put_prev : PutPrev := fun k =>
  match k with
  | fake_sched_class => put_prev_task_fake
  | rt_sched_class => put_prev_task_rt
  | ts_sched_class => put_prev_task_ts
  | _ => m_put_prev_task (other_class k)
  end.

Definition enqueue_task (c : cpu) (p : task) (flags : Z) : K unit :=
  do! when (negb (has flags ENQUEUE_NOCLOCK)) (update_rq_clock c) in
  let! t := get_task p in
  class_enqueue (sched_class t) c p flags.

Definition dequeue_task (c : cpu) (p : task) (flags : Z) : K unit :=
  do! when (negb (has flags DEQUEUE_NOCLOCK)) (update_rq_clock c) in
  let! t := get_task p in
  class_dequeue (sched_class t) c p flags.

Definition activate_task (c : cpu) (p : task) (flags : Z) : K unit :=
  let! t := get_task p in
  do! when (task_contributes_to_load t)
        (set_rq c (fun r => r <| nr_uninterruptible ::= fun n => u64 (n - 1) |>)) in
  enqueue_task c p flags.

Definition deactivate_task (c : cpu) (p : task) (flags : Z) : K unit :=
  let! t := get_task p in
  do! when (task_contributes_to_load t)
        (set_rq c (fun r => r <| nr_uninterruptible ::= fun n => u64 (n + 1) |>)) in
  dequeue_task c p flags.

(** [set_task_rq] is for task groups. *)
Definition __set_task_cpu (p : task) (c : cpu) : K unit :=
  do! set_task p (fun t => t <| task_cpu := c |>) in
  set_task p (fun t => t <| wake_cpu := c |>).

Definition set_task_cpu (p : task) (new_cpu : cpu) : K unit :=
  let! t := get_task p in
  do! when (negb (task_cpu t =? new_cpu))
    (do! call_if (class_migrate (sched_class t)) (fun m => m p new_cpu) in
     set_task p (fun t => t <| se ::= fun e => e <| nr_migrations ::= fun n => u64 (n + 1) |> |>)) in
  __set_task_cpu p new_cpu.

#[export] Instance core_ops : CoreOps :=
  {| deactivate_task_op := deactivate_task; set_task_cpu_op := set_task_cpu;
     activate_task_op := activate_task |}.

(** [set_cpus_allowed_common] *)
Definition set_cpus_allowed_common (p : task) (new_mask : list cpu) : K unit :=
  do! set_task p (fun t => t <| cpus_allowed := new_mask |>) in
  set_task p (fun t => t <| nr_cpus_allowed := Z.of_nat (length new_mask) |>).

(** [pick_next_task_ts] as a method. *)
Definition ts_pick (c : cpu) (prev : task) : K picked :=
  let! p := pick_next_task_ts c prev in
  ret (match p with Some p => PICKED p | None => NO_TASK end).

Definition rt_class : class_methods :=
  {| m_enqueue_task := enqueue_task_rt;
     m_dequeue_task := dequeue_task_rt;
     m_yield_task := yield_task_rt;
     m_check_preempt_curr := check_preempt_curr_rt;
     m_pick_next_task := pick_next_task_rt;
     m_put_prev_task := put_prev_task_rt;
     m_select_task_rq := select_task_rq_rt;
     m_migrate_task_rq := None;
     m_task_woken := Some task_woken_rt;
     m_set_cpus_allowed := set_cpus_allowed_common;
     m_rq_online := Some rq_online_rt;
     m_rq_offline := Some rq_offline_rt;
     m_set_curr_task := set_curr_task_rt;
     m_task_tick := task_tick_rt;
     m_task_fork := None;
     m_task_dead := None;
     m_switched_from := Some switched_from_rt;
     m_switched_to := switched_to_rt;
     m_prio_changed := prio_changed_rt;
     m_get_rr_interval := Some get_rr_interval_rt |}.

Definition ts_class : class_methods :=
  {| m_enqueue_task := enqueue_task_ts;
     m_dequeue_task := dequeue_task_ts;
     m_yield_task := yield_task_ts;
     m_check_preempt_curr := check_preempt_curr_ts;
     m_pick_next_task := ts_pick;
     m_put_prev_task := put_prev_task_ts;
     m_select_task_rq := select_task_rq_ts;
     m_migrate_task_rq := None;
     m_task_woken := None;
     m_set_cpus_allowed := set_cpus_allowed_common;
     m_rq_online := None;
     m_rq_offline := None;
     m_set_curr_task := set_curr_task_ts;
     m_task_tick := task_tick_ts;
     m_task_fork := None;
     m_task_dead := None;
     m_switched_from := None;
     m_switched_to := switched_to_ts;
     m_prio_changed := prio_changed_ts;
     m_get_rr_interval := Some get_rr_interval_ts |}.

(** The class of the task that [migrate_tasks] passes off as the previous one. *)
Definition fake_class : class_methods :=
  {| m_enqueue_task _ _ _ := null_method;
     m_dequeue_task _ _ _ := null_method;
     m_yield_task _ := null_method;
     m_check_preempt_curr _ _ _ := null_method;
     m_pick_next_task _ _ := null_method;
     m_put_prev_task := put_prev_task_fake;
     m_select_task_rq _ _ _ _ := null_method;
     m_migrate_task_rq := None;
     m_task_woken := None;
     m_set_cpus_allowed _ _ := null_method;
     m_rq_online := None;
     m_rq_offline := None;
     m_set_curr_task _ := null_method;
     m_task_tick _ _ _ := null_method;
     m_task_fork := None;
     m_task_dead := None;
     m_switched_from := None;
     m_switched_to _ _ := null_method;
     m_prio_changed _ _ _ := null_method;
     m_get_rr_interval := None |}.

Definition class_of (k : sched_class_t) : class_methods :=
  match k with
  | fake_sched_class => fake_class
  | rt_sched_class => rt_class
  | ts_sched_class => ts_class
  | _ => other_class k
  end.

(** The methods of the class of [p]. *)
Definition task_class (p : task) : K class_methods :=
  let! t := get_task p in
  ret (class_of (sched_class t)).

Definition set_curr_task (c : cpu) (p : task) : K unit :=
  let! k := task_class p in
  m_set_curr_task k c.

(** ** Preemption *)

Definition check_class_changed (c : cpu) (p : task) (prev_class : sched_class_t) (oldprio : Z) : K unit :=
  let! t := get_task p in
  if negb (bool_decide (prev_class = sched_class t)) then
    do! call_if (m_switched_from (class_of prev_class)) (fun m => m c p) in
    let! k := task_class p in
    m_switched_to k c p
  else
    when (negb (oldprio =? prio t) || dl_task t)
      (m_prio_changed (class_of (sched_class t)) c p oldprio).

(** The [for_each_class] loop: whether the class of [p] comes before that of
    the running task. *)
Fixpoint class_before (l : list sched_class_t) (kcurr kp : sched_class_t) : bool :=
  match l with
  | [] => false
  | k :: l =>
      if bool_decide (k = kcurr) then false else
      if bool_decide (k = kp) then true else class_before l kcurr kp
  end.

Definition check_preempt_curr (c : cpu) (p : task) (flags : Z) : K unit :=
  let! s := gets (fun s => s) in
  let kp := sched_class (tasks s p) in
  let kcurr := sched_class (tasks s (curr (rqs s c))) in
  do! (if bool_decide (kp = kcurr) then m_check_preempt_curr (class_of kcurr) c p flags
       else when (class_before sched_classes kcurr kp) (resched_curr c)) in
  let! s := gets (fun s => s) in
  let tc := tasks s (curr (rqs s c)) in
  when (task_on_rq_queued tc && tif_need_resched tc) (rq_clock_skip_update c).

(** ** CPUs coming and going *)

Definition set_rq_online (c : cpu) : K unit :=
  let! r := get_rq c in
  when (negb (online r))
    (do! set_rq c (fun r => r <| online := true |>) in
     foreach sched_classes (fun k => call_if (m_rq_online (class_of k)) (fun m => m c))).

Definition set_rq_offline (c : cpu) : K unit :=
  let! r := get_rq c in
  when (online r)
    (do! foreach sched_classes (fun k => call_if (m_rq_offline (class_of k)) (fun m => m c)) in
     set_rq c (fun r => r <| online := false |>)).

(** ** Balance callbacks *)

Definition run_callback (f : Z) (c : cpu) : K unit :=
  if f =? rt_push_head then push_rt_tasks c
  else if f =? rt_pull_head then pull_rt_task c
  else other_callback f c.

Definition __balance_callback (c : cpu) : K unit :=
  let! r := get_rq c in
  do! set_rq c (fun r => r <| balance_callback := [] |>) in
  foreach (balance_callback r) (fun f => run_callback f c).

(** Named [balance_callback_call]: [balance_callback] is a field. *)
Definition balance_callback_call (c : cpu) : K unit :=
  let! r := get_rq c in
  match balance_callback r with
  | [] => ret tt
  | _ => __balance_callback c
  end.

(** ** Picking the next task *)

(** [for_each_class]; [None] is [RETRY_TASK], and [BUG()] ends the loop. *)
Fixpoint pick_from (l : list sched_class_t) (c : cpu) (prev : task) : K (option task) :=
  match l with
  | [] => crash Bug
  | k :: l =>
      let! p := m_pick_next_task (class_of k) c prev in
      match p with
      | PICKED p => ret (Some p)
      | RETRY_TASK => ret None
      | NO_TASK => pick_from l c prev
      end
  end.

(** From the label [again] on; [fuel] bounds the retries. *)
Fixpoint pick_again (fuel : nat) (c : cpu) (prev : task) : K task :=
  match fuel with
  | O => crash OutOfFuel
  | S fuel =>
      let! p := pick_from sched_classes c prev in
      match p with
      | Some p => ret p
      | None => pick_again fuel c prev
      end
  end.

(** The condition of the fast path: every runnable task is in the fair class. *)
Definition only_fair (s : kstate) (c : cpu) (prev : task) : bool :=
  let k := sched_class (tasks s prev) in
  (bool_decide (k = idle_sched_class) || bool_decide (k = fair_sched_class))
  && (nr_running (rqs s c) =? h_nr_running (rqs s c)).

Definition pick_next_task (fuel : nat) (c : cpu) (prev : task) : K task :=
  let! s := gets (fun s => s) in
  if only_fair s c prev then
    let! p := m_pick_next_task (class_of fair_sched_class) c prev in
    match p with
    | RETRY_TASK => pick_again fuel c prev
    | PICKED p => ret p
    | NO_TASK =>
        let! p := m_pick_next_task (class_of idle_sched_class) c prev in
        match p with PICKED p => ret p | _ => crash NullDeref end
    end
  else pick_again fuel c prev.
End Core.
