(* ===== verification/ClassProps.v ===== *)
(** * The core and the classes together: what they guarantee

    Theorems on [SchedClass.v]: moving real-time tasks from CPU to CPU keeps
    every run queue consistent and loses none, the order of the classes when
    the next task is picked, and the tables of load weights. *)

From S2P Require Import Prelude Sched Ts RtBandwidth Rt RtProps SchedClass.

(** ** The real-time run queues of all CPUs *)

(** The run queue of [c] is consistent, its tasks are of the class and marked
    as queued, and the running task is not pushable. *)
Record rt_cpu_ok (c : cpu) (s : kstate) : Prop := {
  co_ok : rt_ok c s;
  co_task : forall p, rt_task_queued c s p ->
    sched_class (tasks s p) = rt_sched_class /\ on_rq (tasks s p) = TASK_ON_RQ_QUEUED;
  co_curr : curr (rqs s c) ∉ (pushable_tasks (rq_rt (rqs s c))).*2
}.

(** How many tasks a CPU has. *)
Definition rt_load (c : cpu) (s : kstate) : Z :=
  others (rqs s c) + Z.of_nat (length (concat (rt_queue_of c s))).

Section Frames.
Implicit Types (c i : cpu) (p : task) (s : kstate).

Lemma cpu_ok_acct i s s' : rt_cpu_ok i s -> acct_frame s s' -> rt_cpu_ok i s'.
Proof.
  intros [Ho Ht Hc] Hf. destruct (keeps_acct i s s' Ho Hf) as [Hi Hq]. split; [done| |].
  - intros p Hp. unfold rt_task_queued in Hp. rewrite Hq in Hp.
    by rewrite (af_class _ _ Hf), (af_on_rq _ _ Hf); apply Ht.
  - rewrite (af_curr _ _ Hf). destruct (core_queue _ _ (af_core _ _ Hf i)) as (_ & _ & _ & _ & -> & _). done.
Qed.

Lemma load_acct i s s' : acct_frame s s' -> rt_load i s' = rt_load i s /\ rt_queue_of i s' = rt_queue_of i s.
Proof.
  intros Hf. assert (Hq : rt_queue_of i s' = rt_queue_of i s)
    by exact (f_equal rt_queue (af_core _ _ Hf i)).
  split; [|done]. unfold rt_load. by rewrite Hq, (af_others _ _ Hf).
Qed.

(** A change of a task that is not queued on [i], and of run queues in what
    this class does not look at. *)
Lemma cpu_ok_other i p s s' :
  rt_cpu_ok i s -> ~ rt_task_queued i s p -> (forall x, x <> p -> tasks s' x = tasks s x) ->
  rq_rt (rqs s' i) = rq_rt (rqs s i) -> nr_running (rqs s' i) = nr_running (rqs s i) ->
  curr (rqs s' i) = curr (rqs s i) ->
  rt_cpu_ok i s' /\ rt_load i s' = rt_load i s /\ rt_queue_of i s' = rt_queue_of i s.
Proof.
  intros [Ho Ht Hc] Hp Hx Hr Hn Hcu.
  assert (Hoth : others (rqs s' i) = others (rqs s i)) by (unfold others; by rewrite Hr, Hn).
  assert (Hq : rt_queue_of i s' = rt_queue_of i s) by (unfold rt_queue_of; by rewrite Hr).
  assert (Hs : forall x, rt_task_queued i s x -> tasks s' x = tasks s x).
  { intros x Hqx. apply Hx. by intros ->. }
  split; [split|split; [unfold rt_load; by rewrite Hq, Hoth | done]].
  - apply (outside_ok i s); [done|]. destruct Ho as [[_ _ _ _ H0 H1] _]. split_and!; [done| | |].
    + by rewrite Hoth.
    + by rewrite Hoth.
    + intros x Hqx. by rewrite Hs.
  - intros x Hqx. unfold rt_task_queued in Hqx. rewrite Hq in Hqx. rewrite Hs by done. by apply Ht.
  - by rewrite Hr, Hcu.
Qed.

(** A queued task is on the run queue of its CPU only. *)
Lemma queued_cpu i s p : rt_cpu_ok i s -> rt_task_queued i s p -> task_cpu (tasks s p) = i.
Proof. intros [Ho _ _] Hp. by apply (queued_prio i s p (ri_base _ _ _ Ho) Hp). Qed.
End Frames.

(** ** Moving a task *)

Section Moves.
Context `{Hfeat : SchedFeat} `{Hlim : Rlimits} `{Hpri : Cpupri} `{Htop : Topology}.
Context `{Hoth : OtherClasses}.
Implicit Types (c i j : cpu) (p : task) (s : kstate).

Definition all_ok s : Prop := forall j, rt_cpu_ok j s.

(** What the clock and load bookkeeping change. *)
Lemma set_rq_other c f s :
  (forall r, rq_rt (f r) = rq_rt r /\ nr_running (f r) = nr_running r /\ curr (f r) = curr r) ->
  all_ok s ->
  wp (set_rq c f) (fun _ s' => all_ok s' /\ tasks s' = tasks s /\ rd s' = rd s /\
    forall j, rt_load j s' = rt_load j s /\ rq_rt (rqs s' j) = rq_rt (rqs s j) /\
              curr (rqs s' j) = curr (rqs s j)) s.
Proof.
  intros Hf Ha. eapply wp_intro; [reflexivity|].
  assert (H : forall j, let r' := rqs (s <| rqs ::= alter f c |>) j in
    rq_rt r' = rq_rt (rqs s j) /\ nr_running r' = nr_running (rqs s j) /\ curr r' = curr (rqs s j)).
  { intros j. simpl. destruct (decide (c = j)) as [->|]; [rewrite fn_lookup_alter; apply Hf|].
    by rewrite fn_lookup_alter_ne. }
  split; [|split; [done|split; [done|]]].
  - intros j. destruct (H j) as (H1 & H2 & H3). destruct (Ha j) as [Ho Ht Hc]. split.
    + apply (outside_ok j s); [done|]. destruct Ho as [[_ _ _ _ H4 H5] _].
      split_and!; [exact H1|unfold others; by rewrite H1, H2|unfold others; by rewrite H1, H2|done].
    + intros x Hx. unfold rt_task_queued, rt_queue_of in Hx. rewrite H1 in Hx. by apply Ht.
    + by rewrite H1, H3.
  - intros j. destruct (H j) as (H1 & H2 & H3). split_and!; [|exact H1|exact H3].
    unfold rt_load, rt_queue_of, others. by rewrite H1, H2.
Qed.

(** The same for a computation made of such changes. *)
Definition rt_same s s' : Prop :=
  all_ok s' /\ tasks s' = tasks s /\ rd s' = rd s /\
  forall j, rt_load j s' = rt_load j s /\ rq_rt (rqs s' j) = rq_rt (rqs s j) /\
            curr (rqs s' j) = curr (rqs s j).

Lemma rt_same_refl s : all_ok s -> rt_same s s.
Proof. done. Qed.

Lemma rt_same_trans s1 s2 s3 : rt_same s1 s2 -> rt_same s2 s3 -> rt_same s1 s3.
Proof.
  intros (_ & A2 & A3 & A4) (B1 & B2 & B3 & B4). split; [done|]. split; [congruence|].
  split; [congruence|]. intros j. destruct (A4 j) as (? & ? & ?), (B4 j) as (? & ? & ?).
  split_and!; congruence.
Qed.

Lemma rt_same_queue j s s' : rt_same s s' -> rt_queue_of j s' = rt_queue_of j s.
Proof. intros (_ & _ & _ & H). unfold rt_queue_of. by destruct (H j) as (_ & -> & _). Qed.

Lemma update_rq_clock_same c s : all_ok s -> wp (update_rq_clock c) (fun _ => rt_same s) s.
Proof.
  intros Ha. unfold update_rq_clock, update_rq_clock_task, get_rq. wgo.
  destruct (has _ _); [by apply rt_same_refl|]. wgo. cbv zeta.
  destruct (_ <? 0); [by apply rt_same_refl|]. wgo.
  wcall set_rq_other; [done|done|]. intros [] s1 H1.
  wcall set_rq_other; [done|apply H1|]. intros [] s2 H2. by eapply rt_same_trans.
Qed.

Lemma count_uninterruptible_same c (b : bool) f s :
  all_ok s -> wp (when b (set_rq c (fun r => r <| nr_uninterruptible ::= f |>))) (fun _ => rt_same s) s.
Proof.
  intros Ha. destruct b; [|by apply rt_same_refl]. cbn [when].
  wcall set_rq_other; done.
Qed.

(** Taking [p] off [c]. *)
Lemma deactivate_rt_run c p s :
  all_ok s -> rt_task_queued c s p ->
  wp (deactivate_task c p 0) (fun _ s' =>
    all_ok s' /\ (forall j, ~ rt_task_queued j s' p) /\
    (forall j, rt_load j s' <= rt_load j s) /\
    (forall j x, x <> p -> rt_task_queued j s' x <-> rt_task_queued j s x) /\
    (forall x, prio (tasks s' x) = prio (tasks s x) /\ sched_class (tasks s' x) = sched_class (tasks s x) /\
               on_rq (tasks s' x) = on_rq (tasks s x)) /\
    rt_on_rq (rt (tasks s' p)) = 0 /\
    pushable_tasks (rq_rt (rqs s' c)) = plist_del p (pushable_tasks (rq_rt (rqs s c)))) s.
Proof.
  intros Ha Hp. unfold deactivate_task, get_task. do 2 wstep. wstep.
  wcall count_uninterruptible_same; [done|]. intros [] s1 H1. unfold dequeue_task. wstep.
  wcall update_rq_clock_same; [apply H1|]. intros [] s2 H2.
  pose proof (rt_same_trans _ _ _ H1 H2) as H12. clear H1 H2. unfold get_task. do 2 wstep.
  destruct H12 as (Ha2 & Ht & Hrd & Hj).
  assert (Hq2 : forall j, rt_queue_of j s2 = rt_queue_of j s)
    by (intros j; unfold rt_queue_of; by destruct (Hj j) as (_ & -> & _)).
  assert (Hp2 : rt_task_queued c s2 p) by (unfold rt_task_queued; by rewrite Hq2).
  rewrite Ht. destruct (co_task _ _ (Ha c) p Hp) as [Hcl Hon]. rewrite Hcl. cbn [class_dequeue].
  pose proof (co_ok _ _ (Ha2 c)) as Hok2.
  wcall dequeue_task_rt_run; [exact Hok2|exact Hp2|reflexivity|].
  intros [] s3 (Hi3 & Hq3 & Hpu & Hoff & Hpl & Hcu & Hot & s4 & Hf & He & Hrqs).
  assert (Ha4 : all_ok s4) by (intros j; exact (cpu_ok_acct j s2 s4 (Ha2 j) Hf)).
  assert (Hnot : forall j, j <> c -> ~ rt_task_queued j s4 p).
  { intros j Hne Hqj. apply Hne. rewrite <- (queued_cpu j s4 p); [|apply Ha4|done].
    destruct (af_tasks _ _ Hf p) as (_ & _ & _ & -> & _). by apply queued_cpu. }
  assert (Hother : forall j, j <> c -> rt_cpu_ok j s3 /\ rt_load j s3 = rt_load j s4 /\
            rt_queue_of j s3 = rt_queue_of j s4).
  { intros j Hne. apply (cpu_ok_other j p); [apply Ha4|by apply Hnot|apply He| | |];
      by rewrite (Hrqs j Hne). }
  assert (Hcl3 : forall x, sched_class (tasks s3 x) = sched_class (tasks s x) /\
            on_rq (tasks s3 x) = on_rq (tasks s x) /\ prio (tasks s3 x) = prio (tasks s x)).
  { intros x. rewrite <- Ht, <- (af_class _ _ Hf), <- (af_on_rq _ _ Hf).
    destruct (af_tasks _ _ Hf x) as (<- & _). destruct He as [He [G HG]].
    destruct (decide (x = p)) as [->|Hx]; [by rewrite HG | by rewrite He]. }
  assert (Hqc : forall x, rt_task_queued c s3 x <-> rt_task_queued c s x /\ x <> p).
  { intros x. unfold rt_task_queued. rewrite Hq3, Klist.elem_unlink, Hq2. done. }
  assert (Hload : rt_load c s3 <= rt_load c s).
  { destruct (Hj c) as (<- & _). unfold rt_load. rewrite Hot, Hq3.
    pose proof (Klist.unlink_perm p _ (ra_wf _ _ _ (ri_array _ _ _ (ri_base _ _ _ Hok2))) Hp2) as Hperm.
    unfold rt_queue_of. rewrite <- Hperm. cbn [length]. lia. }
  split_and!.
  - intros j. destruct (decide (j = c)) as [->|Hne]; [|by apply Hother]. split; [exact Hi3| |].
    + intros x [Hx _]%Hqc. destruct (Hcl3 x) as (-> & -> & _). by apply (co_task _ _ (Ha c)).
    + rewrite Hcu, Hpl. intros ([n y] & Hy & [Hin _]%plist_del_elem)%list_elem_of_fmap. simpl in Hy.
      apply (co_curr _ _ (Ha2 c)). apply list_elem_of_fmap. by exists (n, y).
  - intros j Hqj. destruct (decide (j = c)) as [->|Hne]; [by apply Hqc in Hqj as [_ ?]|].
    destruct (Hother j Hne) as (_ & _ & Hq). apply (Hnot j Hne). unfold rt_task_queued in *. by rewrite <- Hq.
  - intros j. destruct (decide (j = c)) as [->|Hne]; [done|]. destruct (Hother j Hne) as (_ & -> & _).
    destruct (load_acct j _ _ Hf) as [-> _]. destruct (Hj j) as (-> & _). lia.
  - intros j x Hx. destruct (decide (j = c)) as [->|Hne]; [rewrite Hqc; tauto|].
    destruct (Hother j Hne) as (_ & _ & Hq). destruct (load_acct j _ _ Hf) as [_ Hq'].
    unfold rt_task_queued. by rewrite Hq, Hq', Hq2.
  - intros x. destruct (Hcl3 x) as (-> & -> & ->). done.
  - exact Hoff.
  - rewrite Hpl. by destruct (Hj c) as (_ & -> & _).
Qed.

(** Between CPUs, [p] is on no queue. *)
Lemma set_task_cpu_run p i s :
  all_ok s -> (forall j, ~ rt_task_queued j s p) -> sched_class (tasks s p) = rt_sched_class ->
  wp (set_task_cpu p i) (fun _ s' =>
    all_ok s' /\ rqs s' = rqs s /\ (forall x, x <> p -> tasks s' x = tasks s x) /\
    task_cpu (tasks s' p) = i /\ rt (tasks s' p) = rt (tasks s p) /\ on_rq (tasks s' p) = on_rq (tasks s p) /\
    prio (tasks s' p) = prio (tasks s p) /\ sched_class (tasks s' p) = rt_sched_class) s.
Proof.
  intros Ha Hp Hcl. unfold set_task_cpu, __set_task_cpu, get_task. do 2 wstep.
  rewrite Hcl. cbn [class_migrate call_if].
  assert (H : forall s', rqs s' = rqs s -> (forall x, x <> p -> tasks s' x = tasks s x) -> all_ok s').
  { intros s' H1 H2 j. apply (cpu_ok_other j p s s'); [done|done|done|by rewrite H1..]. }
  unfold set_task. wgo. destruct (negb _); cbn [when]; wgo.
  all: split_and!; [apply H; [done|]; intros x Hx; simpl; by rewrite !fn_lookup_alter_ne|done| |..].
  all: try (intros x Hx; simpl; by rewrite !fn_lookup_alter_ne).
  all: simpl; by rewrite !fn_lookup_alter.
Qed.

Lemma activate_rt_run i p s :
  all_ok s -> (forall j, ~ rt_task_queued j s p) -> sched_class (tasks s p) = rt_sched_class ->
  on_rq (tasks s p) = TASK_ON_RQ_QUEUED -> rt_on_rq (rt (tasks s p)) = 0 -> task_cpu (tasks s p) = i ->
  0 <= prio (tasks s p) < 100 -> rt_load i s < 2 ^ 31 - 1 ->
  wp (activate_task i p 0) (fun _ s' =>
    all_ok s' /\ rt_task_queued i s' p /\
    (forall j, rt_load j s' <= rt_load j s + 1) /\
    (forall j x, x <> p -> rt_task_queued j s' x <-> rt_task_queued j s x) /\
    (forall x, prio (tasks s' x) = prio (tasks s x)) /\
    forall j, j <> i -> rq_rt (rqs s' j) = rq_rt (rqs s j)) s.
Proof.
  intros Ha Hp Hcl Hon Hoff Hcpu Hpr Hl. unfold activate_task, get_task. do 2 wstep. wstep.
  wcall count_uninterruptible_same; [done|]. intros [] s1 H1. unfold enqueue_task. wstep.
  wcall update_rq_clock_same; [apply H1|]. intros [] s2 H2.
  pose proof (rt_same_trans _ _ _ H1 H2) as H12. clear H1 H2. unfold get_task. do 2 wstep.
  assert (Hq2 : forall j, rt_queue_of j s2 = rt_queue_of j s) by (intros j; by apply rt_same_queue).
  destruct H12 as (Ha2 & Ht & Hrd & Hj). rewrite Ht, Hcl. cbn [class_enqueue].
  assert (Hp2 : forall j, ~ rt_task_queued j s2 p) by (intros j; unfold rt_task_queued; rewrite Hq2; apply Hp).
  wcall enqueue_task_rt_run.
  { apply (Ha2 i). }
  { split; rewrite ?Ht; [done|done|apply Hp2|done|]. destruct (Hj i) as (E & _).
    change (rt_load i s2 < 2 ^ 31 - 1). by rewrite E. }
  { reflexivity. }
  intros [] s3 (Hi3 & Hq3 & Hin & Hrqs & He & Hcu & Hot & Hpu).
  assert (Hother : forall j, j <> i -> rt_cpu_ok j s3 /\ rt_load j s3 = rt_load j s2 /\
            rt_queue_of j s3 = rt_queue_of j s2).
  { intros j Hne. apply (cpu_ok_other j p); [done|done|apply He| | |]; by rewrite (Hrqs j Hne). }
  assert (Hperm : concat (rt_queue_of i s3) ≡ₚ p :: concat (rt_queue_of i s2)).
  { rewrite Hq3. pose proof (ri_array _ _ _ (ri_base _ _ _ (co_ok _ _ (Ha2 i)))) as Harr.
    apply (link_array i (tasks s2) (tasks s3) _ (has 0 ENQUEUE_HEAD) p (prio (tasks s2 p)) Harr He (Hp2 i)
             eq_refl); rewrite ?Ht; [done|done|].
    by apply (queued_prio i s3 p (ri_base _ _ _ Hi3)). }
  assert (Htask : forall x, sched_class (tasks s3 x) = sched_class (tasks s x) /\
            on_rq (tasks s3 x) = on_rq (tasks s x) /\ prio (tasks s3 x) = prio (tasks s x)).
  { intros x. rewrite <- Ht. destruct He as [He [G HG]].
    destruct (decide (x = p)) as [->|Hx]; [by rewrite HG | by rewrite He]. }
  assert (Hqi : forall x, rt_task_queued i s3 x <-> x = p \/ rt_task_queued i s x).
  { intros x. unfold rt_task_queued. rewrite Hperm, elem_of_cons, Hq2. done. }
  split_and!.
  - intros j. destruct (decide (j = i)) as [->|Hne]; [|by apply Hother]. split; [exact Hi3| |].
    + intros x Hx%Hqi. destruct (Htask x) as (-> & -> & _). destruct Hx as [->|Hx]; [done|].
      by apply (co_task _ _ (Ha i)).
    + rewrite Hcu. intros [H|[H1 H2]]%Hpu; [by apply (co_curr _ _ (Ha2 i)) | by apply H2].
  - exact Hin.
  - intros j. destruct (decide (j = i)) as [->|Hne].
    + destruct (Hj i) as (<- & _). unfold rt_load. rewrite Hot, Hperm. cbn [length]. lia.
    + destruct (Hother j Hne) as (_ & -> & _). destruct (Hj j) as (-> & _). lia.
  - intros j x Hx. destruct (decide (j = i)) as [->|Hne]; [rewrite Hqi; tauto|].
    destruct (Hother j Hne) as (_ & _ & Hq). unfold rt_task_queued. by rewrite Hq, Hq2.
  - intros x. by apply Htask.
  - intros j Hne. rewrite (Hrqs j Hne). by destruct (Hj j) as (_ & -> & _).
Qed.

(** ** Pushing *)

Lemma find_lowest_rq_run p s : exists o, find_lowest_rq p s = Done (o, s).
Proof.
  unfold find_lowest_rq. unfold bind at 1, gets. destruct (_ =? 1); [by eexists|].
  destruct (cpupri_find s p); [by eexists|]. destruct (cpumask_test_cpu _ _); by eexists.
Qed.

(** The CPU comes from those that [cpupri_find] proposes. *)
Lemma find_lowest_rq_in p s i : find_lowest_rq p s = Done (Some i, s) -> i ∈ cpupri_find s p.
Proof.
  unfold find_lowest_rq. unfold bind at 1, gets. destruct (_ =? 1); [done|].
  destruct (cpupri_find s p) as [|j l] eqn:E; [done|].
  destruct (cpumask_test_cpu (task_cpu _) _) eqn:Ec; [intros [= <-]; by apply bool_decide_eq_true in Ec|].
  intros H. apply (f_equal (fun r => match r with Done (o, _) => o | _ => None end)) in H.
  unfold ret in H. cbv beta iota in H. revert H.
  assert (Hme : forall k, (if cpumask_test_cpu (this_cpu s) (j :: l) then Some (this_cpu s) else None) = Some k ->
    k ∈ j :: l).
  { intros k. destruct (cpumask_test_cpu (this_cpu s) _) eqn:Em; [|done]. intros [= <-].
    by apply bool_decide_eq_true in Em. }
  destruct (if cpumask_test_cpu (this_cpu s) _ then _ else _) as [me|]; [specialize (Hme me eq_refl)|clear Hme].
  all: set (lowest_mask := j :: l) in *; clearbody lowest_mask.
  all: induction (wake_affine_spans _) as [|sd ds IH];
    [first [by intros [= <-]|by apply head_Some_elem_of]|].
  1: destruct (cpumask_test_cpu me sd); [by intros [= <-]|].
  all: match goal with |- context [@list_find ?A ?P ?d ?m] =>
         destruct (@list_find A P d m) as [[n best]|] eqn:Ef; [|exact IH] end.
  all: intros [= <-]; apply list_find_Some in Ef as (Hn & _); by eapply list_elem_of_lookup_2.
Qed.

Lemma find_lock_lowest_run p c n s :
  exists o, find_lock_lowest_loop p c n s = Done (o, s) /\
    forall i, o = Some i -> i <> c /\ prio (tasks s p) < hp_curr (rq_rt (rqs s i)) /\ i ∈ cpupri_find s p.
Proof.
  induction n as [|n IH]; cbn [find_lock_lowest_loop]; [by eexists|].
  destruct (find_lowest_rq_run p s) as [[i|] He]; unfold bind at 1; rewrite He; [|by eexists].
  apply find_lowest_rq_in in He.
  destruct (Z.eqb_spec i c); [by eexists|]. unfold bind at 1, gets.
  destruct (Z.leb_spec (hp_curr (rq_rt (rqs s i))) (prio (tasks s p))); [by eexists|].
  destruct (Z.ltb_spec (prio (tasks s p)) (hp_curr (rq_rt (rqs s i)))); [|lia].
  eexists. split; [reflexivity|]. by intros j [= <-].
Qed.

Lemma pick_pushable_run c s :
  rt_cpu_ok c s ->
  pick_next_pushable_task c s
  = Done (match pushable_tasks (rq_rt (rqs s c)) with [] => None | (_, p) :: _ => Some p end, s).
Proof.
  intros [Ho Ht Hc]. unfold pick_next_pushable_task. unfold bind at 1, gets.
  destruct (pushable_tasks (rq_rt (rqs s c))) as [|[n p] l] eqn:E; [done|].
  destruct (rp_task _ _ _ (ri_push _ _ _ Ho) n p) as (_ & Hp & Hn); [rewrite E; by left|].
  destruct (queued_prio c s p (ri_base _ _ _ Ho) Hp) as (Hpr & Hcpu & _).
  destruct (Ht p Hp) as [_ Hon].
  rewrite Hcpu, Z.eqb_refl. unfold task_current, task_on_rq_queued, rt_task, rt_prio.
  rewrite Hon, bool_decide_false by (intros <-; apply Hc; simpl; by left).
  destruct (Z.leb_spec (nr_cpus_allowed (tasks s p)) 1); [lia|].
  destruct (Z.ltb_spec (prio (tasks s p)) MAX_RT_PRIO); [done | unfold MAX_RT_PRIO in *; lia].
Qed.

(** What pushing does, with [n] more tasks allowed to move. *)
Record pushed (c : cpu) (s s' : kstate) : Prop := {
  pu_ok : all_ok s';
  pu_tasks : forall p, (exists j, rt_task_queued j s' p) <-> (exists j, rt_task_queued j s p);
  pu_prio : forall p, prio (tasks s' p) = prio (tasks s p);
  pu_left : forall p, rt_task_queued c s' p -> rt_task_queued c s p
}.

Lemma pushed_refl c s : all_ok s -> pushed c s s.
Proof. by split. Qed.

Lemma pushed_trans c s1 s2 s3 : pushed c s1 s2 -> pushed c s2 s3 -> pushed c s1 s3.
Proof.
  intros [_ A2 A3 A4] [B1 B2 B3 B4]. split; [done| | |by auto].
  - intros p. by rewrite B2, A2.
  - intros p. by rewrite B3, A3.
Qed.

Lemma resched_pushed c i s :
  all_ok s -> wp (resched_curr i) (fun _ s' => pushed c s s' /\ (forall j, rt_load j s' = rt_load j s) /\
    rq_rt (rqs s' c) = rq_rt (rqs s c)) s.
Proof.
  intros Ha. destruct (resched_curr_run i s) as (ts' & pn & ips & He & Hts & _).
  eapply wp_intro; [exact He|]. split; [|done]. split; [|done| |done].
  - intros j. pose proof (resched_curr_acct i s) as H. eapply cpu_ok_acct; [apply Ha|].
    exact (wp_elim _ _ _ _ _ H He).
  - intros p. simpl. by destruct (Hts p) as [-> | ->].
Qed.

(** Every CPU has room for the pushable tasks of [c]. *)
Definition push_room c s : Prop :=
  forall j, rt_load j s + Z.of_nat (length (pushable_tasks (rq_rt (rqs s c)))) < 2 ^ 31.

Lemma push_one_run c i n p l s :
  all_ok s -> push_room c s -> i <> c -> pushable_tasks (rq_rt (rqs s c)) = (n, p) :: l ->
  wp (do! deactivate_task c p 0 in do! set_task_cpu p i in do! activate_task i p 0 in
      do! resched_curr i in ret true)
     (fun b s' => b = true /\ pushed c s s' /\ push_room c s' /\
        length (pushable_tasks (rq_rt (rqs s' c))) = length l) s.
Proof.
  intros Ha Hr Hic Hl. destruct (Ha c) as [Ho Ht Hcur].
  destruct (rp_task _ _ _ (ri_push _ _ _ Ho) n p) as (_ & Hp & _); [rewrite Hl; by left|].
  destruct (queued_prio c s p (ri_base _ _ _ Ho) Hp) as (Hpr & Hcpu & _).
  wstep. wcall deactivate_rt_run; [done|exact Hp|].
  intros [] s1 (Ha1 & Hno1 & Hload1 & Hq1 & Htask1 & Hoff1 & Hpl1). wstep.
  destruct (Htask1 p) as (Hpr1 & Hcl1 & Hon1). destruct (Ht p Hp) as [Hcl Hon].
  wcall set_task_cpu_run; [done|done|congruence|].
  intros [] s2 (Ha2 & Hrq2 & Hx2 & Hcpu2 & Hrt2 & Hon2 & Hpr2 & Hcl2). wstep.
  assert (Hq2 : forall j, rt_queue_of j s2 = rt_queue_of j s1) by (intros j; unfold rt_queue_of; by rewrite Hrq2).
  assert (Hl2 : forall j, rt_load j s2 = rt_load j s1)
    by (intros j; unfold rt_load; by rewrite Hq2, Hrq2).
  assert (Hlen : length (plist_del p ((n, p) :: l)) = length l).
  { unfold plist_del. rewrite filter_cons_False by (simpl; tauto).
    pose proof (rp_nodup _ _ _ (ri_push _ _ _ Ho)) as Hnd. rewrite Hl in Hnd.
    simpl in Hnd. apply NoDup_cons in Hnd as [Hnd _]. f_equal.
    induction l as [|[m x] l' IH] in Hnd |- *; [done|]. apply not_elem_of_cons in Hnd as [Hx Hnd].
    rewrite filter_cons_True by (by apply not_eq_sym). by rewrite IH. }
  wcall activate_rt_run; try done.
  { intros j. unfold rt_task_queued. rewrite Hq2. apply Hno1. }
  { congruence. } { congruence. } { rewrite Hpr2, Hpr1. done. }
  { rewrite Hl2. specialize (Hload1 i). specialize (Hr i). rewrite Hl in Hr. cbn [length] in Hr. lia. }
  intros [] s3 (Ha3 & Hin3 & Hload3 & Hq3 & Hpr3 & Hrq3). wstep.
  assert (Hpu : pushed c s s3).
  { split; [done| | |].
    - intros x. destruct (decide (x = p)) as [->|Hx]; [split; eauto|].
      split; intros (j & Hj); exists j.
      + apply Hq3 in Hj; [|done]. unfold rt_task_queued in Hj. rewrite Hq2 in Hj. by apply Hq1 in Hj.
      + apply Hq3; [done|]. unfold rt_task_queued. rewrite Hq2. by apply Hq1.
    - intros x. rewrite Hpr3. destruct (decide (x = p)) as [->|Hx]; [congruence|].
      rewrite (Hx2 x Hx). by destruct (Htask1 x).
    - intros x Hx. destruct (decide (x = p)) as [->|Hne]; [done|].
      apply Hq3 in Hx; [|done]. unfold rt_task_queued in Hx. rewrite Hq2 in Hx. by apply Hq1 in Hx. }
  wcall (resched_pushed c); [done|]. intros [] s4 (Hpu4 & Hload4 & Hrq4). wgo.
  assert (Hlen4 : length (pushable_tasks (rq_rt (rqs s4 c))) = length l).
  { rewrite Hrq4, (Hrq3 c), Hrq2, Hpl1, Hl by done. exact Hlen. }
  split; [done|]. split; [by eapply pushed_trans|]. split; [|done].
  intros j. rewrite Hlen4, Hload4. specialize (Hload3 j). specialize (Hload1 j). specialize (Hr j).
  rewrite Hl2 in Hload3. rewrite Hl in Hr. cbn [length] in Hr. lia.
Qed.

Lemma push_rt_task_run c s :
  all_ok s -> push_room c s ->
  wp (push_rt_task c) (fun b s' => pushed c s s' /\ push_room c s' /\
    if b then (length (pushable_tasks (rq_rt (rqs s' c))) < length (pushable_tasks (rq_rt (rqs s c))))%nat
    else True) s.
Proof.
  intros Ha Hr. assert (Hnop : pushed c s s /\ push_room c s /\ True) by (split; [by apply pushed_refl | done]).
  unfold push_rt_task, get_rt. wgo. destruct (_ =? 0); [exact Hnop|].
  wstep. apply (wp_intro _ _ _ _ _ (pick_pushable_run c s (Ha c))).
  destruct (pushable_tasks (rq_rt (rqs s c))) as [|[n p] l] eqn:E; [exact Hnop|].
  cbn [push_rt_task_retry]. wgo. case_bool_decide; [exact Hnop|].
  destruct (_ <? _).
  { wstep. wcall (resched_pushed c); [done|]. intros [] s1 (H1 & H2 & H3). wgo. split; [done|].
    split; [|done]. intros j. rewrite H2, H3. apply Hr. }
  wstep. destruct (find_lock_lowest_run p c RT_MAX_TRIES s) as (o & He & Ho).
  apply (wp_intro _ _ _ _ _ He). destruct o as [i|].
  - destruct (Ho i eq_refl) as [Hi _].
    eapply wp_mono; [by eapply push_one_run|]. cbv beta. intros b s' (-> & H1 & H2 & H3).
    split; [done|]. split; [done|]. rewrite H3. cbn [length]. lia.
  - wstep. apply (wp_intro _ _ _ _ _ (pick_pushable_run c s (Ha c))). rewrite E.
    rewrite bool_decide_true by done. exact Hnop.
Qed.

Lemma push_loop_run c n : forall s,
  all_ok s -> push_room c s -> (length (pushable_tasks (rq_rt (rqs s c))) < n)%nat ->
  wp (push_rt_tasks_loop c n) (fun _ s' => pushed c s s') s.
Proof.
  induction n as [|n IH]; intros s Ha Hr Hn; [lia|]. cbn [push_rt_tasks_loop]. wstep.
  wcall push_rt_task_run; [done|done|]. intros [] s1 (H1 & H2 & H3); cbn [when]; [|done].
  eapply wp_mono; [apply IH; [apply H1 | done | lia]|]. intros [] s2 H4. by eapply pushed_trans.
Qed.

(** C28: [push_rt_tasks] terminates: from consistent run queues with room for
    the pushable tasks, whatever CPUs [cpupri_find] proposes, no [BUG_ON] fails,
    no more rounds are needed than there are pushable tasks, every run queue is
    consistent afterwards, the same tasks are queued, with the same priorities,
    and the CPU itself has gained none. *)
Theorem push_rt_tasks_terminates c s :
  (forall j, rt_cpu_ok j s) ->
  (forall j, rt_load j s + Z.of_nat (length (pushable_tasks (rq_rt (rqs s c)))) < 2 ^ 31) ->
  exists s', push_rt_tasks c s = Done (tt, s') /\
    (forall j, rt_cpu_ok j s') /\
    (forall p, (exists j, rt_task_queued j s' p) <-> (exists j, rt_task_queued j s p)) /\
    (forall p, prio (tasks s' p) = prio (tasks s p)) /\
    (forall p, rt_task_queued c s' p -> rt_task_queued c s p).
Proof.
  intros Ha Hr. pose proof (push_loop_run c (S (length (pushable_tasks (rq_rt (rqs s c))))) s Ha Hr
                              ltac:(lia)) as H.
  apply wp_done in H as ([] & s' & He & [? ? ? ?]). exists s'. split; [exact He | done].
Qed.
End Moves.

(** ** The order of the classes *)

Section Order.
Context `{Hfeat : SchedFeat} `{Hlim : Rlimits} `{Hpri : Cpupri} `{Htop : Topology}.
Context `{Hoth : OtherClasses}.
Implicit Types (c : cpu) (p prev : task) (s : kstate).




Lemma enqueue_task_ts_frame c p fl s s' :
  enqueue_task_ts c p fl s = Done (tt, s') ->
  nr_running (rqs s' c) = nr_running (rqs s c) /\ h_nr_running (rqs s' c) = h_nr_running (rqs s c) /\
  curr (rqs s' c) = curr (rqs s c) /\ idle (rqs s' c) = idle (rqs s c) /\
  forall x, sched_class (tasks s' x) = sched_class (tasks s x).
Proof.
  unfold enqueue_task_ts, on_ts_queue. krun. intros H.
  assert (Hx : forall x, sched_class (alter (fun t => t <| prio := get_new_prio (prio t) 1 |>) p (tasks s) x)
                         = sched_class (tasks s x)).
  { intros x. destruct (decide (p = x)) as [->|Hne]; [by rewrite fn_lookup_alter | by rewrite fn_lookup_alter_ne]. }
  revert H. destruct (has fl ENQUEUE_WAKEUP); krun; destruct (Klist.list_add_tail _ _ _); krun; try done.
  all: intros [= <-]; simpl; rewrite fn_lookup_alter; simpl; by split_and!.
Qed.






(** A CPU that is idle, or runs fair tasks, ignores TS tasks: waking one up
    does not count it in [nr_running], so the fast path of [pick_next_task]
    takes the runnable tasks for fair ones, and what runs next is the idle
    task, although the TS task is queued. *)
Theorem idle_cpu_ignores_ts c p fl s fuel :
  ts_wf c s -> ~ ts_queued c s p -> 100 <= prio_of s p <= 139 ->
  sched_class (tasks s p) = ts_sched_class -> has fl ENQUEUE_NOCLOCK = true ->
  sched_class (tasks s (curr (rqs s c))) = idle_sched_class -> p <> curr (rqs s c) ->
  nr_running (rqs s c) = 0 -> h_nr_running (rqs s c) = 0 ->
  (forall prev s, h_nr_running (rqs s c) = 0 ->
     m_pick_next_task (other_class fair_sched_class) c prev s = Done (NO_TASK, s)) ->
  (forall prev s,
     m_pick_next_task (other_class idle_sched_class) c prev s = Done (PICKED (idle (rqs s c)), s)) ->
  exists s', activate_task c p fl s = Done (tt, s') /\ ts_queued c s' p /\
    pick_next_task fuel c (curr (rqs s c)) s' = Done (idle (rqs s c), s').
Proof.
  intros Hwf Hp Hpr Hcl Hfl Hidle Hne Hn Hh Hfair Hpick.
  unfold activate_task, enqueue_task, get_task, set_rq.
  set (s1 := if task_contributes_to_load (tasks s p)
             then s <| rqs ::= alter (fun r => r <| nr_uninterruptible ::= fun n => u64 (n - 1) |>) c |> else s).
  assert (H1 : ts_wf c s1 /\ ts_q c s1 = ts_q c s /\ tasks s1 = tasks s /\ curr (rqs s1 c) = curr (rqs s c) /\
    idle (rqs s1 c) = idle (rqs s c) /\ nr_running (rqs s1 c) = 0 /\ h_nr_running (rqs s1 c) = 0).
  { unfold s1, ts_wf, ts_q, prio_of. destruct (task_contributes_to_load _); [|done].
    simpl. rewrite fn_lookup_alter. done. }
  destruct H1 as (Hwf1 & Hq1 & Ht1 & Hcu1 & Hid1 & Hn1 & Hh1).
  assert (Hp1 : ~ ts_queued c s1 p) by (unfold ts_queued; by rewrite Hq1).
  assert (Hpr1 : 100 <= prio_of s1 p <= 139) by (unfold prio_of; by rewrite Ht1).
  destruct (enqueue_task_ts_run c p fl s1 Hwf1 Hp1 Hpr1) as (l & s2 & Hl & He & Hq & _).
  destruct (enqueue_task_ts_frame c p fl s1 s2 He) as (F1 & F2 & F3 & F4 & F5).
  exists s2. split_and!.
  - unfold bind, gets, when, modify. unfold s1 in He, Ht1.
    destruct (task_contributes_to_load (tasks s p)); rewrite Hfl; simpl; by rewrite Hcl.
  - unfold ts_queued. rewrite Hq, (Klist.put_tail_perm _ _ _ _ Hl). by left.
  - unfold pick_next_task, bind, gets.
    assert (Hf : only_fair s2 c (curr (rqs s c)) = true).
    { unfold only_fair. rewrite F5, Ht1, Hidle, F1, F2, Hn1, Hh1. done. }
    rewrite Hf. cbn [class_of]. rewrite Hfair by congruence. by rewrite Hpick, F4, Hid1.
Qed.
End Order.

(** ** Load weights *)

(** The tables of weights: every entry of [sched_prio_to_wmult] is the
    inverse [2^32 / weight] of the weight, rounded to an integer, and each nice
    level weighs between 1.19 and 1.28 times the next. *)
Theorem load_weight_tables :
  length sched_prio_to_weight = 40%nat /\ length sched_prio_to_wmult = 40%nat /\
  (forall i w m, sched_prio_to_weight !! i = Some w -> sched_prio_to_wmult !! i = Some m ->
     Z.abs (m * w - 2 ^ 32) <= w) /\
  (forall i w w', sched_prio_to_weight !! i = Some w -> sched_prio_to_weight !! (S i) = Some w' ->
     119 * w' <= 100 * w <= 128 * w').
Proof.
  split; [done|]. split; [done|]. split.
  - intros i w m Hw Hm. apply Z.leb_le.
    apply (forallb_zip (fun w m => Z.abs (m * w - 2 ^ 32) <=? w) sched_prio_to_weight sched_prio_to_wmult i);
      [by vm_compute|done|done].
  - intros i w w' Hw Hw'.
    assert (H : (119 * w' <=? 100 * w) && (100 * w <=? 128 * w') = true).
    { apply (forallb_zip (fun w w' => (119 * w' <=? 100 * w) && (100 * w <=? 128 * w'))
               sched_prio_to_weight (tail sched_prio_to_weight) i); [by vm_compute|done|].
      by rewrite lookup_tail. }
    by apply andb_true_iff in H as [?%Z.leb_le ?%Z.leb_le].
Qed.

(** ** Concrete instances *)

Module Example.
Import Machine.

(** The classes of the other files, on a machine without their tasks. *)
Definition no_class : class_methods :=
  {| m_enqueue_task := fun _ _ _ => ret tt; m_dequeue_task := fun _ _ _ => ret tt;
     m_yield_task := fun _ => ret tt; m_check_preempt_curr := fun _ _ _ => ret tt;
     m_pick_next_task := fun _ _ => ret NO_TASK; m_put_prev_task := fun _ _ => ret tt;
     m_select_task_rq := fun _ c _ _ => ret c; m_migrate_task_rq := None; m_task_woken := None;
     m_set_cpus_allowed := fun _ _ => ret tt; m_rq_online := None; m_rq_offline := None;
     m_set_curr_task := fun _ => ret tt; m_task_tick := fun _ _ _ => ret tt;
     m_task_fork := None; m_task_dead := None; m_switched_from := None;
     m_switched_to := fun _ _ => ret tt; m_prio_changed := fun _ _ _ => ret tt;
     m_get_rr_interval := None |}.

Definition idle_class : class_methods :=
  {| m_enqueue_task := fun _ _ _ => ret tt; m_dequeue_task := fun _ _ _ => ret tt;
     m_yield_task := fun _ => ret tt; m_check_preempt_curr := fun _ _ _ => ret tt;
     m_pick_next_task := fun c _ => gets (fun s => PICKED (idle (rqs s c)));
     m_put_prev_task := fun _ _ => ret tt;
     m_select_task_rq := fun _ c _ _ => ret c; m_migrate_task_rq := None; m_task_woken := None;
     m_set_cpus_allowed := fun _ _ => ret tt; m_rq_online := None; m_rq_offline := None;
     m_set_curr_task := fun _ => ret tt; m_task_tick := fun _ _ _ => ret tt;
     m_task_fork := None; m_task_dead := None; m_switched_from := None;
     m_switched_to := fun _ _ => ret tt; m_prio_changed := fun _ _ _ => ret tt;
     m_get_rr_interval := None |}.

#[local] Instance others0 : OtherClasses :=
  {| other_class k := match k with idle_sched_class => idle_class | _ => no_class end;
     reweight_task := fun _ _ => ret tt; other_callback := fun _ _ => ret tt |}.
#[local] Instance features : SchedFeat := fun _ => true.
#[local] Instance limits : Rlimits :=
  {| rlimit_rttime := fun _ => RLIM_INFINITY; rlimit_rttime_max := fun _ => RLIM_INFINITY |}.
#[local] Instance topology : Topology := fun _ => [].
(** CPU 1 is proposed while it runs something of lower priority. *)
#[local] Instance cpupri1 : Cpupri := fun s p =>
  if prio (tasks s p) <? hp_curr (rq_rt (rqs s 1)) then [1] else [].

Lemma after_done (m : K unit) s :
  match m s with Done _ => true | Crash _ => false end = true -> m s = Done (tt, after m s).
Proof. unfold after. by destruct (m s) as [[[] ?]|]. Qed.

Lemma fresh_cpu_ok j s : rq_rt (rqs s j) = rt_rq0 -> nr_running (rqs s j) = 0 ->
  rt_cpu_ok j s /\ rt_load j s = 0 /\ concat (rt_queue_of j s) = [].
Proof.
  intros Hr Hn.
  assert (Hq : concat (rt_queue_of j s) = []) by (unfold rt_queue_of; by rewrite Hr).
  assert (Ho : others (rqs s j) = 0) by (unfold others; by rewrite Hr, Hn).
  split_and!; [|unfold rt_load; by rewrite Ho, Hq|done].
  assert (Hno : forall p, ~ rt_task_queued j s p) by (intros p; unfold rt_task_queued; rewrite Hq; apply not_elem_of_nil).
  split; [|by intros p ?%Hno | rewrite Hr; apply not_elem_of_nil].
  split; [split|]; fold (rt_queue_of j s); rewrite ?Hq, ?Ho, ?Hr; try done.
  - split; try done.
    + intros i Hi. assert (Hb : forallb (fun n => bool_decide (bitmap rt_rq0 !! n
          = Some (negb (Klist.list_empty (Z.of_nat n) (rt_queue rt_rq0))))) (seq 0 100) = true) by by vm_compute.
      rewrite forallb_forall in Hb. specialize (Hb (Z.to_nat i)). rewrite bool_decide_eq_true, Z2Nat.id in Hb by lia.
      apply Hb, in_seq. lia.
    + unfold Klist.wf. by constructor.
    + intros i l p Hi Hp. exfalso. pose proof (Klist.at_index_elem _ i l p Hi Hp) as Hin.
      by apply not_elem_of_nil in Hin.
    + by intros p ?%not_elem_of_nil.
  - split; try done; [constructor|constructor|by intros ? ? ?%not_elem_of_nil].
Qed.

(** CPU 0 runs task 1 of priority 50; tasks 2 and 3 wait with 50 and 70. *)
Definition rt_of (pr : Z) (t : task_struct) : task_struct :=
  t <| prio := pr |> <| policy := SCHED_FIFO |> <| sched_class := rt_sched_class |> <| on_rq := 1 |>.
Definition st0 : kstate :=
  after (do! set_task 1 (rt_of 50) in do! set_task 2 (rt_of 50) in do! set_task 3 (rt_of 70) in
         set_rq 0 (fun r => r <| curr := 1 |>)) machine0.
Definition st1 : kstate := after (activate_task 0 1 0) st0.
Definition st2 : kstate := after (activate_task 0 2 0) st1.
Definition st3 : kstate := after (activate_task 0 3 0) st2.

(** The state after the tasks below [n] are activated. *)
Definition activated (n : Z) s : Prop :=
  all_ok s /\ (forall j, rt_load j s < n) /\ forall j x, n <= x -> ~ rt_task_queued j s x.

Lemma st0_ok : activated 1 st0.
Proof.
  assert (H : forall j, rt_cpu_ok j st0 /\ rt_load j st0 = 0 /\ concat (rt_queue_of j st0) = []).
  { intros j. apply fresh_cpu_ok; unfold st0; simpl;
      (destruct (decide (j = 0)) as [->|Hne]; [by rewrite fn_lookup_alter|by rewrite fn_lookup_alter_ne]). }
  split; [|split].
  - intros j. apply H.
  - intros j. destruct (H j) as (_ & -> & _). lia.
  - intros j x _. unfold rt_task_queued. destruct (H j) as (_ & _ & ->).
    apply not_elem_of_nil.
Qed.

Lemma activate_next p s :
  activated p s -> 0 <= p < 100 -> sched_class (tasks s p) = rt_sched_class ->
  on_rq (tasks s p) = TASK_ON_RQ_QUEUED -> rt_on_rq (rt (tasks s p)) = 0 -> task_cpu (tasks s p) = 0 ->
  0 <= prio (tasks s p) < 100 -> match activate_task 0 p 0 s with Done _ => true | Crash _ => false end = true ->
  activated (p + 1) (after (activate_task 0 p 0) s).
Proof.
  intros (Ha & Hl & Hno) Hp Hcl Hon Hoff Hcpu Hpr He%after_done.
  pose proof (activate_rt_run 0 p s Ha (fun j => Hno j p ltac:(lia)) Hcl Hon Hoff Hcpu Hpr) as H.
  specialize (H ltac:(specialize (Hl 0); lia)).
  apply (wp_elim _ _ _ _ _ H) in He as (H1 & _ & H3 & H4 & _). split; [done|split].
  - intros j. specialize (H3 j). specialize (Hl j). lia.
  - intros j x Hx. rewrite H4 by lia. apply Hno. lia.
Qed.

Lemma st3_ok : activated 4 st3.
Proof.
  apply (activate_next 3 st2); try (by vm_compute).
  apply (activate_next 2 st1); try (by vm_compute).
  apply (activate_next 1 st0); try (by vm_compute).
  apply st0_ok.
Qed.

(** Task 2 is pushed to CPU 1, and then task 3 stays. *)
Lemma push_rt_tasks_terminates_witness :
  exists s', push_rt_tasks 0 st3 = Done (tt, s') /\ (forall j, rt_cpu_ok j s') /\
    exists j, rt_task_queued j s' 2.
Proof.
  destruct st3_ok as (Ha & Hl & _).
  destruct (push_rt_tasks_terminates 0 st3 Ha) as (s' & He & Hok & Hq & _).
  - intros j. specialize (Hl j).
    assert (E : length (pushable_tasks (rq_rt (rqs st3 0))) = 2%nat) by by vm_compute.
    rewrite E. lia.
  - exists s'. split; [exact He|]. split; [exact Hok|]. apply Hq. exists 0. unfold rt_task_queued.
    apply (bool_decide_unpack _). by vm_compute.
Defined.

(** Task 5 is a TS task; it is woken up on the idle CPU 1. *)
Definition ts_idle : kstate :=
  after (do! init_ts_rq 1 in
         set_task 5 (fun t => t <| sched_class := ts_sched_class |> <| policy := SCHED_TS |>)) machine0.

Lemma ts_idle_wf : ts_wf 1 ts_idle.
Proof.
  split; [by vm_compute | split].
  - unfold Klist.wf. vm_compute. constructor.
  - intros p Hp. exfalso. assert (E : concat (ts_q 1 ts_idle) = []) by by vm_compute.
    unfold ts_q in E. unfold ts_q in Hp. rewrite E in Hp. by apply not_elem_of_nil in Hp.
Qed.

Lemma idle_cpu_ignores_ts_witness :
  exists s', activate_task 1 5 (Z.lor ENQUEUE_WAKEUP ENQUEUE_NOCLOCK) ts_idle = Done (tt, s') /\
    ts_queued 1 s' 5 /\ pick_next_task 1 1 (-2) s' = Done (-2, s').
Proof.
  apply (idle_cpu_ignores_ts 1 5 (Z.lor ENQUEUE_WAKEUP ENQUEUE_NOCLOCK) ts_idle 1); try (by vm_compute).
  - apply ts_idle_wf.
  - unfold ts_queued. assert (E : concat (ts_q 1 ts_idle) = []) by by vm_compute.
    rewrite E. apply not_elem_of_nil.
Defined.




Lemma load_weight_tables_witness : Z.abs (4194304 * 1024 - 2 ^ 32) <= 1024.
Proof.
  destruct load_weight_tables as (_ & _ & H & _). by apply (H 20%nat 1024 4194304).
Defined.
End Example.
