(* ===== verification/Frames.v ===== *)
(** * What the operations of the scheduler leave alone

    The classes and the core change priorities, queues and clocks.  [keep] is
    the rest, which they do not touch: the class, the state and the flags of a
    task, its policy and affinity, whether it is on a run queue, and which
    task a CPU runs.  [no_ts] is what the real-time class leaves to TS.  That
    an operation keeps them is found by going through its code
    ([frames_step]). *)

From S2P Require Import Prelude Sched Ts RtBandwidth Rt SchedClass.

(** ** The two relations *)

(** A task of the classes whose code is modelled. *)
Definition mine (s : kstate) (p : task) : Prop :=
  sched_class (tasks s p) = rt_sched_class \/ sched_class (tasks s p) = ts_sched_class.

Record same_task (t t' : task_struct) : Prop := {
  st_state : state t' = state t;
  st_flags : flags t' = flags t;
  st_on_cpu : on_cpu t' = on_cpu t;
  st_on_rq : on_rq t' = on_rq t;
  st_static : static_prio t' = static_prio t;
  st_normal : normal_prio t' = normal_prio t;
  st_rt_priority : rt_priority t' = rt_priority t;
  st_policy : policy t' = policy t;
  st_nr_cpus : nr_cpus_allowed t' = nr_cpus_allowed t;
  st_cpus : cpus_allowed t' = cpus_allowed t
}.

Record keep (s s' : kstate) : Prop := {
  kp_class : forall x, sched_class (tasks s' x) = sched_class (tasks s x);
  kp_task : forall x, mine s x -> same_task (tasks s x) (tasks s' x);
  kp_curr : forall c, curr (rqs s' c) = curr (rqs s c);
  kp_idle : forall c, idle (rqs s' c) = idle (rqs s c);
  kp_stop : forall c, stop (rqs s' c) = stop (rqs s c);
  kp_dl : forall c, dl_nr_running (rqs s' c) = dl_nr_running (rqs s c);
  kp_stop_task : forall x, sched_class (tasks s x) = stop_sched_class -> on_rq (tasks s' x) = on_rq (tasks s x);
  kp_this : this_cpu s' = this_cpu s;
  kp_online : online_cpus s' = online_cpus s;
  kp_active : active_cpus s' = active_cpus s
}.

(** The same for all tasks but [p]. *)
Record keep_but (p : task) (s s' : kstate) : Prop := {
  kb_class : forall x, x <> p -> sched_class (tasks s' x) = sched_class (tasks s x);
  kb_task : forall x, x <> p -> mine s x -> same_task (tasks s x) (tasks s' x);
  kb_curr : forall c, curr (rqs s' c) = curr (rqs s c);
  kb_idle : forall c, idle (rqs s' c) = idle (rqs s c);
  kb_stop : forall c, stop (rqs s' c) = stop (rqs s c);
  kb_dl : forall c, dl_nr_running (rqs s' c) = dl_nr_running (rqs s c);
  kb_stop_task : forall x, x <> p -> sched_class (tasks s x) = stop_sched_class ->
    on_rq (tasks s' x) = on_rq (tasks s x);
  kb_this : this_cpu s' = this_cpu s;
  kb_online : online_cpus s' = online_cpus s;
  kb_active : active_cpus s' = active_cpus s
}.

(** The TS queues, and what the TS class looks at. *)
Record no_ts (s s' : kstate) : Prop := {
  nt_queue : forall c, ts_q c s' = ts_q c s;
  nt_class : forall x, sched_class (tasks s' x) = sched_class (tasks s x);
  nt_task : forall x, sched_class (tasks s x) = ts_sched_class ->
    prio (tasks s' x) = prio (tasks s x) /\ task_cpu (tasks s' x) = task_cpu (tasks s x) /\
    ts (tasks s' x) = ts (tasks s x)
}.

#[export] Instance same_task_preorder : PreOrder same_task.
Proof.
  split; [by intros t|]. intros t1 t2 t3 [] []. split; congruence.
Qed.

#[export] Instance keep_preorder : PreOrder keep.
Proof.
  split; [by split|]. intros s1 s2 s3 [A1 A2 A3 A4 A5 A6 A7 A8 A9 A10] [B1 B2 B3 B4 B5 B6 B7 B8 B9 B10].
  split; try congruence; try (intros x; by rewrite ?B1, ?B3, ?B4, ?B5, ?B6).
  - intros x Hx. etrans; [by apply A2|]. apply B2. unfold mine in *. by rewrite A1.
  - intros x Hx. rewrite B7, A7; [done|done|by rewrite A1].
Qed.

#[export] Instance keep_but_preorder p : PreOrder (keep_but p).
Proof.
  split; [by split|]. intros s1 s2 s3 [A1 A2 A3 A4 A5 A6 A7 A8 A9 A10] [B1 B2 B3 B4 B5 B6 B7 B8 B9 B10].
  split; try congruence; try (intros x; by rewrite ?B3, ?B4, ?B5, ?B6).
  - intros x Hx. by rewrite B1, A1 by done.
  - intros x Hx Hm. etrans; [by apply A2|]. apply B2; [done|]. unfold mine in *. by rewrite A1.
  - intros x Hx Hs. rewrite B7, A7; [done|done|done|done|by rewrite A1].
Qed.

Lemma keep_keep_but p s s' : keep s s' -> keep_but p s s'.
Proof. intros []. split; auto. Qed.

#[export] Instance no_ts_preorder : PreOrder no_ts.
Proof.
  split; [by split|]. intros s1 s2 s3 [A1 A2 A3] [B1 B2 B3].
  split; try (intros x; by rewrite ?B1, ?B2).
  intros x Hx. destruct (A3 x Hx) as (<- & <- & <-). apply B3. by rewrite A2.
Qed.

Lemma keep_mine s s' x : keep s s' -> mine s' x <-> mine s x.
Proof. intros H. unfold mine. by rewrite (kp_class _ _ H). Qed.

(** ** Changes of one task or run queue *)

Section Basic.
Implicit Types (c : cpu) (p : task) (s : kstate).

(** A change of a task seen through a projection of it. *)
Lemma alter_view {A} (v : task_struct -> A) f p (g : task -> task_struct) x :
  (forall t, v (f t) = v t) -> v (alter f p g x) = v (g x).
Proof.
  intros H. destruct (decide (p = x)) as [->|Hne]; [by rewrite fn_lookup_alter, H|].
  by rewrite fn_lookup_alter_ne.
Qed.

Lemma alter_rq_view {A} (v : rq -> A) f c (g : cpu -> rq) i :
  (forall r, v (f r) = v r) -> v (alter f c g i) = v (g i).
Proof.
  intros H. destruct (decide (c = i)) as [->|Hne]; [by rewrite fn_lookup_alter, H|].
  by rewrite fn_lookup_alter_ne.
Qed.

Lemma set_task_keep p f :
  (forall t, sched_class (f t) = sched_class t /\ same_task t (f t)) -> frames keep (set_task p f).
Proof.
  intros Hf. apply frames_modify. intros s. split; try done; simpl.
  - intros x. apply alter_view. intros t. apply Hf.
  - intros x _. destruct (decide (p = x)) as [->|Hne].
    + rewrite fn_lookup_alter. apply Hf.
    + by rewrite fn_lookup_alter_ne.
  - intros x _. apply alter_view. intros t. apply Hf.
Qed.

Lemma set_task_keep_but p f : frames (keep_but p) (set_task p f).
Proof.
  apply frames_modify. intros s. split; try done; simpl; intros x Hx; by rewrite fn_lookup_alter_ne.
Qed.

Lemma set_rq_keep c f :
  (forall r, curr (f r) = curr r /\ idle (f r) = idle r /\ stop (f r) = stop r /\
     dl_nr_running (f r) = dl_nr_running r) ->
  frames keep (set_rq c f).
Proof.
  intros Hf. apply frames_modify. intros s. split; try done; simpl; intros i; apply alter_rq_view; apply Hf.
Qed.

Lemma set_task_no_ts p f :
  (forall t, sched_class (f t) = sched_class t /\ prio (f t) = prio t /\ task_cpu (f t) = task_cpu t /\
     ts (f t) = ts t) ->
  frames no_ts (set_task p f).
Proof.
  intros Hf. apply frames_modify. intros s. split; [done| |]; simpl.
  - intros x. apply alter_view. apply Hf.
  - intros x _. split_and!; apply alter_view; apply Hf.
Qed.

Lemma set_rq_no_ts c f : (forall r, ts_queue (f r) = ts_queue r) -> frames no_ts (set_rq c f).
Proof.
  intros Hf. apply frames_modify. intros s. split; try done. intros i. unfold ts_q. simpl.
  by apply alter_rq_view.
Qed.
End Basic.

(** Both. *)
Definition kept (s s' : kstate) : Prop := keep s s' /\ no_ts s s'.

#[export] Instance kept_preorder : PreOrder kept.
Proof. split; [by split|]. intros s1 s2 s3 [] []. split; by etrans. Qed.

Lemma frames_kept {A} (m : K A) : frames keep m -> frames no_ts m -> frames kept m.
Proof. intros H1 H2 s a s' He. split; [by eapply H1 | by eapply H2]. Qed.

Lemma kept_keep {A} (m : K A) : frames kept m -> frames keep m.
Proof. intros H s a s' He. by apply (H s a s'). Qed.

#[export] Hint Extern 1 (frames keep (set_task _ _)) =>
  apply set_task_keep; intros; split; [reflexivity | split; reflexivity] : frames.
#[export] Hint Extern 1 (frames keep (set_rq _ _)) =>
  apply set_rq_keep; intros; split_and!; reflexivity : frames.
#[export] Hint Extern 1 (frames no_ts (set_task _ _)) =>
  apply set_task_no_ts; intros; split_and!; reflexivity : frames.
#[export] Hint Extern 1 (frames no_ts (set_rq _ _)) =>
  apply set_rq_no_ts; intros; reflexivity : frames.

#[export] Hint Extern 1 (frames kept (set_task _ _)) =>
  apply frames_kept;
  [apply set_task_keep; intros; split; [reflexivity | split; reflexivity]
  |apply set_task_no_ts; intros; split_and!; reflexivity] : frames.
#[export] Hint Extern 1 (frames kept (set_rq _ _)) =>
  apply frames_kept;
  [apply set_rq_keep; intros; split_and!; reflexivity | apply set_rq_no_ts; intros; reflexivity] : frames.
#[export] Hint Extern 2 (frames keep _) => apply kept_keep; solve [auto 2 with frames nocore] : frames.

Ltac frames_tac := repeat frames_step ltac:(first [done | split; done | split; split; done]).

(** No task changes its CPU. *)
Definition same_cpu (s s' : kstate) : Prop := forall x, task_cpu (tasks s' x) = task_cpu (tasks s x).

#[export] Instance same_cpu_preorder : PreOrder same_cpu.
Proof. split; [done|]. intros s1 s2 s3 A B x. by rewrite B, A. Qed.

Lemma set_task_same_cpu p f :
  (forall t, task_cpu (f t) = task_cpu t) -> frames same_cpu (set_task p f).
Proof. intros Hf. apply frames_modify. intros s x. simpl. by apply alter_view. Qed.

Lemma set_rq_same_cpu c f : frames same_cpu (set_rq c f).
Proof. by apply frames_modify. Qed.

#[export] Hint Extern 1 (frames same_cpu (set_task _ _)) =>
  apply set_task_same_cpu; intros; reflexivity : frames.
#[export] Hint Extern 1 (frames same_cpu (set_rq _ _)) => apply set_rq_same_cpu : frames.

(** ** The real-time class and TS *)

Section ClassFrames.
Context `{Hfeat : SchedFeat} `{Hlim : Rlimits} `{Hpri : Cpupri} `{Htop : Topology}.
Implicit Types (c : cpu) (p : task).

Lemma update_rq_clock_kept c : frames kept (update_rq_clock c).
Proof. frames_tac. Qed.

Lemma resched_curr_kept c : frames kept (resched_curr c).
Proof. frames_tac. Qed.
#[local] Hint Resolve update_rq_clock_kept resched_curr_kept : frames.

Lemma balance_runtime_loop_kept c w per l : frames kept (balance_runtime_loop c w per l).
Proof. induction l; cbn [balance_runtime_loop]; frames_tac. Qed.
#[local] Hint Resolve balance_runtime_loop_kept : frames.

Lemma update_curr_rt_kept c : frames kept (update_curr_rt c).
Proof. frames_tac. Qed.
#[local] Hint Resolve update_curr_rt_kept : frames.

Lemma enqueue_task_rt_kept c p fl : frames kept (enqueue_task_rt c p fl).
Proof. frames_tac. Qed.

Lemma enqueue_task_rt_cpu c p fl : frames same_cpu (enqueue_task_rt c p fl).
Proof. frames_tac. Qed.

Lemma enqueue_task_ts_cpu c p fl : frames same_cpu (enqueue_task_ts c p fl).
Proof. frames_tac. Qed.

Lemma update_curr_rt_cpu c : frames same_cpu (update_curr_rt c).
Proof.
  assert (H : forall w per l, frames same_cpu (balance_runtime_loop c w per l))
    by (intros w per l; induction l; cbn [balance_runtime_loop]; frames_tac).
  repeat first [apply H | frames_step ltac:(done)].
Qed.
#[local] Hint Resolve update_curr_rt_cpu : frames.

Lemma dequeue_task_rt_cpu c p fl : frames same_cpu (dequeue_task_rt c p fl).
Proof. frames_tac. Qed.

Lemma dequeue_task_ts_cpu c p fl : frames same_cpu (dequeue_task_ts c p fl).
Proof. frames_tac. Qed.

Lemma dequeue_task_rt_kept c p fl : frames kept (dequeue_task_rt c p fl).
Proof. frames_tac. Qed.

Lemma put_prev_task_rt_kept c p : frames kept (put_prev_task_rt c p).
Proof. frames_tac. Qed.

Lemma yield_task_rt_kept c : frames kept (yield_task_rt c).
Proof. frames_tac. Qed.

Lemma check_preempt_curr_rt_kept c p fl : frames kept (check_preempt_curr_rt c p fl).
Proof. frames_tac. Qed.

Lemma task_tick_rt_kept c p q : frames kept (task_tick_rt c p q).
Proof. frames_tac. Qed.

Lemma pick_rt_kept c : frames kept (_pick_next_task_rt c).
Proof. frames_tac. Qed.

Lemma dequeue_pushable_kept c p : frames kept (dequeue_pushable_task c p).
Proof. frames_tac. Qed.

Lemma enqueue_task_ts_keep c p fl : frames keep (enqueue_task_ts c p fl).
Proof. frames_tac. Qed.

Lemma dequeue_task_ts_keep c p fl : frames keep (dequeue_task_ts c p fl).
Proof. frames_tac. Qed.

Lemma yield_task_ts_keep c : frames keep (yield_task_ts c).
Proof. frames_tac. Qed.

Lemma check_preempt_curr_ts_kept c p fl : frames kept (check_preempt_curr_ts c p fl).
Proof. frames_tac. Qed.

Lemma task_tick_ts_keep c p q : frames keep (task_tick_ts c p q).
Proof. frames_tac. Qed.
End ClassFrames.

#[export] Hint Resolve update_rq_clock_kept resched_curr_kept update_curr_rt_kept
  enqueue_task_rt_kept enqueue_task_rt_cpu enqueue_task_ts_cpu dequeue_task_rt_cpu
  dequeue_task_ts_cpu update_curr_rt_cpu dequeue_task_rt_kept put_prev_task_rt_kept yield_task_rt_kept
  check_preempt_curr_rt_kept task_tick_rt_kept pick_rt_kept dequeue_pushable_kept
  enqueue_task_ts_keep dequeue_task_ts_keep yield_task_ts_keep check_preempt_curr_ts_kept
  task_tick_ts_keep : frames.

(** ** Priorities *)

(** No task changes its priority. *)
Definition same_prio (s s' : kstate) : Prop := forall x, prio (tasks s' x) = prio (tasks s x).

#[export] Instance same_prio_preorder : PreOrder same_prio.
Proof. split; [done|]. intros s1 s2 s3 A B x. by rewrite B, A. Qed.

Lemma set_task_same_prio p f : (forall t, prio (f t) = prio t) -> frames same_prio (set_task p f).
Proof. intros Hf. apply frames_modify. intros s x. simpl. by apply alter_view. Qed.

Lemma set_rq_same_prio c f : frames same_prio (set_rq c f).
Proof. by apply frames_modify. Qed.

#[export] Hint Extern 1 (frames same_prio (set_task _ _)) => apply set_task_same_prio; intros; reflexivity : frames.
#[export] Hint Extern 1 (frames same_prio (set_rq _ _)) => apply set_rq_same_prio : frames.

Section PrioFrames.
Context `{Hfeat : SchedFeat} `{Hlim : Rlimits} `{Hpri : Cpupri}.
Implicit Types (c i : cpu) (p : task).

Lemma clock_prio i : frames same_prio (update_rq_clock i).
Proof. frames_tac. Qed.

Lemma balance_loop_prio c w per l : frames same_prio (balance_runtime_loop c w per l).
Proof. induction l; cbn [balance_runtime_loop]; frames_tac. Qed.
#[local] Hint Resolve balance_loop_prio : frames.

Lemma rt_moves_prio c p fl :
  frames same_prio (dequeue_task_rt c p fl) /\ frames same_prio (enqueue_task_rt c p fl) /\
  frames same_prio (check_preempt_curr_rt c p fl) /\ frames same_prio (enqueue_pushable_task c p) /\
  frames same_prio (put_prev_task_rt c p).
Proof. split_and!; frames_tac. Qed.
End PrioFrames.
