(* ===== verification/CoreInv.v ===== *)
(** * The invariant of the machine

    The run queues of all CPUs and the classes of all tasks together: each CPU's
    real-time and TS queues are consistent, and a task of one of the two classes
    is on the queue of its class and CPU if it is runnable, and on no other.
    [minv on s] is this invariant, where [on] says which tasks are runnable; for
    most of the core it is [p->on_rq], but a task is queued before [on_rq] says
    so.  The lemmas here are on the operations of the classes. *)

From S2P Require Import Prelude Sched Ts RtBandwidth Rt RtProps SchedClass ClassProps Frames.

(** There are at most [PID_MAX_LIMIT] tasks ([linux/threads.h]), so that no
    count of tasks overflows. *)
Definition PID_MAX_LIMIT : Z := 2 ^ 22.

(** ** The two parts of the invariant *)

Record rt_part (on : task -> bool) (s : kstate) : Prop := {
  rp_ok : forall c, rt_ok c s;
  rp_link : forall c p, rt_task_queued c s p <->
    on p = true /\ sched_class (tasks s p) = rt_sched_class /\ task_cpu (tasks s p) = c;
  rp_off : forall p, rt_on_rq (rt (tasks s p)) <> 0 -> on p = true /\ sched_class (tasks s p) = rt_sched_class;
  rp_prio : forall p, sched_class (tasks s p) = rt_sched_class -> 0 <= prio (tasks s p) < 100;
  rp_ids : forall p, sched_class (tasks s p) = rt_sched_class -> 0 <= p < PID_MAX_LIMIT;
  rp_others : forall c, 0 <= others (rqs s c) <= PID_MAX_LIMIT
}.

Record ts_part (on : task -> bool) (s : kstate) : Prop := {
  tp_wf : forall c, ts_wf c s;
  tp_link : forall c p, ts_queued c s p <->
    on p = true /\ sched_class (tasks s p) = ts_sched_class /\ task_cpu (tasks s p) = c;
  tp_prio : forall p, sched_class (tasks s p) = ts_sched_class -> 100 <= prio (tasks s p) <= 139
}.

Definition minv (on : task -> bool) (s : kstate) : Prop := rt_part on s /\ ts_part on s.

(** Every runnable task is queued, by [p->on_rq]. *)
Definition runnable (s : kstate) (p : task) : bool := task_on_rq_queued (tasks s p).
Definition settled (s : kstate) : Prop := minv (runnable s) s.

(** The running tasks are not pushable. *)
Definition curr_kept (s : kstate) : Prop :=
  forall c, curr (rqs s c) ∉ (pushable_tasks (rq_rt (rqs s c))).*2.

(** A running task of the two classes is on the queues of its CPU. *)
Definition running (s : kstate) : Prop :=
  forall c, mine s (curr (rqs s c)) -> task_cpu (tasks s (curr (rqs s c))) = c.

(** It is runnable, unless it is just being switched out. *)
Definition curr_runs (s : kstate) : Prop :=
  forall c, mine s (curr (rqs s c)) -> runnable s (curr (rqs s c)) = true.

Definition curr_ok (s : kstate) : Prop := curr_kept s /\ running s.

(** ** Changes that the parts do not see *)

(** What the real-time part looks at, but for the tasks of [b]. *)
Record rt_quiet (b : task -> Prop) (s s' : kstate) : Prop := {
  rq_core : forall i, rt_core (rq_rt (rqs s' i)) = rt_core (rq_rt (rqs s i));
  rq_queued : forall i, rt_queued (rq_rt (rqs s' i)) <> 0 -> rt_queued (rq_rt (rqs s i)) <> 0;
  rq_room : (forall i, 0 <= others (rqs s i) <= PID_MAX_LIMIT) ->
    forall i, 0 <= others (rqs s' i) <= PID_MAX_LIMIT;
  rq_class : forall x, sched_class (tasks s' x) = sched_class (tasks s x);
  rq_on : forall x, rt_on_rq (rt (tasks s' x)) = rt_on_rq (rt (tasks s x));
  rq_view : forall x, ~ b x -> sched_class (tasks s x) = rt_sched_class ->
    prio (tasks s' x) = prio (tasks s x) /\ policy (tasks s' x) = policy (tasks s x) /\
    nr_cpus_allowed (tasks s' x) = nr_cpus_allowed (tasks s x) /\
    task_cpu (tasks s' x) = task_cpu (tasks s x)
}.

#[export] Instance rt_quiet_preorder b : PreOrder (rt_quiet b).
Proof.
  split; [by split; auto|]. intros s1 s2 s3 [A1 A2 A3 A4 A5 A6] [B1 B2 B3 B4 B5 B6].
  split; try (intros x; by rewrite ?B1, ?B4, ?B5); [by auto..|].
  intros x Hx Hc. destruct (A6 x Hx Hc) as (<- & <- & <- & <-). apply B6; [done | by rewrite A4].
Qed.

Section Parts.
Implicit Types (c : cpu) (p : task) (s : kstate) (on : task -> bool).

Lemma queue_room on s c :
  rt_part on s -> Z.of_nat (length (concat (rt_queue_of c s))) <= PID_MAX_LIMIT.
Proof.
  intros [Ho Hl _ _ Hi _]. assert (H : submseteq (concat (rt_queue_of c s)) (seqZ 0 PID_MAX_LIMIT)).
  { apply NoDup_submseteq; [apply (ra_wf _ _ _ (ri_array _ _ _ (ri_base _ _ _ (Ho c))))|].
    intros p (_ & Hc & _)%Hl. apply elem_of_seqZ. by apply Hi in Hc. }
  apply submseteq_length in H. rewrite length_seqZ in H. unfold PID_MAX_LIMIT in *. lia.
Qed.

Lemma quiet_ok b c s s' :
  rt_ok c s -> rt_quiet b s s' ->
  (forall p, rt_task_queued c s p -> ~ b p /\ sched_class (tasks s p) = rt_sched_class) ->
  0 <= others (rqs s' c) <= PID_MAX_LIMIT -> Z.of_nat (length (concat (rt_queue_of c s))) <= PID_MAX_LIMIT ->
  rt_ok c s'.
Proof.
  intros [[Ha Hh Hc Hq _ _] Hp] [H1 H2 _ _ H5 H6] Hb Ho Hl. unfold PID_MAX_LIMIT in *.
  specialize (H1 c). destruct (core_queue _ _ H1) as (Q1 & Q2 & Q3 & Q4 & Q5 & Q6).
  assert (Hv : forall x, x ∈ concat (rt_queue (rq_rt (rqs s c))) -> prio (tasks s' x) = prio (tasks s x) /\
    policy (tasks s' x) = policy (tasks s x) /\ nr_cpus_allowed (tasks s' x) = nr_cpus_allowed (tasks s x) /\
    task_cpu (tasks s' x) = task_cpu (tasks s x)) by (intros x Hx; by apply H6; apply Hb).
  split; [split|]; rewrite ?Q1.
  - apply (core_array _ _ (rq_rt (rqs s c))); [done|]. destruct Ha as [? ? ? ? Hlev Hon]. split; [done..| |].
    + intros i l p Hi Hin. destruct (Hv p) as (-> & _); [by eapply Klist.at_index_elem | by eapply Hlev].
    + intros p Hin. destruct (Hv p Hin) as (_ & _ & _ & ->). rewrite H5. by apply Hon.
  - congruence.
  - apply (core_counts _ _ (rq_rt (rqs s c))); [done|]. eapply counts_ext; [|exact Hc].
    intros p Hin. by destruct (Hv p Hin) as (_ & ? & ? & _).
  - rewrite Q4. auto.
  - lia.
  - unfold rt_queue_of in Hl. lia.
  - apply (core_push _ _ (rq_rt (rqs s c))); [done|].
    eapply push_mono; [| |reflexivity|reflexivity|exact Hp]; [done|].
    intros p Hin. by destruct (Hv p Hin) as (? & _ & ? & _).
Qed.

Lemma rt_part_quiet (b : task -> Prop) on s s' :
  (forall p, b p -> sched_class (tasks s p) <> rt_sched_class) ->
  rt_quiet b s s' -> rt_part on s -> rt_part on s'.
Proof.
  intros Hb Hq Hr. pose proof Hr as [Ho Hl Hf Hp Hi Ht].
  assert (Hv : forall x, sched_class (tasks s x) = rt_sched_class ->
    prio (tasks s' x) = prio (tasks s x) /\ task_cpu (tasks s' x) = task_cpu (tasks s x)).
  { intros x Hx. destruct (rq_view _ _ _ Hq x) as (? & _ & _ & ?); [|done|done]. intros Hbx. by apply (Hb x). }
  pose proof (rq_class _ _ _ Hq) as Hc.
  split; try (intros p; rewrite ?Hc, ?(rq_on _ _ _ Hq); auto).
  - apply (quiet_ok b p s s'); [done|done| |by apply (rq_room _ _ _ Hq)|by eapply queue_room].
    intros x (_ & Hx & _)%Hl. split; [|done]. intros Hbx. by apply (Hb x).
  - intros x. unfold rt_task_queued, rt_queue_of.
    destruct (core_queue _ _ (rq_core _ _ _ Hq p)) as (-> & _). fold (rt_queue_of p s).
    fold (rt_task_queued p s x). rewrite Hl, Hc. split; intros (? & Hx & ?); destruct (Hv x Hx); naive_solver.
  - intros Hx. destruct (Hv p Hx) as [-> _]. by apply Hp.
  - by apply (rq_room _ _ _ Hq).
Qed.

Lemma ts_part_no_ts on s s' : no_ts s s' -> ts_part on s -> ts_part on s'.
Proof.
  intros [Hq Hc Ht] [Hw Hl Hp]. split.
  - intros c. unfold ts_wf. rewrite Hq. eapply wf_q_ext; [apply Hw|].
    intros p (_ & Hx & _)%Hl. by apply Ht.
  - intros c p. unfold ts_queued. rewrite Hq, Hc. fold (ts_queued c s p). rewrite Hl.
    split; intros (? & Hx & ?); destruct (Ht p Hx) as (_ & ? & _); naive_solver.
  - intros p. rewrite Hc. intros Hx. destruct (Ht p Hx) as [-> _]. by apply Hp.
Qed.

(** Only the tasks of the two classes matter to [on]. *)
Lemma minv_ext on on' s : (forall p, mine s p -> on p = on' p) -> minv on s -> minv on' s.
Proof.
  intros H [[A1 A2 A3 A4 A5 A6] [B1 B2 B3]]. split; split; try done.
  - intros c p. rewrite A2. split; intros (? & ? & ?); (rewrite <- H || rewrite H); try done; by left.
  - intros p Hp. destruct (A3 p Hp) as [? ?]. split; [|done]. rewrite <- H; [done | by left].
  - intros c p. rewrite B2. split; intros (? & ? & ?); (rewrite <- H || rewrite H); try done; by right.
Qed.
End Parts.

(** ** Quiet changes *)

(** What neither class looks at. *)
Definition quiet (s s' : kstate) : Prop := rt_quiet (fun _ => False) s s' /\ no_ts s s'.

#[export] Instance quiet_preorder : PreOrder quiet.
Proof. split; [by split|]. intros s1 s2 s3 [] []. split; by etrans. Qed.

Lemma minv_quiet on s s' : quiet s s' -> minv on s -> minv on s'.
Proof.
  intros [H1 H2] [H3 H4]. split; [|by eapply ts_part_no_ts].
  by apply (rt_part_quiet (fun _ => False) on s).
Qed.

Lemma curr_kept_quiet s s' :
  rt_quiet (fun _ => False) s s' -> (forall c, curr (rqs s' c) = curr (rqs s c)) -> curr_kept s -> curr_kept s'.
Proof.
  intros H1 H2 H c. rewrite H2. destruct (core_queue _ _ (rq_core _ _ _ H1 c)) as (_ & _ & _ & _ & -> & _).
  apply H.
Qed.

Lemma running_keep s s' :
  keep s s' -> (forall x, mine s x -> (exists c, curr (rqs s c) = x) -> task_cpu (tasks s' x) = task_cpu (tasks s x)) ->
  running s -> running s'.
Proof.
  intros Hk Hc Hr c. rewrite (kp_curr _ _ Hk), (keep_mine _ _ _ Hk). intros Hm.
  rewrite Hc by eauto. by apply Hr.
Qed.

Section Quiet.
Implicit Types (c : cpu) (p : task).

(** A change of a task that the classes do not look at. *)
Record quiet_task (t t' : task_struct) : Prop := {
  qt_class : sched_class t' = sched_class t;
  qt_prio : prio t' = prio t;
  qt_cpu : task_cpu t' = task_cpu t;
  qt_ts : ts t' = ts t;
  qt_policy : policy t' = policy t;
  qt_cpus : nr_cpus_allowed t' = nr_cpus_allowed t;
  qt_on : rt_on_rq (rt t') = rt_on_rq (rt t)
}.

Lemma set_task_quiet p f : (forall t, quiet_task t (f t)) -> frames quiet (set_task p f).
Proof.
  intros Hf. apply frames_modify. intros s.
  assert (H : forall x, quiet_task (tasks s x) (alter f p (tasks s) x)).
  { intros x. destruct (decide (p = x)) as [->|Hne]; [by rewrite fn_lookup_alter|].
    by rewrite fn_lookup_alter_ne. }
  split; split; simpl; try done; intros x; intros; by destruct (H x).
Qed.

Record quiet_rq (r r' : rq) : Prop := {
  qr_rt : rq_rt r' = rq_rt r;
  qr_nr : nr_running r' = nr_running r;
  qr_ts : ts_queue r' = ts_queue r
}.

Lemma set_rq_quiet c f : (forall r, quiet_rq r (f r)) -> frames quiet (set_rq c f).
Proof.
  intros Hf. apply frames_modify. intros s.
  assert (H : forall i, quiet_rq (rqs s i) (alter f c (rqs s) i)).
  { intros i. destruct (decide (c = i)) as [->|Hne]; [by rewrite fn_lookup_alter|].
    by rewrite fn_lookup_alter_ne. }
  split; split; simpl; try done.
  - intros i. by destruct (H i) as [-> _ _].
  - intros i. by destruct (H i) as [-> _ _].
  - intros Hr i. unfold others. destruct (H i) as [-> -> _]. apply Hr.
  - intros i. unfold ts_q. simpl. by destruct (H i).
Qed.
End Quiet.

#[export] Hint Extern 1 (frames quiet (set_task _ _)) =>
  apply set_task_quiet; intros; split; reflexivity : frames.
#[export] Hint Extern 1 (frames quiet (set_rq _ _)) =>
  apply set_rq_quiet; intros; split; reflexivity : frames.

(** ** The real-time class on the invariant *)

Section RtOps.
Context `{Hfeat : SchedFeat} `{Hlim : Rlimits} `{Hpri : Cpupri}.
Implicit Types (c i : cpu) (p x : task) (s : kstate) (on : task -> bool).

(** Rebuilding the part after a change of [p]. *)
Lemma rt_rebuild on on' p s s' :
  rt_part on s -> (forall i, rt_ok i s') -> (forall i, 0 <= others (rqs s' i) <= PID_MAX_LIMIT) ->
  (forall x, x <> p -> on' x = on x /\ sched_class (tasks s' x) = sched_class (tasks s x) /\
     prio (tasks s' x) = prio (tasks s x) /\ task_cpu (tasks s' x) = task_cpu (tasks s x) /\
     rt_on_rq (rt (tasks s' x)) = rt_on_rq (rt (tasks s x))) ->
  (forall i x, x <> p -> rt_task_queued i s' x <-> rt_task_queued i s x) ->
  (forall i, rt_task_queued i s' p <->
     on' p = true /\ sched_class (tasks s' p) = rt_sched_class /\ task_cpu (tasks s' p) = i) ->
  (rt_on_rq (rt (tasks s' p)) <> 0 -> on' p = true /\ sched_class (tasks s' p) = rt_sched_class) ->
  (sched_class (tasks s' p) = rt_sched_class -> 0 <= prio (tasks s' p) < 100 /\ 0 <= p < PID_MAX_LIMIT) ->
  rt_part on' s'.
Proof.
  intros [Ho Hl Hf Hp Hi Ht] H1 H2 Hx Hq Hqp Hon Hpr. split; [done| | | | |done].
  - intros i x. destruct (decide (x = p)) as [->|Hne]; [apply Hqp|].
    destruct (Hx x Hne) as (-> & -> & _ & -> & _). by rewrite Hq, Hl.
  - intros x. destruct (decide (x = p)) as [->|Hne]; [done|].
    destruct (Hx x Hne) as (-> & -> & _ & _ & ->). apply Hf.
  - intros x. destruct (decide (x = p)) as [->|Hne]; [intros Hc; by apply Hpr|].
    destruct (Hx x Hne) as (_ & -> & -> & _). apply Hp.
  - intros x. destruct (decide (x = p)) as [->|Hne]; [intros Hc; by apply Hpr|].
    destruct (Hx x Hne) as (_ & -> & _). apply Hi.
Qed.

(** A CPU that only accounting has touched since. *)
Lemma other_cpu_ok i s s' :
  rt_ok i s -> rqs s' i = rqs s i ->
  (forall p, rt_task_queued i s p -> tasks s' p = tasks s p) -> rt_ok i s'.
Proof.
  intros Ho Hr Hp. apply (outside_ok i s); [done|]. destruct Ho as [[_ _ _ _ H0 H1] _]. unfold rt_outside.
  rewrite Hr. split_and!; [done..|]. intros p Hq. by rewrite Hp.
Qed.

Lemma entity_only_task p t t' x : entity_only p t t' -> x <> p -> t' x = t x.
Proof. intros [H _]. apply H. Qed.

Lemma entity_only_class p t t' x : entity_only p t t' -> sched_class (t' x) = sched_class (t x).
Proof. intros [H [G HG]]. destruct (decide (x = p)) as [->|Hne]; [by rewrite HG | by rewrite H]. Qed.

Lemma minv_off on s p c : minv on s -> on p = false -> ~ rt_task_queued c s p /\ ~ ts_queued c s p.
Proof.
  intros [Hr Ht] Hp. rewrite (rp_link _ _ Hr), (tp_link _ _ Ht). split; intros (? & _); congruence.
Qed.

Lemma minv_off_entity on s p : minv on s -> on p = false -> rt_on_rq (rt (tasks s p)) = 0.
Proof.
  intros [Hr _] Hp. destruct (Z.eq_dec (rt_on_rq (rt (tasks s p))) 0) as [|H]; [done|].
  apply (rp_off _ _ Hr) in H as [? _]. congruence.
Qed.

Lemma enqueue_rt_minv on c p fl s :
  minv on s -> on p = false -> sched_class (tasks s p) = rt_sched_class -> task_cpu (tasks s p) = c ->
  move_entity fl = true ->
  wp (enqueue_task_rt c p fl) (fun _ s' => minv (<[p := true]> on) s' /\ (curr_kept s -> curr_kept s')) s.
Proof.
  intros Hm Hp Hcl Hcpu Hfl. pose proof Hm as [Hr Hts]. pose proof (rp_others _ _ Hr c) as Ho.
  pose proof (queue_room _ _ c Hr) as Hroom. unfold PID_MAX_LIMIT, rt_queue_of in *.
  wcall_frames kept enqueue_task_rt_run; [apply Hr| |done|].
  { split; [done|by eapply minv_off_entity| |by eapply rp_prio|lia].
    by apply (minv_off on s p c). }
  intros [] s' ((Hi & Hq & Hin & Hrq & He & Hcu & Hot & Hpu) & [Hk Hn]).
  assert (Hperm : concat (rt_queue_of c s') ≡ₚ p :: concat (rt_queue_of c s)).
  { rewrite Hq. pose proof (ri_array _ _ _ (ri_base _ _ _ (rp_ok _ _ Hr c))) as Harr.
    apply (link_array c (tasks s) (tasks s') _ (has fl ENQUEUE_HEAD) p (prio (tasks s p)) Harr He
             ltac:(by apply (minv_off on s p c)) eq_refl); [by apply (rp_prio _ _ Hr)|done|].
    by apply (queued_prio c s' p (ri_base _ _ _ Hi)). }
  split; [split|].
  - apply (rt_rebuild on _ p s); [done| | | | | | |].
    + intros i. destruct (decide (i = c)) as [->|Hne]; [exact Hi|].
      apply (other_cpu_ok i s); [apply Hr|by apply Hrq|]. intros x Hx. apply He. intros ->.
      by apply (minv_off on s p i) in Hx.
    + intros i. destruct (decide (i = c)) as [->|Hne]; [rewrite Hot|rewrite Hrq by done]; apply Hr.
    + intros x Hne. rewrite fn_lookup_insert_ne by done. by rewrite (proj1 He x Hne).
    + intros i x Hne. unfold rt_task_queued. destruct (decide (i = c)) as [->|Hic].
      * rewrite Hperm, elem_of_cons. naive_solver.
      * unfold rt_queue_of. by rewrite Hrq.
    + intros i. rewrite fn_lookup_insert, (kp_class _ _ Hk), Hcl. destruct (entity_only_view p _ _ p He) as (_ & _ & _ & ->).
      rewrite Hcpu. unfold rt_task_queued. destruct (decide (i = c)) as [->|Hic]; [by split|].
      split; [|by intros (_ & _ & ?)]. unfold rt_queue_of. rewrite Hrq by done. intros Hx.
      exfalso. by apply (proj1 (minv_off on s p i Hm Hp)).
    + intros _. by rewrite fn_lookup_insert, (kp_class _ _ Hk).
    + intros _. destruct (entity_only_view p _ _ p He) as (-> & _). split; [by apply Hr | by apply Hr].
  - apply (ts_part_no_ts _ s); [done|]. destruct Hts as [? Hl ?]. split; [done| |done].
    intros i x. rewrite Hl. destruct (decide (x = p)) as [->|Hne]; [|by rewrite fn_lookup_insert_ne].
    split; intros (_ & ? & _); congruence.
  - intros Hck i. rewrite (kp_curr _ _ Hk). destruct (decide (i = c)) as [->|Hne]; [|rewrite Hrq by done; apply Hck].
    intros [H|[H1 H2]]%Hpu; [by apply (Hck c) | by apply H2].
Qed.

Lemma dequeue_rt_minv on c p fl s :
  minv on s -> on p = true -> sched_class (tasks s p) = rt_sched_class -> task_cpu (tasks s p) = c ->
  move_entity fl = true ->
  wp (dequeue_task_rt c p fl) (fun _ s' => minv (<[p := false]> on) s' /\ (curr_kept s -> curr_kept s')) s.
Proof.
  intros [Hr Hts] Hp Hcl Hcpu Hfl.
  assert (Hin : rt_task_queued c s p) by (by apply (rp_link _ _ Hr)).
  wcall_frames kept dequeue_task_rt_run; [apply Hr|exact Hin|done|].
  intros [] s' ((Hi & Hq & Hpu & Hoff & Hpl & Hcu & Hot & s1 & Hf & He & Hrq) & [Hk Hn]).
  assert (Hview : forall x, x <> p -> prio (tasks s' x) = prio (tasks s x) /\
    task_cpu (tasks s' x) = task_cpu (tasks s x) /\ rt_on_rq (rt (tasks s' x)) = rt_on_rq (rt (tasks s x))).
  { intros x Hx. rewrite (entity_only_task p _ _ x He Hx). by destruct (af_tasks _ _ Hf x) as (? & _ & _ & ? & ?). }
  assert (Hqi : forall i, i <> c -> rt_queue_of i s' = rt_queue_of i s).
  { intros i Hic. unfold rt_queue_of. rewrite Hrq by done. exact (f_equal rt_queue (af_core _ _ Hf i)). }
  assert (Hno : forall i, ~ rt_task_queued i s' p).
  { intros i. unfold rt_task_queued. destruct (decide (i = c)) as [->|Hic].
    - rewrite Hq. apply Klist.unlink_not_elem.
    - rewrite Hqi by done. intros (_ & _ & Hx)%(rp_link _ _ Hr). congruence. }
  split; [split|].
  - apply (rt_rebuild on _ p s); [done| | | | | |by rewrite Hoff|].
    + intros i. destruct (decide (i = c)) as [->|Hne]; [exact Hi|].
      apply (other_cpu_ok i s1); [by apply (keeps_acct i s); [apply Hr|]|by apply Hrq|].
      intros x Hx. apply He. intros ->. apply (Hno i). unfold rt_task_queued, rt_queue_of in *. by rewrite Hrq.
    + intros i. destruct (decide (i = c)) as [->|Hne]; [rewrite Hot|rewrite Hrq, (af_others _ _ Hf) by done]; apply Hr.
    + intros x Hne. rewrite fn_lookup_insert_ne, (kp_class _ _ Hk) by done. by destruct (Hview x Hne) as (? & ? & ?).
    + intros i x Hne. unfold rt_task_queued. destruct (decide (i = c)) as [->|Hic]; [|by rewrite Hqi].
      rewrite Hq, Klist.elem_unlink. naive_solver.
    + intros i. rewrite fn_lookup_insert. split; [by intros ?%Hno | by intros [? _]].
    + intros _. destruct (entity_only_view p _ _ p He) as (-> & _). destruct (af_tasks _ _ Hf p) as (-> & _).
      split; by apply Hr.
  - apply (ts_part_no_ts _ s); [done|]. destruct Hts as [? Hl ?]. split; [done| |done].
    intros i x. rewrite Hl. destruct (decide (x = p)) as [->|Hne]; [|by rewrite fn_lookup_insert_ne].
    split; intros (_ & ? & _); congruence.
  - intros Hck i. rewrite (kp_curr _ _ Hk). destruct (decide (i = c)) as [->|Hne].
    + rewrite Hpl. intros ([n y] & Hy & [Hx _]%plist_del_elem)%list_elem_of_fmap. simpl in Hy.
      apply (Hck c). apply list_elem_of_fmap. by exists (n, y).
    + rewrite Hrq by done. destruct (core_queue _ _ (af_core _ _ Hf i)) as (_ & _ & _ & _ & -> & _). apply Hck.
Qed.

(** An operation that moves no task: each CPU keeps its set of tasks. *)
Lemma rt_part_moved on s s' :
  rt_part on s -> kept s s' -> (forall i, rt_ok i s') -> (forall i, others (rqs s' i) = others (rqs s i)) ->
  same_view (tasks s) (tasks s') ->
  (forall i x, rt_task_queued i s' x <-> rt_task_queued i s x) -> rt_part on s'.
Proof.
  intros Hr [Hk _] H1 H2 Hv Hq. apply (rt_rebuild on on 0 s); try done.
  - intros i. rewrite H2. apply Hr.
  - intros x _. rewrite (kp_class _ _ Hk). by destruct (Hv x) as (? & _ & _ & ? & ?).
  - intros i. rewrite Hq, (kp_class _ _ Hk). destruct (Hv 0) as (_ & _ & _ & -> & _). apply Hr.
  - rewrite (kp_class _ _ Hk). destruct (Hv 0) as (_ & _ & _ & _ & ->). apply Hr.
  - rewrite (kp_class _ _ Hk). destruct (Hv 0) as (-> & _). intros Hc. split; by apply Hr.
Qed.

(** What an operation on [c] leaves of the other CPUs. *)
Definition others_kept c s s' : Prop :=
  forall i, i <> c -> rt_core (rq_rt (rqs s' i)) = rt_core (rq_rt (rqs s i)) /\
    (rt_queued (rq_rt (rqs s' i)) <> 0 -> rt_queued (rq_rt (rqs s i)) <> 0) /\
    others (rqs s' i) = others (rqs s i).

Lemma others_kept_acct c s s1 s' :
  acct_frame s s1 -> (forall i, i <> c -> rqs s' i = rqs s1 i) -> others_kept c s s'.
Proof.
  intros Hf H i Hi. rewrite (H i Hi). split; [apply (af_core _ _ Hf)|]. split; [apply (af_queued _ _ Hf)|].
  apply (af_others _ _ Hf).
Qed.

(** An operation on [c] that moves no task; the tasks that become pushable
    are in [b]. *)
Record stays (b : task -> Prop) c s s' : Prop := {
  sy_ok : rt_ok c s';
  sy_others : others (rqs s' c) = others (rqs s c);
  sy_view : same_view (tasks s) (tasks s');
  sy_rest : others_kept c s s';
  sy_set : forall x, rt_task_queued c s' x <-> rt_task_queued c s x;
  sy_push : forall x, x ∈ (pushable_tasks (rq_rt (rqs s' c))).*2 ->
    x ∈ (pushable_tasks (rq_rt (rqs s c))).*2 \/ b x
}.

Lemma stays_trans b c s1 s2 s3 : stays b c s1 s2 -> stays b c s2 s3 -> stays b c s1 s3.
Proof.
  intros [A1 A2 A3 A4 A5 A6] [B1 B2 B3 B4 B5 B6]. split; [done|congruence|by eapply same_view_trans| | |].
  - intros i Hi. destruct (A4 i Hi) as (<- & ? & <-), (B4 i Hi) as (? & ? & ?). auto.
  - intros x. by rewrite B5, A5.
  - intros x [Hx|Hx]%B6; [by apply A6 | by right].
Qed.

Lemma stays_refl b c s : rt_ok c s -> stays b c s s.
Proof. split; try done; by left. Qed.

Lemma stays_acct b c s s' : rt_ok c s -> acct_frame s s' -> stays b c s s'.
Proof.
  intros Ho Hf. destruct (keeps_acct c s s' Ho Hf) as [Hi Hq].
  split; [done|by apply af_others|apply Hf|by eapply others_kept_acct| |].
  - intros x. unfold rt_task_queued. by rewrite Hq.
  - intros x. destruct (core_queue _ _ (af_core _ _ Hf c)) as (_ & _ & _ & _ & -> & _). by left.
Qed.

(** A change of the queue of [c] alone. *)
Lemma stays_eff b c p F s s' :
  rt_eff c p F (fun e => e) s s' -> rt_ok c s' ->
  (forall r, rt_queued (F r) = rt_queued r /\ rt_nr_running (F r) = rt_nr_running r) ->
  (forall x, x ∈ concat (rt_queue (F (rq_rt (rqs s c)))) <-> rt_task_queued c s x) ->
  (forall x, x ∈ (pushable_tasks (F (rq_rt (rqs s c)))).*2 ->
     x ∈ (pushable_tasks (rq_rt (rqs s c))).*2 \/ b x) ->
  stays b c s s'.
Proof.
  intros He Ho HF Hq Hp. pose proof (rt_eff_rt _ _ _ _ _ _ He) as Hr.
  split; [done| |by eapply rt_eff_view| | |].
  - unfold others. rewrite Hr. destruct (HF (rq_rt (rqs s c))) as [-> ->].
    by rewrite (eff_rq _ _ _ _ _ _ He).
  - intros i Hi. by rewrite (eff_rqs _ _ _ _ _ _ He).
  - intros x. unfold rt_task_queued at 1, rt_queue_of. by rewrite Hr.
  - by rewrite Hr.
Qed.

Lemma rt_part_local on b c s s' : rt_part on s -> kept s s' -> stays b c s s' -> rt_part on s'.
Proof.
  intros Hr Hk [H1 H2 Hv Ho Hq _]. apply (rt_part_moved on s); [done|done| | |done|].
  - intros i. destruct (decide (i = c)) as [->|Hne]; [done|]. destruct (Ho i Hne) as (E1 & E2 & E3).
    apply (view_inv _ _ _ _ Hv). apply (core_inv i _ (rqs s i)); [by rewrite E1| |done|apply Hr].
    intros H%E2. destruct (core_queue _ _ E1) as (_ & _ & _ & -> & _). by apply (rp_ok _ _ Hr i).
  - intros i. destruct (decide (i = c)) as [->|Hne]; [done|]. by apply Ho.
  - intros i x. destruct (decide (i = c)) as [->|Hne]; [done|]. destruct (Ho i Hne) as (E1 & _ & _).
    unfold rt_task_queued, rt_queue_of. by destruct (core_queue _ _ E1) as (-> & _).
Qed.

Lemma minv_local on b c s s' : minv on s -> kept s s' -> stays b c s s' -> minv on s'.
Proof.
  intros [Hr Ht] Hk Hs. split; [by eapply rt_part_local | eapply ts_part_no_ts; [apply Hk | done]].
Qed.

Lemma curr_kept_local b c s s' :
  curr_kept s -> kept s s' -> stays b c s s' -> ~ b (curr (rqs s c)) -> curr_kept s'.
Proof.
  intros Hc [Hk _] Hs Hb i. rewrite (kp_curr _ _ Hk). destruct (decide (i = c)) as [->|Hne].
  - intros [H|H]%(sy_push _ _ _ _ Hs); [by apply (Hc c) | done].
  - destruct (sy_rest _ _ _ _ Hs i Hne) as (E1 & _). destruct (core_queue _ _ E1) as (_ & _ & _ & _ & -> & _).
    apply Hc.
Qed.

(** *** Operations that move no task *)

Lemma enqueue_pushable_stays c p s :
  rt_ok c s -> rt_task_queued c s p -> 1 < nr_cpus_allowed (tasks s p) ->
  wp (enqueue_pushable_task c p) (fun _ s' => stays (eq p) c s s') s.
Proof.
  intros Hi Hp Hn. eapply wp_mono; [apply wp_and; [by apply enqueue_pushable_keeps|apply enqueue_pushable_task_eff]|].
  cbv beta. intros [] s' [[Ho _] He]. apply (stays_eff _ c p _ _ _ He Ho); [by intros []|done|].
  intros x. unfold push_in. simpl. rewrite plist_add_perm. simpl. intros [->|Hx]%elem_of_cons; [by right|left].
  apply list_elem_of_fmap in Hx as ([n y] & -> & [Hx _]%plist_del_elem). apply list_elem_of_fmap. eauto.
Qed.

Lemma dequeue_pushable_stays b c p s :
  rt_ok c s -> wp (dequeue_pushable_task c p) (fun _ s' => stays b c s s' /\
    p ∉ (pushable_tasks (rq_rt (rqs s' c))).*2) s.
Proof.
  intros Hi. eapply wp_mono; [apply wp_and; [by apply dequeue_pushable_keeps|apply dequeue_pushable_task_eff]|].
  cbv beta. intros [] s' [[[Ho _] Hp] He]. split; [|done]. apply (stays_eff _ c p _ _ _ He Ho); [by intros []|done|].
  intros x. unfold push_out. simpl. left.
  apply list_elem_of_fmap in H as ([n y] & -> & [Hx _]%plist_del_elem). apply list_elem_of_fmap. eauto.
Qed.

Lemma requeue_stays b c p head s :
  rt_ok c s -> rt_task_queued c s p -> wp (requeue_rt_entity c p head) (fun _ s' => stays b c s s') s.
Proof.
  intros Hi Hp. wcall requeue_rt_entity_run; [apply Hi|done|]. intros [] s' He.
  assert (Ho : rt_ok c s').
  { apply (view_inv _ _ _ _ (rt_eff_view _ _ _ _ _ He)). rewrite (eff_rq _ _ _ _ _ _ He). by apply requeue_inv. }
  apply (stays_eff _ c p _ _ _ He Ho); [by intros []| |by left].
  intros x. simpl. unfold rt_task_queued, rt_queue_of.
  by rewrite (proj2 (requeue_array c (tasks s) _ head p (ri_array _ _ _ (ri_base _ _ _ Hi)) Hp)).
Qed.

Lemma put_prev_rt_stays c p s :
  rt_ok c s -> (rt_on_rq (rt (tasks s p)) <> 0 -> rt_task_queued c s p) ->
  wp (put_prev_task_rt c p) (fun _ s' => stays (eq p) c s s') s.
Proof.
  intros Hi Hp. unfold put_prev_task_rt. wstep. wcall update_curr_rt_acct; [apply Hi|].
  intros [] s1 H1. pose proof (stays_acct (eq p) c s s1 Hi H1) as Hs. unfold get_task. do 2 wstep. wstep; [|done].
  apply andb_true_iff in H as [Hon Hn%Z.ltb_lt].
  wcall enqueue_pushable_stays; [apply Hs| |done|].
  - apply (sy_set _ _ _ _ Hs), Hp. destruct (af_tasks _ _ H1 p) as (_ & _ & _ & _ & <-).
    unfold on_rt_rq in Hon. by destruct (Z.eqb_spec (rt_on_rq (rt (tasks s1 p))) 0).
  - intros [] s2 H2. by eapply stays_trans.
Qed.

Lemma stays_tasks b c s s' :
  rt_ok c s -> rqs s' = rqs s -> same_view (tasks s) (tasks s') -> stays b c s s'.
Proof.
  intros Hi Hr Hv. unfold rt_ok in Hi. split; [unfold rt_ok; rewrite Hr; by eapply view_inv|by rewrite Hr|done| | |].
  - intros i _. by rewrite Hr.
  - intros x. unfold rt_task_queued, rt_queue_of. by rewrite Hr.
  - intros x. rewrite Hr. by left.
Qed.

Lemma set_task_stays b c p f s :
  (forall t, prio (f t) = prio t /\ policy (f t) = policy t /\ nr_cpus_allowed (f t) = nr_cpus_allowed t
             /\ task_cpu (f t) = task_cpu t /\ rt_on_rq (rt (f t)) = rt_on_rq (rt t)) ->
  rt_ok c s -> wp (set_task p f) (fun _ s' => stays b c s s') s.
Proof.
  intros Hf Hi. wcall set_task_keeps; [exact Hf|exact Hi|]. intros [] s' (_ & Hv & Hr). by apply stays_tasks.
Qed.

Lemma resched_stays b c i s : rt_ok c s -> wp (resched_curr i) (fun _ s' => stays b c s s') s.
Proof. intros Hi. wcall resched_curr_acct. intros [] s' H. by apply stays_acct. Qed.

Lemma push_callback_stays b c s : rt_ok c s -> wp (rt_queue_push_tasks c) (fun _ s' => stays b c s s') s.
Proof.
  intros Hi. unfold rt_queue_push_tasks, queue_balance_callback, get_rt, get_rq, set_rq. wgo.
  destruct (negb _); [by apply stays_refl|]. wgo. case_bool_decide; [by apply stays_refl|]. wgo.
  split; simpl; rewrite ?fn_lookup_alter; [|done|done| | |by left].
  - unfold rt_ok. simpl. rewrite fn_lookup_alter. apply (core_inv c _ (rqs s c)); [done| |done|exact Hi]. apply Hi.
  - intros i Hic. simpl. by rewrite fn_lookup_alter_ne.
  - intros x. unfold rt_task_queued, rt_queue_of. simpl. by rewrite fn_lookup_alter.
Qed.

(** Picking the task [p]: it is the first, and no longer pushable. *)
Lemma pick_rt_stays b c s :
  rt_ok c s -> concat (rt_queue_of c s) <> [] ->
  wp (let! p := _pick_next_task_rt c in do! dequeue_pushable_task c p in
      do! rt_queue_push_tasks c in ret (PICKED p))
     (fun r s' => stays b c s s' /\ exists p, r = PICKED p /\ rt_task_queued c s p /\ rt_first c s p /\
        p ∉ (pushable_tasks (rq_rt (rqs s' c))).*2) s.
Proof.
  intros Hi Hne. unfold _pick_next_task_rt. do 2 wstep.
  wcall pick_next_rt_entity_run; [apply Hi|done|]. intros p s0 (-> & Hl & Hh & Hmin).
  assert (Hp : rt_task_queued c s p) by (destruct Hl as [l Hl]; eapply Klist.at_index_elem; [exact Hl | by left]).
  unfold get_rq. wgo. wcall (set_task_stays b c); [done|done|]. intros [] s1 H1. wgo.
  wcall (dequeue_pushable_stays b); [apply H1|]. intros [] s2 [H2 Hp2]. wgo.
  eapply wp_mono; [apply wp_and; [apply (push_callback_stays b c), H2|apply queue_push_keeps, H2]|].
  cbv beta. intros [] s3 [H3 (_ & _ & Hr)]. wgo. split; [by eapply stays_trans; [eapply stays_trans|]|].
  exists p. rewrite Hr. by split_and!.
Qed.

Lemma watchdog_stays b c p s : rt_ok c s -> wp (watchdog c p) (fun _ s' => stays b c s s') s.
Proof.
  intros Hi. wcall watchdog_keeps; [exact Hi|]. intros [] s' (_ & Hv & Hr). by apply stays_tasks.
Qed.

Lemma requeue_task_stays b c p head s :
  rt_ok c s -> rt_task_queued c s p -> wp (requeue_task_rt c p head) (fun _ s' => stays b c s s') s.
Proof.
  intros Hi Hp. unfold requeue_task_rt, get_task. do 2 wstep.
  destruct (queued_prio c s p (ri_base _ _ _ Hi) Hp) as (_ & -> & _). by apply requeue_stays.
Qed.

Lemma yield_rt_stays b c s :
  rt_ok c s -> rt_task_queued c s (curr (rqs s c)) -> wp (yield_task_rt c) (fun _ s' => stays b c s s') s.
Proof. intros Hi Hp. unfold yield_task_rt, get_rq. wgo. by apply requeue_task_stays. Qed.

Lemma check_preempt_rt_stays b c p fl s :
  rt_ok c s -> rt_task_queued c s p -> wp (check_preempt_curr_rt c p fl) (fun _ s' => stays b c s s') s.
Proof.
  intros Hi Hp. unfold check_preempt_curr_rt. wgo. cbv zeta. destruct (_ <? _); [by apply resched_stays|].
  wstep; [clear H|by apply stays_refl]. unfold check_preempt_equal_prio. wgo. cbv zeta.
  destruct (_ || _); [by apply stays_refl|]. destruct (_ && _); [by apply stays_refl|].
  wstep. wcall (requeue_task_stays b); [done|done|]. intros [] s1 H1.
  wcall (resched_stays b c); [apply H1|]. intros [] s2 H2. by eapply stays_trans.
Qed.

Lemma task_tick_rt_stays b c p q s :
  rt_ok c s -> rt_task_queued c s p -> wp (task_tick_rt c p q) (fun _ s' => stays b c s s') s.
Proof.
  intros Hi Hp. unfold task_tick_rt. wstep. wcall update_curr_rt_acct; [apply Hi|]. intros [] s1 H1.
  pose proof (stays_acct b c s s1 Hi H1) as Hs1. wstep. wcall (watchdog_stays b c); [apply Hs1|]. intros [] s2 H2.
  pose proof (stays_trans _ _ _ _ _ Hs1 H2) as Hs2. unfold get_task, get_rt. do 2 wstep.
  destruct (negb (policy _ =? _)); [done|]. wstep.
  wcall (set_task_stays b c); [done|apply Hs2|]. intros [] s3 H3.
  pose proof (stays_trans _ _ _ _ _ Hs2 H3) as Hs3. wgo. destruct (negb _); [done|]. wgo.
  wcall (set_task_stays b c); [done|apply Hs3|]. intros [] s4 H4.
  pose proof (stays_trans _ _ _ _ _ Hs3 H4) as Hs4. wgo. wstep; [|done]. wgo.
  wcall (requeue_task_stays b c); [apply Hs4|by apply (sy_set _ _ _ _ Hs4)|]. intros [] s5 H5.
  wcall (resched_stays b c); [apply H5|]. intros [] s6 H6.
  eapply stays_trans; [exact Hs4|]. by eapply stays_trans.
Qed.
End RtOps.

(** ** The TS class on the invariant *)

Lemma set_task_rt_quiet (b : task -> Prop) p f :
  (forall t, sched_class (f t) = sched_class t /\ rt_on_rq (rt (f t)) = rt_on_rq (rt t)) ->
  b p \/ (forall t, prio (f t) = prio t /\ policy (f t) = policy t /\
     nr_cpus_allowed (f t) = nr_cpus_allowed t /\ task_cpu (f t) = task_cpu t) ->
  frames (rt_quiet b) (set_task p f).
Proof.
  intros Hf Hb. apply frames_modify. intros s. split; simpl; try done.
  - intros x. apply alter_view, Hf.
  - intros x. apply (alter_view (fun t => rt_on_rq (rt t))), Hf.
  - intros x Hx _. destruct (decide (p = x)) as [->|Hne]; [|by rewrite fn_lookup_alter_ne].
    rewrite fn_lookup_alter. destruct Hb as [Hb|Hb]; [done | apply Hb].
Qed.

Lemma set_rq_rt_quiet (b : task -> Prop) c f :
  (forall r, rq_rt (f r) = rq_rt r /\ nr_running (f r) = nr_running r) -> frames (rt_quiet b) (set_rq c f).
Proof.
  intros Hf. apply frames_modify. intros s. split; simpl; try done.
  - intros i. by rewrite (alter_rq_view rq_rt) by apply Hf.
  - intros i. by rewrite (alter_rq_view rq_rt) by apply Hf.
  - intros Hr i. unfold others. rewrite (alter_rq_view rq_rt), (alter_rq_view nr_running) by apply Hf. apply Hr.
Qed.

#[export] Hint Extern 1 (frames (rt_quiet _) (set_task _ _)) =>
  apply set_task_rt_quiet; [intros; split; reflexivity
    | first [left; reflexivity | right; intros; split_and!; reflexivity]] : frames.
#[export] Hint Extern 1 (frames (rt_quiet _) (set_rq _ _)) =>
  apply set_rq_rt_quiet; intros; split; reflexivity : frames.

(** What a TS operation on [c] leaves of the other CPUs. *)
Record ts_local (c : cpu) (s s' : kstate) : Prop := {
  tl_queue : forall i, i <> c -> ts_q i s' = ts_q i s;
  tl_class : forall x, sched_class (tasks s' x) = sched_class (tasks s x);
  tl_cpu : forall x, task_cpu (tasks s' x) = task_cpu (tasks s x)
}.

#[export] Instance ts_local_preorder c : PreOrder (ts_local c).
Proof.
  split; [by split|]. intros s1 s2 s3 [A1 A2 A3] [B1 B2 B3].
  split; [intros x Hx; by rewrite B1, A1|intros x; by rewrite ?B2, ?B3..].
Qed.

Lemma set_task_ts_local c p f :
  (forall t, sched_class (f t) = sched_class t /\ task_cpu (f t) = task_cpu t) ->
  frames (ts_local c) (set_task p f).
Proof. intros Hf. apply frames_modify. intros s. split; [done|..]; intros x; simpl; apply alter_view, Hf. Qed.

Lemma set_rq_ts_local c f : frames (ts_local c) (set_rq c f).
Proof.
  apply frames_modify. intros s. split; try done. intros i Hi. unfold ts_q. simpl. by rewrite fn_lookup_alter_ne.
Qed.

#[export] Hint Extern 1 (frames (ts_local _) (set_task _ _)) =>
  apply set_task_ts_local; intros; split; reflexivity : frames.
#[export] Hint Extern 1 (frames (ts_local _) (set_rq _ _)) => apply set_rq_ts_local : frames.

Section TsOps.
Implicit Types (c i : cpu) (p x : task) (s : kstate) (on : task -> bool).

(** What both relations say of a TS operation on [p], a task of [c]. *)
Definition ts_op c p s s' : Prop := keep s s' /\ rt_quiet (eq p) s s' /\ ts_local c s s'.

#[export] Instance ts_op_preorder c p : PreOrder (ts_op c p).
Proof. split; [by split|]. intros s1 s2 s3 (? & ? & ?) (? & ? & ?). split_and!; by etrans. Qed.

Lemma frames_ts_op {A} c p (m : K A) :
  frames keep m -> frames (rt_quiet (eq p)) m -> frames (ts_local c) m -> frames (ts_op c p) m.
Proof. intros H1 H2 H3 s a s' He. split_and!; [by eapply H1 | by eapply H2 | by eapply H3]. Qed.

Lemma resched_curr_rt_quiet b c : frames (rt_quiet b) (resched_curr c).
Proof. frames_tac. Qed.
Lemma resched_curr_ts_local c i : frames (ts_local c) (resched_curr i).
Proof. frames_tac. Qed.
#[local] Hint Resolve resched_curr_rt_quiet resched_curr_ts_local : frames.

Lemma enqueue_task_ts_op c p fl : frames (ts_op c p) (enqueue_task_ts c p fl).
Proof. apply frames_ts_op; frames_tac. Qed.
Lemma dequeue_task_ts_op c p fl : frames (ts_op c p) (dequeue_task_ts c p fl).
Proof. apply frames_ts_op; frames_tac. Qed.
Lemma yield_task_ts_op c p : frames (ts_op c p) (yield_task_ts c).
Proof. apply frames_ts_op; frames_tac. Qed.
Lemma task_tick_ts_op c p q : frames (ts_op c p) (task_tick_ts c p q).
Proof. apply frames_ts_op; frames_tac. Qed.

Lemma ts_rebuild on on' c p s s' :
  minv on s -> ts_op c p s s' -> sched_class (tasks s p) = ts_sched_class -> task_cpu (tasks s p) = c ->
  ts_wf c s' -> (forall x, x <> p -> prio_of s' x = prio_of s x) -> 100 <= prio_of s' p <= 139 ->
  (forall x, x <> p -> on' x = on x) ->
  (forall x, x <> p -> ts_queued c s' x <-> ts_queued c s x) -> (ts_queued c s' p <-> on' p = true) ->
  minv on' s' /\ (curr_kept s -> curr_kept s').
Proof.
  intros [Hr [Hw Hl Hp]] (Hk & Hq & Ht) Hcl Hcpu H1 H2 H3 H4 H5 H6.
  assert (Hne : forall i, i <> c -> ~ ts_queued i s p) by (intros i Hi (_ & _ & ?)%Hl; congruence).
  split; [split; [|split]|].
  - assert (Hr' : rt_part on s').
    { apply (rt_part_quiet (eq p) on s); [|done|done]. intros x <-. by rewrite Hcl. }
    apply (rt_rebuild on _ p s'); [done|apply Hr'|apply Hr'| | | |..].
    + intros x Hx. by rewrite H4.
    + done.
    + intros i. rewrite (rp_link _ _ Hr'), (rq_class _ _ _ Hq), Hcl. naive_solver.
    + intros [_ H]%(rp_off _ _ Hr'). by rewrite (rq_class _ _ _ Hq), Hcl in H.
    + by rewrite (rq_class _ _ _ Hq), Hcl.
  - intros i. destruct (decide (i = c)) as [->|Hi]; [done|]. unfold ts_wf. rewrite (tl_queue _ _ _ Ht) by done.
    eapply wf_q_ext; [apply Hw|]. intros x Hx. apply H2. intros ->. by apply (Hne i).
  - intros i x. rewrite (tl_class _ _ _ Ht), (tl_cpu _ _ _ Ht). destruct (decide (x = p)) as [->|Hx].
    + destruct (decide (i = c)) as [->|Hi]; [rewrite H6; naive_solver|]. unfold ts_queued. rewrite (tl_queue _ _ _ Ht) by done.
      split; [by intros ?%Hne | intros (_ & _ & ?); congruence].
    + rewrite H4 by done. rewrite <- Hl. destruct (decide (i = c)) as [->|Hi]; [by apply H5|].
      unfold ts_queued. by rewrite (tl_queue _ _ _ Ht).
  - intros x. rewrite (tl_class _ _ _ Ht). intros Hx. destruct (decide (x = p)) as [->|Hxp]; [exact H3|].
    pose proof (H2 x Hxp) as E. unfold prio_of in E. rewrite E. by apply Hp.
  - intros Hck i. rewrite (kp_curr _ _ Hk).
    destruct (core_queue _ _ (rq_core _ _ _ Hq i)) as (_ & _ & _ & _ & -> & _). apply Hck.
Qed.

Lemma enqueue_ts_minv on c p fl s :
  minv on s -> on p = false -> sched_class (tasks s p) = ts_sched_class -> task_cpu (tasks s p) = c ->
  wp (enqueue_task_ts c p fl) (fun _ s' => minv (<[p := true]> on) s' /\ (curr_kept s -> curr_kept s')) s.
Proof.
  intros Hm Hp Hcl Hcpu. pose proof Hm as [_ [Hw Hl Hpr]].
  assert (Hq : ~ ts_queued c s p) by by apply (minv_off on s p c).
  destruct (enqueue_task_ts_run c p fl s (Hw c) Hq (Hpr p Hcl)) as (l & s' & Hl' & He & Hq' & Hp' & Hx).
  apply (wp_intro _ _ _ _ _ He). pose proof (enqueue_task_ts_op c p fl s _ _ He) as Hop.
  assert (Hset : concat (ts_q c s') ≡ₚ p :: concat (ts_q c s)) by (rewrite Hq'; by apply Klist.put_tail_perm).
  assert (Hpr' : 100 <= prio_of s' p <= 139).
  { rewrite Hp'. destruct (has _ _); [apply get_new_prio_valid|]; by apply Hpr. }
  apply (ts_rebuild on _ c p s); try done.
  - unfold ts_wf. rewrite Hq'. apply wf_q_put_tail; [|done|done|done].
    eapply wf_q_ext; [apply Hw|]. intros x Hxq. apply Hx. by intros ->.
  - intros x Hne. by rewrite fn_lookup_insert_ne.
  - intros x Hne. unfold ts_queued. rewrite Hset, elem_of_cons. naive_solver.
  - rewrite fn_lookup_insert. unfold ts_queued. rewrite Hset. split; [done|by left].
Qed.

Lemma dequeue_ts_minv on c p fl s :
  minv on s -> on p = true -> sched_class (tasks s p) = ts_sched_class -> task_cpu (tasks s p) = c ->
  wp (dequeue_task_ts c p fl) (fun _ s' => minv (<[p := false]> on) s' /\ (curr_kept s -> curr_kept s')) s.
Proof.
  intros Hm Hp Hcl Hcpu. pose proof Hm as [_ [Hw Hl Hpr]].
  assert (Hq : ts_queued c s p) by by apply Hl.
  pose proof (dequeue_task_ts_run c p fl s Hq) as He. apply (wp_intro _ _ _ _ _ He).
  pose proof (dequeue_task_ts_op c p fl s _ _ He) as Hop.
  apply (ts_rebuild on _ c p s); try done.
  - unfold ts_wf. rewrite ts_q_put. apply wf_q_unlink, Hw.
  - by apply Hpr.
  - intros x Hne. by rewrite fn_lookup_insert_ne.
  - intros x Hne. unfold ts_queued. rewrite ts_q_put, Klist.elem_unlink. naive_solver.
  - rewrite fn_lookup_insert. unfold ts_queued. rewrite ts_q_put. split; [|done].
    intros H. by apply Klist.unlink_not_elem in H.
Qed.

Lemma yield_ts_minv on c s :
  minv on s -> on (curr (rqs s c)) = true -> sched_class (tasks s (curr (rqs s c))) = ts_sched_class ->
  task_cpu (tasks s (curr (rqs s c))) = c ->
  wp (yield_task_ts c) (fun _ s' => minv on s' /\ (curr_kept s -> curr_kept s')) s.
Proof.
  intros Hm Hp Hcl Hcpu. set (p := curr (rqs s c)) in *. pose proof Hm as [_ [Hw Hl Hpr]].
  assert (Hq : ts_queued c s p) by by apply Hl.
  destruct (yield_task_ts_run c s (Hw c) Hq) as (q' & Hq' & He & Hw' & _). apply (wp_intro _ _ _ _ _ He).
  pose proof (yield_task_ts_op c p s _ _ He) as Hop.
  destruct (move_tail_spec _ _ _ (Hw c) Hq) as (q2 & E2 & _ & _ & Hperm). fold p in Hq'.
  rewrite Hq' in E2. injection E2 as <-.
  apply (ts_rebuild on _ c p s); try done.
  - by apply Hpr.
  - intros x Hne. unfold ts_queued. by rewrite ts_q_put, Hperm.
  - unfold ts_queued. rewrite ts_q_put, Hperm. by split.
Qed.

Lemma tick_ts_minv on c p q s :
  minv on s -> on p = true -> sched_class (tasks s p) = ts_sched_class -> task_cpu (tasks s p) = c ->
  wp (task_tick_ts c p q) (fun _ s' => minv on s' /\ (curr_kept s -> curr_kept s')) s.
Proof.
  intros Hm Hp Hcl Hcpu. pose proof Hm as [_ [Hw Hl Hpr]].
  assert (Hq : ts_queued c s p) by by apply Hl.
  enough (H : wp (task_tick_ts c p q) (fun _ s' => ts_wf c s' /\ (forall x, x <> p -> prio_of s' x = prio_of s x) /\
      100 <= prio_of s' p <= 139 /\ forall x, ts_queued c s' x <-> ts_queued c s x) s).
  { eapply wp_mono; [eapply (wp_frames (ts_op c p)); [apply task_tick_ts_op | exact H]|].
    intros [] s' [(H1 & H2 & H3 & H4) Hop]. apply (ts_rebuild on on c p s); try done.
    by rewrite H4. }
  assert (Hsame : forall s', ts_q c s' = ts_q c s -> (forall x, prio_of s' x = prio_of s x) ->
    ts_wf c s' /\ (forall x, x <> p -> prio_of s' x = prio_of s x) /\
    100 <= prio_of s' p <= 139 /\ forall x, ts_queued c s' x <-> ts_queued c s x).
  { intros s' E1 E2. split; [|split; [done|split; [rewrite E2; by apply Hpr|intros x; unfold ts_queued; by rewrite E1]]].
    unfold ts_wf. rewrite E1. by eapply wf_q_ext; [apply Hw|]. }
  unfold task_tick_ts, get_task, set_task. wgo. destruct (negb _); [by apply Hsame|]. wgo. destruct (negb _).
  { apply Hsame; [done|]. intros x. unfold prio_of. simpl. by apply alter_view. }
  wgo. cbv zeta. match goal with |- wp _ _ ?t => set (s1 := t) end.
  assert (Hne : forall x, x <> p -> prio_of s1 x = prio_of s x).
  { intros x Hx. unfold s1, prio_of. simpl. by rewrite !fn_lookup_alter_ne. }
  assert (Hp1 : 100 <= prio_of s1 p <= 139).
  { unfold s1, prio_of. simpl. rewrite !fn_lookup_alter. simpl. apply get_new_prio_valid, Hpr, Hcl. }
  assert (Hw1 : ts_wf c s1).
  { destruct (Hw c) as (? & ? & Hr). split; [done|split; [done|]]. intros x Hx.
    destruct (decide (x = p)) as [->|Hxp]; [done|]. rewrite Hne by done. by apply Hr. }
  destruct (move_tail_spec (ts_q c s1) (prio_of s1) p Hw1 Hq) as (q' & Hq' & Hwq & _ & Hperm).
  apply (wp_intro _ _ _ _ _ (on_ts_queue_done c _ s1 q' Hq')).
  destruct (resched_curr_ts c (ts_put c q' s1)) as (s' & He & Hqs & Hf & _). apply (wp_intro _ _ _ _ _ He).
  rewrite ts_q_put in Hqs. assert (Hpr' : forall x, prio_of s' x = prio_of s1 x) by (intros x; apply Hf).
  split; [|split; [|split]].
  - unfold ts_wf. rewrite Hqs. by eapply wf_q_ext.
  - intros x Hx. rewrite Hpr'. by apply Hne.
  - by rewrite Hpr'.
  - intros x. unfold ts_queued. by rewrite Hqs, Hperm.
Qed.
End TsOps.
