(* ===== verification/SetSched.v ===== *)
(** * Changing how a task is scheduled ([kernel/sched/core.c])

    The policies, priorities and nice values of tasks: the system calls that
    set and read them, priority inheritance, and the change of a task's class
    and place in the queues that all of them end in. *)

From S2P Require Import Prelude Sched Ts RtBandwidth Rt SchedClass.

(** ** Parameters and data *)

(** [struct sched_attr] of the ABI. *)
Record sched_attr : Type := mk_sched_attr {
  attr_size : Z;  (** [size] *)
  sched_policy : Z;
  sched_flags : Z;
  sched_nice : Z;
  sched_priority : Z;
  sched_runtime : Z;
  sched_deadline : Z;
  sched_period : Z
}.

Definition eta_sched_attr (r : sched_attr) : sched_attr :=
  mk_sched_attr (attr_size r) (sched_policy r) (sched_flags r) (sched_nice r) (sched_priority r)
    (sched_runtime r) (sched_deadline r) (sched_period r).
#[export] Instance attr_size_field : Field attr_size. Proof. solve_field eta_sched_attr. Defined.
#[export] Instance sched_policy_field : Field sched_policy. Proof. solve_field eta_sched_attr. Defined.
#[export] Instance sched_flags_field : Field sched_flags. Proof. solve_field eta_sched_attr. Defined.
#[export] Instance sched_nice_field : Field sched_nice. Proof. solve_field eta_sched_attr. Defined.
#[export] Instance sched_priority_field : Field sched_priority. Proof. solve_field eta_sched_attr. Defined.

(** What the kernel knows of the caller: its capability [CAP_SYS_NICE], the
    limits [RLIMIT_NICE] and [RLIMIT_RTPRIO] of a task, the answers of the
    security module, and the tasks that its process numbers name. *)
Class Caller : Type := {
  capable_nice : bool;
  rlimit_nice : task -> Z;
  rlimit_rtprio : task -> Z;
  security_task_setscheduler : task -> Z;
  security_task_getscheduler : task -> Z;
  security_task_setnice : task -> Z -> Z;
  find_task_by_vpid : Z -> option task;
  in_interrupt : bool
}.

(** What [deadline.c] and the rt mutexes export. *)
Class Deadline : Type := {
  __setparam_dl : task -> sched_attr -> K unit;
  __getparam_dl : task_struct -> sched_attr -> sched_attr;
  __checkparam_dl : sched_attr -> bool;
  dl_param_changed : task_struct -> sched_attr -> bool;
  sched_dl_overflow : task -> Z -> sched_attr -> K Z;
  dl_time_before : Z -> Z -> bool;
  rt_mutex_get_top_task : task_struct -> option task;
  rt_mutex_adjust_pi : task -> K unit
}.

Definition SETPARAM_POLICY : Z := -1.
Definition SCHED_ATTR_SIZE_VER0 : Z := 48.
Definition sizeof_sched_attr : Z := 48.
Definition USER_PAGE_SIZE : Z := 4096.

Definition clamp (v lo hi : Z) : Z := Z.min (Z.max v lo) hi.
Definition nice_to_rlimit (nice : Z) : Z := MAX_NICE - nice + 1.

Definition current_task (s : kstate) : task := curr (rqs s (this_cpu s)).

Section SetSched.
Context `{Hfeat : SchedFeat} `{Hlim : Rlimits} `{Hpri : Cpupri} `{Htop : Topology}.
Context `{Hoth : OtherClasses} `{Hcall : Caller} `{Hdl : Deadline}.

(** ** Nice values *)

Definition can_nice (p : task) (nice : Z) : bool :=
  (u64 (nice_to_rlimit nice) <=? rlimit_nice p) || capable_nice.

Definition set_user_nice (p : task) (nice : Z) : K unit :=
  let! t := get_task p in
  if (task_nice t =? nice) || (nice <? MIN_NICE) || (MAX_NICE <? nice) then ret tt else
  let c := task_cpu t in
  do! update_rq_clock c in
  if task_has_dl_policy t || task_has_rt_policy t then
    set_task p (fun t => t <| static_prio := NICE_TO_PRIO nice |>)
  else
    let queued := task_on_rq_queued t in
    let! r := get_rq c in
    let running := task_current r p in
    do! when queued (dequeue_task c p (Z.lor DEQUEUE_SAVE DEQUEUE_NOCLOCK)) in
    do! when running (put_prev_task c p) in
    do! set_task p (fun t => t <| static_prio := NICE_TO_PRIO nice |>) in
    do! set_load_weight p true in
    let! t := get_task p in
    let old_prio := prio t in
    let! new_prio := effective_prio p in
    do! set_task p (fun t => t <| prio := new_prio |>) in
    let delta := new_prio - old_prio in
    do! when queued
      (do! enqueue_task c p (Z.lor ENQUEUE_RESTORE ENQUEUE_NOCLOCK) in
       let! t := get_task p in
       when ((delta <? 0) || ((0 <? delta) && task_running t)) (resched_curr c)) in
    when running (set_curr_task c p).

Definition sys_nice (increment : Z) : K Z :=
  let increment := clamp increment (- NICE_WIDTH) NICE_WIDTH in
  let! me := gets current_task in
  let! t := get_task me in
  let nice := clamp (task_nice t + increment) MIN_NICE MAX_NICE in
  if (increment <? 0) && negb (can_nice me nice) then ret (- EPERM) else
  let retval := security_task_setnice me nice in
  if negb (retval =? 0) then ret retval else
  do! set_user_nice me nice in
  ret 0.

(** ** Idle CPUs *)

Definition idle_cpu (r : rq) : bool :=
  bool_decide (curr r = idle r) && (nr_running r =? 0)
  && match wake_list r with [] => true | _ => false end.

Definition idle_task (r : rq) : task := idle r.

(** ** Priority inheritance *)

Definition __rt_effective_prio (s : kstate) (pi_task : option task) (pr : Z) : Z :=
  match pi_task with Some q => Z.min pr (prio (tasks s q)) | None => pr end.

Definition rt_effective_prio (p : task) (pr : Z) : K Z :=
  let! s := gets (fun s => s) in
  ret (__rt_effective_prio s (rt_mutex_get_top_task (tasks s p)) pr).

(** [dl_entity_is_special] is for the cpufreq governor. *)
Definition dl_entity_is_special (e : sched_dl_entity) : bool := has (dl_flags e) SCHED_FLAG_SUGOV.
Definition dl_entity_preempt (a b : sched_dl_entity) : bool :=
  dl_entity_is_special a || dl_time_before (deadline a) (deadline b).

(** The class and the deadline fields that [rt_mutex_setprio] gives [p], and
    its flags. *)
Definition boost_class (p : task) (pi_task : option task) (pr oldprio flags : Z) : K Z :=
  let! s := gets (fun s => s) in
  let t := tasks s p in
  let deboost := when (dl_prio oldprio) (set_task p (fun t => t <| dl ::= fun e => e <| dl_boosted := 0 |> |>)) in
  if dl_prio pr then
    let boost := negb (dl_prio (normal_prio t)) ||
      match pi_task with
      | Some q => dl_prio (prio (tasks s q)) && dl_entity_preempt (dl (tasks s q)) (dl t)
      | None => false
      end in
    do! set_task p (fun t => t <| dl ::= fun e => e <| dl_boosted := b2z boost |> |>) in
    do! set_task p (fun t => t <| sched_class := dl_sched_class |>) in
    ret (if boost then Z.lor flags ENQUEUE_REPLENISH else flags)
  else if rt_prio pr then
    do! deboost in
    do! set_task p (fun t => t <| sched_class := rt_sched_class |>) in
    ret (if oldprio <? pr then Z.lor flags ENQUEUE_HEAD else flags)
  else
    do! deboost in
    do! when (rt_prio oldprio) (set_task p (fun t => t <| rt ::= fun e => e <| timeout := 0 |> |>)) in
    do! set_task p (fun t => t <| sched_class := fair_sched_class |>) in
    ret flags.

Definition rt_mutex_setprio (p : task) (pi_task : option task) : K unit :=
  let! s := gets (fun s => s) in
  let pr := __rt_effective_prio s pi_task (normal_prio (tasks s p)) in
  let same := (pr =? prio (tasks s p)) && negb (dl_prio pr) in
  if bool_decide (pi_top_task (tasks s p) = pi_task) && same then ret tt else
  let c := task_cpu (tasks s p) in
  do! update_rq_clock c in
  do! set_task p (fun t => t <| pi_top_task := pi_task |>) in
  let! s := gets (fun s => s) in
  let t := tasks s p in
  if same then balance_callback_call c else
  if bool_decide (p = idle (rqs s c)) then balance_callback_call c else
  let oldprio := prio t in
  let flags := Z.lor (Z.lor DEQUEUE_SAVE DEQUEUE_MOVE) DEQUEUE_NOCLOCK in
  let flags := if oldprio =? pr then Z.land flags (Z.lnot DEQUEUE_MOVE) else flags in
  let prev_class := sched_class t in
  let queued := task_on_rq_queued t in
  let running := task_current (rqs s c) p in
  do! when queued (dequeue_task c p flags) in
  do! when running (put_prev_task c p) in
  let! flags := boost_class p pi_task pr oldprio flags in
  do! set_task p (fun t => t <| prio := pr |>) in
  do! when queued (enqueue_task c p flags) in
  do! when running (set_curr_task c p) in
  do! check_class_changed c p prev_class oldprio in
  balance_callback_call c.

(** ** Setting a policy *)

Definition find_process_by_pid (s : kstate) (pid : Z) : option task :=
  if negb (pid =? 0) then find_task_by_vpid pid else Some (current_task s).

Definition __setscheduler_params (p : task) (attr : sched_attr) : K unit :=
  let! t := get_task p in
  let pol := s32 (sched_policy attr) in
  let pol := if pol =? SETPARAM_POLICY then policy t else pol in
  do! set_task p (fun t => t <| policy := pol |>) in
  do! (if dl_policy pol then __setparam_dl p attr
       else when (fair_policy pol)
              (set_task p (fun t => t <| static_prio := NICE_TO_PRIO (sched_nice attr) |>))) in
  do! set_task p (fun t => t <| rt_priority := sched_priority attr |>) in
  do! set_task p (fun t => t <| normal_prio := normal_prio_of t |>) in
  set_load_weight p true.

(** The class for a priority and a policy. *)
Definition class_for (pr pol : Z) : sched_class_t :=
  if dl_prio pr then dl_sched_class
  else if rt_prio pr then rt_sched_class
  else if ts_policy pol then ts_sched_class
  else fair_sched_class.

Definition __setscheduler (c : cpu) (p : task) (attr : sched_attr) (keep_boost : bool) : K unit :=
  do! __setscheduler_params p attr in
  do! set_task p (fun t => t <| prio := normal_prio_of t |>) in
  do! when keep_boost
    (let! t := get_task p in
     let! pr := rt_effective_prio p (prio t) in
     set_task p (fun t => t <| prio := pr |>)) in
  set_task p (fun t => t <| sched_class := class_for (prio t) (policy t) |>).

Definition check_same_owner (s : kstate) (p : task) : bool :=
  let me := tasks s (current_task s) in
  (euid me =? euid (tasks s p)) || (euid me =? uid (tasks s p)).

(** The flags and the priority are valid for the policy. *)
Definition valid_attr (t : task_struct) (attr : sched_attr) (pol : Z) : bool :=
  negb (has (sched_flags attr) (Z.lnot (Z.lor SCHED_FLAG_ALL SCHED_FLAG_SUGOV)))
  && negb ((mm t && (MAX_USER_RT_PRIO - 1 <? sched_priority attr))
           || (negb (mm t) && (MAX_RT_PRIO - 1 <? sched_priority attr)))
  && negb ((dl_policy pol && negb (__checkparam_dl attr))
           || negb (Bool.eqb (rt_policy pol) (negb (sched_priority attr =? 0)))).

(** What a caller without [CAP_SYS_NICE] may not do. *)
Definition not_permitted (s : kstate) (p : task) (attr : sched_attr) (pol reset_on_fork : Z) : bool :=
  let t := tasks s p in
  (fair_policy pol && (sched_nice attr <? task_nice t) && negb (can_nice p (sched_nice attr)))
  || (rt_policy pol &&
      ((negb (pol =? policy t) && (rlimit_rtprio p =? 0))
       || ((rt_priority t <? sched_priority attr) && (rlimit_rtprio p <? sched_priority attr))))
  || dl_policy pol
  || (idle_policy (policy t) && negb (idle_policy pol) && negb (can_nice p (task_nice t)))
  || negb (check_same_owner s p)
  || (negb (sched_reset_on_fork t =? 0) && (reset_on_fork =? 0)).

(** The parameters of the policy that the task has already differ. *)
Definition params_differ (t : task_struct) (attr : sched_attr) (pol : Z) : bool :=
  (fair_policy pol && negb (sched_nice attr =? task_nice t))
  || (rt_policy pol && negb (sched_priority attr =? rt_priority t))
  || (dl_policy pol && dl_param_changed t attr).

(** The deadline class needs all the CPUs of the root domain and bandwidth. *)
Definition dl_not_permitted (s : kstate) (p : task) (attr : sched_attr) (pol : Z) : bool :=
  dl_bandwidth_enabled s && dl_policy pol && negb (has (sched_flags attr) SCHED_FLAG_SUGOV)
  && (negb (forallb (fun i => cpumask_test_cpu i (cpus_allowed (tasks s p))) (span (rd s)))
      || (rd_dl_bw (rd s) =? 0)).

(** Take the task off the queues, give it the new parameters and put it back. *)
Definition requeue_changed (c : cpu) (p : task) (attr : sched_attr) (pi : bool) (flags : Z) : K unit :=
  let! t := get_task p in
  let! r := get_rq c in
  let oldprio := prio t in
  let queued := task_on_rq_queued t in
  let running := task_current r p in
  do! when queued (dequeue_task c p flags) in
  do! when running (put_prev_task c p) in
  do! __setscheduler c p attr pi in
  do! when queued
    (let! t := get_task p in
     enqueue_task c p (if oldprio <? prio t then Z.lor flags ENQUEUE_HEAD else flags)) in
  when running (set_curr_task c p).

(** From the moment that the change is certain. *)
Definition change_scheduler (c : cpu) (p : task) (attr : sched_attr) (pi : bool) : K unit :=
  let! t := get_task p in
  let newprio := if dl_policy (s32 (sched_policy attr)) then MAX_DL_PRIO - 1
                 else s32 (MAX_RT_PRIO - 1 - sched_priority attr) in
  let flags := Z.lor (Z.lor DEQUEUE_SAVE DEQUEUE_MOVE) DEQUEUE_NOCLOCK in
  let! new_effective_prio := rt_effective_prio p newprio in
  let flags := if pi && (new_effective_prio =? prio t) then Z.land flags (Z.lnot DEQUEUE_MOVE) else flags in
  do! requeue_changed c p attr pi flags in
  do! check_class_changed c p (sched_class t) (prio t) in
  do! when pi (rt_mutex_adjust_pi p) in
  balance_callback_call c.

(** From the label [recheck] on; [fuel] bounds how often the policy changes
    before the locks are held. *)
Fixpoint setsched_recheck (fuel : nat) (p : task) (attr : sched_attr) (user pi : bool)
    (pol oldpolicy : Z) : K Z :=
  match fuel with
  | O => crash OutOfFuel
  | S fuel =>
      let! t := get_task p in
      let keep := pol <? 0 in
      if negb keep && negb (valid_policy pol) then ret (- EINVAL) else
      let reset_on_fork := if keep then sched_reset_on_fork t
                           else b2z (has (sched_flags attr) SCHED_FLAG_RESET_ON_FORK) in
      let oldpolicy := if keep then policy t else oldpolicy in
      let pol := if keep then policy t else pol in
      if negb (valid_attr t attr pol) then ret (- EINVAL) else
      let! s := gets (fun s => s) in
      if user && negb capable_nice && not_permitted s p attr pol reset_on_fork then ret (- EPERM) else
      if user && has (sched_flags attr) SCHED_FLAG_SUGOV then ret (- EINVAL) else
      if user && negb (security_task_setscheduler p =? 0) then ret (security_task_setscheduler p) else
      let c := task_cpu t in
      do! update_rq_clock c in
      let! s := gets (fun s => s) in
      let t := tasks s p in
      if bool_decide (stop (rqs s c) = Some p) then ret (- EINVAL) else
      if (pol =? policy t) && negb (params_differ t attr pol) then
        do! set_task p (fun t => t <| sched_reset_on_fork := reset_on_fork |>) in
        ret 0
      else if user && dl_not_permitted s p attr pol then ret (- EPERM)
      else if negb (oldpolicy =? -1) && negb (oldpolicy =? policy t) then
        setsched_recheck fuel p attr user pi (-1) (-1)
      else
        let! busy := (if dl_policy pol || dl_task t then sched_dl_overflow p pol attr else ret 0) in
        if negb (busy =? 0) then ret (- EBUSY) else
        do! set_task p (fun t => t <| sched_reset_on_fork := reset_on_fork |>) in
        do! change_scheduler c p attr pi in
        ret 0
  end.

Definition __sched_setscheduler (p : task) (attr : sched_attr) (user pi : bool) : K Z :=
  do! bug_on (pi && in_interrupt) in
  setsched_recheck 2 p attr user pi (s32 (sched_policy attr)) (-1).

(** [attr] of [_sched_setscheduler]. *)
Definition legacy_attr (t : task_struct) (pol pr : Z) : sched_attr :=
  if negb (pol =? SETPARAM_POLICY) && has pol SCHED_RESET_ON_FORK then
    mk_sched_attr 0 (u32 (Z.land pol (Z.lnot SCHED_RESET_ON_FORK))) SCHED_FLAG_RESET_ON_FORK
      (PRIO_TO_NICE (static_prio t)) (u32 pr) 0 0 0
  else mk_sched_attr 0 (u32 pol) 0 (PRIO_TO_NICE (static_prio t)) (u32 pr) 0 0 0.

Definition _sched_setscheduler (p : task) (pol pr : Z) (check : bool) : K Z :=
  let! t := get_task p in
  __sched_setscheduler p (legacy_attr t pol pr) check true.

Definition sched_setscheduler (p : task) (pol pr : Z) : K Z := _sched_setscheduler p pol pr true.
Definition sched_setscheduler_nocheck (p : task) (pol pr : Z) : K Z := _sched_setscheduler p pol pr false.
Definition sched_setattr (p : task) (attr : sched_attr) : K Z := __sched_setscheduler p attr true true.
Definition sched_setattr_nocheck (p : task) (attr : sched_attr) : K Z :=
  __sched_setscheduler p attr false true.

(** ** System calls

    [param] is the address of the caller's priority: [None] is a null
    pointer, [Some None] one that cannot be read. *)
Definition do_sched_setscheduler (pid pol : Z) (param : option (option Z)) : K Z :=
  match param with
  | None => ret (- EINVAL)
  | Some lparam =>
      if pid <? 0 then ret (- EINVAL) else
      match lparam with
      | None => ret (- EFAULT)
      | Some pr =>
          let! s := gets (fun s => s) in
          match find_process_by_pid s pid with
          | Some p => sched_setscheduler p pol pr
          | None => ret (- ESRCH)
          end
      end
  end.

Definition sys_sched_setscheduler (pid pol : Z) (param : option (option Z)) : K Z :=
  if pol <? 0 then ret (- EINVAL) else do_sched_setscheduler pid pol param.
Definition sys_sched_setparam (pid : Z) (param : option (option Z)) : K Z :=
  do_sched_setscheduler pid SETPARAM_POLICY param.

(** The memory at [uattr]: whether its first 48 bytes may be accessed, the
    size field if it can be read, the bytes behind the structure that the
    kernel knows ([None] ends them at a byte that cannot be read), and the
    structure if it can be copied. *)
Record user_attr : Type := mk_user_attr {
  ua_access : bool;
  ua_size : option Z;
  ua_rest : list (option Z);
  ua_attr : option sched_attr
}.

(** The loop over the [n] bytes behind the known structure: [None] when all
    are zero. *)
Fixpoint rest_bytes (n : nat) (l : list (option Z)) : option Z :=
  match n, l with
  | O, _ => None
  | S n, Some v :: l => if negb (v =? 0) then Some (- E2BIG) else rest_bytes n l
  | S _, _ => Some (- EFAULT)
  end.

(** The error, or the attributes; the size that an [-E2BIG] stores at the
    address is not modelled. *)
Definition sched_copy_attr (uattr : user_attr) : Z + sched_attr :=
  if negb (ua_access uattr) then inl (- EFAULT) else
  match ua_size uattr with
  | None => inl (- EFAULT)
  | Some size =>
      if USER_PAGE_SIZE <? size then inl (- E2BIG) else
      let size := if size =? 0 then SCHED_ATTR_SIZE_VER0 else size in
      if size <? SCHED_ATTR_SIZE_VER0 then inl (- E2BIG) else
      match rest_bytes (Z.to_nat (size - sizeof_sched_attr)) (ua_rest uattr) with
      | Some err => inl err
      | None =>
          match ua_attr uattr with
          | None => inl (- EFAULT)
          | Some attr => inr (attr <| sched_nice ::= fun n => clamp n MIN_NICE MAX_NICE |>)
          end
      end
  end.

Definition sys_sched_setattr (pid : Z) (uattr : option user_attr) (flags : Z) : K Z :=
  match uattr with
  | None => ret (- EINVAL)
  | Some uattr =>
      if (pid <? 0) || negb (flags =? 0) then ret (- EINVAL) else
      match sched_copy_attr uattr with
      | inl err => ret err
      | inr attr =>
          if s32 (sched_policy attr) <? 0 then ret (- EINVAL) else
          let! s := gets (fun s => s) in
          match find_process_by_pid s pid with
          | Some p => sched_setattr p attr
          | None => ret (- ESRCH)
          end
      end
  end.

(** ** Reading the policy *)

Definition sys_sched_getscheduler (pid : Z) : K Z :=
  if pid <? 0 then ret (- EINVAL) else
  let! s := gets (fun s => s) in
  match find_process_by_pid s pid with
  | None => ret (- ESRCH)
  | Some p =>
      let retval := security_task_getscheduler p in
      if negb (retval =? 0) then ret retval else
      let t := tasks s p in
      ret (Z.lor (policy t) (if negb (sched_reset_on_fork t =? 0) then SCHED_RESET_ON_FORK else 0))
  end.

(** [param] is whether the address is not null, and whether it can be
    written; the result is the priority that is stored there. *)
Definition sys_sched_getparam (pid : Z) (param writable : bool) : K (Z * option Z) :=
  if negb param || (pid <? 0) then ret (- EINVAL, None) else
  let! s := gets (fun s => s) in
  match find_process_by_pid s pid with
  | None => ret (- ESRCH, None)
  | Some p =>
      let retval := security_task_getscheduler p in
      if negb (retval =? 0) then ret (retval, None) else
      let t := tasks s p in
      let lp := if task_has_rt_policy t then rt_priority t else 0 in
      ret (if writable then (0, Some lp) else (- EFAULT, None))
  end.

(** The bytes of the structure, in the order of the memory. *)
Definition le_bytes (n : nat) (z : Z) : list Z :=
  map (fun i => (z / 2 ^ (8 * Z.of_nat i)) mod 256) (seq 0 n).
Definition attr_bytes (a : sched_attr) : list Z :=
  le_bytes 4 (attr_size a) ++ le_bytes 4 (sched_policy a) ++ le_bytes 8 (sched_flags a)
  ++ le_bytes 4 (sched_nice a) ++ le_bytes 4 (sched_priority a)
  ++ le_bytes 8 (sched_runtime a) ++ le_bytes 8 (sched_deadline a) ++ le_bytes 8 (sched_period a).

(** What is stored at the address when the call succeeds: the first [size]
    bytes of the structure, whose field [size] tells. *)
Definition sched_read_attr (access writable : bool) (attr : sched_attr) (usize : Z) : Z * option sched_attr :=
  if negb access then (- EFAULT, None) else
  if (usize <? sizeof_sched_attr) && existsb (fun b => negb (b =? 0)) (drop (Z.to_nat usize) (attr_bytes attr))
  then (- EFBIG, None) else
  let attr := if usize <? sizeof_sched_attr then attr <| attr_size := usize |> else attr in
  if negb writable then (- EFAULT, None) else (0, Some attr).

Definition sys_sched_getattr (pid : Z) (uattr access writable : bool) (size flags : Z) :
    K (Z * option sched_attr) :=
  if negb uattr || (pid <? 0) || (USER_PAGE_SIZE <? size) || (size <? SCHED_ATTR_SIZE_VER0)
     || negb (flags =? 0)
  then ret (- EINVAL, None) else
  let! s := gets (fun s => s) in
  match find_process_by_pid s pid with
  | None => ret (- ESRCH, None)
  | Some p =>
      let retval := security_task_getscheduler p in
      if negb (retval =? 0) then ret (retval, None) else
      let t := tasks s p in
      let attr := mk_sched_attr sizeof_sched_attr (u32 (policy t))
        (if negb (sched_reset_on_fork t =? 0) then SCHED_FLAG_RESET_ON_FORK else 0) 0 0 0 0 0 in
      let attr :=
        if task_has_dl_policy t then __getparam_dl t attr
        else if task_has_rt_policy t then attr <| sched_priority := rt_priority t |>
        else attr <| sched_nice := task_nice t |> in
      ret (sched_read_attr access writable attr size)
  end.

Definition sys_sched_get_priority_max (pol : Z) : Z :=
  if (pol =? SCHED_FIFO) || (pol =? SCHED_RR) then MAX_USER_RT_PRIO - 1
  else if (pol =? SCHED_DEADLINE) || (pol =? SCHED_NORMAL) || (pol =? SCHED_BATCH) || (pol =? SCHED_IDLE)
  then 0 else - EINVAL.

Definition sys_sched_get_priority_min (pol : Z) : Z :=
  if (pol =? SCHED_FIFO) || (pol =? SCHED_RR) then 1
  else if (pol =? SCHED_DEADLINE) || (pol =? SCHED_NORMAL) || (pol =? SCHED_BATCH) || (pol =? SCHED_IDLE)
  then 0 else - EINVAL.

(** The slice in ticks, [jiffies_to_timespec64] aside. *)
Definition sched_rr_get_interval (pid : Z) : K (Z * Z) :=
  if pid <? 0 then ret (- EINVAL, 0) else
  let! s := gets (fun s => s) in
  match find_process_by_pid s pid with
  | None => ret (- ESRCH, 0)
  | Some p =>
      let retval := security_task_getscheduler p in
      if negb (retval =? 0) then ret (retval, 0) else
      let! k := task_class p in
      let! time_slice :=
        (match m_get_rr_interval k with
         | Some m => m (task_cpu (tasks s p)) p
         | None => ret 0
         end) in
      ret (0, u32 time_slice)
  end.
End SetSched.
