(* ===== verification/SetProps.v ===== *)
(** * Changing how a task is scheduled: what is guaranteed

    Theorems on [SetSched.v]: a refused call changes nothing, an accepted one
    leaves a task whose policy, priority and class agree; and where this fails
    for the TS class. *)

From S2P Require Import Prelude Sched Ts RtBandwidth Rt RtProps SchedClass ClassProps SetSched.

(** ** Refused calls *)

(** Nothing but the clock of a run queue differs. *)
Definition clock_only (s s' : kstate) : Prop :=
  exists g, s' = s <| rqs := g |> /\
    forall i, exists a b, g i = rqs s i <| clock := a |> <| clock_task := b |>.

Section Frames.
Implicit Types (c i : cpu) (p : task) (s : kstate).

Lemma clock_only_refl s : clock_only s s.
Proof.
  exists (rqs s). split; [by destruct s|]. intros i. exists (clock (rqs s i)), (clock_task (rqs s i)).
  by destruct (rqs s i).
Qed.

Lemma update_rq_clock_only c s : wp (update_rq_clock c) (fun _ => clock_only s) s.
Proof.
  unfold update_rq_clock, update_rq_clock_task, get_rq, set_rq. wgo.
  destruct (has _ _); [apply clock_only_refl|]. wgo. cbv zeta.
  destruct (_ <? 0); [apply clock_only_refl|]. wgo. eexists. split; [by destruct s|].
  intros i. simpl. destruct (decide (c = i)) as [->|Hi].
  - rewrite !fn_lookup_alter. by eexists _, _.
  - rewrite !fn_lookup_alter_ne by done. eexists (clock (rqs s i)), (clock_task (rqs s i)).
    by destruct (rqs s i).
Qed.

Lemma clock_only_trans s1 s2 s3 : clock_only s1 s2 -> clock_only s2 s3 -> clock_only s1 s3.
Proof.
  intros (g1 & -> & H1) (g2 & -> & H2). exists g2. split; [by destruct s1|].
  intros i. destruct (H2 i) as (a & b & ->). exists a, b. simpl. destruct (H1 i) as (a' & b' & ->).
  by destruct (rqs s1 i).
Qed.
End Frames.

Section Refused.
Context `{Hfeat : SchedFeat} `{Hlim : Rlimits} `{Hpri : Cpupri} `{Htop : Topology}.
Context `{Hoth : OtherClasses} `{Hcall : Caller} `{Hdl : Deadline}.
Implicit Types (p : task) (s : kstate).

(** The deadline class reserves no bandwidth when it refuses to. *)
Definition dl_refuses : Prop :=
  forall p pol attr s r s', sched_dl_overflow p pol attr s = Done (r, s') -> r <> 0 -> s' = s.

Lemma setsched_refused_run fuel p attr user pi : forall pol oldpolicy s r s',
  dl_refuses -> setsched_recheck fuel p attr user pi pol oldpolicy s = Done (r, s') -> r <> 0 ->
  clock_only s s'.
Proof.
  induction fuel as [|fuel IH]; intros pol oldpolicy s r s' Hdl' H Hr; [done|].
  cbn [setsched_recheck] in H. unfold get_task in H. rewrite bind_gets in H.
  repeat match type of H with
  | (if ?b then ret _ else _) _ = _ => destruct b; [by apply ret_inv in H as [-> ->]; apply clock_only_refl|]
  | (let! s := gets _ in _) _ = _ => rewrite bind_gets in H
  end.
  apply bind_inv in H as ([] & s1 & H1 & H).
  pose proof (wp_elim _ _ _ _ _ (update_rq_clock_only _ _) H1) as Hc. rewrite bind_gets in H.
  destruct (bool_decide _); [by apply ret_inv in H as [-> ->]|]. destruct (_ && _).
  { apply bind_inv in H as ([] & s2 & H2 & H). by apply ret_inv in H as [-> _]. }
  destruct (_ && _); [by apply ret_inv in H as [-> ->]|]. destruct (_ && _).
  { eapply clock_only_trans; [exact Hc|]. by eapply IH. }
  apply bind_inv in H as (busy & s2 & H2 & H). destruct (Z.eqb_spec busy 0) as [|Hb]; cbn [negb] in H.
  { apply bind_inv in H as ([] & s3 & _ & H). apply bind_inv in H as ([] & s4 & _ & H).
    by apply ret_inv in H as [-> _]. }
  apply ret_inv in H as [_ ->]. destruct (_ || _).
  - by rewrite (Hdl' _ _ _ _ _ _ H2 Hb).
  - by apply ret_inv in H2 as [-> _].
Qed.

(** C40: A call of [__sched_setscheduler] that returns an error has changed no
    task, no queue and no counter; only the clock of the task's run queue may
    have been read anew. *)
Theorem setscheduler_refused_atomic (p : task) (attr : sched_attr) (user pi : bool) (r : Z) (s s' : kstate) :
  dl_refuses -> __sched_setscheduler p attr user pi s = Done (r, s') -> r <> 0 -> clock_only s s'.
Proof.
  intros Hdl' H Hr. unfold __sched_setscheduler in H.
  apply bind_inv in H as ([] & s1 & H1 & H). unfold bug_on in H1.
  destruct (_ && _); [done|]. apply ret_inv in H1 as [_ ->]. by eapply setsched_refused_run.
Qed.
End Refused.

(** ** Policy, priority and class *)

(** Of the machine, only [p] differs, and the load weights of run queues. *)
Record task_only (p : task) (s s' : kstate) : Prop := {
  to_other : forall x, x <> p -> tasks s' x = tasks s x;
  to_rq : forall i, exists w, rqs s' i = rqs s i <| rq_load_weight := w |>;
  to_rest : s' = s <| tasks := tasks s' |> <| rqs := rqs s' |>
}.

#[global] Instance task_only_preorder p : PreOrder (task_only p).
Proof.
  split.
  - intros s. split; [done| |by destruct s]. intros i. exists (rq_load_weight (rqs s i)).
    by destruct (rqs s i).
  - intros s1 s2 s3 [A1 A2 A3] [B1 B2 B3]. split.
    + intros x Hx. by rewrite B1, A1.
    + intros i. destruct (B2 i) as [w ->], (A2 i) as [w' ->]. exists w. by destruct (rqs s1 i).
    + rewrite B3, A3. by destruct s1.
Qed.

(** The class that a priority and a policy ask for: a priority below 0 is a
    deadline, one below 100 is real-time, and above that the policy decides
    between the TS class and the fair class. *)
Record class_asked (pr pol : Z) (k : sched_class_t) : Prop := {
  ca_deadline : pr < 0 -> k = dl_sched_class;
  ca_realtime : 0 <= pr < 100 -> k = rt_sched_class;
  ca_timeshare : 100 <= pr -> pol = SCHED_TS -> k = ts_sched_class;
  ca_fair : 100 <= pr -> pol = SCHED_NORMAL \/ pol = SCHED_BATCH \/ pol = SCHED_IDLE -> k = fair_sched_class
}.

Lemma class_for_asked pr pol : class_asked pr pol (class_for pr pol).
Proof.
  unfold class_for, dl_prio, rt_prio, MAX_DL_PRIO, MAX_RT_PRIO.
  destruct (Z.ltb_spec pr 0), (Z.ltb_spec pr 100); split; intros; try done; try lia.
  - by subst.
  - destruct (ts_policy pol) eqn:E; [|done]. apply Z.eqb_eq in E. subst pol. by naive_solver.
Qed.

(** The parameters of a task fit together: real-time priorities are for the
    real-time policies, the normal priority is that of the policy, inheritance
    only raises it, and the class is the one that priority and policy ask for. *)
Record task_typed (t : task_struct) : Prop := {
  tt_policy : valid_policy (policy t) = true;
  tt_static : MAX_RT_PRIO <= static_prio t < MAX_PRIO;
  tt_rt : if rt_policy (policy t) then 1 <= rt_priority t < MAX_RT_PRIO else rt_priority t = 0;
  tt_normal : normal_prio t = normal_prio_of t;
  tt_prio : prio t <= normal_prio t;
  tt_class : class_asked (prio t) (policy t) (sched_class t)
}.

(** The policy that a call gives a task. *)
Definition new_policy (t : task_struct) (attr : sched_attr) : Z :=
  if s32 (sched_policy attr) =? SETPARAM_POLICY then policy t else s32 (sched_policy attr).

Definition new_static (t : task_struct) (attr : sched_attr) : Z :=
  if fair_policy (new_policy t attr) then NICE_TO_PRIO (sched_nice attr) else static_prio t.

Definition new_normal (t : task_struct) (attr : sched_attr) : Z :=
  if rt_policy (new_policy t attr) then MAX_RT_PRIO - 1 - sched_priority attr else new_static t attr.

Section Typed.
Context `{Hoth : OtherClasses} `{Hcall : Caller} `{Hdl : Deadline}.
Implicit Types (p : task) (s : kstate) (t : task_struct).

(** [reweight_task] of the fair class changes loads only. *)
Definition reweights : Prop :=
  forall p w s, wp (reweight_task p w) (fun _ s' => task_only p s s' /\
    exists e, tasks s' p = tasks s p <| se := e |>) s.

Lemma set_task_only p f s :
  wp (set_task p f) (fun _ s' => task_only p s s' /\ tasks s' p = f (tasks s p)) s.
Proof.
  eapply wp_intro; [reflexivity|]. simpl. split; [split|].
  - intros x Hx. simpl. by rewrite fn_lookup_alter_ne.
  - intros i. exists (rq_load_weight (rqs s i)). simpl. by destruct (rqs s i).
  - by destruct s.
  - by rewrite fn_lookup_alter.
Qed.

Lemma table_at_run l i s (Q : Z -> kstate -> Prop) :
  length l = 40%nat -> 0 <= i < 40 -> (forall w, Q w s) -> wp (table_at l i) Q s.
Proof.
  intros Hl Hi HQ. unfold table_at. destruct (Z.ltb_spec i 0); [lia|].
  destruct (lookup_lt_is_Some_2 l (Z.to_nat i)) as [w ->]; [lia|]. apply HQ.
Qed.

Lemma set_load_weight_run p b s :
  reweights -> MAX_RT_PRIO <= static_prio (tasks s p) < MAX_PRIO ->
  wp (set_load_weight p b) (fun _ s' => task_only p s s' /\
    exists e, tasks s' p = tasks s p <| se := e |>) s.
Proof.
  intros Hrw Hst. unfold MAX_RT_PRIO, MAX_PRIO in Hst. unfold set_load_weight, get_task. wgo. cbv zeta.
  assert (Htwo : forall f g, wp (do! set_task p (fun t => t <| se ::= f |>) in
      set_task p (fun t => t <| se ::= g |>)) (fun _ s' => task_only p s s' /\
      exists e, tasks s' p = tasks s p <| se := e |>) s).
  { intros f g. wstep. wcall set_task_only. intros [] s1 [H1 E1]. wcall set_task_only.
    intros [] s2 [H2 E2]. split; [by etransitivity|]. exists (se (tasks s2 p)).
    rewrite E2, E1. by destruct (tasks s p). }
  destruct (idle_policy _); [by apply Htwo|].
  destruct (b && _); [apply Hrw|]. wstep. apply table_at_run; [done|unfold MAX_RT_PRIO; lia|].
  intros w. wstep. wcall set_task_only. intros [] s1 [H1 E1]. wstep.
  apply table_at_run; [done|unfold MAX_RT_PRIO; lia|]. intros w'. wcall set_task_only.
  intros [] s2 [H2 E2]. split; [by etransitivity|]. exists (se (tasks s2 p)).
  rewrite E2, E1. by destruct (tasks s p).
Qed.

(** The priority is that of the policy, or that of the task which waits for a
    mutex that [p] holds. *)
Definition inherits p (attr : sched_attr) (pi : bool) s (pr : Z) : Prop :=
  exists t, pi_top_task t = pi_top_task (tasks s p) /\
    match rt_mutex_get_top_task t with
    | Some q => if pi && negb (q =? p) then pr = Z.min (new_normal (tasks s p) attr) (prio (tasks s q))
                else pr = new_normal (tasks s p) attr
    | None => pr = new_normal (tasks s p) attr
    end.

(** What [__setscheduler] does for a policy other than SCHED_DEADLINE. *)
Definition params_set p (attr : sched_attr) (pi : bool) s s' : Prop :=
  task_only p s s' /\
  exists e pr, tasks s' p = tasks s p <| policy := new_policy (tasks s p) attr |>
      <| static_prio := new_static (tasks s p) attr |> <| rt_priority := sched_priority attr |>
      <| normal_prio := new_normal (tasks s p) attr |> <| se := e |> <| prio := pr |>
      <| sched_class := class_for pr (new_policy (tasks s p) attr) |> /\
    pr <= new_normal (tasks s p) attr /\
    (pi = false \/ (forall t, rt_mutex_get_top_task t = None) -> pr = new_normal (tasks s p) attr) /\
    inherits p attr pi s pr.

Lemma setscheduler_run c p attr pi s :
  reweights -> dl_policy (new_policy (tasks s p) attr) = false ->
  MAX_RT_PRIO <= new_static (tasks s p) attr < MAX_PRIO ->
  wp (__setscheduler c p attr pi) (fun _ => params_set p attr pi s) s.
Proof.
  intros Hrw Hnd Hst. unfold __setscheduler, __setscheduler_params, get_task. wgo. cbv zeta.
  fold (new_policy (tasks s p) attr). rewrite Hnd. set (pol := new_policy (tasks s p) attr) in *.
  wcall set_task_only. intros [] s1 [H1 E1]. wstep.
  enough (wp (when (fair_policy pol) (set_task p (fun t => t <| static_prio := NICE_TO_PRIO (sched_nice attr) |>)))
    (fun _ s2 => task_only p s1 s2 /\ tasks s2 p = tasks s1 p <| static_prio := new_static (tasks s p) attr |>) s1) as Hs.
  { wcall Hs. intros [] s2 [H2 E2]. wstep. wcall set_task_only. intros [] s3 [H3 E3]. wstep.
    wcall set_task_only. intros [] s4 [H4 E4].
    assert (normal_prio (tasks s4 p) = new_normal (tasks s p) attr) as Hn.
    { rewrite E4, E3, E2, E1. unfold new_normal, normal_prio_of, task_has_dl_policy, task_has_rt_policy. simpl.
      fold pol. by rewrite Hnd. }
    wcall set_load_weight_run; [done| |].
    { rewrite E4, E3, E2. simpl. exact Hst. }
    intros [] s5 [H5 [e E5]]. wstep. wcall set_task_only. intros [] s6 [H6 E6].
    assert (prio (tasks s6 p) = new_normal (tasks s p) attr) as Hp.
    { rewrite E6, E5, <- Hn, E4. simpl. by destruct (tasks s3 p). }
    wstep.
    assert (task_only p s s6) as H06 by (do 5 (etransitivity; [eassumption|]); done).
    enough (wp (when pi (let! t := gets (fun s => tasks s p) in let! pr := rt_effective_prio p (prio t) in
        set_task p (fun t => t <| prio := pr |>))) (fun _ s7 => task_only p s6 s7 /\
        exists pr, tasks s7 p = tasks s6 p <| prio := pr |> /\ pr <= new_normal (tasks s p) attr /\
        (pi = false \/ (forall t, rt_mutex_get_top_task t = None) -> pr = new_normal (tasks s p) attr) /\
        inherits p attr pi s pr) s6) as Hb.
    { wcall Hb. intros [] s7 (H7 & pr & E7 & Hle & Heq & Hi). wcall set_task_only. intros [] s8 [H8 E8].
      split; [by do 2 (etransitivity; [eassumption|])|]. exists e, pr. split; [|done].
      rewrite E8, E7, E6, E5, E4, E3, E2, E1. unfold new_normal, normal_prio_of, task_has_dl_policy, task_has_rt_policy.
      simpl. fold pol. rewrite Hnd. by destruct (tasks s p). }
    assert (Htop : pi_top_task (tasks s6 p) = pi_top_task (tasks s p)) by by rewrite E6, E5, E4, E3, E2, E1.
    destruct pi; cbn [when].
    - unfold rt_effective_prio. wgo. rewrite Hp. wcall set_task_only. intros [] s7 [H7 E7]. split; [done|].
      eexists. split; [exact E7|]. unfold __rt_effective_prio. destruct (rt_mutex_get_top_task _) as [q|] eqn:Eq.
      + split; [lia|]. split; [intros [?|Hno]; [done|by rewrite Hno in Eq]|].
        exists (tasks s6 p). split; [done|]. rewrite Eq. destruct (Z.eqb_spec q p) as [->|Hq]; cbn [andb negb].
        * rewrite Hp. lia.
        * by rewrite (to_other _ _ _ H06).
      + split; [done|]. split; [done|]. exists (tasks s6 p). by rewrite Eq.
    - split; [reflexivity|]. exists (new_normal (tasks s p) attr).
      split; [rewrite <- Hp; by destruct (tasks s6 p)|]. split; [done|]. split; [done|]. exists (tasks s6 p). split; [done|].
      by destruct (rt_mutex_get_top_task _). }
  unfold new_static. fold pol. destruct (fair_policy pol); cbn [when]; [apply set_task_only|].
  split; [reflexivity|]. rewrite E1. simpl. by destruct (tasks s p).
Qed.

Lemma class_of_rt_policy pol : rt_policy pol = true -> fair_policy pol = false /\ ts_policy pol = false.
Proof.
  unfold rt_policy, fair_policy, ts_policy, SCHED_FIFO, SCHED_RR, SCHED_NORMAL, SCHED_BATCH, SCHED_TS.
  destruct (Z.eqb_spec pol 1), (Z.eqb_spec pol 2), (Z.eqb_spec pol 0), (Z.eqb_spec pol 3), (Z.eqb_spec pol 10);
    try done; lia.
Qed.

Lemma valid_attr_rt t attr pol :
  valid_attr t attr pol = true -> 0 <= sched_priority attr ->
  if rt_policy pol then 1 <= sched_priority attr < MAX_RT_PRIO else sched_priority attr = 0.
Proof.
  unfold valid_attr, MAX_USER_RT_PRIO, MAX_RT_PRIO. intros H H0.
  destruct (mm t), (Z.ltb_spec (100 - 1) (sched_priority attr)), (Z.eqb_spec (sched_priority attr) 0),
    (rt_policy pol), (dl_policy pol && negb (__checkparam_dl attr)), (negb (has _ _));
    cbn in H; try done; lia.
Qed.

Lemma new_static_range t attr :
  MAX_RT_PRIO <= static_prio t < MAX_PRIO -> MIN_NICE <= sched_nice attr <= MAX_NICE ->
  MAX_RT_PRIO <= new_static t attr < MAX_PRIO.
Proof.
  unfold new_static, NICE_TO_PRIO, MAX_RT_PRIO, MAX_PRIO, DEFAULT_PRIO, MIN_NICE, MAX_NICE.
  destruct (fair_policy _); lia.
Qed.

Lemma params_set_typed p attr pi s s' :
  task_typed (tasks s p) -> 0 <= sched_priority attr -> MIN_NICE <= sched_nice attr <= MAX_NICE ->
  valid_policy (new_policy (tasks s p) attr) = true ->
  dl_policy (new_policy (tasks s p) attr) = false ->
  valid_attr (tasks s p) attr (new_policy (tasks s p) attr) = true ->
  params_set p attr pi s s' -> task_typed (tasks s' p).
Proof.
  intros [Ht1 Ht2 Ht3 Ht4 Ht5 Ht6] H0 Hn Hv Hnd Ha (_ & e & pr & -> & Hle & _).
  pose proof (valid_attr_rt _ _ _ Ha H0) as Hrt. split; simpl; try done.
  - by apply new_static_range.
  - unfold normal_prio_of, task_has_dl_policy, task_has_rt_policy. simpl. rewrite Hnd.
    unfold new_normal. destruct (rt_policy _); done.
  - apply class_for_asked.
Qed.

(** C39: The parameters that [__setscheduler] gives a task fit together, for
    every policy but SCHED_DEADLINE and every request that the checks before
    let through: the real-time priority is 1..99 for the real-time policies
    and 0 for the others, the normal priority is that of the policy, an
    inherited priority only raises it, and the class is the one that the
    resulting priority and policy ask for.  No other task changes. *)
Theorem setscheduler_typed (c : cpu) (p : task) (attr : sched_attr) (pi : bool) (s : kstate) :
  reweights -> task_typed (tasks s p) ->
  0 <= sched_priority attr -> MIN_NICE <= sched_nice attr <= MAX_NICE ->
  valid_policy (new_policy (tasks s p) attr) = true ->
  dl_policy (new_policy (tasks s p) attr) = false ->
  valid_attr (tasks s p) attr (new_policy (tasks s p) attr) = true ->
  exists s', __setscheduler c p attr pi s = Done (tt, s') /\ task_typed (tasks s' p) /\
    policy (tasks s' p) = new_policy (tasks s p) attr /\
    rt_priority (tasks s' p) = sched_priority attr /\
    (pi = false -> prio (tasks s' p) = normal_prio (tasks s' p)) /\
    forall x, x <> p -> tasks s' x = tasks s x.
Proof.
  intros Hrw Ht H0 Hn Hv Hnd Ha.
  pose proof (setscheduler_run c p attr pi s Hrw Hnd (new_static_range _ _ (tt_static _ Ht) Hn)) as H.
  apply wp_done in H as ([] & s' & He & Hp). exists s'. split; [exact He|].
  split; [by eapply params_set_typed|]. destruct Hp as (Hto & e & pr & -> & Hle & Heq & _).
  split_and!; [done|done| |by apply (to_other _ _ _ Hto)]. intros ->. simpl. apply Heq. by left.
Qed.

(** ** Where the TS class is left out *)

(** The end of a boost puts a task of the TS class into the fair class: the
    last branch of [rt_mutex_setprio] does not look at the policy. *)
Lemma deboosted_ts_is_fair p pi_task pr oldprio fl s :
  policy (tasks s p) = SCHED_TS -> MAX_RT_PRIO <= pr ->
  wp (boost_class p pi_task pr oldprio fl) (fun _ s' =>
    sched_class (tasks s' p) = fair_sched_class /\ policy (tasks s' p) = SCHED_TS /\
    ~ task_typed (tasks s' p <| prio := pr |>)) s.
Proof.
  intros Hp Hpr. unfold MAX_RT_PRIO in Hpr. unfold boost_class. wgo. cbv zeta.
  assert (dl_prio pr = false) as -> by (apply Z.ltb_ge; unfold MAX_DL_PRIO; lia).
  assert (rt_prio pr = false) as -> by (apply Z.ltb_ge; unfold MAX_RT_PRIO; lia).
  assert (Hk : forall (b : bool) f s, (forall t, policy (f t) = policy t) ->
    wp (when b (set_task p f)) (fun _ s' => policy (tasks s' p) = policy (tasks s p)) s).
  { intros b f s0 Hf. destruct b; [|done]. eapply wp_intro; [reflexivity|]. simpl.
    by rewrite fn_lookup_alter. }
  wstep. wcall Hk; [done|]. intros [] s1 H1. wstep. wcall Hk; [done|]. intros [] s2 H2.
  unfold set_task. wgo. simpl. rewrite fn_lookup_alter. simpl.
  assert (policy (tasks s2 p) = SCHED_TS) as E by congruence. split_and!; [done|done|].
  intros [_ _ _ _ _ Hc]. simpl in Hc. by pose proof (ca_timeshare _ _ _ Hc Hpr E).
Qed.

(** The system calls know no priority range for SCHED_TS, which
    [sched_setscheduler] accepts. *)
Lemma ts_has_no_priority_range :
  valid_policy SCHED_TS = true /\ sys_sched_get_priority_max SCHED_TS = - EINVAL /\
  sys_sched_get_priority_min SCHED_TS = - EINVAL.
Proof. done. Qed.

(** A nice value asked for together with SCHED_TS is dropped. *)
Lemma ts_nice_ignored t attr : ts_policy (new_policy t attr) = true -> new_static t attr = static_prio t.
Proof.
  intros H%Z.eqb_eq. unfold new_static. by rewrite H.
Qed.
End Typed.

(** ** Concrete instances *)

Module Example.
Import Machine ClassProps.Example.

#[local] Existing Instances others0 features limits topology cpupri1.
(** A caller without capabilities, and no deadline tasks. *)
#[local] Instance nobody : Caller :=
  {| capable_nice := false; rlimit_nice := fun _ => 0; rlimit_rtprio := fun _ => 0;
     security_task_setscheduler := fun _ => 0; security_task_getscheduler := fun _ => 0;
     security_task_setnice := fun _ _ => 0; find_task_by_vpid := fun pid => Some pid;
     in_interrupt := false |}.
#[local] Instance no_deadline : Deadline :=
  {| __setparam_dl := fun _ _ => ret tt; __getparam_dl := fun _ a => a;
     __checkparam_dl := fun _ => false; dl_param_changed := fun _ _ => false;
     sched_dl_overflow := fun _ _ _ => ret 0; dl_time_before := fun a b => a <? b;
     rt_mutex_get_top_task := pi_top_task; rt_mutex_adjust_pi := fun _ => ret tt |}.

Definition fifo_50 : sched_attr := mk_sched_attr 48 SCHED_FIFO 0 0 50 0 0 0.

Lemma after_value (m : K Z) (r : Z) s :
  match m s with Done (r', _) => r' =? r | Crash _ => false end = true -> m s = Done (r, after m s).
Proof. unfold after. destruct (m s) as [[r' s']|]; [|done]. by intros ->%Z.eqb_eq. Qed.

(** Real-time priority 50 needs the capability. *)
Lemma setscheduler_refused_atomic_witness :
  exists s', __sched_setscheduler 7 fifo_50 true true machine0 = Done (- EPERM, s') /\ clock_only machine0 s'.
Proof.
  exists (after (__sched_setscheduler 7 fifo_50 true true) machine0).
  assert (__sched_setscheduler 7 fifo_50 true true machine0
    = Done (- EPERM, after (__sched_setscheduler 7 fifo_50 true true) machine0)) as E
    by (apply after_value; by vm_compute).
  split; [exact E|]. apply (setscheduler_refused_atomic 7 fifo_50 true true (- EPERM) machine0); [|exact E|done].
  intros p pol attr s r s' H Hr. by apply ret_inv in H as [-> _].
Defined.

Lemma setscheduler_typed_witness :
  exists s', __setscheduler 0 7 fifo_50 true machine0 = Done (tt, s') /\ task_typed (tasks s' 7) /\
    policy (tasks s' 7) = SCHED_FIFO.
Proof.
  destruct (setscheduler_typed 0 7 fifo_50 true machine0) as (s' & He & Ht & Hp & _).
  2: { assert (sched_class (tasks machine0 7) = class_for (prio (tasks machine0 7)) (policy (tasks machine0 7))) as E
         by by vm_compute.
       split; [by vm_compute..|rewrite E; apply class_for_asked]. }
  all: try by vm_compute.
  - intros p w s. split; [reflexivity|]. exists (se (tasks s p)). by destruct (tasks s p).
  - by exists s'.
Defined.
End Example.
