(* ===== verification/Wake.v ===== *)
(** * Waking tasks up ([kernel/sched/core.c])

    Where a task may run, choosing a CPU for it, waking a task that sleeps,
    and the set-up of a new one. *)

From S2P Require Import Prelude Sched Ts RtBandwidth Rt SchedClass SetSched.

(** ** Parameters

    What the core calls in other files: the workers of [kernel/workqueue.c],
    the caches and nodes that the CPUs share, cpusets ([None] without
    [CONFIG_CPUSETS]), [deadline.c] and softirqs. *)
Class CoreEnv : Type := {
  wq_worker_waking_up : task -> cpu -> K unit;
  wq_worker_sleeping : task -> K (option task);
  sd_llc_id : cpu -> Z;
  cpu_to_node : cpu -> Z;
  cpumask_of_node : Z -> list cpu;
  cpuset_cpus_allowed_fallback : option (task -> K unit);
  __dl_clear_params : task -> K unit;
  raise_sched_softirq : K unit
}.

Definition nr_cpu_ids : Z := 8192.
Definition cpumask_any (m : list cpu) : cpu := match m with c :: _ => c | [] => nr_cpu_ids end.

Section Wake.
Context `{Hfeat : SchedFeat} `{Hlim : Rlimits} `{Hpri : Cpupri} `{Htop : Topology}.
Context `{Hoth : OtherClasses} `{Henv : CoreEnv}.

(** ** Where a task may run *)

Definition is_per_cpu_kthread (t : task_struct) : bool :=
  has (flags t) PF_KTHREAD && (nr_cpus_allowed t =? 1).

Definition is_cpu_allowed (s : kstate) (p : task) (c : cpu) : bool :=
  let t := tasks s p in
  cpumask_test_cpu c (cpus_allowed t)
  && cpumask_test_cpu c (if is_per_cpu_kthread t then online_cpus s else active_cpus s).

Definition do_set_cpus_allowed (p : task) (new_mask : list cpu) : K unit :=
  let! s := gets (fun s => s) in
  let c := task_cpu (tasks s p) in
  let queued := task_on_rq_queued (tasks s p) in
  let running := task_current (rqs s c) p in
  do! when queued (dequeue_task c p (Z.lor DEQUEUE_SAVE DEQUEUE_NOCLOCK)) in
  do! when running (put_prev_task c p) in
  let! k := task_class p in
  do! m_set_cpus_allowed k p new_mask in
  do! when queued (enqueue_task c p (Z.lor ENQUEUE_RESTORE ENQUEUE_NOCLOCK)) in
  when running (set_curr_task c p).

(** The loop [for (;;)]: [l] are the widenings of the mask that are left. *)
Fixpoint fallback_loop (p : task) (l : list (K unit)) : K cpu :=
  let! s := gets (fun s => s) in
  match filter (fun c => is_cpu_allowed s p c = true) (cpus_allowed (tasks s p)) with
  | c :: _ => ret c
  | [] =>
      match l with
      | [] => crash Bug
      | widen :: l => do! widen in fallback_loop p l
      end
  end.

Definition select_fallback_rq (c : cpu) (p : task) : K cpu :=
  let! s := gets (fun s => s) in
  let nid := cpu_to_node c in
  let node := if negb (nid =? -1) then
      filter (fun i => cpumask_test_cpu i (active_cpus s) = true /\
                       cpumask_test_cpu i (cpus_allowed (tasks s p)) = true) (cpumask_of_node nid)
    else [] in
  match node with
  | i :: _ => ret i
  | [] =>
      let possible := let! all := gets possible_cpus in do_set_cpus_allowed p all in
      fallback_loop p
        (match cpuset_cpus_allowed_fallback with Some m => [m p; possible] | None => [possible] end)
  end.

Definition select_task_rq (p : task) (c : cpu) (sd_flags wake_flags : Z) : K cpu :=
  let! t := get_task p in
  let! c := (if 1 <? nr_cpus_allowed t
             then let! k := task_class p in m_select_task_rq k p c sd_flags wake_flags
             else ret (cpumask_any (cpus_allowed t))) in
  let! s := gets (fun s => s) in
  if negb (is_cpu_allowed s p c) then select_fallback_rq (task_cpu (tasks s p)) p else ret c.

Definition update_avg (avg sample : Z) : Z := u64 (avg + Z.shiftr (s64 (sample - avg)) 3).

(** ** Waking up *)

Definition ttwu_activate (c : cpu) (p : task) (en_flags : Z) : K unit :=
  do! activate_task c p en_flags in
  do! set_task p (fun t => t <| on_rq := TASK_ON_RQ_QUEUED |>) in
  let! t := get_task p in
  when (has (flags t) PF_WQ_WORKER) (wq_worker_waking_up p c).

Definition ttwu_do_wakeup (c : cpu) (p : task) (wake_flags : Z) : K unit :=
  do! check_preempt_curr c p wake_flags in
  do! set_task p (fun t => t <| state := TASK_RUNNING |>) in
  let! k := task_class p in
  do! call_if (m_task_woken k) (fun m => m c p) in
  let! r := get_rq c in
  when (negb (idle_stamp r =? 0))
    (let delta := u64 (clock r - idle_stamp r) in
     let max := u64 (2 * max_idle_balance_cost r) in
     do! set_rq c (fun r => r <| avg_idle ::= fun a => update_avg a delta |>) in
     do! set_rq c (fun r => r <| avg_idle ::= fun a => if max <? a then max else a |>) in
     set_rq c (fun r => r <| idle_stamp := 0 |>)).

Definition ttwu_do_activate (c : cpu) (p : task) (wake_flags : Z) : K unit :=
  let! t := get_task p in
  do! when (negb (sched_contributes_to_load t =? 0))
    (set_rq c (fun r => r <| nr_uninterruptible ::= fun n => u64 (n - 1) |>)) in
  let en_flags := Z.lor ENQUEUE_WAKEUP ENQUEUE_NOCLOCK in
  let en_flags := if has wake_flags WF_MIGRATED then Z.lor en_flags ENQUEUE_MIGRATED else en_flags in
  do! ttwu_activate c p en_flags in
  ttwu_do_wakeup c p wake_flags.

Definition ttwu_remote (p : task) (wake_flags : Z) : K bool :=
  let! t := get_task p in
  if task_on_rq_queued t then
    do! update_rq_clock (task_cpu t) in
    do! ttwu_do_wakeup (task_cpu t) p wake_flags in
    ret true
  else ret false.

(** The list of the CPU holds the latest first. *)
Definition sched_ttwu_pending : K unit :=
  let! c := gets this_cpu in
  let! r := get_rq c in
  do! set_rq c (fun r => r <| wake_list := [] |>) in
  match wake_list r with
  | [] => ret tt
  | l =>
      do! update_rq_clock c in
      foreach l (fun p =>
        let! t := get_task p in
        ttwu_do_activate c p (if negb (sched_remote_wakeup t =? 0) then WF_MIGRATED else 0))
  end.

Definition need_resched (s : kstate) : bool :=
  tif_need_resched (tasks s (curr (rqs s (this_cpu s)))).

Definition NOHZ_BALANCE_KICK : Z := 1.
Definition NOHZ_STATS_KICK : Z := 2.
Definition NOHZ_KICK_MASK : Z := Z.lor NOHZ_BALANCE_KICK NOHZ_STATS_KICK.

(** Another CPU has asked this one to balance, with NO_HZ_COMMON. *)
Definition got_nohz_idle_kick : K bool :=
  let! s := gets (fun s => s) in
  let c := this_cpu s in
  if negb (has (nohz_flags (rqs s c)) NOHZ_KICK_MASK) then ret false else
  if idle_cpu (rqs s c) && negb (need_resched s) then ret true else
  do! set_rq c (fun r => r <| nohz_flags ::= fun v => Z.land v (Z.lnot NOHZ_KICK_MASK) |>) in
  ret false.

(** [TIF_NEED_RESCHED] is folded into the preemption count. *)
Definition scheduler_ipi : K unit :=
  let! s := gets (fun s => s) in
  let c := this_cpu s in
  do! when (tif_need_resched (tasks s (curr (rqs s c))))
        (modify (fun s => s <| preempt_need_resched := true |>)) in
  let! nothing := (match wake_list (rqs s c) with
                   | [] => let! kick := got_nohz_idle_kick in ret (negb kick)
                   | _ => ret false
                   end) in
  if nothing then ret tt else
  do! sched_ttwu_pending in
  let! kick := got_nohz_idle_kick in
  when kick
    (do! set_rq c (fun r => r <| idle_balance := 1 |>) in raise_sched_softirq).

Definition smp_send_reschedule (c : cpu) : K unit := modify (fun s => s <| resched_ipis ::= cons c |>).

(** [llist_add] tells whether the list was empty. *)
Definition ttwu_queue_remote (p : task) (c : cpu) (wake_flags : Z) : K unit :=
  do! set_task p (fun t => t <| sched_remote_wakeup := b2z (has wake_flags WF_MIGRATED) |>) in
  let! r := get_rq c in
  do! set_rq c (fun r => r <| wake_list ::= cons p |>) in
  match wake_list r with
  | [] =>
      let! polling := set_nr_if_polling (idle r) in
      when (negb polling) (smp_send_reschedule c)
  | _ => ret tt
  end.

Definition is_idle_task (t : task_struct) : bool := has (flags t) PF_IDLE.

Definition wake_up_if_idle (c : cpu) : K unit :=
  let! s := gets (fun s => s) in
  if negb (is_idle_task (tasks s (curr (rqs s c)))) then ret tt else
  let! polling := set_nr_if_polling (idle (rqs s c)) in
  if polling then ret tt else
  let! s := gets (fun s => s) in
  when (is_idle_task (tasks s (curr (rqs s c)))) (smp_send_reschedule c).

Definition cpus_share_cache (this_cpu that_cpu : cpu) : bool := sd_llc_id this_cpu =? sd_llc_id that_cpu.

Definition ttwu_queue (p : task) (c : cpu) (wake_flags : Z) : K unit :=
  let! me := gets this_cpu in
  if sched_feat TTWU_QUEUE && negb (cpus_share_cache me c) then ttwu_queue_remote p c wake_flags else
  do! update_rq_clock c in
  ttwu_do_activate c p wake_flags.

(** [smp_cond_load_acquire] waits for a task that is still being switched out;
    since functions are atomic here, it would wait forever. *)
Definition try_to_wake_up (p : task) (st wake_flags : Z) : K Z :=
  let! t := get_task p in
  if negb (has (state t) st) then ret 0 else
  let! woken := (if negb (on_rq t =? 0) then ttwu_remote p wake_flags else ret false) in
  if woken then ret 1 else
  let! t := get_task p in
  if negb (on_cpu t =? 0) then crash OutOfFuel else
  do! set_task p (fun t => t <| sched_contributes_to_load := b2z (task_contributes_to_load t) |>) in
  do! set_task p (fun t => t <| state := TASK_WAKING |>) in
  do! when (negb (in_iowait t =? 0)) (set_rq (task_cpu t) (fun r => r <| nr_iowait ::= fun n => s32 (n - 1) |>)) in
  let! c := select_task_rq p (wake_cpu t) SD_BALANCE_WAKE wake_flags in
  let! t := get_task p in
  if negb (task_cpu t =? c) then
    do! set_task_cpu p c in
    do! ttwu_queue p c (Z.lor wake_flags WF_MIGRATED) in
    ret 1
  else
    do! ttwu_queue p c wake_flags in
    ret 1.

Definition try_to_wake_up_local (p : task) : K unit :=
  let! s := gets (fun s => s) in
  let t := tasks s p in
  let c := task_cpu t in
  if negb (c =? this_cpu s) || bool_decide (p = curr (rqs s (this_cpu s))) then ret tt else
  if negb (has (state t) TASK_NORMAL) then ret tt else
  do! when (negb (task_on_rq_queued t))
    (do! when (negb (in_iowait t =? 0)) (set_rq c (fun r => r <| nr_iowait ::= fun n => s32 (n - 1) |>)) in
     ttwu_activate c p (Z.lor ENQUEUE_WAKEUP ENQUEUE_NOCLOCK)) in
  ttwu_do_wakeup c p 0.

Definition wake_up_process (p : task) : K Z := try_to_wake_up p TASK_NORMAL 0.
Definition wake_up_state (p : task) (st : Z) : K Z := try_to_wake_up p st 0.
Definition default_wake_function (p : task) (mode wake_flags : Z) : K Z := try_to_wake_up p mode wake_flags.

(** ** New tasks *)

(** The timers of the deadline entity are left out. *)
Definition __sched_fork (p : task) : K unit :=
  do! set_task p (fun t => t <| on_rq := 0 |>) in
  do! set_task p (fun t => t <| se ::= fun e =>
        e <| se_on_rq := 0 |> <| exec_start := 0 |> <| sum_exec_runtime := 0 |>
          <| prev_sum_exec_runtime := 0 |> <| nr_migrations := 0 |> <| vruntime := 0 |> |>) in
  do! set_task p (fun t => t <| ts ::= fun e => e <| ts_time_slice := 12 |> |>) in
  do! __dl_clear_params p in
  let! slice := gets sched_rr_timeslice in
  set_task p (fun t => t <| rt ::= fun e =>
    e <| timeout := 0 |> <| rt_time_slice := u32 slice |> <| rt_on_rq := 0 |> <| on_list := 0 |> |>).

(** The class for a priority and a policy; [None] for a deadline priority. *)
Definition fork_class (pr pol : Z) : option sched_class_t :=
  if dl_prio pr then None
  else if rt_prio pr then Some rt_sched_class
  else if ts_policy pol then Some ts_sched_class
  else Some fair_sched_class.

(** What [sched_reset_on_fork] asks for. *)
Definition reset_on_fork (p : task) : K unit :=
  let! t := get_task p in
  do! (if task_has_dl_policy t || task_has_rt_policy t then
         do! set_task p (fun t => t <| policy := SCHED_NORMAL |>) in
         do! set_task p (fun t => t <| static_prio := NICE_TO_PRIO 0 |>) in
         set_task p (fun t => t <| rt_priority := 0 |>)
       else when (PRIO_TO_NICE (static_prio t) <? 0)
              (set_task p (fun t => t <| static_prio := NICE_TO_PRIO 0 |>))) in
  do! set_task p (fun t => t <| normal_prio := __normal_prio t |>) in
  do! set_task p (fun t => t <| prio := normal_prio t |>) in
  do! set_load_weight p false in
  set_task p (fun t => t <| sched_reset_on_fork := 0 |>).

Definition sched_fork (p : task) : K Z :=
  do! __sched_fork p in
  do! set_task p (fun t => t <| state := TASK_NEW |>) in
  let! s := gets (fun s => s) in
  do! set_task p (fun t => t <| prio := normal_prio (tasks s (curr (rqs s (this_cpu s)))) |>) in
  let! t := get_task p in
  do! when (negb (sched_reset_on_fork t =? 0)) (reset_on_fork p) in
  let! t := get_task p in
  match fork_class (prio t) (policy t) with
  | None => ret (- EAGAIN)
  | Some k =>
      do! set_task p (fun t => t <| sched_class := k |>) in
      let! me := gets this_cpu in
      do! __set_task_cpu p me in
      do! call_if (m_task_fork (class_of k)) (fun m => m p) in
      do! set_task p (fun t => t <| on_cpu := 0 |>) in
      ret 0
  end.

Definition wake_up_new_task (p : task) : K unit :=
  do! set_task p (fun t => t <| state := TASK_RUNNING |>) in
  do! set_task p (fun t => t <| recent_used_cpu := task_cpu t |>) in
  let! t := get_task p in
  let! c := select_task_rq p (task_cpu t) SD_BALANCE_FORK 0 in
  do! __set_task_cpu p c in
  do! update_rq_clock c in
  do! activate_task c p ENQUEUE_NOCLOCK in
  do! set_task p (fun t => t <| on_rq := TASK_ON_RQ_QUEUED |>) in
  do! check_preempt_curr c p WF_FORK in
  let! k := task_class p in
  call_if (m_task_woken k) (fun m => m c p).
End Wake.
