(* ===== verification/CoreProps.v ===== *)
(** * Waking tasks up: what the core guarantees

    The operations of [core.c] on the invariant of the machine ([CoreInv]):
    queuing and moving a task, preemption, pushing, and waking up. *)

From S2P Require Import Prelude Sched Ts RtBandwidth Rt RtProps SchedClass ClassProps.
From S2P Require Import Frames CoreInv Wake.

(** ** Queuing *)

(** What an operation makes of the machine: the runnable tasks are now [on]. *)
Record step_to (on : task -> bool) (s s' : kstate) : Prop := {
  sp_inv : minv on s';
  sp_keep : keep s s';
  sp_curr : curr_ok s -> curr_ok s'
}.

Section Queuing.
Context `{Hfeat : SchedFeat} `{Hlim : Rlimits} `{Hpri : Cpupri} `{Htop : Topology}.
Context `{Hoth : OtherClasses}.
Implicit Types (c i : cpu) (p x : task) (s : kstate) (on : task -> bool).

Lemma step_to_trans on1 on2 s1 s2 s3 : step_to on1 s1 s2 -> step_to on2 s2 s3 -> step_to on2 s1 s3.
Proof. intros [_ A2 A3] [B1 B2 B3]. split; [done | by etrans | auto]. Qed.

Lemma step_to_refl on s : minv on s -> step_to on s s.
Proof. by split. Qed.

Lemma step_to_ext on on' s s' :
  (forall p, mine s p -> on p = on' p) -> step_to on s s' -> step_to on' s s'.
Proof.
  intros H [A1 A2 A3]. split; [|done|done]. apply (minv_ext on); [|done].
  intros p Hp. apply H. by apply (keep_mine s s').
Qed.

(** Total changes that neither class looks at. *)
Definition calm (s s' : kstate) : Prop := quiet s s' /\ keep s s'.

#[export] Instance calm_preorder : PreOrder calm.
Proof. split; [by split|]. intros s1 s2 s3 [] []. split; by etrans. Qed.

Lemma frames_calm {A} (m : K A) : frames quiet m -> frames keep m -> frames calm m.
Proof. intros H1 H2 s a s' He. split; [by eapply H1 | by eapply H2]. Qed.

Lemma calm_cpu s s' p : calm s s' -> mine s p -> task_cpu (tasks s' p) = task_cpu (tasks s p).
Proof.
  intros [[Hr Ht] _] [Hc|Hc].
  - by destruct (rq_view _ _ _ Hr p) as (_ & _ & _ & ?); [intros []|..].
  - by apply (nt_task _ _ Ht p).
Qed.

Lemma step_to_quiet on s s' : minv on s -> quiet s s' -> keep s s' -> step_to on s s'.
Proof.
  intros Hm Hq Hk. split; [by eapply minv_quiet | done|]. intros [H1 H2]. split.
  - by apply (curr_kept_quiet s); [apply Hq | apply Hk|].
  - apply (running_keep s); [done| |done]. intros x Hx _. by apply (calm_cpu s s').
Qed.

Lemma calm_to on s s' : minv on s -> calm s s' -> step_to on s s'.
Proof. intros Hm [? ?]. by apply step_to_quiet. Qed.

Lemma calm_step on m s : total m -> frames calm m -> minv on s -> wp m (fun _ : unit => step_to on s) s.
Proof.
  intros Ht Hf Hm. eapply wp_mono; [by apply (wp_total calm)|]. intros [] s'. by apply calm_to.
Qed.

Lemma update_rq_clock_calm c : frames calm (update_rq_clock c).
Proof. apply frames_calm; frames_tac. Qed.
Lemma update_rq_clock_total c : total (update_rq_clock c).
Proof. total_tac. Qed.
Lemma resched_curr_calm c : frames calm (resched_curr c).
Proof. apply frames_calm; frames_tac. Qed.
Lemma resched_curr_total c : total (resched_curr c).
Proof. total_tac. Qed.

(** A calm computation in front. *)
Lemma calm_then {A} on on' (m : K unit) (k : K A) s :
  minv on s -> total m -> frames calm m ->
  (forall s1, calm s s1 -> minv on s1 -> wp k (fun _ => step_to on' s1) s1) ->
  wp (do! m in k) (fun _ => step_to on' s) s.
Proof.
  intros Hm Ht Hf Hk. wstep. eapply wp_mono; [by apply (wp_total calm)|]. intros [] s1 H1.
  pose proof (calm_to on _ _ Hm H1) as Hs. eapply wp_mono; [apply Hk; [done|apply Hs]|].
  intros a s2 H2. by eapply step_to_trans.
Qed.

Lemma when_total (b : bool) (m : K unit) : total m -> total (when b m).
Proof. apply total_when. Qed.

Lemma clock_calm c (b : bool) : frames calm (when b (update_rq_clock c)).
Proof. destruct b; [apply update_rq_clock_calm | apply frames_ret; exact _]. Qed.

Lemma uninterruptible_calm c (b : bool) f :
  frames calm (when b (set_rq c (fun r => r <| nr_uninterruptible ::= f |>))).
Proof. apply frames_calm; frames_tac. Qed.

Lemma calm_mine s s' p : calm s s' -> mine s' p <-> mine s p.
Proof. intros [_ H]. by apply keep_mine. Qed.

(** An operation of a class that moves no task to another CPU. *)
Lemma step_to_local on s s' :
  minv on s' -> keep s s' -> (curr_kept s -> curr_kept s') -> same_cpu s s' -> step_to on s s'.
Proof.
  intros H1 H2 H3 H4. split; [done|done|]. intros [H5 H6]. split; [auto|].
  apply (running_keep s); [done| |done]. intros x _ _. apply H4.
Qed.

Lemma enqueue_task_step on c p fl s :
  minv on s -> on p = false -> mine s p -> task_cpu (tasks s p) = c -> move_entity fl = true ->
  wp (enqueue_task c p fl) (fun _ s' => step_to (<[p := true]> on) s s' /\ task_cpu (tasks s' p) = c) s.
Proof.
  intros Hm Hp Hmi Hcpu Hfl. unfold enqueue_task. wstep.
  eapply wp_mono; [apply (wp_total calm); [total_tac|apply clock_calm]|]. intros [] s1 H1.
  pose proof (calm_to on _ _ Hm H1) as Hs1. unfold get_task. do 2 wstep.
  rewrite <- (calm_cpu _ _ p H1 Hmi) in Hcpu. apply (calm_mine _ _ _ H1) in Hmi.
  enough (H : wp (class_enqueue (sched_class (tasks s1 p)) c p fl)
    (fun _ s' => ((minv (<[p := true]> on) s' /\ (curr_kept s1 -> curr_kept s')) /\ keep s1 s') /\ same_cpu s1 s') s1).
  { eapply wp_mono; [exact H|]. intros [] s2 [[[? ?] ?] Hc]. split; [|by rewrite Hc].
    eapply step_to_trans; [exact Hs1|by apply step_to_local]. }
  destruct Hmi as [Hc|Hc]; rewrite Hc; cbn [class_enqueue].
  all: apply (wp_frames same_cpu); [auto with frames|]; apply (wp_frames keep); [auto with frames|].
  - apply enqueue_rt_minv; try done. apply Hs1.
  - apply enqueue_ts_minv; try done. apply Hs1.
Qed.

Lemma dequeue_task_step on c p fl s :
  minv on s -> on p = true -> mine s p -> task_cpu (tasks s p) = c -> move_entity fl = true ->
  wp (dequeue_task c p fl) (fun _ => step_to (<[p := false]> on) s) s.
Proof.
  intros Hm Hp Hmi Hcpu Hfl. apply (calm_then on); [done|total_tac|apply clock_calm|].
  intros s1 H1 Hm1. unfold get_task. do 2 wstep. rewrite <- (calm_cpu _ _ p H1 Hmi) in Hcpu.
  apply (calm_mine _ _ _ H1) in Hmi.
  enough (H : wp (class_dequeue (sched_class (tasks s1 p)) c p fl)
    (fun _ s' => ((minv (<[p := false]> on) s' /\ (curr_kept s1 -> curr_kept s')) /\ keep s1 s') /\ same_cpu s1 s') s1).
  { eapply wp_mono; [exact H|]. intros [] s2 [[[? ?] ?] ?]. by apply step_to_local. }
  destruct Hmi as [Hc|Hc]; rewrite Hc; cbn [class_dequeue].
  all: apply (wp_frames same_cpu); [auto with frames|]; apply (wp_frames keep); [auto with frames|].
  - by apply dequeue_rt_minv.
  - by apply dequeue_ts_minv.
Qed.

Lemma activate_task_step on c p fl s :
  minv on s -> on p = false -> mine s p -> task_cpu (tasks s p) = c -> move_entity fl = true ->
  wp (activate_task c p fl) (fun _ s' => step_to (<[p := true]> on) s s' /\ task_cpu (tasks s' p) = c) s.
Proof.
  intros Hm Hp Hmi Hcpu Hfl. unfold activate_task, get_task. do 2 wstep. wstep.
  eapply wp_mono; [apply (wp_total calm); [total_tac|apply uninterruptible_calm]|]. intros [] s1 H1.
  pose proof (calm_to on _ _ Hm H1) as Hs1.
  eapply wp_mono; [apply (enqueue_task_step on c p fl); try done|].
  - apply Hs1.
  - by apply (calm_mine _ _ _ H1).
  - by rewrite (calm_cpu _ _ p H1 Hmi).
  - intros [] s2 [H2 E]. split; [|done]. by eapply step_to_trans.
Qed.

Lemma deactivate_task_step on c p fl s :
  minv on s -> on p = true -> mine s p -> task_cpu (tasks s p) = c -> move_entity fl = true ->
  wp (deactivate_task c p fl) (fun _ => step_to (<[p := false]> on) s) s.
Proof.
  intros Hm Hp Hmi Hcpu Hfl. unfold deactivate_task, get_task. do 2 wstep.
  apply (calm_then on); [done|total_tac|apply uninterruptible_calm|].
  intros s1 H1 Hm1. apply dequeue_task_step; try done; [by apply (calm_mine _ _ _ H1)|].
  by rewrite (calm_cpu _ _ p H1 Hmi).
Qed.

(** Leaving and joining a queue, for the tasks of the two classes. *)
Lemma class_moves_same_cpu (k : sched_class_t) c p fl :
  k = rt_sched_class \/ k = ts_sched_class ->
  frames same_cpu (class_dequeue k c p fl) /\ frames same_cpu (class_enqueue k c p fl).
Proof. intros [-> | ->]; split; cbn [class_dequeue class_enqueue]; auto with frames. Qed.

Lemma dequeue_task_cpu c p fl s s' :
  mine s p -> dequeue_task c p fl s = Done (tt, s') -> same_cpu s s'.
Proof.
  intros Hm (u & s1 & He & H)%bind_inv.
  pose proof (frames_when keep _ _ (kept_keep _ (update_rq_clock_kept c)) _ _ _ He) as K1.
  assert (C1 : same_cpu s s1) by (by eapply (frames_when same_cpu _ _ (ltac:(frames_tac) : frames same_cpu (update_rq_clock c)))).
  unfold get_task in H. rewrite bind_gets in H. apply (keep_mine _ _ p K1) in Hm. etrans; [exact C1|].
  by eapply (class_moves_same_cpu _ c p fl Hm) in H.
Qed.

Lemma enqueue_task_cpu c p fl s s' :
  mine s p -> enqueue_task c p fl s = Done (tt, s') -> same_cpu s s'.
Proof.
  intros Hm (u & s1 & He & H)%bind_inv.
  pose proof (frames_when keep _ _ (kept_keep _ (update_rq_clock_kept c)) _ _ _ He) as K1.
  assert (C1 : same_cpu s s1) by (by eapply (frames_when same_cpu _ _ (ltac:(frames_tac) : frames same_cpu (update_rq_clock c)))).
  unfold get_task in H. rewrite bind_gets in H. apply (keep_mine _ _ p K1) in Hm. etrans; [exact C1|].
  by eapply (class_moves_same_cpu _ c p fl Hm) in H.
Qed.

Lemma deactivate_task_cpu c p fl s s' :
  mine s p -> deactivate_task c p fl s = Done (tt, s') -> same_cpu s s'.
Proof.
  unfold deactivate_task, get_task. rewrite bind_gets. intros Hm (u & s1 & He & H)%bind_inv.
  pose proof (uninterruptible_calm _ _ _ _ _ _ He) as K1. apply (calm_mine _ _ _ K1) in Hm.
  etrans; [|by eapply dequeue_task_cpu]. by eapply (frames_when same_cpu _ _ (set_rq_same_cpu _ _)).
Qed.

Lemma activate_task_cpu c p fl s s' :
  mine s p -> activate_task c p fl s = Done (tt, s') -> same_cpu s s'.
Proof.
  unfold activate_task, get_task. rewrite bind_gets. intros Hm (u & s1 & He & H)%bind_inv.
  pose proof (uninterruptible_calm _ _ _ _ _ _ He) as K1. apply (calm_mine _ _ _ K1) in Hm.
  etrans; [|by eapply enqueue_task_cpu]. by eapply (frames_when same_cpu _ _ (set_rq_same_cpu _ _)).
Qed.

(** ** Moving *)

(** A task that is not queued may be changed, within the priorities of its
    class. *)
Definition class_fits (p : task) (t : task_struct) : Prop :=
  match sched_class t with
  | rt_sched_class => 0 <= prio t < 100 /\ 0 <= p < PID_MAX_LIMIT
  | ts_sched_class => 100 <= prio t <= 139
  | _ => True
  end.

Lemma minv_fits on s p : minv on s -> class_fits p (tasks s p).
Proof.
  intros [Hr Ht]. unfold class_fits. destruct (sched_class (tasks s p)) eqn:E; try done.
  - split; by apply Hr.
  - by apply Ht.
Qed.

Lemma minv_alter on s p f :
  minv on s -> on p = false -> rt_on_rq (rt (f (tasks s p))) = rt_on_rq (rt (tasks s p)) ->
  class_fits p (f (tasks s p)) -> minv on (s <| tasks ::= alter f p |>).
Proof.
  intros Hm Hp Hf Hc. pose proof Hm as [Hr [Hw Hl Hpr]]. set (s' := s <| tasks ::= alter f p |>).
  assert (Hx : forall x, x <> p -> tasks s' x = tasks s x) by (intros x Hx; simpl; by rewrite fn_lookup_alter_ne).
  assert (Hpp : tasks s' p = f (tasks s p)) by (simpl; by rewrite fn_lookup_alter).
  assert (Hq : forall c, ~ rt_task_queued c s p /\ ~ ts_queued c s p) by (intros c; by apply (minv_off on)).
  assert (Hne : forall c x, rt_task_queued c s x \/ ts_queued c s x -> x <> p).
  { intros c x H ->. destruct (Hq c). tauto. }
  unfold class_fits in Hc. rewrite <- Hpp in Hc.
  split; [apply (rt_rebuild on on p s); try done|split].
  - intros i. apply (other_cpu_ok i s); [apply Hr|done|]. intros x Hxq. apply Hx, (Hne i). by left.
  - apply Hr.
  - intros x Hxp. by rewrite Hx.
  - intros i. split; [by intros ?%Hq | intros (? & _); congruence].
  - rewrite Hpp, Hf. by rewrite (minv_off_entity on s p).
  - intros E. by rewrite E in Hc.
  - intros c. eapply wf_q_ext; [apply Hw|]. intros x Hxq. unfold prio_of. rewrite Hx; [done|]. apply (Hne c). by right.
  - intros c x. change (ts_queued c s' x) with (ts_queued c s x). destruct (decide (x = p)) as [->|Hxp]; [|by rewrite Hx].
    split; [by intros ?%Hq | intros (? & _); congruence].
  - intros x. destruct (decide (x = p)) as [->|Hxp]; [intros E; by rewrite E in Hc|]. rewrite Hx by done. apply Hpr.
Qed.

(** Changes of such a task that keep its class and state. *)
Record moves_task (t t' : task_struct) : Prop := {
  mt_class : sched_class t' = sched_class t;
  mt_prio : prio t' = prio t;
  mt_on : rt_on_rq (rt t') = rt_on_rq (rt t);
  mt_same : same_task t t'
}.

Lemma set_task_step on p f s :
  minv on s -> on p = false -> (forall i, curr (rqs s i) <> p) -> (forall t, moves_task t (f t)) ->
  wp (set_task p f) (fun _ s' => step_to on s s' /\ tasks s' p = f (tasks s p)) s.
Proof.
  intros Hm Hp Hnc Hf. eapply wp_intro; [reflexivity|]. split; [|simpl; by rewrite fn_lookup_alter].
  assert (Hk : keep s (s <| tasks ::= alter f p |>)).
  { eapply (set_task_keep p f); [|reflexivity]. intros t. split; apply Hf. }
  split; [|done|].
  - destruct (Hf (tasks s p)) as [H1 H2 H3 _]. apply minv_alter; [done..|].
    pose proof (minv_fits on s p Hm) as H. unfold class_fits in *. by rewrite H1, H2.
  - intros [Hc Hr]. split; [done|]. apply (running_keep s); [done| |done].
    intros x _ [i Hi]. simpl. rewrite fn_lookup_alter_ne; [done|]. intros <-. by apply (Hnc i).
Qed.

Lemma set_task_cpu_step on p i s :
  minv on s -> on p = false -> mine s p -> (forall j, curr (rqs s j) <> p) ->
  wp (set_task_cpu p i) (fun _ s' => step_to on s s' /\ task_cpu (tasks s' p) = i) s.
Proof.
  intros Hm Hp Hmi Hnc. unfold set_task_cpu, get_task. do 2 wstep. wstep.
  assert (Hnc' : forall s', keep s s' -> forall j, curr (rqs s' j) <> p)
    by (intros s' Hk j; rewrite (kp_curr _ _ Hk); apply Hnc).
  apply (wp_mono _ (fun _ => step_to on s)).
  { wstep; [|by apply step_to_refl].
    assert (E : class_migrate (sched_class (tasks s p)) = None) by (by destruct Hmi as [-> | ->]).
    rewrite E. cbn [call_if]. do 2 wstep. eapply wp_mono; [by apply (set_task_step on)|]. by intros [] s1 [? _]. }
  intros [] s1 H1. unfold __set_task_cpu. wstep.
  wcall (set_task_step on); [apply H1|done|apply Hnc', H1|done|]. intros [] s2 [H2 E2].
  wcall (set_task_step on); [apply H2|done|apply Hnc'; etrans; [apply H1|apply H2]|done|]. intros [] s3 [H3 E3].
  split; [|by rewrite E3; simpl; rewrite E2]. by do 2 (eapply step_to_trans; [eassumption|]).
Qed.

(** The tasks but [p] stay on their CPUs. *)
Definition cpu_but p s s' : Prop := forall x, x <> p -> task_cpu (tasks s' x) = task_cpu (tasks s x).

#[export] Instance cpu_but_preorder p : PreOrder (cpu_but p).
Proof. split; [done|]. intros s1 s2 s3 A B x Hx. by rewrite B, A. Qed.

Lemma set_task_cpu_but p f : frames (cpu_but p) (set_task p f).
Proof. apply frames_modify. intros s x Hx. simpl. by rewrite fn_lookup_alter_ne. Qed.
#[local] Hint Resolve set_task_cpu_but : frames.

Lemma set_task_cpu_others p i s s' : mine s p -> set_task_cpu p i s = Done (tt, s') -> cpu_but p s s'.
Proof.
  intros Hm He. unfold set_task_cpu, get_task in He. rewrite bind_gets in He.
  assert (E : class_migrate (sched_class (tasks s p)) = None) by (by destruct Hm as [-> | ->]).
  rewrite E in He. cbn [call_if] in He. revert He. apply frames_bind; [exact _| |]; intros; frames_tac.
Qed.

Lemma set_task_but on p f s :
  minv on s -> on p = false -> (forall i, curr (rqs s i) <> p) -> (forall t, moves_task t (f t)) ->
  wp (set_task p f) (fun _ s' => step_to on s s' /\ tasks s' p = f (tasks s p) /\ cpu_but p s s') s.
Proof.
  intros H1 H2 H3 H4. pose proof (set_task_step on p f s H1 H2 H3 H4) as H.
  apply wp_done in H as ([] & s' & He & T & E). apply (wp_intro _ _ _ _ _ He). split_and!; [done..|].
  by eapply set_task_cpu_but.
Qed.

(** From CPU [c] to CPU [i]. *)
Lemma move_task_step on c i p s :
  minv on s -> on p = true -> mine s p -> task_cpu (tasks s p) = c -> (forall j, curr (rqs s j) <> p) ->
  wp (do! deactivate_task c p 0 in do! set_task_cpu p i in activate_task i p 0)
     (fun _ s' => step_to on s s' /\ task_cpu (tasks s' p) = i /\ cpu_but p s s') s.
Proof.
  intros Hm Hp Hmi Hcpu Hnc. pose proof (deactivate_task_step on c p 0 s Hm Hp Hmi Hcpu eq_refl) as W.
  apply wp_done in W as ([] & s1 & He1 & H1). wstep. apply (wp_intro _ _ _ _ _ He1).
  assert (Hoff : (<[p := false]> on) p = false) by by rewrite fn_lookup_insert.
  pose proof (proj2 (keep_mine _ _ p (sp_keep _ _ _ H1)) Hmi) as Hmi1.
  pose proof (set_task_cpu_step (<[p := false]> on) p i s1 (sp_inv _ _ _ H1) Hoff Hmi1) as W.
  apply wp_done in W as ([] & s2 & He2 & H2 & E2).
  2: { intros j. by rewrite (kp_curr _ _ (sp_keep _ _ _ H1)). }
  wstep. apply (wp_intro _ _ _ _ _ He2). pose proof (proj2 (keep_mine _ _ p (sp_keep _ _ _ H2)) Hmi1) as Hmi2.
  pose proof (activate_task_step (<[p := false]> on) i p 0 s2 (sp_inv _ _ _ H2) Hoff Hmi2 E2 eq_refl) as W.
  apply wp_done in W as ([] & s3 & He3 & H3 & E3). apply (wp_intro _ _ _ _ _ He3). split_and!; [|done|].
  - eapply step_to_ext; [|eapply step_to_trans; [exact H1|eapply step_to_trans; [exact H2|exact H3]]].
    intros x _. destruct (decide (x = p)) as [->|Hx]; [by rewrite fn_lookup_insert|].
    by rewrite !fn_lookup_insert_ne.
  - intros x Hx. rewrite (activate_task_cpu _ _ _ _ _ Hmi2 He3), (set_task_cpu_others _ _ _ _ Hmi1 He2) by done.
    by rewrite (deactivate_task_cpu _ _ _ _ _ Hmi He1).
Qed.

(** ** Preemption *)

(** The tasks of the two classes stay on their CPUs. *)
Definition cpus_kept s s' : Prop := forall x, mine s x -> task_cpu (tasks s' x) = task_cpu (tasks s x).

Lemma calm_cpus_kept s s' : calm s s' -> cpus_kept s s'.
Proof. intros H x. by apply calm_cpu. Qed.

Lemma calm_stays on m s :
  total m -> frames calm m -> minv on s -> wp m (fun _ : unit => fun s' => step_to on s s' /\ cpus_kept s s') s.
Proof.
  intros Ht Hf Hm. eapply wp_mono; [by apply (wp_total calm)|]. intros [] s' H.
  split; [by apply calm_to|by apply calm_cpus_kept].
Qed.

Lemma check_preempt_step on c p fl s :
  minv on s -> on p = true -> mine s p -> task_cpu (tasks s p) = c ->
  wp (check_preempt_curr c p fl) (fun _ s' => step_to on s s' /\ cpus_kept s s') s.
Proof.
  intros Hm Hp Hmi Hcpu. unfold check_preempt_curr. wgo.
  apply (wp_mono _ (fun _ s' => step_to on s s' /\ cpus_kept s s')).
  - case_bool_decide as Hk.
    + rewrite <- Hk. destruct Hmi as [Hc|Hc]; rewrite Hc; cbn [class_of m_check_preempt_curr rt_class ts_class].
      * wcall_frames kept (check_preempt_rt_stays (fun _ => False) c p); [apply Hm|by apply (rp_link _ _ (proj1 Hm))|].
        intros [] s1 [H1 H2]. split; [split; [by eapply minv_local|apply H2|]|by intros x _; apply (sy_view _ _ _ _ H1 x)].
        intros [Hck Hr]. split.
        -- apply (curr_kept_local (fun _ => False) c s); tauto.
        -- apply (running_keep s); [apply H2| |done]. intros x _ _. apply (sy_view _ _ _ _ H1 x).
      * apply calm_stays; [total_tac|apply frames_calm; frames_tac|done].
    + apply calm_stays; [total_tac|apply frames_calm; frames_tac|done].
  - intros [] s1 [H1 C1]. wgo. eapply wp_mono; [apply (calm_stays on); [total_tac|apply frames_calm; frames_tac|apply H1]|].
    intros [] s2 [H2 C2]. split; [by eapply step_to_trans|]. intros x Hx. rewrite C2; [by apply C1|].
    by apply (keep_mine _ _ x (sp_keep _ _ _ H1)).
Qed.

(** ** Pushing *)

(** On a machine where exactly the runnable tasks are queued. *)
Definition settles (s s' : kstate) : Prop := settled s' /\ keep s s' /\ (curr_ok s -> curr_ok s').

Lemma runnable_keep s s' p : keep s s' -> mine s p -> runnable s' p = runnable s p.
Proof. intros Hk Hp. unfold runnable, task_on_rq_queued. by rewrite (st_on_rq _ _ (kp_task _ _ Hk p Hp)). Qed.

Lemma step_settles s s' : step_to (runnable s) s s' -> settles s s'.
Proof.
  intros [H1 H2 H3]. split_and!; [|done|done]. apply (minv_ext (runnable s)); [|done].
  intros p Hp. symmetry. apply runnable_keep; [done|]. by apply (keep_mine s s').
Qed.

#[export] Instance settles_trans : Transitive settles.
Proof. intros s1 s2 s3 (A1 & A2 & A3) (B1 & B2 & B3). split_and!; [done|by etrans|auto]. Qed.

(** [x] is on CPU [c], or it is a real-time task that has been pushed to a CPU
    which [cpupri_find] proposed for it. *)
Definition placed (c : cpu) s x : Prop :=
  task_cpu (tasks s x) = c \/
  sched_class (tasks s x) = rt_sched_class /\
  exists s1, cpus_allowed (tasks s1 x) = cpus_allowed (tasks s x) /\ task_cpu (tasks s x) ∈ cpupri_find s1 x.

(** The tasks stay on their CPUs, but for the queued ones that are pushed. *)
Definition remains x s s' : Prop :=
  if runnable s x then placed (task_cpu (tasks s x)) s' x else task_cpu (tasks s' x) = task_cpu (tasks s x).

Lemma placed_more c s s' x :
  sched_class (tasks s' x) = sched_class (tasks s x) -> cpus_allowed (tasks s' x) = cpus_allowed (tasks s x) ->
  placed c s x -> placed (task_cpu (tasks s x)) s' x -> placed c s' x.
Proof.
  intros Hc Hm H [E|?]; [|by right]. destruct H as [<-|(? & s1 & ? & ?)]; [by left|right].
  split; [congruence|]. exists s1. rewrite E. by split; [congruence|].
Qed.

Lemma remains_trans x s1 s2 s3 :
  runnable s2 x = runnable s1 x -> sched_class (tasks s3 x) = sched_class (tasks s2 x) ->
  cpus_allowed (tasks s3 x) = cpus_allowed (tasks s2 x) ->
  remains x s1 s2 -> remains x s2 s3 -> remains x s1 s3.
Proof.
  unfold remains. intros -> Hc Hm. destruct (runnable s1 x); [by apply placed_more|]. by intros <- ->.
Qed.

Lemma remains_same x s s' : task_cpu (tasks s' x) = task_cpu (tasks s x) -> remains x s s'.
Proof. unfold remains. destruct (runnable s x); [by left|done]. Qed.

Lemma remains_keep x s1 s2 s3 :
  keep s1 s2 -> keep s2 s3 -> mine s1 x -> remains x s1 s2 -> remains x s2 s3 -> remains x s1 s3.
Proof.
  intros K1 K2 Hx. apply remains_trans; [by apply runnable_keep|apply K2|].
  apply (kp_task _ _ K2). by apply (keep_mine _ _ _ K1).
Qed.

(** [settles], and where the tasks are. *)
Definition shifts (s s' : kstate) : Prop := settles s s' /\ forall x, mine s x -> remains x s s'.

Lemma shifts_refl s : settled s -> shifts s s.
Proof. intros H. split; [by split_and!|]. intros x _. by apply remains_same. Qed.

#[export] Instance shifts_trans : Transitive shifts.
Proof.
  intros s1 s2 s3 [A1 A2] [B1 B2]. split; [by etrans|]. intros x Hx.
  assert (Hx2 : mine s2 x) by (by apply (keep_mine _ _ _ (proj1 (proj2 A1)))).
  apply (remains_keep x s1 s2 s3); [apply A1|apply B1|done|by apply A2|by apply B2].
Qed.

Lemma step_shifts s s' : step_to (runnable s) s s' -> cpus_kept s s' -> shifts s s'.
Proof. intros H C. split; [by apply step_settles|]. intros x Hx. by apply remains_same, C. Qed.

Lemma calm_shifts s s' : settled s -> calm s s' -> shifts s s'.
Proof. intros Hs H. apply step_shifts; [by apply calm_to|by apply calm_cpus_kept]. Qed.

(** A pushable task runs on no CPU. *)
Lemma pushable_not_curr c s n p j :
  settled s -> curr_ok s -> (n, p) ∈ pushable_tasks (rq_rt (rqs s c)) -> curr (rqs s j) <> p.
Proof.
  intros [Hr _] [Hk Hrun] Hp <-. destruct (rp_task _ _ _ (ri_push _ _ _ (rp_ok _ _ Hr c)) _ _ Hp) as (_ & Hq & _).
  apply (rp_link _ _ Hr) in Hq as (_ & Hcl & Hcpu). pose proof (Hrun j ltac:(by left)) as E.
  apply (Hk c). rewrite <- Hcpu, E at 1. apply list_elem_of_fmap. by exists (n, curr (rqs s j)).
Qed.

Lemma settled_all_ok s : settled s -> curr_ok s -> all_ok s.
Proof.
  intros [Hr _] Hc i. split; [apply Hr| |apply Hc].
  intros p (Hp & ? & _)%(rp_link _ _ Hr). split; [done|]. by apply Z.eqb_eq in Hp.
Qed.

Lemma settled_push_room c s : settled s -> push_room c s.
Proof.
  intros Hs j. pose proof (queue_room _ _ j (proj1 Hs)) as H1. pose proof (queue_room _ _ c (proj1 Hs)) as H2.
  pose proof (rp_others _ _ (proj1 Hs) j) as H3. pose proof (ri_push _ _ _ (rp_ok _ _ (proj1 Hs) c)) as Hp.
  assert (Hl : submseteq (pushable_tasks (rq_rt (rqs s c))).*2 (concat (rt_queue_of c s))).
  { apply NoDup_submseteq; [apply Hp|]. intros p ([n x] & -> & Hx)%list_elem_of_fmap.
    by apply (rp_task _ _ _ Hp n x). }
  apply submseteq_length in Hl. rewrite length_fmap in Hl.
  unfold rt_load, PID_MAX_LIMIT, others in *. lia.
Qed.

Lemma push_rt_task_step c s :
  settled s -> curr_ok s -> wp (push_rt_task c) (fun _ => shifts s) s.
Proof.
  intros Hs Hc. pose proof (settled_all_ok s Hs Hc) as Ha.
  pose proof (shifts_refl s Hs) as Hnop. unfold push_rt_task, get_rt. wgo. destruct (_ =? 0); [exact Hnop|].
  wstep. apply (wp_intro _ _ _ _ _ (pick_pushable_run c s (Ha c))).
  destruct (pushable_tasks (rq_rt (rqs s c))) as [|[n p] l] eqn:E; [exact Hnop|].
  cbn [push_rt_task_retry]. wgo. case_bool_decide; [exact Hnop|].
  assert (Hresched : forall i s1, shifts s s1 -> wp (resched_curr i) (fun _ => shifts s) s1).
  { intros i s1 H1. eapply wp_mono; [apply (wp_total calm); [apply resched_curr_total|apply resched_curr_calm]|].
    intros [] s2 H2. etrans; [exact H1|]. apply calm_shifts; [apply H1|done]. }
  destruct (_ <? _).
  { wstep. eapply wp_mono; [by apply Hresched|]. intros [] s1 H1. exact H1. }
  wstep. destruct (find_lock_lowest_run p c RT_MAX_TRIES s) as (o & He & Hi).
  apply (wp_intro _ _ _ _ _ He). destruct o as [i|].
  - destruct (rp_task _ _ _ (ri_push _ _ _ (rp_ok _ _ (proj1 Hs) c)) n p) as (_ & Hp & _); [rewrite E; by left|].
    apply (rp_link _ _ (proj1 Hs)) in Hp as (Hp & Hcl & Hcpu).
    pose proof (move_task_step (runnable s) c i p s Hs Hp ltac:(by left) Hcpu
      ltac:(intros j; apply (pushable_not_curr c s n p); [done|done|rewrite E; by left])) as Hmv.
    change (deactivate_task_op c p 0) with (deactivate_task c p 0).
    apply wp_done in Hmv as ([] & s3 & He3 & H3%step_settles & E3 & O3).
    assert (Hsh : shifts s s3).
    { split; [done|]. intros x Hx. destruct (decide (x = p)) as [->|Hne]; [|by apply remains_same, O3].
      pose proof (proj1 (proj2 H3)) as Hk. unfold remains. rewrite Hp. right.
      rewrite (kp_class _ _ Hk), (st_cpus _ _ (kp_task _ _ Hk p Hx)), E3. split; [done|]. exists s. split; [done|].
      by apply (Hi i). }
    apply bind_inv in He3 as (u1 & s1 & He1 & (u2 & s2 & He2 & He3)%bind_inv). destruct u1, u2.
    wstep. apply (wp_intro _ _ _ _ _ He1). wstep. apply (wp_intro _ _ _ _ _ He2).
    wstep. apply (wp_intro _ _ _ _ _ He3). wstep. eapply wp_mono; [by apply Hresched|]. intros [] s4 H4. exact H4.
  - wstep. apply (wp_intro _ _ _ _ _ (pick_pushable_run c s (Ha c))). rewrite E.
    rewrite bool_decide_true by done. exact Hnop.
Qed.

Lemma push_loop_step c n : forall s s',
  settled s -> curr_ok s -> push_rt_tasks_loop c n s = Done (tt, s') -> shifts s s'.
Proof.
  induction n as [|n IH]; intros s s' Hs Hc He; [done|]. cbn [push_rt_tasks_loop] in He.
  apply bind_inv in He as (b & s1 & H1 & H2).
  pose proof (wp_elim _ _ _ _ _ (push_rt_task_step c s Hs Hc) H1) as H. destruct b; [|by injection H2 as <-].
  etrans; [exact H|]. apply IH; [apply H|by apply H|done].
Qed.

Lemma push_rt_tasks_step c s :
  settled s -> curr_ok s -> wp (push_rt_tasks c) (fun _ => shifts s) s.
Proof.
  intros Hs Hc. unfold push_rt_tasks, get_rt. do 2 wstep.
  pose proof (push_loop_run c (S (length (pushable_tasks (rq_rt (rqs s c))))) s (settled_all_ok s Hs Hc)
                (settled_push_room c s Hs) ltac:(lia)) as H.
  apply wp_done in H as ([] & s' & He & _). apply (wp_intro _ _ _ _ _ He). by eapply push_loop_step.
Qed.
End Queuing.

(** ** Waking up *)

Section Waking.
Context `{Hfeat : SchedFeat} `{Hlim : Rlimits} `{Hpri : Cpupri} `{Htop : Topology}.
Context `{Hoth : OtherClasses} `{Henv : CoreEnv}.
Implicit Types (c i : cpu) (p x : task) (s : kstate) (on : task -> bool).

(** What waking [p] leaves of [p] itself. *)
Record same_sleeper (t t' : task_struct) : Prop := {
  sl_class : sched_class t' = sched_class t;
  sl_flags : flags t' = flags t;
  sl_on_cpu : on_cpu t' = on_cpu t;
  sl_policy : policy t' = policy t;
  sl_nr_cpus : nr_cpus_allowed t' = nr_cpus_allowed t;
  sl_cpus : cpus_allowed t' = cpus_allowed t
}.

(** What it leaves of the machine. *)
Record wakes (p : task) (s s' : kstate) : Prop := {
  wk_others : keep_but p s s';
  wk_task : same_sleeper (tasks s p) (tasks s' p);
  wk_curr : curr_ok s -> curr_ok s';
  wk_runs : curr_runs s -> curr_runs s';
  wk_remains : forall x, x <> p -> mine s x -> remains x s s'
}.

#[export] Instance wakes_preorder p : PreOrder (wakes p).
Proof.
  split; [split; try done; intros; by apply remains_same|].
  intros s1 s2 s3 [A1 [] A3 A4 A5] [B1 [] B3 B4 B5].
  split; [by etrans|split; congruence|auto..].
  intros x Hx Hm. assert (Hm2 : mine s2 x) by (unfold mine; by rewrite (kb_class _ _ _ A1)).
  apply (remains_trans x s1 s2 s3); [|by apply B1|by apply (kb_task _ _ _ B1)|by apply A5|by apply B5].
  unfold runnable, task_on_rq_queued. by rewrite (st_on_rq _ _ (kb_task _ _ _ A1 x Hx Hm)).
Qed.

Lemma curr_runs_keep s s' : keep s s' -> curr_runs s -> curr_runs s'.
Proof.
  intros Hk Hr c. rewrite (kp_curr _ _ Hk), (keep_mine _ _ _ Hk). intros Hm.
  rewrite (runnable_keep s s') by done. by apply Hr.
Qed.

Lemma keep_wakes p s s' :
  keep s s' -> mine s p -> (curr_ok s -> curr_ok s') -> (forall x, x <> p -> mine s x -> remains x s s') ->
  wakes p s s'.
Proof.
  intros Hk Hp Hc Hr. destruct (kp_task _ _ Hk p Hp).
  split; [by apply keep_keep_but| |done|by apply curr_runs_keep|exact Hr].
  split; [by apply kp_class|done..].
Qed.

(** [p] is on a machine where all is settled, and [on_rq] is [v]. *)
Definition stands (v : Z) p s : Prop := settled s /\ mine s p /\ on_rq (tasks s p) = v.

(** Stages of a wake-up that keep [on_rq]. *)
Definition stage v p s s' : Prop := stands v p s' /\ wakes p s s'.

Lemma stage_trans v w p s1 s2 s3 : stage v p s1 s2 -> stage w p s2 s3 -> stage w p s1 s3.
Proof. intros [_ A] [B C]. split; [done | by etrans]. Qed.

Lemma stage_refl v p s : stands v p s -> stage v p s s.
Proof. intros H. by split. Qed.

Lemma shifts_stage v p s s' : stands v p s -> shifts s s' -> stage v p s s'.
Proof.
  intros (H1 & H2 & H3) [(A1 & A2 & A3) A4]. split; [|apply keep_wakes; try done; by intros x _; apply A4].
  split; [done|]. split; [by apply (keep_mine s)|]. by rewrite (st_on_rq _ _ (kp_task _ _ A2 p H2)).
Qed.

Lemma calm_stage v p (m : K unit) s :
  total m -> frames calm m -> stands v p s -> wp m (fun _ => stage v p s) s.
Proof.
  intros Ht Hf Hs. eapply wp_mono; [by apply (wp_total calm)|].
  intros [] s' H. apply shifts_stage, calm_shifts; [done|apply Hs|done].
Qed.

(** A change of [p] that the classes do not look at. *)
Lemma set_task_stage v p f s :
  (forall t, quiet_task t (f t) /\ same_sleeper t (f t) /\ on_rq (f t) = on_rq t) -> stands v p s ->
  wp (set_task p f) (fun _ s' => stage v p s s' /\ tasks s' p = f (tasks s p)) s.
Proof.
  intros Hf (H1 & H2 & H3). eapply wp_intro; [reflexivity|]. set (s' := s <| tasks ::= alter f p |>).
  assert (E : tasks s' p = f (tasks s p)) by (simpl; by rewrite fn_lookup_alter).
  split; [|done]. destruct (Hf (tasks s p)) as (Hq & Hl & Ho). split; [split; [|split]|split].
  - apply (minv_ext (runnable s)).
    + intros x _. unfold runnable, task_on_rq_queued. simpl. f_equal. symmetry.
      by apply (alter_view on_rq f p); intros t; apply Hf.
    + eapply minv_quiet; [|exact H1]. eapply (set_task_quiet p f); [|reflexivity]. intros t. by apply Hf.
  - unfold mine in *. rewrite E. destruct Hq as [-> _ _ _ _ _ _]. exact H2.
  - rewrite E. congruence.
  - by eapply (set_task_keep_but p f).
  - by rewrite E.
  - assert (Hqq : quiet s s') by (eapply (set_task_quiet p f); [|reflexivity]; intros t; by apply Hf).
    intros [Hc Hr]. split; [by apply (curr_kept_quiet s); [apply Hqq|..]|].
    intros c Hm. simpl. rewrite (alter_view task_cpu) by (intros t; by destruct (Hf t) as ([] & _)). apply Hr.
    unfold mine in *. by rewrite <- (rq_class _ _ _ (proj1 Hqq) (curr (rqs s c))).
  - intros Hr c Hm. unfold runnable, task_on_rq_queued. simpl. rewrite (alter_view on_rq) by (intros t; apply Hf).
    apply Hr. unfold mine in *. simpl in Hm. rewrite (alter_view sched_class) in Hm; [done|].
    intros t. by destruct (Hf t) as ([] & _).
  - intros x _ _. apply remains_same. simpl. apply (alter_view task_cpu). intros t. by destruct (Hf t) as ([] & _).
Qed.

(** The wake lists are what they were. *)
Definition same_lists (s s' : kstate) : Prop := forall c, wake_list (rqs s' c) = wake_list (rqs s c).

#[export] Instance same_lists_preorder : PreOrder same_lists.
Proof. split; [done|]. intros s1 s2 s3 A B c. by rewrite B, A. Qed.

Lemma set_task_listed v p f s :
  (forall t, quiet_task t (f t) /\ same_sleeper t (f t) /\ on_rq (f t) = on_rq t) -> stands v p s ->
  wp (set_task p f) (fun _ s' => stage v p s s' /\ tasks s' p = f (tasks s p) /\ same_lists s s') s.
Proof.
  intros Hf Hs. pose proof (set_task_stage v p f s Hf Hs) as H. apply wp_done in H as ([] & s' & He & H1 & H2).
  apply (wp_intro _ _ _ _ _ He). split_and!; [done..|]. by injection He as <-.
Qed.

(** Queuing [p] and recording it. *)
Lemma activated_stage c p fl s :
  stands 0 p s -> task_cpu (tasks s p) = c -> move_entity fl = true ->
  wp (do! activate_task c p fl in set_task p (fun t => t <| on_rq := TASK_ON_RQ_QUEUED |>))
     (fun _ s' => stage TASK_ON_RQ_QUEUED p s s' /\ task_cpu (tasks s' p) = c /\
        state (tasks s' p) = state (tasks s p)) s.
Proof.
  intros (Hs & Hmi & Hon) Hcpu Hfl. wstep.
  assert (Hoff : runnable s p = false) by (unfold runnable, task_on_rq_queued; by rewrite Hon).
  pose proof (activate_task_step (runnable s) c p fl s Hs Hoff Hmi Hcpu Hfl) as W.
  apply wp_done in W as ([] & s1 & He & [H1 H2 H3] & Hc1). apply (wp_intro _ _ _ _ _ He).
  apply activate_task_cpu in He as C1; [|done].
  unfold set_task. wgo. set (f := fun t : task_struct => t <| on_rq := TASK_ON_RQ_QUEUED |>).
  assert (E : tasks (s1 <| tasks ::= alter f p |>) p = f (tasks s1 p)) by (simpl; by rewrite fn_lookup_alter).
  pose proof (kp_task _ _ H2 p Hmi) as Hk.
  split; [|by rewrite E; split; [|apply (st_state _ _ Hk)]]. split; [split; [|split]|split].
  - apply (minv_ext (<[p := true]> (runnable s))).
    + intros x [Hx|Hx]; destruct (decide (x = p)) as [->|Hne].
      all: rewrite ?fn_lookup_insert, ?fn_lookup_insert_ne by done.
      all: unfold runnable, task_on_rq_queued.
      all: simpl; rewrite ?fn_lookup_alter, ?fn_lookup_alter_ne by done; try done.
      all: simpl in Hx; rewrite fn_lookup_alter_ne in Hx by done.
      all: rewrite (st_on_rq _ _ (kp_task _ _ H2 x ltac:(unfold mine; rewrite <- (kp_class _ _ H2); tauto))); done.
    + eapply minv_quiet; [|exact H1]. by eapply (set_task_quiet p f).
  - unfold mine. rewrite E. simpl. rewrite (kp_class _ _ H2). exact Hmi.
  - by rewrite E.
  - etrans; [by apply keep_keep_but|]. by eapply (set_task_keep_but p f).
  - rewrite E. destruct Hk. split; try done. by apply kp_class.
  - intros [Hc Hr]%H3. split; [apply (curr_kept_quiet s1); [|done|exact Hc]|].
    { eapply (set_task_quiet p f); [|reflexivity]. intros t. by split. }
    intros i Hi. simpl. rewrite (alter_view task_cpu) by done. apply Hr. unfold mine in *. simpl in Hi.
    by rewrite (alter_view sched_class) in Hi by done.
  - intros Hr%(curr_runs_keep s s1 H2) i Hi. unfold runnable, task_on_rq_queued. simpl.
    destruct (decide (curr (rqs s1 i) = p)) as [->|Hne]; [by rewrite fn_lookup_alter|].
    rewrite fn_lookup_alter_ne by done. apply (Hr i). unfold mine in *. simpl in Hi.
    by rewrite (alter_view sched_class) in Hi by done.
  - intros x Hx _. apply remains_same. simpl. rewrite fn_lookup_alter_ne by done. apply C1.
Qed.

Lemma ttwu_activate_stage c p fl s :
  stands 0 p s -> task_cpu (tasks s p) = c -> move_entity fl = true ->
  has (flags (tasks s p)) PF_WQ_WORKER = false ->
  wp (ttwu_activate c p fl) (fun _ s' => stage TASK_ON_RQ_QUEUED p s s' /\ task_cpu (tasks s' p) = c) s.
Proof.
  intros Hs Hcpu Hfl Hwq. unfold ttwu_activate.
  pose proof (activated_stage c p fl s Hs Hcpu Hfl) as H. apply wp_done in H as ([] & s' & He & H1 & H2 & _).
  apply bind_inv in He as ([] & s1 & E1 & E2). wstep. apply (wp_intro _ _ _ _ _ E1). wstep.
  apply (wp_intro _ _ _ _ _ E2). unfold get_task. do 2 wstep.
  rewrite (sl_flags _ _ (wk_task _ _ _ (proj2 H1))), Hwq. by cbn [when].
Qed.

Lemma stands_runnable p s : stands TASK_ON_RQ_QUEUED p s -> runnable s p = true.
Proof. intros (_ & _ & H). unfold runnable, task_on_rq_queued. by rewrite H. Qed.

Lemma settles_state s s' p : settles s s' -> mine s p -> state (tasks s' p) = state (tasks s p).
Proof. intros (_ & Hk & _) Hp. apply (kp_task _ _ Hk p Hp). Qed.

Lemma task_woken_shifts c p s :
  stands TASK_ON_RQ_QUEUED p s -> curr_ok s ->
  wp (call_if (m_task_woken (class_of (sched_class (tasks s p)))) (fun m => m c p)) (fun _ => shifts s) s.
Proof.
  intros (Hs & Hmi & _) Hc. pose proof (shifts_refl s Hs).
  destruct Hmi as [-> | ->]; cbn [class_of m_task_woken rt_class ts_class call_if]; [|done].
  unfold task_woken_rt. wgo. cbv zeta. wstep; [by apply push_rt_tasks_step | done].
Qed.

(** Where [p] is, after a further step with [p] on the queue. *)
Lemma placed_shifts c p s s' :
  stands TASK_ON_RQ_QUEUED p s -> placed c s p -> shifts s s' -> placed c s' p.
Proof.
  intros Hs Hp [(_ & Hk & _) Hr]. specialize (Hr p ltac:(apply Hs)). unfold remains in Hr.
  rewrite (stands_runnable p s Hs) in Hr. apply (placed_more c s s'); [apply Hk| |done|done].
  apply (kp_task _ _ Hk p), Hs.
Qed.

Lemma ttwu_do_wakeup_stage c p fl s :
  stands TASK_ON_RQ_QUEUED p s -> curr_ok s -> task_cpu (tasks s p) = c ->
  wp (ttwu_do_wakeup c p fl) (fun _ s' => stage TASK_ON_RQ_QUEUED p s s' /\
    state (tasks s' p) = TASK_RUNNING /\ placed c s' p) s.
Proof.
  intros Hs Hck Hcpu. pose proof (stands_runnable p s Hs) as Hon. unfold ttwu_do_wakeup. wstep.
  eapply wp_mono; [apply (check_preempt_step (runnable s)); [apply Hs|done|apply Hs|done]|].
  intros [] s1 [T1 C1]. pose proof (step_shifts _ _ T1 C1) as H1.
  pose proof (shifts_stage _ _ _ _ Hs H1) as G1. wstep.
  wcall (set_task_stage TASK_ON_RQ_QUEUED); [|apply G1|].
  { intros t. split; [by split|split; [by split|done]]. }
  intros [] s2 [G2 E2]. pose proof (stage_trans _ _ _ _ _ _ G1 G2) as G12. unfold task_class, get_task. wgo.
  assert (P2 : placed c s2 p) by (left; rewrite E2; simpl; by rewrite C1 by apply Hs).
  wcall (task_woken_shifts c); [apply G12|by apply (wk_curr _ _ _ (proj2 G12))|]. intros [] s3 H3.
  pose proof (placed_shifts _ _ _ _ (proj1 G12) P2 H3) as P3.
  pose proof (shifts_stage _ _ _ _ (proj1 G12) H3) as G3. pose proof (stage_trans _ _ _ _ _ _ G12 G3) as G13.
  eapply wp_mono; [apply (wp_total calm); [total_tac|apply frames_calm; frames_tac]|].
  intros [] s4 H4%(calm_shifts _ _ (proj1 (proj1 G13))). split_and!.
  - eapply stage_trans; [exact G13|]. apply shifts_stage; [apply G13|done].
  - rewrite (settles_state _ _ p (proj1 H4)) by apply G13.
    rewrite (settles_state _ _ p (proj1 H3)) by apply G12. by rewrite E2.
  - by apply (placed_shifts c p s3); [apply G13|..].
Qed.

(** ** Choosing a CPU *)

Lemma select_fallback_allowed c p s :
  (forall i, i ∈ active_cpus s -> i ∈ online_cpus s) -> (exists i, is_cpu_allowed s p i = true) ->
  exists i, select_fallback_rq c p s = Done (i, s) /\ is_cpu_allowed s p i = true.
Proof.
  intros Hact [j Hj]. unfold select_fallback_rq. rewrite bind_gets.
  set (node := if negb (cpu_to_node c =? -1) then _ else []).
  destruct node as [|i l] eqn:E.
  - set (ws := match cpuset_cpus_allowed_fallback with Some m => _ | None => _ end).
    assert (H : exists i, fallback_loop p ws s = Done (i, s) /\ is_cpu_allowed s p i = true).
    { assert (Hin : j ∈ filter (fun c => is_cpu_allowed s p c = true) (cpus_allowed (tasks s p))).
      { apply list_elem_of_filter. split; [done|]. unfold is_cpu_allowed in Hj.
        apply andb_true_iff in Hj as [Hj _]. by apply bool_decide_eq_true in Hj. }
      destruct (filter (fun c => is_cpu_allowed s p c = true) (cpus_allowed (tasks s p)))
        as [|i l] eqn:Ef; [by apply not_elem_of_nil in Hin|].
      exists i. split; [destruct ws; cbn [fallback_loop]; rewrite bind_gets, Ef; reflexivity|].
      assert (Hi : i ∈ filter (fun c => is_cpu_allowed s p c = true) (cpus_allowed (tasks s p)))
        by (rewrite Ef; by left). by apply list_elem_of_filter in Hi as [? _]. }
    exact H.
  - exists i. split; [reflexivity|].
    assert (Hi : i ∈ node) by (rewrite E; by left). unfold node in Hi.
    destruct (negb _); [|by apply not_elem_of_nil in Hi].
    apply list_elem_of_filter in Hi as [[H1 H2] _]. unfold is_cpu_allowed. cbv zeta. rewrite H2.
    destruct (is_per_cpu_kthread _); [|done]. apply bool_decide_eq_true in H1. apply bool_decide_eq_true. auto.
Qed.

Lemma class_select_same p c sd fl s :
  mine s p -> exists i, m_select_task_rq (class_of (sched_class (tasks s p))) p c sd fl s = Done (i, s).
Proof.
  intros [-> | ->]; cbn [class_of m_select_task_rq rt_class ts_class]; [|by eexists].
  unfold select_task_rq_rt. destruct (_ && _); [by eexists|]. rewrite bind_gets.
  destruct (_ && _); [|by eexists]. destruct (find_lowest_rq_run p s) as [o Ho].
  unfold bind at 1. rewrite Ho, bind_gets. destruct o as [i|]; [|by eexists]. destruct (_ <? _); by eexists.
Qed.

(** A CPU that [p] may use is chosen, whatever the class proposes. *)
Lemma select_task_rq_run p c sd fl s :
  mine s p -> (forall i, i ∈ active_cpus s -> i ∈ online_cpus s) -> (exists i, is_cpu_allowed s p i = true) ->
  exists i, select_task_rq p c sd fl s = Done (i, s) /\ is_cpu_allowed s p i = true.
Proof.
  intros Hmi Hact Hal. unfold select_task_rq. unfold get_task at 1. rewrite bind_gets.
  assert (H : exists j, (if 1 <? nr_cpus_allowed (tasks s p)
    then let! k := task_class p in m_select_task_rq k p c sd fl
    else ret (cpumask_any (cpus_allowed (tasks s p)))) s = Done (j, s)).
  { destruct (1 <? _); [|by eexists]. unfold task_class, get_task. destruct (class_select_same p c sd fl s Hmi) as [j Hj]. exists j. exact Hj. }
  destruct H as [j Hj]. unfold bind at 1. rewrite Hj, bind_gets.
  destruct (is_cpu_allowed s p j) eqn:E; [by exists j|]. by apply select_fallback_allowed.
Qed.

(** ** The whole of it *)

Lemma stage_wq v p s s' : stage v p s s' -> flags (tasks s' p) = flags (tasks s p).
Proof. intros [_ [_ H _]]. apply H. Qed.

Lemma ttwu_do_activate_stage c p fl s :
  stands 0 p s -> curr_ok s -> task_cpu (tasks s p) = c -> has (flags (tasks s p)) PF_WQ_WORKER = false ->
  wp (ttwu_do_activate c p fl) (fun _ s' => stage TASK_ON_RQ_QUEUED p s s' /\
    state (tasks s' p) = TASK_RUNNING /\ placed c s' p) s.
Proof.
  intros Hs Hck Hcpu Hwq. unfold ttwu_do_activate, get_task. do 2 wstep. wstep.
  eapply wp_mono; [apply (wp_total calm); [total_tac|apply frames_calm; frames_tac]|]. intros [] s1 H1.
  assert (G1 : stage 0 p s s1) by (apply shifts_stage; [done|]; apply calm_shifts; [apply Hs|done]).
  cbv zeta. wstep. wcall (ttwu_activate_stage c); [apply G1|by rewrite (calm_cpu _ _ p H1) by apply Hs| | |].
  { by destruct (has fl WF_MIGRATED). }
  { by rewrite (stage_wq _ _ _ _ G1). }
  intros [] s2 [G2 E2]. pose proof (stage_trans _ _ _ _ _ _ G1 G2) as G12.
  wcall (ttwu_do_wakeup_stage c); [apply G2|by apply (wk_curr _ _ _ (proj2 G12))|done|].
  intros [] s3 (G3 & E3). split; [|done]. by eapply stage_trans.
Qed.

(** With [TTWU_QUEUE], a CPU that shares no cache with this one is left to queue
    the task itself: [p] is put on its wake list. *)
Definition queues_remotely s c : bool := sched_feat TTWU_QUEUE && negb (cpus_share_cache (this_cpu s) c).

(** What becomes of a sleeping task [p] once CPU [c] has been chosen. *)
Definition sent (c : cpu) p s s' : Prop :=
  if queues_remotely s c then
    stage 0 p s s' /\ state (tasks s' p) = state (tasks s p) /\ task_cpu (tasks s' p) = c /\
    wake_list (rqs s' c) = p :: wake_list (rqs s c)
  else stage TASK_ON_RQ_QUEUED p s s' /\ state (tasks s' p) = TASK_RUNNING /\ placed c s' p.

Lemma set_task_lists p f : frames same_lists (set_task p f).
Proof. by apply frames_modify. Qed.

Lemma set_rq_lists c f : (forall r, wake_list (f r) = wake_list r) -> frames same_lists (set_rq c f).
Proof.
  intros Hf. apply frames_modify. intros s i. simpl.
  destruct (decide (c = i)) as [->|Hi]; [by rewrite fn_lookup_alter|by rewrite fn_lookup_alter_ne].
Qed.
#[local] Hint Resolve set_task_lists : frames.
#[local] Hint Extern 1 (frames same_lists (set_rq _ _)) => apply set_rq_lists; intros; reflexivity : frames.

Lemma set_nr_if_polling_lists x : frames same_lists (set_nr_if_polling x).
Proof. unfold set_nr_if_polling. frames_tac. Qed.

Lemma smp_send_reschedule_lists c : frames same_lists (smp_send_reschedule c).
Proof. by apply frames_modify. Qed.
#[local] Hint Resolve set_nr_if_polling_lists smp_send_reschedule_lists : frames.

Lemma set_task_cpu_lists p i s s' : mine s p -> set_task_cpu p i s = Done (tt, s') -> same_lists s s'.
Proof.
  intros Hm He. unfold set_task_cpu, get_task in He. rewrite bind_gets in He.
  assert (E : class_migrate (sched_class (tasks s p)) = None) by (by destruct Hm as [-> | ->]).
  rewrite E in He. cbn [call_if] in He. revert He. apply frames_bind; [exact _| |]; intros; frames_tac.
Qed.

Lemma ttwu_queue_remote_stage p c fl s :
  stands 0 p s -> wp (ttwu_queue_remote p c fl) (fun _ s' => stage 0 p s s' /\
    state (tasks s' p) = state (tasks s p) /\ task_cpu (tasks s' p) = task_cpu (tasks s p) /\
    wake_list (rqs s' c) = p :: wake_list (rqs s c)) s.
Proof.
  intros Hs. unfold ttwu_queue_remote, get_rq. wstep.
  wcall (set_task_listed 0); [|exact Hs|]. { intros t. split; [by split|split; [by split|done]]. }
  intros [] s1 (G1 & E1 & L1). do 3 wstep. eapply wp_intro; [reflexivity|].
  set (s2 := s1 <| rqs ::= alter _ c |>).
  assert (K2 : calm s1 s2) by (eapply (frames_calm (set_rq c (fun r => r <| wake_list ::= cons p |>))); [frames_tac|frames_tac|reflexivity]).
  assert (L2 : wake_list (rqs s2 c) = p :: wake_list (rqs s c)).
  { unfold s2. simpl. rewrite fn_lookup_alter. simpl. by rewrite L1. }
  pose proof (calm_shifts _ _ (proj1 (proj1 G1)) K2) as H2.
  pose proof (stage_trans _ _ _ _ _ _ G1 (shifts_stage _ _ _ _ (proj1 G1) H2)) as G2.
  eapply wp_mono; [apply (wp_frames same_lists); [by destruct (wake_list _); frames_tac|]|].
  { apply (wp_total calm); [destruct (wake_list _); total_tac|].
    destruct (wake_list _); apply frames_calm; frames_tac. }
  intros [] s3 [K3 L3]. pose proof (calm_shifts _ _ (proj1 (proj1 G2)) K3) as H3.
  pose proof (stage_trans _ _ _ _ _ _ G2 (shifts_stage _ _ _ _ (proj1 G2) H3)) as G3.
  split_and!; [done| | |by rewrite L3].
  - rewrite (settles_state _ _ p (proj1 H3)) by apply G2. rewrite (settles_state _ _ p (proj1 H2)) by apply G1.
    by rewrite E1.
  - rewrite (calm_cpu _ _ p K3) by apply G2. rewrite (calm_cpu _ _ p K2) by apply G1. by rewrite E1.
Qed.

Lemma ttwu_queue_sends c p fl s :
  stands 0 p s -> curr_ok s -> task_cpu (tasks s p) = c -> has (flags (tasks s p)) PF_WQ_WORKER = false ->
  wp (ttwu_queue p c fl) (fun _ s' => sent c p s s') s.
Proof.
  intros Hs Hck Hcpu Hwq. unfold ttwu_queue, sent. do 2 wstep. fold (queues_remotely s c).
  destruct (queues_remotely s c).
  { eapply wp_mono; [by apply ttwu_queue_remote_stage|]. intros [] s' (? & ? & ? & ?). by rewrite <- Hcpu at 1. }
  wstep. eapply wp_mono; [apply (wp_total calm); [apply update_rq_clock_total|apply update_rq_clock_calm]|].
  intros [] s1 H1.
  assert (G1 : stage 0 p s s1) by (apply shifts_stage; [done|]; apply calm_shifts; [apply Hs|done]).
  wcall (ttwu_do_activate_stage c); [apply G1|by apply (wk_curr _ _ _ (proj2 G1))| | |].
  { by rewrite (calm_cpu _ _ p H1) by apply Hs. }
  { by rewrite (stage_wq _ _ _ _ G1). }
  intros [] s2 (G2 & E2). split; [|done]. by eapply stage_trans.
Qed.

(** The task has been given another CPU. *)
Lemma moved_stage p s s' :
  stands 0 p s -> step_to (runnable s) s s' -> cpu_but p s s' -> stage 0 p s s'.
Proof.
  intros (Hs & Hmi & H0) H1 O1. pose proof (step_settles _ _ H1) as (A1 & A2 & A3). split.
  - split; [done|]. split; [by apply (keep_mine s)|]. by rewrite (st_on_rq _ _ (kp_task _ _ A2 p Hmi)).
  - apply keep_wakes; try done. intros x Hx _. by apply remains_same, O1.
Qed.

Lemma sent_before c p s s1 s2 :
  stage 0 p s s1 -> state (tasks s1 p) = state (tasks s p) -> wake_list (rqs s1 c) = wake_list (rqs s c) ->
  sent c p s1 s2 -> sent c p s s2.
Proof.
  intros G1 E L. unfold sent, queues_remotely. rewrite (kb_this _ _ _ (wk_others _ _ _ (proj2 G1))).
  destruct (_ && _); intros (G2 & E2 & H2); (split; [by eapply stage_trans|]); [|done].
  by rewrite E2, <- L, E.
Qed.

(** The same, for the whole of the wake-up: until the other CPU looks at its
    list, [p] is in the state [TASK_WAKING], and on no queue. *)
Definition woken_on (c : cpu) p s s' : Prop :=
  if queues_remotely s c then
    stage 0 p s s' /\ state (tasks s' p) = TASK_WAKING /\ task_cpu (tasks s' p) = c /\
    wake_list (rqs s' c) = p :: wake_list (rqs s c)
  else stage TASK_ON_RQ_QUEUED p s s' /\ state (tasks s' p) = TASK_RUNNING /\ placed c s' p.

Lemma sent_woken c p s s1 s2 :
  stage 0 p s s1 -> state (tasks s1 p) = TASK_WAKING -> same_lists s s1 -> sent c p s1 s2 -> woken_on c p s s2.
Proof.
  intros G1 E L. unfold woken_on, sent, queues_remotely. rewrite (kb_this _ _ _ (wk_others _ _ _ (proj2 G1))).
  destruct (_ && _); intros (G2 & E2 & H2); (split; [by eapply stage_trans|]); [|done].
  by rewrite E2, <- L, E.
Qed.

(** A task that can be woken: it sleeps, and has been switched out, or it is
    still runnable; and there is a CPU for it. *)
Record wakeable p s : Prop := {
  wa_mine : mine s p;
  wa_on_rq : on_rq (tasks s p) = 0 /\ on_cpu (tasks s p) = 0 \/ on_rq (tasks s p) = TASK_ON_RQ_QUEUED;
  wa_worker : has (flags (tasks s p)) PF_WQ_WORKER = false;
  wa_active : forall i, i ∈ active_cpus s -> i ∈ online_cpus s;
  wa_cpu : exists i, is_cpu_allowed s p i = true
}.

Lemma wakes_allowed p s s' i : wakes p s s' -> is_cpu_allowed s' p i = is_cpu_allowed s p i.
Proof.
  intros [Hk [_ Hf _ _ Hn Hc] _ _ _]. unfold is_cpu_allowed, is_per_cpu_kthread.
  by rewrite Hf, Hn, Hc, (kb_online _ _ _ Hk), (kb_active _ _ _ Hk).
Qed.

Lemma sleeper_not_curr p s j : stands 0 p s -> curr_runs s -> curr (rqs s j) <> p.
Proof.
  intros (_ & Hm & H0) Hr E. pose proof (Hr j ltac:(by rewrite E)) as H.
  unfold runnable, task_on_rq_queued in H. by rewrite E, H0 in H.
Qed.

(** From the choice of a CPU on. *)
Lemma wake_on_cpu p w fl s :
  stands 0 p s -> curr_ok s -> curr_runs s -> has (flags (tasks s p)) PF_WQ_WORKER = false ->
  (forall i, i ∈ active_cpus s -> i ∈ online_cpus s) -> (exists i, is_cpu_allowed s p i = true) ->
  wp (let! c := select_task_rq p w SD_BALANCE_WAKE fl in
      let! t := get_task p in
      if negb (task_cpu t =? c) then
        do! set_task_cpu p c in do! ttwu_queue p c (Z.lor fl WF_MIGRATED) in ret 1
      else do! ttwu_queue p c fl in ret 1)
     (fun r s' => r = 1 /\ exists c, is_cpu_allowed s p c = true /\ sent c p s s') s.
Proof.
  intros Hs Hck Hcr Hwq Hact Hal. unfold get_task. wstep.
  destruct (select_task_rq_run p w SD_BALANCE_WAKE fl s (proj1 (proj2 Hs)) Hact Hal)
    as (c & He & Hc). apply (wp_intro _ _ _ _ _ He). wgo. destruct (Z.eqb_spec (task_cpu (tasks s p)) c) as [Ec|Hne].
  - cbn [negb]. wstep. wcall (ttwu_queue_sends c); [done..|]. intros [] s1 H1. wgo. split; [done|]. by exists c.
  - cbn [negb]. wstep. assert (Hoff : runnable s p = false).
    { unfold runnable, task_on_rq_queued. by rewrite (proj2 (proj2 Hs)). }
    pose proof (set_task_cpu_step (runnable s) p c s (proj1 Hs) Hoff (proj1 (proj2 Hs))
      ltac:(intros j; by apply sleeper_not_curr)) as W.
    apply wp_done in W as ([] & s1 & He1 & H1 & E1). apply (wp_intro _ _ _ _ _ He1).
    pose proof (set_task_cpu_others _ _ _ _ (proj1 (proj2 Hs)) He1) as O1.
    pose proof (set_task_cpu_lists _ _ _ _ (proj1 (proj2 Hs)) He1) as L1.
    pose proof (moved_stage _ _ _ Hs H1 O1) as G1. wstep.
    wcall (ttwu_queue_sends c); [apply G1|by apply (wk_curr _ _ _ (proj2 G1))|done| |].
    { by rewrite (stage_wq _ _ _ _ G1). }
    intros [] s2 H2. wgo. split; [done|]. exists c. split; [done|]. apply (sent_before c p s s1); [done| |done|done].
    apply (kp_task _ _ (sp_keep _ _ _ H1) p), Hs.
Qed.

Lemma wake_sleeper p w fl (io : bool) c0 s :
  stands 0 p s -> curr_ok s -> curr_runs s -> has (flags (tasks s p)) PF_WQ_WORKER = false ->
  (forall i, i ∈ active_cpus s -> i ∈ online_cpus s) -> (exists i, is_cpu_allowed s p i = true) ->
  wp (do! set_task p (fun t => t <| sched_contributes_to_load := b2z (task_contributes_to_load t) |>) in
      do! set_task p (fun t => t <| state := TASK_WAKING |>) in
      do! when io (set_rq c0 (fun r => r <| nr_iowait ::= fun n => s32 (n - 1) |>)) in
      let! c := select_task_rq p w SD_BALANCE_WAKE fl in
      let! t := get_task p in
      if negb (task_cpu t =? c) then
        do! set_task_cpu p c in do! ttwu_queue p c (Z.lor fl WF_MIGRATED) in ret 1
      else do! ttwu_queue p c fl in ret 1)
     (fun r s' => r = 1 /\ exists c, is_cpu_allowed s p c = true /\ woken_on c p s s') s.
Proof.
  intros Hs Hck Hcr Hwq Hact Hal. wstep. wcall (set_task_listed 0); [|exact Hs|].
  { intros t. split; [by split|split; [by split|done]]. }
  intros [] s1 (H1 & _ & L1). wstep. wcall (set_task_listed 0); [|apply H1|].
  { intros t. split; [by split|split; [by split|done]]. }
  intros [] s2 (H2 & E2 & L2). pose proof (stage_trans _ _ _ _ _ _ H1 H2) as H12. wstep.
  eapply wp_mono; [apply (wp_frames same_lists); [frames_tac|]|].
  { apply (wp_total calm); [total_tac|apply frames_calm; frames_tac]. }
  intros [] s3 [K3 L3]. pose proof (calm_shifts _ _ (proj1 (proj1 H12)) K3) as H3.
  pose proof (stage_trans _ _ _ _ _ _ H12 (shifts_stage _ _ _ _ (proj1 H12) H3)) as H13.
  eapply wp_mono; [apply wake_on_cpu|].
  - apply H13.
  - by apply (wk_curr _ _ _ (proj2 H13)).
  - by apply (wk_runs _ _ _ (proj2 H13)).
  - by rewrite (stage_wq 0 p s) by done.
  - rewrite (kb_active _ _ _ (wk_others _ _ _ (proj2 H13))), (kb_online _ _ _ (wk_others _ _ _ (proj2 H13))). exact Hact.
  - destruct Hal as [i Hi]. exists i. rewrite (wakes_allowed p s); [done|apply H13].
  - intros r s4 (-> & c & Hc & H4). split; [done|]. exists c. rewrite <- (wakes_allowed p s s3) by apply H13.
    split; [done|]. apply (sent_woken c p s s3 s4); [done| |by do 2 (etrans; [eassumption|])|done].
    rewrite (settles_state _ _ p (proj1 H3)) by apply H12. by rewrite E2.
Qed.

Lemma wake_runnable p fl s :
  stands TASK_ON_RQ_QUEUED p s -> curr_ok s ->
  wp (ttwu_remote p fl) (fun r s' => r = true /\ stage TASK_ON_RQ_QUEUED p s s' /\
    state (tasks s' p) = TASK_RUNNING /\ placed (task_cpu (tasks s p)) s' p) s.
Proof.
  intros Hs Hck. unfold ttwu_remote, get_task. do 2 wstep.
  pose proof (stands_runnable p s Hs) as Hr. unfold runnable in Hr. rewrite Hr. wstep.
  eapply wp_mono; [apply (wp_total calm); [apply update_rq_clock_total|apply update_rq_clock_calm]|].
  intros [] s1 H1. wstep.
  assert (G1 : stage TASK_ON_RQ_QUEUED p s s1) by (apply shifts_stage; [done|]; apply calm_shifts; [apply Hs|done]).
  wcall (ttwu_do_wakeup_stage (task_cpu (tasks s p))); [apply G1|by apply (wk_curr _ _ _ (proj2 G1))| |].
  { apply (calm_cpu _ _ p H1), Hs. }
  intros [] s2 (G2 & E2). wgo. split; [done|]. split; [|done]. by eapply stage_trans.
Qed.

(** A task in a state asked for is woken where it is queued, or on a CPU that it
    may use. *)
Lemma try_to_wake_up_wakes p st fl s :
  settled s -> curr_ok s -> curr_runs s -> wakeable p s -> has (state (tasks s p)) st = true ->
  wp (try_to_wake_up p st fl) (fun r s' => r = 1 /\
    if runnable s p then stage TASK_ON_RQ_QUEUED p s s' /\ state (tasks s' p) = TASK_RUNNING /\
      placed (task_cpu (tasks s p)) s' p
    else exists c, is_cpu_allowed s p c = true /\ woken_on c p s s') s.
Proof.
  intros Hs Hck Hcr [Hmi Hon Hwq Hact Hal] Hst. unfold try_to_wake_up, runnable, task_on_rq_queued.
  unfold get_task at 1. do 2 wstep.
  rewrite Hst. cbn [negb]. wstep. destruct Hon as [[Hon Hcpu]|Hon]; rewrite Hon; cbn [Z.eqb negb].
  - wgo. unfold get_task at 1. do 2 wstep. rewrite Hcpu. cbn [Z.eqb negb]. by apply wake_sleeper.
  - wcall wake_runnable; [done|done|]. intros r s1 (-> & H1 & E1). by wgo.
Qed.

(** The wake-up is done by the CPU that runs it. *)
Definition wakes_locally s : Prop :=
  sched_feat TTWU_QUEUE = false \/ forall i, cpus_share_cache (this_cpu s) i = true.

Lemma wakes_local p s s' : wakes p s s' -> wakes_locally s -> wakes_locally s'.
Proof. intros [Hk _ _ _ _]. unfold wakes_locally. by rewrite (kb_this _ _ _ Hk). Qed.

Lemma try_to_wake_up_run p st fl s :
  settled s -> curr_ok s -> curr_runs s -> wakeable p s -> wakes_locally s -> has (state (tasks s p)) st = true ->
  wp (try_to_wake_up p st fl) (fun r s' => r = 1 /\ stage TASK_ON_RQ_QUEUED p s s' /\
    state (tasks s' p) = TASK_RUNNING) s.
Proof.
  intros Hs Hck Hcr Hw Hl Hst. eapply wp_mono; [by apply try_to_wake_up_wakes|].
  intros r s' [-> H]. split; [done|]. destruct (runnable s p); [by destruct H as (? & ? & _)|].
  destruct H as (c & _ & H). unfold woken_on in H.
  assert (E : queues_remotely s c = false) by (unfold queues_remotely; destruct Hl as [-> | ->]; [done|apply andb_false_r]).
  rewrite E in H. by destruct H as (? & ? & _).
Qed.

(** A task just forked is put on a CPU that it may use. *)
Lemma wake_new_run p s :
  stands 0 p s -> curr_ok s -> (forall j, curr (rqs s j) <> p) ->
  (forall i, i ∈ active_cpus s -> i ∈ online_cpus s) -> (exists i, is_cpu_allowed s p i = true) ->
  wp (wake_up_new_task p) (fun _ s' => stage TASK_ON_RQ_QUEUED p s s' /\ state (tasks s' p) = TASK_RUNNING) s.
Proof.
  intros Hs Hck Hnc Hact Hal. unfold wake_up_new_task. wstep.
  wcall (set_task_stage 0); [|exact Hs|]. { intros t. split; [by split|split; [by split|done]]. }
  intros [] s1 [H1 E1]. wstep.
  wcall (set_task_stage 0); [|apply H1|]. { intros t. split; [by split|split; [by split|done]]. }
  intros [] s2 [H2 E2]. pose proof (stage_trans _ _ _ _ _ _ H1 H2) as [S2 W2]. pose proof (wk_others _ _ _ W2) as K2.
  assert (Hst : state (tasks s2 p) = TASK_RUNNING) by by rewrite E2; simpl; rewrite E1.
  unfold get_task. do 3 wstep.
  destruct (select_task_rq_run p (task_cpu (tasks s2 p)) SD_BALANCE_FORK 0 s2) as (c & He & _).
  { apply S2. } { by rewrite (kb_active _ _ _ K2), (kb_online _ _ _ K2). }
  { destruct Hal as [i Hi]. exists i. by rewrite (wakes_allowed p s). }
  apply (wp_intro _ _ _ _ _ He). unfold __set_task_cpu. do 2 wstep.
  assert (Hoff : runnable s2 p = false) by (unfold runnable, task_on_rq_queued; by rewrite (proj2 (proj2 S2))).
  assert (Hnc2 : forall j, curr (rqs s2 j) <> p) by (intros j; by rewrite (kb_curr _ _ _ K2)).
  wcall (set_task_but (runnable s2)); [apply S2|done..|]. intros [] s3 (H3 & E3 & O3).
  wcall (set_task_but (runnable s2)); [apply H3|done| |done|].
  { intros j. by rewrite (kp_curr _ _ (sp_keep _ _ _ H3)). }
  intros [] s4 (H4 & E4 & O4). pose proof (step_to_trans _ _ _ _ _ H3 H4) as H24.
  assert (O24 : cpu_but p s2 s4) by (by etrans).
  pose proof (stage_trans _ _ _ _ _ _ (conj S2 W2) (moved_stage _ _ _ S2 H24 O24)) as G4.
  assert (Hc4 : task_cpu (tasks s4 p) = c) by by rewrite E4; simpl; rewrite E3. wstep.
  eapply wp_mono; [apply (wp_total calm); [apply update_rq_clock_total|apply update_rq_clock_calm]|].
  intros [] s5 K5. assert (H45 : shifts s4 s5) by (apply calm_shifts; [apply G4|done]).
  pose proof (stage_trans _ _ _ _ _ _ G4 (shifts_stage _ _ _ _ (proj1 G4) H45)) as G5.
  assert (Hc5 : task_cpu (tasks s5 p) = c) by (rewrite (calm_cpu s4 s5); [done..|apply G4]).
  apply wp_reassoc. wstep. wcall (activated_stage c); [apply G5|done|done|].
  intros [] s6 (H6 & Hc6 & St6). pose proof (stage_trans _ _ _ _ _ _ G5 H6) as G6. wstep.
  eapply wp_mono; [apply (check_preempt_step (runnable s6)); [apply G6|by apply stands_runnable, G6|apply G6|done]|].
  intros [] s7 [T7 C7]. pose proof (step_shifts _ _ T7 C7) as H7.
  pose proof (shifts_stage _ _ _ _ (proj1 G6) H7) as G67.
  pose proof (stage_trans _ _ _ _ _ _ G6 G67) as G7. unfold task_class, get_task. wgo.
  wcall (task_woken_shifts c); [apply G7|by apply (wk_curr _ _ _ (proj2 G7))|]. intros [] s8 H8.
  split; [eapply stage_trans; [exact G7|by apply shifts_stage; [apply G7|]]|].
  rewrite (settles_state _ _ p (proj1 H8)), (settles_state _ _ p (proj1 H7)), St6, (settles_state _ _ p (proj1 H45)).
  { by rewrite (settles_state s2 s4 p (step_settles _ _ H24) (proj1 (proj2 S2))). }
  all: first [apply G4|apply G6|apply G7].
Qed.

(** On which CPUs' queues a task is. *)
Definition on_queue (s : kstate) (p : task) (c : cpu) : Prop := rt_task_queued c s p \/ ts_queued c s p.

Lemma stands_queued p s c :
  stands TASK_ON_RQ_QUEUED p s -> on_queue s p c <-> c = task_cpu (tasks s p).
Proof.
  intros H. pose proof (stands_runnable p s H) as Hr. destruct H as ([H1 H2] & Hmi & _).
  unfold on_queue. rewrite (rp_link _ _ H1), (tp_link _ _ H2), Hr. destruct Hmi as [-> | ->]; naive_solver.
Qed.

(** [cpupri_find] intersects its answer with the CPUs of the task. *)
Definition cpupri_within : Prop := forall s x c, c ∈ cpupri_find s x -> c ∈ cpus_allowed (tasks s x).

(** [x] is on CPU [c], or it is real-time and has been pushed to another one that
    it may use. *)
Definition located (c : cpu) s x : Prop :=
  task_cpu (tasks s x) = c \/
  sched_class (tasks s x) = rt_sched_class /\ task_cpu (tasks s x) ∈ cpus_allowed (tasks s x).

Lemma placed_located c s x : cpupri_within -> placed c s x -> located c s x.
Proof. intros Hw [H|(Hc & s1 & E & H)]; [by left|right]. split; [done|]. rewrite <- E. by apply Hw. Qed.

(** The task that has been woken on CPU [c]: queued once, there. *)
Definition queued_on (c : cpu) p s : Prop :=
  state (tasks s p) = TASK_RUNNING /\ on_rq (tasks s p) = TASK_ON_RQ_QUEUED /\
  (forall i, on_queue s p i <-> i = task_cpu (tasks s p)) /\ located c s p.

(** The task that is left to CPU [c]: on its wake list, and on no queue. *)
Definition waits_for (c : cpu) p s s' : Prop :=
  state (tasks s' p) = TASK_WAKING /\ on_rq (tasks s' p) = 0 /\ task_cpu (tasks s' p) = c /\
  wake_list (rqs s' c) = p :: wake_list (rqs s c) /\ forall i, ~ on_queue s' p i.

Lemma stands_off p s i : stands 0 p s -> ~ on_queue s p i.
Proof.
  intros ([H1 H2] & _ & H0). unfold on_queue. rewrite (rp_link _ _ H1), (tp_link _ _ H2).
  unfold runnable, task_on_rq_queued. rewrite H0. naive_solver.
Qed.

Lemma stage_queued_on c p s s' :
  cpupri_within -> stage TASK_ON_RQ_QUEUED p s s' -> state (tasks s' p) = TASK_RUNNING -> placed c s' p -> queued_on c p s'.
Proof.
  intros Hw [Hs _] E Hp. split_and!; [done|apply Hs|intros i; by apply stands_queued|by apply placed_located].
Qed.

(** C3: [try_to_wake_up]: a task that is not in one of the states asked for is
    left alone, and the result is 0.  Otherwise the result is 1.  A task that is
    still queued stays on its CPU; for one that sleeps a CPU is chosen that it
    may use, whatever its class proposed.  The task is then running and on the
    queue of that CPU and of no other, or, if it is real-time, of one in its mask
    to which it was pushed at once; or else the CPU shares no cache with this
    one, and the task is in the state TASK_WAKING, on that CPU's wake list and on
    no queue.  Every other task keeps its state, whether it is queued, and its CPU, but for
    queued real-time tasks that are pushed, to CPUs of their masks; and exactly
    the runnable tasks are queued again. *)
Theorem wake_up_spec p st fl s :
  settled s -> curr_ok s -> curr_runs s -> wakeable p s -> cpupri_within ->
  exists r s', try_to_wake_up p st fl s = Done (r, s') /\ settled s' /\ curr_ok s' /\ curr_runs s' /\
    if has (state (tasks s p)) st then
      r = 1 /\
      (if runnable s p then queued_on (task_cpu (tasks s p)) p s'
       else exists c, is_cpu_allowed s p c = true /\
         if queues_remotely s c then waits_for c p s s' else queued_on c p s') /\
      forall x, x <> p -> mine s x ->
        on_rq (tasks s' x) = on_rq (tasks s x) /\ state (tasks s' x) = state (tasks s x) /\
        if runnable s x then located (task_cpu (tasks s x)) s' x else task_cpu (tasks s' x) = task_cpu (tasks s x)
    else r = 0 /\ s' = s.
Proof.
  intros Hs Hck Hcr Hw Hpri'. destruct (has (state (tasks s p)) st) eqn:Hst.
  - pose proof (try_to_wake_up_wakes p st fl s Hs Hck Hcr Hw Hst) as H.
    apply wp_done in H as (r & s' & He & -> & H). exists 1, s'. split; [done|].
    assert (Hx : exists v, stage v p s s').
    { destruct (runnable s p); [destruct H as (? & _); by eexists|]. destruct H as (c & _ & H). unfold woken_on in H.
      destruct (queues_remotely s c); destruct H as (? & _); by eexists. }
    destruct Hx as (v & Hs' & [Ho _ Hc Hr Hm]). split_and!; [apply Hs'|by apply Hc..|by apply Hr|done| |].
    + destruct (runnable s p); [destruct H as (? & ? & ?); by eapply stage_queued_on|].
      destruct H as (c & Hal & H). exists c. split; [done|]. unfold woken_on in H.
      destruct (queues_remotely s c); destruct H as (Hg & E & H); [|by eapply stage_queued_on].
      destruct H. split_and!; [done|apply Hg|done|done|intros i; by apply stands_off, Hg].
    + intros x Hx Hmi. destruct (kb_task _ _ _ Ho x Hx Hmi). split_and!; [done..|].
      specialize (Hm x Hx Hmi). unfold remains in Hm. destruct (runnable s x); [by apply placed_located|done].
  - exists 0, s. split_and!; try done. unfold try_to_wake_up, get_task. rewrite bind_gets, Hst. done.
Qed.
End Waking.
