(* ===== verification/Switch.v ===== *)
(** * Switching tasks ([kernel/sched/core.c])

    The function [__schedule] that every switch goes through, the tick that
    asks for one, and the ways of giving up the CPU; moving tasks between
    CPUs and setting the CPUs that they may use. *)

From S2P Require Import Prelude Sched Ts RtBandwidth Rt SchedClass SetSched Wake.

(** What switching and moving need of other files: pending signals
    ([signal_pending_state]), the hooks of the tick in [fair.c] and
    [loadavg.c], running a function on another CPU as its stopper thread
    ([kernel/stop_machine.c]), and cpusets. *)
Class SwitchEnv : Type := {
  signal_pending_state : Z -> task -> bool;
  cpu_load_update_active : cpu -> K unit;
  calc_global_load_tick : cpu -> K unit;
  trigger_load_balance : cpu -> K unit;
  stop_one_cpu : cpu -> K Z -> K Z;
  cpuset_cpus_allowed : kstate -> task -> list cpu;
  ns_capable_nice : task -> bool
}.

Definition SD_BALANCE_EXEC : Z := 0x0004.

Section Switch.
Context `{Hfeat : SchedFeat} `{Hlim : Rlimits} `{Hpri : Cpupri} `{Htop : Topology}.
Context `{Hoth : OtherClasses} `{Henv : CoreEnv} `{Hcall : Caller} `{Hdl : Deadline}.
Context `{Hsw : SwitchEnv}.

(** ** The switch

    Address spaces, register state and stacks are left out. *)

Definition prepare_task (next : task) : K unit := set_task next (fun t => t <| on_cpu := 1 |>).
Definition finish_task (prev : task) : K unit := set_task prev (fun t => t <| on_cpu := 0 |>).

Definition finish_task_switch (prev : task) : K unit :=
  let! t := get_task prev in
  let prev_state := state t in
  do! finish_task prev in
  when (prev_state =? TASK_DEAD)
    (let! k := task_class prev in call_if (m_task_dead k) (fun m => m prev)).

Definition clear_clock_flags (c : cpu) : K unit :=
  set_rq c (fun r => r <| clock_update_flags ::= fun f =>
    Z.land f (Z.lnot (Z.lor RQCF_ACT_SKIP RQCF_REQ_SKIP)) |>).

Definition context_switch (c : cpu) (prev next : task) : K unit :=
  do! prepare_task next in
  do! clear_clock_flags c in
  finish_task_switch prev.

Definition schedule_tail (prev : task) : K unit :=
  do! finish_task_switch prev in
  let! c := gets this_cpu in
  balance_callback_call c.

(** What happens to the running task [prev] that does not stay runnable; the
    result is whether it is switched out of its own will. *)
Definition deactivate_prev (c : cpu) (prev : task) (preempt : bool) : K bool :=
  let! t := get_task prev in
  if negb preempt && negb (state t =? 0) then
    do! (if signal_pending_state (state t) prev then
           set_task prev (fun t => t <| state := TASK_RUNNING |>)
         else
           do! deactivate_task c prev (Z.lor DEQUEUE_SLEEP DEQUEUE_NOCLOCK) in
           do! set_task prev (fun t => t <| on_rq := 0 |>) in
           let! t := get_task prev in
           do! when (negb (in_iowait t =? 0)) (set_rq c (fun r => r <| nr_iowait ::= fun n => s32 (n + 1) |>)) in
           when (has (flags t) PF_WQ_WORKER)
             (let! to_wakeup := wq_worker_sleeping prev in
              match to_wakeup with Some p => try_to_wake_up_local p | None => ret tt end)) in
    ret true
  else ret false.

(** [fuel] bounds the retries of [pick_next_task]. *)
Definition __schedule (fuel : nat) (preempt : bool) : K unit :=
  let! c := gets this_cpu in
  let! r := get_rq c in
  let prev := curr r in
  do! set_rq c (fun r => r <| clock_update_flags ::= fun f => u32 (Z.shiftl f 1) |>) in
  do! update_rq_clock c in
  let! voluntary := deactivate_prev c prev preempt in
  let! next := pick_next_task fuel c prev in
  do! clear_tsk_need_resched prev in
  do! modify (fun s => s <| preempt_need_resched := false |>) in
  do! (if negb (bool_decide (prev = next)) then
         do! set_rq c (fun r => r <| nr_switches ::= fun n => u64 (n + 1) |>) in
         do! set_rq c (fun r => r <| curr := next |>) in
         do! set_task prev (fun t => if voluntary then t <| nvcsw ::= fun n => u64 (n + 1) |>
                                     else t <| nivcsw ::= fun n => u64 (n + 1) |>) in
         context_switch c prev next
       else clear_clock_flags c) in
  balance_callback_call c.

(** [schedule] as the CPU sees it; [n] bounds the rounds. *)
Fixpoint schedule (n fuel : nat) : K unit :=
  match n with
  | O => crash OutOfFuel
  | S n =>
      do! __schedule fuel false in
      let! s := gets (fun s => s) in
      if need_resched s then schedule n fuel else ret tt
  end.

Definition schedule_idle (n fuel : nat) : K unit := schedule n fuel.

(** [do_task_dead] never returns: [BUG()] follows the switch. *)
Definition do_task_dead (fuel : nat) : K unit :=
  let! s := gets (fun s => s) in
  let p := curr (rqs s (this_cpu s)) in
  do! set_task p (fun t => t <| state := TASK_DEAD |>) in
  do! set_task p (fun t => t <| flags ::= fun f => Z.lor f PF_NOFREEZE |>) in
  __schedule fuel false.

Definition do_sched_yield (n fuel : nat) : K unit :=
  let! s := gets (fun s => s) in
  let c := this_cpu s in
  let! k := task_class (curr (rqs s c)) in
  do! m_yield_task k c in
  schedule n fuel.

Definition sys_sched_yield (n fuel : nat) : K Z := do! do_sched_yield n fuel in ret 0.

(** ** The tick *)

Definition scheduler_tick : K unit :=
  let! c := gets this_cpu in
  let! r := get_rq c in
  do! update_rq_clock c in
  let! k := task_class (curr r) in
  do! m_task_tick k c (curr r) 0 in
  do! cpu_load_update_active c in
  do! calc_global_load_tick c in
  do! set_rq c (fun r => r <| idle_balance := b2z (idle_cpu r) |>) in
  trigger_load_balance c.

(** ** Moving tasks *)

(** The result is the run queue that [p] is on. *)
Definition move_queued_task (c : cpu) (p : task) (new_cpu : cpu) : K cpu :=
  do! set_task p (fun t => t <| on_rq := TASK_ON_RQ_MIGRATING |>) in
  do! dequeue_task c p DEQUEUE_NOCLOCK in
  do! set_task_cpu p new_cpu in
  let! t := get_task p in
  do! bug_on (negb (task_cpu t =? new_cpu)) in
  do! enqueue_task new_cpu p 0 in
  do! set_task p (fun t => t <| on_rq := TASK_ON_RQ_QUEUED |>) in
  do! check_preempt_curr new_cpu p 0 in
  ret new_cpu.

Definition __migrate_task (c : cpu) (p : task) (dest_cpu : cpu) : K cpu :=
  let! s := gets (fun s => s) in
  if negb (is_cpu_allowed s p dest_cpu) then ret c else
  do! update_rq_clock c in
  move_queued_task c p dest_cpu.

Definition migration_cpu_stop (p : task) (dest_cpu : cpu) : K Z :=
  do! sched_ttwu_pending in
  let! c := gets this_cpu in
  let! t := get_task p in
  do! when (task_cpu t =? c)
    (if task_on_rq_queued t then let! _ := __migrate_task c p dest_cpu in ret tt
     else set_task p (fun t => t <| wake_cpu := dest_cpu |>)) in
  ret 0.

Definition cpumask_and (a b : list cpu) : list cpu := filter (fun c => c ∈ b) a.
Definition cpumask_subset (a b : list cpu) : bool := forallb (fun c => cpumask_test_cpu c b) a.

Definition __set_cpus_allowed_ptr (p : task) (new_mask : list cpu) (check : bool) : K Z :=
  let! t := get_task p in
  let c := task_cpu t in
  do! update_rq_clock c in
  let! s := gets (fun s => s) in
  let t := tasks s p in
  let cpu_valid_mask := if has (flags t) PF_KTHREAD then online_cpus s else active_cpus s in
  if check && has (flags t) PF_NO_SETAFFINITY then ret (- EINVAL) else
  if bool_decide (cpus_allowed t = new_mask) then ret 0 else
  let dest_cpu := cpumask_any (cpumask_and cpu_valid_mask new_mask) in
  if nr_cpu_ids <=? dest_cpu then ret (- EINVAL) else
  do! do_set_cpus_allowed p new_mask in
  let! t := get_task p in
  if cpumask_test_cpu (task_cpu t) new_mask then ret 0 else
  if task_running t || (state t =? TASK_WAKING) then
    let! _ := stop_one_cpu c (migration_cpu_stop p dest_cpu) in ret 0
  else
    do! when (task_on_rq_queued t) (let! _ := move_queued_task c p dest_cpu in ret tt) in
    ret 0.

Definition set_cpus_allowed_ptr (p : task) (new_mask : list cpu) : K Z :=
  __set_cpus_allowed_ptr p new_mask false.

Definition sched_exec : K unit :=
  let! s := gets (fun s => s) in
  let p := curr (rqs s (this_cpu s)) in
  let! k := task_class p in
  let! dest_cpu := m_select_task_rq k p (task_cpu (tasks s p)) SD_BALANCE_EXEC 0 in
  let! s := gets (fun s => s) in
  if dest_cpu =? this_cpu s then ret tt else
  when (cpumask_test_cpu dest_cpu (active_cpus s))
    (let! _ := stop_one_cpu (task_cpu (tasks s p)) (migration_cpu_stop p dest_cpu) in ret tt).

(** ** The CPUs of a task *)

(** The loop from [again] on; [fuel] bounds how often the cpuset changes
    meanwhile. *)
Fixpoint setaffinity_again (fuel : nat) (p : task) (new_mask : list cpu) : K Z :=
  match fuel with
  | O => crash OutOfFuel
  | S fuel =>
      let! retval := __set_cpus_allowed_ptr p new_mask true in
      if negb (retval =? 0) then ret retval else
      let! s := gets (fun s => s) in
      if negb (cpumask_subset new_mask (cpuset_cpus_allowed s p))
      then setaffinity_again fuel p (cpuset_cpus_allowed s p) else ret 0
  end.

(** [mem] is whether the two masks can be allocated. *)
Definition sched_setaffinity (fuel : nat) (mem : bool) (pid : Z) (in_mask : list cpu) : K Z :=
  let! s := gets (fun s => s) in
  match find_process_by_pid s pid with
  | None => ret (- ESRCH)
  | Some p =>
      if has (flags (tasks s p)) PF_NO_SETAFFINITY then ret (- EINVAL) else
      if negb mem then ret (- ENOMEM) else
      if negb (check_same_owner s p) && negb (ns_capable_nice p) then ret (- EPERM) else
      let retval := security_task_setscheduler p in
      if negb (retval =? 0) then ret retval else
      let new_mask := cpumask_and in_mask (cpuset_cpus_allowed s p) in
      if task_has_dl_policy (tasks s p) && dl_bandwidth_enabled s && negb (cpumask_subset (span (rd s)) new_mask)
      then ret (- EBUSY) else
      setaffinity_again fuel p new_mask
  end.

(** The mask is stored when the result is 0. *)
Definition sched_getaffinity (pid : Z) : K (Z * list cpu) :=
  let! s := gets (fun s => s) in
  match find_process_by_pid s pid with
  | None => ret (- ESRCH, [])
  | Some p =>
      let retval := security_task_getscheduler p in
      if negb (retval =? 0) then ret (retval, []) else
      ret (0, cpumask_and (cpus_allowed (tasks s p)) (active_cpus s))
  end.

(** ** Idle and stop tasks *)

Definition init_idle (idle_task : task) (c : cpu) (now : Z) : K unit :=
  do! __sched_fork idle_task in
  do! set_task idle_task (fun t => t <| state := TASK_RUNNING |>) in
  do! set_task idle_task (fun t => t <| se ::= fun e => e <| exec_start := now |> |>) in
  do! set_task idle_task (fun t => t <| flags ::= fun f => Z.lor f PF_IDLE |>) in
  do! set_cpus_allowed_common idle_task [c] in
  do! __set_task_cpu idle_task c in
  do! set_rq c (fun r => r <| idle := idle_task |>) in
  do! set_rq c (fun r => r <| curr := idle_task |>) in
  do! set_task idle_task (fun t => t <| on_rq := TASK_ON_RQ_QUEUED |>) in
  do! set_task idle_task (fun t => t <| on_cpu := 1 |>) in
  set_task idle_task (fun t => t <| sched_class := idle_sched_class |>).

Definition sched_set_stop_task (c : cpu) (stop_task : option task) : K unit :=
  let! r := get_rq c in
  let old_stop := stop r in
  do! (match stop_task with
       | Some p =>
           let! _ := sched_setscheduler_nocheck p SCHED_FIFO (MAX_RT_PRIO - 1) in
           set_task p (fun t => t <| sched_class := stop_sched_class |>)
       | None => ret tt
       end) in
  do! set_rq c (fun r => r <| stop := stop_task |>) in
  match old_stop with
  | Some p => set_task p (fun t => t <| sched_class := rt_sched_class |>)
  | None => ret tt
  end.
End Switch.
