(* ===== verification/SwitchProps.v ===== *)
(** * Switching tasks: what the core guarantees

    [__schedule], the tick and the wake-up as the steps of one machine: the
    runnable tasks of the real-time and the TS class are on the queue of their
    CPU, no other is queued, and what a CPU runs is one of them. *)

From S2P Require Import Prelude Sched Ts RtBandwidth Rt RtProps SchedClass ClassProps.
From S2P Require Import Frames CoreInv SetSched Wake CoreProps Switch.

(** ** Pulling *)

Section Pulling.
Context `{Hfeat : SchedFeat} `{Hlim : Rlimits} `{Hpri : Cpupri} `{Htop : Topology}.
Context `{Hoth : OtherClasses}.
Implicit Types (c i : cpu) (p x : task) (s : kstate) (on : task -> bool).

Lemma calm_settles (m : K unit) s :
  total m -> frames calm m -> settled s -> wp m (fun _ => settles s) s.
Proof.
  intros Ht Hf Hs. eapply wp_mono; [by apply (calm_step (runnable s))|]. intros [] s'. apply step_settles.
Qed.

Lemma settles_refl s : settled s -> settles s s.
Proof. done. Qed.

Lemma first_rt_task_in s c l p : first_rt_task s c l = Some p -> exists n, (n, p) ∈ l.
Proof.
  induction l as [|[n x] l IH]; [done|]. cbn [first_rt_task]. destruct (pick_rt_task _ _).
  - intros [= ->]. exists n. by left.
  - intros (m & Hm)%IH. exists m. by right.
Qed.

Lemma pull_from_step me src s :
  settled s -> curr_ok s -> wp (pull_from me src) (fun _ => settles s) s.
Proof.
  intros Hs Hc. unfold pull_from. wgo. destruct (_ <=? _); [done|].
  unfold pick_highest_pushable_task. wgo. cbv zeta. destruct (negb _); [done|]. wgo.
  destruct (first_rt_task _ _ _) as [p|] eqn:E; [|done]. apply first_rt_task_in in E as [n Hn].
  wgo. destruct (negb _); [done|]. destruct (_ <? _); [done|].
  pose proof (pushable_not_curr src s n p) as Hnc.
  destruct (rp_task _ _ _ (ri_push _ _ _ (rp_ok _ _ (proj1 Hs) src)) n p Hn) as (_ & Hp & _).
  apply (rp_link _ _ (proj1 Hs)) in Hp as (Hp & Hcl & Hcpu).
  pose proof (move_task_step (runnable s) src me p s Hs Hp ltac:(by left) Hcpu
    ltac:(intros j; by apply Hnc)) as Hmv.
  change (deactivate_task_op src p 0) with (deactivate_task src p 0).
  apply wp_done in Hmv as ([] & s3 & He3 & H3%step_settles & _).
  apply bind_inv in He3 as (u1 & s1 & He1 & (u2 & s2 & He2 & He3)%bind_inv). destruct u1, u2.
  wstep. apply (wp_intro _ _ _ _ _ He1). wstep. apply (wp_intro _ _ _ _ _ He2).
  wstep. apply (wp_intro _ _ _ _ _ He3). by wgo.
Qed.

Lemma pull_loop_step me l : forall r s,
  settled s -> curr_ok s -> wp (pull_rt_task_loop me l r) (fun _ => settles s) s.
Proof.
  induction l as [|i l IH]; intros r s Hs Hc; cbn [pull_rt_task_loop]; [done|].
  destruct (i =? me); [by apply IH|]. wstep. wcall pull_from_step; [done|done|]. intros b s1 H1.
  eapply wp_mono; [apply IH; [apply H1|by apply H1]|]. intros b' s2 H2. by etrans.
Qed.

Lemma set_rd_calm f : frames calm (set_rd f).
Proof. apply frames_calm; apply frames_modify; intros s; [split; split|split]; done. Qed.
Hint Resolve set_rd_calm : frames.

(** The walk over the overloaded CPUs needs no third round. *)
Lemma rto_next_cpu_total : total rto_next_cpu.
Proof.
  intros s. unfold rto_next_cpu. cbn [rto_next_cpu_loop]. unfold set_rd. krun.
  destruct (cpumask_next _ _); [by eexists|]. krun. destruct (_ =? _); [by eexists|]. krun.
  destruct (cpumask_next _ _); [by eexists|]. krun. rewrite Z.eqb_refl. by eexists.
Qed.

Lemma rto_next_cpu_calm : frames calm rto_next_cpu.
Proof. unfold rto_next_cpu. cbn [rto_next_cpu_loop]. repeat frames_step done. Qed.
Hint Resolve rto_next_cpu_total rto_next_cpu_calm : frames.

Lemma pull_rt_task_step me s :
  settled s -> curr_ok s -> wp (pull_rt_task me) (fun _ => settles s) s.
Proof.
  intros Hs Hc. unfold pull_rt_task. wgo. cbv zeta. destruct (_ =? 0); [done|]. destruct (_ && _); [done|].
  destruct (sched_feat RT_PUSH_IPI).
  - apply calm_settles; [total_tac| |done]. unfold tell_cpu_to_push, rto_start_trylock, rto_start_unlock, irq_work_queue_on.
    repeat frames_step done.
  - wstep. wcall pull_loop_step; [done|done|]. intros b s1 H1. wstep; [|done].
    eapply wp_mono; [apply calm_settles; [apply resched_curr_total|apply resched_curr_calm|apply H1]|].
    intros [] s2 H2. by etrans.
Qed.
End Pulling.

(** ** The classes of other files

    What the core relies on when it calls them, on a machine in order: they
    end, and leave the real-time and the TS class alone; [stop_task.c] and
    [deadline.c] have no task to pick when none is queued; [fair.c] and [idle.c]
    put the previous task back before they return one of theirs. *)

Definition ordinary (k : sched_class_t) : bool :=
  match k with stop_sched_class | dl_sched_class | fake_sched_class => false | _ => true end.

Definition foreign (k : sched_class_t) : Prop := k = fair_sched_class \/ k = idle_sched_class.

(** No stop task and no deadline task waits for [c]. *)
Definition no_stop_dl (c : cpu) (s : kstate) : Prop :=
  dl_nr_running (rqs s c) = 0 /\
  forall p, stop (rqs s c) = Some p ->
    sched_class (tasks s p) = stop_sched_class /\ on_rq (tasks s p) <> TASK_ON_RQ_QUEUED.

(** The idle task of [c] is one. *)
Definition idle_ok (c : cpu) (s : kstate) : Prop := sched_class (tasks s (idle (rqs s c))) = idle_sched_class.

Definition quietly {A} (m : K A) : Prop := forall on s, minv on s -> wp m (fun _ s' => calm s s') s.

Class OtherLaws `{SchedFeat} `{OtherClasses} : Prop := {
  ol_stop : forall c prev s, no_stop_dl c s ->
    m_pick_next_task (other_class stop_sched_class) c prev s = Done (NO_TASK, s);
  ol_dl : forall c prev s, no_stop_dl c s ->
    m_pick_next_task (other_class dl_sched_class) c prev s = Done (NO_TASK, s);
  ol_enqueue : forall k c p fl, foreign k -> quietly (m_enqueue_task (other_class k) c p fl);
  ol_dequeue : forall k c p fl, foreign k -> quietly (m_dequeue_task (other_class k) c p fl);
  ol_preempt : forall k c p fl, foreign k -> quietly (m_check_preempt_curr (other_class k) c p fl);
  ol_woken : forall k m c p, foreign k -> m_task_woken (other_class k) = Some m -> quietly (m c p);
  ol_put_prev : forall k c p, foreign k -> quietly (m_put_prev_task (other_class k) c p);
  ol_yield : forall k c, foreign k -> quietly (m_yield_task (other_class k) c);
  ol_tick : forall k c p q, foreign k -> quietly (m_task_tick (other_class k) c p q);
  ol_dead : forall k m p, foreign k -> m_task_dead (other_class k) = Some m -> quietly (m p);
  ol_callback : forall f c, quietly (other_callback f c);
  ol_pick : forall k c prev on s, foreign k -> minv on s -> idle_ok c s ->
    (forall s0, calm s s0 -> wp (put_prev_task c prev) (fun _ _ => True) s0) ->
    wp (m_pick_next_task (other_class k) c prev) (fun r s' =>
      match r with
      | NO_TASK => k = fair_sched_class /\ calm s s'
      | PICKED p => sched_class (tasks s p) = k /\
          exists s0 s1, calm s s0 /\ put_prev_task c prev s0 = Done (tt, s1) /\ calm s1 s'
      | RETRY_TASK => False
      end) s
}.

(** ** Picking *)

Section Picking.
Context `{Hfeat : SchedFeat} `{Hlim : Rlimits} `{Hpri : Cpupri} `{Htop : Topology}.
Context `{Hoth : OtherClasses} {Hlaws : OtherLaws}.
Implicit Types (c i : cpu) (p x : task) (s : kstate) (on : task -> bool).

Definition pushable i s x : Prop := x ∈ (pushable_tasks (rq_rt (rqs s i))).*2.

(** No task moves; the tasks in [b] may become pushable on [c]. *)
Record put (b : task -> Prop) c s s' : Prop := {
  pt_settled : settled s';
  pt_keep : keep s s';
  pt_cpu : forall x, mine s x -> task_cpu (tasks s' x) = task_cpu (tasks s x);
  pt_push : forall i x, pushable i s' x -> pushable i s x \/ i = c /\ b x
}.

Lemma put_trans b c s1 s2 s3 : put b c s1 s2 -> put b c s2 s3 -> put b c s1 s3.
Proof.
  intros [A1 A2 A3 A4] [B1 B2 B3 B4]. split; [done|by etrans| |].
  - intros x Hx. rewrite B3, A3; [done|done|]. by apply (keep_mine s1 s2).
  - intros i x [H|H]%B4; [by apply A4 | by right].
Qed.

Lemma put_mono (b b' : task -> Prop) c s s' : (forall x, b x -> b' x) -> put b c s s' -> put b' c s s'.
Proof.
  intros Hb [A1 A2 A3 A4]. split; [done..|]. intros i x [H|[-> H]]%A4; [by left | right; auto].
Qed.

Lemma calm_put b c s s' : settled s -> calm s s' -> put b c s s'.
Proof.
  intros Hs H. split; [|apply H|intros x; by apply calm_cpu|].
  - by apply (step_settles s), calm_to.
  - intros i x. unfold pushable. destruct (core_queue _ _ (rq_core _ _ _ (proj1 (proj1 H)) i)) as (_ & _ & _ & _ & -> & _).
    by left.
Qed.

Lemma stays_put b c s s' : settled s -> kept s s' -> stays b c s s' -> put b c s s'.
Proof.
  intros Hs Hk Hst. split; [|apply Hk|intros x _; apply (sy_view _ _ _ _ Hst x)|].
  - apply (minv_ext (runnable s)); [|by eapply minv_local]. intros x Hx. symmetry. apply runnable_keep; [apply Hk|].
    by apply (keep_mine s s'), Hx; apply Hk.
  - intros i x. unfold pushable. destruct (decide (i = c)) as [->|Hne].
    + intros [H|H]%(sy_push _ _ _ _ Hst); auto.
    + destruct (sy_rest _ _ _ _ Hst i Hne) as (E1 & _). destruct (core_queue _ _ E1) as (_ & _ & _ & _ & -> & _). by left.
Qed.

Lemma put_queued b c s s' i x : settled s -> put b c s s' -> rt_task_queued i s' x <-> rt_task_queued i s x.
Proof.
  intros [Hr _] [[Hr' _] Hk Hc _]. rewrite (rp_link _ _ Hr), (rp_link _ _ Hr'), (kp_class _ _ Hk).
  split; intros (H1 & H2 & H3); (assert (Hm : mine s x) by (by left));
    rewrite (runnable_keep s s') in * by done; rewrite Hc in * by done; done.
Qed.

Lemma put_running b c s s' : put b c s s' -> running s -> running s'.
Proof. intros [_ Hk Hc _]. apply running_keep; [done|]. intros x Hx _. by apply Hc. Qed.

(** Putting the running task back. *)
Lemma put_prev_put c prev s :
  settled s -> ordinary (sched_class (tasks s prev)) = true \/ sched_class (tasks s prev) = fake_sched_class ->
  (mine s prev -> task_cpu (tasks s prev) = c) ->
  wp (put_prev_task c prev) (fun _ => put (eq prev) c s) s.
Proof.
  intros Hs Ho Hcpu. unfold put_prev_task, get_task. do 2 wstep.
  assert (Hlaw : forall k, foreign k -> wp (m_put_prev_task (other_class k) c prev) (fun _ => put (eq prev) c s) s).
  { intros k Hk. eapply wp_mono; [by apply (ol_put_prev k c prev Hk (runnable s))|]. intros [] s'. by apply calm_put. }
  destruct (sched_class (tasks s prev)) eqn:Hcl; try (by destruct Ho).
  - cbn [put_prev_op class_put_prev]. wcall_frames kept put_prev_rt_stays; [apply Hs| |].
    + intros [H1 H2]%(rp_off _ _ (proj1 Hs)). apply (rp_link _ _ (proj1 Hs)). split_and!; [done|done|].
      apply Hcpu. by left.
    + intros [] s' [H1 H2]. by apply stays_put.
  - apply (calm_put _ _ s s); [done|done].
  - apply Hlaw. by left.
  - apply Hlaw. by right.
  - apply (calm_put _ _ s s); [done|done].
Qed.

(** [p] may run on [c] next. *)
Record next_ok c p s : Prop := {
  nx_rest : forall i, i <> c -> ~ pushable i s (curr (rqs s i));
  nx_push : ~ pushable c s p;
  nx_queued : mine s p -> runnable s p = true /\ task_cpu (tasks s p) = c;
  nx_class : ordinary (sched_class (tasks s p)) = true
}.

(** A machine on which [c] is choosing what to run after [prev], the running
    task or the fake one of [migrate_tasks]. *)
Definition comes_from c prev s : Prop :=
  curr (rqs s c) = prev /\ ordinary (sched_class (tasks s prev)) = true
  \/ sched_class (tasks s prev) = fake_sched_class.

Record choosing c prev s : Prop := {
  ch_settled : settled s;
  ch_curr : curr_ok s;
  ch_prev : comes_from c prev s;
  ch_no : no_stop_dl c s;
  ch_idle : idle_ok c s
}.

Definition chosen c prev (r : picked) s s' : Prop :=
  keep s s' /\
  match r with
  | PICKED p => settled s' /\ running s' /\ next_ok c p s'
  | NO_TASK => choosing c prev s'
  | RETRY_TASK => False
  end.

Lemma no_stop_dl_keep c s s' : keep s s' -> no_stop_dl c s -> no_stop_dl c s'.
Proof.
  intros Hk [H1 H2]. unfold no_stop_dl. rewrite (kp_dl _ _ Hk), (kp_stop _ _ Hk). split; [done|].
  intros p Hp. destruct (H2 p Hp) as [H3 H4]. by rewrite (kp_class _ _ Hk), (kp_stop_task _ _ Hk) by done.
Qed.

Lemma choosing_keep c prev s s' :
  choosing c prev s -> settled s' -> keep s s' -> curr_ok s' -> choosing c prev s'.
Proof.
  intros [H1 H2 H3 H5 H6] A1 A2 A3. split; [done|done| |by eapply no_stop_dl_keep|].
  - unfold comes_from. by rewrite (kp_curr _ _ A2), (kp_class _ _ A2).
  - unfold idle_ok. by rewrite (kp_idle _ _ A2), (kp_class _ _ A2).
Qed.

Lemma choosing_cpu c prev s : choosing c prev s -> mine s prev -> task_cpu (tasks s prev) = c.
Proof.
  intros [_ [_ Hr] [[<- _]|Hf] _ _] Hm; [by apply Hr|]. unfold mine in Hm. rewrite Hf in Hm. by destruct Hm.
Qed.

Lemma put_nothing_curr c s s' : put (fun _ => False) c s s' -> curr_ok s -> curr_ok s'.
Proof.
  intros Hp [Hc Hr]. split; [|by eapply put_running].
  intros i. rewrite (kp_curr _ _ (pt_keep _ _ _ _ Hp)). intros [H|[_ []]]%(pt_push _ _ _ _ Hp). by apply (Hc i).
Qed.

Lemma choosing_put c prev s s' : choosing c prev s -> put (fun _ => False) c s s' -> choosing c prev s'.
Proof.
  intros Hc Hp. apply (choosing_keep c prev s); [done|apply Hp|apply Hp|].
  eapply put_nothing_curr; [exact Hp|apply Hc].
Qed.

(** The task picked, when at most the previous one has become pushable. *)
Lemma chosen_put c prev p s s' :
  choosing c prev s -> put (eq prev) c s s' -> ~ pushable c s' p ->
  (mine s' p -> runnable s' p = true /\ task_cpu (tasks s' p) = c) ->
  ordinary (sched_class (tasks s' p)) = true -> chosen c prev (PICKED p) s s'.
Proof.
  intros Hc Hp H1 H2 H3. split; [apply Hp|]. split; [apply Hp|]. split; [eapply put_running; [exact Hp|apply Hc]|].
  split; [|done..]. intros i Hi. rewrite (kp_curr _ _ (pt_keep _ _ _ _ Hp)).
  intros [H|[? _]]%(pt_push _ _ _ _ Hp); [|done]. by apply (proj1 (ch_curr _ _ _ Hc) i).
Qed.

Lemma pushable_rt i s x : settled s -> pushable i s x -> sched_class (tasks s x) = rt_sched_class.
Proof.
  intros [Hr _] ([n y] & -> & Hx)%list_elem_of_fmap.
  destruct (rp_task _ _ _ (ri_push _ _ _ (rp_ok _ _ Hr i)) n y Hx) as (_ & Hq & _).
  by apply (rp_link _ _ Hr) in Hq as (_ & ? & _).
Qed.

Lemma put_prev_choosing c prev s :
  choosing c prev s -> wp (put_prev_task c prev) (fun _ => put (eq prev) c s) s.
Proof.
  intros H. apply put_prev_put; [apply H| |by apply choosing_cpu]. destruct (ch_prev _ _ _ H) as [[_ ?]|?]; auto.
Qed.

Lemma pick_ts_step c prev s :
  choosing c prev s -> wp (ts_pick c prev) (fun r => chosen c prev r s) s.
Proof.
  intros H. unfold ts_pick, pick_next_task_ts, get_rq. wgo.
  destruct (first_ts_entity (ts_queue (rqs s c)) MAX_TS_PRIO) as [p|] eqn:Hf; [|wgo; by split].
  wstep. wcall put_prev_choosing; [exact H|]. intros [] s1 H1. wgo.
  pose proof (tp_wf _ _ (proj2 (ch_settled _ _ _ H)) c) as Hw.
  pose proof (first_ts_entity_spec (ts_q c s) MAX_TS_PRIO) as Hs. unfold ts_q in *. rewrite Hf in Hs.
  destruct Hs as (i & l & Hi & _); [unfold ts_wf, ts_q in Hw; destruct Hw as [-> _]; lia|].
  assert (Hq : ts_queued c s p) by (eapply Klist.at_index_elem; [exact Hi|by left]).
  apply (tp_link _ _ (proj2 (ch_settled _ _ _ H))) in Hq as (Hon & Hcl & Hcpu).
  assert (Hm : mine s p) by (by right). pose proof (pt_keep _ _ _ _ H1) as Hk.
  apply chosen_put; [done|done| | |].
  - intros Hp. apply pushable_rt in Hp; [|apply H1]. rewrite (kp_class _ _ Hk), Hcl in Hp. done.
  - intros _. rewrite (runnable_keep s s1), (pt_cpu _ _ _ _ H1) by done. done.
  - by rewrite (kp_class _ _ Hk), Hcl.
Qed.

Lemma pick_foreign_step k c prev s :
  foreign k -> choosing c prev s ->
  wp (m_pick_next_task (other_class k) c prev) (fun r s' => chosen c prev r s s' /\
    (k = idle_sched_class -> r <> NO_TASK)) s.
Proof.
  intros Hk H. eapply wp_mono; [apply (ol_pick k c prev (runnable s)); [done|apply H|apply H|]|].
  - intros s0 H0. eapply wp_mono; [apply put_prev_choosing; eapply choosing_put; [exact H|apply calm_put; [apply H|done]]|done].
  - intros r s' Hr. destruct r as [| |p]; [done| |].
    + destruct Hr as [-> Hc]. split; [|done]. split; [apply Hc|]. eapply choosing_put; [exact H|apply calm_put; [apply H|done]].
    + destruct Hr as (Hcl & s0 & s1 & H0 & He & H1). split; [|done].
      pose proof (calm_put (eq prev) c s s0 (ch_settled _ _ _ H) H0) as P0.
      assert (C0 : choosing c prev s0) by (eapply choosing_put; [exact H|apply calm_put; [apply H|done]]).
      pose proof (wp_elim _ _ _ _ _ (put_prev_choosing c prev s0 C0) He) as P1.
      pose proof (put_trans _ _ _ _ _ (put_trans _ _ _ _ _ P0 P1)
        (calm_put (eq prev) c s1 s' (pt_settled _ _ _ _ P1) H1)) as P2.
      assert (Hcl' : sched_class (tasks s' p) = k) by (by rewrite (kp_class _ _ (pt_keep _ _ _ _ P2))).
      apply chosen_put; [done|done| | |].
      * intros Hp%pushable_rt; [|apply P2]. rewrite Hcl' in Hp. by destruct Hk as [-> | ->].
      * unfold mine. rewrite Hcl'. destruct Hk as [-> | ->]; by intros [|].
      * rewrite Hcl'. by destruct Hk as [-> | ->].
Qed.

Lemma no_retry c s :
  no_stop_dl c s ->
  (match stop (rqs s c) with Some p => task_on_rq_queued (tasks s p) | None => false end
   || negb (dl_nr_running (rqs s c) =? 0)) = false.
Proof.
  intros [H1 H2]. rewrite H1. cbn [Z.eqb negb]. rewrite orb_false_r.
  destruct (stop (rqs s c)) as [p|]; [|done]. destruct (H2 p eq_refl) as [_ H]. by apply Z.eqb_neq.
Qed.

Lemma pick_chain_kept c :
  frames kept (let! p := _pick_next_task_rt c in do! dequeue_pushable_task c p in
               do! rt_queue_push_tasks c in ret (PICKED p)).
Proof. frames_tac. Qed.

Lemma update_curr_put c s : settled s -> wp (update_curr_rt c) (fun _ => put (fun _ => False) c s) s.
Proof.
  intros Hs. wcall_frames kept update_curr_rt_acct; [apply (ri_base _ _ _ (rp_ok _ _ (proj1 Hs) c))|].
  intros [] s' [H1 H2]. apply stays_put; [done|done|]. apply stays_acct; [apply Hs|done].
Qed.

Lemma queue_nonempty c s :
  settled s -> rt_queued (rq_rt (rqs s c)) <> 0 -> exists x, rt_task_queued c s x.
Proof.
  intros Hs H. pose proof (ri_base _ _ _ (rp_ok _ _ (proj1 Hs) c)) as Hb. apply (ri_queued _ _ _ Hb) in H.
  rewrite (rc_nr _ _ _ (ri_counts _ _ _ Hb)) in H. unfold rt_task_queued, rt_queue_of.
  destruct (concat (rt_queue (rq_rt (rqs s c)))) as [|x l]; [done|]. exists x. by left.
Qed.

Lemma pick_rt_step c prev s :
  choosing c prev s -> wp (pick_next_task_rt c prev) (fun r => chosen c prev r s) s.
Proof.
  intros H. unfold pick_next_task_rt, need_pull_rt_task, get_rt, get_task. wgo.
  apply (wp_mono _ (fun _ s1 => choosing c prev s1 /\ keep s s1)).
  { wstep; [|by split]. wcall pull_rt_task_step; [apply H|apply H|]. intros [] s1 (A1 & A2 & A3).
    split; [|done]. apply (choosing_keep c prev s); [done..|by apply A3, H]. }
  intros [] s1 [C1 K1]. wgo. cbv zeta. rewrite (no_retry c s1) by apply C1. rewrite andb_false_r.
  unfold get_task. do 3 wstep.
  apply (wp_mono _ (fun _ s2 => choosing c prev s2 /\ keep s s2)).
  { wstep; [|by split]. wcall update_curr_put; [apply C1|]. intros [] s2 P2.
    split; [by eapply choosing_put|]. etrans; [exact K1|apply P2]. }
  intros [] s2 [C2 K2]. wgo. destruct (Z.eqb_spec (rt_queued (rq_rt (rqs s2 c))) 0) as [H0|H0]; [by wgo|].
  destruct (queue_nonempty c s2 (ch_settled _ _ _ C2) H0) as [x Hx].
  wstep. wcall put_prev_choosing; [exact C2|]. intros [] s3 P3.
  assert (Hne : concat (rt_queue_of c s3) <> []).
  { apply (put_queued _ _ _ _ c x (ch_settled _ _ _ C2) P3) in Hx. intros E. unfold rt_task_queued in Hx.
    rewrite E in Hx. by apply not_elem_of_nil in Hx. }
  eapply wp_mono; [apply (wp_frames kept); [apply pick_chain_kept|]|].
  { apply (pick_rt_stays (fun _ => False)); [apply (pt_settled _ _ _ _ P3)|done]. }
  intros r s4 [[St (p & -> & Hp & _ & Hpu)] K4].
  pose proof (stays_put _ _ _ _ (pt_settled _ _ _ _ P3) K4 St) as P4.
  pose proof (put_trans _ _ _ _ _ P3 (put_mono _ (eq prev) _ _ _ (fun x (f : False) => match f with end) P4)) as P.
  assert (Hch : chosen c prev (PICKED p) s2 s4).
  { apply (rp_link _ _ (proj1 (pt_settled _ _ _ _ P3))) in Hp as (Hon & Hcl & Hcpu).
    assert (Hm : mine s3 p) by (by left).
    apply chosen_put; [done|done|done| |].
    - intros _. rewrite (runnable_keep s3 s4), (pt_cpu _ _ _ _ P4) by (done || apply K4). done.
    - by rewrite (kp_class _ _ (proj1 K4)), Hcl. }
  destruct Hch as [K5 Hch]. split; [by etrans|done].
Qed.

(** The loop over the classes. *)
Lemma pick_next_task_step fuel c prev s :
  choosing c prev s ->
  wp (pick_next_task (S fuel) c prev) (fun p s' => chosen c prev (PICKED p) s s') s.
Proof.
  intros H.
  assert (Hidle : forall s, choosing c prev s ->
    wp (m_pick_next_task (other_class idle_sched_class) c prev) (fun r s' => chosen c prev r s s' /\
      exists p, r = PICKED p) s).
  { intros s1 H1. wcall pick_foreign_step; [by right|done|]. intros r s2 [H2 H3]. split; [done|].
    destruct r as [| |p]; [by destruct H2|by specialize (H3 eq_refl)|by eexists]. }
  assert (Hfair : forall s, choosing c prev s ->
    wp (m_pick_next_task (other_class fair_sched_class) c prev) (fun r s' => chosen c prev r s s') s).
  { intros s1 H1. wcall pick_foreign_step; [by left|done|]. by intros r s2 [H2 _]. }
  unfold pick_next_task. do 2 wstep. destruct (only_fair s c prev).
  - cbn [class_of]. wstep. wcall Hfair; [done|]. intros r s1 H1. destruct r as [| |p]; [by destruct H1| |by wgo]; cbv iota.
    wstep. destruct H1 as [K1 C1]. wcall Hidle; [done|]. intros r s2 [[K2 H2] [p ->]]. wgo.
    split; [by etrans|done].
  - cbn [pick_again]. wstep. unfold sched_classes. cbn [pick_from class_of m_pick_next_task rt_class ts_class].
    wstep. apply (wp_intro _ _ _ _ _ (ol_stop c prev s (ch_no _ _ _ H))).
    wstep. apply (wp_intro _ _ _ _ _ (ol_dl c prev s (ch_no _ _ _ H))).
    wstep. wcall pick_rt_step; [done|]. intros r s1 [K1 H1]. destruct r as [| |p]; [done| |by wgo]; cbv iota.
    wstep. wcall pick_ts_step; [done|]. intros r s2 [K2 H2]. destruct r as [| |p]; [done| |wgo; split; [by etrans|done]]; cbv iota.
    wstep. wcall Hfair; [done|]. intros r s3 [K3 H3]. destruct r as [| |p]; [done| |]; cbv iota.
    2: { wgo. split; [|done]. etrans; [exact K1|]. by etrans. }
    wstep. wcall Hidle; [done|]. intros r s4 [[K4 H4] [p ->]]. wgo.
    split; [|done]. etrans; [exact K1|]. etrans; [exact K2|]. by etrans.
Qed.
End Picking.
