(* ===== verification/InOrder.v ===== *)
(** * Switching tasks on a machine in order

    What __schedule keeps of the machine: the runnable tasks of the real-time
    and the TS class are on the queue of their CPU, no other is queued, what a
    CPU runs is runnable and not up for pushing, and only what a CPU runs has
    [on_cpu] set. *)

From S2P Require Import Prelude Sched Ts RtBandwidth Rt RtProps SchedClass ClassProps.
From S2P Require Import Frames CoreInv SetSched Wake CoreProps Switch SwitchProps.

(** ** Quiet computations *)

Section Quietly.
Context `{Hoth : OtherClasses}.
Implicit Types (c : cpu) (p x : task) (s : kstate) (on : task -> bool).

Lemma quietly_total {A} (m : K A) : total m -> frames calm m -> quietly m.
Proof. intros Ht Hf on s _. by apply (wp_total calm). Qed.

Lemma quietly_bind {A B} (m : K A) (k : A -> K B) :
  quietly m -> (forall a, quietly (k a)) -> quietly (bind m k).
Proof.
  intros Hm Hk on s Hs. wstep. eapply wp_mono; [by apply (Hm on)|]. intros a s1 H1.
  eapply wp_mono; [apply (Hk a on); by apply (sp_inv on s s1), calm_to|]. intros b s2 H2. by etrans; [exact H1|].
Qed.

Lemma quietly_when b (m : K unit) : quietly m -> quietly (when b m).
Proof. intros Hm. destruct b; [done|]. intros on s _. by wgo. Qed.

(** A task of another class may be changed. *)
Lemma set_task_foreign p f s :
  ~ mine s p -> sched_class (tasks s p) <> stop_sched_class ->
  (forall t, sched_class (f t) = sched_class t /\ rt_on_rq (rt (f t)) = rt_on_rq (rt t)) ->
  wp (set_task p f) (fun _ s' => calm s s') s.
Proof.
  intros Hm Hs Hf. eapply wp_intro; [reflexivity|].
  assert (Hx : forall x, mine s x -> x <> p) by (by intros x Hx ->).
  split; [split|]; split; simpl; try done.
  all: try (intros x; apply alter_view; apply Hf).
  - intros x. apply (alter_view (fun t => rt_on_rq (rt t))), Hf.
  - intros x _ Hc. rewrite fn_lookup_alter_ne; [done|]. intros ->. apply Hm. by left.
  - intros x Hc. rewrite fn_lookup_alter_ne; [done|]. intros ->. apply Hm. by right.
  - intros x Hc. rewrite fn_lookup_alter_ne; [done|]. intros ->. by apply Hm.
  - intros x Hc. rewrite fn_lookup_alter_ne; [done|]. by intros ->.
Qed.

Lemma foreign_not_mine s p : foreign (sched_class (tasks s p)) -> ~ mine s p.
Proof. unfold mine. intros [-> | ->]; by intros []. Qed.

Lemma ordinary_cases s p :
  ordinary (sched_class (tasks s p)) = true -> mine s p \/ foreign (sched_class (tasks s p)).
Proof. unfold mine, foreign. destruct (sched_class (tasks s p)); simpl; auto; done. Qed.

Lemma foreign_calm s s' p : calm s s' -> foreign (sched_class (tasks s p)) -> foreign (sched_class (tasks s' p)).
Proof. intros H. by rewrite (kp_class _ _ (proj2 H)). Qed.
End Quietly.

(** What the core relies on outside [kernel/sched/core.c] when it switches:
    the workers of a pool are of the fair class ([kernel/workqueue.c]), and the
    other hooks of the tick leave the two classes alone. *)
Class SwitchLaws `{OtherClasses} `{CoreEnv} `{SwitchEnv} : Prop := {
  sl_load : forall c, quietly (cpu_load_update_active c);
  sl_global : forall c, quietly (calc_global_load_tick c);
  sl_balance : forall c, quietly (trigger_load_balance c);
  sl_waking : forall p c, quietly (wq_worker_waking_up p c);
  sl_sleeping : forall p on s, minv on s ->
    wp (wq_worker_sleeping p) (fun r s' => calm s s' /\
      forall x, r = Some x -> foreign (sched_class (tasks s x))) s
}.

(** ** The machine in order *)

Record at_rest (s : kstate) : Prop := {
  ar_no : forall c, no_stop_dl c s;
  ar_idle : forall c, idle_ok c s;
  ar_active : forall i, i ∈ active_cpus s -> i ∈ online_cpus s;
  ar_on_rq : forall x, mine s x -> on_rq (tasks s x) = 0 \/ on_rq (tasks s x) = TASK_ON_RQ_QUEUED;
  ar_worker : forall x, mine s x -> has (flags (tasks s x)) PF_WQ_WORKER = false;
  ar_cpu : forall x, mine s x -> exists i, is_cpu_allowed s x i = true
}.

(** [on_cpu] is set for running tasks only, but for those of [e]. *)
Record order (e : task -> Prop) (s : kstate) : Prop := {
  od_settled : settled s;
  od_curr : curr_ok s;
  od_runs : curr_runs s;
  od_class : forall c, ordinary (sched_class (tasks s (curr (rqs s c)))) = true;
  od_on_cpu : forall x, mine s x -> on_cpu (tasks s x) <> 0 -> e x \/ exists c, curr (rqs s c) = x;
  od_rest : at_rest s
}.

Definition in_order (s : kstate) : Prop := order (fun _ => False) s.

(** Changes that keep [at_rest]. *)
Record rests (s s' : kstate) : Prop := {
  rs_class : forall x, sched_class (tasks s' x) = sched_class (tasks s x);
  rs_task : forall x, mine s x ->
    flags (tasks s' x) = flags (tasks s x) /\ nr_cpus_allowed (tasks s' x) = nr_cpus_allowed (tasks s x) /\
    cpus_allowed (tasks s' x) = cpus_allowed (tasks s x) /\
    (on_rq (tasks s' x) = on_rq (tasks s x) \/ on_rq (tasks s' x) = 0 \/ on_rq (tasks s' x) = TASK_ON_RQ_QUEUED);
  rs_idle : forall c, idle (rqs s' c) = idle (rqs s c);
  rs_stop : forall c, stop (rqs s' c) = stop (rqs s c);
  rs_dl : forall c, dl_nr_running (rqs s' c) = dl_nr_running (rqs s c);
  rs_stop_task : forall x, sched_class (tasks s x) = stop_sched_class -> on_rq (tasks s' x) = on_rq (tasks s x);
  rs_online : online_cpus s' = online_cpus s;
  rs_active : active_cpus s' = active_cpus s
}.

Section InOrder.
Context `{Hfeat : SchedFeat} `{Hlim : Rlimits} `{Hpri : Cpupri} `{Htop : Topology}.
Context `{Hoth : OtherClasses}.
Implicit Types (c i : cpu) (p x : task) (s : kstate) (e : task -> Prop).

Lemma rests_trans s1 s2 s3 : rests s1 s2 -> rests s2 s3 -> rests s1 s3.
Proof.
  intros [A1 A2 A3 A4 A5 A6 A7 A8] [B1 B2 B3 B4 B5 B6 B7 B8].
  split; try congruence; try (intros x; by rewrite ?B1, ?B3, ?B4, ?B5).
  - intros x Hx. destruct (A2 x Hx) as (<- & <- & <- & HA), (B2 x) as (-> & -> & -> & HB).
    { unfold mine in *. by rewrite A1. }
    split_and!; [done..|]. destruct HB as [-> | HB]; auto.
  - intros x Hx. rewrite B6, A6; [done|done|by rewrite A1].
Qed.

Lemma keep_rests s s' : keep s s' -> rests s s'.
Proof. intros Hk. split; try apply Hk. intros x Hx. destruct (kp_task _ _ Hk x Hx). auto. Qed.

Lemma rests_mine s s' x : rests s s' -> mine s' x <-> mine s x.
Proof. intros H. unfold mine. by rewrite (rs_class _ _ H). Qed.

Lemma rests_at_rest s s' : rests s s' -> at_rest s -> at_rest s'.
Proof.
  intros Hr [H1 H2 H3 H4 H5 H6]. split.
  - intros c. destruct (H1 c) as [E1 E2]. unfold no_stop_dl. rewrite (rs_dl _ _ Hr), (rs_stop _ _ Hr).
    split; [done|]. intros p Hp. destruct (E2 p Hp). by rewrite (rs_class _ _ Hr), (rs_stop_task _ _ Hr).
  - intros c. unfold idle_ok. rewrite (rs_idle _ _ Hr), (rs_class _ _ Hr). apply H2.
  - by rewrite (rs_active _ _ Hr), (rs_online _ _ Hr).
  - intros x Hx%(rests_mine _ _ _ Hr). destruct (rs_task _ _ Hr x Hx) as (_ & _ & _ & [-> | ?]); auto.
  - intros x Hx%(rests_mine _ _ _ Hr). destruct (rs_task _ _ Hr x Hx) as (-> & _). auto.
  - intros x Hx%(rests_mine _ _ _ Hr). destruct (rs_task _ _ Hr x Hx) as (Ef & En & Ec & _).
    unfold is_cpu_allowed, is_per_cpu_kthread. rewrite Ef, En, Ec, (rs_online _ _ Hr), (rs_active _ _ Hr). by apply H6.
Qed.

(** The operations of the core on a machine in order. *)
Lemma order_settles e s s' : order e s -> settles s s' -> order e s'.
Proof.
  intros [H1 H2 H3 H4 H5 H6] (A1 & A2 & A3). split; [done|by apply A3|by eapply curr_runs_keep| | |].
  - intros c. by rewrite (kp_curr _ _ A2), (kp_class _ _ A2).
  - intros x Hx%(keep_mine _ _ _ A2). rewrite (st_on_cpu _ _ (kp_task _ _ A2 x Hx)). intros Hn.
    destruct (H5 x Hx Hn) as [|[c <-]]; [by left|]. right. exists c. apply (kp_curr _ _ A2).
  - by eapply rests_at_rest; [apply keep_rests|].
Qed.

Lemma order_calm e s s' : order e s -> calm s s' -> order e s'.
Proof.
  intros Ho Hc. eapply order_settles; [exact Ho|]. by apply step_settles, calm_to; [apply Ho|].
Qed.

Lemma order_quietly {A} (m : K A) e s : quietly m -> order e s -> wp m (fun _ s' => order e s' /\ calm s s') s.
Proof.
  intros Hm Ho. eapply wp_mono; [apply (Hm (runnable s)), Ho|]. intros a s' Hc. split; [|done]. by eapply order_calm.
Qed.

(** Where the tasks of a machine in order are. *)
Lemma in_order_queue s p c :
  in_order s -> mine s p -> on_queue s p c <-> runnable s p = true /\ task_cpu (tasks s p) = c.
Proof.
  intros Ho Hm. destruct (od_settled _ _ Ho) as [H1 H2]. unfold on_queue.
  rewrite (rp_link _ _ H1), (tp_link _ _ H2). destruct Hm as [-> | ->]; naive_solver.
Qed.

(** What is choosing on a machine in order. *)
Lemma order_choosing e c s : order e s -> choosing c (curr (rqs s c)) s.
Proof. intros [H1 H2 H3 H4 H5 H6]. split; [done|done|left; by split|apply H6|apply H6]. Qed.
End InOrder.

(** ** Switching *)

Section Switching.
Context `{Hfeat : SchedFeat} `{Hlim : Rlimits} `{Hpri : Cpupri} `{Htop : Topology}.
Context `{Hoth : OtherClasses} {Hlaws : OtherLaws} `{Henv : CoreEnv} `{Hsw : SwitchEnv} {Hswl : SwitchLaws}.
Implicit Types (c i : cpu) (p x : task) (s : kstate) (e : task -> Prop).

(** *** A worker that is woken when another sleeps *)

(** A calm computation from a machine in any state that is settled. *)
Definition calmly (m : K unit) s : Prop := settled s -> wp m (fun _ s' => calm s s') s.

Lemma calmly_bind (m k : K unit) s :
  calmly m s -> (forall s1, calm s s1 -> calmly k s1) -> calmly (do! m in k) s.
Proof.
  intros Hm Hk Hs. wstep. eapply wp_mono; [by apply Hm|]. intros [] s1 H1.
  eapply wp_mono; [apply (Hk s1 H1)|].
  - apply (step_settles s), calm_to; [apply Hs|done].
  - intros [] s2 H2. by etrans; [exact H1|].
Qed.

Lemma calmly_get {A} (f : kstate -> A) (k : A -> K unit) s : calmly (k (f s)) s -> calmly (let! a := gets f in k a) s.
Proof. intros H Hs. do 2 wstep. by apply H. Qed.

Lemma calmly_class p (k : class_methods -> K unit) s :
  calmly (k (class_of (sched_class (tasks s p)))) s -> calmly (let! m := task_class p in k m) s.
Proof. intros H Hs. unfold task_class, get_task. wgo. by apply H. Qed.

Lemma calmly_when b m s : calmly m s -> calmly (when b m) s.
Proof. intros H. destruct b; [done|]. by intros _. Qed.

Lemma calmly_total m s : total m -> frames calm m -> calmly m s.
Proof. intros Ht Hf Hs. by apply (quietly_total m Ht Hf (runnable s)). Qed.

Lemma quietly_calmly m s : quietly m -> calmly m s.
Proof. intros Hm Hs. by apply (Hm (runnable s)). Qed.

Lemma calmly_set p f s :
  foreign (sched_class (tasks s p)) ->
  (forall t, sched_class (f t) = sched_class t /\ rt_on_rq (rt (f t)) = rt_on_rq (rt t)) -> calmly (set_task p f) s.
Proof.
  intros Hp Hf _. apply set_task_foreign; [by apply foreign_not_mine| |done].
  by destruct Hp as [-> | ->].
Qed.

Lemma foreign_class_of k : foreign k -> class_of k = other_class k.
Proof. by intros [-> | ->]. Qed.

Lemma class_enqueue_foreign k : foreign k -> class_enqueue k = m_enqueue_task (other_class k).
Proof. by intros [-> | ->]. Qed.

Lemma class_dequeue_foreign k : foreign k -> class_dequeue k = m_dequeue_task (other_class k).
Proof. by intros [-> | ->]. Qed.

Lemma activate_foreign c p fl s : foreign (sched_class (tasks s p)) -> calmly (activate_task c p fl) s.
Proof.
  intros Hp. unfold activate_task, get_task. apply calmly_get, calmly_bind.
  { apply calmly_total; [total_tac|apply uninterruptible_calm]. }
  intros s1 H1. apply calmly_bind; [apply calmly_total; [total_tac|apply clock_calm]|]. intros s2 H2.
  apply calmly_get. assert (Hf : foreign (sched_class (tasks s2 p))) by by apply (foreign_calm s1 s2), (foreign_calm s s1).
  rewrite class_enqueue_foreign by done. by apply quietly_calmly, ol_enqueue.
Qed.

Lemma deactivate_foreign c p fl s : foreign (sched_class (tasks s p)) -> calmly (deactivate_task c p fl) s.
Proof.
  intros Hp. unfold deactivate_task, get_task. apply calmly_get, calmly_bind.
  { apply calmly_total; [total_tac|apply uninterruptible_calm]. }
  intros s1 H1. apply calmly_bind; [apply calmly_total; [total_tac|apply clock_calm]|]. intros s2 H2.
  apply calmly_get. assert (Hf : foreign (sched_class (tasks s2 p))) by by apply (foreign_calm s1 s2), (foreign_calm s s1).
  rewrite class_dequeue_foreign by done. by apply quietly_calmly, ol_dequeue.
Qed.

Lemma wakeup_foreign c p fl s : foreign (sched_class (tasks s p)) -> calmly (ttwu_do_wakeup c p fl) s.
Proof.
  intros Hp. unfold ttwu_do_wakeup. apply calmly_bind.
  { unfold check_preempt_curr. apply calmly_get, calmly_bind.
    - case_bool_decide as E.
      + rewrite <- E, foreign_class_of by done. by apply quietly_calmly, ol_preempt.
      + apply calmly_total; [total_tac|apply frames_calm; frames_tac].
    - intros s1 H1. apply calmly_get, calmly_total; [total_tac|apply frames_calm; frames_tac]. }
  intros s1 H1. pose proof (foreign_calm _ _ p H1 Hp) as Hp1. apply calmly_bind; [by apply calmly_set|].
  intros s2 H2. pose proof (foreign_calm _ _ p H2 Hp1) as Hp2. apply calmly_class.
  rewrite foreign_class_of by done. apply calmly_bind.
  - destruct (m_task_woken (other_class (sched_class (tasks s2 p)))) as [m|] eqn:E; cbn [call_if].
    + by eapply quietly_calmly, ol_woken.
    + by intros _.
  - intros s3 H3. apply calmly_get, calmly_total; [total_tac|apply frames_calm; frames_tac].
Qed.

Lemma wake_worker_calm p s : foreign (sched_class (tasks s p)) -> calmly (try_to_wake_up_local p) s.
Proof.
  intros Hp. unfold try_to_wake_up_local. apply calmly_get. cbv zeta.
  destruct (_ || _); [by intros _|]. destruct (negb _); [by intros _|]. apply calmly_bind.
  - apply calmly_when, calmly_bind; [apply calmly_total; [total_tac|apply frames_calm; frames_tac]|].
    intros s1 H1. pose proof (foreign_calm _ _ p H1 Hp) as Hp1. unfold ttwu_activate. apply calmly_bind; [by apply activate_foreign|].
    intros s2 H2. pose proof (foreign_calm _ _ p H2 Hp1) as Hp2. apply calmly_bind; [by apply calmly_set|].
    intros s3 H3. apply calmly_get, calmly_when, quietly_calmly, sl_waking.
  - intros s1 H1. apply wakeup_foreign. by eapply foreign_calm.
Qed.

(** *** The previous task *)

(** Whether [__schedule] takes [prev] off its queue. *)
Definition blocks (preempt : bool) prev s : bool :=
  negb preempt && negb (state (tasks s prev) =? 0) && negb (signal_pending_state (state (tasks s prev)) prev).

(** What becomes of the machine; [b] is whether [prev] leaves its queue. *)
Record left (b : bool) prev s s' : Prop := {
  lf_settled : settled s';
  lf_but : keep_but prev s s';
  lf_class : forall x, sched_class (tasks s' x) = sched_class (tasks s x);
  lf_task : mine s prev -> same_sleeper (tasks s prev) (tasks s' prev) /\
    on_rq (tasks s' prev) = if b then 0 else on_rq (tasks s prev)
}.

Definition leaves b prev s s' : Prop := left b prev s s' /\ (curr_ok s -> curr_ok s').

Lemma left_keep b prev s s1 s2 : left b prev s s1 -> settled s2 -> keep s1 s2 -> left b prev s s2.
Proof.
  intros [A1 A2 A3 A4] B1 B2. split; [done| | |].
  - etrans; [exact A2|by apply keep_keep_but].
  - intros x. by rewrite (kp_class _ _ B2).
  - intros Hm. destruct (A4 Hm) as [[] <-]. pose proof (kp_class _ _ B2 prev) as Hc. pose proof (A3 prev).
    destruct (kp_task _ _ B2 prev) as [E1 E2 E3 E4 E5 E6 E7 E8 E9 E10]; [unfold mine in *; congruence|].
    split; [split; congruence|done].
Qed.

Lemma leaves_settles b prev s s1 s2 : leaves b prev s s1 -> settles s1 s2 -> leaves b prev s s2.
Proof. intros [A1 A2] (B1 & B2 & B3). split; [by eapply left_keep|auto]. Qed.

Lemma leaves_calm b prev s s1 s2 : leaves b prev s s1 -> calm s1 s2 -> leaves b prev s s2.
Proof.
  intros Hl Hc. eapply leaves_settles; [exact Hl|]. by apply step_settles, calm_to; [apply Hl|].
Qed.

Lemma leaves_calmly b prev m s s1 :
  leaves b prev s s1 -> calmly m s1 -> wp m (fun _ => leaves b prev s) s1.
Proof.
  intros Hl Hm. eapply wp_mono; [apply Hm, Hl|]. intros [] s2. by apply leaves_calm.
Qed.

Lemma curr_ok_quiet s s' :
  quiet s s' -> same_cpu s s' -> (forall c, curr (rqs s' c) = curr (rqs s c)) -> curr_ok s -> curr_ok s'.
Proof.
  intros Hq Hs Hc [H1 H2]. split; [by apply (curr_kept_quiet s); [apply Hq|..]|].
  intros c. unfold mine. rewrite Hc, Hs, (rq_class _ _ _ (proj1 Hq)). apply H2.
Qed.

Lemma leaves_set (b : bool) on prev f s s1 :
  minv on s1 -> keep s s1 -> (curr_ok s -> curr_ok s1) ->
  (forall t, quiet_task t (f t) /\ same_sleeper t (f t)) ->
  (forall x, mine s1 x -> on x = runnable (s1 <| tasks ::= alter f prev |>) x) ->
  (mine s prev -> on_rq (f (tasks s1 prev)) = if b then 0 else on_rq (tasks s prev)) ->
  leaves b prev s (s1 <| tasks ::= alter f prev |>).
Proof.
  intros Hm Hk Hc Hf Hon Hb. set (s' := s1 <| tasks ::= alter f prev |>).
  assert (Hq : quiet s1 s') by (eapply (set_task_quiet prev f); [|reflexivity]; intros t; by apply Hf).
  assert (E : tasks s' prev = f (tasks s1 prev)) by (simpl; by rewrite fn_lookup_alter).
  assert (Hms : forall x, mine s' x <-> mine s1 x) by (intros x; unfold mine; by rewrite (rq_class _ _ _ (proj1 Hq))).
  split; [split|].
  - apply (minv_ext on); [|by eapply minv_quiet]. intros x Hx%Hms. by apply Hon.
  - etrans; [by apply keep_keep_but|]. by eapply (set_task_keep_but prev f).
  - intros x. rewrite (rq_class _ _ _ (proj1 Hq)). apply Hk.
  - intros Hmi. split; [|rewrite E; by apply Hb]. rewrite E. destruct (Hf (tasks s1 prev)) as [_ []].
    destruct (kp_task _ _ Hk prev Hmi). pose proof (kp_class _ _ Hk prev). split; congruence.
  - intros Hck%Hc. apply (curr_ok_quiet s1); [done| |done..]. intros x. apply alter_view. intros t. by destruct (Hf t) as [[] _].
Qed.

Lemma prev_queued e c s :
  order e s -> let prev := curr (rqs s c) in
  mine s prev -> runnable s prev = true /\ task_cpu (tasks s prev) = c.
Proof. intros Ho prev Hm. split; [by apply (od_runs _ _ Ho)|by apply (proj2 (od_curr _ _ Ho))]. Qed.

(** Taking the running task off its queue. *)
Lemma deactivate_running e c s fl :
  order e s -> let prev := curr (rqs s c) in move_entity fl = true ->
  wp (do! deactivate_task c prev fl in set_task prev (fun t => t <| on_rq := 0 |>))
     (fun _ => leaves true prev s) s.
Proof.
  intros Ho prev Hfl. wstep.
  assert (H : wp (deactivate_task c prev fl) (fun _ s' => exists on, step_to on s s' /\
    forall x, mine s x -> on x = if decide (x = prev) then false else runnable s x) s).
  { destruct (ordinary_cases s prev (od_class _ _ Ho c)) as [Hm|Hf].
    - destruct (prev_queued _ c _ Ho Hm) as [Hr Hc].
      eapply wp_mono; [by apply (deactivate_task_step (runnable s)); [apply Ho|..]|].
      intros [] s1 H1. exists (<[prev := false]> (runnable s)). split; [done|]. intros x _. by case_decide; subst; rewrite ?fn_lookup_insert, ?fn_lookup_insert_ne by done.
    - eapply wp_mono; [by apply deactivate_foreign, Ho|]. intros [] s1 H1. exists (runnable s).
      split; [by apply calm_to; [apply Ho|]|]. intros x Hx. case_decide as E; [|done]. subst.
      by apply foreign_not_mine in Hf. }
  eapply wp_mono; [exact H|]. intros [] s1 (on & [H1 H2 H3] & Hon). eapply wp_intro; [reflexivity|].
  apply (leaves_set true on); [done..|by split| |by intros _].
  intros x Hx%(keep_mine _ _ _ H2). rewrite Hon by done. unfold runnable, task_on_rq_queued. simpl. case_decide as E.
  - subst. by rewrite fn_lookup_alter.
  - rewrite fn_lookup_alter_ne by done. by rewrite (st_on_rq _ _ (kp_task _ _ H2 x Hx)).
Qed.

Lemma deactivate_prev_step e c preempt s :
  order e s -> let prev := curr (rqs s c) in
  wp (deactivate_prev c prev preempt) (fun _ => leaves (blocks preempt prev s) prev s) s.
Proof.
  intros Ho prev. unfold deactivate_prev, get_task, blocks. do 2 wstep.
  destruct (negb preempt && _); cbn [andb]; [|wstep; by split; [split; [apply Ho|..]|]]. wstep.
  apply (wp_mono _ (fun _ => leaves (negb (signal_pending_state (state (tasks s prev)) prev)) prev s)); [|by intros [] s1 H1].
  destruct (signal_pending_state _ _); cbn [negb].
  - eapply wp_intro; [reflexivity|]. apply (leaves_set false (runnable s)); [apply Ho|done|done|by split| |done].
    intros x _. unfold runnable, task_on_rq_queued. simpl. by rewrite (alter_view on_rq).
  - apply wp_reassoc. wstep. eapply wp_mono; [by eapply deactivate_running|].
    intros [] s1 H1. wgo. apply (wp_mono _ (fun _ => leaves true prev s)).
    { apply leaves_calmly; [done|]. apply calmly_total; [total_tac|apply frames_calm; frames_tac]. }
    intros [] s2 H2. wstep; [|done]. wstep. wcall sl_sleeping; [apply H2|]. intros r s3 [H3 Hr].
    pose proof (leaves_calm _ _ _ _ _ H2 H3) as H13. destruct r as [x|]; [|done].
    apply leaves_calmly; [done|]. apply wake_worker_calm, (foreign_calm s2 s3); [done|by apply Hr].
Qed.

Lemma left_rests b prev s s' :
  ordinary (sched_class (tasks s prev)) = true -> left b prev s s' -> rests s s'.
Proof.
  intros Ho [H1 H2 H3 H4]. split; [done| |apply H2..| |apply H2|apply H2].
  - intros x Hx. destruct (decide (x = prev)) as [->|Hne].
    + destruct (H4 Hx) as [[] ->]. split_and!; [done..|]. destruct b; auto.
    + destruct (kb_task _ _ _ H2 x Hne Hx). auto.
  - intros x Hx. apply (kb_stop_task _ _ _ H2); [|done]. intros ->. by rewrite Hx in Ho.
Qed.

(** *** The next task *)

(** [next] is chosen, and about to run. *)
Record ready b c prev next s s' : Prop := {
  rd_left : left b prev s s';
  rd_running : running s';
  rd_next : next_ok c next s'
}.

Lemma pick_ready fuel b c prev s s1 :
  order (fun _ => False) s -> curr (rqs s c) = prev -> leaves b prev s s1 ->
  wp (pick_next_task (S fuel) c prev) (fun next s' => ready b c prev next s s') s1.
Proof.
  intros Ho <- [Hl Hc]. pose proof (left_rests _ _ _ _ (od_class _ _ Ho c) Hl) as Hr.
  pose proof (rests_at_rest _ _ Hr (od_rest _ _ Ho)) as Ha. wcall pick_next_task_step.
  - split; [apply Hl|apply Hc, Ho| |apply Ha..]. left.
    rewrite (lf_class _ _ _ _ Hl). split; [apply (kb_curr _ _ _ (lf_but _ _ _ _ Hl))|apply Ho].
  - intros next s2 (Hk & H1 & H2 & H3). split; [|done..]. by eapply left_keep.
Qed.

Lemma next_ok_calm c p s s' : next_ok c p s -> settled s -> calm s s' -> next_ok c p s'.
Proof.
  intros [H1 H2 H3 H4] Hs Hc. pose proof (proj2 Hc) as Hk.
  assert (Hp : forall i x, pushable i s' x -> pushable i s x).
  { intros i x. unfold pushable.
    by destruct (core_queue _ _ (rq_core _ _ _ (proj1 (proj1 Hc)) i)) as (_ & _ & _ & _ & -> & _). }
  split.
  - intros i Hi. rewrite (kp_curr _ _ Hk). intros ?%Hp. by apply (H1 i).
  - by intros ?%Hp.
  - intros Hm%(keep_mine _ _ _ Hk). rewrite (runnable_keep s s'), (calm_cpu s s') by done. auto.
  - by rewrite (kp_class _ _ Hk).
Qed.

Lemma ready_calm b c prev next s s1 s2 : ready b c prev next s s1 -> calm s1 s2 -> ready b c prev next s s2.
Proof.
  intros [H1 H2 H3] Hc. pose proof (lf_settled _ _ _ _ H1) as Hs. split.
  - eapply left_keep; [exact H1| |apply Hc]. apply (step_settles s1), calm_to; [apply Hs|done].
  - apply (running_keep s1); [apply Hc| |done]. intros x Hx _. by apply calm_cpu.
  - by eapply next_ok_calm.
Qed.

Lemma quiet_settled s s' :
  quiet s s' -> (forall x, on_rq (tasks s' x) = on_rq (tasks s x)) -> settled s -> settled s'.
Proof.
  intros Hq Ho Hs. apply (minv_ext (runnable s)); [|by eapply minv_quiet].
  intros x _. unfold runnable, task_on_rq_queued. by rewrite Ho.
Qed.

(** [next] becomes what [c] runs. *)
Lemma ready_order b c prev next s s1 s2 :
  order (fun _ => False) s -> curr (rqs s c) = prev -> ready b c prev next s s1 ->
  quiet s1 s2 -> tasks s2 = tasks s1 -> rests s1 s2 ->
  curr (rqs s2 c) = next -> (forall i, i <> c -> curr (rqs s2 i) = curr (rqs s1 i)) ->
  order (eq prev) s2.
Proof.
  intros Ho Hprev [Hl Hrun [N1 N2 N3 N4]] Hq Ht Hr Hc Hi.
  assert (Hm : forall x, mine s2 x <-> mine s1 x) by (intros x; unfold mine; by rewrite Ht).
  assert (Hms : forall x, mine s1 x <-> mine s x) by (intros x; unfold mine; by rewrite (lf_class _ _ _ _ Hl)).
  assert (Hpu : forall i x, pushable i s2 x -> pushable i s1 x).
  { intros i x. unfold pushable. by destruct (core_queue _ _ (rq_core _ _ _ (proj1 Hq) i)) as (_ & _ & _ & _ & -> & _). }
  assert (Hcur : forall i, i <> c -> curr (rqs s2 i) = curr (rqs s i)).
  { intros i Hne. rewrite Hi by done. apply (kb_curr _ _ _ (lf_but _ _ _ _ Hl)). }
  split.
  - apply (quiet_settled s1); [done|intros x; by rewrite Ht|apply Hl].
  - split; intros i; destruct (decide (i = c)) as [->|Hne].
    + rewrite Hc. by intros ?%Hpu.
    + rewrite Hi by done. intros ?%Hpu. by apply (N1 i).
    + rewrite Hc, Ht. intros Hx%Hm. by apply N3.
    + rewrite Hi, Ht by done. intros Hx%Hm. by apply Hrun.
  - intros i. unfold runnable. rewrite Ht. destruct (decide (i = c)) as [->|Hne].
    + rewrite Hc. intros Hx%Hm. by apply N3.
    + rewrite Hcur by done. intros Hx%Hm%Hms. pose proof (od_runs _ _ Ho i Hx) as Hq2.
      unfold runnable, task_on_rq_queued in *. rewrite (st_on_rq (tasks s (curr (rqs s i)))); [done|].
      apply (kb_task _ _ _ (lf_but _ _ _ _ Hl)); [|done]. intros E. apply Hne.
      pose proof (proj2 (od_curr _ _ Ho) i Hx) as E1. rewrite E, <- Hprev in E1.
      rewrite <- E1. apply (proj2 (od_curr _ _ Ho)). by rewrite Hprev, <- E.
  - intros i. rewrite Ht. destruct (decide (i = c)) as [->|Hne]; [by rewrite Hc|].
    rewrite Hcur, (lf_class _ _ _ _ Hl) by done. apply Ho.
  - intros x Hx%Hm%Hms. rewrite Ht. destruct (decide (prev = x)) as [->|Hne]; [by left|].
    rewrite (st_on_cpu _ _ (kb_task _ _ _ (lf_but _ _ _ _ Hl) x (not_eq_sym Hne) Hx)). intros Hon.
    destruct (od_on_cpu _ _ Ho x Hx Hon) as [[]|[i Hix]]. right. exists i.
    rewrite Hcur; [done|]. intros ->. congruence.
  - eapply rests_at_rest; [|apply Ho]. eapply rests_trans; [|exact Hr].
    apply (left_rests b prev); [|done]. rewrite <- Hprev. apply Ho.
Qed.

(** *** The switch *)

(** A change of one task that no class looks at. *)
Lemma order_set e e' p f s :
  order e s ->
  (forall t, quiet_task t (f t) /\ flags (f t) = flags t /\ cpus_allowed (f t) = cpus_allowed t /\
     on_rq (f t) = on_rq t) ->
  (forall x, mine s x -> on_cpu (alter f p (tasks s) x) <> 0 -> e' x \/ exists c, curr (rqs s c) = x) ->
  order e' (s <| tasks ::= alter f p |>).
Proof.
  intros [H1 H2 H3 H4 H5 H6] Hf He. set (s' := s <| tasks ::= alter f p |>).
  assert (Hq : quiet s s') by (eapply (set_task_quiet p f); [|reflexivity]; intros t; by apply Hf).
  assert (Hv : forall {A} (v : task_struct -> A), (forall t, v (f t) = v t) -> forall x, v (tasks s' x) = v (tasks s x))
    by (intros A v Hv x; by apply alter_view).
  assert (Hcl : forall x, sched_class (tasks s' x) = sched_class (tasks s x)) by apply Hq.
  assert (Hm : forall x, mine s' x <-> mine s x) by (intros x; unfold mine; by rewrite Hcl).
  assert (Hrq : forall x, on_rq (tasks s' x) = on_rq (tasks s x)) by (apply Hv; intros t; by apply Hf).
  split.
  - by apply (quiet_settled s).
  - apply (curr_ok_quiet s); [done|intros x; apply Hv; intros t; by destruct (Hf t) as [[] _]|done|done].
  - intros c Hx%Hm. unfold runnable, task_on_rq_queued. rewrite Hrq. by apply H3.
  - intros c. rewrite Hcl. apply H4.
  - intros x Hx%Hm. by apply He.
  - apply (rests_at_rest s); [|done]. split; try done.
    intros x Hx. rewrite Hrq. split_and!; [..|by left]; apply Hv; intros t; by destruct (Hf t) as ([] & ? & ? & ?).
Qed.

Lemma order_set_cpu e e' p v s :
  order e s -> (v <> 0 -> e' p \/ exists c, curr (rqs s c) = p) -> (forall x, x <> p -> e x -> e' x) ->
  wp (set_task p (fun t => t <| on_cpu := v |>)) (fun _ s' => order e' s' /\ keep_but p s s' /\
    (forall x, sched_class (tasks s' x) = sched_class (tasks s x)) /\
    (forall x, state (tasks s' x) = state (tasks s x) /\ on_rq (tasks s' x) = on_rq (tasks s x))) s.
Proof.
  intros Ho Hv He. eapply wp_intro; [reflexivity|]. split_and!.
  - apply (order_set e); [done|by split|]. intros x Hx. destruct (decide (p = x)) as [->|Hne].
    + rewrite fn_lookup_alter. exact Hv.
    + rewrite fn_lookup_alter_ne by done. intros Hon. destruct (od_on_cpu _ _ Ho x Hx Hon); auto.
  - by eapply (set_task_keep_but p).
  - intros x. simpl. by apply alter_view.
  - intros x. split; simpl; by apply alter_view.
Qed.

(** What the rest of [__schedule] leaves of the queued tasks. *)
Record drift s s' : Prop := {
  dr_class : forall x, sched_class (tasks s' x) = sched_class (tasks s x);
  dr_rq : forall x, mine s x -> on_rq (tasks s' x) = on_rq (tasks s x);
  dr_state : forall x, mine s x -> state (tasks s' x) = state (tasks s x);
  dr_curr : forall c, curr (rqs s' c) = curr (rqs s c)
}.

Lemma drift_trans s1 s2 s3 : drift s1 s2 -> drift s2 s3 -> drift s1 s3.
Proof.
  intros [A1 A2 A3 A4] [B1 B2 B3 B4].
  assert (Hm : forall x, mine s1 x -> mine s2 x) by (intros x; unfold mine; by rewrite A1).
  split; intros x; intros; by rewrite ?B1, ?B2, ?B3, ?B4 by auto; auto.
Qed.

Lemma keep_drift s s' : keep s s' -> drift s s'.
Proof.
  intros Hk. split; [apply Hk| |..|apply Hk]; intros x Hx; by destruct (kp_task _ _ Hk x Hx).
Qed.

(** What a task of the core may do to a machine in order. *)
Definition goes e s (s' : kstate) : Prop := order e s' /\ drift s s'.

Lemma goes_calm e s s1 s2 : goes e s s1 -> calm s1 s2 -> goes e s s2.
Proof.
  intros [H1 H2] Hc. split; [by eapply order_calm|]. eapply drift_trans; [exact H2|]. apply keep_drift, Hc.
Qed.

Lemma goes_settles e s s1 s2 : goes e s s1 -> settles s1 s2 -> goes e s s2.
Proof.
  intros [H1 H2] Hc. split; [by eapply order_settles|]. eapply drift_trans; [exact H2|]. apply keep_drift, Hc.
Qed.

Lemma goes_calmly e m s s1 : goes e s s1 -> calmly m s1 -> wp m (fun _ s' => goes e s s') s1.
Proof.
  intros Hg Hm. eapply wp_mono; [apply Hm, Hg|]. intros [] s2. by apply goes_calm.
Qed.

Lemma goes_set_cpu e e' p v s s1 :
  goes e s s1 -> (v <> 0 -> e' p \/ exists c, curr (rqs s1 c) = p) -> (forall x, x <> p -> e x -> e' x) ->
  wp (set_task p (fun t => t <| on_cpu := v |>)) (fun _ => goes e' s) s1.
Proof.
  intros [Ho Hd] Hv He. wcall order_set_cpu; [done..|]. intros [] s2 (H1 & H2 & H3 & H4). split; [done|].
  eapply drift_trans; [exact Hd|]. split; [done|..]; [by intros x _; apply H4..|apply H2].
Qed.

Lemma task_dead_calm p s :
  ordinary (sched_class (tasks s p)) = true ->
  calmly (call_if (m_task_dead (class_of (sched_class (tasks s p)))) (fun m => m p)) s.
Proof.
  intros [[Hm|Hm]|Hf]%ordinary_cases; [rewrite Hm; by intros _..|].
  rewrite foreign_class_of by done. destruct (m_task_dead _) as [m|] eqn:E; [|by intros _].
  cbn [call_if]. by eapply quietly_calmly, ol_dead.
Qed.

Lemma context_switch_goes c prev next s s1 :
  goes (eq prev) s s1 -> curr (rqs s1 c) = next -> ordinary (sched_class (tasks s1 prev)) = true ->
  wp (context_switch c prev next) (fun _ s' => goes (fun _ => False) s s') s1.
Proof.
  intros H1 Hc Ho. unfold context_switch, prepare_task. wstep.
  assert (Hcl : forall s', goes (eq prev) s s' -> ordinary (sched_class (tasks s' prev)) = true).
  { intros s' [_ Hd]. destruct H1 as [_ Hd1]. rewrite (dr_class _ _ Hd). by rewrite (dr_class _ _ Hd1) in Ho. }
  eapply wp_mono; [apply (goes_set_cpu (eq prev) (eq prev)); [exact H1|intros _; right; by exists c|done]|].
  intros [] s2 H2. wstep. eapply wp_mono; [apply goes_calmly; [exact H2|]|].
  { apply calmly_total; [total_tac|apply frames_calm; frames_tac]. }
  intros [] s3 H3. unfold finish_task_switch, get_task, finish_task. do 3 wstep.
  eapply wp_mono; [apply (goes_set_cpu (eq prev) (fun _ => False)); [exact H3|done|by intros x Hx ->]|].
  intros [] s4 H4. wstep; [|done]. apply goes_calmly; [done|]. apply calmly_class, task_dead_calm.
  destruct H4 as [_ Hd4], H3 as [_ Hd3]. rewrite (dr_class _ _ Hd4). destruct H1 as [_ Hd1]. by rewrite (dr_class _ _ Hd1) in Ho.
Qed.

(** The balance callbacks. *)
Lemma run_callback_goes e f c s s1 : goes e s s1 -> wp (run_callback f c) (fun _ => goes e s) s1.
Proof.
  intros Hg. unfold run_callback.
  destruct (f =? rt_push_head); [|destruct (f =? rt_pull_head)].
  - eapply wp_mono; [apply push_rt_tasks_step; apply Hg|]. intros [] s2 [H2 _]. by apply (goes_settles _ _ s1).
  - eapply wp_mono; [apply pull_rt_task_step; apply Hg|]. intros [] s2. by apply goes_settles.
  - apply goes_calmly; [done|]. apply quietly_calmly, ol_callback.
Qed.

Lemma balance_callback_goes e c s s1 : goes e s s1 -> wp (balance_callback_call c) (fun _ => goes e s) s1.
Proof.
  intros Hg. unfold balance_callback_call, __balance_callback, get_rq. wgo.
  destruct (balance_callback (rqs s1 c)) as [|f l]; [done|]. wgo.
  eapply wp_mono; [apply goes_calmly; [exact Hg|]|].
  { apply calmly_total; [total_tac|apply frames_calm; frames_tac]. }
  intros [] s2 H2. apply wp_foreach; [done|]. intros x s3 _. apply run_callback_goes.
Qed.

(** *** [__schedule] *)

Record switched preempt c prev s s' : Prop := {
  sw_class : forall x, sched_class (tasks s' x) = sched_class (tasks s x);
  sw_prev : mine s prev -> on_rq (tasks s' prev) = if blocks preempt prev s then 0 else on_rq (tasks s prev);
  sw_others : forall x, mine s x -> x <> prev ->
    on_rq (tasks s' x) = on_rq (tasks s x) /\ state (tasks s' x) = state (tasks s x);
  sw_curr : forall i, i <> c -> curr (rqs s' i) = curr (rqs s i)
}.

Lemma order_weaken e e' s :
  order e s -> (forall x, e x -> e' x \/ exists c, curr (rqs s c) = x) -> order e' s.
Proof.
  intros [H1 H2 H3 H4 H5 H6] He. split; try done. intros x Hx Hon.
  destruct (H5 x Hx Hon) as [|]; [by apply He|by right].
Qed.

Lemma goes_refl e s : order e s -> goes e s s.
Proof. done. Qed.

(** From the moment that [next] has been chosen. *)
Lemma set_curr_step b c prev next s s1 :
  order (fun _ => False) s -> curr (rqs s c) = prev -> ready b c prev next s s1 -> prev <> next ->
  wp (set_rq c (fun r => r <| curr := next |>)) (fun _ s2 => order (eq prev) s2 /\ tasks s2 = tasks s1 /\
    curr (rqs s2 c) = next /\ forall i, i <> c -> curr (rqs s2 i) = curr (rqs s1 i)) s1.
Proof.
  intros Ho Hp Hr Hne. eapply wp_intro; [reflexivity|]. set (s2 := s1 <| rqs ::= alter _ c |>).
  assert (Hc : curr (rqs s2 c) = next) by (simpl; by rewrite fn_lookup_alter).
  assert (Hi : forall i, i <> c -> curr (rqs s2 i) = curr (rqs s1 i)).
  { intros i Hi. simpl. by rewrite fn_lookup_alter_ne. }
  split_and!; [|done..]. apply (ready_order b c prev next s s1); try done.
  - eapply (set_rq_quiet c); [|reflexivity]. by split.
  - split; try done; try (intros i; simpl; by apply alter_rq_view). intros x _. auto.
Qed.

Lemma switch_to_next b c prev next (voluntary : bool) s s1 :
  order (fun _ => False) s -> curr (rqs s c) = prev -> ready b c prev next s s1 ->
  wp (if negb (bool_decide (prev = next)) then
         do! set_rq c (fun r => r <| nr_switches ::= fun n => u64 (n + 1) |>) in
         do! set_rq c (fun r => r <| curr := next |>) in
         do! set_task prev (fun t => if voluntary then t <| nvcsw ::= fun n => u64 (n + 1) |>
                                     else t <| nivcsw ::= fun n => u64 (n + 1) |>) in
         context_switch c prev next
       else clear_clock_flags c)
    (fun _ s' => in_order s' /\ exists s2, left b prev s s2 /\
       (forall x, sched_class (tasks s' x) = sched_class (tasks s2 x)) /\
       (forall x, mine s2 x -> on_rq (tasks s' x) = on_rq (tasks s2 x) /\ state (tasks s' x) = state (tasks s2 x)) /\
       forall i, i <> c -> curr (rqs s' i) = curr (rqs s2 i)) s1.
Proof.
  intros Ho Hp Hr. case_bool_decide as Hne; cbn [negb].
  - assert (H1 : in_order s1).
    { apply (order_weaken (eq prev)).
      - apply (ready_order b c prev next s s1); try done; [by apply keep_rests|].
        rewrite (kb_curr _ _ _ (lf_but _ _ _ _ (rd_left _ _ _ _ _ _ Hr))). congruence.
      - intros x <-. right. exists c. rewrite (kb_curr _ _ _ (lf_but _ _ _ _ (rd_left _ _ _ _ _ _ Hr))). done. }
    eapply wp_mono; [apply (goes_calmly (fun _ => False) _ s1 s1); [by apply goes_refl|]|].
    { apply calmly_total; [total_tac|apply frames_calm; frames_tac]. }
    intros [] s2 [H2 [D1 D2 D3 D4]]. split; [done|]. exists s1. split; [apply Hr|]. split; [done|]. split; [auto|auto].
  - wstep. eapply wp_mono; [apply (wp_total calm); [total_tac|apply frames_calm; frames_tac]|].
    intros [] s2 H2. apply (ready_calm _ _ _ _ _ _ _ Hr) in H2. wstep. wcall set_curr_step; [exact Ho|exact Hp|exact H2|done|].
    intros [] s3 (H3 & E1 & E2 & E3). wstep.
    assert (Hcl : forall x, sched_class (tasks s3 x) = sched_class (tasks s x)).
    { intros x. rewrite E1. apply (lf_class _ _ _ _ (rd_left _ _ _ _ _ _ H2)). }
    eapply wp_mono; [apply (goes_calmly (eq prev) _ s3 s3); [by apply goes_refl|]|].
    { apply calmly_total; [total_tac|apply frames_calm; destruct voluntary; frames_tac]. }
    intros [] s4 H4. eapply wp_mono; [apply (context_switch_goes c prev next s3); [exact H4|..]|].
    + by rewrite (dr_curr _ _ (proj2 H4)).
    + rewrite (dr_class _ _ (proj2 H4)), Hcl, <- Hp. apply Ho.
    + intros [] s5 [H5 [D1 D2 D3 D4]]. split; [done|]. exists s2. split; [apply H2|]. split; [|split].
      * intros x. by rewrite D1, E1.
      * intros x Hx. rewrite D2, D3, E1; [done|..]; unfold mine in *; by rewrite E1.
      * intros i Hi. by rewrite D4, E3.
Qed.

Lemma schedule_run fuel preempt s :
  in_order s -> let c := this_cpu s in let prev := curr (rqs s c) in
  wp (__schedule (S fuel) preempt) (fun _ s' => in_order s' /\ switched preempt c prev s s') s.
Proof.
  intros Ho c prev. unfold __schedule, get_rq. wgo. fold c prev.
  eapply wp_mono; [apply (goes_calmly (fun _ => False) _ s s); [by apply goes_refl|]|].
  { apply calmly_total; [total_tac|apply frames_calm; frames_tac]. }
  intros [] s1 H1. wstep. eapply wp_mono; [apply (goes_calmly (fun _ => False)); [exact H1|]|].
  { apply calmly_total; [apply update_rq_clock_total|apply update_rq_clock_calm]. }
  clear s1 H1. intros [] s1 [H1 [C1 C2 C3 C4]]. wstep.
  assert (Hprev : curr (rqs s1 c) = prev) by by rewrite C4.
  assert (Hm : forall x, mine s1 x <-> mine s x) by (intros x; unfold mine; by rewrite C1).
  rewrite <- Hprev at 1. wcall deactivate_prev_step; [exact H1|]. rewrite Hprev. intros voluntary s2 H2. wstep.
  wcall pick_ready; [exact H1|exact Hprev|exact H2|]. intros next s3 H3. wstep.
  eapply wp_mono; [apply (wp_total calm); [total_tac|apply frames_calm; frames_tac]|].
  intros [] s4 H4. apply (ready_calm _ _ _ _ _ _ _ H3) in H4. wstep.
  eapply wp_mono; [apply (wp_total calm); [total_tac|]|].
  { apply frames_calm; apply frames_modify; intros s0; [split; split|split]; done. }
  intros [] s5 H5. apply (ready_calm _ _ _ _ _ _ _ H4) in H5. wstep.
  wcall switch_to_next; [exact H1|exact Hprev|exact H5|]. intros [] s6 (H6 & s7 & [F1 F2 F3 F4] & E1 & E2 & E3).
  eapply wp_mono; [apply (balance_callback_goes (fun _ => False) c s6 s6); by apply goes_refl|].
  intros [] s8 [H8 [D1 D2 D3 D4]]. split; [done|].
  assert (Hm7 : forall x, mine s x -> mine s7 x /\ mine s6 x).
  { intros x Hx%Hm. unfold mine in *. rewrite E1, F3. done. }
  split.
  - intros x. by rewrite D1, E1, F3, C1.
  - intros Hx. destruct (Hm7 _ Hx) as [? ?]. rewrite D2 by done. destruct (E2 prev) as [-> _]; [done|].
    destruct (F4 (proj2 (Hm _) Hx)) as [_ ->]. unfold blocks. by rewrite C2, C3.
  - intros x Hx Hne. destruct (Hm7 _ Hx) as [? ?]. rewrite D2, D3 by done. destruct (E2 x) as [-> ->]; [done|].
    destruct (kb_task _ _ _ F2 x Hne (proj2 (Hm _) Hx)) as [-> _ _ -> _ _ _ _ _ _]. by rewrite C2, C3.
  - intros i Hi. by rewrite D4, E3, (kb_curr _ _ _ F2), C4.
Qed.

End Switching.
