(* ===== verification/Moves.v ===== *)
(** * Moving queued tasks between CPUs

    [move_queued_task] takes a task that is queued and does not run from one
    CPU to another: the machine stays settled, and what is counted on the run
    queue that it leaves is only less ([eases]).  [HotplugProps] empties a
    dying CPU with it, [Affinity] follows a change of the CPUs of a task. *)

From S2P Require Import Prelude Sched Ts RtBandwidth Rt RtProps SchedClass ClassProps.
From S2P Require Import Frames CoreInv SetSched Wake CoreProps Switch SwitchProps InOrder.

(** ** What is counted in [rq->nr_running] *)

(** The run queue of [c] is as busy as before. *)
Record same_load (c : cpu) (s s' : kstate) : Prop := {
  sl_queued : rt_queued (rq_rt (rqs s' c)) = rt_queued (rq_rt (rqs s c));
  sl_throttled : rt_throttled (rq_rt (rqs s' c)) = rt_throttled (rq_rt (rqs s c));
  sl_rt : rt_nr_running (rq_rt (rqs s' c)) = rt_nr_running (rq_rt (rqs s c));
  sl_nr : nr_running (rqs s' c) = nr_running (rqs s c)
}.

#[export] Instance same_load_preorder c : PreOrder (same_load c).
Proof. split; [by split|]. intros s1 s2 s3 [] []. split; congruence. Qed.

(** Every task of the real-time queue is counted: it is not throttled. *)
Definition flows (c : cpu) (s : kstate) : Prop :=
  rt_throttled (rq_rt (rqs s c)) = 0 /\
  (rt_nr_running (rq_rt (rqs s c)) <> 0 -> rt_queued (rq_rt (rqs s c)) <> 0).

Lemma set_rq_load c i f :
  (forall r, rt_queued (rq_rt (f r)) = rt_queued (rq_rt r) /\
     rt_throttled (rq_rt (f r)) = rt_throttled (rq_rt r) /\
     rt_nr_running (rq_rt (f r)) = rt_nr_running (rq_rt r) /\ nr_running (f r) = nr_running r) ->
  frames (same_load c) (set_rq i f).
Proof.
  intros Hf. apply frames_modify. intros s. split; simpl.
  - apply (alter_rq_view (fun r => rt_queued (rq_rt r))), Hf.
  - apply (alter_rq_view (fun r => rt_throttled (rq_rt r))), Hf.
  - apply (alter_rq_view (fun r => rt_nr_running (rq_rt r))), Hf.
  - apply alter_rq_view, Hf.
Qed.

#[export] Hint Extern 1 (frames (same_load _) (set_rq _ _)) =>
  apply set_rq_load; intros; split_and!; reflexivity : frames.

(** What is counted is only less by real-time tasks. *)
Record eases (c : cpu) (s s' : kstate) : Prop := {
  ea_flows : flows c s -> flows c s';
  ea_others : others (rqs s' c) = others (rqs s c);
  ea_prio : same_prio s s'
}.

#[export] Instance eases_preorder c : PreOrder (eases c).
Proof. split; [by split|]. intros s1 s2 s3 [A1 A2 A3] [B1 B2 B3]. split; [auto|congruence|by etrans]. Qed.

Lemma same_load_eases c s s' : same_load c s s' -> same_prio s s' -> eases c s s'.
Proof. intros [E1 E2 E3 E4] Hp. split; [|unfold others; by rewrite E1, E3, E4|done]. unfold flows. by rewrite E1, E2, E3. Qed.

Section Load.
Context `{Hfeat : SchedFeat} `{Hlim : Rlimits} `{Hpri : Cpupri} `{Htop : Topology}.
Context `{Hoth : OtherClasses}.
Implicit Types (c i : cpu) (p x : task) (s : kstate) (on : task -> bool).

Lemma clock_load c i : frames (same_load c) (update_rq_clock i).
Proof. frames_tac. Qed.

Lemma pick_chain_load c i :
  frames (same_load c) (let! p := _pick_next_task_rt i in do! dequeue_pushable_task i p in
                        do! rt_queue_push_tasks i in ret (PICKED p)).
Proof. frames_tac. Qed.

Lemma enqueue_pushable_load c i p : frames (same_load c) (enqueue_pushable_task i p).
Proof. frames_tac. Qed.

Lemma pick_chain_prio i :
  frames same_prio (let! p := _pick_next_task_rt i in do! dequeue_pushable_task i p in
                    do! rt_queue_push_tasks i in ret (PICKED p)).
Proof. frames_tac. Qed.

(** The classes take no account of a task of another class. *)
Lemma update_curr_foreign c s :
  sched_class (tasks s (curr (rqs s c))) <> rt_sched_class -> update_curr_rt c s = Done (tt, s).
Proof. intros H. unfold update_curr_rt, get_rq, get_task. rewrite !bind_gets, bool_decide_false by done. done. Qed.

Lemma top_flows (r : rq) :
  rt_throttled (rq_rt r) = 0 -> rt_nr_running (rq_rt (enqueue_top_rq r)) <> 0 ->
  rt_queued (rq_rt (enqueue_top_rq r)) <> 0.
Proof.
  intros Ht. unfold enqueue_top_rq, rt_rq_throttled. rewrite Ht. cbn [Z.eqb negb].
  destruct (Z.eqb_spec (rt_queued (rq_rt r)) 0); cbn [negb orb]; [|done].
  destruct (Z.eqb_spec (rt_nr_running (rq_rt r)) 0); [done|]. intros _. simpl. lia.
Qed.

Lemma dec_tasks_keeps t r :
  rt_queued (dec_tasks t r) = rt_queued r /\ rt_throttled (dec_tasks t r) = rt_throttled r.
Proof.
  unfold dec_tasks, add_migration, mig_update.
  repeat match goal with |- context [if ?b then _ else _] => destruct b end; done.
Qed.

Lemma dequeue_flows c p fl s :
  rt_ok c s -> rt_task_queued c s p -> move_entity fl = true ->
  sched_class (tasks s (curr (rqs s c))) <> rt_sched_class ->
  wp (dequeue_task_rt c p fl) (fun _ s' => flows c s -> flows c s') s.
Proof.
  intros Hi Hp Hmv Hcl. unfold dequeue_task_rt. wstep. apply (wp_intro _ _ _ _ _ (update_curr_foreign c s Hcl)).
  pose proof (ri_base _ _ _ Hi) as Hb. pose proof (ri_array _ _ _ Hb) as Ha.
  destruct (ra_on _ _ _ Ha p Hp) as [Hcpu Hon].
  wstep. eapply wp_mono; [apply (dequeue_rt_entity_eff c p fl s); [done|done|by eapply base_top_ok|]|].
  { intros _. split; [by apply (queued_prio c s p Hb)|by eapply base_sized]. }
  cbv beta. intros [] s2 H2. eapply wp_mono; [apply (dequeue_pushable_task_eff c p s2)|]. cbv beta. intros [] s3 H3 [Ht _].
  unfold flows. rewrite (eff_rq _ _ _ _ _ _ H3), (req_rq _ _ _ _ _ _ H2).
  set (r := dequeue_top_rq (rqs s c) <| rq_rt ::= _ |>).
  assert (Hr : rt_throttled (rq_rt r) = 0).
  { unfold r. simpl. rewrite (proj2 (dec_tasks_keeps _ _)). rewrite Hmv. simpl. unfold dequeue_top_rq.
    by destruct (_ =? 0). }
  split; [|by apply top_flows]. simpl. unfold enqueue_top_rq. by destruct (_ || _).
Qed.

Lemma dequeue_eases c p fl s :
  rt_ok c s -> rt_task_queued c s p -> move_entity fl = true ->
  sched_class (tasks s (curr (rqs s c))) <> rt_sched_class ->
  wp (dequeue_task_rt c p fl) (fun _ => eases c s) s.
Proof.
  intros Hi Hp Hmv Hcl. pose proof (dequeue_task_rt_run c p fl s Hi Hp Hmv) as Hrun.
  apply wp_done in Hrun as ([] & s' & He & _ & _ & _ & _ & _ & _ & Ho & _).
  apply (wp_intro _ _ _ _ _ He). split; [|exact Ho|by eapply (proj1 (rt_moves_prio c p fl))].
  by apply (wp_elim _ _ _ _ _ (dequeue_flows c p fl s Hi Hp Hmv Hcl) He).
Qed.
End Load.

(** ** Moving a task *)

(** [p] sits on the queues of [i], and nothing else has changed. *)
Record relocates (p : task) (i : cpu) (s s' : kstate) : Prop := {
  rl_settles : settles s s';
  rl_cpu : task_cpu (tasks s' p) = i;
  rl_rest : forall x, x <> p -> task_cpu (tasks s' x) = task_cpu (tasks s x)
}.

(** [p->on_rq] while it is moved. *)
Definition marked (v : Z) (p : task) (s : kstate) : kstate :=
  s <| tasks ::= alter (fun t => t <| on_rq := v |>) p |>.

Section Moving.
Context `{Hfeat : SchedFeat} `{Hlim : Rlimits} `{Hpri : Cpupri} `{Htop : Topology}.
Context `{Hoth : OtherClasses}.
Implicit Types (c i : cpu) (p x : task) (s : kstate) (on : task -> bool) (v w : Z).

Lemma marked_quiet v p s : quiet s (marked v p s).
Proof. apply (set_task_quiet p (fun t => t <| on_rq := v |>) ltac:(by split) s tt). reflexivity. Qed.

Lemma marked_view {A} (f : task_struct -> A) v p s x :
  (forall t, f (t <| on_rq := v |>) = f t) -> f (tasks (marked v p s) x) = f (tasks s x).
Proof. intros H. by apply alter_view. Qed.

Lemma marked_on_rq v p s : on_rq (tasks (marked v p s) p) = v.
Proof. unfold marked. simpl. by rewrite fn_lookup_alter. Qed.

Lemma marked_ne v p s x : x <> p -> tasks (marked v p s) x = tasks s x.
Proof. intros H. unfold marked. simpl. by rewrite fn_lookup_alter_ne. Qed.

Lemma marked_keep v p s s' : keep s s' -> keep (marked v p s) (marked v p s').
Proof.
  intros Hk. split; try apply Hk.
  - intros x. rewrite !(marked_view sched_class) by done. apply Hk.
  - intros x Hx. unfold mine in Hx. rewrite !(marked_view sched_class) in Hx by done.
    destruct (kp_task _ _ Hk x Hx). destruct (decide (x = p)) as [->|Hne]; [|by rewrite !marked_ne].
    split; rewrite ?marked_on_rq; try done; rewrite ?(marked_view state), ?(marked_view flags), ?(marked_view on_cpu),
      ?(marked_view static_prio), ?(marked_view normal_prio), ?(marked_view rt_priority), ?(marked_view policy),
      ?(marked_view nr_cpus_allowed), ?(marked_view cpus_allowed); done.
  - intros x Hx. destruct (decide (x = p)) as [->|Hne]; [by rewrite !marked_on_rq|].
    rewrite !(marked_ne _ _ _ x Hne) in *. by apply (kp_stop_task _ _ Hk).
Qed.

(** Marked, and marked again as it was. *)
Lemma marked_again v p s : keep s (marked (on_rq (tasks s p)) p (marked v p s)).
Proof.
  split; try done.
  - intros x. by rewrite !(marked_view sched_class).
  - intros x _. destruct (decide (x = p)) as [->|Hne]; [|by rewrite !marked_ne].
    split; rewrite ?marked_on_rq; try done; unfold marked; simpl; by rewrite !fn_lookup_alter.
  - intros x _. destruct (decide (x = p)) as [->|Hne]; [by rewrite marked_on_rq|by rewrite !marked_ne].
Qed.

Lemma marked_curr_ok v p s : curr_ok s -> curr_ok (marked v p s).
Proof.
  intros [Hc Hr]. split; [exact Hc|]. intros i. unfold mine. change (curr (rqs (marked v p s) i)) with (curr (rqs s i)).
  rewrite !(marked_view sched_class), (marked_view task_cpu) by done. apply Hr.
Qed.

Lemma marked_load c v p s : same_load c s (marked v p s).
Proof. by split. Qed.

Lemma marked_prio v p s : same_prio s (marked v p s).
Proof. intros x. by apply marked_view. Qed.

Lemma check_preempt_frames (R : kstate -> kstate -> Prop) `{!PreOrder R} i p fl s s' :
  (forall k, k = rt_sched_class \/ k = ts_sched_class -> frames R (m_check_preempt_curr (class_of k) i p fl)) ->
  frames R (resched_curr i) -> frames R (rq_clock_skip_update i) ->
  mine s p -> check_preempt_curr i p fl s = Done (tt, s') -> R s s'.
Proof.
  intros H1 H2 H3 Hm He. unfold check_preempt_curr in He. rewrite bind_gets in He. cbv zeta in He.
  apply bind_inv in He as ([] & s1 & He & Hs). etrans; [instantiate (1 := s1)|].
  - case_bool_decide as Hk; [rewrite <- Hk in He; by eapply (H1 _ Hm)|].
    by eapply (frames_when R _ _ H2).
  - rewrite bind_gets in Hs. cbv zeta in Hs. by eapply (frames_when R _ _ H3).
Qed.

Lemma check_preempt_local c i p fl s s' :
  mine s p -> check_preempt_curr i p fl s = Done (tt, s') ->
  same_load c s s' /\ same_cpu s s' /\ same_prio s s'.
Proof.
  intros Hm He. split_and!; eapply check_preempt_frames; try exact He; try exact Hm; try exact _;
    try (intros k [-> | ->]; cbn [class_of m_check_preempt_curr rt_class ts_class]); frames_tac.
Qed.
(** Only the structure of [p] changes, and not its priority. *)
Record only_task p s s' : Prop := {
  ot_rqs : rqs s' = rqs s;
  ot_prio : same_prio s s';
  ot_rest : forall x, x <> p -> tasks s' x = tasks s x
}.

#[local] Instance only_task_preorder p : PreOrder (only_task p).
Proof.
  split; [by split|]. intros s1 s2 s3 [A1 A2 A3] [B1 B2 B3]. split; [congruence|by etrans|].
  intros x Hx. by rewrite B3, A3.
Qed.

Lemma only_task_set p f : (forall t, prio (f t) = prio t) -> frames (only_task p) (set_task p f).
Proof.
  intros Hf. apply frames_modify. intros s. split; [done| |].
  - intros x. by apply alter_view.
  - intros x Hx. simpl. by rewrite fn_lookup_alter_ne.
Qed.
#[local] Hint Extern 1 (frames (only_task _) (set_task _ _)) => apply only_task_set; intros; reflexivity : frames.

Lemma set_task_cpu_local p i s s' :
  mine s p -> set_task_cpu p i s = Done (tt, s') -> only_task p s s'.
Proof.
  intros Hm He. unfold set_task_cpu, get_task in He. rewrite bind_gets in He.
  assert (E : class_migrate (sched_class (tasks s p)) = None) by (by destruct Hm as [-> | ->]).
  rewrite E in He. cbn [call_if] in He. revert He. apply frames_bind; [exact _| |]; intros; frames_tac.
Qed.

Lemma check_preempt_last c on i p fl s :
  minv on s -> on p = true -> mine s p -> task_cpu (tasks s p) = i ->
  wp (check_preempt_curr i p fl) (fun _ s' => step_to on s s' /\ same_cpu s s' /\ eases c s s') s.
Proof.
  intros Hm Hp Hmi Hcpu. pose proof (check_preempt_step on i p fl s Hm Hp Hmi Hcpu) as Hcp.
  apply wp_done in Hcp as ([] & s' & He & T & _). apply (wp_intro _ _ _ _ _ He).
  destruct (check_preempt_local c i p fl s s' Hmi He) as (? & ? & ?). split_and!; [done..|by apply same_load_eases].
Qed.

(** [p] leaves the queues of one CPU by [dq], and joins those of [i] by [enq];
    [R] is what both keep. *)
Section Relocate.
Context {A : Type} (R : kstate -> kstate -> Prop) (i : cpu) (p : task) (dq mid enq : K unit) (last : K A) (v : A) (s : kstate).
Context `{!PreOrder R}.
Let s1 := marked TASK_ON_RQ_MIGRATING p s.
Let out := <[p := false]> (runnable s).
Hypothesis Hload : forall s s', rqs s' = rqs s -> same_prio s s' -> R s s'.
Hypothesis Hlast : forall s5, minv (runnable s) s5 -> mine s5 p -> task_cpu (tasks s5 p) = i ->
  wp last (fun a s6 => (step_to (runnable s) s5 s6 /\ same_cpu s5 s6 /\ R s5 s6) /\ a = v) s5.
Hypothesis Hdq : wp dq (fun _ s2 => step_to out s1 s2 /\ same_cpu s1 s2 /\ R s1 s2) s1.
Hypothesis Hmid : forall s3, task_cpu (tasks s3 p) = i -> mid s3 = Done (tt, s3).
Hypothesis Henq : forall s3, minv out s3 -> keep s1 s3 -> task_cpu (tasks s3 p) = i ->
  wp enq (fun _ s4 => step_to (<[p := true]> out) s3 s4 /\ same_cpu s3 s4 /\ R s3 s4) s3.

Lemma relocate_run :
  settled s -> runnable s p = true -> mine s p -> (forall j, curr (rqs s j) <> p) ->
  wp (do! set_task p (fun t => t <| on_rq := TASK_ON_RQ_MIGRATING |>) in do! dq in do! set_task_cpu p i in
      do! mid in do! enq in do! set_task p (fun t => t <| on_rq := TASK_ON_RQ_QUEUED |>) in
      last) (fun a s' => (relocates p i s s' /\ R s s') /\ a = v) s.
Proof.
  intros Hs Hp Hmi Hnc. assert (Hon : on_rq (tasks s p) = TASK_ON_RQ_QUEUED) by by apply Z.eqb_eq.
  wstep. eapply wp_intro; [reflexivity|]. fold (marked TASK_ON_RQ_MIGRATING p s). fold s1.
  wstep. eapply wp_mono; [exact Hdq|]. intros [] s2 (T2 & C2 & R2).
  pose proof (sp_keep _ _ _ T2) as K2.
  assert (Hmi2 : mine s2 p).
  { apply (keep_mine _ _ p K2). unfold mine, s1. by rewrite !(marked_view sched_class). }
  assert (Hoff : out p = false) by (unfold out; by rewrite fn_lookup_insert).
  assert (Hnc2 : forall j, curr (rqs s2 j) <> p) by (intros j; rewrite (kp_curr _ _ K2); apply Hnc).
  pose proof (set_task_cpu_step out p i s2 ltac:(apply T2) Hoff Hmi2 Hnc2) as H.
  apply wp_done in H as ([] & s3 & He & T3 & E3). wstep. apply (wp_intro _ _ _ _ _ He).
  destruct (set_task_cpu_local p i s2 s3 Hmi2 He) as [Q3 P3 O3]. clear He.
  wstep. apply (wp_intro _ _ _ _ _ (Hmid s3 E3)).
  assert (K3 : keep s1 s3) by (etrans; [exact K2|apply T3]).
  wstep. eapply wp_mono; [apply (Henq s3); [apply T3|exact K3|exact E3]|]. intros [] s4 (T4 & C4 & R4).
  assert (K4 : keep s1 s4) by (etrans; [exact K3|apply T4]).
  wstep. eapply wp_intro; [reflexivity|]. fold (marked TASK_ON_RQ_QUEUED p s4). set (s5 := marked TASK_ON_RQ_QUEUED p s4).
  assert (K5 : keep s s5).
  { etrans; [apply (marked_again TASK_ON_RQ_MIGRATING p)|]. rewrite Hon. by apply marked_keep. }
  assert (M5 : minv (runnable s) s5).
  { eapply minv_quiet; [apply marked_quiet|]. eapply minv_ext; [|apply T4]. intros x _. unfold out.
    destruct (decide (x = p)) as [->|Hx]; [by rewrite fn_lookup_insert|by rewrite !fn_lookup_insert_ne]. }
  assert (Hmi5 : mine s5 p) by (by apply (keep_mine _ _ _ K5)).
  assert (E5 : task_cpu (tasks s5 p) = i).
  { unfold s5. by rewrite (marked_view task_cpu), C4. }
  eapply wp_mono; [exact (Hlast s5 M5 Hmi5 E5)|]. intros a s6 [(T6 & C6 & R6) Ha]. split; [|exact Ha].
  split; [split|].
  - split_and!; [|etrans; [exact K5|apply T6]|].
    + eapply minv_ext; [|apply T6]. intros x Hx. symmetry. apply runnable_keep; [etrans; [exact K5|apply T6]|].
      apply (keep_mine s5 s6) in Hx; [|apply T6]. by apply (keep_mine s s5) in Hx.
    + intros H. apply T6, marked_curr_ok, T4, T3, T2, marked_curr_ok, H.
  - by rewrite C6.
  - intros x Hx. rewrite C6. unfold s5. rewrite marked_ne, C4, O3, C2 by done. unfold s1. by rewrite marked_ne.
  - etrans; [apply (Hload s s1); [done|apply marked_prio]|]. etrans; [exact R2|]. etrans; [by apply (Hload s2 s3)|].
    etrans; [exact R4|]. etrans; [apply (Hload s4 s5); [done|apply marked_prio]|exact R6].
Qed.
End Relocate.

(** The task is off the run queues of [c] once it sits on [i]. *)
Lemma enqueue_rt_load on c i p fl s s' :
  minv on s -> on p = false -> sched_class (tasks s p) = rt_sched_class -> task_cpu (tasks s p) = i -> i <> c ->
  move_entity fl = true -> enqueue_task i p fl s = Done (tt, s') -> eases c s s'.
Proof.
  intros Hm Hp Hcl Hcpu Hne Hfl (u & s1 & He & H)%bind_inv.
  pose proof (clock_calm i _ _ _ _ He) as K1. pose proof (frames_when _ _ _ (clock_load c i) _ _ _ He) as L1.
  pose proof (sp_inv _ _ _ (calm_to on _ _ Hm K1)) as Hm1. pose proof Hm1 as [Hr _].
  unfold get_task in H. rewrite bind_gets in H. rewrite (kp_class _ _ (proj2 K1)), Hcl in H. cbn [class_enqueue] in H.
  rewrite <- (calm_cpu _ _ p K1 ltac:(by left)) in Hcpu. rewrite <- (kp_class _ _ (proj2 K1)) in Hcl.
  pose proof (rp_others _ _ Hr i) as Ho. pose proof (queue_room _ _ i Hr) as Hroom. unfold PID_MAX_LIMIT, rt_queue_of in *.
  pose proof (enqueue_task_rt_run i p fl s1 ltac:(apply Hr)) as Hrun.
  eapply wp_elim in Hrun; [|split; [done|by eapply minv_off_entity| |by eapply rp_prio|lia]|done|exact H].
  2: { by apply (minv_off on s1 p i). }
  destruct Hrun as (_ & _ & _ & Hrq & _). apply same_load_eases.
  - etrans; [exact L1|]. by split; rewrite Hrq.
  - etrans; [by eapply (frames_when _ _ _ (clock_prio i))|]. by eapply (proj1 (proj2 (rt_moves_prio i p fl))).
Qed.

Lemma enqueue_task_last c on i p fl s :
  minv on s -> on p = false -> mine s p -> task_cpu (tasks s p) = i -> move_entity fl = true ->
  wp (enqueue_task i p fl) (fun _ s' => step_to (<[p := true]> on) s s' /\ same_cpu s s' /\
    (sched_class (tasks s p) = rt_sched_class -> i <> c -> eases c s s')) s.
Proof.
  intros Hm Hp Hmi Hcpu Hfl. pose proof (enqueue_task_step on i p fl s Hm Hp Hmi Hcpu Hfl) as H.
  apply wp_done in H as ([] & s' & He & T & _). apply (wp_intro _ _ _ _ _ He). split; [done|].
  split; [by eapply enqueue_task_cpu|]. intros Hcl Hne. by eapply enqueue_rt_load.
Qed.

Lemma dequeue_task_last on c p fl s :
  minv on s -> on p = true -> mine s p -> task_cpu (tasks s p) = c -> move_entity fl = true ->
  wp (dequeue_task c p fl) (fun _ s' => step_to (<[p := false]> on) s s' /\ same_cpu s s' /\
    (sched_class (tasks s p) = rt_sched_class -> sched_class (tasks s (curr (rqs s c))) <> rt_sched_class ->
     eases c s s')) s.
Proof.
  intros Hm Hp Hmi Hcpu Hfl. pose proof (dequeue_task_step on c p fl s Hm Hp Hmi Hcpu Hfl) as H.
  apply wp_done in H as ([] & s' & He & T). apply (wp_intro _ _ _ _ _ He). split; [done|].
  split; [by eapply dequeue_task_cpu|]. intros Hcl Hcu. apply bind_inv in He as (u & s1 & H1 & H2).
  pose proof (clock_calm c _ _ _ _ H1) as K1. pose proof (frames_when _ _ _ (clock_load c c) _ _ _ H1) as L1.
  pose proof (sp_inv _ _ _ (calm_to on _ _ Hm K1)) as Hm1.
  unfold get_task in H2. rewrite bind_gets in H2. rewrite (kp_class _ _ (proj2 K1)), Hcl in H2. cbn [class_dequeue] in H2.
  etrans; [apply same_load_eases; [exact L1|by eapply (frames_when _ _ _ (clock_prio c))]|].
  eapply (wp_elim _ _ _ _ _ (dequeue_eases c p fl s1 ltac:(apply (proj1 Hm1)) _ Hfl _) H2). Unshelve.
  - apply (rp_link _ _ (proj1 Hm1)). rewrite (kp_class _ _ (proj2 K1)), (calm_cpu _ _ p K1) by by left. done.
  - by rewrite (kp_curr _ _ (proj2 K1)), (kp_class _ _ (proj2 K1)).
Qed.

(** [move_queued_task], for any task; [R] is what it keeps. *)
Lemma move_queued_task_run c i p s :
  settled s -> runnable s p = true -> mine s p -> task_cpu (tasks s p) = c -> (forall j, curr (rqs s j) <> p) ->
  wp (move_queued_task c p i) (fun r s' => (relocates p i s s' /\
    (sched_class (tasks s p) = rt_sched_class -> sched_class (tasks s (curr (rqs s c))) <> rt_sched_class -> i <> c ->
     eases c s s')) /\ r = i) s.
Proof.
  intros Hs Hp Hmi Hcpu Hnc.
  set (cond := sched_class (tasks s p) = rt_sched_class /\ sched_class (tasks s (curr (rqs s c))) <> rt_sched_class /\ i <> c).
  set (R := fun s0 s' => cond -> eases c s0 s').
  assert (HR : PreOrder R) by (split; [intros x _; done|intros x y z H1 H2 Hc; etrans; [by apply H1|by apply H2]]).
  assert (Hm1 : minv (runnable s) (marked TASK_ON_RQ_MIGRATING p s)) by (eapply minv_quiet; [apply marked_quiet|exact Hs]).
  assert (Hmi1 : mine (marked TASK_ON_RQ_MIGRATING p s) p) by (unfold mine; by rewrite !(marked_view sched_class)).
  assert (Hcl1 : forall x, sched_class (tasks (marked TASK_ON_RQ_MIGRATING p s) x) = sched_class (tasks s x))
    by (intros x; by rewrite !(marked_view sched_class)).
  eapply (wp_mono _ (fun r s' => (relocates p i s s' /\ R s s') /\ r = i)).
  2: { intros r s' [[H1 H2] H3]. split; [split; [exact H1|intros; by apply H2]|exact H3]. }
  change (move_queued_task c p i) with
    (do! set_task p (fun t => t <| on_rq := TASK_ON_RQ_MIGRATING |>) in
     do! dequeue_task c p DEQUEUE_NOCLOCK in do! set_task_cpu p i in
     do! (let! t := get_task p in bug_on (negb (task_cpu t =? i))) in do! enqueue_task i p 0 in
     do! set_task p (fun t => t <| on_rq := TASK_ON_RQ_QUEUED |>) in
     do! check_preempt_curr i p 0 in ret i).
  apply relocate_run; try done.
  - intros s0 s' E Hpr _. apply same_load_eases; [|done]. by split; rewrite E.
  - intros s5 M5 Hmi5 E5. wstep. eapply wp_mono; [by apply (check_preempt_last c (runnable s))|].
    intros [] s6 (T & C & L). wstep. split; [|done]. split_and!; [done..|by intros _].
  - eapply wp_mono; [apply (dequeue_task_last (runnable s)); try done; by rewrite (marked_view task_cpu)|].
    intros [] s2 (T & C & L). split_and!; [done..|]. intros (H1 & H2 & _). apply L; by rewrite Hcl1.
  - intros s3 E. unfold get_task. rewrite bind_gets, E, Z.eqb_refl. done.
  - intros s3 M3 K3 E3. eapply wp_mono; [apply (enqueue_task_last c); try done|].
    + by rewrite fn_lookup_insert.
    + by apply (keep_mine _ _ _ K3).
    + intros [] s4 (T & C & L). split_and!; [done..|]. intros (H1 & _ & H2). apply L; [|done].
      by rewrite (kp_class _ _ K3), Hcl1.
Qed.
End Moving.
