(* ===== verification/InPlace.v ===== *)
(** * Real-time tasks that change in place, on the machine

    [dequeue_task] and [enqueue_task] with the flags SAVE and RESTORE but not
    MOVE leave a real-time task in its list, uncounted, while its affinity,
    policy or nice value changes ([RtProps.rt_change_in_place]).  Here the
    machine in between: the invariant of [CoreInv] holds but for one task. *)

From S2P Require Import Prelude Sched Ts RtBandwidth Rt RtProps SchedClass ClassProps.
From S2P Require Import Frames CoreInv SetSched SetProps Wake CoreProps.

(** The task [p] is linked on CPU [c], and not counted there; [on] is true of
    it, as of the tasks that are queued. *)
Record rt_lingers (on : task -> bool) (c : cpu) (p : task) (s : kstate) : Prop := {
  rl_without : rt_without c p (tasks s) (rqs s c);
  rl_ok : forall i, i <> c -> rt_ok i s;
  rl_link : forall i x, rt_task_queued i s x <->
    on x = true /\ sched_class (tasks s x) = rt_sched_class /\ task_cpu (tasks s x) = i;
  rl_off : forall x, x <> p -> rt_on_rq (rt (tasks s x)) <> 0 ->
    on x = true /\ sched_class (tasks s x) = rt_sched_class;
  rl_self : rt_on_rq (rt (tasks s p)) = 0;
  rl_prio : forall x, sched_class (tasks s x) = rt_sched_class -> 0 <= prio (tasks s x) < 100;
  rl_ids : forall x, sched_class (tasks s x) = rt_sched_class -> 0 <= x < PID_MAX_LIMIT;
  rl_others : forall i, 0 <= others (rqs s i) <= PID_MAX_LIMIT
}.

Definition lingers (on : task -> bool) c p s : Prop := rt_lingers on c p s /\ ts_part on s.

Section InPlace.
Context `{Hfeat : SchedFeat} `{Hlim : Rlimits} `{Hpri : Cpupri}.
Implicit Types (c i : cpu) (p x : task) (s : kstate) (on : task -> bool).

(** It is the task of [c], of the real-time class. *)
Lemma lingers_task on c p s :
  lingers on c p s -> on p = true /\ sched_class (tasks s p) = rt_sched_class /\ task_cpu (tasks s p) = c.
Proof. intros [Hr _]. apply (rl_link _ _ _ _ Hr). apply (rw_in _ _ _ _ (rl_without _ _ _ _ Hr)). Qed.

(** [p] changes in nothing that places it, and the run queues in nothing but
    the accounting. *)
Lemma lingers_change on c p s s' :
  lingers on c p s ->
  (forall i, rt_core (rq_rt (rqs s' i)) = rt_core (rq_rt (rqs s i)) /\ others (rqs s' i) = others (rqs s i) /\
     (rt_queued (rq_rt (rqs s' i)) <> 0 -> rt_queued (rq_rt (rqs s i)) <> 0)) ->
  (forall x, x <> p -> task_view (tasks s x) (tasks s' x)) -> no_ts s s' ->
  prio (tasks s' p) = prio (tasks s p) -> task_cpu (tasks s' p) = task_cpu (tasks s p) ->
  rt_on_rq (rt (tasks s' p)) = rt_on_rq (rt (tasks s p)) -> lingers on c p s'.
Proof.
  intros Hl Hrq Hx Hts Hp Hc Hon. pose proof Hl as [[R1 R2 R3 R4 R5 R6 R7 R8] T].
  assert (Hcl : forall x, sched_class (tasks s' x) = sched_class (tasks s x)) by apply Hts.
  assert (Hv : forall x, prio (tasks s' x) = prio (tasks s x) /\ task_cpu (tasks s' x) = task_cpu (tasks s x) /\
    rt_on_rq (rt (tasks s' x)) = rt_on_rq (rt (tasks s x))).
  { intros x. destruct (decide (x = p)) as [->|Hne]; [done|]. by destruct (Hx x Hne) as (? & _ & _ & ? & ?). }
  assert (Hq : forall i, rt_queue_of i s' = rt_queue_of i s)
    by (intros i; exact (f_equal rt_queue (proj1 (Hrq i)))).
  split; [|by eapply ts_part_no_ts]. split.
  - apply (without_relinks c p (tasks s)); [by split_and!|]. destruct (Hrq c) as (Ec & Eo & Eq).
    by apply (core_without c p (tasks s) (rqs s c)).
  - intros i Hi. destruct (Hrq i) as (Ec & Eo & Eq). pose proof (R2 i Hi) as Hok.
    assert (Hok' : rt_ok i (s <| tasks := tasks s' |>)).
    { apply (outside_ok i s); [done|]. split_and!; [done|apply Hok|apply Hok|]. intros x Hq'.
      assert (x <> p) as Hne by (intros ->; apply R3 in Hq' as (_ & _ & E); destruct (lingers_task _ _ _ _ Hl) as (_ & _ & E'); congruence).
      apply (Hx x Hne). }
    apply (core_inv i _ (rqs s i)); [done| |done|exact Hok'].
    intros H%Eq. pose proof (ri_queued _ _ _ (ri_base _ _ _ Hok) H) as H'.
    by rewrite (f_equal rt_nr_running Ec : rt_nr_running (rq_rt (rqs s' i)) = rt_nr_running (rq_rt (rqs s i))).
  - intros i x. unfold rt_task_queued. rewrite Hq, Hcl. destruct (Hv x) as (_ & -> & _). apply R3.
  - intros x Hne. rewrite Hcl. destruct (Hv x) as (_ & _ & ->). by apply R4.
  - by rewrite Hon.
  - intros x. rewrite Hcl. destruct (Hv x) as (-> & _). apply R6.
  - intros x. rewrite Hcl. apply R7.
  - intros i. destruct (Hrq i) as (_ & -> & _). apply R8.
Qed.

(** [dequeue_task_rt] leaves [p] in its list. *)
Lemma dequeue_rt_lingers on c p fl s :
  minv on s -> on p = true -> sched_class (tasks s p) = rt_sched_class -> task_cpu (tasks s p) = c ->
  move_entity fl = false ->
  wp (dequeue_task_rt c p fl) (fun _ s' => lingers on c p s' /\ (curr_kept s -> curr_kept s')) s.
Proof.
  intros [Hr Hts] Hp Hcl Hcpu Hfl.
  assert (Hin : rt_task_queued c s p) by (by apply (rp_link _ _ Hr)).
  wcall_frames kept dequeue_save_run; [apply Hr|exact Hin|done|].
  intros [] s' ((Hw & Hq & _ & Hoff & Hot & Hpl & s1 & Hf & He & Hrq) & [Hk Hn]).
  assert (Hview : forall x, prio (tasks s' x) = prio (tasks s x) /\ task_cpu (tasks s' x) = task_cpu (tasks s x) /\
    (x <> p -> rt_on_rq (rt (tasks s' x)) = rt_on_rq (rt (tasks s x)))).
  { intros x. destruct (entity_only_view p _ _ x He) as (-> & _ & _ & ->), (af_tasks _ _ Hf x) as (-> & _ & _ & -> & E).
    split_and!; [done..|]. intros Hx. by rewrite (entity_only_task p _ _ x He Hx). }
  assert (Hqi : forall i, rt_queue_of i s' = rt_queue_of i s).
  { intros i. destruct (decide (i = c)) as [->|Hic]; [exact Hq|]. unfold rt_queue_of. rewrite Hrq by done.
    exact (f_equal rt_queue (af_core _ _ Hf i)). }
  split; [split; [split|]|].
  - exact Hw.
  - intros i Hi. apply (other_cpu_ok i s1); [by apply (keeps_acct i s); [apply Hr|]|by apply Hrq|].
    intros x Hx. apply (entity_only_task p _ _ x He). intros ->.
    assert (E : rt_queue_of i s1 = rt_queue_of i s) by exact (f_equal rt_queue (af_core _ _ Hf i)).
    unfold rt_task_queued in Hx. rewrite E in Hx. apply (rp_link _ _ Hr) in Hx as (_ & _ & ?). congruence.
  - intros i x. unfold rt_task_queued. rewrite Hqi, (kp_class _ _ Hk). destruct (Hview x) as (_ & -> & _). apply (rp_link _ _ Hr).
  - intros x Hx. rewrite (kp_class _ _ Hk). destruct (Hview x) as (_ & _ & E). rewrite (E Hx). apply (rp_off _ _ Hr).
  - exact Hoff.
  - intros x. rewrite (kp_class _ _ Hk). destruct (Hview x) as (-> & _). apply (rp_prio _ _ Hr).
  - intros x. rewrite (kp_class _ _ Hk). apply (rp_ids _ _ Hr).
  - intros i. destruct (decide (i = c)) as [->|Hne]; [rewrite Hot|rewrite Hrq, (af_others _ _ Hf) by done]; apply Hr.
  - by eapply ts_part_no_ts.
  - intros Hck i. rewrite (kp_curr _ _ Hk). destruct (decide (i = c)) as [->|Hne].
    + rewrite Hpl. intros ([n y] & Hy & [Hx _]%plist_del_elem)%list_elem_of_fmap. simpl in Hy.
      apply (Hck c). apply list_elem_of_fmap. by exists (n, y).
    + rewrite Hrq by done. destruct (core_queue _ _ (af_core _ _ Hf i)) as (_ & _ & _ & _ & -> & _). apply Hck.
Qed.

(** [put_prev_task_rt] of [p], which is not counted, is accounting only. *)
Lemma put_prev_rt_lingers on c p s :
  lingers on c p s ->
  wp (put_prev_task_rt c p) (fun _ s' => lingers on c p s' /\ (curr_kept s -> curr_kept s')) s.
Proof.
  intros Hl. pose proof (rl_without _ _ _ _ (proj1 Hl)) as Hw.
  apply (wp_mono _ (fun _ s' => acct_frame s s' /\ kept s s')).
  { apply (wp_frames kept); [auto with frames|]. unfold put_prev_task_rt, get_task. wstep.
    wcall update_curr_rt_topped; [by eapply without_topped|]. intros [] s1 H1. wgo.
    assert (E : on_rt_rq (tasks s1 p) = false).
    { unfold on_rt_rq. rewrite (af_rt _ _ H1), (rl_self _ _ _ _ (proj1 Hl)). done. }
    by rewrite E. }
  intros [] s' [Hf [Hk Hn]]. split.
  - apply (lingers_change _ _ _ s); [done| |intros x _; apply Hf|done|..]; try apply (af_tasks _ _ Hf p).
    intros i. split_and!; apply Hf.
  - intros Hck i. rewrite (kp_curr _ _ Hk). destruct (core_queue _ _ (af_core _ _ Hf i)) as (_ & _ & _ & _ & -> & _). apply Hck.
Qed.

(** [enqueue_task_rt] counts it again. *)
Lemma enqueue_rt_lingers on c p fl s :
  lingers on c p s -> move_entity fl = false ->
  wp (enqueue_task_rt c p fl) (fun _ s' => minv on s' /\ (curr_kept s -> curr_kept s')) s.
Proof.
  intros Hl Hfl. destruct (lingers_task _ _ _ _ Hl) as (Hp & Hcl & Hcpu). destruct Hl as [[R1 R2 R3 R4 R5 R6 R7 R8] T].
  wcall_frames kept enqueue_restore_run; [done..|].
  intros [] s' ((Hi & Hq & Hrq & He & Hot & Hpu) & [Hk Hn]).
  assert (Hqi : forall i, rt_queue_of i s' = rt_queue_of i s).
  { intros i. destruct (decide (i = c)) as [->|Hic]; [exact Hq|]. unfold rt_queue_of. by rewrite Hrq. }
  assert (Hv : forall x, prio (tasks s' x) = prio (tasks s x) /\ task_cpu (tasks s' x) = task_cpu (tasks s x))
    by (intros x; by destruct (entity_only_view p _ _ x He) as (? & _ & _ & ?)).
  split; [split; [split|]|].
  - intros i. destruct (decide (i = c)) as [->|Hne]; [exact Hi|].
    apply (other_cpu_ok i s); [by apply R2|by apply Hrq|]. intros x Hx. apply (entity_only_task p _ _ x He).
    intros ->. apply R3 in Hx as (_ & _ & ?). congruence.
  - intros i x. unfold rt_task_queued. rewrite Hqi, (kp_class _ _ Hk). destruct (Hv x) as [_ ->]. apply R3.
  - intros x. rewrite (kp_class _ _ Hk). destruct (decide (x = p)) as [->|Hx]; [done|].
    rewrite (entity_only_task p _ _ x He Hx). by apply R4.
  - intros x. rewrite (kp_class _ _ Hk). destruct (Hv x) as [-> _]. apply R6.
  - intros x. rewrite (kp_class _ _ Hk). apply R7.
  - intros i. destruct (decide (i = c)) as [->|Hne]; [rewrite Hot|rewrite Hrq by done]; apply R8.
  - by eapply ts_part_no_ts.
  - intros Hck i. rewrite (kp_curr _ _ Hk). destruct (decide (i = c)) as [->|Hne]; [|rewrite Hrq by done; apply Hck].
    intros [H|[H1 H2]]%Hpu; [by apply (Hck c) | by apply H2].
Qed.
End InPlace.
