(* ===== verification/Stages.v ===== *)
(** * A task on its way between queues

    A task that may be queued and running is taken off its queue, put back as
    the previous task, changed, and queued again.  The stages of this, on a
    machine in order ([InOrder]): in between, the task is on no queue, or, a
    real-time task that keeps its place, linked and not counted ([InPlace]).
    [Requeue] uses them for policies, priorities and nice values, [Affinity]
    for the CPUs that a task may use. *)

From S2P Require Import Prelude Sched Ts RtBandwidth Rt RtProps SchedClass ClassProps.
From S2P Require Import Frames CoreInv SetSched SetProps Wake CoreProps Switch SwitchProps InOrder InPlace.

(** ** What a change is not about *)

(** What the classes leave of a task when they queue it. *)
Record same_core (t t' : task_struct) : Prop := {
  sc_task : same_task t t';
  sc_cpu : task_cpu t' = task_cpu t;
  sc_spot : pi_top_task t' = pi_top_task t
}.

#[export] Instance same_core_preorder : PreOrder same_core.
Proof.
  split; [by split|]. intros t1 t2 t3 [A1 A2 A3] [B1 B2 B3]. split; [by etrans|congruence..].
Qed.

(** Where a task stands, which no change of it touches. *)
Record same_place (t t' : task_struct) : Prop := {
  pl_state : state t' = state t;
  pl_flags : flags t' = flags t;
  pl_on_cpu : on_cpu t' = on_cpu t;
  pl_on_rq : on_rq t' = on_rq t;
  pl_cpu : task_cpu t' = task_cpu t
}.

#[export] Instance same_place_preorder : PreOrder same_place.
Proof. split; [by split|]. intros t1 t2 t3 [A1 A2 A3 A4 A5] [B1 B2 B3 B4 B5]. split; congruence. Qed.

(** A task that may run on the same CPUs. *)
Definition same_mask (t t' : task_struct) : Prop :=
  nr_cpus_allowed t' = nr_cpus_allowed t /\ cpus_allowed t' = cpus_allowed t.

#[export] Instance same_mask_preorder : PreOrder same_mask.
Proof. split; [by split|]. intros t1 t2 t3 [A1 A2] [B1 B2]. split; congruence. Qed.

(** Neither. *)
Definition unmoved (t t' : task_struct) : Prop := same_place t t' /\ same_mask t t'.

#[export] Instance unmoved_preorder : PreOrder unmoved.
Proof. split; [by split|]. intros t1 t2 t3 [A1 A2] [B1 B2]. split; by etrans. Qed.

Lemma core_mask t t' : same_core t t' -> same_mask t t'.
Proof. intros [[] ? _]. by split. Qed.

Lemma core_place t t' : same_core t t' -> same_place t t'.
Proof. intros [[] ? _]. by split. Qed.

(** No task changes its CPU, or who waits for it. *)
Definition same_spot (s s' : kstate) : Prop :=
  forall x, task_cpu (tasks s' x) = task_cpu (tasks s x) /\ pi_top_task (tasks s' x) = pi_top_task (tasks s x).

#[export] Instance same_spot_preorder : PreOrder same_spot.
Proof.
  split; [by intros s x|]. intros s1 s2 s3 H1 H2 x. destruct (H1 x) as [<- <-]. apply H2.
Qed.

Lemma set_task_same_spot p f :
  (forall t, task_cpu (f t) = task_cpu t /\ pi_top_task (f t) = pi_top_task t) -> frames same_spot (set_task p f).
Proof. intros Hf. apply frames_modify. intros s x. simpl. split; apply alter_view, Hf. Qed.

Lemma set_rq_same_spot c f : frames same_spot (set_rq c f).
Proof. by apply frames_modify. Qed.

#[export] Hint Extern 1 (frames same_spot (set_task _ _)) =>
  apply set_task_same_spot; intros; split; reflexivity : frames.
#[export] Hint Extern 1 (frames same_spot (set_rq _ _)) => apply set_rq_same_spot : frames.

(** All tasks stay as they are, but for what the classes change. *)
Definition cores (s s' : kstate) : Prop := forall x, same_core (tasks s x) (tasks s' x).

#[export] Instance cores_preorder : PreOrder cores.
Proof. split; [by intros s x|]. intros s1 s2 s3 H1 H2 x. by etrans; [apply H1|apply H2]. Qed.

Lemma set_task_cores p f : (forall t, same_core t (f t)) -> frames cores (set_task p f).
Proof.
  intros Hf. apply frames_modify. intros s x. simpl. destruct (decide (p = x)) as [->|Hne].
  - rewrite fn_lookup_alter. apply Hf.
  - by rewrite fn_lookup_alter_ne.
Qed.

Lemma set_rq_cores c f : frames cores (set_rq c f).
Proof. by apply frames_modify. Qed.

#[export] Hint Extern 1 (frames cores (set_task _ _)) =>
  apply set_task_cores; intros; split; [split; reflexivity|reflexivity|reflexivity] : frames.
#[export] Hint Extern 1 (frames cores (set_rq _ _)) => apply set_rq_cores : frames.

Lemma resched_curr_cores c : frames cores (resched_curr c).
Proof. frames_tac. Qed.

Section PiFrames.
Context `{Hfeat : SchedFeat} `{Hlim : Rlimits} `{Hpri : Cpupri} `{Htop : Topology}.
Context `{Hoth : OtherClasses}.
Implicit Types (c : cpu) (p : task).

Lemma update_rq_clock_spot c : frames same_spot (update_rq_clock c).
Proof. frames_tac. Qed.
#[local] Hint Resolve update_rq_clock_spot : frames.

Lemma balance_runtime_loop_spot c w per l : frames same_spot (balance_runtime_loop c w per l).
Proof. induction l; cbn [balance_runtime_loop]; frames_tac. Qed.
#[local] Hint Resolve balance_runtime_loop_spot : frames.

Lemma update_curr_rt_spot c : frames same_spot (update_curr_rt c).
Proof. frames_tac. Qed.
#[local] Hint Resolve update_curr_rt_spot : frames.

Lemma enqueue_task_rt_spot c p fl : frames same_spot (enqueue_task_rt c p fl).
Proof. frames_tac. Qed.
Lemma dequeue_task_rt_spot c p fl : frames same_spot (dequeue_task_rt c p fl).
Proof. frames_tac. Qed.
Lemma put_prev_task_rt_spot c p : frames same_spot (put_prev_task_rt c p).
Proof. frames_tac. Qed.
Lemma enqueue_task_ts_spot c p fl : frames same_spot (enqueue_task_ts c p fl).
Proof. frames_tac. Qed.
Lemma dequeue_task_ts_spot c p fl : frames same_spot (dequeue_task_ts c p fl).
Proof. frames_tac. Qed.
Lemma set_curr_task_rt_kept c : frames kept (set_curr_task_rt c).
Proof. frames_tac. Qed.
Lemma set_curr_task_rt_spot c : frames same_spot (set_curr_task_rt c).
Proof. frames_tac. Qed.
End PiFrames.

#[export] Hint Resolve update_rq_clock_spot update_curr_rt_spot enqueue_task_rt_spot dequeue_task_rt_spot
  put_prev_task_rt_spot enqueue_task_ts_spot dequeue_task_ts_spot set_curr_task_rt_kept 
  set_curr_task_rt_spot : frames.

(** ** What the changes rely on outside [kernel/sched/]

    The fair class, when it queues a task or is told of a change, leaves the
    other classes alone and the task where it is; [reweight_task] changes
    loads; [rt_mutex_get_top_task] reads [pi_top_task]. *)

Section Laws.
Context `{Hoth : OtherClasses}.

Definition gently (m : K unit) : Prop :=
  forall on s, minv on s -> wp m (fun _ s' => calm s s' /\ forall x, same_core (tasks s x) (tasks s' x)) s.

Definition tells (m : option (cpu -> task -> K unit)) : Prop :=
  match m with Some m => forall c p, quietly (m c p) | None => True end.
End Laws.

Class ChangeLaws `{OtherClasses} `{Deadline} : Prop := {
  cl_enqueue : forall c p fl, gently (m_enqueue_task (other_class fair_sched_class) c p fl);
  cl_dequeue : forall c p fl, gently (m_dequeue_task (other_class fair_sched_class) c p fl);
  cl_put_prev : forall c p, gently (m_put_prev_task (other_class fair_sched_class) c p);
  cl_set_curr : forall c, gently (m_set_curr_task (other_class fair_sched_class) c);
  cl_switched_from : tells (m_switched_from (other_class fair_sched_class));
  cl_switched_to : forall c p, quietly (m_switched_to (other_class fair_sched_class) c p);
  cl_prio_changed : forall c p old, quietly (m_prio_changed (other_class fair_sched_class) c p old);
  cl_reweight : reweights;
  cl_top : forall t, rt_mutex_get_top_task t = pi_top_task t
}.

(** ** A task off its queue *)

(** A task that can be changed: of the real-time, the TS or the fair class, and
    placed as those of the first two are on a machine in order. *)
Definition movable (s : kstate) (p : task) : Prop := mine s p \/ sched_class (tasks s p) = fair_sched_class.

Record changeable (p : task) (s : kstate) : Prop := {
  ca_class : movable s p;
  ca_id : 0 <= p < PID_MAX_LIMIT;
  ca_on_rq : on_rq (tasks s p) = 0 \/ on_rq (tasks s p) = TASK_ON_RQ_QUEUED;
  ca_worker : has (flags (tasks s p)) PF_WQ_WORKER = false;
  ca_cpu : exists i, is_cpu_allowed s p i = true;
  ca_on_cpu : on_cpu (tasks s p) <> 0 -> exists c, curr (rqs s c) = p;
  ca_curr : forall c, curr (rqs s c) = p -> runnable s p = true /\ task_cpu (tasks s p) = c
}.

(** The tasks that are to be queued: those that were, but [p] if [b]. *)
Definition queued_as (b : bool) (p : task) (s0 : kstate) : task -> bool :=
  fun x => if decide (x = p) then b else runnable s0 x.

(** On the way from [s0], with [I] for the queues: nothing but [p] has changed,
    and [p] where it stands has not. *)
Record midway (I : kstate -> Prop) (p : task) (s0 s : kstate) : Prop := {
  ou_inv : I s;
  ou_but : keep_but p s0 s;
  ou_curr : curr_ok s;
  ou_place : same_place (tasks s0 p) (tasks s p);
  ou_class : movable s p;
  ou_cpu : exists i, is_cpu_allowed s p i = true
}.

(** On the queue of its class, or on none. *)
Definition out (b : bool) (p : task) (s0 : kstate) : kstate -> Prop := midway (minv (queued_as b p s0)) p s0.

(** Off its queue: linked there still, if [k]. *)
Definition off_inv (k : bool) (p : task) (s0 s : kstate) : Prop :=
  if k then lingers (queued_as true p s0) (task_cpu (tasks s p)) p s else minv (queued_as false p s0) s.

Definition off (k : bool) (p : task) (s0 : kstate) : kstate -> Prop := midway (off_inv k p s0) p s0.

(** Whether a dequeued task stays linked. *)
Definition lies_on (p : task) (fl : Z) (s : kstate) : bool :=
  bool_decide (sched_class (tasks s p) = rt_sched_class) && negb (move_entity fl).

(** The next stage, in which the parameters of [p] are kept. *)
Definition onto (I : kstate -> Prop) (p : task) (s0 s s' : kstate) : Prop :=
  midway I p s0 s' /\ same_core (tasks s p) (tasks s' p) /\ sched_class (tasks s' p) = sched_class (tasks s p).

Definition onward (b : bool) (p : task) (s0 : kstate) : kstate -> kstate -> Prop :=
  onto (minv (queued_as b p s0)) p s0.

(** The next stage, off the queue. *)
Definition lays (k : bool) (p : task) (s0 s s' : kstate) : Prop :=
  onto (off_inv k p s0) p s0 s s' /\ (k = true -> same_prio s s').

Section Out.
Context `{Hfeat : SchedFeat} `{Hlim : Rlimits} `{Hpri : Cpupri} `{Htop : Topology}.
Context `{Hoth : OtherClasses} `{Hdl : Deadline} {Hch : ChangeLaws}.
Implicit Types (b : bool) (c i : cpu) (p x : task) (s : kstate).

Lemma wp_class {A} p (k : class_methods -> K A) Q s :
  wp (k (class_of (sched_class (tasks s p)))) Q s -> wp (let! m := task_class p in k m) Q s.
Proof. intros H. unfold task_class, get_task. wgo. exact H. Qed.

Lemma keep_core s s' p :
  keep s s' -> mine s p -> same_cpu s s' -> same_spot s s' -> same_core (tasks s p) (tasks s' p).
Proof. intros Hk Hm Hc Hp. split; [by apply Hk|apply Hc|apply Hp]. Qed.

Lemma movable_keep s s' p : keep s s' -> movable s p -> movable s' p.
Proof. intros Hk. unfold movable, mine. by rewrite (kp_class _ _ Hk). Qed.

Lemma allowed_same s s' x :
  flags (tasks s' x) = flags (tasks s x) -> same_mask (tasks s x) (tasks s' x) ->
  online_cpus s' = online_cpus s -> active_cpus s' = active_cpus s ->
  (exists i, is_cpu_allowed s x i = true) -> exists i, is_cpu_allowed s' x i = true.
Proof.
  intros E1 [E2 E3] E4 E5 [i Hi]. exists i. revert Hi. unfold is_cpu_allowed, is_per_cpu_kthread.
  by rewrite E1, E2, E3, E4, E5.
Qed.

(** A step from one stage to the next. *)
Lemma midway_step (I I' : kstate -> Prop) p s0 s s' :
  midway I p s0 s -> I' s' -> keep s s' -> (curr_ok s -> curr_ok s') ->
  same_core (tasks s p) (tasks s' p) -> onto I' p s0 s s'.
Proof.
  intros [H1 H2 H3 H4 H5 H6] A1 A2 A3 Hc. split; [|split; [done|apply A2]]. split.
  - done.
  - etrans; [exact H2|by apply keep_keep_but].
  - by apply A3.
  - etrans; [exact H4|by apply core_place].
  - by eapply movable_keep.
  - apply (allowed_same s); [apply (st_flags _ _ (sc_task _ _ Hc))|by apply core_mask|apply A2|apply A2|done].
Qed.

Lemma out_step (I : kstate -> Prop) b' on p s0 s s' :
  midway I p s0 s -> step_to on s s' -> (forall x, mine s x -> on x = queued_as b' p s0 x) ->
  same_core (tasks s p) (tasks s' p) -> onward b' p s0 s s'.
Proof.
  intros Hs [A1 A2 A3] Hon Hc. apply (midway_step I); [done| |done..].
  apply (minv_ext on); [|done]. intros x Hx%(keep_mine _ _ _ A2). by apply Hon.
Qed.

Lemma onto_refl I p s0 s : midway I p s0 s -> onto I p s0 s s.
Proof. done. Qed.

Lemma onto_trans I I' p s0 s1 s2 s3 :
  onto I p s0 s1 s2 -> onto I' p s0 s2 s3 -> onto I' p s0 s1 s3.
Proof. intros (_ & A2 & A3) (B1 & B2 & B3). split; [done|]. split; [by etrans|congruence]. Qed.

(** An operation of the fair class. *)
Lemma gently_out b b' p m s0 s :
  gently m -> out b p s0 s -> sched_class (tasks s p) = fair_sched_class ->
  wp m (fun _ => onward b' p s0 s) s.
Proof.
  intros Hm Ho Hf. eapply wp_mono; [apply (Hm (queued_as b p s0)), Ho|]. intros [] s' [Hc Hx].
  eapply out_step; [exact Ho|by apply calm_to; [apply Ho|]| |apply Hx].
  intros x Hmi. unfold queued_as. case_decide; [|done]. subst. unfold mine in Hmi. rewrite Hf in Hmi. by destruct Hmi.
Qed.

Lemma calm_core c p s s' : (forall x, tasks s' x = tasks s x) -> same_core (tasks s p) (tasks s' p).
Proof. by intros ->. Qed.

Lemma update_clock_tasks c s : wp (update_rq_clock c) (fun _ s' => calm s s' /\ tasks s' = tasks s) s.
Proof.
  apply wp_and.
  - apply (wp_total calm); [apply update_rq_clock_total|apply update_rq_clock_calm].
  - eapply wp_mono; [apply update_rq_clock_only|]. by intros [] s' (g & -> & _).
Qed.

Lemma clock_out b p c s0 s : out b p s0 s -> wp (update_rq_clock c) (fun _ => onward b p s0 s) s.
Proof.
  intros Ho. eapply wp_mono; [apply update_clock_tasks|]. intros [] s' [Hc Ht].
  eapply out_step; [exact Ho|by apply calm_to; [apply Ho|]|done|]. by rewrite Ht.
Qed.

Lemma queued_self b p s0 : queued_as b p s0 p = b.
Proof. unfold queued_as. by rewrite decide_True. Qed.

Lemma queued_insert b b' p s0 x : (<[p := b']> (queued_as b p s0)) x = queued_as b' p s0 x.
Proof.
  unfold queued_as. destruct (decide (x = p)) as [->|Hne]; [by rewrite fn_lookup_insert|].
  rewrite fn_lookup_insert_ne by done. by rewrite decide_False.
Qed.

Lemma mine_core s s' p : keep s s' -> mine s p -> same_spot s s' -> same_core (tasks s p) (tasks s' p).
Proof. intros Hk Hm Hs. destruct (Hs p). split; [by apply Hk|done..]. Qed.

(** The queuing operations of the classes, which the flag of the clock leaves
    of [enqueue_task] and [dequeue_task]. *)
Lemma dequeue_noclock c p fl s :
  has fl DEQUEUE_NOCLOCK = true -> dequeue_task c p fl s = class_dequeue (sched_class (tasks s p)) c p fl s.
Proof. intros H. unfold dequeue_task. by rewrite H. Qed.

Lemma enqueue_noclock c p fl s :
  has fl ENQUEUE_NOCLOCK = true -> enqueue_task c p fl s = class_enqueue (sched_class (tasks s p)) c p fl s.
Proof. intros H. unfold enqueue_task. by rewrite H. Qed.

Lemma dequeue_out p c fl s0 s :
  out true p s0 s -> task_cpu (tasks s p) = c -> move_entity fl = true -> has fl DEQUEUE_NOCLOCK = true ->
  wp (dequeue_task c p fl) (fun _ => onward false p s0 s) s.
Proof.
  intros Ho Hc Hfl Hno. destruct (ou_class _ _ _ _ Ho) as [Hm|Hf].
  - pose proof (dequeue_task_step (queued_as true p s0) c p fl s (ou_inv _ _ _ _ Ho) (queued_self _ _ _) Hm Hc Hfl) as H.
    apply wp_done in H as ([] & s' & He & Hs). apply (wp_intro _ _ _ _ _ He).
    eapply out_step; [exact Ho|exact Hs|intros x _; apply queued_insert|].
    apply mine_core; [apply Hs|done|]. rewrite dequeue_noclock in He by done.
    destruct Hm as [Hm|Hm]; rewrite Hm in He; [by eapply dequeue_task_rt_spot|by eapply dequeue_task_ts_spot].
  - apply (wp_same _ _ _ _ (dequeue_noclock c p fl s Hno)). rewrite Hf. apply (gently_out true); [apply cl_dequeue|done..].
Qed.

Lemma enqueue_out p c fl s0 s :
  out false p s0 s -> task_cpu (tasks s p) = c -> move_entity fl = true -> has fl ENQUEUE_NOCLOCK = true ->
  wp (enqueue_task c p fl) (fun _ => onward true p s0 s) s.
Proof.
  intros Ho Hc Hfl Hno. destruct (ou_class _ _ _ _ Ho) as [Hm|Hf].
  - pose proof (enqueue_task_step (queued_as false p s0) c p fl s (ou_inv _ _ _ _ Ho) (queued_self _ _ _) Hm Hc Hfl) as H.
    apply wp_done in H as ([] & s' & He & Hs & _). apply (wp_intro _ _ _ _ _ He).
    eapply out_step; [exact Ho|exact Hs|intros x _; apply queued_insert|].
    apply mine_core; [apply Hs|done|]. rewrite enqueue_noclock in He by done.
    destruct Hm as [Hm|Hm]; rewrite Hm in He; [by eapply enqueue_task_rt_spot|by eapply enqueue_task_ts_spot].
  - apply (wp_same _ _ _ _ (enqueue_noclock c p fl s Hno)). rewrite Hf. apply (gently_out false); [apply cl_enqueue|done..].
Qed.

(** An operation of the real-time class on the CPU of [p]. *)
Lemma stays_out b (e : task -> Prop) p c s0 s s' :
  out b p s0 s -> mine s p -> kept s s' -> stays e c s s' -> same_spot s s' ->
  (forall x, e x -> pushable c s' x -> curr (rqs s c) <> x) -> onward b p s0 s s'.
Proof.
  intros Ho Hm Hk Hst Hsp He. eapply (out_step (minv (queued_as b p s0)) b (queued_as b p s0)); [exact Ho| |done|by apply mine_core; [apply Hk|..]].
  split; [by eapply minv_local; [apply Ho|..]|apply Hk|]. intros [H1 H2]. split.
  - intros i. rewrite (kp_curr _ _ (proj1 Hk)). destruct (decide (i = c)) as [->|Hne].
    + intros Hx. destruct (sy_push _ _ _ _ Hst _ Hx) as [H|H]; [by apply (H1 c)|]. by apply (He _ H Hx).
    + destruct (sy_rest _ _ _ _ Hst i Hne) as (E & _).
      destruct (core_queue _ _ E) as (_ & _ & _ & _ & -> & _). apply H1.
  - apply (running_keep s); [apply Hk| |done]. intros x _ _. apply Hsp.
Qed.

Lemma pushable_on on i s x : minv on s -> pushable i s x -> on x = true.
Proof.
  intros [Hr _] ([n y] & -> & Hx)%list_elem_of_fmap.
  destruct (rp_task _ _ _ (ri_push _ _ _ (rp_ok _ _ Hr i)) n y Hx) as (_ & Hq & _).
  by apply (rp_link _ _ Hr) in Hq as (? & _).
Qed.

(** The running task is put back as the previous one, when it is queued no
    more. *)
Lemma put_prev_out p c s0 s :
  out false p s0 s -> wp (put_prev_task c p) (fun _ => onward false p s0 s) s.
Proof.
  intros Ho. unfold put_prev_task, get_task. do 2 wstep.
  destruct (ou_class _ _ _ _ Ho) as [[Hm|Hm]|Hf]; [rewrite Hm..|rewrite Hf]; cbn [put_prev_op class_put_prev].
  - assert (Hw : wp (put_prev_task_rt c p) (fun _ s' => stays (eq p) c s s') s).
    { apply put_prev_rt_stays; [apply Ho|]. intros [H _]%(rp_off _ _ (proj1 (ou_inv _ _ _ _ Ho))).
      by rewrite queued_self in H. }
    apply wp_done in Hw as ([] & s' & He & Hst). apply (wp_intro _ _ _ _ _ He).
    pose proof (put_prev_task_rt_kept c p s _ _ He) as Hk.
    apply (stays_out _ (eq p) p c s0); [done|by left|done|done|by eapply put_prev_task_rt_spot|].
    intros x <- Hpu. assert (Hmin : minv (queued_as false p s0) s') by (eapply minv_local; [apply Ho|done..]).
    pose proof (pushable_on _ _ _ _ Hmin Hpu) as H. by rewrite queued_self in H.
  - by apply onto_refl.
  - apply (gently_out false); [apply cl_put_prev|done..].
Qed.

(** It goes on running. *)
Lemma set_curr_out b p c s0 s :
  out b p s0 s -> curr (rqs s c) = p -> wp (set_curr_task c p) (fun _ => onward b p s0 s) s.
Proof.
  intros Ho Hc. unfold set_curr_task, task_class, get_task. wgo.
  destruct (ou_class _ _ _ _ Ho) as [[Hm|Hm]|Hf]; [rewrite Hm..|rewrite Hf]; cbn [m_set_curr_task class_of rt_class ts_class].
  - assert (Hw : wp (set_curr_task_rt c) (fun _ s' => stays (fun _ => False) c s s') s).
    { unfold set_curr_task_rt, get_rq. wgo. wcall (set_task_stays (fun _ => False) c); [done|apply (proj1 (ou_inv _ _ _ _ Ho))|].
      intros [] s1 H1. wcall (dequeue_pushable_stays (fun _ => False) c); [apply H1|]. intros [] s2 [H2 _].
      by eapply stays_trans. }
    apply wp_done in Hw as ([] & s' & He & Hst). apply (wp_intro _ _ _ _ _ He).
    apply (stays_out _ (fun _ => False) p c s0); [done|by left|by eapply set_curr_task_rt_kept|done|by eapply set_curr_task_rt_spot|done].
  - by apply onto_refl.
  - apply (gently_out b); [apply cl_set_curr|done..].
Qed.

(** *** A real-time task that keeps its place *)

Lemma off_lies p s0 s : off true p s0 s -> lingers (queued_as true p s0) (task_cpu (tasks s p)) p s.
Proof. intros Ho. exact (ou_inv _ _ _ _ Ho). Qed.

(** A step in which [p] stays linked. *)
Lemma off_step (I : kstate -> Prop) p c s0 s s' :
  midway I p s0 s -> task_cpu (tasks s p) = c -> mine s p -> lingers (queued_as true p s0) c p s' ->
  kept s s' -> same_spot s s' -> (curr_kept s -> curr_kept s') -> onto (off_inv true p s0) p s0 s s'.
Proof.
  intros Hs Hc Hm Hl [Hk _] Hsp Hck. apply (midway_step I); [done| |done| |by apply mine_core].
  - unfold off_inv. by rewrite (proj1 (Hsp p)), Hc.
  - intros [H1 H2]. split; [auto|]. apply (running_keep s); [done| |done]. intros x _ _. apply Hsp.
Qed.

(** A task of another class moves whatever the flags. *)
Lemma ts_dequeue_out p c fl s0 s :
  out true p s0 s -> task_cpu (tasks s p) = c -> sched_class (tasks s p) <> rt_sched_class ->
  has fl DEQUEUE_NOCLOCK = true -> wp (dequeue_task c p fl) (fun _ => onward false p s0 s) s.
Proof.
  intros Ho Hc Hn Hno. apply (wp_same _ _ _ _ (dequeue_noclock c p fl s Hno)).
  destruct (ou_class _ _ _ _ Ho) as [[Hm|Hm]|Hf]; [done|rewrite Hm|rewrite Hf]; cbn [class_dequeue].
  - eapply wp_mono; [apply (wp_frames same_spot), (wp_frames keep), (dequeue_ts_minv (queued_as true p s0)); auto with frames|].
    + apply Ho. + apply queued_self.
    + intros [] s' [[[H1 H2] Hk] Hs]. eapply out_step; [exact Ho| |intros x _; apply queued_insert|by apply mine_core; [|right|]].
      apply step_to_local; [done..|]. intros x. apply Hs.
  - apply (gently_out true); [apply cl_dequeue|done..].
Qed.

Lemma ts_enqueue_out p c fl s0 s :
  out false p s0 s -> task_cpu (tasks s p) = c -> sched_class (tasks s p) <> rt_sched_class ->
  has fl ENQUEUE_NOCLOCK = true -> wp (enqueue_task c p fl) (fun _ => onward true p s0 s) s.
Proof.
  intros Ho Hc Hn Hno. apply (wp_same _ _ _ _ (enqueue_noclock c p fl s Hno)).
  destruct (ou_class _ _ _ _ Ho) as [[Hm|Hm]|Hf]; [done|rewrite Hm|rewrite Hf]; cbn [class_enqueue].
  - eapply wp_mono; [apply (wp_frames same_spot), (wp_frames keep), (enqueue_ts_minv (queued_as false p s0)); auto with frames|].
    + apply Ho. + apply queued_self.
    + intros [] s' [[[H1 H2] Hk] Hs]. eapply out_step; [exact Ho| |intros x _; apply queued_insert|by apply mine_core; [|right|]].
      apply step_to_local; [done..|]. intros x. apply Hs.
  - apply (gently_out false); [apply cl_enqueue|done..].
Qed.


Lemma dequeue_off p c fl s0 s :
  out true p s0 s -> task_cpu (tasks s p) = c -> has fl DEQUEUE_NOCLOCK = true ->
  wp (dequeue_task c p fl) (fun _ => lays (lies_on p fl s) p s0 s) s.
Proof.
  intros Ho Hc Hno. assert (Hout : forall m : K unit, wp m (fun _ => onward false p s0 s) s -> wp m (fun _ => lays false p s0 s) s)
    by (intros m H; eapply wp_mono; [exact H|]; intros [] s'; by split).
  unfold lies_on. case_bool_decide as Hcl; cbn [andb]; [|by apply Hout, ts_dequeue_out].
  destruct (move_entity fl) eqn:Hfl; cbn [negb]; [by apply Hout, dequeue_out|]. clear Hout.
  apply (wp_same _ _ _ _ (dequeue_noclock c p fl s Hno)). rewrite Hcl. cbn [class_dequeue].
  eapply wp_mono; [apply (wp_frames same_prio), (wp_frames same_spot), (wp_frames kept), (dequeue_rt_lingers (queued_as true p s0)); auto with frames|].
  - apply rt_moves_prio.
  - apply Ho.
  - apply queued_self.
  - intros [] s' [[[[H1 H2] Hk] Hs] Hp]. split; [|done]. eapply off_step; [exact Ho|exact Hc|by left|done..].
Qed.

Lemma put_prev_off k p c s0 s :
  off k p s0 s -> task_cpu (tasks s p) = c -> wp (put_prev_task c p) (fun _ => lays k p s0 s) s.
Proof.
  intros Ho Hc. destruct k; [|eapply wp_mono; [by apply put_prev_out|]; intros [] s'; by split]. pose proof (off_lies _ _ _ Ho) as Hl. rewrite Hc in Hl.
  destruct (lingers_task _ _ _ _ Hl) as (_ & Hcl & _). unfold put_prev_task, get_task. do 2 wstep. rewrite Hcl.
  cbn [put_prev_op class_put_prev].
  eapply wp_mono; [apply (wp_frames same_prio), (wp_frames same_spot), (wp_frames kept), (put_prev_rt_lingers (queued_as true p s0)); auto with frames|].
  { apply (rt_moves_prio c p 0). }
  intros [] s' [[[[H1 H2] Hk] Hs] Hp]. split; [|done]. eapply off_step; [exact Ho|exact Hc|by left|done..].
Qed.

Lemma enqueue_off k p c fl s0 s :
  off k p s0 s -> task_cpu (tasks s p) = c -> has fl ENQUEUE_NOCLOCK = true -> k = lies_on p fl s ->
  wp (enqueue_task c p fl) (fun _ => onward true p s0 s) s.
Proof.
  intros Ho Hc Hno Hk. unfold lies_on in Hk. destruct k.
  - pose proof (off_lies _ _ _ Ho) as Hl. rewrite Hc in Hl. destruct (lingers_task _ _ _ _ Hl) as (_ & Hcl & _).
    symmetry in Hk. apply andb_true_iff in Hk as [_ Hfl%negb_true_iff].
    apply (wp_same _ _ _ _ (enqueue_noclock c p fl s Hno)). rewrite Hcl. cbn [class_enqueue].
    eapply wp_mono; [apply (wp_frames same_spot), (wp_frames keep), (enqueue_rt_lingers (queued_as true p s0)); auto with frames|].
    intros [] s' [[[H1 H2] Hkp] Hs]. eapply midway_step; [exact Ho|exact H1|done| |by apply mine_core; [|left|]].
    intros [H3 H4]. split; [auto|]. apply (running_keep s); [done| |done]. intros x _ _. apply Hs.
  - case_bool_decide as Hcl; [|by apply ts_enqueue_out]. apply enqueue_out; [done..| |done]. by destruct (move_entity fl).
Qed.

(** *** The change itself *)

(** Of the machine, [p] differs, and load weights; a linked task keeps its
    priority. *)
Lemma change_off k p s0 s s' :
  changeable p s0 -> off k p s0 s -> task_only p s s' ->
  (if k then prio (tasks s' p) = prio (tasks s p) /\ sched_class (tasks s' p) = sched_class (tasks s p)
   else class_fits p (tasks s' p) /\ movable s' p) ->
  rt_on_rq (rt (tasks s' p)) = rt_on_rq (rt (tasks s p)) -> same_place (tasks s p) (tasks s' p) ->
  (exists i, is_cpu_allowed s' p i = true) -> off k p s0 s'.
Proof.
  intros Hca Ho [T1 T2 T3] Hfit Hrt Hpl Hal.
  assert (Hrq : forall {A} (v : rq -> A), (forall r w, v (r <| rq_load_weight := w |>) = v r) ->
    forall i, v (rqs s' i) = v (rqs s i)) by (intros A v Hv i; destruct (T2 i) as [w ->]; apply Hv).
  assert (Hbut : keep_but p s s').
  { split; try (by rewrite T3); try (intros i; by apply Hrq); intros x Hx; rewrite T1; done. }
  destruct (ou_curr _ _ _ _ Ho) as [Hck Hrun]. split; [| | | | |done].
  - destruct k; cbn [off_inv].
    + rewrite (pl_cpu _ _ Hpl). apply (lingers_change _ _ _ s); [by apply off_lies|..]; try done.
      * intros i. split_and!; [by rewrite (Hrq _ rq_rt)| |by rewrite (Hrq _ rq_rt)].
        unfold others. by rewrite (Hrq _ rq_rt), (Hrq _ nr_running).
      * intros x Hx. by rewrite T1.
      * split; [intros i; by apply (Hrq _ ts_queue)| |].
        -- intros x. destruct (decide (x = p)) as [->|Hx]; [apply Hfit|by rewrite T1].
        -- intros x Hx. destruct (decide (x = p)) as [->|Hne]; [|by rewrite T1]. exfalso.
           destruct (lingers_task _ _ _ _ (off_lies _ _ _ Ho)) as (_ & ? & _). congruence.
      * apply Hfit.
      * apply Hpl.
    + set (s1 := s <| tasks ::= alter (fun _ => tasks s' p) p |>).
      assert (Ht : forall x, tasks s' x = tasks s1 x).
      { intros x. simpl. destruct (decide (x = p)) as [->|Hne]; [by rewrite fn_lookup_alter|].
        by rewrite fn_lookup_alter_ne, T1. }
      apply (minv_quiet _ s1).
      * split; split.
        -- intros i. by rewrite (Hrq _ rq_rt).
        -- intros i. by rewrite (Hrq _ rq_rt).
        -- intros Hr i. unfold others. rewrite (Hrq _ rq_rt), (Hrq _ nr_running) by done. apply Hr.
        -- intros x. by rewrite Ht.
        -- intros x. by rewrite Ht.
        -- intros x _ _. by rewrite Ht.
        -- intros i. by apply (Hrq _ ts_queue).
        -- intros x. by rewrite Ht.
        -- intros x _. by rewrite Ht.
      * apply (minv_alter _ _ p (fun _ => tasks s' p)); [apply Ho|apply queued_self|done|apply Hfit].
  - etrans; [apply Ho|exact Hbut].
  - split.
    + intros i. rewrite (Hrq _ curr), (Hrq _ rq_rt) by done. apply Hck.
    + intros i. rewrite (Hrq _ curr) by done. destruct (decide (curr (rqs s i) = p)) as [E|Hne].
      * intros _. rewrite E, (pl_cpu _ _ Hpl), (pl_cpu _ _ (ou_place _ _ _ _ Ho)).
        apply (ca_curr _ _ Hca). by rewrite <- (kb_curr _ _ _ (ou_but _ _ _ _ Ho)).
      * intros Hm. unfold mine in Hm. rewrite T1 in Hm |- * by done. by apply Hrun.
  - etrans; [apply Ho|exact Hpl].
  - destruct k; [|apply Hfit]. destruct Hfit as [_ E]. pose proof (ou_class _ _ _ _ Ho) as Hm.
    unfold movable, mine in *. by rewrite E.
Qed.

(** *** Off the queue and back, as far as the task is on one *)

Lemma running_runnable p c s : changeable p s -> task_current (rqs s c) p = true -> runnable s p = true.
Proof. intros Hca Hr%bool_decide_eq_true. by apply (ca_curr _ _ Hca c). Qed.

Lemma onto_cpu I p s0 s s' : onto I p s0 s s' -> task_cpu (tasks s' p) = task_cpu (tasks s p).
Proof. intros (_ & H & _). apply H. Qed.

Lemma lays_trans k p s0 s1 s2 s3 : lays k p s0 s1 s2 -> lays k p s0 s2 s3 -> lays k p s0 s1 s3.
Proof. intros [A1 A2] [B1 B2]. split; [by eapply onto_trans|]. intros H. etrans; [by apply A2|by apply B2]. Qed.

Lemma take_off c p (running : bool) fl s0 s :
  out (runnable s0 p) p s0 s -> task_cpu (tasks s p) = c -> has fl DEQUEUE_NOCLOCK = true ->
  (running = true -> runnable s0 p = true) ->
  wp (do! when (runnable s0 p) (dequeue_task c p fl) in when running (put_prev_task c p))
     (fun _ => lays (runnable s0 p && lies_on p fl s) p s0 s) s.
Proof.
  intros Ho Hc Hno Hr. wstep. destruct (runnable s0 p); cbn [when andb].
  - eapply wp_mono; [by apply dequeue_off|]. intros [] s1 H1.
    destruct running; [|done]. eapply wp_mono; [apply put_prev_off; [apply H1|by rewrite (onto_cpu _ _ _ _ _ (proj1 H1))]|].
    intros [] s2 H2. by eapply lays_trans.
  - wstep. destruct running; [by discriminate Hr|]. split; [by apply onto_refl|done].
Qed.

Lemma put_back k c p (running : bool) (m : K unit) s0 s :
  off k p s0 s -> (runnable s0 p = false -> k = false) -> (running = true -> curr (rqs s c) = p) ->
  (runnable s0 p = true -> wp m (fun _ => onward true p s0 s) s) -> (running = true -> runnable s0 p = true) ->
  wp (do! when (runnable s0 p) m in when running (set_curr_task c p))
     (fun _ => onward (runnable s0 p) p s0 s) s.
Proof.
  intros Ho Hk Hc Hm Hr. wstep. destruct (runnable s0 p) eqn:E; cbn [when].
  - eapply wp_mono; [by apply Hm|]. intros [] s1 H1.
    destruct running; [|done]. eapply wp_mono; [apply set_curr_out; [apply H1|]|].
    + rewrite (kb_curr _ _ _ (ou_but _ _ _ _ (proj1 H1))), <- (kb_curr _ _ _ (ou_but _ _ _ _ Ho)). by apply Hc.
    + intros [] s2 H2. by eapply onto_trans.
  - wstep. destruct running; [by discriminate Hr|]. rewrite (Hk eq_refl) in Ho. by apply onto_refl.
Qed.

(** ** Back in order *)

Lemma movable_ordinary s p : movable s p -> ordinary (sched_class (tasks s p)) = true.
Proof. by intros [[-> | ->] | ->]. Qed.

Lemma mine_changeable p s : in_order s -> mine s p -> 0 <= p < PID_MAX_LIMIT -> changeable p s.
Proof.
  intros Ho Hm Hid. pose proof (od_rest _ _ Ho) as Ha. split; [by left|done|by apply Ha..| |].
  - intros Hon. destruct (od_on_cpu _ _ Ho p Hm Hon) as [[]|]. done.
  - intros c <-. split; [by apply (od_runs _ _ Ho)|by apply (proj2 (od_curr _ _ Ho))].
Qed.

Lemma in_order_out p s : in_order s -> changeable p s -> out (runnable s p) p s s.
Proof.
  intros Ho Hca. split; [|done|apply Ho|done|apply Hca|apply Hca].
  apply (minv_ext (runnable s)); [|apply Ho]. intros x _. unfold queued_as. by case_decide; subst.
Qed.

Lemma out_at_rest b p s0 s : changeable p s0 -> out b p s0 s -> at_rest s0 -> at_rest s.
Proof.
  intros Hca Ho [H1 H2 H3 H4 H5 H6]. destruct (ou_place _ _ _ _ Ho) as [P1 P2 P3 P4 P5].
  pose proof (ou_but _ _ _ _ Ho) as Hk. pose proof (movable_ordinary _ _ (ca_class _ _ Hca)) as Hord.
  assert (Hm : forall x, x <> p -> mine s x -> mine s0 x) by (intros x Hx; unfold mine; by rewrite (kb_class _ _ _ Hk)).
  split.
  - intros c. destruct (H1 c) as [E1 E2]. unfold no_stop_dl. rewrite (kb_dl _ _ _ Hk), (kb_stop _ _ _ Hk). split; [done|].
    intros q Hq. destruct (E2 q Hq) as [E3 E4]. assert (q <> p) by (intros ->; by rewrite E3 in Hord).
    by rewrite (kb_class _ _ _ Hk), (kb_stop_task _ _ _ Hk).
  - intros c. unfold idle_ok. rewrite (kb_idle _ _ _ Hk). specialize (H2 c). unfold idle_ok in H2.
    rewrite (kb_class _ _ _ Hk); [done|]. intros E. rewrite E in H2.
    destruct (ca_class _ _ Hca) as [[Hc|Hc]|Hc]; by rewrite Hc in H2.
  - rewrite (kb_active _ _ _ Hk), (kb_online _ _ _ Hk). exact H3.
  - intros x Hx. destruct (decide (x = p)) as [->|Hne]; [rewrite P4; apply Hca|].
    rewrite (st_on_rq _ _ (kb_task _ _ _ Hk x Hne (Hm x Hne Hx))). auto.
  - intros x Hx. destruct (decide (x = p)) as [->|Hne]; [rewrite P2; apply Hca|].
    rewrite (st_flags _ _ (kb_task _ _ _ Hk x Hne (Hm x Hne Hx))). auto.
  - intros x Hx. destruct (decide (x = p)) as [->|Hne]; [apply Ho|].
    destruct (kb_task _ _ _ Hk x Hne (Hm x Hne Hx)).
    apply (allowed_same s0); [done|by split|apply Hk|apply Hk|by apply H6, Hm].
Qed.

Lemma out_in_order p s0 s : in_order s0 -> changeable p s0 -> out (runnable s0 p) p s0 s -> in_order s.
Proof.
  intros Ho Hca Hou. destruct (ou_place _ _ _ _ Hou) as [P1 P2 P3 P4 P5]. pose proof (ou_but _ _ _ _ Hou) as Hk.
  assert (Hcur : forall c, curr (rqs s c) = curr (rqs s0 c)) by apply Hk.
  assert (Hm : forall x, x <> p -> mine s x -> mine s0 x) by (intros x Hx; unfold mine; by rewrite (kb_class _ _ _ Hk)).
  assert (Hr : forall x, mine s x -> runnable s x = runnable s0 x).
  { intros x Hx. unfold runnable, task_on_rq_queued. destruct (decide (x = p)) as [->|Hne]; [by rewrite P4|].
    by rewrite (st_on_rq _ _ (kb_task _ _ _ Hk x Hne (Hm x Hne Hx))). }
  split.
  - apply (minv_ext (queued_as (runnable s0 p) p s0)); [|apply Hou]. intros x Hx. unfold queued_as.
    case_decide; subst; by rewrite Hr.
  - apply Hou.
  - intros c Hx. rewrite Hr, Hcur by done. rewrite Hcur in Hx.
    destruct (decide (curr (rqs s0 c) = p)) as [E|Hne]; [rewrite E; by apply (ca_curr _ _ Hca c)|].
    apply (od_runs _ _ Ho). by apply Hm.
  - intros c. rewrite Hcur. destruct (decide (curr (rqs s0 c) = p)) as [->|Hne].
    + apply movable_ordinary, Hou.
    + rewrite (kb_class _ _ _ Hk) by done. apply Ho.
  - intros x Hx. setoid_rewrite Hcur. destruct (decide (x = p)) as [->|Hne].
    + rewrite P3. intros Hon. right. by apply (ca_on_cpu _ _ Hca).
    + rewrite (st_on_cpu _ _ (kb_task _ _ _ Hk x Hne (Hm x Hne Hx))). apply Ho. by apply Hm.
  - apply (out_at_rest (runnable s0 p) p s0); [done..|]. apply Ho.
Qed.

(** A change that the classes and the placing of tasks do not see. *)
Lemma changeable_calm p s s' :
  calm s s' -> same_place (tasks s p) (tasks s' p) -> same_mask (tasks s p) (tasks s' p) ->
  changeable p s -> changeable p s'.
Proof.
  intros [_ Hk] [P1 P2 P3 P4 P5] Hma [H1 H2 H3 H4 H5 H6 H7]. split.
  - by eapply movable_keep.
  - done.
  - by rewrite P4.
  - by rewrite P2.
  - by apply (allowed_same s); [..|apply Hk|apply Hk|].
  - rewrite P3. intros [c Hc]%H6. exists c. by rewrite (kp_curr _ _ Hk).
  - intros c. rewrite (kp_curr _ _ Hk), P5. unfold runnable, task_on_rq_queued. rewrite P4. apply H7.
Qed.
End Out.
