(* ===== verification/Requeue.v ===== *)
(** * Changing how a task is scheduled, on a machine in order

    What [SetSched.v] does to a task that may be queued and running: it is
    taken off its queue, put back as the previous task, changed, and queued
    again, in another class if need be ([Stages]).  The machine is in order
    afterwards ([InOrder]). *)

From S2P Require Import Prelude Sched Ts RtBandwidth Rt RtProps SchedClass ClassProps.
From S2P Require Import Frames CoreInv SetSched SetProps Wake CoreProps Switch SwitchProps InOrder InPlace Stages.

Section Out.
Context `{Hfeat : SchedFeat} `{Hlim : Rlimits} `{Hpri : Cpupri} `{Htop : Topology}.
Context `{Hoth : OtherClasses} `{Hdl : Deadline} {Hch : ChangeLaws}.
Implicit Types (b : bool) (c i : cpu) (p x : task) (s : kstate).

(** ** The change of parameters *)

Lemma class_for_fits p t :
  sched_class t = class_for (prio t) (policy t) -> 0 <= prio t < MAX_PRIO -> 0 <= p < PID_MAX_LIMIT ->
  class_fits p t /\ (sched_class t = rt_sched_class \/ sched_class t = ts_sched_class \/ sched_class t = fair_sched_class).
Proof.
  unfold class_fits, class_for, dl_prio, rt_prio, MAX_DL_PRIO, MAX_RT_PRIO, MAX_PRIO. intros -> Hp Hid.
  destruct (Z.ltb_spec (prio t) 0); [lia|]. destruct (Z.ltb_spec (prio t) 100); [by auto|].
  destruct (ts_policy _); split; auto. lia.
Qed.

(** The parameters that can be asked for, but for the deadline policy. *)
Record fitting (p : task) (attr : sched_attr) (s : kstate) : Prop := {
  ft_rt : if rt_policy (new_policy (tasks s p) attr) then 1 <= sched_priority attr < MAX_RT_PRIO
          else sched_priority attr = 0;
  ft_dl : dl_policy (new_policy (tasks s p) attr) = false;
  ft_nice : MIN_NICE <= sched_nice attr <= MAX_NICE;
  ft_static : MAX_RT_PRIO <= static_prio (tasks s p) < MAX_PRIO;
  ft_top : forall q, pi_top_task (tasks s p) = Some q -> mine s q /\ q <> p
}.

Lemma fitting_normal p attr s : fitting p attr s -> 0 <= new_normal (tasks s p) attr < MAX_PRIO.
Proof.
  intros [H1 _ H3 H4 _]. unfold new_normal. pose proof (new_static_range _ attr H4 H3) as H.
  unfold MAX_RT_PRIO, MAX_PRIO in *. destruct (rt_policy _); lia.
Qed.

Lemma fitting_core p attr s s' :
  fitting p attr s -> (forall q, mine s q -> mine s' q) -> same_core (tasks s p) (tasks s' p) -> fitting p attr s'.
Proof.
  intros [H1 H2 H3 H4 H5] Hm [Ht _ Hp].
  assert (E : new_policy (tasks s' p) attr = new_policy (tasks s p) attr)
    by (unfold new_policy; by rewrite (st_policy _ _ Ht)).
  split; rewrite ?E, ?(st_static _ _ Ht); [done..|]. intros q. rewrite Hp. intros Hq. destruct (H5 q Hq). auto.
Qed.

Lemma minv_prio on s q : minv on s -> mine s q -> 0 <= prio (tasks s q).
Proof. intros Hm [Hq|Hq]; pose proof (minv_fits on s q Hm) as H; unfold class_fits in H; rewrite Hq in H; lia. Qed.

Lemma off_prio k p s0 s q : off k p s0 s -> mine s q -> 0 <= prio (tasks s q).
Proof.
  intros Ho. destruct k; [|by eapply minv_prio, Ho]. destruct (off_lies _ _ _ Ho) as [Hr Ht].
  intros [Hq|Hq]; [by apply (rl_prio _ _ _ _ Hr)|]. pose proof (tp_prio _ _ Ht q Hq). lia.
Qed.

(** The priority that a change leads to, by the task that waits for [p]. *)
Lemma inherits_top p attr pi s pr :
  fitting p attr s -> inherits p attr pi s pr ->
  pr = if pi then __rt_effective_prio s (pi_top_task (tasks s p)) (new_normal (tasks s p) attr)
       else new_normal (tasks s p) attr.
Proof.
  intros Hf (t & Ht & Hi). rewrite cl_top, Ht in Hi. unfold __rt_effective_prio.
  destruct (pi_top_task (tasks s p)) as [q|] eqn:Eq; [|by destruct pi].
  destruct (ft_top _ _ _ Hf q Eq) as [_ Hne]. apply Z.eqb_neq in Hne. rewrite Hne in Hi. by destruct pi.
Qed.

Lemma inherits_range k p attr pi s0 s pr :
  off k p s0 s -> fitting p attr s -> inherits p attr pi s pr -> 0 <= pr < MAX_PRIO.
Proof.
  intros Ho Hf ->%(inherits_top _ _ _ _ _ Hf). pose proof (fitting_normal _ _ _ Hf) as Hn.
  destruct pi; [|done]. unfold __rt_effective_prio. destruct (pi_top_task (tasks s p)) as [q|] eqn:Eq; [|done].
  pose proof (off_prio _ _ _ _ q Ho (proj1 (ft_top _ _ _ Hf q Eq))). lia.
Qed.

(** The class that a change gives [p]: that of the policy, or the real-time class
    if a task waits for a mutex that [p] holds. *)
Definition lands p attr s (k : sched_class_t) : Prop :=
  class_asked (new_normal (tasks s p) attr) (new_policy (tasks s p) attr) k \/
  k = rt_sched_class /\ pi_top_task (tasks s p) <> None.

Lemma lands_core p attr s s' k : same_core (tasks s p) (tasks s' p) -> lands p attr s' k -> lands p attr s k.
Proof.
  intros [Ht _ Hp]. unfold lands, new_normal, new_static, new_policy.
  by rewrite Hp, (st_policy _ _ Ht), (st_static _ _ Ht).
Qed.

Lemma inherits_lands p attr pi s pr :
  fitting p attr s -> 0 <= pr < MAX_PRIO -> inherits p attr pi s pr ->
  lands p attr s (class_for pr (new_policy (tasks s p) attr)).
Proof.
  intros Hf Hpr Hi. pose proof (fitting_normal _ _ _ Hf) as Hn. apply (inherits_top _ _ _ _ _ Hf) in Hi.
  destruct (decide (pr = new_normal (tasks s p) attr)) as [->|Hne]; [left; apply class_for_asked|]. destruct pi; [|done].
  unfold __rt_effective_prio in Hi. destruct (pi_top_task (tasks s p)) as [q|] eqn:Eq; [|done].
  pose proof (class_for_asked pr (new_policy (tasks s p) attr)) as [_ Hrt Hts Hfr]. unfold lands. rewrite Eq.
  destruct (Z.ltb_spec pr 100); [right; split; [apply Hrt; lia|done]|]. left. split; [lia..| |].
  - intros _. apply Hts. lia.
  - intros _. apply Hfr. lia.
Qed.

(** The priority that [__sched_setscheduler] expects the request to give. *)
Definition expected_prio p (attr : sched_attr) s : Z :=
  __rt_effective_prio s (rt_mutex_get_top_task (tasks s p))
    (if dl_policy (s32 (sched_policy attr)) then MAX_DL_PRIO - 1 else s32 (MAX_RT_PRIO - 1 - sched_priority attr)).

(** The task is to keep its place: its priority is the one expected.  No policy
    gives priority 99, which would be that of [sched_priority] 0. *)
Record keeps_place p attr (pi : bool) s : Prop := {
  kl_pi : pi = true;
  kl_prio : expected_prio p attr s = prio (tasks s p);
  kl_rt : prio (tasks s p) <> MAX_RT_PRIO - 1
}.

Lemma new_policy_not_dl t attr : dl_policy (new_policy t attr) = false -> dl_policy (s32 (sched_policy attr)) = false.
Proof.
  unfold new_policy, SETPARAM_POLICY, dl_policy, SCHED_DEADLINE.
  destruct (Z.eqb_spec (s32 (sched_policy attr)) (-1)) as [->|]; done.
Qed.

Lemma expected_top p attr s :
  fitting p attr s ->
  expected_prio p attr s = __rt_effective_prio s (pi_top_task (tasks s p)) (MAX_RT_PRIO - 1 - sched_priority attr).
Proof.
  intros Hf. unfold expected_prio. rewrite cl_top, (new_policy_not_dl (tasks s p)) by apply Hf.
  rewrite s32_small; [done|]. pose proof (ft_rt _ _ _ Hf). unfold MAX_RT_PRIO in *. destruct (rt_policy _); lia.
Qed.

Lemma expected_bound p attr s : fitting p attr s -> expected_prio p attr s < MAX_RT_PRIO.
Proof.
  intros Hf. rewrite expected_top by done. pose proof (ft_rt _ _ _ Hf). unfold __rt_effective_prio, MAX_RT_PRIO in *.
  destruct (pi_top_task _), (rt_policy _); lia.
Qed.

(** What is expected comes true. *)
Lemma keeps_place_prio p attr pi s pr :
  fitting p attr s -> keeps_place p attr pi s -> prio (tasks s p) < MAX_RT_PRIO -> inherits p attr pi s pr ->
  pr = prio (tasks s p).
Proof.
  intros Hf [-> E Hne] Hlt ->%(inherits_top _ _ _ _ _ Hf). rewrite expected_top in E by done.
  pose proof (ft_rt _ _ _ Hf) as Hrt. unfold new_normal. unfold __rt_effective_prio in *.
  destruct (rt_policy _); [done|]. pose proof (new_static_range (tasks s p) attr (ft_static _ _ _ Hf) (ft_nice _ _ _ Hf)).
  destruct (pi_top_task _); unfold MAX_RT_PRIO in *; lia.
Qed.

Lemma setscheduler_off k c p attr pi s0 s :
  changeable p s0 -> off k p s0 s -> fitting p attr s -> (k = true -> keeps_place p attr pi s) ->
  wp (__setscheduler c p attr pi) (fun _ s' => off k p s0 s' /\ lands p attr s (sched_class (tasks s' p)) /\
    (k = true -> prio (tasks s' p) = prio (tasks s p) /\ sched_class (tasks s' p) = sched_class (tasks s p))) s.
Proof.
  intros Hca Ho Hf Hkp.
  wcall setscheduler_run; [apply cl_reweight|apply Hf|apply new_static_range; apply Hf|].
  intros [] s' [Hto (e & pr & Et & _ & _ & Hi)].
  pose proof (inherits_range _ _ _ _ _ _ _ Ho Hf Hi) as Hpr.
  destruct (class_for_fits p (tasks s' p)) as [Hfit Hcl]; [by rewrite Et|by rewrite Et|apply Hca|].
  assert (Hkept : k = true -> prio (tasks s' p) = prio (tasks s p) /\ sched_class (tasks s' p) = sched_class (tasks s p)).
  { intros ->. destruct (off_lies _ _ _ Ho) as [Hr _]. destruct (lingers_task _ _ _ _ (off_lies _ _ _ Ho)) as (_ & Hc & _).
    pose proof (rl_prio _ _ _ _ Hr p Hc) as Hb.
    pose proof (keeps_place_prio p attr pi s pr Hf (Hkp eq_refl) ltac:(unfold MAX_RT_PRIO; lia) Hi) as E.
    rewrite Et, Hc. simpl. split; [done|]. unfold class_for, dl_prio, rt_prio, MAX_DL_PRIO, MAX_RT_PRIO.
    rewrite E, (proj2 (Z.ltb_ge _ _)) by lia. by rewrite (proj2 (Z.ltb_lt _ _)) by lia. }
  split; [|split; [rewrite Et; by eapply inherits_lands|done]].
  apply (change_off k p s0 s); try done.
  - destruct k; [by apply Hkept|]. split; [done|]. unfold movable, mine. tauto.
  - by rewrite Et.
  - rewrite Et. by split.
  - apply (allowed_same s); [by rewrite Et|by rewrite Et|by rewrite (to_rest _ _ _ Hto)..|apply Ho].
Qed.

(** *** Telling the classes *)

Lemma switched_from_calm c p k s :
  k = rt_sched_class \/ k = ts_sched_class \/ k = fair_sched_class ->
  calmly (call_if (m_switched_from (class_of k)) (fun m => m c p)) s.
Proof.
  intros [-> | [-> | ->]]; cbn [class_of m_switched_from rt_class ts_class call_if].
  - apply calmly_total; [total_tac|apply frames_calm; frames_tac].
  - by intros _.
  - pose proof cl_switched_from as H. unfold tells in H.
    destruct (m_switched_from (other_class fair_sched_class)) as [m|]; [apply quietly_calmly, H|by intros _].
Qed.

Lemma class_changed_calm c p k old s :
  k = rt_sched_class \/ k = ts_sched_class \/ k = fair_sched_class -> movable s p ->
  calmly (check_class_changed c p k old) s.
Proof.
  intros Hk Hm. unfold check_class_changed, get_task. apply calmly_get. destruct (negb (bool_decide _)).
  - apply calmly_bind; [by apply switched_from_calm|]. intros s1 H1. apply calmly_class.
    apply (movable_keep s s1) in Hm; [|apply H1]. destruct Hm as [[Hm|Hm]|Hf]; [rewrite Hm..|rewrite Hf].
    all: cbn [class_of m_switched_to rt_class ts_class].
    + apply calmly_total; [total_tac|apply frames_calm; frames_tac].
    + by intros _.
    + apply quietly_calmly, cl_switched_to.
  - apply calmly_when. destruct Hm as [[Hm|Hm]|Hf]; [rewrite Hm..|rewrite Hf].
    all: cbn [class_of m_prio_changed rt_class ts_class].
    + apply calmly_total; [total_tac|apply frames_calm; frames_tac].
    + by intros _.
    + apply quietly_calmly, cl_prio_changed.
Qed.
End Out.

(** ** Setting a policy *)

Section Change.
Context `{Hfeat : SchedFeat} `{Hlim : Rlimits} `{Hpri : Cpupri} `{Htop : Topology}.
Context `{Hoth : OtherClasses} {Hlaws : OtherLaws} `{Hcall : Caller} `{Hdl : Deadline} {Hch : ChangeLaws}.
Context `{Henv : CoreEnv} `{Hsw : SwitchEnv} {Hswl : SwitchLaws}.
Implicit Types (b : bool) (c i : cpu) (p x : task) (s : kstate).

(** The flags with which a task is moved to its new place. *)
Definition moving : Z := Z.lor (Z.lor DEQUEUE_SAVE DEQUEUE_MOVE) DEQUEUE_NOCLOCK.

Definition staying : Z := Z.lor DEQUEUE_SAVE DEQUEUE_NOCLOCK.

Lemma moving_staying : Z.land moving (Z.lnot DEQUEUE_MOVE) = staying.
Proof. done. Qed.

Lemma onto_fitting I I' p attr s0 s s' :
  midway I p s0 s -> onto I' p s0 s s' -> fitting p attr s -> fitting p attr s'.
Proof.
  intros Ho (Ho' & Hc & Hcl) Hf. eapply fitting_core; [exact Hf| |exact Hc]. intros q. unfold mine.
  destruct (decide (q = p)) as [->|Hne]; [by rewrite Hcl|].
  by rewrite (kb_class _ _ _ (ou_but _ _ _ _ Ho')), (kb_class _ _ _ (ou_but _ _ _ _ Ho)).
Qed.

Lemma lies_moving p fl s : move_entity fl = true -> lies_on p fl s = false.
Proof. intros H. unfold lies_on. by rewrite H, andb_false_r. Qed.

Lemma lies_same p fl s s' : sched_class (tasks s' p) = sched_class (tasks s p) -> lies_on p fl s' = lies_on p fl s.
Proof. unfold lies_on. by intros ->. Qed.

Lemma moving_head b : move_entity (if b then Z.lor moving ENQUEUE_HEAD else moving) = true /\
  has (if b then Z.lor moving ENQUEUE_HEAD else moving) ENQUEUE_NOCLOCK = true.
Proof. by destruct b. Qed.

(** The flags for a queued task: it moves, or keeps its place. *)
Definition flags_fit p attr pi (fl : Z) s : Prop :=
  fl = moving \/ fl = staying /\ sched_class (tasks s p) = rt_sched_class /\ keeps_place p attr pi s.

Lemma flags_fit_noclock p attr pi fl s : flags_fit p attr pi fl s -> has fl DEQUEUE_NOCLOCK = true.
Proof. by intros [-> | [-> _]]. Qed.

Lemma keeps_place_core p attr pi s s' :
  fitting p attr s -> fitting p attr s' -> pi_top_task (tasks s' p) = pi_top_task (tasks s p) ->
  prio (tasks s' p) = prio (tasks s p) -> (forall q, q <> p -> mine s q -> prio (tasks s' q) = prio (tasks s q)) ->
  keeps_place p attr pi s -> keeps_place p attr pi s'.
Proof.
  intros Hf Hf' E1 E2 E3 [H1 H2 H3]. split; [done| |by rewrite E2].
  rewrite expected_top in * by done. rewrite E1, E2, <- H2. unfold __rt_effective_prio.
  destruct (pi_top_task (tasks s p)) as [q|] eqn:Eq; [|done]. destruct (ft_top _ _ _ Hf q Eq). by rewrite E3.
Qed.

Lemma requeue_changed_out c p attr pi fl s0 s :
  changeable p s0 -> out (runnable s0 p) p s0 s -> fitting p attr s -> task_cpu (tasks s p) = c ->
  flags_fit p attr pi fl s ->
  wp (requeue_changed c p attr pi fl) (fun _ s' => out (runnable s0 p) p s0 s' /\
    lands p attr s (sched_class (tasks s' p))) s.
Proof.
  intros Hca Ho Hft Hc Hfl. unfold requeue_changed, get_task at 1, get_rq. do 4 wstep. cbv zeta.
  pose proof (kb_curr _ _ _ (ou_but _ _ _ _ Ho) c) as Hcur.
  assert (Hr : task_current (rqs s c) p = true -> runnable s0 p = true).
  { intros Hr. apply (running_runnable p c s0 Hca). unfold task_current in *. by rewrite <- Hcur. }
  assert (Hq : task_on_rq_queued (tasks s p) = runnable s0 p).
  { unfold runnable, task_on_rq_queued. by rewrite (pl_on_rq _ _ (ou_place _ _ _ _ Ho)). }
  rewrite Hq. set (k := runnable s0 p && lies_on p fl s).
  apply wp_reassoc. wstep. eapply wp_mono; [apply (take_off c p _ fl s0 s); [done|done|by eapply flags_fit_noclock|exact Hr]|].
  fold k. intros [] s1 [H1 Hpr]. wstep. pose proof (onto_fitting _ _ _ _ _ _ _ Ho H1 Hft) as Hft1.
  assert (Hlie : k = true -> fl = staying /\ keeps_place p attr pi s1).
  { intros E. unfold k in E. apply andb_true_iff in E as [E1 E2]. destruct Hfl as [-> | (-> & _ & Hk)].
    - by rewrite lies_moving in E2.
    - split; [done|]. eapply keeps_place_core; [exact Hft|exact Hft1|apply H1|by apply Hpr; unfold k; rewrite E1|..|exact Hk].
      intros q _ _. by apply Hpr; unfold k; rewrite E1. }
  eapply wp_mono; [apply (setscheduler_off k c p attr pi s0); [done|apply H1|done|by intros E; apply Hlie]|].
  intros [] s2 (H2 & Hl & Hp2). apply (lands_core p attr s s1) in Hl; [|apply H1].
  eapply wp_mono; [apply (put_back k); [exact H2| | | |exact Hr]|].
  - unfold k. by intros ->.
  - intros E%bool_decide_eq_true. rewrite (kb_curr _ _ _ (ou_but _ _ _ _ H2)). by rewrite <- Hcur.
  - intros Hrun. unfold get_task. do 2 wstep.
    assert (Hcp : task_cpu (tasks s2 p) = c)
      by by rewrite (pl_cpu _ _ (ou_place _ _ _ _ H2)), <- (pl_cpu _ _ (ou_place _ _ _ _ Ho)).
    destruct k eqn:Ek.
    + destruct (Hlie eq_refl) as [-> _]. destruct (Hp2 eq_refl) as [P2 C2].
      destruct H1 as (_ & _ & C1). rewrite (Hpr eq_refl p : prio (tasks s1 p) = prio (tasks s p)) in P2.
      rewrite P2, Z.ltb_irrefl. apply (enqueue_off true); [done..|].
      unfold k in Ek. rewrite Hrun in Ek. cbn [andb] in Ek. rewrite <- Ek. symmetry. apply lies_same. by rewrite C2.
    + assert (fl = moving) as ->.
      { destruct Hfl as [-> | (-> & Hcl & _)]; [done|]. unfold k in Ek. rewrite Hrun in Ek. cbn [andb] in Ek.
        unfold lies_on in Ek. by rewrite bool_decide_true in Ek. }
      destruct (moving_head (prio (tasks s p) <? prio (tasks s2 p))) as [M1 M2]. apply enqueue_out; done.
  - intros [] s3 (H3 & _ & Hcl). by rewrite Hcl.
Qed.

(** [p] waits for no rt mutex. *)
Definition unblocked p : Prop := forall s, rt_mutex_adjust_pi p s = Done (tt, s).

(** What a change of [p] makes of the machine. *)
Record reclassed p attr s s' : Prop := {
  rc_class : lands p attr s (sched_class (tasks s' p));
  rc_rq : mine s' p -> on_rq (tasks s' p) = on_rq (tasks s p);
  rc_others : forall x, x <> p -> sched_class (tasks s' x) = sched_class (tasks s x) /\
    (mine s x -> on_rq (tasks s' x) = on_rq (tasks s x));
  rc_curr : forall i, curr (rqs s' i) = curr (rqs s i)
}.

Lemma calmly_in_order (m : K unit) s : in_order s -> calmly m s -> wp m (fun _ => goes (fun _ => False) s) s.
Proof. intros Ho Hm. by apply goes_calmly; [apply goes_refl|]. Qed.

(** Where the priorities of a task that is not a deadline task lie. *)
Definition ranked p s : Prop :=
  if bool_decide (sched_class (tasks s p) = rt_sched_class) then prio (tasks s p) <> MAX_RT_PRIO - 1
  else MAX_RT_PRIO <= prio (tasks s p).

Lemma change_scheduler_run p attr pi s :
  in_order s -> changeable p s -> fitting p attr s -> ranked p s -> (pi = true -> unblocked p) ->
  wp (change_scheduler (task_cpu (tasks s p)) p attr pi) (fun _ s' => in_order s' /\ reclassed p attr s s') s.
Proof.
  intros Ho Hca Hft Hrk Hpi. unfold change_scheduler, get_task, rt_effective_prio. do 6 wstep. cbv zeta.
  fold moving. fold (expected_prio p attr s). rewrite moving_staying. set (fl := if _ && _ then _ else moving).
  assert (Hfl : flags_fit p attr pi fl s).
  { unfold fl, ranked in *. destruct pi; [|by left]. destruct (Z.eqb_spec (expected_prio p attr s) (prio (tasks s p))) as [E|]; [|by left].
    cbn [andb]. pose proof (expected_bound p attr s Hft). case_bool_decide as Hcl; [|lia]. right. by split_and!. }
  wstep. eapply wp_mono; [by apply (requeue_changed_out _ p attr pi fl s); [|apply in_order_out|..]|].
  intros [] s1 [Hou Hl]. assert (Ho1 : in_order s1) by by eapply out_in_order.
  wstep. eapply wp_mono; [apply calmly_in_order; [done|apply class_changed_calm; [|apply Hou]]|].
  { destruct (ca_class _ _ Hca) as [[?|?]|?]; auto. }
  intros [] s2 H2. wstep. eapply (wp_mono _ (fun _ s' => s' = s2)).
  { wstep; [|done]. by apply (wp_intro _ _ _ _ _ (Hpi H s2)). }
  intros [] ? ->. eapply wp_mono; [by apply balance_callback_goes|].
  intros [] s3 [Ho3 [D1 D2 D3 D4]]. split; [done|]. pose proof (ou_but _ _ _ _ Hou) as Hk. split.
  - by rewrite D1.
  - intros Hm. rewrite D2; [by rewrite (pl_on_rq _ _ (ou_place _ _ _ _ Hou))|]. unfold mine in *. by rewrite <- D1.
  - intros x Hx. rewrite D1. split; [by apply Hk|]. intros Hm. rewrite D2; [by apply Hk|].
    unfold mine. by rewrite (kb_class _ _ _ Hk).
  - intros i. rewrite D4. apply Hk.
Qed.

(** What is asked of [__sched_setscheduler]: a policy other than
    [SCHED_DEADLINE], for a task that is not a deadline task. *)
Record asked p attr (pi : bool) s : Prop := {
  as_policy : -1 <= s32 (sched_policy attr);
  as_dl : dl_policy (new_policy (tasks s p) attr) = false;
  as_task : dl_task (tasks s p) = false;
  as_prio : 0 <= sched_priority attr;
  as_nice : MIN_NICE <= sched_nice attr <= MAX_NICE;
  as_static : MAX_RT_PRIO <= static_prio (tasks s p) < MAX_PRIO;
  as_top : forall q, pi_top_task (tasks s p) = Some q -> mine s q /\ q <> p;
  as_ranked : ranked p s;
  as_free : pi = true -> unblocked p
}.

Lemma asked_fitting p attr pi s :
  asked p attr pi s -> valid_attr (tasks s p) attr (new_policy (tasks s p) attr) = true -> fitting p attr s.
Proof. intros [] Hv. split; try done. by eapply valid_attr_rt. Qed.

(** How a call ends: an error, a task that had the parameters already, or a
    change. *)
Definition answered p attr s (r : Z) s' : Prop :=
  in_order s' /\ (r = 0 -> reclassed p attr s s' \/
    policy (tasks s p) = new_policy (tasks s p) attr /\
    params_differ (tasks s p) attr (policy (tasks s p)) = false /\
    forall x, tasks s' x = tasks s x <| sched_reset_on_fork := sched_reset_on_fork (tasks s' x) |>).

(** Telling whether to reset on fork. *)
Lemma reset_flag_run p v s :
  in_order s -> wp (set_task p (fun t => t <| sched_reset_on_fork := v |>)) (fun _ s' => in_order s' /\ calm s s' /\
    forall x, tasks s' x = tasks s x <| sched_reset_on_fork := sched_reset_on_fork (tasks s' x) |>) s.
Proof.
  intros Ho. eapply wp_mono; [apply wp_and|].
  - apply (wp_total calm); [total_tac|apply frames_calm; frames_tac].
  - eapply (wp_intro _ (fun _ s' => forall x, tasks s' x = tasks s x <| sched_reset_on_fork := sched_reset_on_fork (tasks s' x) |>)); [reflexivity|].
    intros x. simpl. destruct (decide (p = x)) as [->|Hne]; [by rewrite fn_lookup_alter|].
    rewrite fn_lookup_alter_ne by done. by destruct (tasks s x).
  - intros [] s' [Hc Ht]. split; [by eapply order_calm|done].
Qed.

Lemma asked_flag p attr pi s s' :
  asked p attr pi s -> calm s s' ->
  (forall x, tasks s' x = tasks s x <| sched_reset_on_fork := sched_reset_on_fork (tasks s' x) |>) ->
  ranked p s' /\ same_core (tasks s p) (tasks s' p) /\ lands p attr s' = lands p attr s.
Proof.
  intros Ha [Hq Hk] Ht.
  assert (Hv : forall {A} (v : task_struct -> A) x, (forall (t : task_struct) (z : Z), v (t <| sched_reset_on_fork := z |>) = v t) ->
    v (tasks s' x) = v (tasks s x)) by (intros A v x Hv; rewrite Ht; apply Hv).
  split; [|split].
  - pose proof (as_ranked _ _ _ _ Ha) as H. unfold ranked in *. by rewrite (Hv _ prio), (Hv _ sched_class).
  - rewrite Ht. by split.
  - unfold lands, new_normal, new_static, new_policy.
    by rewrite (Hv _ pi_top_task), (Hv _ policy), (Hv _ static_prio).
Qed.

Lemma asked_policy p attr pi s :
  asked p attr pi s ->
  (if s32 (sched_policy attr) <? 0 then policy (tasks s p) else s32 (sched_policy attr)) = new_policy (tasks s p) attr.
Proof.
  intros Ha. pose proof (as_policy _ _ _ _ Ha). unfold new_policy, SETPARAM_POLICY.
  destruct (Z.ltb_spec (s32 (sched_policy attr)) 0), (Z.eqb_spec (s32 (sched_policy attr)) (-1)); lia.
Qed.

(** The checks are passed, and the change is made. *)
Lemma change_answered p attr pi v s s1 :
  in_order s -> changeable p s -> asked p attr pi s -> fitting p attr s -> calm s s1 -> tasks s1 = tasks s ->
  wp (do! set_task p (fun t => t <| sched_reset_on_fork := v |>) in
      do! change_scheduler (task_cpu (tasks s p)) p attr pi in ret 0) (answered p attr s) s1.
Proof.
  intros Ho Hca Ha Hf H1 Ht1. assert (Ho1 : in_order s1) by by eapply order_calm.
  wstep. eapply wp_mono; [by apply reset_flag_run|]. intros [] s2 (Ho2 & H2 & Ht). rewrite Ht1 in Ht.
  assert (H02 : calm s s2) by by etrans. destruct (asked_flag p attr pi s s2 Ha H02 Ht) as (Hrk & Hc & Hl).
  assert (Hca2 : changeable p s2) by (by apply (changeable_calm p s); [|apply core_place|apply core_mask|]).
  assert (Hf2 : fitting p attr s2).
  { eapply fitting_core; [exact Hf| |exact Hc]. intros q. apply (proj2 (keep_mine s s2 q (proj2 H02))). }
  wstep. rewrite <- (sc_cpu _ _ Hc). eapply wp_mono; [by apply change_scheduler_run; [..|apply Ha]|].
  intros [] s3 [Ho3 [R1 R2 R3 R4]]. wstep. split; [done|]. intros _. left.
  assert (Hcl : forall x, sched_class (tasks s2 x) = sched_class (tasks s x)) by apply H02.
  split.
  - by rewrite <- Hl.
  - intros Hm. rewrite R2 by done. apply (st_on_rq _ _ (sc_task _ _ Hc)).
  - intros x Hx. destruct (R3 x Hx) as [E1 E2]. split; [by rewrite E1|]. intros Hm.
    rewrite E2; [|by apply (keep_mine s s2 x (proj2 H02))]. by rewrite (st_on_rq _ _ (kp_task _ _ (proj2 H02) x Hm)).
  - intros i. rewrite R4. apply H02.
Qed.

Lemma recheck_run fuel p attr user pi s :
  in_order s -> changeable p s -> asked p attr pi s ->
  wp (setsched_recheck (S fuel) p attr user pi (s32 (sched_policy attr)) (-1)) (answered p attr s) s.
Proof.
  intros Ho Hca Ha. cbn [setsched_recheck]. unfold get_task. do 2 wstep. cbv zeta. rewrite (asked_policy p attr pi) by done.
  assert (Herr : forall r s', in_order s' -> r <> 0 -> wp (ret r) (answered p attr s) s') by (intros r s' Ho' Hr; by split).
  wstep; [by apply Herr|]. wstep; [by apply Herr|]. clear H. apply negb_false_iff in H0.
  pose proof (asked_fitting _ _ _ _ Ha H0) as Hf.
  do 2 wstep. wstep; [by apply Herr|]. clear H. wstep; [by apply Herr|]. clear H.
  wstep; [apply Herr; [done|]|]. { apply andb_true_iff in H as [_ H]. by apply negb_true_iff, Z.eqb_neq in H. }
  clear H. wstep. eapply wp_mono; [apply update_clock_tasks|]. intros [] s1 [H1 Ht1].
  assert (Ho1 : in_order s1) by by eapply order_calm. do 2 wstep. rewrite !Ht1.
  wstep; [by apply Herr|]. clear H. wstep.
  { apply andb_true_iff in H as [E1%Z.eqb_eq E2%negb_true_iff]. wstep.
    eapply wp_mono; [by apply reset_flag_run|]. intros [] s2 (Ho2 & _ & Ht). rewrite Ht1 in Ht. wstep.
    split; [done|]. intros _. right. rewrite E1 in E2. by rewrite E1. }
  clear H. wstep; [by apply Herr|]. clear H. wstep.
  { exfalso. apply andb_true_iff in H as [H H']. destruct (_ <? 0); [by rewrite Z.eqb_refl in H'|done]. }
  clear H. rewrite (as_dl _ _ _ _ Ha), (as_task _ _ _ _ Ha). cbn [orb]. do 2 wstep. cbn [Z.eqb negb].
  by apply (change_answered p attr pi).
Qed.

Lemma setscheduler_answers p attr user pi s :
  in_order s -> changeable p s -> asked p attr pi s -> pi && in_interrupt = false ->
  wp (__sched_setscheduler p attr user pi) (answered p attr s) s.
Proof.
  intros Ho Hca Ha Hi. unfold __sched_setscheduler. wstep. apply wp_bug_on; [done|]. by apply recheck_run.
Qed.

(** ** Priority inheritance *)

Lemma boost_class_run p pi_task pr old s :
  0 <= pr ->
  wp (boost_class p pi_task pr old moving) (fun fl s' => move_entity fl = true /\ has fl ENQUEUE_NOCLOCK = true /\
    task_only p s s' /\ unmoved (tasks s p) (tasks s' p) /\ rt_on_rq (rt (tasks s' p)) = rt_on_rq (rt (tasks s p)) /\
    sched_class (tasks s' p) = if rt_prio pr then rt_sched_class else fair_sched_class) s.
Proof.
  intros Hpr. unfold boost_class. do 2 wstep. cbv zeta.
  assert (E : dl_prio pr = false) by (apply Z.ltb_ge; unfold MAX_DL_PRIO; lia). rewrite E.
  assert (Hset : forall (b : bool) f s, (forall t, unmoved t (f t) /\ rt_on_rq (rt (f t)) = rt_on_rq (rt t)) ->
    wp (when b (set_task p f)) (fun _ s' => task_only p s s' /\ unmoved (tasks s p) (tasks s' p) /\
      rt_on_rq (rt (tasks s' p)) = rt_on_rq (rt (tasks s p))) s).
  { intros b f s0 Hf. destruct b; [|done]. wcall set_task_only. intros [] s1 [H1 ->]. split; [done|apply Hf]. }
  destruct (rt_prio pr).
  - wstep. eapply wp_mono; [by apply Hset|]. intros [] s1 (H1 & P1 & R1). wstep. wcall set_task_only.
    intros [] s2 [H2 E2]. wstep. rewrite E2. destruct (moving_head (old <? pr)). split_and!; try done; [by etrans|by etrans].
  - wstep. eapply wp_mono; [by apply Hset|]. intros [] s1 (H1 & P1 & R1). wstep.
    eapply wp_mono; [by apply Hset|]. intros [] s2 (H2 & P2 & R2). wstep. wcall set_task_only.
    intros [] s3 [H3 E3]. wstep. rewrite E3. split_and!; try done; [by do 2 (etrans; [eassumption|])|by etrans; [|etrans]|simpl; congruence].
Qed.

(** The change of class and priority, of a task off its queue. *)
Lemma boost_out {A} p pi_task pr old s0 s (k : Z -> K A) Q :
  changeable p s0 -> off false p s0 s -> 0 <= pr < MAX_PRIO ->
  (forall fl s1, move_entity fl = true -> has fl ENQUEUE_NOCLOCK = true -> off false p s0 s1 -> wp (k fl) Q s1) ->
  wp (let! fl := boost_class p pi_task pr old moving in
      do! set_task p (fun t => t <| prio := pr |>) in k fl) Q s.
Proof.
  intros Hca Ho Hpr Hk. wstep. eapply wp_mono; [apply boost_class_run; lia|].
  intros fl s1 (F1 & F2 & H1 & P1 & R1 & C1). wstep. wcall set_task_only. intros [] s2 [H2 E2].
  apply Hk; [done..|]. assert (Hto : task_only p s s2) by by etrans.
  destruct P1 as [P1 M1]. apply (change_off false p s0 s); try done.
  - split.
    + unfold class_fits. rewrite E2. simpl. rewrite C1. unfold rt_prio, MAX_RT_PRIO.
      destruct (Z.ltb_spec pr 100); [|done]. split; [lia|apply Hca].
    + unfold movable, mine. rewrite E2. simpl. rewrite C1. destruct (rt_prio pr); auto.
  - by rewrite E2.
  - rewrite E2. etrans; [exact P1|by split].
  - apply (allowed_same s); [|by rewrite E2|by rewrite (to_rest _ _ _ Hto)..|apply Ho].
    rewrite E2. apply (pl_flags _ _ P1).
Qed.

(** A change of [p] that the classes do not look at. *)
Lemma set_order p f s :
  in_order s -> (forall t, sched_class (f t) = sched_class t /\ quiet_task t (f t) /\ same_task t (f t)) ->
  wp (set_task p f) (fun _ s' => in_order s' /\ calm s s' /\ tasks s' p = f (tasks s p)) s.
Proof.
  intros Ho Hf. eapply wp_intro; [reflexivity|].
  assert (Hc : calm s (s <| tasks ::= alter f p |>)).
  { split; [eapply (set_task_quiet p f); [|reflexivity]|eapply (set_task_keep p f); [|reflexivity]]; intros t; by destruct (Hf t) as (? & ? & ?). }
  split; [by eapply order_calm|]. split; [done|]. simpl. by rewrite fn_lookup_alter.
Qed.

Lemma setprio_in_order p pi_task s :
  in_order s -> changeable p s -> 0 <= normal_prio (tasks s p) < MAX_PRIO -> 0 <= prio (tasks s p) ->
  (forall q, pi_task = Some q -> 0 <= prio (tasks s q)) ->
  wp (rt_mutex_setprio p pi_task) (fun _ => in_order) s.
Proof.
  intros Ho Hca Hn Hold Hq. unfold rt_mutex_setprio. do 2 wstep. cbv zeta.
  set (pr := __rt_effective_prio s pi_task (normal_prio (tasks s p))). set (c := task_cpu (tasks s p)).
  assert (Hpr : 0 <= pr < MAX_PRIO).
  { unfold pr, __rt_effective_prio. destruct pi_task as [q|]; [|done]. specialize (Hq q eq_refl). lia. }
  assert (Hd : dl_prio pr = false) by (apply Z.ltb_ge; unfold MAX_DL_PRIO; lia). rewrite Hd. cbn [negb].
  rewrite andb_true_r.
  assert (Hbal : forall s', in_order s' -> wp (balance_callback_call c) (fun _ => in_order) s').
  { intros s' Ho'. eapply wp_mono; [apply (balance_callback_goes (fun _ => False) c s' s'), goes_refl, Ho'|]. by intros [] s2 [? _]. }
  wstep; [done|]. clear H. wstep. eapply wp_mono; [apply update_clock_tasks|]. intros [] s1 [H1 Ht1].
  assert (Ho1 : in_order s1) by by eapply order_calm. wstep.
  eapply wp_mono; [by apply set_order; [|intros t; by split_and!]|]. intros [] s2 (Ho2 & H2 & Ht2). rewrite Ht1 in Ht2.
  assert (Hca2 : changeable p s2).
  { apply (changeable_calm p s); [by etrans|..|done]; rewrite Ht2; by split. }
  do 2 wstep. wstep; [by apply Hbal|]. apply Z.eqb_neq in H. wstep; [by apply Hbal|]. clear H0.
  assert (Ep : prio (tasks s2 p) = prio (tasks s p)) by by rewrite Ht2.
  rewrite Ep, (proj2 (Z.eqb_neq _ _) (not_eq_sym H)). fold moving.
  change (task_on_rq_queued (tasks s2 p)) with (runnable s2 p).
  assert (Hc2 : task_cpu (tasks s2 p) = c) by by rewrite Ht2.
  assert (Hr : task_current (rqs s2 c) p = true -> runnable s2 p = true) by by apply running_runnable.
  apply wp_reassoc. wstep. eapply wp_mono; [apply (take_off c p _ moving s2 s2); [by apply in_order_out|done|done|exact Hr]|].
  rewrite lies_moving, andb_false_r by done. intros [] s3 [H3 _]. apply (boost_out p pi_task pr _ s2); [done|apply H3|done|]. intros fl s4 F1 F2 H4.
  apply wp_reassoc. wstep. eapply wp_mono; [apply (put_back false); [exact H4| | | |exact Hr]|].
  - done.
  - intros E%bool_decide_eq_true. by rewrite (kb_curr _ _ _ (ou_but _ _ _ _ H4)).
  - intros _. apply enqueue_out; [exact H4| |done..]. by rewrite (pl_cpu _ _ (ou_place _ _ _ _ H4)).
  - intros [] s5 [H5 _]. assert (Ho5 : in_order s5) by by eapply out_in_order. wstep.
    eapply wp_mono; [apply calmly_in_order; [done|apply class_changed_calm; [|apply H5]]|].
    { destruct (ca_class _ _ Hca2) as [[?|?]|?]; auto. }
    intros [] s6 [Ho6 _]. by apply Hbal.
Qed.

(** ** Nice values *)

(** The change itself, of a task off its queue. *)
Lemma nice_off {A} k p nice s0 s (m : task_struct -> Z -> K A) Q :
  changeable p s0 -> off k p s0 s -> MIN_NICE <= nice <= MAX_NICE ->
  task_has_dl_policy (tasks s p) = false -> task_has_rt_policy (tasks s p) = false ->
  (forall t v s1, off k p s0 s1 -> sched_class (tasks s1 p) = sched_class (tasks s p) -> wp (m t v) Q s1) ->
  wp (do! set_task p (fun t => t <| static_prio := NICE_TO_PRIO nice |>) in
      do! set_load_weight p true in
      let! t := get_task p in
      let! new_prio := effective_prio p in
      do! set_task p (fun t => t <| prio := new_prio |>) in m t new_prio) Q s.
Proof.
  intros Hca Ho Hnice Hd Hr Hm. wstep. wcall set_task_only. intros [] s1 [H1 E1]. wstep.
  wcall set_load_weight_run; [apply cl_reweight|rewrite E1; unfold NICE_TO_PRIO, MAX_RT_PRIO, MAX_PRIO, DEFAULT_PRIO, MIN_NICE, MAX_NICE in *; simpl; lia|].
  intros [] s2 [H2 [e E2]]. unfold effective_prio, get_task. do 4 wstep. wcall set_task_only. intros [] s3 [H3 E3]. do 2 wstep.
  assert (Enp : normal_prio_of (tasks s2 p) = NICE_TO_PRIO nice).
  { rewrite E2, E1. unfold normal_prio_of, task_has_dl_policy, task_has_rt_policy in *. simpl. by rewrite Hd, Hr. }
  rewrite Enp in E3. set (v := if negb (rt_prio (prio (tasks s3 p))) then normal_prio (tasks s3 p) else prio (tasks s3 p)).
  apply (wp_mono _ (fun w s' => w = v /\ s' = s3)).
  { unfold v. by destruct (negb _). }
  intros w ? [-> ->]. wstep. wcall set_task_only. intros [] s4 [H4 E4].
  assert (Et : tasks s4 p = tasks s p <| static_prio := NICE_TO_PRIO nice |> <| se := e |>
      <| normal_prio := NICE_TO_PRIO nice |> <| prio := v |>).
  { by rewrite E4, E3, E2, E1. }
  assert (Hp3 : prio (tasks s3 p) = prio (tasks s p)) by by rewrite E3, E2, E1.
  assert (Hto : task_only p s s4) by by do 3 (etrans; [eassumption|]).
  assert (Hv : sched_class (tasks s p) = rt_sched_class -> 0 <= prio (tasks s p) < 100 -> v = prio (tasks s p)).
  { intros _ Hb. unfold v. rewrite Hp3. unfold rt_prio, MAX_RT_PRIO. by rewrite (proj2 (Z.ltb_lt _ _)) by lia. }
  apply Hm; [|by rewrite Et]. apply (change_off k p s0 s); try done.
  - destruct k.
    + destruct (lingers_task _ _ _ _ (off_lies _ _ _ Ho)) as (_ & Hc & _). rewrite Et. simpl. split; [|done].
      apply Hv; [done|]. by apply (rl_prio _ _ _ _ (proj1 (off_lies _ _ _ Ho))).
    + pose proof (ou_class _ _ _ _ Ho) as Hmov. split; [|unfold movable, mine in *; by rewrite Et].
      pose proof (minv_fits _ _ p (ou_inv _ _ _ _ Ho)) as Hfit. unfold class_fits in *. rewrite Et. simpl.
      destruct Hmov as [[Hc|Hc]|Hc]; rewrite Hc in *; [rewrite Hv; tauto| |done].
      assert (Ev : v = NICE_TO_PRIO nice).
      { unfold v. rewrite Hp3, E3. unfold rt_prio, MAX_RT_PRIO. by rewrite (proj2 (Z.ltb_ge _ _)) by lia. }
      rewrite Ev. unfold NICE_TO_PRIO, DEFAULT_PRIO, MIN_NICE, MAX_NICE in *. lia.
  - by rewrite Et.
  - rewrite Et. by split.
  - apply (allowed_same s); [by rewrite Et|by rewrite Et|by rewrite (to_rest _ _ _ Hto)..|apply Ho].
Qed.

Lemma resched_out b c i p s0 s : out b p s0 s -> wp (resched_curr i) (fun _ => onward b p s0 s) s.
Proof.
  intros Ho. eapply wp_mono; [apply wp_and|].
  - apply (wp_total calm); [apply resched_curr_total|apply resched_curr_calm].
  - apply (wp_total cores); [apply resched_curr_total|apply resched_curr_cores].
  - intros [] s' [Hc Hx]. eapply out_step; [exact Ho|by apply calm_to; [apply Ho|]|done|apply Hx].
Qed.

Lemma set_user_nice_in_order p nice s :
  in_order s -> changeable p s -> wp (set_user_nice p nice) (fun _ => in_order) s.
Proof.
  intros Ho Hca. unfold set_user_nice, get_task at 1. do 2 wstep. wstep; [done|].
  apply orb_false_iff in H as [[_ Hlo%Z.ltb_ge]%orb_false_iff Hhi%Z.ltb_ge].
  set (c := task_cpu (tasks s p)). wstep. eapply wp_mono; [apply update_clock_tasks|]. intros [] s1 [H1 Ht1].
  assert (Ho1 : in_order s1) by by eapply order_calm.
  assert (Hca1 : changeable p s1) by (by apply (changeable_calm p s); [|rewrite Ht1..|]). wstep.
  { eapply wp_intro; [reflexivity|]. apply (order_set (fun _ => False)); [done|by split|].
    intros x Hx. rewrite (alter_view on_cpu) by done. by apply Ho1. }
  apply orb_false_iff in H as [Hd Hr]. cbv zeta. unfold get_rq. do 2 wstep. rewrite <- Ht1 in *.
  change (task_on_rq_queued (tasks s1 p)) with (runnable s1 p).
  assert (Hrun : task_current (rqs s1 c) p = true -> runnable s1 p = true) by by apply running_runnable.
  apply wp_reassoc. wstep. eapply wp_mono; [apply (take_off c p _ staying s1 s1); [by apply in_order_out|by unfold c; rewrite Ht1|done|exact Hrun]|].
  set (k := runnable s1 p && lies_on p staying s1).
  intros [] s2 [H2 _]. pose proof H2 as (Ho2 & Hc2 & Hcl2). pose proof (sc_task _ _ Hc2) as Hst.
  apply (nice_off k p nice s1); [done|done|lia| | |].
  { unfold task_has_dl_policy in *. by rewrite (st_policy _ _ Hst). }
  { unfold task_has_rt_policy in *. by rewrite (st_policy _ _ Hst). }
  intros t v s3 Ho3 Hcl3. eapply wp_mono; [apply (put_back k); [exact Ho3| | | |exact Hrun]|].
  - unfold k. by intros ->.
  - intros E%bool_decide_eq_true. by rewrite (kb_curr _ _ _ (ou_but _ _ _ _ Ho3)).
  - intros Hru. wstep. eapply wp_mono; [apply (enqueue_off k); [exact Ho3| |done|]|].
    + rewrite (pl_cpu _ _ (ou_place _ _ _ _ Ho3)). by unfold c; rewrite Ht1.
    + unfold k. rewrite Hru. symmetry. apply lies_same. by rewrite Hcl3.
    + intros [] s4 H4. unfold get_task. do 2 wstep. wstep; [|done].
      eapply wp_mono; [by apply (resched_out true c), H4|]. intros [] s5 H5. by eapply onto_trans.
  - intros [] s4 [H4 _]. by apply (out_in_order p s1).
Qed.
End Change.
