(* ===== verification/Affinity.v ===== *)
(** * The CPUs of a task, on a machine in order

    [__set_cpus_allowed_ptr] of a real-time or TS task: a queued task is taken
    off its queue and queued again, where a real-time task keeps its place, and
    moves to a CPU of its new mask if it waits on another; a task that runs on
    another is handed to the stop task of its CPU, which moves it. *)

From S2P Require Import Prelude Sched Ts RtBandwidth Rt RtProps SchedClass ClassProps.
From S2P Require Import Frames CoreInv SetSched SetProps Wake CoreProps Switch SwitchProps InOrder Moves InPlace Stages Requeue.

(** The task with its new CPUs. *)
Definition repin (mask : list cpu) (t : task_struct) : task_struct :=
  t <| cpus_allowed := mask |> <| nr_cpus_allowed := Z.of_nat (length mask) |>.

Section Affinity.
Context `{Hfeat : SchedFeat} `{Hlim : Rlimits} `{Hpri : Cpupri} `{Htop : Topology}.
Context `{Hoth : OtherClasses} {Hlaws : OtherLaws} `{Hcall : Caller} `{Hdl : Deadline} {Hch : ChangeLaws}.
Context `{Henv : CoreEnv} `{Hsw : SwitchEnv} {Hswl : SwitchLaws}.
Implicit Types (c i : cpu) (p x : task) (s : kstate) (mask : list cpu).

(** ** The mask *)

Lemma set_cpus_common_run p mask s :
  wp (set_cpus_allowed_common p mask) (fun _ s' => task_only p s s' /\ tasks s' p = repin mask (tasks s p)) s.
Proof.
  unfold set_cpus_allowed_common. wstep. wcall set_task_only. intros [] s1 [H1 E1].
  wcall set_task_only. intros [] s2 [H2 E2]. split; [by etrans|]. by rewrite E2, E1.
Qed.

(** Of the machine, the mask of [p] has changed. *)
Record repinned p mask s s' : Prop := {
  rn_but : keep_but p s s';
  rn_place : same_place (tasks s p) (tasks s' p);
  rn_class : sched_class (tasks s' p) = sched_class (tasks s p);
  rn_cpus : cpus_allowed (tasks s' p) = mask;
  rn_nr : nr_cpus_allowed (tasks s' p) = Z.of_nat (length mask)
}.

Lemma set_cpus_off k p mask s0 s :
  changeable p s0 -> off k p s0 s -> mine s p ->
  (exists i, is_cpu_allowed (s <| tasks ::= alter (repin mask) p |>) p i = true) ->
  wp (m_set_cpus_allowed (class_of (sched_class (tasks s p))) p mask) (fun _ s' => off k p s0 s' /\ tasks s' p = repin mask (tasks s p)) s.
Proof.
  intros Hca Ho Hm Hal.
  assert (E : m_set_cpus_allowed (class_of (sched_class (tasks s p))) p mask = set_cpus_allowed_common p mask)
    by (by destruct Hm as [-> | ->]).
  rewrite E. eapply wp_mono; [apply set_cpus_common_run|]. intros [] s' [Hto Et]. split; [|done].
  apply (change_off k p s0 s); try done.
  - destruct k; [by rewrite Et|]. split; [|unfold movable, mine in *; rewrite Et; tauto].
    pose proof (minv_fits _ _ p (ou_inv _ _ _ _ Ho)) as Hfit. unfold class_fits in *. by rewrite Et.
  - by rewrite Et.
  - rewrite Et. by split.
  - destruct Hal as [i Hi]. exists i. revert Hi. unfold is_cpu_allowed, is_per_cpu_kthread.
    rewrite Et, (to_rest _ _ _ Hto). simpl. by rewrite !fn_lookup_alter.
Qed.

(** [do_set_cpus_allowed], whether the task is queued, runs or sleeps. *)
Lemma do_set_cpus_run p mask s :
  in_order s -> mine s p -> changeable p s ->
  (exists i, is_cpu_allowed (s <| tasks ::= alter (repin mask) p |>) p i = true) ->
  wp (do_set_cpus_allowed p mask) (fun _ s' => in_order s' /\ repinned p mask s s') s.
Proof.
  intros Ho Hm Hca Hal. unfold do_set_cpus_allowed. do 2 wstep. cbv zeta. set (c := task_cpu (tasks s p)).
  change (task_on_rq_queued (tasks s p)) with (runnable s p).
  assert (Hr : task_current (rqs s c) p = true -> runnable s p = true) by by apply running_runnable.
  apply wp_reassoc. wstep. change (Z.lor DEQUEUE_SAVE DEQUEUE_NOCLOCK) with staying.
  eapply wp_mono; [apply (take_off c p _ staying s s); [by apply in_order_out|done|done|exact Hr]|].
  set (k := runnable s p && lies_on p staying s). intros [] s1 [H1 _]. pose proof H1 as (Ho1 & Hc1 & Hcl1).
  assert (Hm1 : mine s1 p) by (unfold mine in *; by rewrite Hcl1).
  apply wp_class. wstep. eapply wp_mono; [apply (set_cpus_off k p mask s); [done..|]|].
  { destruct Hal as [i Hi]. exists i. revert Hi. destruct Hc1 as [[]]. pose proof (ou_but _ _ _ _ Ho1) as Hk.
    unfold is_cpu_allowed, is_per_cpu_kthread. simpl. rewrite !fn_lookup_alter. simpl.
    by rewrite st_flags, (kb_online _ _ _ Hk), (kb_active _ _ _ Hk). }
  intros [] s2 [Ho2 E2]. eapply wp_mono; [apply (put_back k); [exact Ho2| | | |exact Hr]|].
  - unfold k. by intros ->.
  - intros E%bool_decide_eq_true. by rewrite (kb_curr _ _ _ (ou_but _ _ _ _ Ho2)).
  - intros Hru. change (Z.lor ENQUEUE_RESTORE ENQUEUE_NOCLOCK) with staying.
    apply (enqueue_off k); [exact Ho2|by rewrite (pl_cpu _ _ (ou_place _ _ _ _ Ho2))|done|].
    unfold k. rewrite Hru. symmetry. apply lies_same. by rewrite E2, <- Hcl1.
  - intros [] s3 (Ho3 & Hc3 & Hcl3). split; [by apply (out_in_order p s)|].
    destruct (core_mask _ _ Hc3) as [M1 M2]. split; [apply Ho3|apply Ho3|..].
    + by rewrite Hcl3, E2, <- Hcl1.
    + by rewrite M2, E2.
    + by rewrite M1, E2.
Qed.

(** ** [__set_cpus_allowed_ptr] *)

(** What is asked: for a task that is not being woken, and, if it runs, a mask
    with its CPU, since only its stop task moves a running task; and a kernel
    thread that no active CPU may run is bound to one CPU, which the code
    warns about otherwise. *)
Record pinnable p mask s : Prop := {
  pn_mine : mine s p;
  pn_id : 0 <= p < PID_MAX_LIMIT;
  pn_waking : state (tasks s p) <> TASK_WAKING;
  pn_running : (exists c, curr (rqs s c) = p) -> task_cpu (tasks s p) ∈ mask;
  pn_kthread : has (flags (tasks s p)) PF_KTHREAD = true ->
    (forall i, i ∈ mask -> i ∉ active_cpus s) -> length mask = 1%nat
}.

(** What [__set_cpus_allowed_ptr] itself needs: a task that a CPU outside the mask
    runs is marked so. *)
Record bindable p mask s : Prop := {
  bn_mine : mine s p;
  bn_id : 0 <= p < PID_MAX_LIMIT;
  bn_running : (exists c, curr (rqs s c) = p) -> task_cpu (tasks s p) ∈ mask \/ on_cpu (tasks s p) <> 0;
  bn_kthread : has (flags (tasks s p)) PF_KTHREAD = true ->
    (forall i, i ∈ mask -> i ∉ active_cpus s) -> length mask = 1%nat
}.

Lemma pinnable_bindable p mask s : pinnable p mask s -> bindable p mask s.
Proof. intros [A1 A2 _ A4 A5]. split; auto. Qed.

(** The CPUs that [p] can be moved to. *)
Definition valid_cpus p mask s : list cpu :=
  cpumask_and (if has (flags (tasks s p)) PF_KTHREAD then online_cpus s else active_cpus s) mask.

(** When the call is refused. *)
Definition pin_refused p mask (check : bool) s : bool :=
  check && has (flags (tasks s p)) PF_NO_SETAFFINITY ||
  negb (bool_decide (cpus_allowed (tasks s p) = mask)) && (nr_cpu_ids <=? cpumask_any (valid_cpus p mask s)).

(** When the stop task of the CPU is asked for help: a task that is running or
    being woken is not on a CPU of the new mask. *)
Definition helped p mask (check : bool) s : bool :=
  negb (pin_refused p mask check s) && negb (bool_decide (cpus_allowed (tasks s p) = mask)) &&
  negb (bool_decide (task_cpu (tasks s p) ∈ mask)) && (negb (on_cpu (tasks s p) =? 0) || (state (tasks s p) =? TASK_WAKING)).

Lemma pinnable_unhelped p mask check s : in_order s -> pinnable p mask s -> helped p mask check s = false.
Proof.
  intros Ho [A1 A2 A3 A4 _]. apply not_true_is_false. unfold helped.
  intros H. apply andb_true_iff in H as [Hn H]. apply andb_true_iff in Hn as [_ Hn].
  apply negb_true_iff, bool_decide_eq_false in Hn. apply orb_true_iff in H as [H|H].
  - apply negb_true_iff, Z.eqb_neq in H. destruct (od_on_cpu _ _ Ho p A1 H) as [[]|Hc]. by apply Hn, A4.
  - by apply Z.eqb_eq in H.
Qed.

Lemma valid_dest p mask s :
  (nr_cpu_ids <=? cpumask_any (valid_cpus p mask s)) = false ->
  cpumask_any (valid_cpus p mask s) ∈ valid_cpus p mask s.
Proof. destruct (valid_cpus p mask s) as [|c l]; [done|]. intros _. by left. Qed.

(** A valid CPU is one that the new mask allows. *)
Lemma valid_allowed p mask s i :
  in_order s -> bindable p mask s -> i ∈ valid_cpus p mask s ->
  exists j, is_cpu_allowed (s <| tasks ::= alter (repin mask) p |>) p j = true.
Proof.
  intros Ho Hp [Hi Hv]%list_elem_of_filter. pose proof (ar_active _ (od_rest _ _ Ho)) as Hact.
  assert (Hok : forall j, j ∈ mask -> (is_per_cpu_kthread (repin mask (tasks s p)) = true -> j ∈ online_cpus s) ->
    (is_per_cpu_kthread (repin mask (tasks s p)) = false -> j ∈ active_cpus s) ->
    is_cpu_allowed (s <| tasks ::= alter (repin mask) p |>) p j = true).
  { intros j Hj H1 H2. unfold is_cpu_allowed. simpl. rewrite !fn_lookup_alter. apply andb_true_iff.
    split; [by apply bool_decide_eq_true|]. apply bool_decide_eq_true. destruct (is_per_cpu_kthread _); auto. }
  destruct (has (flags (tasks s p)) PF_KTHREAD) eqn:Ek.
  - destruct (decide (Exists (fun j => j ∈ active_cpus s) mask)) as [(j & Hj & Ha)%Exists_exists|Hn].
    + exists j. apply Hok; auto.
    + exists i. apply Hok; [done..|]. intros E. exfalso. assert (El : length mask = 1%nat).
      { apply (bn_kthread _ _ _ Hp Ek). intros j Hj Ha. apply Hn, Exists_exists. by exists j. }
      unfold is_per_cpu_kthread, repin in E. simpl in E. by rewrite Ek, El in E.
  - exists i. apply Hok; [done| |done]. unfold is_per_cpu_kthread, repin. simpl. by rewrite Ek.
Qed.

(** What a call leaves, with result [r]. *)
Record pinned p mask s (r : Z) s' : Prop := {
  pi_order : in_order s';
  pi_class : forall x, sched_class (tasks s' x) = sched_class (tasks s x);
  pi_on_rq : forall x, mine s x -> on_rq (tasks s' x) = on_rq (tasks s x);
  pi_cpus : forall x, mine s x ->
    cpus_allowed (tasks s' x) = if decide (x = p) then if r =? 0 then mask else cpus_allowed (tasks s p)
                                else cpus_allowed (tasks s x);
  pi_where : r = 0 -> cpus_allowed (tasks s p) <> mask -> runnable s p = true -> task_cpu (tasks s' p) ∈ mask;
  pi_curr : forall c, curr (rqs s' c) = curr (rqs s c)
}.

Lemma pinned_calm p mask s s' r :
  in_order s -> mine s p -> calm s s' -> (r = 0 -> cpus_allowed (tasks s p) = mask) -> pinned p mask s r s'.
Proof.
  intros Ho Hm Hc Hr. pose proof (proj2 Hc) as Hk. split.
  - by eapply order_calm.
  - apply Hk.
  - intros x Hx. apply (kp_task _ _ Hk x Hx).
  - intros x Hx. rewrite (st_cpus _ _ (kp_task _ _ Hk x Hx)). case_decide; [|done]. subst x.
    by destruct (Z.eqb_spec r 0) as [E|]; [apply Hr|].
  - intros E Hne. by rewrite Hr in Hne.
  - apply Hk.
Qed.

Lemma pinned_moved p mask s s1 s2 :
  mine s p -> repinned p mask s s1 -> settles s1 s2 -> in_order s1 ->
  (runnable s p = true -> task_cpu (tasks s2 p) ∈ mask) -> pinned p mask s 0 s2.
Proof.
  intros Hm [Hk Hpl Hcl Hcp _] Hs Ho Hw. pose proof (proj1 (proj2 Hs)) as Hk2.
  assert (Hc : forall x, sched_class (tasks s1 x) = sched_class (tasks s x)).
  { intros x. destruct (decide (x = p)) as [->|Hx]; [done|by apply Hk]. }
  assert (Hm1 : forall x, mine s x -> mine s1 x) by (intros x; unfold mine; by rewrite Hc).
  split.
  - by eapply order_settles.
  - intros x. by rewrite (kp_class _ _ Hk2), Hc.
  - intros x Hx. rewrite (st_on_rq _ _ (kp_task _ _ Hk2 x (Hm1 x Hx))).
    destruct (decide (x = p)) as [->|Hne]; [apply Hpl|]. apply (kb_task _ _ _ Hk x Hne Hx).
  - intros x Hx. rewrite (st_cpus _ _ (kp_task _ _ Hk2 x (Hm1 x Hx))). cbn [Z.eqb].
    case_decide as E; [by subst|]. apply (kb_task _ _ _ Hk x E Hx).
  - auto.
  - intros c. rewrite (kp_curr _ _ Hk2). apply Hk.
Qed.

(** What is left to do with the new mask. *)
Definition leave_cpu c p mask (dest : cpu) : K Z :=
  let! t := get_task p in
  if cpumask_test_cpu (task_cpu t) mask then ret 0 else
  if task_running t || (state t =? TASK_WAKING) then
    let! _ := stop_one_cpu c (migration_cpu_stop p dest) in ret 0
  else
    do! when (task_on_rq_queued t) (let! _ := move_queued_task c p dest in ret tt) in
    ret 0.

Lemma set_cpus_calm p mask check s :
  in_order s -> mine s p -> pin_refused p mask check s = true \/ cpus_allowed (tasks s p) = mask ->
  wp (__set_cpus_allowed_ptr p mask check) (fun r s' => r = (if pin_refused p mask check s then - EINVAL else 0) /\
    pinned p mask s r s') s.
Proof.
  intros Ho Hm Hor. unfold __set_cpus_allowed_ptr, get_task. do 2 wstep. wstep. eapply wp_mono; [apply update_clock_tasks|].
  intros [] s1 [H1 Ht1]. do 2 wstep. cbv zeta. rewrite !Ht1.
  rewrite (kp_online _ _ (proj2 H1)), (kp_active _ _ (proj2 H1)). fold (valid_cpus p mask s). revert Hor.
  unfold pin_refused. intros Hor. wstep; [split; [by rewrite H|by apply pinned_calm]|]. rewrite H in *.
  case_bool_decide as E; cbn [orb negb andb]; [split; [done|by apply pinned_calm]|].
  destruct Hor as [Hor|Hor]; [|done]. cbn [orb negb andb] in Hor. rewrite Hor. split; [done|by apply pinned_calm].
Qed.

Lemma set_cpus_repins p mask check s :
  in_order s -> bindable p mask s -> pin_refused p mask check s = false -> cpus_allowed (tasks s p) <> mask ->
  let dest := cpumask_any (valid_cpus p mask s) in
  dest ∈ valid_cpus p mask s /\
  exists s1, in_order s1 /\ repinned p mask s s1 /\
    __set_cpus_allowed_ptr p mask check s = leave_cpu (task_cpu (tasks s p)) p mask dest s1.
Proof.
  intros Ho Hp Href Hne dest. pose proof (bn_mine _ _ _ Hp) as Hm.
  pose proof (mine_changeable p s Ho Hm (bn_id _ _ _ Hp)) as Hca. unfold pin_refused in Href. fold dest in Href.
  apply orb_false_iff in Href as [Hc Hd]. rewrite bool_decide_false in Hd by done. cbn [negb andb] in Hd.
  pose proof (valid_dest _ _ _ Hd) as Hv. split; [done|]. unfold __set_cpus_allowed_ptr, get_task at 1. rewrite bind_gets.
  pose proof (update_clock_tasks (task_cpu (tasks s p)) s) as W. apply wp_done in W as ([] & s1 & He1 & H1 & Ht1).
  rewrite (bind_done _ _ _ _ _ He1), bind_gets. cbv zeta. rewrite !Ht1.
  rewrite (kp_online _ _ (proj2 H1)), (kp_active _ _ (proj2 H1)). fold (valid_cpus p mask s). fold dest.
  rewrite Hc, bool_decide_false, Hd by done. assert (Ho1 : in_order s1) by by eapply order_calm.
  assert (Hp1 : bindable p mask s1).
  { destruct Hp as [A1 A2 A3 A4]. split; [by apply (keep_mine _ _ _ (proj2 H1))|done| |].
    - rewrite Ht1. intros [c E]. apply A3. exists c. by rewrite <- (kp_curr _ _ (proj2 H1)).
    - rewrite Ht1, (kp_active _ _ (proj2 H1)). done. }
  assert (Hca1 : changeable p s1) by (by apply (changeable_calm p s); [|rewrite Ht1..|]).
  assert (Hv1 : dest ∈ valid_cpus p mask s1).
  { unfold valid_cpus. by rewrite Ht1, (kp_online _ _ (proj2 H1)), (kp_active _ _ (proj2 H1)). }
  pose proof (do_set_cpus_run p mask s1 Ho1 (bn_mine _ _ _ Hp1) Hca1 (valid_allowed _ _ _ _ Ho1 Hp1 Hv1)) as W.
  apply wp_done in W as ([] & s2 & He2 & Ho2 & [R1 R2 R3 R4 R5]). rewrite (bind_done _ _ _ _ _ He2).
  exists s2. split; [done|]. split; [|done]. rewrite Ht1 in *. split; [|done..].
  etrans; [apply keep_keep_but, H1|exact R1].
Qed.

(** A task that neither runs nor is being woken is moved at once. *)
Lemma leave_cpu_run p mask dest s s2 :
  in_order s -> mine s p -> changeable p s -> in_order s2 -> repinned p mask s s2 -> dest ∈ mask ->
  ((exists c, curr (rqs s c) = p) -> task_cpu (tasks s p) ∈ mask \/ on_cpu (tasks s p) <> 0) ->
  task_cpu (tasks s p) ∈ mask \/ on_cpu (tasks s p) = 0 /\ state (tasks s p) <> TASK_WAKING ->
  wp (leave_cpu (task_cpu (tasks s p)) p mask dest) (fun r s' => r = 0 /\ pinned p mask s r s') s2.
Proof.
  intros Ho Hm Hca Ho2 Hr H Hcur Hor. pose proof Hr as [R1 R2 R3 R4 R5]. unfold leave_cpu, get_task. do 2 wstep.
  assert (Hm2 : mine s2 p) by (unfold mine in *; by rewrite R3).
  rewrite (pl_cpu _ _ R2). wstep.
  { apply bool_decide_eq_true in H0. split; [done|]. apply (pinned_moved _ _ _ s2); try done.
    - split_and!; [apply Ho2|done|done].
    - intros _. by rewrite (pl_cpu _ _ R2). }
  apply bool_decide_eq_false in H0. destruct Hor as [?|[Hoff Hw]]; [done|].
  assert (Hnc : forall c, curr (rqs s c) <> p) by (intros c Hc; by destruct (Hcur ltac:(by exists c))).
  unfold task_running. rewrite (pl_on_cpu _ _ R2), (pl_state _ _ R2), Hoff. cbn [Z.eqb negb orb].
  rewrite (proj2 (Z.eqb_neq _ _) Hw).
  assert (Hq : task_on_rq_queued (tasks s2 p) = runnable s p).
  { unfold runnable, task_on_rq_queued. by rewrite (pl_on_rq _ _ R2). }
  rewrite Hq. wstep. destruct (runnable s p) eqn:Er; cbn [when].
  - wstep. eapply wp_mono; [apply (move_queued_task_run _ dest p s2)|].
    + apply Ho2.
    + exact Hq.
    + done.
    + apply R2.
    + intros c. rewrite (kb_curr _ _ _ R1). apply Hnc.
    + intros r s3 [[Hrel _] _]. do 2 wstep. split; [done|]. apply (pinned_moved _ _ _ s2); try done; [apply Hrel|].
      intros _. by rewrite (rl_cpu _ _ _ _ Hrel).
  - wstep. wstep. split; [done|]. apply (pinned_moved _ _ _ s2); try done; [split_and!; [apply Ho2|done|done]|].
    by rewrite Er.
Qed.

Lemma set_cpus_allowed_run p mask check s :
  in_order s -> bindable p mask s -> helped p mask check s = false ->
  wp (__set_cpus_allowed_ptr p mask check) (fun r s' => r = (if pin_refused p mask check s then - EINVAL else 0) /\
    pinned p mask s r s') s.
Proof.
  intros Ho Hp Hh. pose proof (bn_mine _ _ _ Hp) as Hm. unfold helped in Hh.
  destruct (pin_refused p mask check s) eqn:Hr.
  { pose proof (set_cpus_calm p mask check s Ho Hm) as W. rewrite Hr in W. apply W. by left. }
  destruct (decide (cpus_allowed (tasks s p) = mask)) as [E|Hne].
  { pose proof (set_cpus_calm p mask check s Ho Hm) as W. rewrite Hr in W. apply W. by right. }
  destruct (set_cpus_repins p mask check s Ho Hp Hr Hne) as (Hv & s1 & Ho1 & Hrn & E).
  unfold wp. rewrite E. apply leave_cpu_run; try done.
  - by apply mine_changeable; [..|apply Hp].
  - by apply list_elem_of_filter in Hv as [? _].
  - apply Hp.
  - rewrite bool_decide_false in Hh by done. cbn [negb andb] in Hh. case_bool_decide; [by left|right].
    cbn [negb andb] in Hh. apply orb_false_iff in Hh as [H1%negb_false_iff%Z.eqb_eq H2%Z.eqb_neq]. done.
Qed.

(** What the stop task does on the CPU of [p], once it runs there: [p] does not
    run then, and no wake-up is pending. *)
Definition stop_moves p (dest : cpu) : Prop := forall s,
  settled s -> mine s p -> (forall c, curr (rqs s c) <> p) -> runnable s p = true ->
  task_cpu (tasks s p) = this_cpu s -> wake_list (rqs s (this_cpu s)) = [] -> is_cpu_allowed s p dest = true ->
  exists s', migration_cpu_stop p dest s = Done (0, s') /\ settled s' /\
    (forall c, on_queue s' p c <-> c = dest) /\
    forall x, mine s x -> x <> p -> on_rq (tasks s' x) = on_rq (tasks s x) /\ task_cpu (tasks s' x) = task_cpu (tasks s x).

Lemma migration_stop_moves p dest : stop_moves p dest.
Proof.
  intros s Hs Hm Hnc Hr Hc Hl Hal. enough (H : wp (migration_cpu_stop p dest) (fun r s' => r = 0 /\ relocates p dest s s') s).
  { apply wp_done in H as (r & s' & He & -> & [H1 H2 H3]). exists s'. destruct H1 as (Hs' & Hk & _).
    assert (Hst : stands TASK_ON_RQ_QUEUED p s').
    { split; [done|]. split; [by apply (keep_mine s)|]. rewrite (st_on_rq _ _ (kp_task _ _ Hk p Hm)). by apply Z.eqb_eq in Hr. }
    split_and!; [done..|intros c; by rewrite (stands_queued p s' c Hst), H2|].
    intros x Hx Hne. split; [apply (kp_task _ _ Hk x Hx)|by apply H3]. }
  unfold migration_cpu_stop, sched_ttwu_pending, get_rq, get_task, __migrate_task. do 6 wstep. eapply wp_intro; [reflexivity|]. rewrite Hl.
  set (s1 := s <| rqs ::= alter _ (this_cpu s) |>). wstep. do 4 wstep.
  assert (K1 : calm s s1)
    by (eapply (frames_calm (set_rq (this_cpu s) (fun r => r <| wake_list := [] |>))); [frames_tac|frames_tac|reflexivity]).
  change (tasks s1 p) with (tasks s p). change (this_cpu s1) with (this_cpu s). rewrite Hc, Z.eqb_refl. cbn [when].
  change (task_on_rq_queued (tasks s p)) with (runnable s p). rewrite Hr. do 4 wstep.
  change (is_cpu_allowed s1 p dest) with (is_cpu_allowed s p dest). rewrite Hal. cbn [negb]. wstep.
  eapply wp_mono; [apply update_clock_tasks|]. intros [] s2 [K2 T2].
  assert (Hst : step_to (runnable s) s s2).
  { eapply step_to_trans; [by apply (calm_to (runnable s))|]. apply calm_to; [|done]. by apply (calm_to (runnable s)) in K1 as []. }
  pose proof (step_settles _ _ Hst) as H2. eapply wp_mono; [apply (move_queued_task_run _ dest p s2)|].
  - apply H2.
  - unfold runnable. by rewrite T2.
  - apply (keep_mine s); [apply H2|done].
  - by rewrite T2.
  - intros c. rewrite (kp_curr _ _ (proj1 (proj2 H2))). apply Hnc.
  - intros r s3 [[[R1 R2 R3] _] _]. do 2 wstep. split; [done|]. split; [by etrans|done|].
    intros x Hx. by rewrite R3, T2.
Qed.

Lemma set_cpus_hands_over p mask check s :
  in_order s -> bindable p mask s -> helped p mask check s = true ->
  exists dest s1, dest ∈ valid_cpus p mask s /\ stop_moves p dest /\
    in_order s1 /\ repinned p mask s s1 /\ (forall c, on_queue s1 p c <-> on_queue s p c) /\
    __set_cpus_allowed_ptr p mask check s =
      (let! _ := stop_one_cpu (task_cpu (tasks s p)) (migration_cpu_stop p dest) in ret 0) s1.
Proof.
  intros Ho Hp Hh. pose proof (bn_mine _ _ _ Hp) as Hm. unfold helped in Hh.
  apply andb_true_iff in Hh as [Hh Hor]. apply andb_true_iff in Hh as [Hh Hout%negb_true_iff].
  apply andb_true_iff in Hh as [Hr%negb_true_iff Hne%negb_true_iff%bool_decide_eq_false].
  destruct (set_cpus_repins p mask check s Ho Hp Hr Hne) as (Hv & s1 & Ho1 & Hrn & E).
  exists (cpumask_any (valid_cpus p mask s)), s1. pose proof Hrn as [R1 R2 R3 R4 R5].
  assert (Hm1 : mine s1 p) by (unfold mine in *; by rewrite R3).
  split_and!; [done|apply migration_stop_moves|done..| |].
  - intros c. rewrite (in_order_queue s1 p c Ho1 Hm1), (in_order_queue s p c Ho Hm).
    unfold runnable, task_on_rq_queued. by rewrite (pl_on_rq _ _ R2), (pl_cpu _ _ R2).
  - rewrite E. unfold leave_cpu, get_task. rewrite bind_gets, (pl_cpu _ _ R2). unfold cpumask_test_cpu.
    rewrite Hout. unfold task_running. by rewrite (pl_on_cpu _ _ R2), (pl_state _ _ R2), Hor.
Qed.

Lemma pinned_spec p mask s r s' :
  in_order s -> mine s p -> pinned p mask s r s' ->
  in_order s' /\ cpus_allowed (tasks s' p) = (if r =? 0 then mask else cpus_allowed (tasks s p)) /\
  (forall c, on_queue s' p c -> r = 0 -> cpus_allowed (tasks s p) <> mask -> c ∈ mask) /\
  (forall x, mine s x -> (exists c, on_queue s' x c) <-> exists c, on_queue s x c) /\
  (forall x, mine s x -> x <> p -> cpus_allowed (tasks s' x) = cpus_allowed (tasks s x)) /\
  forall c, curr (rqs s' c) = curr (rqs s c).
Proof.
  intros Ho Hm [P1 P2 P3 P4 P5 P6]. assert (Hm' : forall x, mine s x -> mine s' x) by (intros x; unfold mine; by rewrite P2).
  assert (Hrun : forall x, mine s x -> runnable s' x = runnable s x)
    by (intros x Hx; unfold runnable, task_on_rq_queued; by rewrite P3).
  split_and!; try done.
  - rewrite P4 by done. by rewrite decide_True.
  - intros c Hc Er Hne. apply (in_order_queue s' p c P1 (Hm' p Hm)) in Hc as [Hc <-].
    apply P5; [done..|]. by rewrite <- Hrun.
  - intros x Hx. pose proof (in_order_queue s' x) as Q'. pose proof (in_order_queue s x) as Q.
    rewrite Hrun in Q' by done. split; intros [c Hc].
    + apply Q' in Hc as [Hc _]; [|done|auto]. exists (task_cpu (tasks s x)). by apply Q.
    + apply Q in Hc as [Hc _]; [|done..]. exists (task_cpu (tasks s' x)). apply Q'; auto.
  - intros x Hx Hne. rewrite P4 by done. by rewrite decide_False.
Qed.

(** C6: [__set_cpus_allowed_ptr] on a machine in order, for a real-time or TS
    task.  The call is refused with [-EINVAL] exactly if the task may not be
    bound or no CPU of the mask will do, and then the task keeps its mask;
    otherwise it has the new one.  A task that is running or being woken on a CPU
    outside the new mask stays there, on a machine in order, and the call hands
    it to the stop task of its CPU, with a valid CPU of the mask, to which that
    moves it when it gets to run there.  In every other case the call returns,
    the machine is in order, and a queued task whose mask differed is on a CPU of
    it; no other task changes its mask or whether it is queued, and every CPU runs
    what it ran. *)
Theorem set_cpus_allowed_spec p mask check s :
  in_order s -> bindable p mask s ->
  if helped p mask check s then
    exists dest s1, dest ∈ valid_cpus p mask s /\ stop_moves p dest /\
      in_order s1 /\ repinned p mask s s1 /\ (forall c, on_queue s1 p c <-> on_queue s p c) /\
      __set_cpus_allowed_ptr p mask check s =
        (let! _ := stop_one_cpu (task_cpu (tasks s p)) (migration_cpu_stop p dest) in ret 0) s1
  else
    exists r s', __set_cpus_allowed_ptr p mask check s = Done (r, s') /\ in_order s' /\
      r = (if pin_refused p mask check s then - EINVAL else 0) /\
      cpus_allowed (tasks s' p) = (if r =? 0 then mask else cpus_allowed (tasks s p)) /\
      (forall c, on_queue s' p c -> r = 0 -> cpus_allowed (tasks s p) <> mask -> c ∈ mask) /\
      (forall x, mine s x -> (exists c, on_queue s' x c) <-> exists c, on_queue s x c) /\
      (forall x, mine s x -> x <> p -> cpus_allowed (tasks s' x) = cpus_allowed (tasks s x)) /\
      forall c, curr (rqs s' c) = curr (rqs s c).
Proof.
  intros Ho Hp. pose proof (bn_mine _ _ _ Hp) as Hm. destruct (helped p mask check s) eqn:Hh.
  - by apply set_cpus_hands_over.
  - pose proof (set_cpus_allowed_run p mask check s Ho Hp Hh) as H.
    apply wp_done in H as (r & s' & He & Hr & Hpi). exists r, s'. split; [done|].
    destruct (pinned_spec p mask s r s' Ho Hm Hpi) as (? & ? & ? & ? & ? & ?). by split_and!.
Qed.
End Affinity.
