(* ===== verification/Steps.v ===== *)
(** * The steps of the machine

    Switches, ticks, yields, wake-ups, new tasks, changes of policy, priority,
    nice value and CPUs, and state changes as the steps of one machine; what
    holds after every sequence of them, and that none of them gets stuck. *)

From S2P Require Import Prelude Sched Ts RtBandwidth Rt RtProps SchedClass ClassProps.
From S2P Require Import Frames CoreInv SetSched SetProps Wake CoreProps Switch SwitchProps InOrder Moves InPlace Stages Requeue Affinity.

(** ** The tick, and giving up the CPU *)

Section Steps.
Context `{Hfeat : SchedFeat} `{Hlim : Rlimits} `{Hpri : Cpupri} `{Htop : Topology}.
Context `{Hoth : OtherClasses} {Hlaws : OtherLaws} `{Henv : CoreEnv} `{Hsw : SwitchEnv} {Hswl : SwitchLaws}.
Context `{Hcall : Caller} `{Hdl : Deadline} {Hch : ChangeLaws}.
Implicit Types (c i : cpu) (p x : task) (s : kstate) (e : task -> Prop).

Lemma stays_step c s s' :
  settled s -> kept s s' -> stays (fun _ => False) c s s' -> settles s s'.
Proof.
  intros Hs Hk Hst. apply step_settles. split; [by eapply minv_local; [apply Hs|..]|apply Hk|]. intros [Hc Hr]. split.
  - apply (curr_kept_local (fun _ => False) c s); tauto.
  - apply (running_keep s); [apply Hk| |done]. intros x _ _. apply (sy_view _ _ _ _ Hst x).
Qed.

Lemma ts_op_settles c p s s' :
  minv (runnable s) s' /\ (curr_kept s -> curr_kept s') -> ts_op c p s s' -> settles s s'.
Proof.
  intros [H1 H2] (Hk & _ & Ht). apply step_settles, step_to_local; [done..|]. intros x. apply (tl_cpu _ _ _ Ht).
Qed.

(** The running task, by its class. *)
Lemma running_cases e c s : order e s -> let p := curr (rqs s c) in
  sched_class (tasks s p) = rt_sched_class /\ rt_task_queued c s p \/
  sched_class (tasks s p) = ts_sched_class /\ runnable s p = true /\ task_cpu (tasks s p) = c \/
  foreign (sched_class (tasks s p)).
Proof.
  intros Ho p. destruct (ordinary_cases s p (od_class _ _ Ho c)) as [Hm|Hf]; [|auto].
  pose proof (prev_queued _ c _ Ho Hm) as [H1 H2].
  destruct Hm as [Hc|Hc]; [left|by right; left]. split; [done|]. by apply (rp_link _ _ (proj1 (od_settled _ _ Ho))).
Qed.

Lemma task_tick_settles c s : in_order s -> let p := curr (rqs s c) in
  wp (m_task_tick (class_of (sched_class (tasks s p))) c p 0) (fun _ => settles s) s.
Proof.
  intros Ho. cbv zeta. destruct (running_cases _ c _ Ho) as [[Hc Hq]|[(Hc & H1 & H2)|Hf]].
  - rewrite Hc. cbn [class_of m_task_tick rt_class]. wcall_frames kept (task_tick_rt_stays (fun _ => False) c).
    + apply (proj1 (od_settled _ _ Ho)).
    + done.
    + intros [] s' [Hs Hk]. by apply (stays_step c); [apply Ho|..].
  - rewrite Hc. cbn [class_of m_task_tick ts_class].
    eapply wp_mono; [apply (wp_frames (ts_op c (curr (rqs s c)))); [apply task_tick_ts_op|by apply (tick_ts_minv (runnable s)); [apply Ho|..]]|].
    intros [] s' [Hs Hk]. by eapply ts_op_settles.
  - rewrite foreign_class_of by done. eapply wp_mono; [by apply (ol_tick _ c _ 0 Hf (runnable s)), Ho|].
    intros [] s' Hs. apply step_settles, calm_to; [apply Ho|done].
Qed.

Lemma yield_settles c s : in_order s -> let p := curr (rqs s c) in
  wp (m_yield_task (class_of (sched_class (tasks s p))) c) (fun _ => settles s) s.
Proof.
  intros Ho. cbv zeta. destruct (running_cases _ c _ Ho) as [[Hc Hq]|[(Hc & H1 & H2)|Hf]].
  - rewrite Hc. cbn [class_of m_yield_task rt_class]. wcall_frames kept (yield_rt_stays (fun _ => False) c).
    + apply (proj1 (od_settled _ _ Ho)).
    + done.
    + intros [] s' [Hs Hk]. by apply (stays_step c); [apply Ho|..].
  - rewrite Hc. cbn [class_of m_yield_task ts_class].
    eapply wp_mono; [apply (wp_frames (ts_op c (curr (rqs s c)))); [apply yield_task_ts_op|by apply (yield_ts_minv (runnable s)); [apply Ho|..]]|].
    intros [] s' [Hs Hk]. by eapply ts_op_settles.
  - rewrite foreign_class_of by done. eapply wp_mono; [by apply (ol_yield _ c Hf (runnable s)), Ho|].
    intros [] s' Hs. apply step_settles, calm_to; [apply Ho|done].
Qed.

Lemma scheduler_tick_run s : in_order s -> wp scheduler_tick (fun _ => goes (fun _ => False) s) s.
Proof.
  intros Ho. unfold scheduler_tick, get_rq. wgo. set (c := this_cpu s). set (p := curr (rqs s c)).
  eapply wp_mono; [apply (goes_calmly (fun _ => False) _ s s); [by apply goes_refl|]|].
  { apply calmly_total; [apply update_rq_clock_total|apply update_rq_clock_calm]. }
  intros [] s1 H1. apply wp_class. wstep.
  assert (E : p = curr (rqs s1 c)) by by rewrite (dr_curr _ _ (proj2 H1)).
  rewrite E. eapply wp_mono; [apply task_tick_settles, H1|]. intros [] s2 H2.
  apply (goes_settles _ _ _ _ H1) in H2. wstep.
  eapply wp_mono; [apply goes_calmly; [exact H2|apply quietly_calmly, sl_load]|]. intros [] s3 H3. wstep.
  eapply wp_mono; [apply goes_calmly; [exact H3|apply quietly_calmly, sl_global]|]. intros [] s4 H4. wstep.
  eapply wp_mono; [apply goes_calmly; [exact H4|]|].
  { apply calmly_total; [total_tac|apply frames_calm; frames_tac]. }
  intros [] s5 H5. apply goes_calmly; [exact H5|apply quietly_calmly, sl_balance].
Qed.

(** [schedule] is a loop: all its rounds. *)
Lemma schedule_in_order n fuel : forall s s',
  in_order s -> schedule n (S fuel) s = Done (tt, s') -> in_order s'.
Proof.
  induction n as [|n IH]; intros s s' Ho He; [done|]. cbn [schedule] in He.
  apply bind_inv in He as ([] & s1 & H1 & H2).
  destruct (wp_elim _ _ _ _ _ (schedule_run fuel false s Ho) H1) as [Ho1 _].
  rewrite bind_gets in H2. destruct (need_resched s1); [by apply (IH s1)|]. by injection H2 as <-.
Qed.

Lemma yield_in_order n fuel r s s' :
  in_order s -> sys_sched_yield n (S fuel) s = Done (r, s') -> in_order s'.
Proof.
  intros Ho (u & s1 & H1 & H2)%bind_inv. injection H2 as <- <-. destruct u.
  unfold do_sched_yield in H1. rewrite bind_gets in H1. set (c := this_cpu s) in *.
  apply bind_inv in H1 as (m & s2 & H1 & (u & s3 & H2 & H3)%bind_inv). destruct u.
  unfold task_class, get_task in H1. rewrite bind_gets in H1. injection H1 as <- <-.
  pose proof (wp_elim _ _ _ _ _ (yield_settles c s Ho) H2) as Hs.
  apply (schedule_in_order n fuel s3); [|done]. by eapply order_settles.
Qed.

(** ** Waking up *)

Lemma in_order_wakeable p s : in_order s -> mine s p -> wakeable p s.
Proof.
  intros Ho Hm. pose proof (od_rest _ _ Ho) as Ha. split; [done| |by apply Ha..].
  destruct (ar_on_rq _ Ha p Hm) as [H0|]; [left|by right]. split; [done|].
  destruct (Z.eq_dec (on_cpu (tasks s p)) 0) as [|Hn]; [done|].
  destruct (od_on_cpu _ _ Ho p Hm Hn) as [[]|[c <-]].
  pose proof (od_runs _ _ Ho c Hm) as Hr. unfold runnable, task_on_rq_queued in Hr. by rewrite H0 in Hr.
Qed.

Lemma wakes_rests p s s' : mine s p -> stands TASK_ON_RQ_QUEUED p s' -> wakes p s s' -> rests s s'.
Proof.
  intros Hm (_ & _ & Hon) [Hk [S1 S2 S3 S4 S5 S6] _ _ _].
  assert (Hcl : forall x, sched_class (tasks s' x) = sched_class (tasks s x)).
  { intros x. destruct (decide (x = p)) as [->|Hne]; [done|by apply (kb_class _ _ _ Hk)]. }
  split; try done; try apply Hk.
  - intros x Hx. destruct (decide (x = p)) as [->|Hne]; [by split_and!; auto|].
    destruct (kb_task _ _ _ Hk x Hne Hx). auto.
  - intros x Hx. apply (kb_stop_task _ _ _ Hk); [|done]. intros ->. by destruct Hm; congruence.
Qed.

(** A task that has been queued. *)
Lemma stage_in_order p s s' : in_order s -> mine s p -> stage TASK_ON_RQ_QUEUED p s s' -> in_order s'.
Proof.
  intros Ho Hm [Hs Hw]. pose proof (wakes_rests _ _ _ Hm Hs Hw) as Hr.
  assert (Hc : forall c, curr (rqs s' c) = curr (rqs s c)) by apply (wk_others _ _ _ Hw).
  split.
  - apply Hs.
  - apply (wk_curr _ _ _ Hw), Ho.
  - apply (wk_runs _ _ _ Hw), Ho.
  - intros c. rewrite Hc, (rs_class _ _ Hr). apply Ho.
  - intros x Hx%(rests_mine _ _ _ Hr) Hon. setoid_rewrite Hc. apply (od_on_cpu _ _ Ho); [done|].
    destruct (decide (x = p)) as [->|Hne]; [by rewrite (sl_on_cpu _ _ (wk_task _ _ _ Hw)) in Hon|].
    by rewrite (st_on_cpu _ _ (kb_task _ _ _ (wk_others _ _ _ Hw) x Hne Hx)) in Hon.
  - eapply rests_at_rest; [exact Hr|apply Ho].
Qed.

Lemma wake_in_order p st fl s :
  in_order s -> mine s p -> wakes_locally s -> wp (try_to_wake_up p st fl) (fun _ => in_order) s.
Proof.
  intros Ho Hm Hl. destruct (has (state (tasks s p)) st) eqn:Hst.
  - eapply wp_mono; [by apply try_to_wake_up_run; [apply Ho..|by apply in_order_wakeable|done|]|].
    intros r s' (_ & H & _). by eapply stage_in_order.
  - unfold try_to_wake_up. unfold get_task at 1. do 2 wstep. rewrite Hst. by wstep.
Qed.

(** A task that has just been forked is on no queue. *)
Lemma wake_new_in_order p s :
  in_order s -> mine s p -> on_rq (tasks s p) = 0 -> wp (wake_up_new_task p) (fun _ => in_order) s.
Proof.
  intros Ho Hm Hon. pose proof (od_rest _ _ Ho) as Ha.
  assert (Hs : stands 0 p s) by (split; [apply Ho|done]).
  eapply wp_mono; [by apply wake_new_run; [|apply Ho|intros j; apply sleeper_not_curr; [|apply Ho]|apply Ha..]|].
  intros [] s' [H _]. by eapply stage_in_order.
Qed.

(** ** All that can follow *)

(** Time passes, and CPU [c] takes its turn. *)
Definition pass (c : cpu) (clocks : cpu -> Z) (j : Z) (s : kstate) : kstate :=
  s <| this_cpu := c |> <| hw_clock := clocks |> <| jiffies := j |>.

(** [set_current_state]: the running task says what it is about to wait for. *)
Definition set_current_state (v : Z) : K unit :=
  let! s := gets (fun s => s) in
  set_task (curr (rqs s (this_cpu s))) (fun t => t <| state := v |>).

Inductive step : kstate -> kstate -> Prop :=
  | step_pass c clocks j s : step s (pass c clocks j s)
  | step_state v s s' : set_current_state v s = Done (tt, s') -> step s s'
  | step_wake p st fl r s s' :
      mine s p -> wakes_locally s -> try_to_wake_up p st fl s = Done (r, s') -> step s s'
  | step_schedule fuel preempt s s' : __schedule (S fuel) preempt s = Done (tt, s') -> step s s'
  | step_yield n fuel r s s' : sys_sched_yield n (S fuel) s = Done (r, s') -> step s s'
  | step_tick s s' : scheduler_tick s = Done (tt, s') -> step s s'
  | step_new p s s' :
      mine s p -> on_rq (tasks s p) = 0 -> wake_up_new_task p s = Done (tt, s') -> step s s'
  | step_setscheduler p attr user pi r s s' :
      changeable p s -> asked p attr pi s -> __sched_setscheduler p attr user pi s = Done (r, s') -> step s s'
  | step_inherit p pi_task s s' :
      changeable p s -> 0 <= normal_prio (tasks s p) < MAX_PRIO -> 0 <= prio (tasks s p) ->
      (forall q, pi_task = Some q -> 0 <= prio (tasks s q)) ->
      rt_mutex_setprio p pi_task s = Done (tt, s') -> step s s'
  | step_nice p nice s s' :
      changeable p s -> set_user_nice p nice s = Done (tt, s') -> step s s'
  | step_affinity p mask check r s s' :
      pinnable p mask s -> __set_cpus_allowed_ptr p mask check s = Done (r, s') -> step s s'.

Lemma pass_in_order c clocks j s : in_order s -> in_order (pass c clocks j s).
Proof.
  intros [H1 H2 H3 H4 H5 H6]. assert (Hq : quiet s (pass c clocks j s)) by (split; split; done).
  split; [by apply (quiet_settled s)|by apply (curr_ok_quiet s)|done..|].
  apply (rests_at_rest s); [|done]. split; try done. intros x _. auto.
Qed.

Lemma set_state_in_order v s s' : in_order s -> set_current_state v s = Done (tt, s') -> in_order s'.
Proof.
  intros Ho. unfold set_current_state. rewrite bind_gets. intros [= <-].
  apply (order_set (fun _ => False)); [done|by split|]. intros x Hx.
  rewrite (alter_view on_cpu) by done. by apply Ho.
Qed.

Lemma setscheduler_step p attr user pi r s s' :
  in_order s -> changeable p s -> asked p attr pi s ->
  __sched_setscheduler p attr user pi s = Done (r, s') -> in_order s'.
Proof.
  intros Ho Hca Ha He. destruct (pi && in_interrupt) eqn:Hi.
  - unfold __sched_setscheduler in He. by rewrite Hi in He.
  - by apply (wp_elim _ _ _ _ _ (setscheduler_answers p attr user pi s Ho Hca Ha Hi) He).
Qed.

Lemma step_in_order s s' : step s s' -> in_order s -> in_order s'.
Proof.
  intros Hst Ho. destruct Hst as [c cl j s|v s s' He|p st fl r s s' Hm Hl He|fuel preempt s s' He|n fuel r s s' He|s s' He
    |p s s' Hm Hon He|p attr user pi r s s' Hca Ha He|p q s s' Hca Hn Hp Hq He|p nice s s' Hca He|p mask ch r s s' Hp He].
  - by apply pass_in_order.
  - by eapply set_state_in_order.
  - exact (wp_elim _ _ _ _ _ (wake_in_order p st fl s Ho Hm Hl) He).
  - exact (proj1 (wp_elim _ _ _ _ _ (schedule_run fuel preempt s Ho) He)).
  - by eapply yield_in_order.
  - exact (proj1 (wp_elim _ _ _ _ _ (scheduler_tick_run s Ho) He)).
  - exact (wp_elim _ _ _ _ _ (wake_new_in_order p s Ho Hm Hon) He).
  - by eapply setscheduler_step.
  - exact (wp_elim _ _ _ _ _ (setprio_in_order p q s Ho Hca Hn Hp Hq) He).
  - exact (wp_elim _ _ _ _ _ (set_user_nice_in_order p nice s Ho Hca) He).
  - exact (pi_order _ _ _ _ _ (proj2 (wp_elim _ _ _ _ _ (set_cpus_allowed_run p mask ch s Ho (pinnable_bindable _ _ _ Hp)
      (pinnable_unhelped p mask ch s Ho Hp)) He))).
Qed.

Lemma steps_in_order s s' : rtc step s s' -> in_order s -> in_order s'.
Proof. induction 1 as [|s1 s2 s3 Hs _ IH]; [done|]. intros Ho. by eapply IH, step_in_order. Qed.

Lemma in_order_curr s c :
  in_order s -> mine s (curr (rqs s c)) -> on_queue s (curr (rqs s c)) c.
Proof. intros Ho Hm. apply in_order_queue; [done|done|]. by apply (prev_queued _ c _ Ho). Qed.

Lemma blocks_running preempt p s : state (tasks s p) = TASK_RUNNING -> blocks preempt p s = false.
Proof. unfold blocks. intros ->. by rewrite andb_false_r. Qed.

(** C2: [__schedule] on a machine in order, for the tasks of the two classes
    whose code is modelled: it returns, with one round of picking; the machine
    is in order again; the previous task is off every queue, and not what the
    CPU runs, if it waits for something and no signal is pending, and is still
    queued, on its CPU, otherwise; every other real-time or TS task keeps its
    state, and is queued afterwards exactly if it was, though a real-time task
    may be pulled or pushed to another CPU; the task that the CPU runs now is on
    the queue of this CPU and of no other; and the other CPUs run what they ran. *)
Theorem schedule_spec fuel preempt s :
  in_order s -> let c := this_cpu s in let prev := curr (rqs s c) in
  exists s', __schedule (S fuel) preempt s = Done (tt, s') /\ in_order s' /\
    (mine s prev -> if blocks preempt prev s
       then (forall i, ~ on_queue s' prev i) /\ curr (rqs s' c) <> prev
       else on_queue s' prev (task_cpu (tasks s' prev))) /\
    (forall x, mine s x -> x <> prev -> state (tasks s' x) = state (tasks s x) /\
       ((exists i, on_queue s' x i) <-> exists i, on_queue s x i)) /\
    (mine s' (curr (rqs s' c)) -> forall i, on_queue s' (curr (rqs s' c)) i <-> i = c) /\
    (forall i, i <> c -> curr (rqs s' i) = curr (rqs s i)).
Proof.
  intros Ho c prev. pose proof (schedule_run fuel preempt s Ho) as H.
  apply wp_done in H as ([] & s' & He & Ho' & [W1 W2 W3 W4]). fold c prev in W2, W3, W4. exists s'.
  assert (Hm : forall x, mine s x -> mine s' x) by (intros x; unfold mine; by rewrite W1).
  split_and!; [done|done| | | |done].
  - intros Hp. specialize (W2 Hp). pose proof (od_runs _ _ Ho c Hp) as Hr. fold prev in Hr. destruct (blocks preempt prev s).
    + assert (Hoff : runnable s' prev = false) by (unfold runnable, task_on_rq_queued; by rewrite W2).
      split; [intros i [Hon _]%(in_order_queue s' prev i Ho' (Hm _ Hp)); congruence|].
      intros E. pose proof (od_runs _ _ Ho' c) as Hc. rewrite E in Hc. rewrite Hc in Hoff; [done|by apply Hm].
    + apply in_order_queue; [done|by apply Hm|]. split; [|done]. unfold runnable, task_on_rq_queued in *. by rewrite W2.
  - intros x Hx Hne. destruct (W3 x Hx Hne) as [E1 E2]. split; [done|].
    assert (Hr : runnable s' x = runnable s x) by (unfold runnable, task_on_rq_queued; by rewrite E1).
    setoid_rewrite (in_order_queue s' x _ Ho' (Hm _ Hx)). setoid_rewrite (in_order_queue s x _ Ho Hx).
    rewrite Hr. naive_solver.
  - intros Hn i. rewrite (in_order_queue s') by done. destruct (prev_queued _ c _ Ho' Hn) as [-> ->]. naive_solver.
Qed.

(** C1: whatever sequence of switches, ticks, yields, wake-ups, first wake-ups,
    changes of policy, inherited priority, nice value and CPUs of a task, and
    state changes the CPUs go through, from a machine in order: a real-time or TS task is on a
    run queue if and only if its [on_rq] says so, on the queue of its CPU, no
    two places of the queues hold the same task, what a CPU runs is on its
    queue, and a task that does not run has [on_cpu] clear. *)
Theorem machine_in_order s0 s :
  in_order s0 -> rtc step s0 s ->
  (forall p c, mine s p -> on_queue s p c <-> on_rq (tasks s p) = TASK_ON_RQ_QUEUED /\ task_cpu (tasks s p) = c) /\
  (forall c, NoDup (concat (rt_queue_of c s)) /\ NoDup (concat (ts_q c s))) /\
  (forall c, mine s (curr (rqs s c)) -> on_queue s (curr (rqs s c)) c) /\
  (forall p, mine s p -> (forall c, curr (rqs s c) <> p) -> on_cpu (tasks s p) = 0).
Proof.
  intros H0 Hs. pose proof (steps_in_order _ _ Hs H0) as Ho. split_and!.
  - intros p c Hm. rewrite (in_order_queue s p c Ho Hm). unfold runnable, task_on_rq_queued. by rewrite Z.eqb_eq.
  - intros c. split; [apply (ra_wf _ _ _ (ri_array _ _ _ (ri_base _ _ _ (rp_ok _ _ (proj1 (od_settled _ _ Ho)) c))))|].
    apply (tp_wf _ _ (proj2 (od_settled _ _ Ho)) c).
  - intros c. by apply in_order_curr.
  - intros p Hm Hn. destruct (Z.eq_dec (on_cpu (tasks s p)) 0) as [|Hon]; [done|].
    destruct (od_on_cpu _ _ Ho p Hm Hon) as [[]|[c Hc]]. by destruct (Hn c).
Qed.

(** C4: no such sequence leads to a machine that is stuck: [__schedule] and the
    tick return, and a wake-up of any real-time or TS task returns without
    waiting for the task to be switched out; a task that waits in one of the
    states asked for is then running and queued. *)
Theorem machine_progress s0 s :
  in_order s0 -> rtc step s0 s ->
  (forall fuel preempt, exists s', __schedule (S fuel) preempt s = Done (tt, s')) /\
  (exists s', scheduler_tick s = Done (tt, s')) /\
  (wakes_locally s -> forall p st fl, mine s p -> exists r s', try_to_wake_up p st fl s = Done (r, s') /\
     (has (state (tasks s p)) st = true ->
      r = 1 /\ state (tasks s' p) = TASK_RUNNING /\ exists c, on_queue s' p c)).
Proof.
  intros H0 Hs. pose proof (steps_in_order _ _ Hs H0) as Ho. split_and!.
  - intros fuel preempt. pose proof (schedule_run fuel preempt s Ho) as H. apply wp_done in H as ([] & s' & He & _). by exists s'.
  - pose proof (scheduler_tick_run s Ho) as H. apply wp_done in H as ([] & s' & He & _). by exists s'.
  - intros Hl p st fl Hm. destruct (has (state (tasks s p)) st) eqn:Hst.
    + pose proof (try_to_wake_up_run p st fl s (od_settled _ _ Ho) (od_curr _ _ Ho) (od_runs _ _ Ho)
        (in_order_wakeable p s Ho Hm) Hl Hst) as H.
      apply wp_done in H as (r & s' & He & -> & [Hs' _] & E). exists 1, s'. split; [done|]. intros _.
      split_and!; [done|done|]. exists (task_cpu (tasks s' p)). by apply stands_queued.
    + exists 0, s. split; [|done]. unfold try_to_wake_up. unfold get_task at 1. by rewrite bind_gets, Hst.
Qed.

End Steps.

(** ** A machine with a real-time and a TS task *)

Module Example.
Import Machine.

#[local] Instance features : SchedFeat := fun f => match f with TTWU_QUEUE => false | _ => true end.
#[local] Instance limits : Rlimits :=
  {| rlimit_rttime := fun _ => RLIM_INFINITY; rlimit_rttime_max := fun _ => RLIM_INFINITY |}.
#[local] Instance topology : Topology := fun _ => [].
#[local] Instance cpupri0 : Cpupri := fun _ _ => [].

(** The other classes, on a machine without deadline and stop tasks. *)
Definition idle_pick (c : cpu) (prev : task) : K picked :=
  let! t := get_task prev in
  do! (match sched_class t with
       | rt_sched_class => put_prev_task_rt c prev
       | _ => ret tt
       end) in
  gets (fun s => PICKED (idle (rqs s c))).

Definition quiet_class (pick : cpu -> task -> K picked) : class_methods :=
  {| m_enqueue_task := fun _ _ _ => ret tt; m_dequeue_task := fun _ _ _ => ret tt;
     m_yield_task := fun _ => ret tt; m_check_preempt_curr := fun _ _ _ => ret tt;
     m_pick_next_task := pick; m_put_prev_task := fun _ _ => ret tt;
     m_select_task_rq := fun _ c _ _ => ret c; m_migrate_task_rq := None; m_task_woken := None;
     m_set_cpus_allowed := fun _ _ => ret tt; m_rq_online := None; m_rq_offline := None;
     m_set_curr_task := fun _ => ret tt; m_task_tick := fun _ _ _ => ret tt;
     m_task_fork := None; m_task_dead := None; m_switched_from := None;
     m_switched_to := fun _ _ => ret tt; m_prio_changed := fun _ _ _ => ret tt;
     m_get_rr_interval := None |}.

#[local] Instance others1 : OtherClasses :=
  {| other_class k := match k with
       | idle_sched_class => quiet_class idle_pick
       | _ => quiet_class (fun _ _ => ret NO_TASK)
       end;
     reweight_task := fun _ _ => ret tt; other_callback := fun _ _ => ret tt |}.
Definition cleared (d : sched_dl_entity) : sched_dl_entity :=
  d <| dl_runtime := 0 |> <| dl_deadline := 0 |> <| dl_period := 0 |> <| dl_flags := 0 |>.

#[local] Instance core_env : CoreEnv :=
  {| wq_worker_waking_up := fun _ _ => ret tt; wq_worker_sleeping := fun _ => ret None;
     sd_llc_id := fun _ => 0; cpu_to_node := fun _ => 0; cpumask_of_node := fun _ => [0; 1];
     cpuset_cpus_allowed_fallback := None; __dl_clear_params := fun p => set_task p (fun t => t <| dl ::= cleared |>);
     raise_sched_softirq := ret tt |}.
#[local] Instance switch_env : SwitchEnv :=
  {| signal_pending_state := fun _ _ => false; cpu_load_update_active := fun _ => ret tt;
     calc_global_load_tick := fun _ => ret tt; trigger_load_balance := fun _ => ret tt;
     stop_one_cpu := fun _ fn => fn; cpuset_cpus_allowed := fun _ _ => [0; 1];
     ns_capable_nice := fun _ => true |}.

(** A caller without capabilities, and no deadline tasks. *)
#[local] Instance nobody : Caller :=
  {| capable_nice := false; rlimit_nice := fun _ => 0; rlimit_rtprio := fun _ => 60;
     security_task_setscheduler := fun _ => 0; security_task_getscheduler := fun _ => 0;
     security_task_setnice := fun _ _ => 0; find_task_by_vpid := fun pid => Some pid;
     in_interrupt := false |}.
#[local] Instance no_deadline : Deadline :=
  {| __setparam_dl := fun _ _ => ret tt; __getparam_dl := fun _ a => a;
     __checkparam_dl := fun _ => false; dl_param_changed := fun _ _ => false;
     sched_dl_overflow := fun _ _ _ => ret 0; dl_time_before := fun a b => a <? b;
     rt_mutex_get_top_task := pi_top_task; rt_mutex_adjust_pi := fun _ => ret tt |}.

Lemma quietly_ret {A} (a : A) : quietly (ret a).
Proof. intros on s _. by wgo. Qed.

Lemma idle_pick_spec c prev s :
  idle_ok c s -> wp (put_prev_task c prev) (fun _ _ => True) s ->
  wp (idle_pick c prev) (fun r s' => exists p, r = PICKED p /\ sched_class (tasks s p) = idle_sched_class /\
    put_prev_task c prev s = Done (tt, s')) s.
Proof.
  intros Hi Hput. unfold idle_pick, get_task. wgo.
  change (put_prev_task c prev s) with (class_put_prev (sched_class (tasks s prev)) c prev s).
  change (wp (class_put_prev (sched_class (tasks s prev)) c prev) (fun _ _ => True) s) in Hput.
  destruct (sched_class (tasks s prev)); cbn [class_put_prev] in *.
  all: try (wgo; by exists (idle (rqs s c))).
  apply wp_done in Hput as ([] & s1 & He & _). apply (wp_intro _ _ _ _ _ He). wgo.
  pose proof (put_prev_task_rt_kept c prev s _ _ He) as [Hk _].
  exists (idle (rqs s c)). by rewrite (kp_idle _ _ Hk).
Qed.

#[local] Instance laws : OtherLaws.
Proof.
  split; try (intros k; intros; destruct k; try done; apply quietly_ret); try done.
  intros k c prev on s [-> | ->] Hm Hi Hput; [by wgo|].
  cbn [other_class others1 quiet_class m_pick_next_task].
  eapply wp_mono; [apply idle_pick_spec; [done|by apply Hput]|].
  intros r s' (p & -> & Hp & He). split; [done|]. by exists s, s'.
Qed.

#[local] Instance switch_laws : SwitchLaws.
Proof. split; try (intros; apply quietly_ret). intros p on s _. by wgo. Qed.

#[local] Instance change_laws : ChangeLaws.
Proof.
  assert (Hg : gently (ret tt)) by (intros on s _; wgo; by split).
  split; try done; try (intros; apply quietly_ret).
  intros p w s. wgo. split; [done|]. exists (se (tasks s p)). by destruct (tasks s p).
Qed.

(** Task 1 is real-time and task 5 is TS; both sleep. *)
Definition sleeper (k : sched_class_t) (pol pr : Z) (t : task_struct) : task_struct :=
  t <| sched_class := k |> <| policy := pol |> <| prio := pr |> <| state := TASK_INTERRUPTIBLE |>.

Definition asleep : kstate :=
  after (do! set_task 1 (sleeper rt_sched_class SCHED_FIFO 50) in
         set_task 5 (sleeper ts_sched_class SCHED_TS 120)) (machine0 <| rqs := fun c => rq0 (Z.abs c) |>).

Lemma asleep_tasks x :
  tasks asleep x = if decide (x = 1) then sleeper rt_sched_class SCHED_FIFO 50 task0 else
                   if decide (x = 5) then sleeper ts_sched_class SCHED_TS 120 task0 else tasks0 x.
Proof.
  unfold asleep. simpl. destruct (decide (5 = x)) as [<-|H5]; [by rewrite fn_lookup_alter|].
  rewrite fn_lookup_alter_ne by done. destruct (decide (1 = x)) as [<-|H1]; [by rewrite fn_lookup_alter|].
  rewrite fn_lookup_alter_ne by done. by rewrite !decide_False by congruence.
Qed.

Lemma asleep_mine x : mine asleep x -> x = 1 \/ x = 5.
Proof.
  unfold mine. rewrite asleep_tasks. do 2 (case_decide; [tauto|]). unfold tasks0. destruct (x <? 0); by intros [].
Qed.

Lemma asleep_idle c : sched_class (tasks asleep (curr (rqs asleep c))) = idle_sched_class.
Proof.
  rewrite asleep_tasks. cbn [asleep after rqs curr rq0]. rewrite !decide_False by (simpl; lia).
  unfold tasks0. assert (E : curr (rqs asleep c) <? 0 = true) by (apply Z.ltb_lt; simpl; lia). by rewrite E.
Qed.

Lemma asleep_off x : mine asleep x -> on_rq (tasks asleep x) = 0 /\ rt_on_rq (rt (tasks asleep x)) = 0 /\
  on_cpu (tasks asleep x) = 0 /\ flags (tasks asleep x) = 0 /\ is_cpu_allowed asleep x 0 = true.
Proof. intros [-> | ->]%asleep_mine; split_and!; by vm_compute. Qed.

Lemma asleep_settled : settled asleep.
Proof.
  assert (Hfr : forall c, rt_cpu_ok c asleep /\ rt_load c asleep = 0 /\ concat (rt_queue_of c asleep) = [])
    by (intros c; by apply ClassProps.Example.fresh_cpu_ok).
  assert (Hoff : forall x, mine asleep x -> runnable asleep x = false).
  { intros x Hx. unfold runnable, task_on_rq_queued. by destruct (asleep_off x Hx) as [-> _]. }
  assert (Hrt : forall x, sched_class (tasks asleep x) = rt_sched_class -> x = 1).
  { intros x. rewrite asleep_tasks. do 2 (case_decide; [done|]). unfold tasks0. by destruct (x <? 0). }
  assert (Hts : forall x, sched_class (tasks asleep x) = ts_sched_class -> x = 5).
  { intros x. rewrite asleep_tasks. do 2 (case_decide; [done|]). unfold tasks0. by destruct (x <? 0). }
  split; split.
  - intros c. apply Hfr.
  - intros c p. unfold rt_task_queued. destruct (Hfr c) as (_ & _ & ->). split; [by intros ?%not_elem_of_nil|].
    intros (Hr & Hc & _). rewrite Hoff in Hr by (by left). done.
  - intros p Hp. exfalso. apply Hp. rewrite asleep_tasks. do 2 (case_decide; [done|]). unfold tasks0. by destruct (p <? 0).
  - by intros p ->%Hrt.
  - by intros p ->%Hrt.
  - done.
  - intros c. assert (E : ts_q c asleep = repeat [] 40) by done. split; [by rewrite E|].
    rewrite E. split; [constructor|]. by intros p ?%not_elem_of_nil.
  - intros c p. assert (E : concat (ts_q c asleep) = []) by by vm_compute.
    unfold ts_queued. rewrite E. split; [by intros ?%not_elem_of_nil|].
    intros (Hr & Hc & _). rewrite Hoff in Hr by (by right). done.
  - by intros p ->%Hts.
Qed.

Lemma asleep_in_order : in_order asleep.
Proof.
  assert (Hcurr : forall c, ~ mine asleep (curr (rqs asleep c)))
    by (intros c Hm; unfold mine in Hm; rewrite asleep_idle in Hm; by destruct Hm).
  split.
  - exact asleep_settled.
  - split; [intros c; apply not_elem_of_nil|by intros c ?%Hcurr].
  - by intros c ?%Hcurr.
  - intros c. by rewrite asleep_idle.
  - intros x Hx Hon. exfalso. apply Hon, asleep_off, Hx.
  - split; [done|intros c; apply asleep_idle|done| | |].
    + intros x Hx. left. by apply asleep_off.
    + intros x Hx. by destruct (asleep_off x Hx) as (_ & _ & _ & -> & _).
    + intros x Hx. exists 0. by apply asleep_off.
Qed.

Lemma after_eq {A} (m : K A) s a s' : m s = Done (a, s') -> after m s = s'.
Proof. unfold after. by intros ->. Qed.

(** Both wake up, and CPU 0 switches to the real-time task. *)
Definition woken1 : kstate := after (try_to_wake_up 1 TASK_NORMAL 0) asleep.
Definition woken5 : kstate := after (try_to_wake_up 5 TASK_NORMAL 0) woken1.
Definition first_switch : kstate := after (__schedule 1 true) woken5.

Lemma wake_step p s :
  (match try_to_wake_up p TASK_NORMAL 0 s with Done _ => true | Crash _ => false end) = true ->
  mine s p -> step s (after (try_to_wake_up p TASK_NORMAL 0) s).
Proof.
  intros He Hm. destruct (try_to_wake_up p TASK_NORMAL 0 s) as [[r s']|] eqn:E; [|done].
  rewrite (after_eq _ _ _ _ E).
  eapply (step_wake p TASK_NORMAL 0); [done|by left|exact E].
Qed.

Lemma woken5_reached : rtc step asleep woken5.
Proof.
  eapply rtc_l; [apply (wake_step 1); [by vm_compute|left; by vm_compute]|].
  apply rtc_once, (wake_step 5); [by vm_compute|right; by vm_compute].
Qed.

Lemma first_switch_reached : rtc step asleep first_switch.
Proof.
  eapply rtc_r; [exact woken5_reached|]. apply (step_schedule 0 true).
  apply (ClassProps.Example.after_done (__schedule 1 true) woken5). by vm_compute.
Qed.

Lemma asleep_task1 : mine asleep 1 /\ has (state (tasks asleep 1)) TASK_NORMAL = true.
Proof. split; [left|]; by vm_compute. Qed.

Lemma asleep_facts : runnable asleep 1 = false /\ forall c, queues_remotely asleep c = false.
Proof. split; [by vm_compute|done]. Qed.

Lemma no_pushing : cpupri_within.
Proof. intros s x c H. by apply not_elem_of_nil in H. Qed.

(** Task 1 sleeps, is woken, and is on the queue of a CPU that it may use. *)
Lemma wake_up_spec_witness :
  exists s' c, try_to_wake_up 1 TASK_NORMAL 0 asleep = Done (1, s') /\ state (tasks s' 1) = TASK_RUNNING /\
    is_cpu_allowed asleep 1 c = true /\ on_queue s' 1 (task_cpu (tasks s' 1)) /\
    task_cpu (tasks s' 5) = task_cpu (tasks asleep 5).
Proof.
  destruct asleep_in_order as [H1 H2 H3 _ _ _]. destruct asleep_task1 as [Hm Hst]. destruct asleep_facts as [Hr Hl].
  destruct (wake_up_spec 1 TASK_NORMAL 0 asleep H1 H2 H3 (in_order_wakeable 1 asleep asleep_in_order Hm)
    no_pushing) as (r & s' & He & _ & _ & _ & H).
  rewrite Hst in H. destruct H as (-> & H & Hx). rewrite Hr in H. destruct H as (c & Hal & H). rewrite Hl in H.
  destruct H as (Hrun & _ & Hq & _). exists s', c. split_and!; [exact He|exact Hrun|exact Hal|by apply Hq|].
  assert (H5 : mine asleep 5) by (right; by vm_compute). destruct (Hx 5 ltac:(done) H5) as (_ & _ & E).
  assert (E5 : runnable asleep 5 = false) by by vm_compute. by rewrite E5 in E.
Defined.

Lemma woken5_in_order : in_order woken5.
Proof. exact (steps_in_order asleep woken5 woken5_reached asleep_in_order). Qed.

Lemma woken5_cpu : this_cpu woken5 = 0 /\ curr (rqs woken5 0) = -1.
Proof. by vm_compute. Qed.

Lemma woken5_task5 : mine woken5 5 /\ runnable woken5 5 = true.
Proof. split; [right|]; by vm_compute. Qed.

Lemma switched_to_1 : curr (rqs first_switch 0) = 1 /\ mine first_switch 1.
Proof. split; [by vm_compute|left; by vm_compute]. Qed.

(** The idle task is switched out for task 1, while task 5 waits. *)
Lemma schedule_spec_witness :
  exists s', __schedule 1 true woken5 = Done (tt, s') /\ curr (rqs s' 0) = 1 /\
    (forall i, on_queue s' 1 i <-> i = 0) /\ exists i, on_queue s' 5 i.
Proof.
  generalize woken5_in_order woken5_cpu woken5_task5 switched_to_1. unfold first_switch.
  generalize woken5. intros s Ho [E0 E1] [E2 E3] [E4 E5].
  destruct (schedule_spec 0 true s Ho) as (s' & He & _ & _ & Hx & Hn & _).
  rewrite (after_eq _ _ _ _ He) in E4, E5. rewrite E0 in *. rewrite E4 in Hn.
  exists s'. split_and!; [done|done|by apply Hn|]. apply (Hx 5 E2); [by rewrite E1|].
  exists (task_cpu (tasks s 5)). by apply (in_order_queue s 5 _ Ho E2).
Defined.

Lemma machine_in_order_witness :
  on_queue first_switch 1 0 /\ NoDup (concat (ts_q 0 first_switch)).
Proof.
  destruct (machine_in_order asleep first_switch asleep_in_order first_switch_reached) as (_ & H2 & H3 & _).
  destruct switched_to_1 as [E4 E5]. split; [|apply H2].
  specialize (H3 0). rewrite E4 in H3. by apply H3.
Defined.







(** Task 1, which waits on the queue of CPU 0, is bound to CPU 1. *)
Definition pin1 : K Z := __set_cpus_allowed_ptr 1 [1] true.

Lemma pin1_result :
  match pin1 woken5 with
  | Done (r, s') => (r =? 0) && (task_cpu (tasks s' 1) =? 1)
  | Crash _ => false
  end = true.
Proof. by vm_compute. Qed.

Lemma woken5_task1 : mine woken5 1 /\ (exists c, on_queue woken5 1 c) /\ cpus_allowed (tasks woken5 1) = [0; 1].
Proof.
  split; [by left; vm_compute|]. split; [|by vm_compute]. exists 0. left.
  assert (E : concat (rt_queue_of 0 woken5) = [1]) by by vm_compute. unfold rt_task_queued. rewrite E. by left.
Qed.

Lemma pin1_pinnable : pinnable 1 [1] woken5.
Proof.
  split; [apply woken5_task1|split; by vm_compute|by vm_compute| |intros H; by vm_compute in H].
  intros [c Hc]. exfalso. pose proof (proj2 (od_curr _ _ woken5_in_order) c) as H. rewrite Hc in H.
  specialize (H (proj1 woken5_task1)). assert (E : task_cpu (tasks woken5 1) = 0) by by vm_compute.
  rewrite E in H. subst c. destruct woken5_cpu as [_ E']. by rewrite Hc in E'.
Qed.

Lemma first_switch_in_order : in_order first_switch.
Proof. exact (steps_in_order asleep first_switch first_switch_reached asleep_in_order). Qed.

Lemma first_switch_task1 : bindable 1 [1] first_switch /\ helped 1 [1] true first_switch = true /\
  task_cpu (tasks first_switch 1) = 0 /\ curr (rqs first_switch 0) = 1.
Proof.
  split; [|by vm_compute]. split; [by left; vm_compute|split; by vm_compute|intros _; right; by vm_compute|].
  intros H. by vm_compute in H.
Qed.

Lemma pin1_unhelped : helped 1 [1] true woken5 = false.
Proof. by vm_compute. Qed.

(** Task 1 is moved where it waits; where it runs, it stays queued on CPU 0 until
    the stop task of that CPU has moved it. *)
Lemma set_cpus_allowed_spec_witness :
  (exists s', __set_cpus_allowed_ptr 1 [1] true woken5 = Done (0, s') /\ on_queue s' 1 1) /\
  exists dest s1, __set_cpus_allowed_ptr 1 [1] true first_switch
      = (let! _ := stop_one_cpu 0 (migration_cpu_stop 1 dest) in ret 0) s1 /\
    in_order s1 /\ cpus_allowed (tasks s1 1) = [1] /\ on_queue s1 1 0.
Proof.
  split.
  - generalize woken5_in_order woken5_task1 pin1_result pin1_pinnable pin1_unhelped. unfold pin1. generalize woken5.
    intros s Ho (Hm & Hq & Hne) Hres Hp Hh.
    pose proof (set_cpus_allowed_spec 1 [1] true s Ho (pinnable_bindable _ _ _ Hp)) as H. rewrite Hh in H.
    destruct H as (r & s' & He & _ & _ & _ & Hin & Hq' & _).
    rewrite He in Hres. apply andb_true_iff in Hres as [->%Z.eqb_eq _]. exists s'. split; [done|].
    apply (Hq' 1 Hm) in Hq as [c Hc]. pose proof (Hin c Hc eq_refl ltac:(by rewrite Hne)) as H.
    apply list_elem_of_singleton in H as ->. done.
  - generalize first_switch_in_order first_switch_task1. generalize first_switch. intros s Ho (Hb & Hh & Hc & Hr).
    pose proof (set_cpus_allowed_spec 1 [1] true s Ho Hb) as H. rewrite Hh, Hc in H.
    destruct H as (dest & s1 & _ & _ & Ho1 & Hrn & Hq & He). exists dest, s1.
    split_and!; [done|done|by apply Hrn|]. apply Hq. rewrite <- Hr at 1. apply in_order_curr; [done|].
    rewrite Hr. apply Hb.
Defined.

Lemma machine_progress_witness : exists s', __schedule 1 false first_switch = Done (tt, s').
Proof.
  destruct (machine_progress asleep first_switch asleep_in_order first_switch_reached) as (H & _). apply H.
Defined.
End Example.
