(* ===== verification/Tickless.v ===== *)
(** * CPUs without a tick ([kernel/sched/core.c])

    What the core does for CPUs that stop their tick, with NO_HZ_COMMON and
    NO_HZ_FULL: when the tick may stop, how an idle CPU is kicked, and the tick
    of a busy one that other CPUs run for it once a second.  That tick is a
    work of the work queue whose state follows the CPU up and down; the theorem
    is that it is queued once for each CPU that needs it, whatever order the
    CPUs and the work queue take. *)

From S2P Require Import Prelude Sched Ts RtBandwidth Rt RtProps SchedClass ClassProps.
From S2P Require Import Frames CoreInv SetSched SetProps Wake CoreProps Switch SwitchProps InOrder Stages Requeue Steps.

(** The flags of CPU isolation ([linux/sched/isolation.h]) that are used. *)
Inductive hk_flags : Type := HK_FLAG_TIMER | HK_FLAG_TICK.

(** [isolation.c], the tick ([kernel/time/]) and the scheduling domains of a
    CPU, inner ones first. *)
Class TickEnv : Type := {
  housekeeping_cpu : cpu -> hk_flags -> bool;
  housekeeping_any_cpu : hk_flags -> cpu;
  tick_nohz_tick_stopped_cpu : kstate -> cpu -> bool;
  tick_nohz_full_cpu : cpu -> bool;
  tick_nohz_full_kick_cpu : cpu -> K unit;
  domain_spans : cpu -> list (list cpu)
}.

Section Tickless.
Context `{Hfeat : SchedFeat} `{Hlim : Rlimits} `{Hpri : Cpupri} `{Htop : Topology}.
Context `{Hoth : OtherClasses} `{Htick : TickEnv}.
Implicit Types (c i w : cpu) (p x : task) (s : kstate).

(** ** When the tick may stop *)

Definition sched_can_stop_tick (r : rq) : bool :=
  if negb (dl_nr_running r =? 0) then false else
  let rt := rq_rt r in
  if negb (rr_nr_running rt =? 0) then rr_nr_running rt =? 1 else
  let fifo_nr_running := s32 (u32 (rt_nr_running rt - rr_nr_running rt)) in
  if negb (fifo_nr_running =? 0) then true else
  if 1 <? nr_running r then false else true.

(** ** Kicking idle CPUs *)

Definition cpu_is_offline s c : bool := bool_decide (c ∉ online_cpus s).

(** A CPU other than [c] in a span on which a timer may run. *)
Fixpoint busy_in s c (span : list cpu) : option cpu :=
  match span with
  | [] => None
  | i :: span =>
      if c =? i then busy_in s c span else
      if negb (idle_cpu (rqs s i)) && housekeeping_cpu i HK_FLAG_TIMER then Some i else busy_in s c span
  end.

Fixpoint busy_nearby s c (spans : list (list cpu)) : option cpu :=
  match spans with
  | [] => None
  | span :: spans => match busy_in s c span with Some i => Some i | None => busy_nearby s c spans end
  end.

Definition get_nohz_timer_target s : cpu :=
  let c := this_cpu s in
  if negb (idle_cpu (rqs s c)) && housekeeping_cpu c HK_FLAG_TIMER then c else
  match busy_nearby s c (domain_spans c) with
  | Some i => i
  | None => if negb (housekeeping_cpu c HK_FLAG_TIMER) then housekeeping_any_cpu HK_FLAG_TIMER else c
  end.

Definition wake_up_idle_cpu (c : cpu) : K unit :=
  let! s := gets (fun s => s) in
  if c =? this_cpu s then ret tt else
  let! ipi := set_nr_and_not_polling (idle (rqs s c)) in
  when ipi (smp_send_reschedule c).

Definition wake_up_full_nohz_cpu (c : cpu) : K bool :=
  let! s := gets (fun s => s) in
  if cpu_is_offline s c then ret true else
  if tick_nohz_full_cpu c then
    do! when (negb (c =? this_cpu s) || tick_nohz_tick_stopped_cpu s (this_cpu s)) (tick_nohz_full_kick_cpu c) in
    ret true
  else ret false.

Definition wake_up_nohz_cpu (c : cpu) : K unit :=
  let! full := wake_up_full_nohz_cpu c in
  when (negb full) (wake_up_idle_cpu c).

Definition task_curr s p : bool := bool_decide (curr (rqs s (task_cpu (tasks s p))) = p).

Definition kick_process (p : task) : K unit :=
  let! s := gets (fun s => s) in
  let c := task_cpu (tasks s p) in
  when (negb (c =? this_cpu s) && task_curr s p) (smp_send_reschedule c).

(** ** The tick run for another CPU *)

Definition TICK_SCHED_REMOTE_OFFLINE : Z := 0.
Definition TICK_SCHED_REMOTE_OFFLINING : Z := 1.
Definition TICK_SCHED_REMOTE_RUNNING : Z := 2.

(** [cpu] and [state], and whether [work] has been initialised. *)
Record tick_work : Type := mk_tick_work {
  tw_cpu : cpu;
  tw_state : Z;
  tw_init : bool
}.

(** The machine, the works of all CPUs, the works that were passed to the work
    queue and that it has not begun, and whether a warning about a state was
    given. *)
Record tstate : Type := mk_tstate {
  machine : kstate;
  tick_work_cpu : cpu -> tick_work;
  queued : list cpu;
  warned : bool
}.

Definition eta_tick_work (r : tick_work) : tick_work := mk_tick_work (tw_cpu r) (tw_state r) (tw_init r).
#[export] Instance tw_cpu_field : Field tw_cpu. Proof. solve_field eta_tick_work. Defined.
#[export] Instance tw_state_field : Field tw_state. Proof. solve_field eta_tick_work. Defined.
#[export] Instance tw_init_field : Field tw_init. Proof. solve_field eta_tick_work. Defined.

Definition eta_tstate (r : tstate) : tstate := mk_tstate (machine r) (tick_work_cpu r) (queued r) (warned r).
#[export] Instance machine_field : Field machine. Proof. solve_field eta_tstate. Defined.
#[export] Instance tick_work_cpu_field : Field tick_work_cpu. Proof. solve_field eta_tstate. Defined.
#[export] Instance queued_field : Field queued. Proof. solve_field eta_tstate. Defined.
#[export] Instance warned_field : Field warned. Proof. solve_field eta_tstate. Defined.

Definition on_machine {A} (m : K A) : M tstate A := fun t =>
  match m (machine t) with
  | Done (a, s) => Done (a, t <| machine := s |>)
  | Crash f => Crash f
  end.

Definition set_work (w : cpu) (f : tick_work -> tick_work) : M tstate unit :=
  modify (fun t => t <| tick_work_cpu ::= alter f w |>).

Definition warn_on_once (b : bool) : M tstate unit := when b (modify (fun t => t <| warned := true |>)).

(** Atomic operations on [state]: they return the old value. *)
Definition atomic_xchg (w : cpu) (v : Z) : M tstate Z :=
  let! old := gets (fun t => tw_state (tick_work_cpu t w)) in
  do! set_work w (fun r => r <| tw_state := v |>) in
  ret old.

Definition atomic_fetch_add_unless (w : cpu) (a u : Z) : M tstate Z :=
  let! old := gets (fun t => tw_state (tick_work_cpu t w)) in
  do! when (negb (old =? u)) (set_work w (fun r => r <| tw_state := old + a |>)) in
  ret old.

(** The delay of a second is not kept. *)
Definition queue_delayed_work (w : cpu) : M tstate unit := modify (fun t => t <| queued ::= cons w |>).

(** The first part of the work, on the machine; the warning about a late tick
    is left out. *)
Definition remote_tick (c : cpu) : K unit :=
  let! s := gets (fun s => s) in
  if idle_cpu (rqs s c) || negb (tick_nohz_tick_stopped_cpu s c) then ret tt else
  let curr := curr (rqs s c) in
  if is_idle_task (tasks s curr) || cpu_is_offline s c then ret tt else
  do! update_rq_clock c in
  let! k := task_class curr in
  m_task_tick k c curr 0.

(** From the label [out_requeue] on. *)
Definition remote_requeue (w : cpu) : M tstate unit :=
  let! os := atomic_fetch_add_unless w (-1) TICK_SCHED_REMOTE_RUNNING in
  do! warn_on_once (os =? TICK_SCHED_REMOTE_OFFLINE) in
  when (os =? TICK_SCHED_REMOTE_RUNNING) (queue_delayed_work w).

Definition sched_tick_remote (w : cpu) : M tstate unit :=
  let! c := gets (fun t => tw_cpu (tick_work_cpu t w)) in
  do! on_machine (remote_tick c) in
  remote_requeue w.

Definition sched_tick_start (c : cpu) : M tstate unit :=
  if housekeeping_cpu c HK_FLAG_TICK then ret tt else
  let! os := atomic_xchg c TICK_SCHED_REMOTE_RUNNING in
  do! warn_on_once (os =? TICK_SCHED_REMOTE_RUNNING) in
  when (os =? TICK_SCHED_REMOTE_OFFLINE)
    (do! set_work c (fun r => r <| tw_cpu := c |>) in
     do! set_work c (fun r => r <| tw_init := true |>) in
     queue_delayed_work c).

Definition sched_tick_stop (c : cpu) : M tstate unit :=
  if housekeeping_cpu c HK_FLAG_TICK then ret tt else
  let! os := atomic_xchg c TICK_SCHED_REMOTE_OFFLINING in
  warn_on_once (negb (os =? TICK_SCHED_REMOTE_RUNNING)).

(** ** CPUs and the work queue *)

(** What the environment does: CPUs come up and go down, as [kernel/cpu.c]
    orders it, and the work queue begins a work that was queued and later ends
    it; a work does not overlap with itself.  [up] is the CPUs that are up and
    [busy] the works under way. *)
Record tick_system : Type := mk_tick_system {
  ticks : tstate;
  up : cpu -> bool;
  busy : list cpu
}.

End Tickless.

Section Works.
Context `{Hfeat : SchedFeat} `{Hlim : Rlimits} `{Hpri : Cpupri} `{Htop : Topology}.
Context `{Hoth : OtherClasses} {Hlaws : OtherLaws} `{Henv : CoreEnv} `{Hsw : SwitchEnv} {Hswl : SwitchLaws}.
Context `{Hcall : Caller} `{Hdl : Deadline} {Hch : ChangeLaws} `{Htick : TickEnv}.
Implicit Types (c i w : cpu) (s : kstate) (t : tstate).

Inductive tick_step : tick_system -> tick_system -> Prop :=
  | tick_cpu_up c t t' u b :
      u c = false -> sched_tick_start c t = Done (tt, t') ->
      tick_step (mk_tick_system t u b) (mk_tick_system t' (<[c := true]> u) b)
  | tick_cpu_down c t t' u b :
      u c = true -> sched_tick_stop c t = Done (tt, t') ->
      tick_step (mk_tick_system t u b) (mk_tick_system t' (<[c := false]> u) b)
  | tick_work_begins w l1 l2 t t' u b :
      queued t = l1 ++ w :: l2 -> w ∉ b ->
      on_machine (remote_tick (tw_cpu (tick_work_cpu t w))) (t <| queued := l1 ++ l2 |>) = Done (tt, t') ->
      tick_step (mk_tick_system t u b) (mk_tick_system t' u (w :: b))
  | tick_work_ends w b1 b2 t t' u :
      remote_requeue w t = Done (tt, t') ->
      tick_step (mk_tick_system t u (b1 ++ w :: b2)) (mk_tick_system t' u (b1 ++ b2))
  | tick_machine s' t u b :
      step (machine t) s' -> tick_step (mk_tick_system t u b) (mk_tick_system (t <| machine := s' |>) u b).

(** No CPU is up yet. *)
Record all_down (y : tick_system) : Prop := {
  ad_machine : in_order (machine (ticks y));
  ad_state : forall c, tw_state (tick_work_cpu (ticks y) c) = TICK_SCHED_REMOTE_OFFLINE;
  ad_queued : queued (ticks y) = [];
  ad_warned : warned (ticks y) = false;
  ad_up : forall c, up y c = false;
  ad_busy : busy y = []
}.

(** The work of [c], which is up or not. *)
Definition work_ok c (u : bool) (there : Prop) (x : tick_work) : Prop :=
  match u with
  | true => tw_state x = TICK_SCHED_REMOTE_RUNNING
  | false => tw_state x = TICK_SCHED_REMOTE_OFFLINING \/ tw_state x = TICK_SCHED_REMOTE_OFFLINE
  end /\
  (there <-> tw_state x <> TICK_SCHED_REMOTE_OFFLINE) /\
  (there -> tw_cpu x = c /\ tw_init x = true).

Record tick_inv (y : tick_system) : Prop := {
  ti_machine : in_order (machine (ticks y));
  ti_warned : warned (ticks y) = false;
  ti_nodup : NoDup (queued (ticks y) ++ busy y);
  ti_works : forall c, c ∈ queued (ticks y) ++ busy y -> housekeeping_cpu c HK_FLAG_TICK = false;
  ti_state : forall c, housekeeping_cpu c HK_FLAG_TICK = false ->
    work_ok c (up y c) (c ∈ queued (ticks y) ++ busy y) (tick_work_cpu (ticks y) c)
}.

Lemma all_down_inv y : all_down y -> tick_inv y.
Proof.
  intros [H1 H2 H3 H4 H5 H6]. split; [done|done|rewrite H3, H6; constructor|rewrite H3, H6; by intros c ?%not_elem_of_nil|].
  intros c _. unfold work_ok. rewrite H5, H2, H3, H6. split; [by right|].
  split; [split; [by intros ?%not_elem_of_nil|done]|by intros ?%not_elem_of_nil].
Qed.

Lemma remote_tick_run c s : in_order s -> wp (remote_tick c) (fun _ => in_order) s.
Proof.
  intros Ho. unfold remote_tick. do 2 wstep. wstep; [done|]. cbv zeta. wstep; [done|]. wstep.
  eapply wp_mono; [apply update_clock_tasks|]. intros [] s1 [H1 Ht1]. assert (Ho1 : in_order s1) by by eapply order_calm.
  rewrite <- (kp_curr _ _ (proj2 H1)). apply wp_class.
  eapply wp_mono; [by apply task_tick_settles|]. intros [] s2. by apply order_settles.
Qed.

(** A change of the work of [c] alone. *)
Lemma inv_work c t t' u u' b b' :
  tick_inv (mk_tick_system t u b) -> housekeeping_cpu c HK_FLAG_TICK = false ->
  in_order (machine t') -> warned t' = false ->
  (forall i, i <> c -> tick_work_cpu t' i = tick_work_cpu t i) -> (forall i, i <> c -> u' i = u i) ->
  (forall i, i <> c -> i ∈ queued t' ++ b' <-> i ∈ queued t ++ b) -> NoDup (queued t' ++ b') ->
  work_ok c (u' c) (c ∈ queued t' ++ b') (tick_work_cpu t' c) -> tick_inv (mk_tick_system t' u' b').
Proof.
  intros [H1 H2 H3 H4 H5] Hc Hm Hw Ht Hu Hl Hnd Hok. split; [done|done|done| |]; cbn [ticks up busy] in *.
  - intros i Hi. destruct (decide (i = c)) as [->|Hne]; [done|]. by apply H4, Hl.
  - intros i Hi. destruct (decide (i = c)) as [->|Hne]; [done|].
    rewrite Ht, Hu by done. specialize (H5 i Hi). unfold work_ok in *. by rewrite Hl.
Qed.

Lemma inv_up c (v : bool) t u b :
  tick_inv (mk_tick_system t u b) -> housekeeping_cpu c HK_FLAG_TICK = true ->
  tick_inv (mk_tick_system t (<[c := v]> u) b).
Proof.
  intros [H1 H2 H3 H4 H5] Hc. split; [done..|]. intros i Hi. cbn [up ticks busy] in *.
  rewrite fn_lookup_insert_ne; [by apply H5|]. intros <-. congruence.
Qed.

Lemma start_inv c t t' u b :
  tick_inv (mk_tick_system t u b) -> u c = false -> sched_tick_start c t = Done (tt, t') ->
  tick_inv (mk_tick_system t' (<[c := true]> u) b).
Proof.
  intros Hi Hu. unfold sched_tick_start. destruct (housekeeping_cpu c HK_FLAG_TICK) eqn:Hc.
  { intros [= <-]. by apply inv_up. }
  pose proof Hi as [H1 H2 H3 H4 H5]. destruct (H5 c Hc) as (Hst & Hin & Hf). cbn [ticks up busy] in *. rewrite Hu in Hst.
  assert (Hok : forall t1 l, machine t1 = machine t -> warned t1 = warned t -> queued t1 = l ->
      (forall i, i <> c -> tick_work_cpu t1 i = tick_work_cpu t i) ->
      tick_work_cpu t1 c = mk_tick_work c TICK_SCHED_REMOTE_RUNNING true -> NoDup (l ++ b) -> c ∈ l ++ b ->
      (forall i, i <> c -> i ∈ l ++ b <-> i ∈ queued t ++ b) -> tick_inv (mk_tick_system t1 (<[c := true]> u) b)).
  { intros t1 l E1 E2 <- E4 E5 Hnd Hcin Hl. apply (inv_work c t t1 u _ b b Hi Hc); rewrite ?E1, ?E2; try done.
    - intros i Hne. by rewrite fn_lookup_insert_ne.
    - rewrite fn_lookup_insert, E5. split; [done|]. by split. }
  unfold atomic_xchg, set_work, warn_on_once, queue_delayed_work. cbn.
  destruct (tick_work_cpu t c) as [tc ts ti] eqn:Et. simpl in *. destruct Hst as [-> | ->]; simpl; intros [= <-].
  - destruct Hf as [-> ->]; [by apply Hin|]. apply (Hok _ (queued t)); try done.
    + intros i Hne. simpl. by rewrite fn_lookup_alter_ne.
    + simpl. by rewrite fn_lookup_alter, Et.
    + by apply Hin.
  - assert (Hnot : c ∉ queued t ++ b) by (by intros ?%Hin). apply (Hok _ (c :: queued t)); try done.
    + intros i Hne. simpl. by rewrite !fn_lookup_alter_ne.
    + simpl. by rewrite !fn_lookup_alter, Et.
    + by constructor.
    + by left.
    + intros i Hne. simpl. rewrite elem_of_cons. naive_solver.
Qed.

Lemma stop_inv c t t' u b :
  tick_inv (mk_tick_system t u b) -> u c = true -> sched_tick_stop c t = Done (tt, t') ->
  tick_inv (mk_tick_system t' (<[c := false]> u) b).
Proof.
  intros Hi Hu. unfold sched_tick_stop. destruct (housekeeping_cpu c HK_FLAG_TICK) eqn:Hc.
  { intros [= <-]. by apply inv_up. }
  pose proof Hi as [H1 H2 H3 H4 H5]. destruct (H5 c Hc) as (Hst & Hin & Hf). cbn [ticks up busy] in *. rewrite Hu in Hst.
  unfold atomic_xchg, set_work, warn_on_once. cbn. rewrite Hst. simpl. intros [= <-].
  apply (inv_work c t _ u _ b b Hi Hc); try done.
  - intros i Hne. simpl. by rewrite fn_lookup_alter_ne.
  - intros i Hne. by rewrite fn_lookup_insert_ne.
  - simpl. rewrite fn_lookup_insert, fn_lookup_alter. unfold work_ok. simpl. split; [by left|]. split; [|exact Hf].
    split; [done|]. intros _. apply Hin. by rewrite Hst.
Qed.

Lemma ends_inv w b1 b2 t t' u :
  tick_inv (mk_tick_system t u (b1 ++ w :: b2)) -> remote_requeue w t = Done (tt, t') ->
  tick_inv (mk_tick_system t' u (b1 ++ b2)) /\
  (if u w then queued t' = w :: queued t
   else queued t' = queued t /\ tw_state (tick_work_cpu t' w) = TICK_SCHED_REMOTE_OFFLINE).
Proof.
  intros Hi. pose proof Hi as [H1 H2 H3 H4 H5]. cbn [ticks up busy] in *.
  assert (Hw : w ∈ queued t ++ b1 ++ w :: b2) by (rewrite !elem_of_app, elem_of_cons; auto).
  pose proof (H4 w Hw) as Hc. destruct (H5 w Hc) as (Hst & Hin & Hf).
  assert (Hp : queued t ++ b1 ++ w :: b2 ≡ₚ w :: queued t ++ b1 ++ b2) by (by rewrite !app_assoc, Permutation_middle).
  rewrite Hp in H3. apply NoDup_cons in H3 as [Hnot Hnd].
  unfold remote_requeue, atomic_fetch_add_unless, set_work, warn_on_once, queue_delayed_work, bind, gets, when, modify, ret. cbn beta iota.
  destruct (u w) eqn:Hu.
  - rewrite Hst. simpl. intros [= <-]. split; [|done]. apply (inv_work w t _ u _ (b1 ++ w :: b2) (b1 ++ b2) Hi Hc); try done; simpl.
    + intros i Hne. rewrite !elem_of_cons, !elem_of_app, elem_of_cons. naive_solver.
    + by constructor.
    + rewrite Hu. split; [done|]. split; [|by intros _; apply Hf]. rewrite Hst. split; [done|by left].
  - destruct Hst as [Hst|Hst]; [|by destruct (proj1 Hin Hw)]. rewrite Hst. simpl. intros [= <-]. split.
    + apply (inv_work w t _ u _ (b1 ++ w :: b2) (b1 ++ b2) Hi Hc); try done; simpl.
      * intros i Hne. by rewrite fn_lookup_alter_ne.
      * intros i Hne. rewrite !elem_of_app, elem_of_cons. naive_solver.
      * rewrite Hu, fn_lookup_alter. unfold work_ok. simpl. split; [by right|]. split; [|by intros ?%Hnot].
        split; [by intros ?%Hnot|done].
    + split; [done|]. simpl. by rewrite fn_lookup_alter.
Qed.

Lemma begins_inv w l1 l2 t t' u b :
  tick_inv (mk_tick_system t u b) -> queued t = l1 ++ w :: l2 ->
  on_machine (remote_tick (tw_cpu (tick_work_cpu t w))) (t <| queued := l1 ++ l2 |>) = Done (tt, t') ->
  tick_inv (mk_tick_system t' u (w :: b)).
Proof.
  intros Hi Hq He. pose proof Hi as [H1 H2 H3 H4 H5]. cbn [ticks up busy] in *.
  assert (Hp : queued t ++ b ≡ₚ l1 ++ l2 ++ w :: b).
  { rewrite Hq, <- !app_assoc. simpl. by rewrite <- !Permutation_middle. }
  assert (Hw : w ∈ queued t ++ b) by (rewrite Hp, !elem_of_app, elem_of_cons; auto).
  unfold on_machine in He. simpl in He. pose proof (remote_tick_run (tw_cpu (tick_work_cpu t w)) (machine t) H1) as Hr.
  apply wp_done in Hr as ([] & s' & E & Ho). rewrite E in He. injection He as <-.
  apply (inv_work w t _ u _ b (w :: b) Hi (H4 w Hw)); try done; simpl; rewrite <- app_assoc.
  - intros i _. by rewrite Hp.
  - by rewrite <- Hp.
  - destruct (H5 w (H4 w Hw)) as (Hst & Hin & Hf). split; [done|]. by rewrite <- Hp.
Qed.

Lemma tick_step_inv y y' : tick_step y y' -> tick_inv y -> tick_inv y'.
Proof.
  intros [c t t' u b Hu He|c t t' u b Hu He|w l1 l2 t t' u b Hq Hb He|w b1 b2 t t' u He|s' t u b Hs] Hi.
  - by eapply start_inv.
  - by eapply stop_inv.
  - by eapply begins_inv.
  - by eapply ends_inv.
  - destruct Hi as [H1 H2 H3 H4 H5]. split; try done. by eapply step_in_order.
Qed.

Lemma tick_reachable_inv y y' : rtc tick_step y y' -> tick_inv y -> tick_inv y'.
Proof. induction 1 as [|y1 y2 y3 Hs _ IH]; [done|]. intros Hi. by eapply IH, tick_step_inv. Qed.

Lemma sched_tick_remote_runs w t : in_order (machine t) -> exists t', sched_tick_remote w t = Done (tt, t').
Proof.
  intros Ho. pose proof (remote_tick_run (tw_cpu (tick_work_cpu t w)) (machine t) Ho) as H.
  apply wp_done in H as ([] & s' & E & _). unfold sched_tick_remote. rewrite bind_gets.
  unfold bind at 1, on_machine. rewrite E.
  unfold remote_requeue, atomic_fetch_add_unless, set_work, warn_on_once, queue_delayed_work, bind, gets, when, modify, ret.
  destruct (negb _), (_ =? _), (_ =? _); by eexists.
Qed.

(** C21: in whatever order CPUs come up and go down and the work queue begins
    and ends works, while the machine takes its steps: the tick work of a CPU
    that is not for housekeeping is queued or under way, once and initialised
    for this CPU, exactly if its state is not OFFLINE; the state is RUNNING
    exactly if the CPU is up, and no transition gives a warning; a work that
    ends is queued again if the CPU is up by then, and is OFFLINE otherwise;
    a work always runs to its end; and the ticks leave the machine in order. *)
Theorem tick_work_once y0 y :
  all_down y0 -> rtc tick_step y0 y -> let t := ticks y in
  in_order (machine t) /\ warned t = false /\ NoDup (queued t ++ busy y) /\
  (forall w, exists t', sched_tick_remote w t = Done (tt, t')) /\
  (forall c, housekeeping_cpu c HK_FLAG_TICK = false -> let x := tick_work_cpu t c in
     (c ∈ queued t ++ busy y <-> tw_state x <> TICK_SCHED_REMOTE_OFFLINE) /\
     (tw_state x = TICK_SCHED_REMOTE_RUNNING <-> up y c = true) /\
     (c ∈ queued t ++ busy y -> tw_cpu x = c /\ tw_init x = true)) /\
  forall c, c ∈ busy y -> exists t', remote_requeue c t = Done (tt, t') /\
     if up y c then queued t' = c :: queued t
     else queued t' = queued t /\ tw_state (tick_work_cpu t' c) = TICK_SCHED_REMOTE_OFFLINE.
Proof.
  intros H0 Hs. pose proof (tick_reachable_inv _ _ Hs (all_down_inv _ H0)) as Hi. destruct y as [t u b].
  pose proof Hi as [H1 H2 H3 H4 H5]. cbn [ticks up busy] in *. split_and!; [done..| | |].
  - intros w. by apply sched_tick_remote_runs.
  - intros c Hc. destruct (H5 c Hc) as (Hst & Hin & Hf). split; [done|]. split; [|done].
    destruct (u c); [done|]. by destruct Hst as [-> | ->].
  - intros c (b1 & b2 & ->)%list_elem_of_split.
    assert (He : exists t', remote_requeue c t = Done (tt, t')).
    { unfold remote_requeue, atomic_fetch_add_unless, set_work, warn_on_once, queue_delayed_work, bind, gets, when, modify, ret.
      destruct (negb _), (_ =? _), (_ =? _); by eexists. }
    destruct He as [t' He]. exists t'. split; [done|]. by destruct (ends_inv _ _ _ _ _ _ Hi He).
Qed.

(** ** When the tick may stop *)

(** The [SCHED_RR] tasks on the queue of [c]. *)
Definition rr_tasks c s : list task := filter (fun p => policy (tasks s p) = SCHED_RR) (concat (rt_queue_of c s)).

Lemma rr_count (t : task -> task_struct) (l : list task) :
  sumZ (fun p => rt_se_rr_nr_running (t p)) l = Z.of_nat (length (filter (fun p => policy (t p) = SCHED_RR) l)).
Proof.
  induction l as [|p l IH]; [done|]. rewrite sumZ_cons, IH, filter_cons. unfold rt_se_rr_nr_running.
  destruct (decide (policy (t p) = SCHED_RR)) as [->|Hne]; [simpl; lia|].
  by rewrite (proj2 (Z.eqb_neq _ _) Hne).
Qed.

(** The tick of [c] may stop exactly if no deadline task is queued and either
    one [SCHED_RR] task is queued, or real-time tasks of which none is, or no
    real-time task and at most one task that is counted in [nr_running]. *)
Lemma can_stop_tick_spec c s :
  settled s ->
  sched_can_stop_tick (rqs s c) = true <->
  dl_nr_running (rqs s c) = 0 /\
  (length (rr_tasks c s) = 1%nat \/
   rr_tasks c s = [] /\ (concat (rt_queue_of c s) <> [] \/ nr_running (rqs s c) <= 1)).
Proof.
  intros [Hr _]. destruct (ri_base _ _ _ (rp_ok _ _ Hr c)) as [_ _ [Hn Hrr _ _ _] _ _ Hb].
  pose proof (ri_others _ _ _ (ri_base _ _ _ (rp_ok _ _ Hr c))) as Ho. rewrite rr_count in Hrr.
  fold (rt_queue_of c s) in *. fold (rr_tasks c s) in Hrr.
  pose proof (length_filter (fun p => policy (tasks s p) = SCHED_RR) (concat (rt_queue_of c s))) as Hle. fold (rr_tasks c s) in Hle.
  unfold sched_can_stop_tick. cbv zeta. destruct (Z.eqb_spec (dl_nr_running (rqs s c)) 0) as [->|Hd]; cbn [negb]; [|naive_solver].
  rewrite Hrr. destruct (rr_tasks c s) as [|p [|q l]] eqn:E; cbn [length] in *; [|naive_solver|].
  - cbn [Z.of_nat Z.eqb negb]. rewrite Hn, Z.sub_0_r, u32_small, s32_small by lia.
    destruct (concat (rt_queue_of c s)) as [|x l] eqn:El; cbn [length Z.of_nat Z.eqb negb].
    + destruct (Z.ltb_spec 1 (nr_running (rqs s c))); naive_solver lia.
    + split; [|done]. intros _. split; [done|]. right. split; [done|by left].
  - destruct (Z.eqb_spec (Z.of_nat (S (S (length l)))) 0); [lia|]. cbn [negb].
    destruct (Z.eqb_spec (Z.of_nat (S (S (length l)))) 1); [lia|]. split; [done|]. by intros [_ [?|[? _]]].
Qed.
End Works.

(** ** CPU 1 without a tick *)

Module Example.
Import Machine Steps.Example.

#[local] Existing Instances features limits topology cpupri0 others1 laws core_env switch_env switch_laws
  nobody no_deadline change_laws.

(** CPU 0 does the housekeeping. *)
#[local] Instance tick_env : TickEnv :=
  {| housekeeping_cpu := fun c _ => c =? 0; housekeeping_any_cpu := fun _ => 0;
     tick_nohz_tick_stopped_cpu := fun _ c => negb (c =? 0); tick_nohz_full_cpu := fun c => negb (c =? 0);
     tick_nohz_full_kick_cpu := fun _ => ret tt; domain_spans := fun _ => [[0; 1]] |}.

Definition no_works : tstate :=
  mk_tstate asleep (fun _ => mk_tick_work 0 TICK_SCHED_REMOTE_OFFLINE false) [] false.
Definition down : tick_system := mk_tick_system no_works (fun _ => false) [].

Definition tafter (m : M tstate unit) (t : tstate) : tstate :=
  match m t with Done (_, t') => t' | Crash _ => t end.

(** CPU 1 comes up, its work begins, and while it is under way the CPU goes
    down and comes up again. *)
Definition works1 : tstate := tafter (sched_tick_start 1) no_works.
Definition works2 : tstate := tafter (on_machine (remote_tick 1)) (works1 <| queued := [] |>).
Definition works3 : tstate := tafter (sched_tick_stop 1) works2.
Definition works4 : tstate := tafter (sched_tick_start 1) works3.
Definition busy1 : tick_system :=
  mk_tick_system works4 (<[1 := true]> (<[1 := false]> (<[1 := true]> (fun _ => false)))) [1].

Lemma down_all : all_down down.
Proof. split; try done. exact asleep_in_order. Qed.

Lemma tafter_done (m : M tstate unit) t :
  match m t with Done _ => true | Crash _ => false end = true -> m t = Done (tt, tafter m t).
Proof. unfold tafter. by destruct (m t) as [[[] t']|]. Qed.

Lemma busy1_reached : rtc tick_step down busy1.
Proof.
  eapply rtc_l; [eapply (tick_cpu_up 1); [done|apply (tafter_done (sched_tick_start 1)); by vm_compute]|].
  eapply rtc_l; [eapply (tick_work_begins 1 [] []); [by vm_compute|by apply not_elem_of_nil|]|].
  { change (tw_cpu (tick_work_cpu (tafter (sched_tick_start 1) no_works) 1)) with 1.
    apply (tafter_done (on_machine (remote_tick 1))). by vm_compute. }
  eapply rtc_l; [eapply (tick_cpu_down 1); [by vm_compute|apply (tafter_done (sched_tick_stop 1)); by vm_compute]|].
  eapply rtc_once, (tick_cpu_up 1); [by vm_compute|]. apply (tafter_done (sched_tick_start 1)). by vm_compute.
Qed.

Lemma busy1_facts : queued works4 = [] /\ up busy1 1 = true.
Proof. by vm_compute. Qed.

(** The work that is under way is queued again at its end. *)
Lemma tick_work_once_witness :
  warned works4 = false /\ exists t', remote_requeue 1 works4 = Done (tt, t') /\ queued t' = [1].
Proof.
  destruct (tick_work_once down busy1 down_all busy1_reached) as (_ & Hw & _ & _ & _ & Hb).
  destruct busy1_facts as [E1 E2]. split; [exact Hw|].
  destruct (Hb 1) as (t' & He & Hu); [by left|]. exists t'. split; [exact He|].
  rewrite E2 in Hu. change (ticks busy1) with works4 in Hu. by rewrite E1 in Hu.
Defined.

(** Two tasks of one TS level wait, and the tick of their CPU may stop: it does
    not count them, and no tick ends the slice of the first. *)
Definition two_ts : kstate :=
  after (do! set_task 5 (sleeper ts_sched_class SCHED_TS 120) in
         do! set_task 6 (sleeper ts_sched_class SCHED_TS 120) in
         do! try_to_wake_up 5 TASK_NORMAL 0 in
         try_to_wake_up 6 TASK_NORMAL 0) (machine0 <| rqs := fun c => rq0 (Z.abs c) |>).

Lemma ts_tick_stops :
  ts_queued 0 two_ts 5 /\ ts_queued 0 two_ts 6 /\ prio (tasks two_ts 5) = prio (tasks two_ts 6) /\
  sched_can_stop_tick (rqs two_ts 0) = true.
Proof.
  assert (E : concat (ts_q 0 two_ts) = [5; 6]) by by vm_compute.
  unfold ts_queued. rewrite E. split_and!; [by left|by right; left|by vm_compute|by vm_compute].
Qed.
End Example.
