(* ===== verification/Callers.v ===== *)
(** * More ways into the core ([kernel/sched/core.c])

    Preemption, yielding to one task, waiting for I/O, the counts that the
    rest of the kernel reads, and the normalising of real-time tasks.  Locks,
    the preemption count and the interrupt flag are not kept, so what asks for
    them is a parameter. *)

From S2P Require Import Prelude Sched Ts RtBandwidth Rt RtProps SchedClass ClassProps.
From S2P Require Import Frames CoreInv SetSched SetProps Wake CoreProps Switch SwitchProps InOrder Stages Requeue Steps.

(** The state of preemption and interrupts, the method [yield_to_task], which
    neither the real-time nor the TS class has, the block layer, [deadline.c],
    and the threads in the order of [for_each_process_thread]. *)
Class CallerEnv : Type := {
  preemptible : kstate -> bool;
  should_resched : kstate -> bool;
  preempt_count : kstate -> Z;
  irqs_disabled : kstate -> bool;
  yield_to_task : sched_class_t -> option (cpu -> task -> bool -> K bool);
  blk_schedule_flush_plug : task -> K unit;
  dl_cpuset_cpumask_can_shrink : list cpu -> list cpu -> Z;
  dl_task_can_attach : task -> list cpu -> K Z;
  threads : kstate -> list task
}.

Section Callers.
Context `{Hfeat : SchedFeat} `{Hlim : Rlimits} `{Hpri : Cpupri} `{Htop : Topology}.
Context `{Hoth : OtherClasses} `{Henv : CoreEnv} `{Hsw : SwitchEnv} `{Hcall : Caller} `{Hdl : Deadline}.
Context `{Hcal : CallerEnv}.
Implicit Types (c i : cpu) (p x : task) (s : kstate).

(** ** Preemption *)

(** [n] bounds the rounds. *)
Fixpoint preempt_schedule_common (n fuel : nat) : K unit :=
  match n with
  | O => crash OutOfFuel
  | S n =>
      do! __schedule fuel true in
      let! s := gets (fun s => s) in
      if need_resched s then preempt_schedule_common n fuel else ret tt
  end.

Definition preempt_schedule (n fuel : nat) : K unit :=
  let! s := gets (fun s => s) in
  if negb (preemptible s) then ret tt else preempt_schedule_common n fuel.

Definition preempt_schedule_irq (n fuel : nat) : K unit :=
  let! s := gets (fun s => s) in
  do! bug_on (negb (preempt_count s =? 0) || negb (irqs_disabled s)) in
  preempt_schedule_common n fuel.

Definition _cond_resched (n fuel : nat) : K Z :=
  let! s := gets (fun s => s) in
  if should_resched s then do! preempt_schedule_common n fuel in ret 1 else ret 0.

(** ** Yielding *)

Definition yield (n fuel : nat) : K unit :=
  let! me := gets current_task in
  do! set_task me (fun t => t <| state := TASK_RUNNING |>) in
  do_sched_yield n fuel.

(** The CPU of [p] does not change between the two looks at it, so that there
    is no second round. *)
Definition yield_to (n fuel : nat) (p : task) (preempt : bool) : K Z :=
  let! s := gets (fun s => s) in
  let me := current_task s in
  let c := this_cpu s in
  let d := task_cpu (tasks s p) in
  if (nr_running (rqs s c) =? 1) && (nr_running (rqs s d) =? 1) then ret (- ESRCH) else
  match yield_to_task (sched_class (tasks s me)) with
  | None => ret 0
  | Some method =>
      if negb (bool_decide (sched_class (tasks s me) = sched_class (tasks s p))) then ret 0 else
      if task_running (tasks s p) || negb (state (tasks s p) =? 0) then ret 0 else
      let! yielded := method c p preempt in
      if yielded then
        do! when (preempt && negb (c =? d)) (resched_curr d) in
        do! schedule n fuel in
        ret 1
      else ret 0
  end.

(** ** Waiting for I/O *)

Definition io_schedule_prepare : K Z :=
  let! me := gets current_task in
  let! t := get_task me in
  let old_iowait := in_iowait t in
  do! set_task me (fun t => t <| in_iowait := 1 |>) in
  do! blk_schedule_flush_plug me in
  ret old_iowait.

Definition io_schedule_finish (token : Z) : K unit :=
  let! me := gets current_task in
  set_task me (fun t => t <| in_iowait := token |>).

Definition io_schedule (n fuel : nat) : K unit :=
  let! token := io_schedule_prepare in
  do! schedule n fuel in
  io_schedule_finish token.

(** ** Counts *)

Definition nr_running_total s : Z := u64 (sumZ (fun i => nr_running (rqs s i)) (online_cpus s)).
Definition single_task_running s : bool := nr_running (rqs s (this_cpu s)) =? 1.
Definition nr_context_switches s : Z := u64 (sumZ (fun i => nr_switches (rqs s i)) (possible_cpus s)).
Definition nr_iowait_total s : Z := u64 (sumZ (fun i => nr_iowait (rqs s i)) (possible_cpus s)).
Definition nr_iowait_cpu s c : Z := u64 (nr_iowait (rqs s c)).
Definition get_iowait_load s : Z * Z :=
  (u64 (nr_iowait (rqs s (this_cpu s))), rq_load_weight (rqs s (this_cpu s))).

(** ** Real-time tasks made normal *)

Definition normal_attr : sched_attr := mk_sched_attr 0 SCHED_NORMAL 0 0 0 0 0 0.

Definition normalize_task (p : task) : K unit :=
  let! t := get_task p in
  if has (flags t) PF_KTHREAD then ret tt else
  do! set_task p (fun t => t <| se ::= fun e => e <| exec_start := 0 |> |>) in
  if negb (dl_task t) && negb (rt_task t) then
    when (task_nice t <? 0) (set_user_nice p 0)
  else
    do! __sched_setscheduler p normal_attr false false in
    ret tt.

Definition normalize_rt_tasks : K unit :=
  let! s := gets (fun s => s) in
  foreach (threads s) normalize_task.

(** ** Tasks shown and moved between cpusets *)

Definition state_filter_match (state_filter : Z) (t : task_struct) : bool :=
  if state_filter =? 0 then true else
  if negb (has (state t) state_filter) then false else
  if (state_filter =? TASK_UNINTERRUPTIBLE) && (state t =? TASK_IDLE) then false else true.

Definition cpuset_cpumask_can_shrink (cur trial : list cpu) : Z :=
  match cur with
  | [] => 1
  | _ => dl_cpuset_cpumask_can_shrink cur trial
  end.

Definition task_can_attach (p : task) (cs_cpus_allowed : list cpu) : K Z :=
  let! s := gets (fun s => s) in
  if has (flags (tasks s p)) PF_NO_SETAFFINITY then ret (- EINVAL) else
  if dl_task (tasks s p) && bool_decide (cpumask_and (span (rd s)) cs_cpus_allowed = [])
  then dl_task_can_attach p cs_cpus_allowed else ret 0.

(** ** What they keep *)

Context {Hlaws : OtherLaws} {Hswl : SwitchLaws}.

(** Preemption is a loop of switches that take no task off its queue. *)
Lemma preempt_in_order n fuel : forall s s',
  in_order s -> preempt_schedule_common n (S fuel) s = Done (tt, s') -> in_order s'.
Proof.
  induction n as [|n IH]; intros s s' Ho He; [done|]. cbn [preempt_schedule_common] in He.
  apply bind_inv in He as ([] & s1 & H1 & H2).
  destruct (wp_elim _ _ _ _ _ (schedule_run fuel true s Ho) H1) as [Ho1 _].
  rewrite bind_gets in H2. destruct (need_resched s1); [by apply (IH s1)|]. by injection H2 as <-.
Qed.

Lemma cond_resched_in_order n fuel s r s' :
  in_order s -> _cond_resched n (S fuel) s = Done (r, s') -> in_order s' /\ (r = 0 -> s' = s).
Proof.
  intros Ho. unfold _cond_resched. rewrite bind_gets. destruct (should_resched s).
  - intros ([] & s1 & H1 & H2)%bind_inv. injection H2 as <- <-. split; [by eapply preempt_in_order|done].
  - intros [= <- <-]. done.
Qed.

(** A task without the method never gives its CPU to another: nothing happens,
    and the result says whether there was any other task. *)
Lemma yield_to_refused n fuel p preempt s :
  yield_to_task (sched_class (tasks s (current_task s))) = None ->
  exists r, yield_to n fuel p preempt s = Done (r, s) /\ (r = 0 \/ r = - ESRCH).
Proof.
  intros Hn. unfold yield_to. rewrite bind_gets. cbv zeta. destruct (_ && _); [by exists (- ESRCH); auto|].
  rewrite Hn. by exists 0; auto.
Qed.

(** Waiting for I/O marks the running task until the token is given back. *)
Lemma io_schedule_token s r s' :
  (forall p s0, wp (blk_schedule_flush_plug p) (fun _ s1 => s1 = s0) s0) ->
  io_schedule_prepare s = Done (r, s') ->
  in_iowait (tasks s' (current_task s)) = 1 /\
  forall s'', io_schedule_finish r s' = Done (tt, s'') -> in_iowait (tasks s'' (current_task s)) = in_iowait (tasks s (current_task s)).
Proof.
  intros Hb. set (me := current_task s).
  assert (H : wp io_schedule_prepare (fun r s' => r = in_iowait (tasks s me) /\
    s' = s <| tasks ::= alter (fun t => t <| in_iowait := 1 |>) me |>) s).
  { unfold io_schedule_prepare, get_task, set_task. wgo. wcall Hb. intros [] s1 ->. by wgo. }
  intros He. apply (wp_elim _ _ _ _ _ H) in He as [-> ->]. split; [simpl; by rewrite fn_lookup_alter|].
  intros s''. unfold io_schedule_finish. rewrite bind_gets. intros [= <-]. simpl.
  change (current_task _) with me. by rewrite !fn_lookup_alter.
Qed.
End Callers.
