(* ===== verification/Hotplug.v ===== *)
(** * CPUs that come and go ([kernel/sched/core.c])

    Moving every task off a CPU that dies, the two ends of the hotplug
    state machine of a CPU ([sched_cpu_activate], [sched_cpu_deactivate]), and
    the moves that NUMA balancing asks for. *)

From S2P Require Import Prelude Sched Ts RtBandwidth Rt SchedClass SetSched Wake Switch.

(** ** State

    What hotplug has beside the run queues.  [static_key_slow_inc] counts, so
    that [sched_smt_present] is a number; [cpuhp_tasks_frozen] belongs to
    [kernel/cpu.c].  Every [rq->rd] is the root domain, as in [kstate]. *)
Record hstate : Type := mk_hstate {
  cpus : kstate;
  num_cpus_frozen : Z;
  cpuhp_tasks_frozen : bool;
  sched_smt_present : Z;
  sched_smp_initialized : bool;
  calc_load_tasks : Z;
  calc_load_update : Z;
  rq_calc_load_update : cpu -> Z;  (** [rq->calc_load_update] *)
  numa_preferred_nid : task -> Z
}.

Definition eta_hstate (r : hstate) : hstate :=
  mk_hstate (cpus r) (num_cpus_frozen r) (cpuhp_tasks_frozen r) (sched_smt_present r) (sched_smp_initialized r)
    (calc_load_tasks r) (calc_load_update r) (rq_calc_load_update r) (numa_preferred_nid r).
#[export] Instance upd_cpus : Field cpus := ltac:(solve_field eta_hstate).
#[export] Instance upd_num_cpus_frozen : Field num_cpus_frozen := ltac:(solve_field eta_hstate).
#[export] Instance upd_sched_smt_present : Field sched_smt_present := ltac:(solve_field eta_hstate).
#[export] Instance upd_sched_smp_initialized : Field sched_smp_initialized := ltac:(solve_field eta_hstate).
#[export] Instance upd_calc_load_tasks : Field calc_load_tasks := ltac:(solve_field eta_hstate).
#[export] Instance upd_calc_load_update : Field calc_load_update := ltac:(solve_field eta_hstate).
#[export] Instance upd_rq_calc_load_update : Field rq_calc_load_update := ltac:(solve_field eta_hstate).
#[export] Instance upd_numa_preferred_nid : Field numa_preferred_nid := ltac:(solve_field eta_hstate).

Abbreviation H := (M hstate).

(** A computation of the scheduler. *)
Definition sched {A} (m : K A) : H A := fun s =>
  match m (cpus s) with
  | Done (a, k) => Done (a, s <| cpus := k |>)
  | Crash f => Crash f
  end.

(** ** Parameters

    [fake_task] is the address of the variable of that name.  The rest is in
    other files: cpusets, [topology.c], [fair.c], [deadline.c], [loadavg.c],
    [stop_machine.c], and the mask of the threads of a core, which changes as
    CPUs come and go. *)
Class HotplugEnv : Type := {
  fake_task : task;
  cpu_smt_mask : kstate -> cpu -> list cpu;
  partition_sched_domains : H unit;
  cpuset_force_rebuild : H unit;
  cpuset_update_active_cpus : H unit;
  dl_cpu_busy : cpu -> hstate -> bool;
  sched_domains_numa_masks_set : cpu -> H unit;
  sched_domains_numa_masks_clear : cpu -> H unit;
  update_max_interval : H unit;
  nohz_balance_exit_idle : cpu -> H unit;
  calc_load_fold_active : cpu -> Z -> H Z;
  sched_init_numa : H unit;
  sched_init_domains : list cpu -> H unit;
  sched_init_granularity : H unit;
  init_sched_rt_class : H unit;
  init_sched_dl_class : H unit;
  housekeeping_cpumask : list cpu;
  stop_two_cpus : cpu -> cpu -> K Z -> K Z
}.

Section Hotplug.
Context `{Hfeat : SchedFeat} `{Hlim : Rlimits} `{Hpri : Cpupri} `{Htop : Topology}.
Context `{Hoth : OtherClasses} `{Henv : CoreEnv} `{Hcall : Caller} `{Hdl : Deadline}.
Context `{Hsw : SwitchEnv} `{Hhp : HotplugEnv}.

(** ** Emptying a dead CPU

    [n] bounds the retries of [pick_next_task], [fuel] the rounds of the
    loop. *)
Fixpoint migrate_loop (n fuel : nat) (dead : cpu) : K unit :=
  match fuel with
  | O => crash OutOfFuel
  | S fuel =>
      let! r := get_rq dead in
      if nr_running r =? 1 then ret tt else
      let! next := pick_next_task n dead fake_task in
      do! put_prev_task dead next in
      let! t := get_task next in
      if negb (task_cpu t =? dead) || negb (task_on_rq_queued t) then migrate_loop n fuel dead else
      let! dest_cpu := select_fallback_rq dead next in
      let! _ := __migrate_task dead next dest_cpu in
      migrate_loop n fuel dead
  end.

Definition migrate_tasks (n fuel : nat) (dead : cpu) : K unit :=
  let! r := get_rq dead in
  do! set_rq dead (fun r => r <| stop := None |>) in
  do! update_rq_clock dead in
  do! migrate_loop n fuel dead in
  set_rq dead (fun x => x <| stop := stop r |>).

(** The part of [sched_cpu_dying] under the lock of the run queue. *)
Definition empty_cpu (n fuel : nat) (c : cpu) : K unit :=
  let! s := gets (fun s => s) in
  do! bug_on (negb (cpumask_test_cpu c (span (rd s)))) in
  do! set_rq_offline c in
  do! migrate_tasks n fuel c in
  let! r := get_rq c in
  bug_on (negb (nr_running r =? 1)).

Definition calc_load_migrate (c : cpu) : H unit :=
  let! delta := calc_load_fold_active c 1 in
  when (negb (delta =? 0)) (modify (fun s => s <| calc_load_tasks ::= fun n => s64 (n + delta) |>)).

(** [sched_tick_stop] and [hrtick_clear] do nothing without [NO_HZ_FULL] and
    [SCHED_HRTICK]. *)
Definition sched_cpu_dying (n fuel : nat) (c : cpu) : H Z :=
  do! sched sched_ttwu_pending in
  do! sched (empty_cpu n fuel c) in
  do! calc_load_migrate c in
  do! update_max_interval in
  do! nohz_balance_exit_idle c in
  ret 0.

(** ** Active CPUs *)

Definition cpumask_weight (m : list cpu) : Z := Z.of_nat (length m).

Definition set_cpu_active (c : cpu) (active : bool) : H unit :=
  modify (fun s => s <| cpus ::= fun k => k <| active_cpus ::=
    (if active then cpumask_set_cpu c else cpumask_clear_cpu c) |> |>).

Definition cpuset_cpu_active : H unit :=
  let! s := gets (fun s => s) in
  if cpuhp_tasks_frozen s then
    do! partition_sched_domains in
    do! modify (fun s => s <| num_cpus_frozen ::= fun n => s32 (n - 1) |>) in
    let! s := gets (fun s => s) in
    if negb (num_cpus_frozen s =? 0) then ret tt else
    do! cpuset_force_rebuild in
    cpuset_update_active_cpus
  else cpuset_update_active_cpus.

Definition cpuset_cpu_inactive (c : cpu) : H Z :=
  let! s := gets (fun s => s) in
  if negb (cpuhp_tasks_frozen s) then
    if dl_cpu_busy c s then ret (- EBUSY) else
    do! cpuset_update_active_cpus in ret 0
  else
    do! modify (fun s => s <| num_cpus_frozen ::= fun n => s32 (n + 1) |>) in
    do! partition_sched_domains in ret 0.

Definition sched_cpu_activate (c : cpu) : H Z :=
  let! s := gets (fun s => s) in
  do! when (cpumask_weight (cpu_smt_mask (cpus s) c) =? 2)
    (modify (fun s => s <| sched_smt_present ::= fun n => s32 (n + 1) |>)) in
  do! set_cpu_active c true in
  let! s := gets (fun s => s) in
  do! when (sched_smp_initialized s)
    (do! sched_domains_numa_masks_set c in cpuset_cpu_active) in
  do! sched (let! s := gets (fun s => s) in
             do! bug_on (negb (cpumask_test_cpu c (span (rd s)))) in
             set_rq_online c) in
  do! update_max_interval in
  ret 0.

Definition sched_cpu_deactivate (c : cpu) : H Z :=
  do! set_cpu_active c false in
  let! s := gets (fun s => s) in
  do! when (cpumask_weight (cpu_smt_mask (cpus s) c) =? 2)
    (modify (fun s => s <| sched_smt_present ::= fun n => s32 (n - 1) |>)) in
  let! s := gets (fun s => s) in
  if negb (sched_smp_initialized s) then ret 0 else
  let! r := cpuset_cpu_inactive c in
  if negb (r =? 0) then do! set_cpu_active c true in ret r else
  do! sched_domains_numa_masks_clear c in
  ret 0.

Definition sched_rq_cpu_starting (c : cpu) : H unit :=
  do! modify (fun s => s <| rq_calc_load_update ::= alter (fun _ => calc_load_update s) c |>) in
  update_max_interval.

(** [sched_tick_start] does nothing without [NO_HZ_FULL]. *)
Definition sched_cpu_starting (c : cpu) : H Z :=
  do! sched_rq_cpu_starting c in ret 0.

Definition sched_init_smp : H unit :=
  do! sched_init_numa in
  let! s := gets (fun s => s) in
  do! sched_init_domains (active_cpus (cpus s)) in
  let! s := gets (fun s => s) in
  let! r := sched (set_cpus_allowed_ptr (current_task (cpus s)) housekeeping_cpumask) in
  do! bug_on (r <? 0) in
  do! sched_init_granularity in
  do! init_sched_rt_class in
  do! init_sched_dl_class in
  modify (fun s => s <| sched_smp_initialized := true |>).

Definition migration_init : H Z :=
  let! s := gets (fun s => s) in
  do! sched_rq_cpu_starting (this_cpu (cpus s)) in ret 0.

(** ** Moves for NUMA balancing *)

Definition __migrate_swap_task (p : task) (c : cpu) : K unit :=
  let! t := get_task p in
  if task_on_rq_queued t then
    let src := task_cpu t in
    do! set_task p (fun t => t <| on_rq := TASK_ON_RQ_MIGRATING |>) in
    do! deactivate_task src p 0 in
    do! set_task_cpu p c in
    do! activate_task c p 0 in
    do! set_task p (fun t => t <| on_rq := TASK_ON_RQ_QUEUED |>) in
    check_preempt_curr c p 0
  else set_task p (fun t => t <| wake_cpu := c |>).

Record migration_swap_arg : Type := mk_migration_swap_arg {
  src_task : task;
  dst_task : task;
  src_cpu : cpu;
  dst_cpu : cpu
}.

Definition migrate_swap_stop (arg : migration_swap_arg) : K Z :=
  let! s := gets (fun s => s) in
  if negb (cpumask_test_cpu (src_cpu arg) (active_cpus s)) || negb (cpumask_test_cpu (dst_cpu arg) (active_cpus s))
  then ret (- EAGAIN) else
  if negb (task_cpu (tasks s (dst_task arg)) =? dst_cpu arg) then ret (- EAGAIN) else
  if negb (task_cpu (tasks s (src_task arg)) =? src_cpu arg) then ret (- EAGAIN) else
  if negb (cpumask_test_cpu (dst_cpu arg) (cpus_allowed (tasks s (src_task arg)))) then ret (- EAGAIN) else
  if negb (cpumask_test_cpu (src_cpu arg) (cpus_allowed (tasks s (dst_task arg)))) then ret (- EAGAIN) else
  do! __migrate_swap_task (src_task arg) (dst_cpu arg) in
  do! __migrate_swap_task (dst_task arg) (src_cpu arg) in
  ret 0.

Definition migrate_swap (cur p : task) (target_cpu curr_cpu : cpu) : K Z :=
  let arg := mk_migration_swap_arg cur p curr_cpu target_cpu in
  let! s := gets (fun s => s) in
  if src_cpu arg =? dst_cpu arg then ret (- EINVAL) else
  if negb (cpumask_test_cpu (src_cpu arg) (active_cpus s)) || negb (cpumask_test_cpu (dst_cpu arg) (active_cpus s))
  then ret (- EINVAL) else
  if negb (cpumask_test_cpu (dst_cpu arg) (cpus_allowed (tasks s (src_task arg)))) then ret (- EINVAL) else
  if negb (cpumask_test_cpu (src_cpu arg) (cpus_allowed (tasks s (dst_task arg)))) then ret (- EINVAL) else
  stop_two_cpus (dst_cpu arg) (src_cpu arg) (migrate_swap_stop arg).

Definition migrate_task_to (p : task) (target_cpu : cpu) : K Z :=
  let! t := get_task p in
  let curr_cpu := task_cpu t in
  if curr_cpu =? target_cpu then ret 0 else
  if negb (cpumask_test_cpu target_cpu (cpus_allowed t)) then ret (- EINVAL) else
  stop_one_cpu curr_cpu (migration_cpu_stop p target_cpu).

Definition sched_setnuma (p : task) (nid : Z) : H unit :=
  let! s := gets (fun s => cpus s) in
  let c := task_cpu (tasks s p) in
  let queued := task_on_rq_queued (tasks s p) in
  let running := task_current (rqs s c) p in
  do! sched (when queued (dequeue_task c p DEQUEUE_SAVE)) in
  do! sched (when running (put_prev_task c p)) in
  do! modify (fun s => s <| numa_preferred_nid ::= alter (fun _ => nid) p |>) in
  do! sched (when queued (enqueue_task c p (Z.lor ENQUEUE_RESTORE ENQUEUE_NOCLOCK))) in
  sched (when running (set_curr_task c p)).
End Hotplug.
