(* ===== verification/HotplugProps.v ===== *)
(** * CPUs that come and go: properties

    [migrate_tasks] on a CPU that dies: it comes to an end, every real-time
    task gets a CPU it may run on, and the TS tasks stay behind. *)

From S2P Require Import Prelude Sched Ts RtBandwidth Rt RtProps SchedClass ClassProps.
From S2P Require Import Frames CoreInv SetSched Wake CoreProps Switch SwitchProps InOrder Moves Steps Hotplug.

(** ** A CPU that dies *)

Section Dying.
Context `{Hfeat : SchedFeat} `{Hlim : Rlimits} `{Hpri : Cpupri} `{Htop : Topology}.
Context `{Hoth : OtherClasses} {Hlaws : OtherLaws} `{Henv : CoreEnv} `{Hhp : HotplugEnv}.
Implicit Types (c i : cpu) (p x : task) (s : kstate).

(** Inside [stop_machine], with the stop task running on [c], which is neither
    active nor online any more.  Only real-time tasks and that task are counted
    in [rq->nr_running], and each of them may run elsewhere. *)
Record dying c s : Prop := {
  dy_settled : settled s;
  dy_curr : curr_ok s;
  dy_stop : sched_class (tasks s (curr (rqs s c))) = stop_sched_class;
  dy_others : others (rqs s c) = 1;
  dy_flows : flows c s;
  dy_dl : dl_nr_running (rqs s c) = 0;
  dy_inactive : c ∉ active_cpus s /\ c ∉ online_cpus s;
  dy_active : forall i, i ∈ active_cpus s -> i ∈ online_cpus s;
  dy_allowed : forall x, rt_task_queued c s x -> exists i, is_cpu_allowed s x i = true;
  dy_fake : sched_class (tasks s fake_task) = fake_sched_class /\ prio (tasks s fake_task) = MAX_PRIO + 1
}.

(** Only real-time tasks have left [c], each for a CPU it may run on. *)
Record evacuates c s s' : Prop := {
  ev_settles : settles s s';
  ev_eases : eases c s s';
  ev_moved : forall x, mine s x -> task_cpu (tasks s' x) = task_cpu (tasks s x) \/
    rt_task_queued c s x /\ is_cpu_allowed s x (task_cpu (tasks s' x)) = true
}.

Lemma allowed_keep s s' x i : keep s s' -> mine s x -> is_cpu_allowed s' x i = is_cpu_allowed s x i.
Proof.
  intros Hk Hm. pose proof (kp_task _ _ Hk x Hm) as Ht. unfold is_cpu_allowed, is_per_cpu_kthread.
  by rewrite (kp_online _ _ Hk), (kp_active _ _ Hk), (st_cpus _ _ Ht), (st_flags _ _ Ht), (st_nr_cpus _ _ Ht).
Qed.

Lemma dying_elsewhere c s x i : dying c s -> is_cpu_allowed s x i = true -> i <> c.
Proof.
  intros Hd Ha ->. destruct (dy_inactive _ _ Hd) as [H1 H2]. apply andb_true_iff in Ha as [_ Ha].
  apply bool_decide_eq_true in Ha. by destruct (is_per_cpu_kthread _).
Qed.

Lemma queued_rt c s x : settled s -> rt_task_queued c s x ->
  runnable s x = true /\ sched_class (tasks s x) = rt_sched_class /\ task_cpu (tasks s x) = c.
Proof. intros Hs. by apply (rp_link _ _ (proj1 Hs)). Qed.

(** What is left on [c] was there before. *)
Lemma evacuates_queued c s s' x :
  dying c s -> evacuates c s s' -> rt_task_queued c s' x -> rt_task_queued c s x.
Proof.
  intros Hd [(S1 & S2 & _) _ Hmv] (H1 & H2 & H3)%queued_rt; [|done]. rewrite (kp_class _ _ S2) in H2.
  destruct (Hmv x) as [E|[? _]]; [by left| |done]. apply (rp_link _ _ (proj1 (dy_settled _ _ Hd))).
  rewrite <- (runnable_keep s s') by (done || by left). by rewrite <- E.
Qed.

Lemma dying_evacuates c s s' : dying c s -> evacuates c s s' -> dying c s'.
Proof.
  intros Hd Hev. pose proof Hev as [(S1 & S2 & S3) [E1 E2 E3] _].
  split; [done|by apply S3, Hd| | |by apply E1, Hd| | | | |].
  - by rewrite (kp_curr _ _ S2), (kp_class _ _ S2), (dy_stop _ _ Hd).
  - by rewrite E2, (dy_others _ _ Hd).
  - by rewrite (kp_dl _ _ S2), (dy_dl _ _ Hd).
  - rewrite (kp_active _ _ S2), (kp_online _ _ S2). apply Hd.
  - rewrite (kp_active _ _ S2), (kp_online _ _ S2). apply Hd.
  - intros x Hx. apply (evacuates_queued c s s' x Hd Hev) in Hx. destruct (dy_allowed _ _ Hd x Hx) as [i Hi]. exists i.
    apply (queued_rt c s x (dy_settled _ _ Hd)) in Hx as (_ & Hcl & _). by rewrite (allowed_keep s s') by (done || by left).
  - rewrite (kp_class _ _ S2), E3. apply Hd.
Qed.

Lemma evacuates_trans c s1 s2 s3 : dying c s1 -> evacuates c s1 s2 -> evacuates c s2 s3 -> evacuates c s1 s3.
Proof.
  intros Hd A B. pose proof A as [A1 A2 A3]. pose proof B as [B1 B2 B3]. split; [by etrans|by etrans|]. intros x Hx.
  destruct (B3 x) as [->|[H1 H2]]; [apply (keep_mine s1 s2); [apply A1|done]|by apply A3|right]. apply (evacuates_queued c s1 s2 x Hd A) in H1. split; [done|].
  rewrite <- (allowed_keep s1 s2); [done|apply A1|]. by left; apply (queued_rt c s1 x (dy_settled _ _ Hd)).
Qed.

(** Picking after the fake task: the real-time class has one, and pulls none. *)
Lemma dying_no_stop c s : dying c s -> stop (rqs s c) = None -> no_stop_dl c s.
Proof. intros Hd Hst. split; [apply Hd|by rewrite Hst]. Qed.

Lemma hp_curr_bound c s : rt_ok c s -> hp_curr (rq_rt (rqs s c)) <= 100.
Proof.
  intros Hok. pose proof (ri_base _ _ _ Hok) as Hb. rewrite (ri_hp _ _ _ Hb).
  destruct (ffb_spec _ 100 (ra_delim _ _ _ (ri_array _ _ _ Hb))) as (k & -> & Hk & _). lia.
Qed.

Lemma pick_rt_dying c s :
  dying c s -> rt_nr_running (rq_rt (rqs s c)) <> 0 ->
  wp (pick_next_task_rt c fake_task) (fun r s' => exists p, r = PICKED p /\ rt_task_queued c s p /\
    put (fun _ => False) c s s' /\ eases c s s') s.
Proof.
  intros Hd Hnr. destruct (dy_fake _ _ Hd) as [Hfc Hfp].
  pose proof (rp_ok _ _ (proj1 (dy_settled _ _ Hd)) c) as Hok. pose proof (hp_curr_bound c s Hok) as Hcu.
  unfold pick_next_task_rt, need_pull_rt_task, get_rt, get_task. wgo.
  rewrite (proj2 (Z.ltb_ge (prio (tasks s fake_task)) _)) by (rewrite Hfp; unfold MAX_PRIO; lia). cbn [when].
  wstep. do 2 wstep. cbn [andb]. wgo. rewrite Hfc. rewrite bool_decide_false by done. cbn [when]. do 3 wstep.
  pose proof (proj2 (dy_flows _ _ Hd) Hnr) as Hq. rewrite (proj2 (Z.eqb_neq _ _) Hq).
  wstep. unfold put_prev_task, get_task. do 2 wstep. rewrite Hfc. cbn [put_prev_op class_put_prev].
  apply (wp_intro _ _ _ tt s eq_refl).
  destruct (queue_nonempty c s (dy_settled _ _ Hd) Hq) as [x Hx].
  eapply wp_mono; [apply (wp_frames kept); [apply pick_chain_kept|]; apply (wp_frames (same_load c)); [apply pick_chain_load|];
    apply (wp_frames same_prio); [apply pick_chain_prio|]; apply (pick_rt_stays (fun _ => False)); [exact Hok|]|].
  { intros E. unfold rt_task_queued in Hx. rewrite E in Hx. by apply not_elem_of_nil in Hx. }
  intros r s' [[[[St (p & -> & Hp & _)] Hpr] Hl] Hk]. exists p. split_and!; [done|done| |by apply same_load_eases].
  apply stays_put; [apply Hd|done|done].
Qed.

Lemma pick_dying n c s :
  dying c s -> stop (rqs s c) = None -> rt_nr_running (rq_rt (rqs s c)) <> 0 ->
  wp (pick_next_task (S n) c fake_task) (fun p s' => rt_task_queued c s p /\
    put (fun _ => False) c s s' /\ eases c s s') s.
Proof.
  intros Hd Hst Hnr. pose proof (dying_no_stop c s Hd Hst) as Hno.
  assert (Hof : only_fair s c fake_task = false).
  { unfold only_fair. by rewrite (proj1 (dy_fake _ _ Hd)). }
  unfold pick_next_task. do 2 wstep. rewrite Hof. cbn [pick_again].
  wstep. unfold sched_classes. cbn [pick_from class_of m_pick_next_task rt_class].
  wstep. apply (wp_intro _ _ _ _ _ (ol_stop c fake_task s Hno)).
  wstep. apply (wp_intro _ _ _ _ _ (ol_dl c fake_task s Hno)).
  wstep. wcall pick_rt_dying; [done|done|]. intros r s' (p & -> & H). cbv iota. by wgo.
Qed.

(** Nothing leaves by what only makes a task pushable that does not run. *)
Lemma put_evacuates (b : task -> Prop) c s s' :
  dying c s -> put b c s s' -> ~ b (curr (rqs s c)) -> eases c s s' -> evacuates c s s'.
Proof.
  intros Hd Hp Hb He. pose proof Hp as [P1 P2 P3 P4]. split; [|done|intros x Hx; left; auto].
  split_and!; [done|done|]. intros [Hc Hr]. split; [|by eapply put_running].
  intros i. rewrite (kp_curr _ _ P2). intros [H|[-> H]]%P4; [by apply (Hc i)|done].
Qed.

Lemma put_prev_dying c p s :
  dying c s -> rt_task_queued c s p -> wp (put_prev_task c p) (fun _ s' => evacuates c s s' /\ rt_task_queued c s' p) s.
Proof.
  intros Hd Hq. destruct (queued_rt c s p (dy_settled _ _ Hd) Hq) as (Hr & Hcl & Hcpu).
  pose proof (put_prev_put c p s (dy_settled _ _ Hd) ltac:(left; by rewrite Hcl) ltac:(done)) as Hp.
  apply wp_done in Hp as ([] & s' & He & Hp). apply (wp_intro _ _ _ _ _ He).
  split; [|by apply (put_queued _ _ _ _ c p (dy_settled _ _ Hd) Hp)]. eapply put_evacuates; [done|exact Hp| |].
  - intros ->. by rewrite (dy_stop _ _ Hd) in Hcl.
  - unfold put_prev_task, get_task in He. rewrite bind_gets, Hcl in He. cbn [put_prev_op class_put_prev] in He.
    unfold put_prev_task_rt in He. apply bind_inv in He as ([] & s1 & H1 & H2).
    rewrite update_curr_foreign in H1 by by rewrite (dy_stop _ _ Hd). injection H1 as <-.
    unfold get_task in H2. rewrite bind_gets in H2. apply same_load_eases.
    + by eapply (frames_when _ _ _ (enqueue_pushable_load c c p)) in H2.
    + by eapply (frames_when _ _ _ (proj1 (proj2 (proj2 (proj2 (rt_moves_prio c p 0)))))) in H2.
Qed.

(** One task: it is put back, a CPU is found for it, and it is moved there. *)
Lemma migrate_dying c p s :
  dying c s -> rt_task_queued c s p ->
  wp (let! dest_cpu := select_fallback_rq c p in __migrate_task c p dest_cpu)
     (fun _ s' => evacuates c s s' /\ ~ rt_task_queued c s' p) s.
Proof.
  intros Hd Hq. destruct (queued_rt c s p (dy_settled _ _ Hd) Hq) as (Hr & Hcl & Hcpu).
  assert (Hmi : mine s p) by by left.
  destruct (select_fallback_allowed c p s (dy_active _ _ Hd) (dy_allowed _ _ Hd p Hq)) as (i & He & Hi).
  wstep. apply (wp_intro _ _ _ _ _ He). unfold __migrate_task. do 2 wstep. rewrite Hi. cbn [negb].
  wstep. eapply wp_mono; [apply (wp_frames (same_load c)); [apply clock_load|]; apply (wp_frames same_prio);
    [apply clock_prio|]; apply (wp_total calm); [total_tac|apply update_rq_clock_calm]|].
  intros [] s1 [[C1 P1] L1].
  assert (E1 : evacuates c s s1).
  { eapply (put_evacuates (fun _ => False)); [done|apply calm_put; [apply Hd|done]|intros []|by apply same_load_eases]. }
  pose proof (dying_evacuates c s s1 Hd E1) as D1.
  assert (Q1 : rt_task_queued c s1 p).
  { apply (rp_link _ _ (proj1 (dy_settled _ _ D1))). rewrite (runnable_keep s s1), (kp_class _ _ (proj2 C1)), (calm_cpu _ _ p C1)
      by (done || apply C1). done. }
  destruct (queued_rt c s1 p (dy_settled _ _ D1) Q1) as (Hr1 & Hcl1 & Hcpu1).
  pose proof (dying_elsewhere c s p i Hd Hi) as Hne.
  eapply wp_mono; [apply (move_queued_task_run c i p s1); [apply D1|done|by left|done|]|].
  { intros j <-. destruct (decide (j = c)) as [->|Hj]; [by rewrite (dy_stop _ _ D1) in Hcl1|].
    pose proof (proj2 (dy_curr _ _ D1) j ltac:(by left)). congruence. }
  intros r s2 [[[S2 C2 R2] Ea] ->].
  assert (E2 : evacuates c s s2).
  { apply (evacuates_trans c s s1 s2 Hd E1). split; [done|apply Ea; [done|by rewrite (dy_stop _ _ D1)|done]|].
    intros x Hx. destruct (decide (x = p)) as [->|Hxp]; [right|left; auto]. split; [done|].
    rewrite C2. by rewrite (allowed_keep s s1) by (done || apply C1). }
  split; [exact E2|]. intros (_ & _ & Hc2)%queued_rt; [|apply S2]. by rewrite C2 in Hc2.
Qed.

(** *** The loop *)

Lemma queue_length c s : settled s -> rt_nr_running (rq_rt (rqs s c)) = Z.of_nat (length (concat (rt_queue_of c s))).
Proof. intros Hs. apply (rc_nr _ _ _ (ri_counts _ _ _ (ri_base _ _ _ (rp_ok _ _ (proj1 Hs) c)))). Qed.

Lemma queue_NoDup c s : settled s -> NoDup (concat (rt_queue_of c s)).
Proof. intros Hs. apply (ra_wf _ _ _ (ri_array _ _ _ (ri_base _ _ _ (rp_ok _ _ (proj1 Hs) c)))). Qed.

(** [rq->nr_running == 1] means that the real-time queue is empty. *)
Lemma dying_alone c s : dying c s -> (nr_running (rqs s c) = 1 <-> rt_nr_running (rq_rt (rqs s c)) = 0).
Proof.
  intros Hd. pose proof (dy_others _ _ Hd) as Ho. pose proof (proj2 (dy_flows _ _ Hd)) as Hf.
  pose proof (queue_length c s (dy_settled _ _ Hd)) as Hl. unfold others in Ho.
  destruct (Z.eqb_spec (rt_queued (rq_rt (rqs s c))) 0); lia.
Qed.

Lemma evacuates_shorter c p s s' :
  dying c s -> evacuates c s s' -> rt_task_queued c s p -> ~ rt_task_queued c s' p ->
  rt_nr_running (rq_rt (rqs s' c)) < rt_nr_running (rq_rt (rqs s c)).
Proof.
  intros Hd Hev Hp Hn. pose proof (proj1 (ev_settles _ _ _ Hev)) as Hs'. pose proof (dy_settled _ _ Hd) as Hs.
  rewrite !queue_length by done.
  assert (Hsub : submseteq (p :: concat (rt_queue_of c s')) (concat (rt_queue_of c s))).
  { apply NoDup_submseteq; [constructor; [exact Hn|by apply queue_NoDup]|].
    intros x [->|Hx]%elem_of_cons; [exact Hp|]. by apply (evacuates_queued c s s' x Hd Hev). }
  apply submseteq_length in Hsub. cbn [length] in Hsub. lia.
Qed.

Lemma queue_empty c s : settled s -> rt_nr_running (rq_rt (rqs s c)) = 0 -> forall x, ~ rt_task_queued c s x.
Proof.
  intros Hs Hl x Hx. rewrite queue_length in Hl by done. unfold rt_task_queued in Hx.
  destruct (concat (rt_queue_of c s)); [by apply not_elem_of_nil in Hx|done].
Qed.

Lemma migrate_loop_run n c m : forall fuel s,
  dying c s -> stop (rqs s c) = None -> rt_nr_running (rq_rt (rqs s c)) <= Z.of_nat m -> (m < fuel)%nat ->
  wp (migrate_loop (S n) fuel c) (fun _ s' => evacuates c s s' /\ rt_nr_running (rq_rt (rqs s' c)) = 0) s.
Proof.
  induction m as [|m IH]; intros fuel s Hd Hst Hm Hf; (destruct fuel as [|fuel]; [lia|]); cbn [migrate_loop];
    unfold get_rq; do 2 wstep; pose proof (dying_alone c s Hd) as Ha; pose proof (queue_length c s (dy_settled _ _ Hd)) as Hl;
    destruct (Z.eqb_spec (nr_running (rqs s c)) 1) as [E|E];
    try (apply (wp_intro _ _ _ tt s eq_refl); split; [|by apply Ha];
         split; [split_and!; [apply Hd|done|done]|done|by left]); [lia|].
  assert (Hnr : rt_nr_running (rq_rt (rqs s c)) <> 0) by (by rewrite <- Ha).
  wstep. wcall pick_dying; [done|done|done|]. intros p s1 (Q & P1 & Ea1).
  assert (E1 : evacuates c s s1) by (eapply put_evacuates; [done|exact P1|intros []|done]).
  pose proof (dying_evacuates c s s1 Hd E1) as D1.
  assert (Q1 : rt_task_queued c s1 p) by (by apply (put_queued _ _ _ _ c p (dy_settled _ _ Hd) P1)).
  wstep. wcall put_prev_dying; [done|done|]. intros [] s2 [E2' Q2].
  pose proof (evacuates_trans c s s1 s2 Hd E1 E2') as E2. pose proof (dying_evacuates c s s2 Hd E2) as D2.
  destruct (queued_rt c s2 p (dy_settled _ _ D2) Q2) as (Hr2 & _ & Hc2).
  unfold get_task. do 2 wstep. unfold runnable in Hr2. rewrite Hc2, Z.eqb_refl, Hr2. cbn [negb orb].
  pose proof (migrate_dying c p s2 D2 Q2) as Hmv. apply wp_done in Hmv as (r & s3 & He & E3 & N3).
  apply bind_inv in He as (i & s2' & Hsel & Hmv). wstep. apply (wp_intro _ _ _ _ _ Hsel).
  wstep. apply (wp_intro _ _ _ _ _ Hmv). pose proof (evacuates_trans c s s2 s3 Hd E2 E3) as E03.
  pose proof (evacuates_shorter c p s s3 Hd E03 Q N3) as Hsh.
  eapply wp_mono; [apply IH; [by eapply dying_evacuates| | |]|].
  - by rewrite (kp_stop _ _ (proj1 (proj2 (ev_settles _ _ _ E03)))).
  - lia.
  - lia.
  - intros [] s4 [E4 Hn]. split; [by eapply evacuates_trans|done].
Qed.

(** [rq->stop] is of no concern to the queues. *)
Definition with_stop c (v : option task) s : kstate := s <| rqs ::= alter (fun r => r <| stop := v |>) c |>.

Lemma with_stop_view {A} (f : rq -> A) c v s i :
  (forall r, f (r <| stop := v |>) = f r) -> f (rqs (with_stop c v s) i) = f (rqs s i).
Proof. intros H. by apply alter_rq_view. Qed.

Lemma with_stop_settled c v s : settled s -> settled (with_stop c v s).
Proof.
  apply (minv_quiet (runnable s)).
  by apply (set_rq_quiet c (fun r => r <| stop := v |>) ltac:(by split) s tt).
Qed.

Lemma with_stop_curr c v s : curr_ok s -> curr_ok (with_stop c v s).
Proof.
  intros [H1 H2]. split; intros i; rewrite (with_stop_view curr) by done; [|apply H2].
  rewrite (with_stop_view (fun r => (pushable_tasks (rq_rt r)).*2)) by done. apply H1.
Qed.

Lemma with_stop_queue c v s i : rt_queue_of i (with_stop c v s) = rt_queue_of i s.
Proof. unfold rt_queue_of. by apply (with_stop_view (fun r => rt_queue (rq_rt r))). Qed.

Lemma with_stop_dying c v s : dying c s -> dying c (with_stop c v s).
Proof.
  intros Hd. split; try apply Hd.
  - apply with_stop_settled, Hd.
  - apply with_stop_curr, Hd.
  - rewrite (with_stop_view curr) by done. apply Hd.
  - rewrite (with_stop_view others) by done. apply Hd.
  - unfold flows. rewrite (with_stop_view (fun r => rt_throttled (rq_rt r))), (with_stop_view (fun r => rt_nr_running (rq_rt r))),
      (with_stop_view (fun r => rt_queued (rq_rt r))) by done. apply Hd.
  - rewrite (with_stop_view dl_nr_running) by done. apply Hd.
  - intros x. unfold rt_task_queued. rewrite with_stop_queue. by apply Hd.
Qed.

(** What becomes of the queued tasks when [c] is emptied. *)
Lemma evacuated_queued c s s' p :
  dying c s -> evacuates c s s' -> (forall x, ~ rt_task_queued c s' x) -> rt_task_queued c s p ->
  exists i, is_cpu_allowed s p i = true /\ rt_task_queued i s' p.
Proof.
  intros Hd [(S1 & S2 & _) _ Hmv] Hno Hp. pose proof (queued_rt c s p (dy_settled _ _ Hd) Hp) as (H1 & H2 & H3).
  assert (Hm : mine s p) by by left.
  assert (Hq : rt_task_queued (task_cpu (tasks s' p)) s' p).
  { apply (rp_link _ _ (proj1 S1)). by rewrite (runnable_keep s s'), (kp_class _ _ S2). }
  destruct (Hmv p Hm) as [E|[_ Ha]]; [|by exists (task_cpu (tasks s' p))].
  rewrite E, H3 in Hq. by apply Hno in Hq.
Qed.

Lemma evacuated_ts c s s' i p :
  dying c s -> evacuates c s s' -> ts_queued i s' p <-> ts_queued i s p.
Proof.
  intros Hd [(S1 & S2 & _) _ Hmv].
  rewrite (tp_link _ _ (proj2 S1)), (tp_link _ _ (proj2 (dy_settled _ _ Hd))), (kp_class _ _ S2).
  assert (H : sched_class (tasks s p) = ts_sched_class ->
    runnable s' p = runnable s p /\ task_cpu (tasks s' p) = task_cpu (tasks s p)).
  { intros Hcl. assert (Hm : mine s p) by by right. split; [by apply runnable_keep|].
    destruct (Hmv p Hm) as [|[(_ & H & _)%queued_rt _]]; [done| |apply Hd]. congruence. }
  split; intros (H1 & H2 & H3); destruct (H H2); split_and!; congruence.
Qed.

(** C12: [migrate_tasks] on a CPU that dies, inside [stop_machine], comes to an
    end after as many rounds as real-time tasks are queued there: every one of
    them is then on the queues of a CPU that it is allowed to run on, the queue
    of the dead CPU is empty and [nr_running] is 1, what [sched_cpu_dying]
    insists on.  The tasks of the TS class, which [nr_running] does not count,
    have stayed on the queues of the dead CPU. *)
Theorem migrate_tasks_spec n fuel c s :
  dying c s -> (Z.to_nat (rt_nr_running (rq_rt (rqs s c))) < fuel)%nat ->
  exists s', migrate_tasks (S n) fuel c s = Done (tt, s') /\
    settled s' /\ curr_ok s' /\ nr_running (rqs s' c) = 1 /\ stop (rqs s' c) = stop (rqs s c) /\
    (forall p, ~ rt_task_queued c s' p) /\
    (forall p, rt_task_queued c s p -> exists i, is_cpu_allowed s p i = true /\ rt_task_queued i s' p) /\
    forall p, ts_queued c s' p <-> ts_queued c s p.
Proof.
  intros Hd Hf. set (s0 := with_stop c None s). pose proof (with_stop_dying c None s Hd) as D0. fold s0 in D0.
  assert (Hst0 : stop (rqs s0 c) = None) by (unfold s0, with_stop; simpl; by rewrite fn_lookup_alter).
  pose proof (wp_frames (same_load c) _ _ s0 (clock_load c c) (wp_frames same_prio _ _ s0 (clock_prio c)
    (wp_total calm _ s0 (update_rq_clock_total c) (update_rq_clock_calm c)))) as Hclk.
  apply wp_done in Hclk as ([] & s1 & He1 & (C1 & P1) & L1).
  assert (E1 : evacuates c s0 s1).
  { eapply (put_evacuates (fun _ => False)); [done|apply calm_put; [apply D0|done]|intros []|by apply same_load_eases]. }
  pose proof (dying_evacuates c s0 s1 D0 E1) as D1.
  assert (Hn1 : rt_nr_running (rq_rt (rqs s1 c)) = rt_nr_running (rq_rt (rqs s c))).
  { rewrite (sl_rt _ _ _ L1). unfold s0. by apply (with_stop_view (fun r => rt_nr_running (rq_rt r))). }
  pose proof (migrate_loop_run n c (Z.to_nat (rt_nr_running (rq_rt (rqs s c)))) fuel s1 D1
    ltac:(by rewrite (kp_stop _ _ (proj2 C1))) ltac:(rewrite Hn1; lia) Hf) as Hl.
  apply wp_done in Hl as ([] & s2 & He2 & E2 & Hz).
  pose proof (evacuates_trans c s0 s1 s2 D0 E1 E2) as E. pose proof (dying_evacuates c s0 s2 D0 E) as D2.
  pose proof (queue_empty c s2 (dy_settled _ _ D2) Hz) as Hemp.
  exists (with_stop c (stop (rqs s c)) s2). split.
  { unfold migrate_tasks, get_rq. rewrite bind_gets.
    rewrite (bind_done _ _ s tt s0) by done. rewrite (bind_done _ _ s0 tt s1 He1), (bind_done _ _ s1 tt s2 He2). done. }
  unfold rt_task_queued. rewrite with_stop_queue. split_and!.
  - by apply with_stop_settled, D2.
  - by apply with_stop_curr, D2.
  - rewrite (with_stop_view nr_running) by done. by apply (dying_alone c s2 D2).
  - unfold with_stop. simpl. by rewrite fn_lookup_alter.
  - exact Hemp.
  - intros p Hp. destruct (evacuated_queued c s0 s2 p D0 E Hemp) as (i & Hi & Hq).
    { unfold s0, rt_task_queued. by rewrite with_stop_queue. }
    exists i. rewrite with_stop_queue. by split.
  - intros p. pose proof (evacuated_ts c s0 s2 c p D0 E) as H. unfold ts_queued, ts_q in *.
    unfold s0 in H. rewrite !(with_stop_view ts_queue) in * by done. exact H.
Qed.
End Dying.

(** ** A CPU with a real-time and a TS task dies *)

Module DyingExample.
Import Machine Steps.Example.
#[local] Existing Instances features limits topology cpupri0 others1 core_env switch_env laws.

(** Two threads in a core. *)
Definition core_of (c : cpu) : Z := c / 2.

#[local] Instance hotplug_env : HotplugEnv :=
  {| fake_task := -9; cpu_smt_mask := fun k c => filter (fun i => core_of i = core_of c) (online_cpus k); partition_sched_domains := ret tt; cpuset_force_rebuild := ret tt;
     cpuset_update_active_cpus := ret tt; dl_cpu_busy := fun _ _ => true;
     sched_domains_numa_masks_set := fun _ => ret tt; sched_domains_numa_masks_clear := fun _ => ret tt;
     update_max_interval := ret tt; nohz_balance_exit_idle := fun _ => ret tt;
     calc_load_fold_active := fun _ _ => ret 0; sched_init_numa := ret tt; sched_init_domains := fun _ => ret tt;
     sched_init_granularity := ret tt; init_sched_rt_class := ret tt; init_sched_dl_class := ret tt;
     housekeeping_cpumask := [0; 1]; stop_two_cpus := fun _ _ fn => fn |}.

(** Task 1 and task 5 are queued on CPU 0; its stop task, task -1 here, takes
    over, and CPU 1 stays. *)
Definition outgoing (s : kstate) : kstate :=
  s <| tasks ::= alter (fun t => t <| sched_class := stop_sched_class |>) (-1) |>
    <| tasks ::= alter (fun t => t <| sched_class := fake_sched_class |> <| prio := MAX_PRIO + 1 |>) (-9) |>
    <| rqs ::= alter (fun r => r <| nr_running ::= fun n => n + 1 |>) 0 |>
    <| active_cpus := [1] |> <| online_cpus := [1] |>.

Lemma outgoing_view {A} (v : task_struct -> A) s x :
  (forall t, v (t <| sched_class := stop_sched_class |>) = v t) ->
  (forall t, v (t <| sched_class := fake_sched_class |> <| prio := MAX_PRIO + 1 |>) = v t) ->
  v (tasks (outgoing s) x) = v (tasks s x).
Proof. intros H1 H2. unfold outgoing. simpl. by rewrite !(alter_view v). Qed.

Lemma outgoing_task s x k :
  k = rt_sched_class \/ k = ts_sched_class -> ~ mine s (-1) -> ~ mine s (-9) ->
  sched_class (tasks (outgoing s) x) = k <-> sched_class (tasks s x) = k.
Proof.
  intros Hk H1 H9. unfold outgoing. simpl. unfold mine in *.
  destruct (decide (-9 = x)) as [<-|]; [rewrite fn_lookup_alter; simpl; destruct Hk as [-> | ->]; split; [done|tauto|done|tauto]|].
  rewrite fn_lookup_alter_ne by done.
  destruct (decide (-1 = x)) as [<-|]; [rewrite fn_lookup_alter; simpl; destruct Hk as [-> | ->]; split; [done|tauto|done|tauto]|].
  by rewrite fn_lookup_alter_ne.
Qed.

Lemma outgoing_prio s x : x <> -9 -> prio (tasks (outgoing s) x) = prio (tasks s x).
Proof. intros H. unfold outgoing. simpl. rewrite fn_lookup_alter_ne by done. by apply alter_view. Qed.

Lemma outgoing_rq {A} (v : rq -> A) s i :
  (forall r, v (r <| nr_running ::= fun n => n + 1 |>) = v r) -> v (rqs (outgoing s) i) = v (rqs s i).
Proof. intros H. unfold outgoing. simpl. by apply alter_rq_view. Qed.

Lemma outgoing_others s i :
  others (rqs (outgoing s) i) = others (rqs s i) + (if decide (i = 0) then 1 else 0).
Proof.
  unfold outgoing. simpl. case_decide as H; [subst; rewrite fn_lookup_alter|rewrite fn_lookup_alter_ne by done; lia].
  unfold others. simpl. lia.
Qed.

Lemma outgoing_settled s :
  ~ mine s (-1) -> ~ mine s (-9) -> others (rqs s 0) = 0 -> settled s -> settled (outgoing s).
Proof.
  intros H1 H9 Ho [Hr Ht]. assert (Hne : forall x, mine s x -> x <> -9) by (by intros x Hx ->).
  assert (Hrun : forall x, runnable (outgoing s) x = runnable s x).
  { intros x. unfold runnable. by rewrite (outgoing_view task_on_rq_queued). }
  assert (Hq : forall c, rt_queue_of c (outgoing s) = rt_queue_of c s).
  { intros c. unfold rt_queue_of. by rewrite (outgoing_rq (fun r => rt_queue (rq_rt r))). }
  assert (Hcl : forall x, sched_class (tasks (outgoing s) x) = rt_sched_class <-> sched_class (tasks s x) = rt_sched_class)
    by (intros x; apply outgoing_task; auto).
  assert (Hct : forall x, sched_class (tasks (outgoing s) x) = ts_sched_class <-> sched_class (tasks s x) = ts_sched_class)
    by (intros x; apply outgoing_task; auto).
  assert (Hcpu : forall x, task_cpu (tasks (outgoing s) x) = task_cpu (tasks s x)) by (intros x; by apply outgoing_view).
  assert (Htq : forall c, ts_q c (outgoing s) = ts_q c s) by (intros c; unfold ts_q; by rewrite (outgoing_rq ts_queue)).
  split; split.
  - intros c. apply (outside_ok c s); [apply Hr|]. split; [by apply (outgoing_rq rq_rt)|]. rewrite outgoing_others.
    pose proof (rp_others _ _ Hr c). pose proof (ri_bound _ _ _ (ri_base _ _ _ (rp_ok _ _ Hr c))).
    pose proof (queue_room _ _ c Hr). unfold PID_MAX_LIMIT, rt_queue_of in *.
    split_and!; [case_decide; lia|case_decide; lia|]. intros p Hp.
    split_and!; [|by apply (outgoing_view policy)|by apply (outgoing_view nr_cpus_allowed)|done
                 |by apply (outgoing_view (fun t => rt_on_rq (rt t)))].
    apply outgoing_prio, Hne. left. by apply (rp_link _ _ Hr) in Hp as (_ & Hc & _).
  - intros c p. unfold rt_task_queued. rewrite Hq, Hrun, Hcl, Hcpu. apply Hr.
  - intros p. rewrite (outgoing_view (fun t => rt_on_rq (rt t))), Hrun, Hcl by done. apply Hr.
  - intros p Hp%Hcl. rewrite outgoing_prio; [by apply Hr|]. apply Hne. by left.
  - intros p Hp%Hcl. by apply (rp_ids _ _ Hr).
  - intros c. rewrite outgoing_others. case_decide as Hc; [rewrite Hc, Ho; unfold PID_MAX_LIMIT; lia|].
    pose proof (rp_others _ _ Hr c). lia.
  - intros c. unfold ts_wf. rewrite Htq. eapply wf_q_ext; [apply Ht|]. intros x Hx. unfold prio_of.
    apply outgoing_prio, Hne. right. by apply (tp_link _ _ Ht c) in Hx as (_ & Hc & _).
  - intros c p. unfold ts_queued. rewrite Htq, Hrun, Hct, Hcpu. apply Ht.
  - intros p Hp%Hct. rewrite outgoing_prio; [by apply Ht|]. apply Hne. by right.
Qed.

Definition doomed : kstate := outgoing woken5.

Lemma woken5_facts :
  sched_class (tasks woken5 (-1)) = idle_sched_class /\ sched_class (tasks woken5 (-9)) = idle_sched_class /\
  others (rqs woken5 0) = 0.
Proof. by vm_compute. Qed.

Lemma doomed_queues : concat (rt_queue_of 0 doomed) = [1] /\ concat (ts_q 0 doomed) = [5].
Proof. by vm_compute. Qed.

Lemma doomed_facts :
  sched_class (tasks doomed (curr (rqs doomed 0))) = stop_sched_class /\ others (rqs doomed 0) = 1 /\
  rt_throttled (rq_rt (rqs doomed 0)) = 0 /\ rt_queued (rq_rt (rqs doomed 0)) = 1 /\
  rt_nr_running (rq_rt (rqs doomed 0)) = 1 /\ dl_nr_running (rqs doomed 0) = 0 /\
  is_cpu_allowed doomed 1 1 = true /\
  sched_class (tasks doomed (-9)) = fake_sched_class /\ prio (tasks doomed (-9)) = 141.
Proof. by vm_compute. Qed.

Lemma outgoing_dying s :
  in_order s -> ~ mine s (-1) -> ~ mine s (-9) -> others (rqs s 0) = 0 ->
  sched_class (tasks (outgoing s) (curr (rqs (outgoing s) 0))) = stop_sched_class -> flows 0 (outgoing s) ->
  (forall x, rt_task_queued 0 (outgoing s) x -> is_cpu_allowed (outgoing s) x 1 = true) -> dying 0 (outgoing s).
Proof.
  intros Ho N1 N9 Eo H1 H2 H3. pose proof (od_curr _ _ Ho) as [Hk Hr].
  split; [by apply outgoing_settled; [..|apply Ho]| |exact H1| |exact H2| | |done| |].
  - split; intros c.
    + rewrite (outgoing_rq curr), (outgoing_rq (fun r => (pushable_tasks (rq_rt r)).*2)) by done. apply Hk.
    + rewrite (outgoing_rq curr), (outgoing_view task_cpu) by done. unfold mine. rewrite !outgoing_task by auto. apply Hr.
  - by rewrite outgoing_others, Eo.
  - rewrite (outgoing_rq dl_nr_running) by done. apply (ar_no _ (od_rest _ _ Ho) 0).
  - split; intros ?%list_elem_of_singleton; done.
  - intros x Hx. exists 1. by apply H3.
  - split; reflexivity.
Qed.

Lemma doomed_dying : dying 0 doomed.
Proof.
  pose proof woken5_in_order as Ho. generalize woken5_facts doomed_facts doomed_queues. unfold doomed. revert Ho.
  generalize woken5. intros s Ho (E1 & E9 & Eo) (H1 & H2 & H3 & H4 & H5 & H6 & H7 & _) (Q1 & _).
  apply outgoing_dying; [exact Ho|unfold mine; rewrite E1; by intros [|]|unfold mine; rewrite E9; by intros [|]
    |exact Eo|exact H1|split; [exact H3|by rewrite H4]|].
  intros x Hx. unfold rt_task_queued in Hx. rewrite Q1 in Hx. by apply list_elem_of_singleton in Hx as ->.
Qed.

(** The real-time task is moved to a CPU that is left; the TS task stays
    behind. *)
Lemma migrate_tasks_spec_witness :
  exists s', migrate_tasks 1 2 0 doomed = Done (tt, s') /\ nr_running (rqs s' 0) = 1 /\
    (exists i, is_cpu_allowed doomed 1 i = true /\ rt_task_queued i s' 1) /\ ts_queued 0 s' 5.
Proof.
  generalize doomed_queues doomed_facts doomed_dying. generalize doomed.
  intros s [Q1 Q5] (_ & _ & _ & _ & En & _) Hd. destruct (migrate_tasks_spec 0 2 0 s Hd) as (s' & He & _ & _ & H1 & _ & _ & H2 & H3).
  - rewrite En. lia.
  - exists s'. split; [exact He|]. split; [exact H1|]. split.
    + apply H2. unfold rt_task_queued. rewrite Q1. by left.
    + apply H3. unfold ts_queued. rewrite Q5. by left.
Defined.
End DyingExample.
