(* ===== verification/HotplugCpu.v ===== *)
(** * The hotplug state machine of a CPU: properties

    [sched_cpu_activate] and [sched_cpu_deactivate] against each other, over a
    suspend and resume of several CPUs, and when the second one is refused. *)

From S2P Require Import Prelude Sched Ts RtBandwidth Rt RtProps SchedClass SetSched Wake Switch.
From S2P Require Import Steps Hotplug HotplugProps.

(** ** Masks *)

Definition mask_ok (m : list cpu) : Prop := StronglySorted Z.lt m.

Section Masks.
Implicit Types (c i : cpu) (m : list cpu).

Lemma mask_clear_elem c m i : i ∈ cpumask_clear_cpu c m <-> i <> c /\ i ∈ m.
Proof. unfold cpumask_clear_cpu. by rewrite list_elem_of_filter. Qed.

Lemma mask_Forall c m : StronglySorted Z.lt (c :: m) <-> mask_ok m /\ forall i, i ∈ m -> c < i.
Proof.
  split.
  - intros [H1 H2]%StronglySorted_inv. split; [done|]. rewrite Forall_forall in H2. intros i Hi. by apply H2.
  - intros [H1 H2]. constructor; [done|]. apply Forall_forall. intros i Hi. by apply H2.
Qed.

Lemma mask_clear_ok c m : mask_ok m -> mask_ok (cpumask_clear_cpu c m).
Proof.
  unfold mask_ok, cpumask_clear_cpu. induction m as [|i m IH]; [done|]. intros [H1 H2]%mask_Forall. rewrite filter_cons.
  case_decide; [|by apply IH]. apply mask_Forall. split; [by apply IH|].
  intros j [_ Hj]%list_elem_of_filter. by apply H2.
Qed.

Lemma mask_set_ok c m : mask_ok m -> mask_ok (cpumask_set_cpu c m).
Proof.
  unfold mask_ok. induction m as [|i m IH]; [intros _; by repeat constructor|]. intros Hm. pose proof Hm as [H1 H2]%mask_Forall.
  cbn [cpumask_set_cpu]. destruct (Z.eqb_spec c i); [done|]. destruct (Z.ltb_spec c i).
  - apply mask_Forall. split; [done|]. intros j [->|Hj%H2]%elem_of_cons; lia.
  - apply mask_Forall. split; [by apply IH|]. intros j [->|Hj]%set_cpu_elem; [lia|by apply H2].
Qed.

Lemma mask_NoDup m : mask_ok m -> NoDup m.
Proof.
  induction m as [|i m IH]; intros Hm; constructor; apply mask_Forall in Hm as [H1 H2]; [|by apply IH].
  intros Hi%H2. lia.
Qed.

Lemma mask_ext m m' : mask_ok m -> mask_ok m' -> (forall i, i ∈ m <-> i ∈ m') -> m = m'.
Proof.
  assert (Has : AntiSymm eq Z.lt) by (intros x y; lia).
  intros H1 H2 Hi. apply (StronglySorted_unique Z.lt); [done|done|].
  apply NoDup_Permutation; [by apply mask_NoDup|by apply mask_NoDup|done].
Qed.

Lemma mask_set_clear c m : mask_ok m -> c ∈ m -> cpumask_set_cpu c (cpumask_clear_cpu c m) = m.
Proof.
  intros Hm Hc. apply mask_ext; [by apply mask_set_ok, mask_clear_ok|done|]. intros i.
  rewrite set_cpu_elem, mask_clear_elem. destruct (decide (i = c)) as [->|]; tauto.
Qed.
End Masks.

(** ** What the other files leave alone *)

(** The masks and counters that hotplug keeps. *)
Record same_hotplug (s s' : hstate) : Prop := {
  sh_frozen : num_cpus_frozen s' = num_cpus_frozen s;
  sh_tasks : cpuhp_tasks_frozen s' = cpuhp_tasks_frozen s;
  sh_smt : sched_smt_present s' = sched_smt_present s;
  sh_init : sched_smp_initialized s' = sched_smp_initialized s;
  sh_active : active_cpus (cpus s') = active_cpus (cpus s);
  sh_span : span (rd (cpus s')) = span (rd (cpus s));
  sh_online : online_cpus (cpus s') = online_cpus (cpus s)
}.

#[export] Instance same_hotplug_preorder : PreOrder same_hotplug.
Proof. split; [by split|]. intros s1 s2 s3 [] []. split; congruence. Qed.

Definition same_masks (s s' : kstate) : Prop :=
  active_cpus s' = active_cpus s /\ span (rd s') = span (rd s) /\ online_cpus s' = online_cpus s.

#[export] Instance same_masks_preorder : PreOrder same_masks.
Proof. split; [done|]. intros s1 s2 s3 (? & ? & ?) (? & ? & ?). split_and!; congruence. Qed.

(** [cpu_smt_mask] is the threads of the core that are online. *)
Class SmtLaws `{HotplugEnv} (core_of : cpu -> Z) : Prop :=
  smt_siblings : forall k c, cpu_smt_mask k c ≡ₚ filter (fun i => core_of i = core_of c) (online_cpus k).

(** Cpusets, domains and the classes of the other files return, and leave
    these alone; a CPU stays in the span of its root domain. *)
Class HotplugLaws `{OtherClasses} `{HotplugEnv} : Prop := {
  hl_domains : total partition_sched_domains /\ frames same_hotplug partition_sched_domains;
  hl_rebuild : total cpuset_force_rebuild /\ frames same_hotplug cpuset_force_rebuild;
  hl_update : total cpuset_update_active_cpus /\ frames same_hotplug cpuset_update_active_cpus;
  hl_set : forall c, total (sched_domains_numa_masks_set c) /\ frames same_hotplug (sched_domains_numa_masks_set c);
  hl_clear : forall c, total (sched_domains_numa_masks_clear c) /\ frames same_hotplug (sched_domains_numa_masks_clear c);
  hl_interval : total update_max_interval /\ frames same_hotplug update_max_interval;
  hl_online : forall k m c, m_rq_online (other_class k) = Some m -> total (m c) /\ frames same_masks (m c)
}.

Section Cpu.
Context `{Hfeat : SchedFeat} `{Hlim : Rlimits} `{Hpri : Cpupri} `{Htop : Topology}.
Context `{Hoth : OtherClasses} `{Hhp : HotplugEnv} {Hlaws : HotplugLaws}.
Implicit Types (c : cpu) (s : hstate).

#[local] Hint Extern 1 (frames same_masks (set_rq _ _)) => apply frames_modify; done : frames.

Lemma rq_online_masks c : total (rq_online_rt c) /\ frames same_masks (rq_online_rt c).
Proof. split; [total_tac|repeat frames_step ltac:(done)]. Qed.

Lemma total_foreach {St A} (l : list A) (body : A -> M St unit) : (forall x, total (body x)) -> total (foreach l body).
Proof. intros H. induction l; cbn [foreach]; total_tac; done. Qed.

Lemma class_online_masks k c :
  total (call_if (m_rq_online (class_of k)) (fun m => m c)) /\
  frames same_masks (call_if (m_rq_online (class_of k)) (fun m => m c)).
Proof.
  assert (Hoc : total (call_if (m_rq_online (other_class k)) (fun m => m c)) /\
    frames same_masks (call_if (m_rq_online (other_class k)) (fun m => m c))).
  { destruct (m_rq_online (other_class k)) eqn:E; cbn [call_if]; [by eapply hl_online|].
    split; [apply total_ret|apply frames_ret, _]. }
  destruct k; cbn [class_of]; try exact Hoc; cbn [m_rq_online rt_class ts_class fake_class call_if];
    try apply rq_online_masks; (split; [apply total_ret|apply frames_ret, _]).
Qed.

Lemma set_rq_online_masks c : total (set_rq_online c) /\ frames same_masks (set_rq_online c).
Proof.
  unfold set_rq_online, get_rq. split.
  - apply total_bind; [apply total_gets|]. intros r. apply total_when, total_bind; [total_tac|].
    intros _. apply total_foreach. intros k. apply class_online_masks.
  - apply frames_bind; [exact _|apply frames_gets, _|]. intros r. apply frames_when; [exact _|].
    apply frames_bind; [exact _|by apply frames_modify|]. intros _. apply frames_foreach; [exact _|].
    intros k. apply class_online_masks.
Qed.

(** A computation that keeps the masks and counters. *)
Lemma hotplug_quiet (m : H unit) s :
  total m /\ frames same_hotplug m -> wp m (fun _ s' => same_hotplug s s') s.
Proof. intros [Ht Hf]. by apply wp_total. Qed.

Lemma sched_quiet (m : K unit) s :
  wp m (fun _ k => same_masks (cpus s) k) (cpus s) -> wp (sched m) (fun _ s' => same_hotplug s s') s.
Proof.
  intros ([] & k & He & H1 & H2 & H3)%wp_done. eapply wp_intro; [unfold sched; by rewrite He|]. by split.
Qed.

(** *** The two ends *)

(** What the masks and counters of [s'] are, from those of [s]. *)
Record hotplugged s s' (frozen smt : Z) (active online : list cpu) : Prop := {
  hg_frozen : num_cpus_frozen s' = frozen;
  hg_smt : sched_smt_present s' = smt;
  hg_active : active_cpus (cpus s') = active;
  hg_tasks : cpuhp_tasks_frozen s' = cpuhp_tasks_frozen s;
  hg_init : sched_smp_initialized s' = sched_smp_initialized s;
  hg_span : span (rd (cpus s')) = span (rd (cpus s));
  hg_online : online_cpus (cpus s') = online
}.

Lemma hotplugged_quiet s s1 s2 f n a o : hotplugged s s1 f n a o -> same_hotplug s1 s2 -> hotplugged s s2 f n a o.
Proof. intros [] []. split; congruence. Qed.

(** [static_branch_inc_cpuslocked] and its counterpart *)
Definition smt_after (k : kstate) c (d n : Z) : Z := if cpumask_weight (cpu_smt_mask k c) =? 2 then s32 (n + d) else n.

Definition without c (k : kstate) : kstate := k <| active_cpus ::= cpumask_clear_cpu c |>.

Lemma deactivate_frozen c s :
  sched_smp_initialized s = true -> cpuhp_tasks_frozen s = true ->
  wp (sched_cpu_deactivate c) (fun r s' => r = 0 /\
    hotplugged s s' (s32 (num_cpus_frozen s - -1)) (smt_after (without c (cpus s)) c (-1) (sched_smt_present s))
      (cpumask_clear_cpu c (active_cpus (cpus s))) (online_cpus (cpus s))) s.
Proof.
  intros Hi Hf. unfold sched_cpu_deactivate, set_cpu_active, smt_after. wstep. wstep. do 2 wstep. wstep.
  set (s1 := s <| cpus ::= _ |>). change (without c (cpus s)) with (cpus s1).
  assert (H1 : hotplugged s s1 (num_cpus_frozen s) (sched_smt_present s) (cpumask_clear_cpu c (active_cpus (cpus s)))
    (online_cpus (cpus s))) by by split.
  apply (wp_mono _ (fun _ s2 => hotplugged s s2 (num_cpus_frozen s)
    (if cpumask_weight (cpu_smt_mask (cpus s1) c) =? 2 then s32 (sched_smt_present s + -1) else sched_smt_present s)
    (cpumask_clear_cpu c (active_cpus (cpus s))) (online_cpus (cpus s)))).
  { destruct (_ =? 2); cbn [when]; wstep; by split. }
  intros [] s2 H2. do 2 wstep. rewrite (hg_init _ _ _ _ _ _ H2), Hi. cbn [negb]. wstep.
  unfold cpuset_cpu_inactive. do 2 wstep. rewrite (hg_tasks _ _ _ _ _ _ H2), Hf. cbn [negb]. wstep. wstep.
  wstep. eapply wp_mono; [apply hotplug_quiet, hl_domains|]. intros [] s3 H3. wstep. cbn [Z.eqb negb].
  wstep. eapply wp_mono; [apply hotplug_quiet, hl_clear|]. intros [] s4 H4. wstep. split; [done|].
  eapply hotplugged_quiet; [|exact H4]. eapply hotplugged_quiet; [|exact H3].
  destruct H2 as [E1 E2 E3 E4 E5 E6 E7]. split; simpl; try done. by rewrite E1.
Qed.

Lemma cpu_active_frozen s :
  cpuhp_tasks_frozen s = true ->
  wp cpuset_cpu_active (fun _ s' => exists s1, same_hotplug s s1 /\
    same_hotplug (s1 <| num_cpus_frozen := s32 (num_cpus_frozen s - 1) |>) s') s.
Proof.
  intros Hf. unfold cpuset_cpu_active. do 2 wstep. rewrite Hf.
  wstep. eapply wp_mono; [apply hotplug_quiet, hl_domains|]. intros [] s1 H1. wstep. wstep. wstep. wstep.
  assert (E : s1 <| num_cpus_frozen ::= fun n => s32 (n - 1) |> = s1 <| num_cpus_frozen := s32 (num_cpus_frozen s - 1) |>)
    by (destruct s1, H1; simpl in *; by subst).
  rewrite E. destruct (negb _).
  - wstep. by exists s1.
  - wstep. eapply wp_mono; [apply hotplug_quiet, hl_rebuild|]. intros [] s2 H2.
    eapply wp_mono; [apply hotplug_quiet, hl_update|]. intros [] s3 H3. exists s1. split; [done|by etrans].
Qed.

Lemma activate_frozen c s :
  sched_smp_initialized s = true -> cpuhp_tasks_frozen s = true -> c ∈ span (rd (cpus s)) ->
  wp (sched_cpu_activate c) (fun r s' => r = 0 /\
    hotplugged s s' (s32 (num_cpus_frozen s - 1)) (smt_after (cpus s) c 1 (sched_smt_present s))
      (cpumask_set_cpu c (active_cpus (cpus s))) (online_cpus (cpus s))) s.
Proof.
  intros Hi Hf Hspan. unfold sched_cpu_activate, set_cpu_active, smt_after. do 2 wstep. wstep.
  set (smt := if cpumask_weight _ =? 2 then s32 (sched_smt_present s + 1) else sched_smt_present s).
  apply (wp_mono _ (fun _ s1 => hotplugged s s1 (num_cpus_frozen s) smt (active_cpus (cpus s)) (online_cpus (cpus s)))).
  { unfold smt. destruct (_ =? 2); cbn [when]; wstep; by split. }
  intros [] s1 [E1 E2 E3 E4 E5 E6 E7]. wstep. wstep. set (s2 := s1 <| cpus ::= _ |>).
  assert (H2 : hotplugged s s2 (num_cpus_frozen s) smt (cpumask_set_cpu c (active_cpus (cpus s))) (online_cpus (cpus s)))
    by (split; simpl; congruence).
  clearbody s2 smt. clear E1 E2 E3 E4 E5 E6 E7 s1. do 2 wstep. rewrite (hg_init _ _ _ _ _ _ H2), Hi. cbn [when]. wstep. wstep.
  eapply wp_mono; [apply hotplug_quiet, hl_set|]. intros [] s3 H3.
  eapply wp_mono; [apply cpu_active_frozen; by rewrite (sh_tasks _ _ H3), (hg_tasks _ _ _ _ _ _ H2)|].
  intros [] s4 (s5 & H5 & H4). wstep. eapply wp_mono; [apply sched_quiet|].
  { do 2 wstep. wstep. apply wp_bug_on; [|eapply (wp_total same_masks); apply set_rq_online_masks].
    apply negb_false_iff, bool_decide_eq_true.
    rewrite (sh_span _ _ H4). change (c ∈ span (rd (cpus s5))).
    by rewrite (sh_span _ _ H5), (sh_span _ _ H3), (hg_span _ _ _ _ _ _ H2). }
  intros [] s6 H6. wstep. eapply wp_mono; [apply hotplug_quiet, hl_interval|]. intros [] s7 H7. wstep. split; [done|].
  eapply hotplugged_quiet; [|exact H7]. eapply hotplugged_quiet; [|exact H6]. eapply hotplugged_quiet; [|exact H4].
  pose proof (hotplugged_quiet _ _ _ _ _ _ _ (hotplugged_quiet _ _ _ _ _ _ _ H2 H3) H5) as [F1 F2 F3 F4 F5 F6 F7].
  pose proof (sh_frozen _ _ H3) as G. rewrite (hg_frozen _ _ _ _ _ _ H2) in G.
  split; simpl; try done. by rewrite G.
Qed.

(** *** A suspend and a resume *)

(** What [kernel/cpu.c] does around them: a CPU is online until it has died, and
    from before it starts. *)
Definition set_cpu_online c (online : bool) : H unit :=
  modify (fun s => s <| cpus ::= fun k => k <| online_cpus ::=
    (if online then cpumask_set_cpu c else cpumask_clear_cpu c) |> |>).

Definition succeed (m : H Z) : H unit := let! r := m in bug_on (negb (r =? 0)).
Definition take_down c : H unit := do! succeed (sched_cpu_deactivate c) in set_cpu_online c false.
Definition bring_up c : H unit := do! set_cpu_online c true in succeed (sched_cpu_activate c).

Section Smt.
Context (core_of : cpu -> Z) {Hsmt : SmtLaws core_of}.

(** The threads of core [k] among [m], and the number of cores that have two or
    more. *)
Definition threads (k : Z) (m : list cpu) : nat := length (filter (fun i => core_of i = k) m).
Definition smt_set (m : list cpu) : gset Z :=
  filter (fun k => (2 <= threads k m)%nat) (list_to_set (map core_of m)).
Definition smt_cores (m : list cpu) : Z := Z.of_nat (size (smt_set m)).

Lemma smt_set_elem k m : k ∈ smt_set m <-> (2 <= threads k m)%nat.
Proof.
  unfold smt_set. rewrite elem_of_filter, elem_of_list_to_set. split; [tauto|]. intros H. split; [done|].
  unfold threads in H. destruct (filter _ m) as [|i l] eqn:E; [simpl in H; lia|].
  assert (Hi : i ∈ filter (fun i => core_of i = k) m) by (rewrite E; by left).
  apply list_elem_of_filter in Hi as [<- Hi]. by apply list_elem_of_fmap_2.
Qed.

Lemma smt_cores_perm m m' : m ≡ₚ m' -> smt_cores m = smt_cores m'.
Proof.
  intros Hm. unfold smt_cores. do 2 f_equal. apply set_eq. intros k. rewrite !smt_set_elem. unfold threads. by rewrite Hm.
Qed.

Lemma threads_cons k c m : threads k (c :: m) = ((if decide (core_of c = k) then 1 else 0) + threads k m)%nat.
Proof. unfold threads. rewrite filter_cons. by case_decide. Qed.

Lemma smt_cores_cons c m :
  smt_cores (c :: m) = smt_cores m + (if Z.of_nat (threads (core_of c) (c :: m)) =? 2 then 1 else 0).
Proof.
  unfold smt_cores. set (n := threads (core_of c) (c :: m)).
  assert (En : n = S (threads (core_of c) m)) by (unfold n; by rewrite threads_cons, decide_True).
  assert (Hother : forall k, k <> core_of c -> k ∈ smt_set (c :: m) <-> k ∈ smt_set m).
  { intros k Hk. by rewrite !smt_set_elem, threads_cons, decide_False by done. }
  pose proof (smt_set_elem (core_of c) (c :: m)) as H1. pose proof (smt_set_elem (core_of c) m) as H2. fold n in H1.
  destruct (Z.eqb_spec (Z.of_nat n) 2) as [E|E].
  - assert (Es : smt_set (c :: m) = {[core_of c]} ∪ smt_set m).
    { apply set_eq. intros k. rewrite elem_of_union, elem_of_singleton. destruct (decide (k = core_of c)) as [->|Hk].
      - split; [by left|]. intros _. apply H1. lia.
      - rewrite Hother by done. tauto. }
    rewrite Es, size_union, size_singleton; [lia|]. apply disjoint_singleton_l. rewrite H2. lia.
  - rewrite Z.add_0_r. do 2 f_equal. apply set_eq. intros k. destruct (decide (k = core_of c)) as [->|Hk]; [|by apply Hother].
    rewrite H1, H2. lia.
Qed.

Lemma smt_cores_more l m : smt_cores m <= smt_cores (l ++ m).
Proof. induction l as [|c l IH]; [done|]. cbn [app]. rewrite smt_cores_cons. destruct (_ =? 2); lia. Qed.

Lemma smt_after_eq k c d n :
  smt_after k c d n = if Z.of_nat (threads (core_of c) (online_cpus k)) =? 2 then s32 (n + d) else n.
Proof. unfold smt_after, cpumask_weight. by rewrite (smt_siblings k c). Qed.

(** CPUs that go or come, and the number of cores. *)
Lemma mask_clear_perm c m : mask_ok m -> c ∈ m -> m ≡ₚ c :: cpumask_clear_cpu c m.
Proof.
  intros Hm Hc. apply NoDup_Permutation; [by apply mask_NoDup|constructor; [|by apply mask_NoDup, mask_clear_ok]|].
  - rewrite mask_clear_elem. tauto.
  - intros i. rewrite elem_of_cons, mask_clear_elem. destruct (decide (i = c)) as [->|]; tauto.
Qed.

Lemma mask_set_perm c m : mask_ok m -> c ∉ m -> cpumask_set_cpu c m ≡ₚ c :: m.
Proof.
  intros Hm Hc. apply NoDup_Permutation; [by apply mask_NoDup, mask_set_ok|constructor; [done|by apply mask_NoDup]|].
  intros i. rewrite elem_of_cons, set_cpu_elem. tauto.
Qed.

(** *** A suspend and a resume *)

(** The masks are masks, hotplug is for a suspend, and [sched_smt_present] is
    the number of cores with two threads or more online. *)
Record suspending s : Prop := {
  su_init : sched_smp_initialized s = true;
  su_frozen : cpuhp_tasks_frozen s = true;
  su_active : mask_ok (active_cpus (cpus s));
  su_online : mask_ok (online_cpus (cpus s));
  su_smt : sched_smt_present s = smt_cores (online_cpus (cpus s));
  su_int : sched_smt_present s < 2 ^ 31
}.

Lemma take_down_run c s :
  suspending s -> c ∈ online_cpus (cpus s) -> 0 <= num_cpus_frozen s < 2 ^ 31 - 1 ->
  wp (take_down c) (fun _ s' => suspending s' /\ num_cpus_frozen s' = num_cpus_frozen s + 1 /\
    active_cpus (cpus s') = cpumask_clear_cpu c (active_cpus (cpus s)) /\
    online_cpus (cpus s') = cpumask_clear_cpu c (online_cpus (cpus s)) /\ span (rd (cpus s')) = span (rd (cpus s))) s.
Proof.
  intros [S1 S2 S3 S4 S5 S6] Hc Hn. unfold take_down, succeed, set_cpu_online. wstep. wstep.
  eapply wp_mono; [by apply deactivate_frozen|]. intros r s1 (-> & [E1 E2 E3 E4 E5 E6 E7]). cbn [Z.eqb negb].
  apply wp_bug_on; [done|]. wstep. pose proof (mask_clear_perm c _ S4 Hc) as Hp.
  assert (Hpres : sched_smt_present s1 = smt_cores (cpumask_clear_cpu c (online_cpus (cpus s)))).
  { rewrite E2, smt_after_eq. change (online_cpus (without c (cpus s))) with (online_cpus (cpus s)).
    pose proof (smt_cores_cons c (cpumask_clear_cpu c (online_cpus (cpus s)))) as H.
    rewrite <- (smt_cores_perm _ _ Hp) in H. unfold threads in *. rewrite <- Hp in H.
    destruct (_ =? 2); [|lia]. rewrite s32_small; unfold smt_cores in *; lia. }
  rewrite s32_small in E1 by lia. simpl. rewrite E3, E7. split_and!; [|lia|done|done|done].
  pose proof (smt_cores_more [c] (cpumask_clear_cpu c (online_cpus (cpus s)))) as Hle. cbn [app] in Hle.
  rewrite <- (smt_cores_perm _ _ Hp) in Hle.
  split; simpl; rewrite ?E3, ?E7; [congruence|congruence|by apply mask_clear_ok|by apply mask_clear_ok|done|lia].
Qed.

Lemma bring_up_run c s :
  suspending s -> c ∉ online_cpus (cpus s) -> c ∈ span (rd (cpus s)) -> - 2 ^ 31 < num_cpus_frozen s < 2 ^ 31 ->
  smt_cores (c :: online_cpus (cpus s)) < 2 ^ 31 ->
  wp (bring_up c) (fun _ s' => suspending s' /\ num_cpus_frozen s' = num_cpus_frozen s - 1 /\
    active_cpus (cpus s') = cpumask_set_cpu c (active_cpus (cpus s)) /\
    online_cpus (cpus s') = cpumask_set_cpu c (online_cpus (cpus s)) /\ span (rd (cpus s')) = span (rd (cpus s))) s.
Proof.
  intros [S1 S2 S3 S4 S5 S6] Hc Hsp Hn Hint. unfold bring_up, succeed, set_cpu_online. wstep. wstep. wstep.
  eapply wp_mono; [by apply activate_frozen|]. intros r s1 (-> & [E1 E2 E3 E4 E5 E6 E7]). cbn [Z.eqb negb].
  apply wp_bug_on; [done|]. simpl in *. pose proof (mask_set_perm c _ S4 Hc) as Hp.
  assert (Hpres : sched_smt_present s1 = smt_cores (cpumask_set_cpu c (online_cpus (cpus s)))).
  { rewrite E2, smt_after_eq. simpl. rewrite (smt_cores_perm _ _ Hp), smt_cores_cons in *. unfold threads in *. rewrite Hp.
    destruct (_ =? 2); [|lia]. rewrite s32_small; unfold smt_cores in *; lia. }
  rewrite s32_small in E1 by lia. rewrite E3, E7. split_and!; [|done..].
  split; rewrite ?E3, ?E7; [congruence|congruence|by apply mask_set_ok|by apply mask_set_ok|done|].
  rewrite Hpres, (smt_cores_perm _ _ Hp). lia.
Qed.

Lemma suspend_run l : forall s,
  suspending s -> NoDup l -> (forall c, c ∈ l -> c ∈ online_cpus (cpus s)) ->
  0 <= num_cpus_frozen s -> num_cpus_frozen s + Z.of_nat (length l) < 2 ^ 31 ->
  wp (foreach l take_down) (fun _ s' => suspending s' /\ num_cpus_frozen s' = num_cpus_frozen s + Z.of_nat (length l) /\
    (forall i, i ∈ active_cpus (cpus s') <-> i ∈ active_cpus (cpus s) /\ i ∉ l) /\
    (forall i, i ∈ online_cpus (cpus s') <-> i ∈ online_cpus (cpus s) /\ i ∉ l) /\
    span (rd (cpus s')) = span (rd (cpus s))) s.
Proof.
  induction l as [|c l IH]; intros s Hs Hl Hon H0 Hn.
  - apply (wp_intro _ _ _ tt s eq_refl). cbn [length]. split_and!; [done|lia|set_solver|set_solver|done].
  - apply NoDup_cons in Hl as [Hcl Hl]. cbn [foreach length] in *. wstep.
    eapply wp_mono; [apply take_down_run; [done|apply Hon; by left|lia]|]. intros [] s1 (S1 & E1 & E2 & E3 & E4).
    eapply wp_mono; [apply IH; [done|done| |lia|lia]|].
    { intros i Hi. rewrite E3, mask_clear_elem. split; [by intros ->|apply Hon; by right]. }
    intros [] s2 (S2 & F1 & F2 & F3 & F4). split_and!; [done|lia| | |congruence].
    + intros i. rewrite F2, E2, mask_clear_elem, not_elem_of_cons. tauto.
    + intros i. rewrite F3, E3, mask_clear_elem, not_elem_of_cons. tauto.
Qed.

Lemma resume_run l : forall s,
  suspending s -> NoDup l -> (forall c, c ∈ l -> c ∉ online_cpus (cpus s) /\ c ∈ span (rd (cpus s))) ->
  0 <= num_cpus_frozen s - Z.of_nat (length l) -> num_cpus_frozen s < 2 ^ 31 ->
  smt_cores (l ++ online_cpus (cpus s)) < 2 ^ 31 ->
  wp (foreach l bring_up) (fun _ s' => suspending s' /\ num_cpus_frozen s' = num_cpus_frozen s - Z.of_nat (length l) /\
    (forall i, i ∈ active_cpus (cpus s') <-> i ∈ active_cpus (cpus s) \/ i ∈ l) /\
    (forall i, i ∈ online_cpus (cpus s') <-> i ∈ online_cpus (cpus s) \/ i ∈ l)) s.
Proof.
  induction l as [|c l IH]; intros s Hs Hl Hoff H0 Hn Hint.
  - apply (wp_intro _ _ _ tt s eq_refl). cbn [length]. split_and!; [done|lia|set_solver|set_solver].
  - apply NoDup_cons in Hl as [Hcl Hl]. cbn [foreach length] in *. destruct (Hoff c ltac:(by left)) as [Hc Hsp].
    assert (Hp : (c :: l) ++ online_cpus (cpus s) ≡ₚ l ++ c :: online_cpus (cpus s)).
    { cbn [app]. by rewrite Permutation_middle. }
    rewrite (smt_cores_perm _ _ Hp) in Hint. wstep.
    eapply wp_mono; [apply bring_up_run; [done|done|done|lia|]|].
    { eapply Z.le_lt_trans; [apply (smt_cores_more l)|exact Hint]. }
    intros [] s1 (S1 & E1 & E2 & E3 & E4). eapply wp_mono; [apply IH; [done|done| |lia|lia|]|].
    { intros i Hi. rewrite E3, E4, set_cpu_elem. destruct (Hoff i ltac:(by right)). split; [|done].
      intros [->|]; done. }
    { rewrite E3. by rewrite (smt_cores_perm _ (l ++ c :: online_cpus (cpus s))) by (by rewrite mask_set_perm by (apply Hs || done)). }
    intros [] s2 (S2 & F1 & F2 & F3). split_and!; [done|lia| |].
    + intros i. rewrite F2, E2, set_cpu_elem, elem_of_cons. tauto.
    + intros i. rewrite F3, E3, set_cpu_elem, elem_of_cons. tauto.
Qed.

(** C14: A suspend takes any CPUs down, one by one, and the resume brings them up
    again in any order: no call is refused, in between exactly the CPUs that
    were left are active, [num_cpus_frozen] counts the others and
    [sched_smt_present] the cores that still have two threads or more, and at
    the end the active CPUs, [num_cpus_frozen] and [sched_smt_present] are what
    they were. *)
Theorem suspend_resume down up s :
  suspending s -> num_cpus_frozen s = 0 -> Z.of_nat (length down) < 2 ^ 31 -> NoDup down ->
  (forall c, c ∈ down -> c ∈ active_cpus (cpus s) /\ c ∈ online_cpus (cpus s) /\ c ∈ span (rd (cpus s))) -> up ≡ₚ down ->
  exists s1 s2, foreach down take_down s = Done (tt, s1) /\ foreach up bring_up s1 = Done (tt, s2) /\
    (forall i, i ∈ active_cpus (cpus s1) <-> i ∈ active_cpus (cpus s) /\ i ∉ down) /\
    num_cpus_frozen s1 = Z.of_nat (length down) /\
    sched_smt_present s1 = smt_cores (online_cpus (cpus s1)) /\
    (forall i, i ∈ online_cpus (cpus s1) <-> i ∈ online_cpus (cpus s) /\ i ∉ down) /\
    active_cpus (cpus s2) = active_cpus (cpus s) /\ num_cpus_frozen s2 = 0 /\
    sched_smt_present s2 = sched_smt_present s.
Proof.
  intros Hs Hz Hl Hnd Hdown Hup.
  pose proof (suspend_run down s Hs Hnd ltac:(apply Hdown) ltac:(lia) ltac:(lia)) as H1.
  apply wp_done in H1 as ([] & s1 & He1 & S1 & E1 & E2 & E3 & E4).
  assert (Ho : mask_ok (online_cpus (cpus s))) by apply Hs.
  assert (Hback : up ++ online_cpus (cpus s1) ≡ₚ online_cpus (cpus s)).
  { rewrite Hup. apply NoDup_Permutation; [|by apply mask_NoDup|].
    - apply NoDup_app. split; [done|]. split; [intros i Hi; rewrite E3; tauto|apply mask_NoDup, S1].
    - intros i. rewrite elem_of_app, E3. specialize (Hdown i). destruct (decide (i ∈ down)); tauto. }
  pose proof (resume_run up s1 S1 ltac:(by rewrite Hup)) as H2.
  assert (Eup : length up = length down) by by rewrite Hup.
  rewrite (smt_cores_perm _ _ Hback), <- (su_smt _ Hs) in H2.
  destruct (proj1 (wp_done _ _ _) (H2 ltac:(intros c Hc; rewrite E3, E4; rewrite Hup in Hc; destruct (Hdown c Hc); tauto)
    ltac:(lia) ltac:(lia) ltac:(apply Hs))) as ([] & s2 & He2 & S2 & F1 & F2 & F3).
  assert (Eon : online_cpus (cpus s2) = online_cpus (cpus s)).
  { apply mask_ext; [apply S2|done|]. intros i. rewrite F3, Hup, E3. specialize (Hdown i). destruct (decide (i ∈ down)); tauto. }
  exists s1, s2. split_and!; [done|done|done|lia|apply S1|done| |lia|].
  - apply mask_ext; [apply S2|apply Hs|]. intros i. rewrite F2, Hup, E2. specialize (Hdown i).
    destruct (decide (i ∈ down)); tauto.
  - by rewrite (su_smt _ S2), (su_smt _ Hs), Eon.
Qed.
End Smt.

(** The state in which [sched_cpu_deactivate] asks for the deadline tasks. *)
Definition deactivating c s : hstate :=
  s <| cpus ::= without c |>
    <| sched_smt_present ::= smt_after (without c (cpus s)) c (-1) |>.

(** C16: Without a suspend, [sched_cpu_deactivate] on a CPU whose deadline tasks
    need it returns [-EBUSY] and makes the CPU active again; but it does not
    take back the change of [sched_smt_present], which stays one too low when
    the core of the CPU has two threads. *)
Theorem deactivate_busy c s :
  sched_smp_initialized s = true -> cpuhp_tasks_frozen s = false -> mask_ok (active_cpus (cpus s)) ->
  c ∈ active_cpus (cpus s) -> dl_cpu_busy c (deactivating c s) = true ->
  sched_cpu_deactivate c s = Done (- EBUSY, s <| sched_smt_present ::= smt_after (without c (cpus s)) c (-1) |>).
Proof.
  intros Hi Hf Hm Hc Hb. unfold sched_cpu_deactivate.
  set (s1 := s <| cpus ::= without c |>).
  assert (E1 : set_cpu_active c false s = Done (tt, s1)) by reflexivity.
  assert (E2 : when (cpumask_weight (cpu_smt_mask (cpus s1) c) =? 2)
    (modify (fun s => s <| sched_smt_present ::= fun n => s32 (n - 1) |>)) s1 = Done (tt, deactivating c s)).
  { unfold deactivating, smt_after. change (cpus s1) with (without c (cpus s)). destruct (_ =? 2); [reflexivity|]. by destruct s. }
  rewrite (bind_done _ _ _ _ _ E1), bind_gets, (bind_done _ _ _ _ _ E2), bind_gets.
  change (sched_smp_initialized (deactivating c s)) with (sched_smp_initialized s). rewrite Hi. cbn [negb].
  assert (E3 : cpuset_cpu_inactive c (deactivating c s) = Done (- EBUSY, deactivating c s)).
  { unfold cpuset_cpu_inactive. rewrite bind_gets. change (cpuhp_tasks_frozen (deactivating c s)) with (cpuhp_tasks_frozen s).
    by rewrite Hf, Hb. }
  rewrite (bind_done _ _ _ _ _ E3). change (- EBUSY =? 0) with false. cbn [negb]. unfold set_cpu_active.
  rewrite (bind_done _ _ _ tt (s <| sched_smt_present ::= smt_after (without c (cpus s)) c (-1) |>)); [done|].
  assert (Ek : cpus s <| active_cpus ::= cpumask_clear_cpu c |> <| active_cpus ::= cpumask_set_cpu c |> = cpus s).
  { destruct (cpus s) eqn:E. simpl in *. unfold upd, active_cpus_field. simpl. by rewrite mask_set_clear. }
  transitivity (Done (tt, mk_hstate (cpus s <| active_cpus ::= cpumask_clear_cpu c |> <| active_cpus ::= cpumask_set_cpu c |>)
    (num_cpus_frozen s) (cpuhp_tasks_frozen s) (smt_after (without c (cpus s)) c (-1) (sched_smt_present s)) (sched_smp_initialized s)
    (calc_load_tasks s) (calc_load_update s) (rq_calc_load_update s) (numa_preferred_nid s))); [reflexivity|].
  by rewrite Ek.
Qed.
End Cpu.

(** ** Two CPUs of one core *)

Module CpuExample.
Import Machine Steps.Example DyingExample.
#[local] Existing Instances features limits topology cpupri0 others1 hotplug_env.

#[local] Instance hotplug_laws : HotplugLaws.
Proof. split; try (intros; split; [apply total_ret|apply frames_ret, _]). by intros []. Qed.

#[local] Instance smt_laws : SmtLaws core_of.
Proof. intros k c. reflexivity. Qed.

Definition two_threads (frozen : bool) : hstate :=
  mk_hstate machine0 0 frozen 1 true 0 0 (fun _ => 0) (fun _ => 0).

Lemma machine0_masks : mask_ok (active_cpus machine0) /\ mask_ok (online_cpus machine0).
Proof. by split; apply mask_Forall; split; [apply mask_Forall; split; [constructor|by intros i ?%not_elem_of_nil]|
  intros i ->%list_elem_of_singleton| apply mask_Forall; split; [constructor|by intros i ?%not_elem_of_nil]|
  intros i ->%list_elem_of_singleton]. Qed.

Lemma two_threads_suspending : suspending core_of (two_threads true).
Proof. split; [done|done|apply machine0_masks|apply machine0_masks|by vm_compute|by vm_compute]. Qed.

Lemma suspend_resume_witness :
  exists s1 s2, foreach [1; 0] take_down (two_threads true) = Done (tt, s1) /\
    foreach [0; 1] bring_up s1 = Done (tt, s2) /\
    num_cpus_frozen s1 = 2 /\ active_cpus (cpus s2) = [0; 1] /\ sched_smt_present s2 = 1.
Proof.
  destruct (suspend_resume core_of [1; 0] [0; 1] (two_threads true)) as (s1 & s2 & H1 & H2 & _ & H3 & _ & _ & H4 & _ & H5);
    [exact two_threads_suspending|reflexivity|cbn; lia|by apply (bool_decide_unpack _)| |apply Permutation_swap|].
  - intros c Hc. assert (H : c ∈ [0; 1]) by (revert Hc; rewrite !elem_of_cons; tauto). by split.
  - exists s1, s2. split_and!; [exact H1|exact H2|exact H3|exact H4|exact H5].
Defined.

Lemma deactivate_busy_witness :
  let k := without 1 (cpus (two_threads false)) in
  sched_cpu_deactivate 1 (two_threads false)
  = Done (- EBUSY, two_threads false <| sched_smt_present ::= smt_after k 1 (-1) |>) /\ smt_after k 1 (-1) 1 = 0.
Proof.
  split; [|reflexivity]. apply (deactivate_busy 1 (two_threads false));
    [reflexivity|reflexivity|apply machine0_masks|right; left|reflexivity].
Defined.
End CpuExample.
