(* ===== verification/WakeQ.v ===== *)
(** * Wake queues ([kernel/sched/core.c])

    [wake_q_add] links a task into a list that goes through the [wake_q] node
    of the tasks themselves, and [wake_up_q] wakes the tasks of the list.  The
    list is modelled with its pointers; the theorem says that it is a queue. *)

From S2P Require Import Prelude Sched Ts RtBandwidth Rt RtProps SchedClass ClassProps Frames CoreInv.
From S2P Require Import SetSched Wake CoreProps Switch SwitchProps InOrder Steps.

(** ** The list *)

(** [struct wake_q_node *]: null, [WAKE_Q_TAIL], or the node of a task. *)
Inductive node_ptr : Type := NULL | WAKE_Q_TAIL | NODE (p : task).

#[export] Instance node_ptr_eq : EqDecision node_ptr.
Proof. solve_decision. Defined.

(** [struct wake_q_node **]: the [first] of a head, or the [next] of a task. *)
Inductive node_slot : Type := FIRST (h : Z) | NEXT (p : task).

Record wake_q_head : Type := mk_wake_q_head {
  first : node_ptr;
  lastp : node_slot
}.

Record wstate : Type := mk_wstate {
  kern_state : kstate;
  heads : Z -> wake_q_head;
  wake_q_next : task -> node_ptr;  (** [task->wake_q.next] *)
  usage : task -> Z  (** [task->usage] *)
}.

Definition eta_wake_q_head (r : wake_q_head) : wake_q_head := mk_wake_q_head (first r) (lastp r).
#[export] Instance upd_first : Field first := ltac:(solve_field eta_wake_q_head).
#[export] Instance upd_lastp : Field lastp := ltac:(solve_field eta_wake_q_head).
Definition eta_wstate (r : wstate) : wstate := mk_wstate (kern_state r) (heads r) (wake_q_next r) (usage r).
#[export] Instance upd_kern_state : Field kern_state := ltac:(solve_field eta_wstate).
#[export] Instance upd_heads : Field heads := ltac:(solve_field eta_wstate).
#[export] Instance upd_wake_q_next : Field wake_q_next := ltac:(solve_field eta_wstate).
#[export] Instance upd_usage : Field usage := ltac:(solve_field eta_wstate).

Abbreviation W := (M wstate).

Definition set_next (p : task) (v : node_ptr) : W unit :=
  modify (fun s => s <| wake_q_next ::= alter (fun _ => v) p |>).

(** [*slot = v] *)
Definition store (slot : node_slot) (v : node_ptr) : W unit :=
  match slot with
  | FIRST h => modify (fun s => s <| heads ::= alter (fun q => q <| first := v |>) h |>)
  | NEXT p => set_next p v
  end.

(** A computation of the scheduler. *)
Definition on_kernel {A} (m : K A) : W A := fun s =>
  match m (kern_state s) with
  | Done (a, k) => Done (a, s <| kern_state := k |>)
  | Crash f => Crash f
  end.

(** Taking and dropping a reference to a task, in [linux/sched/task.h]; with
    the last reference, the task is freed. *)
Class TaskRefs : Type := {
  get_task_struct : task -> W unit;
  put_task_struct : task -> W unit
}.

(** What is relied on: [task->usage] counts the references. *)
Class TaskRefLaws `{TaskRefs} : Prop := {
  get_task_struct_run p s : 0 <= usage s p < 2 ^ 31 - 1 ->
    get_task_struct p s = Done (tt, s <| usage ::= alter (fun n => n + 1) p |>);
  put_task_struct_run p s : 1 < usage s p < 2 ^ 31 ->
    put_task_struct p s = Done (tt, s <| usage ::= alter (fun n => n - 1) p |>)
}.

(** A head without tasks. *)
Definition empty_head (h : Z) : wake_q_head := mk_wake_q_head WAKE_Q_TAIL (FIRST h).

(** [cmpxchg_relaxed] returns what was there. *)
Definition wake_q_add `{TaskRefs} (h : Z) (p : task) : W unit :=
  let! s := gets (fun s => s) in
  if negb (bool_decide (wake_q_next s p = NULL)) then ret tt else
  do! set_next p WAKE_Q_TAIL in
  do! get_task_struct p in
  let! s := gets (fun s => s) in
  do! store (lastp (heads s h)) (NODE p) in
  modify (fun s => s <| heads ::= alter (fun q => q <| lastp := NEXT p |>) h |>).

Section WakeQ.
Context `{Hfeat : SchedFeat} `{Hlim : Rlimits} `{Hpri : Cpupri} `{Htop : Topology}.
Context `{Hoth : OtherClasses} `{Henv : CoreEnv} `{Hrefs : TaskRefs}.

(** The loop; [node] is never null in a list that is terminated. *)
Fixpoint wake_up_nodes (fuel : nat) (node : node_ptr) : W unit :=
  match fuel with
  | O => crash OutOfFuel
  | S fuel =>
      match node with
      | WAKE_Q_TAIL => ret tt
      | NULL => crash NullDeref
      | NODE p =>
          let! s := gets (fun s => s) in
          let node := wake_q_next s p in
          do! set_next p NULL in
          let! _ := on_kernel (wake_up_process p) in
          do! put_task_struct p in
          wake_up_nodes fuel node
      end
  end.

Definition wake_up_q (fuel : nat) (h : Z) : W unit :=
  let! s := gets (fun s => s) in
  wake_up_nodes fuel (first (heads s h)).
End WakeQ.

(** ** The list is a queue *)

(** From [node] on, the tasks [l] are linked, and the last one is marked. *)
Fixpoint linked (next : task -> node_ptr) (node : node_ptr) (l : list task) : Prop :=
  match l with
  | [] => node = WAKE_Q_TAIL
  | p :: l => node = NODE p /\ linked next (next p) l
  end.

(** [lastp] points to where the list ends. *)
Definition end_slot (h : Z) (l : list task) : node_slot :=
  match last l with Some p => NEXT p | None => FIRST h end.

Record holds (h : Z) (l : list task) (s : wstate) : Prop := {
  ho_linked : linked (wake_q_next s) (first (heads s h)) l;
  ho_last : lastp (heads s h) = end_slot h l;
  ho_nodup : NoDup l
}.

Section Lists.
Implicit Types (p : task) (l : list task) (next : task -> node_ptr) (h : Z).

Lemma linked_ext next next' node l :
  (forall p, p ∈ l -> next' p = next p) -> linked next node l -> linked next' node l.
Proof.
  revert node. induction l as [|p l IH]; intros node H; [done|]. intros [-> Hl]. split; [done|].
  rewrite H by by left. apply IH; [|done]. intros x Hx. apply H. by right.
Qed.

Lemma linked_not_null next node l p : linked next node l -> p ∈ l -> next p <> NULL.
Proof.
  revert node. induction l as [|x l IH]; intros node; [by intros _ ?%not_elem_of_nil|].
  intros [_ Hl] [->|Hp]%elem_of_cons; [|by eapply IH].
  destruct l; [by rewrite Hl|]. by destruct Hl as [-> _].
Qed.

(** Storing the node of [p] where the list ends. *)
Lemma linked_snoc next node l p :
  linked next node l -> NoDup l -> p ∉ l -> next p = WAKE_Q_TAIL ->
  match last l with
  | Some x => linked (alter (fun _ => NODE p) x next) node (l ++ [p])
  | None => linked next (NODE p) (l ++ [p])
  end.
Proof.
  intros Hl Hnd Hp Ht. destruct l as [|x l _] using rev_ind; [by split|]. rewrite last_snoc.
  revert node Hl. induction l as [|y l IH]; intros node.
  - intros [-> Hx]. cbn [app linked]. rewrite fn_lookup_alter. split_and!; [done..|].
    rewrite fn_lookup_alter_ne; [done|]. set_solver.
  - cbn [app linked]. intros [-> Hl]. apply NoDup_cons in Hnd as [Hy Hnd]. split; [done|].
    rewrite fn_lookup_alter_ne by set_solver. apply IH; [done|set_solver|done].
Qed.
End Lists.

(** The list after the tasks [ps] were added to [l]: each one once, in the
    order of the first additions. *)
Definition add_all (l ps : list task) : list task :=
  foldl (fun l p => if decide (p ∈ l) then l else l ++ [p]) l ps.

(** What adding has done, since [s0], to a list that now is [l]. *)
Record added (h : Z) (l : list task) (s0 s : wstate) : Prop := {
  ad_holds : holds h l s;
  ad_kern : kern_state s = kern_state s0;
  ad_next : forall x, x ∉ l -> wake_q_next s x = wake_q_next s0 x;
  ad_usage : forall x, usage s x = usage s0 x + (if decide (x ∈ l) then 1 else 0)
}.

Section Adding.
Context `{Hrefs : TaskRefs} {Hrl : TaskRefLaws}.
Implicit Types (p x : task) (l ps : list task) (h : Z) (s : wstate).

Lemma wake_q_add_new h l p s0 s :
  added h l s0 s -> p ∉ l -> wake_q_next s0 p = NULL -> 0 <= usage s0 p < 2 ^ 31 - 1 ->
  wp (wake_q_add h p) (fun _ s' => added h (l ++ [p]) s0 s') s.
Proof.
  intros [[H1 H2 H3] Hk Hn Hu] Hp H0 Hr. unfold wake_q_add, set_next. do 2 wstep.
  rewrite Hn, H0 by done. rewrite bool_decide_true by done. cbn [negb]. do 3 wstep.
  assert (Hp0 : usage s p = usage s0 p) by (rewrite Hu, decide_False by done; lia).
  eapply wp_intro; [apply get_task_struct_run; change (0 <= usage s p < 2 ^ 31 - 1); by rewrite Hp0|]. wgo.
  set (s1 := s <| wake_q_next ::= _ |> <| usage ::= _ |>).
  assert (Hd : forall x, usage s1 x = usage s0 x + (if decide (x ∈ l ++ [p]) then 1 else 0)).
  { intros x. unfold s1. simpl. destruct (decide (p = x)) as [<-|Hx].
    - rewrite fn_lookup_alter, Hu, (decide_False (P := p ∈ l)), decide_True by set_solver. lia.
    - rewrite fn_lookup_alter_ne, Hu by done. do 2 case_decide; set_solver. }
  assert (Hl1 : match last l with
     | Some x => linked (alter (fun _ => NODE p) x (wake_q_next s1)) (first (heads s h)) (l ++ [p])
     | None => linked (wake_q_next s1) (NODE p) (l ++ [p]) end).
  { apply linked_snoc; [|done|done|unfold s1; simpl; by rewrite fn_lookup_alter].
    apply (linked_ext (wake_q_next s)); [|done]. intros x Hx. unfold s1. simpl. rewrite fn_lookup_alter_ne; [done|set_solver]. }
  assert (Hn1 : forall x, x ∉ l ++ [p] -> wake_q_next s1 x = wake_q_next s0 x).
  { intros x Hx. unfold s1. simpl. rewrite fn_lookup_alter_ne by set_solver. apply Hn. set_solver. }
  assert (Hl0 : lastp (heads s1 h) = end_slot h l) by done. rewrite Hl0. unfold end_slot.
  change (first (heads s h)) with (first (heads s1 h)) in Hl1. assert (Hk1 : kern_state s1 = kern_state s0) by done.
  clearbody s1. clear H1 H2 Hn Hu Hk Hl0.
  assert (Hnd : NoDup (l ++ [p])) by (apply NoDup_app; split_and!; [done|set_solver|by apply NoDup_singleton]).
  destruct (last l) as [y|] eqn:Ey; unfold store, set_next; wgo; (split; [split|done| |done]); simpl; try done.
  - by rewrite fn_lookup_alter.
  - rewrite fn_lookup_alter. unfold end_slot. by rewrite last_snoc.
  - intros x Hx. assert (y ∈ l) by (by apply last_Some_elem_of). rewrite fn_lookup_alter_ne by set_solver. by apply Hn1.
  - by rewrite !fn_lookup_alter.
  - rewrite !fn_lookup_alter. unfold end_slot. by rewrite last_snoc.
Qed.

Lemma wake_q_add_run h l p s0 s :
  added h l s0 s -> wake_q_next s0 p = NULL -> 0 <= usage s0 p < 2 ^ 31 - 1 ->
  wp (wake_q_add h p) (fun _ s' => added h (add_all l [p]) s0 s') s.
Proof.
  intros Ha H0 Hr. cbn [add_all foldl]. case_decide as Hp; [|by apply wake_q_add_new].
  pose proof (linked_not_null _ _ _ p (ho_linked _ _ _ (ad_holds _ _ _ _ Ha)) Hp) as Hn.
  unfold wake_q_add. do 2 wstep. by rewrite bool_decide_false.
Qed.

Lemma add_all_run h ps : forall l s0 s,
  added h l s0 s -> (forall p, p ∈ ps -> wake_q_next s0 p = NULL /\ 0 <= usage s0 p < 2 ^ 31 - 1) ->
  wp (foreach ps (wake_q_add h)) (fun _ s' => added h (add_all l ps) s0 s') s.
Proof.
  induction ps as [|p ps IH]; intros l s0 s Ha Hps; [by apply (wp_intro _ _ _ tt s)|]. cbn [foreach]. wstep.
  eapply wp_mono; [apply wake_q_add_run; [exact Ha|apply Hps; by left..]|]. intros [] s1 H1.
  apply IH; [exact H1|]. intros x Hx. apply Hps. by right.
Qed.
End Adding.

(** ** Waking the tasks of the list *)

Section Waking.
Context `{Hfeat : SchedFeat} `{Hlim : Rlimits} `{Hpri : Cpupri} `{Htop : Topology}.
Context `{Hoth : OtherClasses} {Hlaws : OtherLaws} `{Henv : CoreEnv} `{Hsw : SwitchEnv} {Hswl : SwitchLaws}.
Context `{Hrefs : TaskRefs} {Hrl : TaskRefLaws}.
Implicit Types (p x : task) (l ps : list task) (h : Z) (s : wstate).

(** What [wake_up_q] promises: [wake_up_process] on each task of the list. *)
Definition wake_all (l : list task) : K unit :=
  foreach l (fun p => let! _ := wake_up_process p in ret tt).

Lemma wake_up_nodes_run l : forall fuel node s k,
  linked (wake_q_next s) node l -> NoDup l -> (forall p, p ∈ l -> 1 < usage s p < 2 ^ 31) ->
  wake_all l (kern_state s) = Done (tt, k) -> (length l < fuel)%nat ->
  wp (wake_up_nodes fuel node) (fun _ s' => kern_state s' = k /\
    (forall x, wake_q_next s' x = if decide (x ∈ l) then NULL else wake_q_next s x) /\
    forall x, usage s' x = usage s x - (if decide (x ∈ l) then 1 else 0)) s.
Proof.
  induction l as [|p l IH]; intros fuel node s k Hl Hnd Hu Hw Hf; (destruct fuel as [|fuel]; [cbn in Hf; lia|]);
    cbn [linked] in Hl; cbn [wake_up_nodes].
  - rewrite Hl. injection Hw as <-. wstep. split_and!; [done|..]; intros x; by rewrite ?Z.sub_0_r.
  - destruct Hl as [-> Hl]. apply NoDup_cons in Hnd as [Hp Hnd]. unfold wake_all in Hw. cbn [foreach] in Hw.
    apply bind_inv in Hw as ([] & k1 & H1 & Hw). apply bind_inv in H1 as (r & k1' & H1 & [= <-]).
    do 2 wstep. wstep. unfold set_next. wstep. wstep. eapply wp_intro; [unfold on_kernel; simpl; by rewrite H1|].
    pose proof (Hu p ltac:(by left)) as Hup. wstep.
    eapply wp_intro; [apply put_task_struct_run; exact Hup|].
    set (s1 := upd_kern_state _ _ <| usage ::= _ |>).
    assert (En : forall x, wake_q_next s1 x = if decide (x = p) then NULL else wake_q_next s x).
    { intros x. unfold s1. simpl. case_decide as Hx; [subst; by rewrite fn_lookup_alter|by rewrite fn_lookup_alter_ne]. }
    assert (Eu : forall x, usage s1 x = usage s x - if decide (x = p) then 1 else 0).
    { intros x. unfold s1. simpl. case_decide as Hx; [subst|rewrite fn_lookup_alter_ne by done; lia].
      rewrite fn_lookup_alter. lia. }
    assert (Ek : kern_state s1 = k1') by done. clearbody s1.
    eapply wp_mono; [apply (IH fuel _ s1 k)|].
    + apply (linked_ext (wake_q_next s)); [|done]. intros x Hx. rewrite En, decide_False; [done|set_solver].
    + done.
    + intros x Hx. rewrite Eu, decide_False by set_solver. rewrite Z.sub_0_r. apply Hu. by right.
    + by rewrite Ek.
    + cbn [length] in Hf. lia.
    + intros [] s2 (F1 & F2 & F3). split_and!; [done|..]; intros x; rewrite ?F2, ?F3, ?En, ?Eu; clear F2 F3 En Eu.
      * destruct (decide (x = p)) as [->|Hx]; [rewrite (decide_False (P := p ∈ l)), decide_True by set_solver; done|].
        do 2 case_decide; set_solver.
      * destruct (decide (x = p)) as [->|Hx]; [rewrite (decide_False (P := p ∈ l)), decide_True by set_solver; lia|].
        do 2 case_decide; set_solver by lia.
Qed.

(** One wake-up on a machine in order. *)
Record woken p (k k' : kstate) : Prop := {
  wo_order : in_order k';
  wo_local : wakes_locally k';
  wo_class : forall x, sched_class (tasks k' x) = sched_class (tasks k x);
  wo_runs : has (state (tasks k p)) TASK_NORMAL = true -> state (tasks k' p) = TASK_RUNNING /\ runnable k' p = true;
  wo_none : has (state (tasks k p)) TASK_NORMAL = false -> k' = k;
  wo_rest : forall x, x <> p -> mine k x -> state (tasks k' x) = state (tasks k x) /\ runnable k' x = runnable k x
}.

Lemma wake_one p (k : kstate) :
  in_order k -> mine k p -> wakes_locally k -> wp (wake_up_process p) (fun _ k' => woken p k k') k.
Proof.
  intros Ho Hm Hl. unfold wake_up_process. pose proof (wake_in_order p TASK_NORMAL 0 k Ho Hm Hl) as Hio.
  destruct (has (state (tasks k p)) TASK_NORMAL) eqn:Hst.
  - pose proof (try_to_wake_up_run p TASK_NORMAL 0 k (od_settled _ _ Ho) (od_curr _ _ Ho) (od_runs _ _ Ho)
      (in_order_wakeable p k Ho Hm) Hl Hst) as H.
    apply wp_done in H as (r & k' & He & _ & [Hs Hw] & E). apply (wp_intro _ _ _ _ _ He).
    pose proof (wp_elim _ _ _ _ _ Hio He) as Ho'. pose proof (wakes_rests _ _ _ Hm Hs Hw) as Hr.
    split; [done|by eapply wakes_local|apply Hr|intros _; split; [done|by apply stands_runnable]|by rewrite Hst|].
    intros x Hx Hmx. destruct (kb_task _ _ _ (wk_others _ _ _ Hw) x Hx Hmx) as [F1 _ _ F4 _ _ _ _ _ _].
    split; [done|]. unfold runnable, task_on_rq_queued. by rewrite F4.
  - assert (He : try_to_wake_up p TASK_NORMAL 0 k = Done (0, k)).
    { unfold try_to_wake_up, get_task. by rewrite bind_gets, Hst. }
    apply (wp_intro _ _ _ _ _ He). by split; rewrite ?Hst.
Qed.

Lemma wake_all_run l : forall k : kstate,
  in_order k -> (forall p, p ∈ l -> mine k p) -> wakes_locally k -> NoDup l ->
  wp (wake_all l) (fun _ k' => in_order k' /\ (forall x, sched_class (tasks k' x) = sched_class (tasks k x)) /\
    (forall p, p ∈ l -> has (state (tasks k p)) TASK_NORMAL = true ->
       state (tasks k' p) = TASK_RUNNING /\ runnable k' p = true) /\
    forall x, mine k x -> x ∉ l \/ has (state (tasks k x)) TASK_NORMAL = false ->
      state (tasks k' x) = state (tasks k x) /\ runnable k' x = runnable k x) k.
Proof.
  induction l as [|p l IH]; intros k Ho Hm Hl Hnd.
  { apply (wp_intro _ _ _ tt k eq_refl). split_and!; [done|done| |done]. by intros p ?%not_elem_of_nil. }
  apply NoDup_cons in Hnd as [Hp Hnd]. unfold wake_all. cbn [foreach]. wstep. wstep.
  eapply wp_mono; [apply wake_one; [done|apply Hm; by left|done]|]. intros r k1 [W1 W2 W3 W4 W5 W6]. wstep.
  assert (Hmi : forall x, mine k1 x <-> mine k x) by (intros x; unfold mine; by rewrite W3).
  eapply wp_mono; [apply (IH k1); [done|intros x Hx; apply Hmi, Hm; by right|done|done]|].
  intros [] k2 (V1 & V2 & V3 & V4). split_and!; [done|intros x; by rewrite V2| |].
  - intros x Hx Hst. apply elem_of_cons in Hx as [->|Hx].
    + destruct (V4 p ltac:(apply Hmi, Hm; by left) ltac:(by left)) as [-> ->]. by apply W4.
    + assert (x <> p) by (intros ->; done). destruct (W6 x ltac:(done) ltac:(apply Hm; by right)) as [E1 E2].
      apply V3; [done|by rewrite E1].
  - intros x Hx Hor. destruct (decide (x = p)) as [->|Hxp].
    + destruct Hor as [Hor|Hor]; [by exfalso; apply Hor; left|]. rewrite (W5 Hor) in V4. apply V4; [done|by left].
    + destruct (W6 x Hxp Hx) as [E1 E2]. destruct (V4 x) as [-> ->]; [by apply Hmi| |done].
      rewrite E1. destruct Hor as [Hor|Hor]; [left|by right]. intros Hxl. apply Hor. by right.
Qed.

Lemma add_all_spec ps : forall l, NoDup l -> NoDup (add_all l ps) /\ forall x, x ∈ add_all l ps <-> x ∈ l \/ x ∈ ps.
Proof.
  induction ps as [|p ps IH]; intros l Hl; cbn [add_all foldl].
  - split; [done|]. intros x. set_solver.
  - fold (add_all (if decide (p ∈ l) then l else l ++ [p]) ps).
    destruct (IH (if decide (p ∈ l) then l else l ++ [p])) as [H1 H2].
    { case_decide; [done|]. apply NoDup_app. split_and!; [done|set_solver|by apply NoDup_singleton]. }
    split; [exact H1|]. intros x. rewrite H2. case_decide; set_solver.
Qed.

(** C13: A wake queue is a queue: when the tasks [ps], none of which is on a
    wake queue, are added to an empty one, [wake_up_q] calls [wake_up_process]
    on each of them once, in the order in which they were added first, however
    often they were added; afterwards every [wake_q] node is free again, every
    reference is given back, and, on a machine in order, each of the tasks that
    slept is running and on the run queue of one CPU. *)
Theorem wake_q_spec h ps fuel s :
  in_order (kern_state s) -> wakes_locally (kern_state s) -> heads s h = empty_head h ->
  (forall p, p ∈ ps -> mine (kern_state s) p /\ wake_q_next s p = NULL /\ 1 <= usage s p < 2 ^ 31 - 1) ->
  (length ps < fuel)%nat ->
  exists s', (do! foreach ps (wake_q_add h) in wake_up_q fuel h) s = Done (tt, s') /\
    wake_all (add_all [] ps) (kern_state s) = Done (tt, kern_state s') /\
    (forall x, wake_q_next s' x = wake_q_next s x) /\ (forall x, usage s' x = usage s x) /\
    in_order (kern_state s') /\
    forall p, p ∈ ps -> has (state (tasks (kern_state s) p)) TASK_NORMAL = true ->
      state (tasks (kern_state s') p) = TASK_RUNNING /\
      forall c, on_queue (kern_state s') p c <-> c = task_cpu (tasks (kern_state s') p).
Proof.
  intros Ho Hl Hh Hps Hf. destruct (add_all_spec ps [] ltac:(constructor)) as [Hnd Hin].
  assert (Hin' : forall x, x ∈ add_all [] ps <-> x ∈ ps) by (intros x; rewrite Hin; set_solver).
  assert (Ha0 : added h [] s s).
  { split; [split; rewrite ?Hh; [done|done|constructor]|done|done|]. intros x. by rewrite decide_False, Z.add_0_r by apply not_elem_of_nil. }
  pose proof (add_all_run h ps [] s s Ha0 ltac:(intros p (_ & ? & ?)%Hps; split; [done|lia])) as H1.
  apply wp_done in H1 as ([] & s1 & He1 & [[A1 A2 A3] Ak An Au]).
  pose proof (wake_all_run (add_all [] ps) (kern_state s) Ho ltac:(intros p Hp; by apply Hps, Hin') Hl Hnd) as H2.
  apply wp_done in H2 as ([] & k & He2 & W1 & W2 & W3 & _).
  assert (Hlen : (length (add_all [] ps) <= length ps)%nat).
  { apply submseteq_length, NoDup_submseteq; [done|]. intros x. by rewrite Hin'. }
  pose proof (wake_up_nodes_run (add_all [] ps) fuel _ s1 k A1 Hnd
    ltac:(intros p Hp; rewrite Au, decide_True by done; apply Hin', Hps in Hp; lia) ltac:(by rewrite Ak) ltac:(lia)) as H3.
  apply wp_done in H3 as ([] & s2 & He3 & Ek & En & Eu). exists s2. rewrite Ek. split_and!; [|done| | |done|].
  - rewrite (bind_done _ _ _ _ _ He1). unfold wake_up_q. by rewrite bind_gets.
  - intros x. rewrite En. case_decide as Hx; [|by apply An]. by destruct (Hps x) as (_ & -> & _); [apply Hin'|].
  - intros x. rewrite Eu, Au. case_decide; lia.
  - intros p Hp Hst. destruct (W3 p) as [E1 E2]; [by apply Hin'|done|]. split; [done|]. intros c.
    rewrite (in_order_queue k p c W1), E2; [split; [by intros [_ ->]|by intros ->]|].
    unfold mine. rewrite W2. by apply Hps.
Qed.
End Waking.

(** ** Two tasks that sleep *)

Module WakeQExample.
Import Machine Steps.Example.
#[local] Existing Instances features limits topology cpupri0 others1 core_env switch_env laws switch_laws.
#[local] Instance refs : TaskRefs := {|
  get_task_struct p := modify (fun s => s <| usage ::= alter (fun n => n + 1) p |>);
  put_task_struct p := modify (fun s => s <| usage ::= alter (fun n => n - 1) p |>)
|}.
#[local] Instance ref_laws : TaskRefLaws.
Proof. by split. Qed.

Definition sleepers : wstate := mk_wstate asleep empty_head (fun _ => NULL) (fun _ => 1).

Lemma asleep_local : wakes_locally asleep.
Proof. by left. Qed.

Lemma asleep_states : mine asleep 1 /\ mine asleep 5 /\ state (tasks asleep 1) = TASK_INTERRUPTIBLE /\
  state (tasks asleep 5) = TASK_INTERRUPTIBLE.
Proof. split; [left|split; [right|]]; by vm_compute. Qed.

(** Task 5 is added twice; both are woken, task 5 first. *)
Lemma wake_q_spec_witness :
  exists s', (do! foreach [5; 1; 5] (wake_q_add 0) in wake_up_q 4 0) sleepers = Done (tt, s') /\
    wake_all [5; 1] asleep = Done (tt, kern_state s') /\ state (tasks (kern_state s') 1) = TASK_RUNNING /\
    usage s' 5 = 1.
Proof.
  generalize asleep_in_order asleep_local asleep_states. unfold sleepers. generalize asleep.
  intros k Ho Hl (M1 & M5 & E1 & E5).
  destruct (wake_q_spec 0 [5; 1; 5] 4 (mk_wstate k empty_head (fun _ => NULL) (fun _ => 1)) Ho Hl eq_refl)
    as (s' & H1 & H2 & _ & H3 & _ & H4).
  - intros p Hp. assert (Hm : mine k p).
    { apply elem_of_cons in Hp as [->|Hp]; [exact M5|]. apply elem_of_cons in Hp as [->|Hp]; [exact M1|].
      by apply list_elem_of_singleton in Hp as ->. }
    split; [exact Hm|]. split; [reflexivity|]. cbn. lia.
  - cbn. lia.
  - exists s'. split; [exact H1|]. split; [exact H2|]. split; [|exact (H3 5)].
    apply H4; [right; by left|]. cbn [kern_state]. by rewrite E1.
Defined.
End WakeQExample.
