(* ===== verification/Boot.v ===== *)
(** * Booting ([kernel/sched/core.c])

    [sched_init], which sets up the run queue of every CPU and makes the first
    task the idle task of its CPU, and the other CPUs that follow; the machine
    is then in order ([InOrder]), where [Steps] goes on. *)

From S2P Require Import Prelude Sched Ts RtBandwidth Rt RtProps SchedClass ClassProps Frames CoreInv.
From S2P Require Import SetSched SetProps Wake CoreProps Switch SwitchProps InOrder Steps Hotplug.

(** ** Parameters

    What is initialised in other files, [init_task], the first task of the
    system, the period of the load average, and a tunable of [fair.c]. *)
Class BootEnv : Type := {
  init_task : task;
  LOAD_FREQ : Z;
  init_dl_bandwidth : Z -> Z -> K unit;
  init_defrootdomain : K unit;
  init_cfs_rq : cpu -> K unit;
  init_dl_rq : cpu -> K unit;
  rq_attach_root : cpu -> K unit;
  init_sched_fair_class : K unit;
  sysctl_sched_migration_cost : Z
}.

Section Boot.
Context `{Hoth : OtherClasses} `{Henv : CoreEnv} `{Hboot : BootEnv}.

(** The body of the loop over the CPUs.  The fields of [struct rq] that belong
    to [fair.c], [loadavg.c] and the idle balancer are left out, but for
    [calc_load_update]. *)
Definition init_rq (c : cpu) : H unit :=
  do! sched (set_rq c (fun r => r <| nr_running := 0 |>)) in
  do! modify (fun s => s <| rq_calc_load_update ::= alter (fun _ => u64 (jiffies (cpus s) + LOAD_FREQ)) c |>) in
  do! sched (init_cfs_rq c) in
  do! sched (init_rt_rq c) in
  do! sched (init_dl_rq c) in
  do! sched (init_ts_rq c) in
  let! s := gets (fun s => s) in
  do! sched (set_rt c (fun r => r <| rt_runtime := rt_bw_runtime (def_rt_bandwidth (cpus s)) |>)) in
  do! sched (set_rq c (fun r => r <| balance_callback := [] |> <| online := false |> <| idle_stamp := 0 |>
        <| avg_idle := u64 (2 * sysctl_sched_migration_cost) |>
        <| max_idle_balance_cost := sysctl_sched_migration_cost |>)) in
  do! sched (rq_attach_root c) in
  sched (set_rq c (fun r => r <| nr_iowait := 0 |>)).

(** The arrays of the root task group are those of [TaskGroups]; [now] is what
    [sched_clock] reads. *)
Definition sched_init (now : Z) : H unit :=
  let! s := gets (fun s => cpus s) in
  do! sched (init_rt_bandwidth (global_rt_period s) (global_rt_runtime s)) in
  do! sched (init_dl_bandwidth (global_rt_period s) (global_rt_runtime s)) in
  do! sched init_defrootdomain in
  let! s := gets (fun s => cpus s) in
  do! foreach (possible_cpus s) init_rq in
  do! sched (set_load_weight init_task false) in
  let! s := gets (fun s => cpus s) in
  do! sched (init_idle init_task (this_cpu s) now) in
  do! modify (fun s => s <| calc_load_update := u64 (jiffies (cpus s) + LOAD_FREQ) |>) in
  do! sched init_sched_fair_class in
  sched (modify (fun s => s <| scheduler_running := 1 |>)).
End Boot.
