(* ===== verification/BootProps.v ===== *)
(** * A machine that has booted is in order

    [sched_init] and the idle tasks of the other CPUs lead from zeroed run
    queues to a machine in order, where [Steps] goes on. *)

From S2P Require Import Prelude Sched Ts RtBandwidth Rt RtProps SchedClass ClassProps Frames CoreInv.
From S2P Require Import SetSched SetProps Wake CoreProps Switch SwitchProps InOrder Steps Hotplug Boot.

(** ** What the other files do at boot *)

Record aside (s s' : kstate) : Prop := {
  as_calm : calm s s';
  as_tasks : tasks s' = tasks s;
  as_possible : possible_cpus s' = possible_cpus s
}.

#[export] Instance aside_preorder : PreOrder aside.
Proof.
  split; [by intros s|]. intros s1 s2 s3 [] []. split; [by etrans|congruence..].
Qed.

Definition at_boot (m : K unit) : Prop := total m /\ frames aside m.

(** They succeed, change no task, and leave the queues of the two classes, the
    current, idle and stop tasks and the masks of the CPUs alone;
    [__dl_clear_params] clears fields of the deadline entity of its task. *)
Class BootLaws `{CoreEnv} `{BootEnv} : Prop := {
  bl_dl_bandwidth period runtime : at_boot (init_dl_bandwidth period runtime);
  bl_defrootdomain : at_boot init_defrootdomain;
  bl_cfs_rq c : at_boot (init_cfs_rq c);
  bl_dl_rq c : at_boot (init_dl_rq c);
  bl_attach_root c : at_boot (rq_attach_root c);
  bl_fair_class : at_boot init_sched_fair_class;
  bl_clear_params p : exists g, forall s, __dl_clear_params p s = set_task p (fun t => t <| dl ::= g |>) s
}.

(** ** The state while the machine boots *)

(** The run queue of [c] as the loader leaves it: arrays of zeroes. *)
Record bss (r : rt_rq) : Prop := {
  bs_sized : rt_sized r;
  bs_nr : rt_nr_running r = 0;
  bs_rr : rr_nr_running r = 0;
  bs_total : rt_nr_total r = 0
}.

(** The queues of [c] are set up, and nothing is queued. *)
Definition rt_up (c : cpu) (s : kstate) : Prop := rt_ok c s /\ concat (rt_queue_of c s) = [].

Record cpu_up (c : cpu) (s : kstate) : Prop := {
  cu_rt : rt_up c s;
  cu_ts : ts_q c s = repeat [] MAX_TS_PRIO
}.

(** [c] runs its idle task [p], which stays there. *)
Record idles_on (c : cpu) (p : task) (s : kstate) : Prop := {
  io_curr : curr (rqs s c) = p;
  io_idle : idle (rqs s c) = p;
  io_class : sched_class (tasks s p) = idle_sched_class;
  io_cpu : task_cpu (tasks s p) = c;
  io_cpus : cpus_allowed (tasks s p) = [c];
  io_on_cpu : on_cpu (tasks s p) = 1;
  io_on_rq : on_rq (tasks s p) = TASK_ON_RQ_QUEUED
}.

(** The queues of [up] are set up, the CPUs [idles] run their idle tasks, and
    no task of the two classes exists; an index that is no CPU stands aside. *)
Record booting `{BootEnv} (idle_of : cpu -> task) (ps : list cpu) (me : cpu) (up idles : list cpu) (s : kstate) : Prop := {
  bo_tasks : forall x, ~ mine s x /\ sched_class (tasks s x) <> stop_sched_class /\ rt_on_rq (rt (tasks s x)) = 0;
  bo_bss : forall c, c ∈ ps -> c ∉ up -> bss (rq_rt (rqs s c));
  bo_up : forall c, c ∈ up \/ c ∉ ps -> cpu_up c s;
  bo_idle : forall c, c ∈ idles -> idles_on c (idle_of c) s;
  bo_no_cpu : forall c, c ∉ ps -> idle_ok c s /\ curr (rqs s c) = idle (rqs s c);
  bo_others : forall c, 0 <= others (rqs s c) <= PID_MAX_LIMIT;
  bo_stop : forall c, dl_nr_running (rqs s c) = 0 /\ stop (rqs s c) = None;
  bo_active : forall i, i ∈ active_cpus s -> i ∈ online_cpus s;
  bo_init : 100 <= static_prio (tasks s init_task) < 140;
  bo_possible : possible_cpus s = ps;
  bo_this : this_cpu s = me
}.

Section Booting.
Context `{Hfeat : SchedFeat} `{Hlim : Rlimits} `{Hpri : Cpupri} `{Htop : Topology}.
Context `{Hoth : OtherClasses} `{Henv : CoreEnv} `{Hboot : BootEnv} {Hlaws : BootLaws}.
Context (idle_of : cpu -> task) (ps : list cpu) (me : cpu).
Implicit Types (c : cpu) (p x : task) (s : kstate) (up idles : list cpu).

Local Abbreviation booting := (booting idle_of ps me).

(** An empty queue is in order whatever the tasks are. *)
Lemma rt_up_any c s s' :
  rq_rt (rqs s' c) = rq_rt (rqs s c) -> nr_running (rqs s' c) = nr_running (rqs s c) -> rt_up c s -> rt_up c s'.
Proof.
  intros E1 E2 [[[Ha Hh Hc Hq Ho Hb] Hp] Hn]. unfold rt_queue_of in Hn.
  split; [|by unfold rt_queue_of; rewrite E1].
  assert (Eo : others (rqs s' c) = others (rqs s c)) by (unfold others; by rewrite E1, E2).
  split; [split|]; rewrite ?E1, ?Eo, ?Hn in *; try done.
  - destruct Ha as [A1 A2 A3 A4 A5 A6]. split; try done.
    + intros i l p Hi Hl. pose proof (Klist.at_index_elem _ i l p Hi Hl) as H.
      rewrite Hn in H. by apply not_elem_of_nil in H.
    + intros p. rewrite Hn. by intros ?%not_elem_of_nil.
  - destruct Hc. by split.
  - destruct Hp as [P1 P2 P3 P4]. split; try done.
    intros n p H. destruct (P3 n p H) as (_ & ?%not_elem_of_nil & _). done.
Qed.

Lemma cpu_up_any c s s' : quiet_rq (rqs s c) (rqs s' c) -> cpu_up c s -> cpu_up c s'.
Proof. intros [E1 E2 E3] [H1 H2]. split; [by eapply rt_up_any|]. unfold ts_q in *. congruence. Qed.

(** A queue that is set up stays so while the other files work. *)
Lemma rt_up_aside c s s' :
  (forall i, 0 <= others (rqs s i) <= PID_MAX_LIMIT) -> aside s s' -> rt_up c s -> rt_up c s'.
Proof.
  intros Ho [[[Hr Ht] Hk] _ _] [U1 U2]. pose proof (rq_core _ _ _ Hr c) as Hc. split.
  - eapply (quiet_ok (fun _ => False)); [exact U1|done| |apply (rq_room _ _ _ Hr), Ho|].
    + intros p Hp. unfold rt_task_queued in Hp. rewrite U2 in Hp. by apply not_elem_of_nil in Hp.
    + rewrite U2. unfold PID_MAX_LIMIT. cbn. lia.
  - rewrite <- U2. unfold rt_queue_of. core_fields Hc. congruence.
Qed.

Lemma bss_core r r' : rt_core r' = rt_core r -> bss r -> bss r'.
Proof.
  intros H [B1 B2 B3 B4]. core_fields H. destruct B1 as [L1 L2].
  split; [split|..]; congruence.
Qed.

Lemma booting_aside up idles s s' : booting up idles s -> aside s s' -> booting up idles s'.
Proof.
  intros [B1 B2 B3 B4 B5 B6 B7 B8 Bi B9 B10] Ha. pose proof Ha as [[[Hr Ht] Hk] Et Ep].
  split.
  - intros x. unfold mine. rewrite Et. apply B1.
  - intros c H1 H2. eapply bss_core; [apply (rq_core _ _ _ Hr)|auto].
  - intros c [H1 H2]%B3. split; [by eapply rt_up_aside|]. by rewrite (nt_queue _ _ Ht).
  - intros c Hc. destruct (B4 c Hc). split; rewrite ?Et, ?(kp_curr _ _ Hk), ?(kp_idle _ _ Hk); done.
  - intros c Hc. unfold idle_ok. rewrite Et, (kp_curr _ _ Hk), (kp_idle _ _ Hk). by apply B5.
  - by apply (rq_room _ _ _ Hr).
  - intros c. rewrite (kp_dl _ _ Hk), (kp_stop _ _ Hk). apply B7.
  - by rewrite (kp_active _ _ Hk), (kp_online _ _ Hk).
  - by rewrite Et.
  - congruence.
  - by rewrite (kp_this _ _ Hk).
Qed.

Lemma at_boot_run m up idles s :
  at_boot m -> booting up idles s -> wp m (fun _ s' => aside s s' /\ booting up idles s') s.
Proof.
  intros [Ht Hf] Hb. eapply wp_mono; [by apply (wp_total aside)|]. intros [] s' Ha. split; [done|by eapply booting_aside].
Qed.

(** A task that no CPU runs yet. *)
Lemma booting_task p f up idles s :
  (forall c, c ∈ idles -> idle_of c <> p) ->
  (forall t, (sched_class (f t) = sched_class t \/ sched_class (f t) = idle_sched_class) /\
    (rt_on_rq (rt (f t)) = rt_on_rq (rt t) \/ rt_on_rq (rt (f t)) = 0) /\ static_prio (f t) = static_prio t) ->
  booting up idles s ->
  wp (set_task p f) (fun _ s' => booting up idles s' /\ tasks s' p = f (tasks s p) /\ rqs s' = rqs s) s.
Proof.
  intros Hp Hf [B1 B2 B3 B4 B5 B6 B7 B8 Bi B9 B10]. eapply wp_intro; [reflexivity|]. simpl.
  assert (Hc : forall x, sched_class (alter f p (tasks s) x) = sched_class (tasks s x) \/
    sched_class (alter f p (tasks s) x) = idle_sched_class).
  { intros x. destruct (decide (p = x)) as [<-|Hx]; [rewrite fn_lookup_alter; apply Hf|left; by rewrite fn_lookup_alter_ne]. }
  split; [|by rewrite fn_lookup_alter]. split; simpl; try done.
  - intros x. destruct (B1 x) as (M1 & M2 & M3). unfold mine in *. simpl.
    split; [|split]; [destruct (Hc x) as [-> | ->]; [done|by intros []]|by destruct (Hc x) as [-> | ->]|].
    destruct (decide (p = x)) as [<-|Hx]; [rewrite fn_lookup_alter; destruct (Hf (tasks s p)) as (_ & [-> | ->] & _); done|].
    by rewrite fn_lookup_alter_ne.
  - intros c H. by eapply (cpu_up_any c s); [|apply B3].
  - intros c H. destruct (B4 c H). split; simpl; rewrite ?fn_lookup_alter_ne by (by apply not_eq_sym, Hp); done.
  - intros c H. destruct (B5 c H) as [I1 I2]. split; [|done]. unfold idle_ok in *. simpl.
    by destruct (Hc (idle (rqs s c))) as [-> | ->].
  - destruct (decide (p = init_task)) as [->|Hx]; [rewrite fn_lookup_alter|by rewrite fn_lookup_alter_ne].
    destruct (Hf (tasks s init_task)) as (_ & _ & ->). exact Bi.
Qed.

(** *** The run queue of one CPU *)

Record only_cpu c s s' : Prop := {
  oc_others : forall i, i <> c -> rqs s' i = rqs s i;
  oc_curr : curr (rqs s' c) = curr (rqs s c);
  oc_idle : idle (rqs s' c) = idle (rqs s c);
  oc_stop : stop (rqs s' c) = stop (rqs s c);
  oc_dl : dl_nr_running (rqs s' c) = dl_nr_running (rqs s c);
  oc_tasks : tasks s' = tasks s;
  oc_online : online_cpus s' = online_cpus s;
  oc_active : active_cpus s' = active_cpus s;
  oc_possible : possible_cpus s' = possible_cpus s;
  oc_this : this_cpu s' = this_cpu s
}.

(** Only the real-time queue. *)
Definition only_rt c s s' : Prop := only_cpu c s s' /\ nr_running (rqs s' c) = nr_running (rqs s c).

#[local] Instance only_rt_preorder c : PreOrder (only_rt c).
Proof.
  split; [by intros s|]. intros s1 s2 s3 [[A1] An] [[B1] Bn]. split; [split; [|congruence..]|congruence].
  intros i Hi. by rewrite B1, A1.
Qed.

Lemma set_rq_only c f s :
  (forall r, curr (f r) = curr r /\ idle (f r) = idle r /\ stop (f r) = stop r /\
     dl_nr_running (f r) = dl_nr_running r) ->
  only_cpu c s (s <| rqs ::= alter f c |>).
Proof.
  intros Hf. destruct (Hf (rqs s c)) as (F1 & F2 & F3 & F4).
  split; simpl; rewrite ?fn_lookup_alter; try done. intros i Hi. by rewrite fn_lookup_alter_ne by by apply not_eq_sym.
Qed.

Lemma set_rt_only_rt c f : frames (only_rt c) (set_rt c f).
Proof. apply frames_modify. intros s. split; [by apply set_rq_only|]. simpl. by rewrite fn_lookup_alter. Qed.
#[local] Hint Resolve set_rt_only_rt : frames.

Lemma init_rt_queues_only c n : forall i, frames (only_rt c) (init_rt_queues c n i).
Proof.
  induction n as [|n IH]; intros i; cbn [init_rt_queues]; [apply frames_ret, _|].
  unfold set_rt_bit, get_rt. frames_tac.
Qed.
#[local] Hint Resolve init_rt_queues_only : frames.

Lemma init_rt_rq_only c : frames (only_rt c) (init_rt_rq c).
Proof. unfold init_rt_rq, set_rt_bit, get_rt. frames_tac. Qed.

Lemma booting_only c up idles s s' :
  only_cpu c s s' -> booting up idles s -> c ∈ ps -> c ∉ up ->
  bss (rq_rt (rqs s' c)) -> 0 <= others (rqs s' c) <= PID_MAX_LIMIT -> booting up idles s'.
Proof.
  intros [O1 O2 O3 O4 O5 O7 O8 O9 O10 O11] [B1 B2 B3 B4 B5 B6 B7 B8 Bi B9 B10] Hc Hu Hb Ho.
  assert (Hv : forall {V} (g : rq -> V), g (rqs s' c) = g (rqs s c) -> forall i, g (rqs s' i) = g (rqs s i)).
  { intros V g Hg i. destruct (decide (i = c)) as [->|Hi]; [done|by rewrite O1]. }
  pose proof (Hv _ curr O2) as Vc. pose proof (Hv _ idle O3) as Vi.
  split.
  - intros x. unfold mine. rewrite O7. apply B1.
  - intros i H1 H2. destruct (decide (i = c)) as [->|Hi]; [done|rewrite O1 by done; auto].
  - intros i H. assert (Hi : i <> c) by (intros ->; by destruct H). apply (cpu_up_any i s); [by rewrite O1|auto].
  - intros i H. destruct (B4 i H). split; rewrite ?Vc, ?Vi, ?O7; done.
  - intros i H. unfold idle_ok. rewrite Vc, Vi, O7. by apply B5.
  - intros i. destruct (decide (i = c)) as [->|Hi]; [done|by rewrite O1].
  - intros i. rewrite (Hv _ dl_nr_running O5), (Hv _ stop O4). apply B7.
  - by rewrite O8, O9.
  - by rewrite O7.
  - congruence.
  - congruence.
Qed.


Lemma set_rt_aside c f :
  (forall r, rt_core (f r) = rt_core r /\ rt_queued (f r) = rt_queued r) -> at_boot (set_rt c f).
Proof.
  intros Hf. split; [apply total_modify|]. apply frames_modify. intros s.
  assert (H : forall i, rt_core (rq_rt (alter (fun r => r <| rq_rt ::= f |>) c (rqs s) i)) = rt_core (rq_rt (rqs s i)) /\
    rt_queued (rq_rt (alter (fun r => r <| rq_rt ::= f |>) c (rqs s) i)) = rt_queued (rq_rt (rqs s i))).
  { intros i. destruct (decide (c = i)) as [<-|Hi]; [rewrite fn_lookup_alter; apply Hf|by rewrite fn_lookup_alter_ne]. }
  split; [split; [split; split|split]|done..]; simpl; try done.
  all: try (intros i; by rewrite (alter_rq_view) by done).
  - intros i. apply H.
  - intros i. by rewrite (proj2 (H i)).
  - intros Hr i. specialize (Hr i). destruct (H i) as [E1 E2]. unfold others in *. rewrite E2.
    assert (E3 : rt_nr_running (rq_rt (alter (fun r => r <| rq_rt ::= f |>) c (rqs s) i)) =
      rt_nr_running (rq_rt (rqs s i))) by exact (f_equal rt_nr_running E1).
    by rewrite E3, (alter_rq_view nr_running).
  - intros i. unfold ts_q. simpl. by rewrite (alter_rq_view ts_queue).
Qed.

Lemma set_rq_aside c f :
  (forall r, quiet_rq r (f r)) ->
  (forall r, curr (f r) = curr r /\ idle (f r) = idle r /\ stop (f r) = stop r /\
     dl_nr_running (f r) = dl_nr_running r) -> at_boot (set_rq c f).
Proof.
  intros Hq Hk. split; [apply total_modify|]. intros s a s' E. split; [split|..].
  - by apply (set_rq_quiet c f Hq s a).
  - by apply (set_rq_keep c f Hk s a).
  - by injection E as _ <-.
  - by injection E as _ <-.
Qed.

Lemma booting_set_up c up idles s : booting up idles s -> cpu_up c s -> booting (c :: up) idles s.
Proof.
  intros [B1 B2 B3 B4 B5 B6 B7 B8 Bi B9 B10] Hc. split; try done.
  - intros i Hi Hn. apply B2; [done|]. intros H. apply Hn. by right.
  - intros i [[->|H]%elem_of_cons|H]; auto.
Qed.

Lemma wp_sched {A} (m : K A) (P : A -> kstate -> Prop) (Q : A -> hstate -> Prop) h :
  wp m P (cpus h) -> (forall a h', P a (cpus h') -> Q a h') -> wp (sched m) Q h.
Proof. intros (a & k & He & HP)%wp_done HQ. eapply wp_intro; [unfold sched; by rewrite He|by apply HQ]. Qed.

Lemma sched_at_boot m up idles h (Q : unit -> hstate -> Prop) :
  at_boot m -> booting up idles (cpus h) ->
  (forall h', aside (cpus h) (cpus h') -> booting up idles (cpus h') -> Q tt h') -> wp (sched m) Q h.
Proof.
  intros Hm Hb HQ. eapply wp_sched; [by eapply at_boot_run|]. intros [] h' [H1 H2]. by apply HQ.
Qed.

Lemma init_rt_rq_boot c up idles s :
  booting up idles s -> c ∈ ps -> c ∉ up ->
  wp (init_rt_rq c) (fun _ s' => booting up idles s' /\ rt_up c s') s.
Proof.
  intros Hb Hc Hu. destruct (bo_bss _ _ _ _ _ _ Hb c Hc Hu) as [Z1 Z2 Z3 Z4].
  pose proof (bo_others _ _ _ _ _ _ Hb c) as Ho. unfold others, PID_MAX_LIMIT in Ho. rewrite Z2 in Ho.
  assert (Hnr : 0 <= nr_running (rqs s c) <= PID_MAX_LIMIT) by (unfold PID_MAX_LIMIT; destruct (_ =? 0); lia).
  unfold PID_MAX_LIMIT in Hnr.
  eapply wp_mono; [apply (wp_frames (only_rt c)); [apply init_rt_rq_only|apply (init_rt_rq_run c (tasks s))]|].
  { unfold rt_fresh. repeat split; (done || apply Z1 || lia). }
  intros [] s' [[Hi Hn] [H Hnr']]. destruct (ri_counts _ _ _ (ri_base _ _ _ Hi)) as [N1 N2 N3 N4 N5].
  unfold rt_queue_of in Hn. rewrite Hn in N1, N2, N3.
  split; [|by split; [unfold rt_ok; rewrite (oc_tasks _ _ _ H)|]].
  eapply booting_only; [exact H|done..| |].
  - split; [apply Hi|by rewrite N1|by rewrite N2|by rewrite N3].
  - unfold others, PID_MAX_LIMIT. rewrite N1, Hnr'. clear -Hnr. destruct (rt_queued _ =? 0); cbn; lia.
Qed.

(** Setting up the queue of [c] makes it one of those that are up. *)
Lemma init_rq_run c up idles h :
  booting up idles (cpus h) -> c ∈ ps -> c ∉ up ->
  wp (init_rq c) (fun _ h' => booting (c :: up) idles (cpus h')) h.
Proof.
  intros Hb Hc Hu. unfold init_rq. wstep. eapply (wp_sched _ (fun _ => booting up idles)).
  { pose proof (bo_bss _ _ _ _ _ _ Hb c Hc Hu) as Hz. unfold set_rq. wstep.
    eapply (booting_only c _ _ (cpus h)); [by apply set_rq_only|done..| |]; simpl; rewrite fn_lookup_alter; [done|].
    unfold others. simpl. rewrite (bs_nr _ Hz). by destruct (_ =? 0). }
  intros [] h0 H0. wstep. wstep. wstep.
  match goal with |- wp _ _ ?h => generalize (H0 : booting up idles (cpus h)); generalize h end. clear h Hb h0 H0.
  intros h1 H1. eapply (sched_at_boot _ up idles); [apply bl_cfs_rq|done|]. intros h2 _ H2.
  wstep. eapply wp_sched; [by apply init_rt_rq_boot|]. intros [] h3 (H3 & Hr3).
  wstep. eapply (sched_at_boot _ up idles); [apply bl_dl_rq|done|]. intros h4 A4 H4.
  pose proof (rt_up_aside c _ _ (bo_others _ _ _ _ _ _ H3) A4 Hr3) as Hr4.
  wstep. eapply (wp_sched _ (fun _ => booting (c :: up) idles)).
  { unfold init_ts_rq, set_rq. wstep. set (k := _ <| rqs ::= _ |>).
    assert (E : rq_rt (rqs k c) = rq_rt (rqs (cpus h4) c)) by (unfold k; simpl; by rewrite fn_lookup_alter).
    assert (Eo : others (rqs k c) = others (rqs (cpus h4) c)) by (unfold k; simpl; by rewrite fn_lookup_alter).
    apply booting_set_up.
    - eapply booting_only; [by apply set_rq_only|done..| |].
      + fold k. rewrite E. by apply (bo_bss _ _ _ _ _ _ H4).
      + fold k. rewrite Eo. by apply (bo_others _ _ _ _ _ _ H4).
    - split; [eapply rt_up_any; [exact E| |exact Hr4]|unfold ts_q]; unfold k; simpl; by rewrite fn_lookup_alter. }
  intros [] h5 H5. wstep. wstep. wstep.
  eapply (sched_at_boot _ (c :: up) idles); [by apply set_rt_aside|done|]. intros h6 _ H6.
  wstep. eapply (sched_at_boot _ (c :: up) idles); [by apply set_rq_aside|done|]. intros h7 _ H7.
  wstep. eapply (sched_at_boot _ (c :: up) idles); [apply bl_attach_root|done|]. intros h8 _ H8.
  eapply (sched_at_boot _ (c :: up) idles); [by apply set_rq_aside|done|]. by intros h9 _ H9.
Qed.

(** *** The idle tasks *)

(** A CPU whose idle task is not there yet may be given its tasks. *)
Lemma booting_park c f up idles s :
  (forall r, quiet_rq r (f r) /\ stop (f r) = stop r /\ dl_nr_running (f r) = dl_nr_running r) ->
  c ∈ ps -> c ∉ idles -> booting up idles s ->
  wp (set_rq c f) (fun _ s' => booting up idles s' /\ tasks s' = tasks s /\ rqs s' c = f (rqs s c)) s.
Proof.
  intros Hf Hc Hn [B1 B2 B3 B4 B5 B6 B7 B8 Bi B9 B10]. eapply wp_intro; [reflexivity|]. simpl.
  split; [|by rewrite fn_lookup_alter].
  assert (Hv : forall i, quiet_rq (rqs s i) (alter f c (rqs s) i)).
  { intros i. destruct (decide (c = i)) as [<-|Hi]; [rewrite fn_lookup_alter; apply Hf|by rewrite fn_lookup_alter_ne]. }
  split; simpl; try done.
  - intros i H1 H2. rewrite (qr_rt _ _ (Hv i)). by apply B2.
  - intros i H. apply (cpu_up_any i s); [apply Hv|by apply B3].
  - intros i Hi. assert (c <> i) by (by intros ->). destruct (B4 i Hi).
    split; simpl; rewrite ?fn_lookup_alter_ne; done.
  - intros i Hi. assert (c <> i) by (by intros ->). unfold idle_ok. simpl. rewrite fn_lookup_alter_ne by done. by apply B5.
  - intros i. unfold others. rewrite (qr_rt _ _ (Hv i)), (qr_nr _ _ (Hv i)). apply B6.
  - intros i. destruct (decide (c = i)) as [<-|Hi]; [|rewrite fn_lookup_alter_ne by done; apply B7].
    rewrite fn_lookup_alter. destruct (Hf (rqs s c)) as (_ & -> & ->). apply B7.
Qed.

Lemma clear_params_booting p up idles s :
  (forall c, c ∈ idles -> idle_of c <> p) -> booting up idles s ->
  wp (__dl_clear_params p) (fun _ => booting up idles) s.
Proof.
  intros Hi Hb. destruct (bl_clear_params p) as [g Hg].
  pose proof (booting_task p (fun t => t <| dl ::= g |>) up idles s Hi ltac:(auto) Hb) as W.
  apply wp_done in W as ([] & s' & He & H & _). apply (wp_intro _ _ _ tt s'); [by rewrite Hg|done].
Qed.

Lemma init_idle_run c now up idles s :
  booting up idles s -> c ∈ ps -> c ∉ idles -> (forall i, i ∈ idles -> idle_of i <> idle_of c) ->
  wp (init_idle (idle_of c) c now) (fun _ s' => booting up (c :: idles) s') s.
Proof.
  intros Hb Hc Hn Hi. set (p := idle_of c) in *. unfold init_idle, __sched_fork.
  wstep. wstep. wcall (booting_task p); [done|auto|done|]. intros [] s1 (H1 & _).
  wstep. wcall (booting_task p); [done|auto|done|]. intros [] s2 (H2 & _).
  wstep. wcall (booting_task p); [done|auto|done|]. intros [] s3 (H3 & _).
  wstep. wcall (clear_params_booting p); [done|done|]. intros [] s4 H4.
  wstep. wstep. wcall (booting_task p); [done|auto|done|]. intros [] s5 (H5 & _).
  wstep. wcall (booting_task p); [done|auto|done|]. intros [] s6 (H6 & _).
  wstep. wcall (booting_task p); [done|auto|done|]. intros [] s7 (H7 & _).
  wstep. wcall (booting_task p); [done|auto|done|]. intros [] s8 (H8 & _).
  unfold set_cpus_allowed_common, __set_task_cpu.
  wstep. wstep. wcall (booting_task p); [done|auto|done|]. intros [] s9 (H9 & E9 & _).
  wcall (booting_task p); [done|auto|done|]. intros [] s10 (H10 & E10 & _).
  wstep. wstep. wcall (booting_task p); [done|auto|done|]. intros [] s11 (H11 & E11 & _).
  wcall (booting_task p); [done|auto|done|]. intros [] s12 (H12 & E12 & _).
  wstep. wcall (booting_park c); [by intros r|done..|]. intros [] s13 (H13 & E13 & R13).
  wstep. wcall (booting_park c); [by intros r|done..|]. intros [] s14 (H14 & E14 & R14).
  wstep. wcall (booting_task p); [done|auto|done|]. intros [] s15 (H15 & E15 & R15).
  wstep. wcall (booting_task p); [done|auto|done|]. intros [] s16 (H16 & E16 & R16).
  wcall (booting_task p); [done|auto|done|]. intros [] s17 (H17 & E17 & R17).
  assert (Ht : idles_on c p s17).
  { split; rewrite ?R17, ?R16, ?R15, ?R14, ?R13, ?E17, ?E16, ?E15, ?E14, ?E13, ?E12, ?E11, ?E10, ?E9; done. }
  destruct H17 as [B1 B2 B3 B4 B5 B6 B7 B8 Bi B9 B10]. split; try done.
  by intros i [->|Hi']%elem_of_cons; [|apply B4].
Qed.

(** *** The whole machine *)

Lemma init_rqs_run l : forall up idles h,
  booting up idles (cpus h) -> NoDup l -> (forall c, c ∈ l -> c ∈ ps /\ c ∉ up) ->
  wp (foreach l init_rq) (fun _ h' => booting (reverse l ++ up) idles (cpus h')) h.
Proof.
  induction l as [|c l IH]; intros up idles h Hb Hnd Hl; cbn [foreach]; [by wstep|].
  apply NoDup_cons in Hnd as [Hc Hnd]. destruct (Hl c ltac:(by left)) as [H1 H2]. wstep.
  eapply wp_mono; [by apply init_rq_run|]. intros [] h1 Hb1. rewrite reverse_cons, <- (assoc_L (++)). apply IH; [done..|].
  intros i Hi. destruct (Hl i ltac:(by right)) as [F1 F2]. split; [done|]. intros [->|?]%elem_of_cons; done.
Qed.

Lemma set_load_weight_boot up s :
  booting up [] s -> wp (set_load_weight init_task false) (fun _ s' => booting up [] s') s.
Proof.
  intros Hb. pose proof (bo_init _ _ _ _ _ _ Hb) as Hst. unfold set_load_weight, get_task. wgo. cbv zeta.
  assert (Hw : forall f s', booting up [] s' ->
    wp (set_task init_task (fun t => t <| se ::= f |>)) (fun _ s'' => booting up [] s'') s').
  { intros f s' H. eapply wp_mono; [apply (booting_task init_task); [by intros ? ?%not_elem_of_nil|auto|exact H]|].
    by intros [] s'' [? _]. }
  destruct (idle_policy _).
  - wstep. eapply wp_mono; [by apply Hw|]. intros [] s1 H1. by apply Hw.
  - cbn [andb]. wstep. apply table_at_run; [done|unfold MAX_RT_PRIO; lia|]. intros w. wstep.
    eapply wp_mono; [by apply Hw|]. intros [] s1 H1. wstep.
    apply table_at_run; [done|unfold MAX_RT_PRIO; lia|]. intros w'. by apply Hw.
Qed.

Lemma aside_fields s s' : tasks s' = tasks s -> rqs s' = rqs s -> this_cpu s' = this_cpu s ->
  online_cpus s' = online_cpus s -> active_cpus s' = active_cpus s -> possible_cpus s' = possible_cpus s -> aside s s'.
Proof.
  intros E1 E2 E3 E4 E5 E6. split; [split; [split; split|split]|done..]; unfold ts_q; rewrite ?E1, ?E2; done.
Qed.

Lemma modify_at_boot f : (forall s, aside s (f s)) -> at_boot (modify f).
Proof. intros Hf. split; [apply total_modify|]. by apply frames_modify. Qed.

Lemma init_rt_bandwidth_boot period runtime : at_boot (init_rt_bandwidth period runtime).
Proof.
  split; [intros s; by eexists|]. intros s a s' E. injection E as _ <-. by apply aside_fields.
Qed.

Lemma sched_init_run now h :
  booting [] [] (cpus h) -> NoDup ps -> me ∈ ps -> idle_of me = init_task ->
  wp (sched_init now) (fun _ h' => booting (reverse ps) [me] (cpus h') /\ scheduler_running (cpus h') = 1) h.
Proof.
  intros Hb Hnd Hme Hi. unfold sched_init. wstep. wstep. wstep.
  eapply (sched_at_boot _ [] []); [apply init_rt_bandwidth_boot|done|]. intros h1 _ H1.
  wstep. eapply (sched_at_boot _ [] []); [apply bl_dl_bandwidth|done|]. intros h2 _ H2.
  wstep. eapply (sched_at_boot _ [] []); [apply bl_defrootdomain|done|]. intros h3 _ H3.
  wstep. wstep. wstep. rewrite (bo_possible _ _ _ _ _ _ H3).
  eapply wp_mono; [apply (init_rqs_run ps [] []); [done..|]|].
  { intros c Hc. split; [done|apply not_elem_of_nil]. }
  intros [] h4 H4. rewrite app_nil_r in H4.
  wstep. eapply wp_sched; [by apply set_load_weight_boot|]. intros [] h5 H5.
  wstep. wstep. rewrite (bo_this _ _ _ _ _ _ H5), <- Hi.
  wstep. eapply wp_sched; [apply (init_idle_run me now (reverse ps) []); [done..|apply not_elem_of_nil|by intros ? ?%not_elem_of_nil]|].
  intros [] h6 H6. wstep. wstep. wstep. eapply (sched_at_boot _ (reverse ps) [me]); [apply bl_fair_class|exact H6|].
  intros h7 _ H7. eapply (wp_sched _ (fun _ k => booting (reverse ps) [me] k /\ scheduler_running k = 1)); [|by intros [] h8 [H8 E8]].
  wstep. split; [|done]. eapply booting_aside; [exact H7|]. by apply aside_fields.
Qed.

Lemma init_idles_run now l : forall up idles s,
  booting up idles s -> NoDup l -> (forall c, c ∈ l -> c ∈ ps /\ c ∉ idles) ->
  (forall i j, i ∈ l ++ idles -> j ∈ l ++ idles -> idle_of i = idle_of j -> i = j) ->
  wp (foreach l (fun c => init_idle (idle_of c) c now)) (fun _ s' => booting up (reverse l ++ idles) s') s.
Proof.
  induction l as [|c l IH]; intros up idles s Hb Hnd Hl Hinj; cbn [foreach]; [by wstep|].
  apply NoDup_cons in Hnd as [Hc Hnd]. destruct (Hl c ltac:(by left)) as [H1 H2]. wstep.
  eapply wp_mono; [apply (init_idle_run c now up idles s Hb H1 H2)|].
  { intros i Hi E. apply H2. rewrite <- (Hinj i c); [done|set_solver..|done]. }
  intros [] s1 Hb1. rewrite reverse_cons, <- (assoc_L (++)). apply IH; [done..| |].
  - intros i Hi. destruct (Hl i ltac:(by right)) as [F1 F2]. split; [done|]. intros [->|?]%elem_of_cons; done.
  - intros i j Hi' Hj. apply Hinj; set_solver.
Qed.

Lemma booted_in_order up idles s :
  booting up idles s -> (forall c, c ∈ ps -> c ∈ up /\ c ∈ idles) -> in_order s.
Proof.
  intros [B1 B2 B3 B4 B5 B6 B7 B8 Bi B9 B10] Hall.
  assert (Hup : forall c, cpu_up c s).
  { intros c. apply B3. destruct (decide (c ∈ ps)) as [Hc|]; [left; by apply Hall|by right]. }
  assert (Hidle : forall c, idle_ok c s /\ curr (rqs s c) = idle (rqs s c)).
  { intros c. destruct (decide (c ∈ ps)) as [Hc|]; [|by apply B5]. apply Hall in Hc as [_ Hc].
    destruct (B4 c Hc) as [F1 F2 F3 _ _ _ _]. unfold idle_ok. by rewrite F1, F2. }
  assert (Hno : forall x, ~ mine s x) by apply B1.
  assert (Hrt : forall c x, ~ rt_task_queued c s x).
  { intros c x. unfold rt_task_queued. destruct (Hup c) as [[_ ->] _]. apply not_elem_of_nil. }
  assert (Hts : forall c x, ~ ts_queued c s x).
  { intros c x. unfold ts_queued. rewrite (cu_ts _ _ (Hup c)). by intros ?%not_elem_of_nil. }
  assert (Hm : forall x, sched_class (tasks s x) <> rt_sched_class /\ sched_class (tasks s x) <> ts_sched_class).
  { intros x. split; intros H; apply (Hno x); [by left|by right]. }
  split; try (intros x Hx; by destruct (Hno x)); try (intros c Hx; by destruct (Hno _ Hx)).
  - split; split; try (intros x Hx; by destruct (Hm x)); try done.
    + intros c. apply Hup.
    + intros c p. split; [by intros ?%Hrt|]. intros (_ & H & _). by destruct (Hm p).
    + intros p Hp. by destruct (B1 p) as (_ & _ & ?).
    + intros c. unfold ts_wf, ts_wf_q. rewrite (cu_ts _ _ (Hup c)). split; [done|]. split; [unfold Klist.wf; constructor|].
      by intros p ?%not_elem_of_nil.
    + intros c p. split; [by intros ?%Hts|]. intros (_ & H & _). by destruct (Hm p).
  - split; [|intros c Hx; by destruct (Hno _ Hx)]. intros c [[n x] [_ H]]%list_elem_of_fmap.
    destruct (Hup c) as [[[_ Hp] Hn] _]. destruct (rp_task _ _ _ Hp n x H) as (_ & Hx & _).
    unfold rt_queue_of in Hn. rewrite Hn in Hx. by apply not_elem_of_nil in Hx.
  - intros c. destruct (Hidle c) as [H1 ->]. by rewrite H1.
  - split; try (intros x Hx; by destruct (Hno x)); try done.
    + intros c. destruct (B7 c) as [H1 H2]. split; [done|]. by rewrite H2.
    + intros c. apply Hidle.
Qed.

(** C15: Booting: [sched_init] on the zeroed run queues of any number of CPUs,
    followed by [init_idle] for the idle tasks of the other CPUs, does not
    fail; afterwards every CPU runs its own idle task, which may run there only,
    nothing is queued, and the machine is in order, the state from which
    [Steps] shows what the scheduler promises. *)
Theorem boot_in_order now (h : hstate) :
  booting [] [] (cpus h) -> NoDup ps -> me ∈ ps -> idle_of me = init_task ->
  (forall i j, i ∈ ps -> j ∈ ps -> idle_of i = idle_of j -> i = j) ->
  exists (h1 : hstate) (k : kstate), sched_init now h = Done (tt, h1) /\
    foreach (filter (fun c => c <> me) ps) (fun c => init_idle (idle_of c) c now) (cpus h1) = Done (tt, k) /\
    scheduler_running (cpus h1) = 1 /\ in_order k /\ (forall c, c ∈ ps -> idles_on c (idle_of c) k) /\
    forall c p, c ∈ ps -> ~ rt_task_queued c k p /\ ~ ts_queued c k p.
Proof.
  intros Hb Hnd Hme Hi Hinj. pose proof (sched_init_run now h Hb Hnd Hme Hi) as H1.
  apply wp_done in H1 as ([] & h1 & He1 & H1 & Hrun). set (l := filter (fun c => c <> me) ps).
  assert (Hl : forall c, c ∈ l <-> c <> me /\ c ∈ ps) by (intros c; unfold l; by rewrite list_elem_of_filter).
  pose proof (init_idles_run now l (reverse ps) [me] (cpus h1) H1 ltac:(by apply NoDup_filter)
    ltac:(intros c [F1 F2]%Hl; split; [done|by intros ?%list_elem_of_singleton])
    ltac:(intros i j; rewrite !elem_of_app, !Hl, !list_elem_of_singleton; intros Hi1 Hj1; apply Hinj; naive_solver)) as H2.
  apply wp_done in H2 as ([] & k & He2 & H2).
  assert (Hall : forall c, c ∈ ps -> c ∈ reverse ps /\ c ∈ reverse l ++ [me]).
  { intros c Hc. rewrite elem_of_app, !elem_of_reverse, Hl, list_elem_of_singleton.
    destruct (decide (c = me)); auto. }
  exists h1, k. split_and!; [done..|by eapply booted_in_order| |].
  - intros c Hc. apply (bo_idle _ _ _ _ _ _ H2). by apply Hall.
  - intros c p Hc. destruct (bo_up _ _ _ _ _ _ H2 c) as [[_ Hn] Ht]; [left; by apply Hall|]. split.
    + unfold rt_task_queued. rewrite Hn. apply not_elem_of_nil.
    + unfold ts_queued. rewrite Ht. by intros ?%not_elem_of_nil.
Qed.
End Booting.

(** ** Two CPUs *)

Module BootExample.
Import Machine Steps.Example.
#[local] Existing Instances features limits topology cpupri0 others1 core_env.

(** The idle task of CPU [c] is task [-c-1]; task -3 stands aside. *)
#[local] Instance boot_env : BootEnv := {|
  init_task := -1; LOAD_FREQ := 5001; init_dl_bandwidth := fun _ _ => ret tt; init_defrootdomain := ret tt;
  init_cfs_rq := fun _ => ret tt; init_dl_rq := fun _ => ret tt; rq_attach_root := fun _ => ret tt;
  init_sched_fair_class := ret tt; sysctl_sched_migration_cost := 500000 |}.

#[local] Instance boot_laws : BootLaws.
Proof. split; intros; try (split; [apply total_ret|apply frames_ret, _]). by exists cleared. Qed.

Definition zeroed_rq : rq :=
  mk_rq 0 0 0 0 (mk_rt_rq (repeat false 101) (repeat [] 100) 0 0 0 0 0 0 0 [] 0 0 0 0)
    0 [] 0 0 0 None 0 0 0 0 [] true 0 0 0 [] 0 0.

Definition powered_on : kstate :=
  machine0 <| tasks := fun p => if p =? -3 then task0 <| sched_class := idle_sched_class |> else task0 |>
    <| rqs := fun c => if bool_decide (c ∈ [0; 1]) then zeroed_rq else rq0 2 |>.

Lemma rq0_up c : rqs powered_on c = rq0 2 -> cpu_up c powered_on.
Proof.
  intros E. destruct (ClassProps.Example.fresh_cpu_ok c powered_on) as (H1 & _ & H2); [by rewrite E..|].
  split; [split; [apply H1|done]|]. unfold ts_q. by rewrite E.
Qed.

Lemma powered_rq c : rqs powered_on c = zeroed_rq /\ c ∈ [0; 1] \/ rqs powered_on c = rq0 2 /\ c ∉ [0; 1].
Proof. cbn [rqs powered_on]. unfold powered_on. simpl. case_bool_decide; auto. Qed.

Lemma powered_class x : sched_class (tasks powered_on x) = fair_sched_class \/
  sched_class (tasks powered_on x) = idle_sched_class.
Proof. unfold powered_on. simpl. destruct (x =? -3); auto. Qed.

Lemma powered_booting idle_of : booting idle_of [0; 1] 0 [] [] powered_on.
Proof.
  split; try done.
  - intros x. unfold mine. split; [|split].
    + destruct (powered_class x) as [-> | ->]; by intros [].
    + by destruct (powered_class x) as [-> | ->].
    + unfold powered_on. simpl. by destruct (x =? -3).
  - intros c Hc _. destruct (powered_rq c) as [[E _]|[_ H]]; [rewrite E; by repeat split|done].
  - intros c [H|H]; [by apply not_elem_of_nil in H|]. apply rq0_up. by destruct (powered_rq c) as [[_ ?]|[? _]].
  - intros c H. by apply not_elem_of_nil in H.
  - intros c H. destruct (powered_rq c) as [[_ ?]|[E _]]; [done|]. unfold idle_ok. by rewrite E.
  - intros c. destruct (powered_rq c) as [[E _]|[E _]]; rewrite E; vm_compute; by split.
  - intros c. destruct (powered_rq c) as [[E _]|[E _]]; by rewrite E.
Qed.

Definition switched_on : hstate := mk_hstate powered_on 0 false 0 false 0 0 (fun _ => 0) (fun _ => 0).

Lemma boot_in_order_witness :
  exists (h1 : hstate) (k : kstate), sched_init 7 switched_on = Done (tt, h1) /\
    foreach [1] (fun c => init_idle (- c - 1) c 7) (cpus h1) = Done (tt, k) /\ in_order k /\
    curr (rqs k 0) = -1 /\ curr (rqs k 1) = -2.
Proof.
  pose proof (powered_booting (fun c => - c - 1)) as Hb. unfold switched_on. generalize dependent powered_on. intros k0 Hb.
  destruct (boot_in_order (fun c => - c - 1) [0; 1] 0 7 (mk_hstate k0 0 false 0 false 0 0 (fun _ => 0) (fun _ => 0)))
    as (h1 & k & H1 & H2 & _ & H3 & H4 & _).
  - exact Hb.
  - apply (bool_decide_unpack _). by vm_compute.
  - by left.
  - reflexivity.
  - intros i j _ _ E. lia.
  - exists h1, k. split; [exact H1|]. split; [exact H2|]. split; [exact H3|].
    split; [apply (H4 0); by left|apply (H4 1); right; by left].
Defined.
End BootExample.
