(* ===== verification/TaskGroups.v ===== *)
(** * Task groups ([kernel/sched/core.c], [kernel/sched/rt.c])

    The tree of task groups behind the cpu controller of cgroups: creating and
    removing groups, moving tasks between them, and admitting the real-time and
    the CFS bandwidth of a group, which is checked by a walk over the tree.
    The bandwidth is that of [RT_GROUP_SCHED] and [CFS_BANDWIDTH]; the run
    queues that a group owns are in [fair.c], or, for [RT_GROUP_SCHED], left
    out but for their runtime. *)

From S2P Require Import Prelude Sched Ts RtBandwidth Rt SchedClass.

Definition tg : Type := Z.

(** ** State *)

Record cfs_rq : Type := mk_cfs_rq {
  runtime_enabled : Z;
  runtime_remaining : Z;
  throttled : Z
}.

Record cfs_bandwidth : Type := mk_cfs_bandwidth {
  cfs_period : Z;  (** [period], a [ktime_t] *)
  quota : Z;
  hierarchical_quota : Z
}.

(** [children] are the groups linked through their [siblings]. *)
Record task_group : Type := mk_task_group {
  shares : Z;
  rt_bw : rt_bandwidth;  (** [rt_bandwidth] *)
  rt_rq_runtime : cpu -> Z;  (** [rt_rq[cpu]->rt_runtime] *)
  parent : option tg;
  children : list tg;
  autogroup : bool;
  cfs_b : cfs_bandwidth;  (** [cfs_bandwidth] *)
  cfs_rqs : cpu -> cfs_rq  (** [cfs_rq[cpu]] *)
}.

(** [task_css] is the group that cgroups have put a task into, and
    [sched_task_group] the copy of it that the scheduler uses. *)
Record gstate : Type := mk_gstate {
  group : tg -> task_group;
  task_groups : list tg;
  kernel : kstate;
  processes : list task;
  task_css : task -> tg;
  sched_task_group : task -> tg;
  rcu_callbacks : list tg
}.

Definition eta_cfs_rq (r : cfs_rq) : cfs_rq := mk_cfs_rq (runtime_enabled r) (runtime_remaining r) (throttled r).
#[export] Instance upd_runtime_enabled : Field runtime_enabled := ltac:(solve_field eta_cfs_rq).
#[export] Instance upd_runtime_remaining : Field runtime_remaining := ltac:(solve_field eta_cfs_rq).
Definition eta_cfs_bandwidth (r : cfs_bandwidth) : cfs_bandwidth :=
  mk_cfs_bandwidth (cfs_period r) (quota r) (hierarchical_quota r).
#[export] Instance upd_cfs_period : Field cfs_period := ltac:(solve_field eta_cfs_bandwidth).
#[export] Instance upd_quota : Field quota := ltac:(solve_field eta_cfs_bandwidth).
#[export] Instance upd_hierarchical_quota : Field hierarchical_quota := ltac:(solve_field eta_cfs_bandwidth).
Definition eta_task_group (r : task_group) : task_group :=
  mk_task_group (shares r) (rt_bw r) (rt_rq_runtime r) (parent r) (children r) (autogroup r) (cfs_b r) (cfs_rqs r).
#[export] Instance upd_shares : Field shares := ltac:(solve_field eta_task_group).
#[export] Instance upd_rt_bw : Field rt_bw := ltac:(solve_field eta_task_group).
#[export] Instance upd_rt_rq_runtime : Field rt_rq_runtime := ltac:(solve_field eta_task_group).
#[export] Instance upd_parent : Field parent := ltac:(solve_field eta_task_group).
#[export] Instance upd_children : Field children := ltac:(solve_field eta_task_group).
#[export] Instance upd_cfs_b : Field cfs_b := ltac:(solve_field eta_task_group).
#[export] Instance upd_cfs_rqs : Field cfs_rqs := ltac:(solve_field eta_task_group).
Definition eta_gstate (r : gstate) : gstate :=
  mk_gstate (group r) (task_groups r) (kernel r) (processes r) (task_css r) (sched_task_group r) (rcu_callbacks r).
#[export] Instance upd_group : Field group := ltac:(solve_field eta_gstate).
#[export] Instance upd_task_groups : Field task_groups := ltac:(solve_field eta_gstate).
#[export] Instance upd_kernel : Field kernel := ltac:(solve_field eta_gstate).
#[export] Instance upd_task_css : Field task_css := ltac:(solve_field eta_gstate).
#[export] Instance upd_sched_task_group : Field sched_task_group := ltac:(solve_field eta_gstate).
#[export] Instance upd_rcu_callbacks : Field rcu_callbacks := ltac:(solve_field eta_gstate).

Abbreviation G := (M gstate).

Definition set_group (g : tg) (f : task_group -> task_group) : G unit := modify (fun s => s <| group ::= alter f g |>).
Definition get_group (g : tg) : G task_group := gets (fun s => group s g).

(** A computation of the scheduler. *)
Definition kern {A} (m : K A) : G A := fun s =>
  match m (kernel s) with
  | Done (a, k) => Done (a, s <| kernel := k |>)
  | Crash f => Crash f
  end.

Definition root_task_group : tg := 0.
Definition NSEC_PER_USEC : Z := 1000.
Definition NSEC_PER_MSEC : Z := 1000000.
Definition NSEC_PER_SEC : Z := 1000000000.
Definition U64_MAX : Z := 2 ^ 64 - 1.
Definition BW_SHIFT : Z := 20.
Definition BW_UNIT : Z := Z.shiftl 1 BW_SHIFT.
Definition MIN_SHARES : Z := 2.
Definition MAX_SHARES : Z := Z.shiftl 1 18.
Definition CGROUP_WEIGHT_MIN : Z := 1.
Definition CGROUP_WEIGHT_DFL : Z := 100.
Definition CGROUP_WEIGHT_MAX : Z := 10000.
Definition TASK_SET_GROUP : Z := 0.
Definition TASK_MOVE_GROUP : Z := 1.
Definition INT_MAX : Z := 2 ^ 31 - 1.

(** [ktime_to_ns] of a period. *)
Definition rt_period_ns (g : task_group) : Z := u64 (rt_period (rt_bw g)).

(** ** Parameters

    What is in [fair.c], [autogroup.c] and the cgroup core: the queues of a
    group, its weight, the timers of its bandwidth, the group of a session,
    whether the controller is on the unified hierarchy
    ([cgroup_subsys_on_dfl]), and the allocators. *)
Class FairGroups : Type := {
  kmem_cache_alloc : gstate -> option tg;
  kmem_cache_free : tg -> G unit;
  kzalloc_ok : G bool;
  alloc_fair_sched_group : tg -> tg -> G bool;
  free_fair_sched_group : tg -> G unit;
  online_fair_sched_group : tg -> G unit;
  unregister_fair_sched_group : tg -> G unit;
  sched_group_set_shares : tg -> Z -> G Z;
  task_change_group : sched_class_t -> option (task -> Z -> G unit);
  set_task_rq : task -> cpu -> G unit;
  cfs_bandwidth_usage_inc : G unit;
  cfs_bandwidth_usage_dec : G unit;
  __refill_cfs_bandwidth_runtime : tg -> G unit;
  start_cfs_bandwidth : tg -> G unit;
  unthrottle_cfs_rq : tg -> cpu -> G unit;
  autogroup_task_group : task -> tg -> gstate -> tg;
  autogroup_free : tg -> G unit;
  cgroup_on_dfl : bool
}.

(** ** Walking the tree *)

Definition visitor : Type := tg -> G Z.

Definition tg_nop : visitor := fun _ => ret 0.

(** The list node behind that of [x]. *)
Fixpoint next_sibling (x : tg) (l : list tg) : option tg :=
  match l with
  | [] => None
  | y :: l => if bool_decide (y = x) then head l else next_sibling x l
  end.

(** Where the walk is: in front of a group, or in the loop over the children
    of a group, at the next of them. *)
Inductive walk_at : Type :=
| Down (g : tg)
| Each (g : tg) (child : option tg).

Fixpoint walk_loop (fuel : nat) (from : tg) (down up : visitor) (w : walk_at) : G Z :=
  match fuel with
  | O => crash OutOfFuel
  | S fuel =>
      match w with
      | Down g =>
          let! r := down g in
          if negb (r =? 0) then ret r else
          let! t := get_group g in
          walk_loop fuel from down up (Each g (head (children t)))
      | Each _ (Some child) => walk_loop fuel from down up (Down child)
      | Each g None =>
          let! r := up g in
          if negb (r =? 0) || bool_decide (g = from) then ret r else
          let! t := get_group g in
          match parent t with
          | Some p =>
              let! t := get_group p in
              walk_loop fuel from down up (Each p (next_sibling g (children t)))
          | None => ret r
          end
      end
  end.

Definition walk_tg_tree_from (fuel : nat) (from : tg) (down up : visitor) : G Z :=
  walk_loop fuel from down up (Down from).

Definition walk_tg_tree (fuel : nat) (down up : visitor) : G Z :=
  walk_tg_tree_from fuel root_task_group down up.

(** ** Real-time bandwidth of groups *)

Definition to_ratio (period runtime : Z) : Z :=
  if runtime =? RUNTIME_INF then BW_UNIT else
  if period =? 0 then 0 else
  u64 (Z.shiftl runtime BW_SHIFT) / period.

Definition tg_has_rt_tasks (s : gstate) (g : tg) : bool :=
  if autogroup (group s g) then false else
  existsb (fun p => rt_task (tasks (kernel s) p) && bool_decide (sched_task_group s p = g)) (processes s).

(** The group to be changed, if any, and its new bandwidth. *)
Record rt_schedulable_data : Type := mk_rt_schedulable_data {
  d_tg : option tg;
  d_rt_period : Z;
  d_rt_runtime : Z
}.

(** The bandwidth of [g] in the new setting. *)
Definition rt_setting (s : gstate) (d : rt_schedulable_data) (g : tg) : Z * Z :=
  if bool_decide (Some g = d_tg d) then (d_rt_period d, d_rt_runtime d)
  else (rt_period_ns (group s g), rt_bw_runtime (rt_bw (group s g))).

Definition children_ratio (s : gstate) (d : rt_schedulable_data) (l : list tg) : Z :=
  fold_left (fun sum child => let '(p, r) := rt_setting s d child in u64 (sum + to_ratio p r)) l 0.

Definition tg_rt_schedulable (d : rt_schedulable_data) : visitor := fun g =>
  let! s := gets (fun s => s) in
  let '(period, runtime) := rt_setting s d g in
  if (period <? runtime) && negb (runtime =? RUNTIME_INF) then ret (- EINVAL) else
  if rt_bandwidth_enabled (kernel s) && (runtime =? 0) && tg_has_rt_tasks s g then ret (- EBUSY) else
  let total := to_ratio period runtime in
  if to_ratio (global_rt_period (kernel s)) (global_rt_runtime (kernel s)) <? total then ret (- EINVAL) else
  if total <? children_ratio s d (children (group s g)) then ret (- EINVAL) else
  ret 0.

Section TaskGroups.
Context `{Hfeat : SchedFeat} `{Hlim : Rlimits} `{Hpri : Cpupri} `{Htop : Topology}.
Context `{Hoth : OtherClasses} `{Hfair : FairGroups}.

(** [fuel] bounds the steps of the walk. *)
Definition __rt_schedulable (fuel : nat) (g : option tg) (period runtime : Z) : G Z :=
  walk_tg_tree fuel (tg_rt_schedulable (mk_rt_schedulable_data g period runtime)) tg_nop.

Definition tg_set_rt_bandwidth (fuel : nat) (g : tg) (period runtime : Z) : G Z :=
  if bool_decide (g = root_task_group) && (runtime =? 0) then ret (- EINVAL) else
  if period =? 0 then ret (- EINVAL) else
  let! err := __rt_schedulable fuel (Some g) period runtime in
  if negb (err =? 0) then ret err else
  do! set_group g (fun t => t <| rt_bw ::= fun b => b <| rt_period := s64 period |> |>) in
  do! set_group g (fun t => t <| rt_bw ::= fun b => b <| rt_bw_runtime := runtime |> |>) in
  let! s := gets (fun s => s) in
  do! foreach (possible_cpus (kernel s)) (fun i =>
    set_group g (fun t => t <| rt_rq_runtime ::= fun f => <[i := runtime]> f |>)) in
  ret err.

Definition sched_group_set_rt_runtime (fuel : nat) (g : tg) (rt_runtime_us : Z) : G Z :=
  let! t := get_group g in
  let runtime := u64 (u64 rt_runtime_us * NSEC_PER_USEC) in
  if rt_runtime_us <? 0 then tg_set_rt_bandwidth fuel g (rt_period_ns t) RUNTIME_INF else
  if U64_MAX / NSEC_PER_USEC <? u64 rt_runtime_us then ret (- EINVAL) else
  tg_set_rt_bandwidth fuel g (rt_period_ns t) runtime.

Definition sched_group_rt_runtime (g : tg) : G Z :=
  let! t := get_group g in
  if rt_bw_runtime (rt_bw t) =? RUNTIME_INF then ret (-1) else
  ret (s64 (rt_bw_runtime (rt_bw t) / NSEC_PER_USEC)).

Definition sched_group_set_rt_period (fuel : nat) (g : tg) (rt_period_us : Z) : G Z :=
  if U64_MAX / NSEC_PER_USEC <? rt_period_us then ret (- EINVAL) else
  let! t := get_group g in
  tg_set_rt_bandwidth fuel g (u64 (rt_period_us * NSEC_PER_USEC)) (rt_bw_runtime (rt_bw t)).

Definition sched_group_rt_period (g : tg) : G Z :=
  let! t := get_group g in
  ret (s64 (rt_period_ns t / NSEC_PER_USEC)).

Definition sched_rt_global_constraints (fuel : nat) : G Z := __rt_schedulable fuel None 0 0.

Definition sched_rt_can_attach (s : gstate) (g : tg) (p : task) : bool :=
  negb (rt_task (tasks (kernel s) p) && (rt_bw_runtime (rt_bw (group s g)) =? 0)).

(** [sched_rt_handler] with the constraints of groups; the functions of
    [deadline.c] and [proc_dointvec] are arguments. *)
Definition sched_rt_handler (fuel : nat) (dl_validate : K Z) (dl_do_global : K unit) (write : bool) (proc : K Z) : G Z :=
  let! old := gets kernel in
  let undo := kern
    (do! modify (fun s => s <| sysctl_sched_rt_period := u32 (s32 (sysctl_sched_rt_period old)) |>) in
     modify (fun s => s <| sysctl_sched_rt_runtime := sysctl_sched_rt_runtime old |>)) in
  let! r := kern proc in
  if negb ((r =? 0) && write) then ret r else
  let! r := kern sched_rt_global_validate in
  if negb (r =? 0) then do! undo in ret r else
  let! r := kern dl_validate in
  if negb (r =? 0) then do! undo in ret r else
  let! r := sched_rt_global_constraints fuel in
  if negb (r =? 0) then do! undo in ret r else
  do! kern sched_rt_do_global in
  do! kern dl_do_global in
  ret r.

(** The check of [__sched_setscheduler] for a user's change of policy. *)
Definition setsched_group_check (s : gstate) (p : task) (policy : Z) : Z :=
  let g := sched_task_group s p in
  if rt_bandwidth_enabled (kernel s) && rt_policy policy && (rt_bw_runtime (rt_bw (group s g)) =? 0)
     && negb (autogroup (group s g)) then - EPERM else 0.

(** ** Groups coming and going *)

Definition free_rt_sched_group (g : tg) : G unit :=
  set_group g (fun t => t <| rt_bw ::= fun b => b <| timer_active := false |> |>).

(** The entities and run queues of the group are left out but for their
    runtime; [kzalloc_ok] is whether the next allocation succeeds. *)
Fixpoint alloc_rt_rqs (g : tg) (cpus : list cpu) : G bool :=
  match cpus with
  | [] => ret true
  | i :: cpus =>
      let! ok := kzalloc_ok in
      if negb ok then ret false else
      let! ok := kzalloc_ok in
      if negb ok then ret false else
      let! t := get_group g in
      do! set_group g (fun t => t <| rt_rq_runtime ::= fun f => <[i := rt_bw_runtime (rt_bw t)]> f |>) in
      alloc_rt_rqs g cpus
  end.

Definition alloc_rt_sched_group (g p : tg) : G bool :=
  let! ok := kzalloc_ok in
  if negb ok then ret false else
  let! ok := kzalloc_ok in
  if negb ok then ret false else
  let! s := gets (fun s => s) in
  do! set_group g (fun t => t <| rt_bw ::= fun b =>
        b <| rt_period := s64 (u64 (rt_period (def_rt_bandwidth (kernel s)))) |> <| rt_bw_runtime := 0 |> |>) in
  alloc_rt_rqs g (possible_cpus (kernel s)).

Definition zeroed_group : task_group :=
  mk_task_group 0 (mk_rt_bandwidth 0 0 0 false) (fun _ => 0) None [] false (mk_cfs_bandwidth 0 0 0)
    (fun _ => mk_cfs_rq 0 0 0).

Definition sched_free_group (g : tg) : G unit :=
  do! free_fair_sched_group g in
  do! free_rt_sched_group g in
  do! autogroup_free g in
  kmem_cache_free g.

(** The result is the group, or the error of [ERR_PTR]. *)
Definition sched_create_group (p : tg) : G (Z + tg) :=
  let! o := gets kmem_cache_alloc in
  match o with
  | None => ret (inl (- ENOMEM))
  | Some g =>
      do! set_group g (fun _ => zeroed_group) in
      let! fair := alloc_fair_sched_group g p in
      let! ok := (if fair then alloc_rt_sched_group g p else ret false) in
      if ok : bool then ret (inr g) else
      do! sched_free_group g in
      ret (inl (- ENOMEM))
  end.

Definition sched_online_group (g p : tg) : G unit :=
  do! modify (fun s => s <| task_groups ::= cons g |>) in
  do! set_group g (fun t => t <| parent := Some p |>) in
  do! set_group g (fun t => t <| children := [] |>) in
  do! set_group p (fun t => t <| children ::= cons g |>) in
  online_fair_sched_group g.

Definition sched_free_group_rcu (g : tg) : G unit := sched_free_group g.

Definition sched_destroy_group (g : tg) : G unit := modify (fun s => s <| rcu_callbacks ::= cons g |>).

Definition unlink_group (g : tg) (l : list tg) : list tg := filter (fun x => x <> g) l.

(** The siblings of a group are in the list of its parent. *)
Definition sched_offline_group (g : tg) : G unit :=
  do! unregister_fair_sched_group g in
  do! modify (fun s => s <| task_groups ::= unlink_group g |>) in
  let! t := get_group g in
  match parent t with
  | Some p => set_group p (fun t => t <| children ::= unlink_group g |>)
  | None => crash BadLink
  end.

(** ** Moving tasks between groups *)

Definition class_change_group (k : sched_class_t) : option (task -> Z -> G unit) :=
  match k with
  | rt_sched_class | ts_sched_class | fake_sched_class => None
  | _ => task_change_group k
  end.

Definition sched_change_group (p : task) (type : Z) : G unit :=
  let! s := gets (fun s => s) in
  let g := autogroup_task_group p (task_css s p) s in
  do! modify (fun s => s <| sched_task_group ::= fun f => <[p := g]> f |>) in
  match class_change_group (sched_class (tasks (kernel s) p)) with
  | Some m => m p type
  | None => set_task_rq p (task_cpu (tasks (kernel s) p))
  end.

Definition sched_move_task (p : task) : G unit :=
  let flags := Z.lor (Z.lor DEQUEUE_SAVE DEQUEUE_MOVE) DEQUEUE_NOCLOCK in
  let! s := gets kernel in
  let c := task_cpu (tasks s p) in
  do! kern (update_rq_clock c) in
  let! s := gets kernel in
  let running := task_current (rqs s c) p in
  let queued := task_on_rq_queued (tasks s p) in
  do! kern (when queued (dequeue_task c p flags)) in
  do! kern (when running (put_prev_task c p)) in
  do! sched_change_group p TASK_MOVE_GROUP in
  do! kern (when queued (enqueue_task c p flags)) in
  kern (when running (set_curr_task c p)).

(** A css of the controller is the group that contains it. *)
Definition css_tg (css : option tg) : option tg := css.

Definition cpu_cgroup_css_alloc (parent_css : option tg) : G (Z + tg) :=
  match css_tg parent_css with
  | None => ret (inr root_task_group)
  | Some p =>
      let! r := sched_create_group p in
      match r with
      | inl _ => ret (inl (- ENOMEM))
      | inr g => ret (inr g)
      end
  end.

Definition cpu_cgroup_css_online (g : tg) (parent_css : option tg) : G Z :=
  do! (match css_tg parent_css with Some p => sched_online_group g p | None => ret tt end) in
  ret 0.

Definition cpu_cgroup_css_released (g : tg) : G unit := sched_offline_group g.
Definition cpu_cgroup_css_free (g : tg) : G unit := sched_free_group g.

Definition cpu_cgroup_fork (p : task) : G unit :=
  let! s := gets kernel in
  do! kern (update_rq_clock (task_cpu (tasks s p))) in
  sched_change_group p TASK_SET_GROUP.

Fixpoint cpu_cgroup_can_attach (tset : list (task * tg)) : G Z :=
  match tset with
  | [] => ret 0
  | (p, g) :: tset =>
      let! s := gets (fun s => s) in
      if negb (sched_rt_can_attach s g p) then ret (- EINVAL) else
      if state (tasks (kernel s) p) =? TASK_NEW then ret (- EINVAL) else
      cpu_cgroup_can_attach tset
  end.

Definition cpu_cgroup_attach (tset : list (task * tg)) : G unit :=
  foreach tset (fun '(p, _) => sched_move_task p).

(** ** CFS bandwidth *)

Definition max_cfs_quota_period : Z := NSEC_PER_SEC.
Definition min_cfs_quota_period : Z := NSEC_PER_MSEC.

Definition cfs_period_ns (g : task_group) : Z := u64 (cfs_period (cfs_b g)).

Definition tg_get_cfs_quota (g : task_group) : Z :=
  if quota (cfs_b g) =? RUNTIME_INF then -1 else s64 (quota (cfs_b g) / NSEC_PER_USEC).

Definition tg_get_cfs_period (g : task_group) : Z := s64 (cfs_period_ns g / NSEC_PER_USEC).

(** In microseconds, but for an unlimited quota. *)
Record cfs_schedulable_data : Type := mk_cfs_schedulable_data {
  d_cfs_tg : tg;
  d_cfs_period : Z;
  d_cfs_quota : Z
}.

Definition normalize_cfs_quota (s : gstate) (d : cfs_schedulable_data) (g : tg) : Z :=
  let '(period, quota) :=
    if bool_decide (g = d_cfs_tg d) then (d_cfs_period d, d_cfs_quota d)
    else (u64 (tg_get_cfs_period (group s g)), u64 (tg_get_cfs_quota (group s g))) in
  if (quota =? RUNTIME_INF) || (quota =? u64 (-1)) then RUNTIME_INF else to_ratio period quota.

Definition set_hierarchical (g : tg) (q : Z) : G unit :=
  set_group g (fun t => t <| cfs_b ::= fun b => b <| hierarchical_quota := q |> |>).

(** [quota] and [parent_quota] are signed, and -1 is unlimited. *)
Definition tg_cfs_schedulable_down (d : cfs_schedulable_data) : visitor := fun g =>
  let! s := gets (fun s => s) in
  match parent (group s g) with
  | None => do! set_hierarchical g (s64 RUNTIME_INF) in ret 0
  | Some p =>
      let quota := s64 (normalize_cfs_quota s d g) in
      let parent_quota := hierarchical_quota (cfs_b (group s p)) in
      if cgroup_on_dfl then do! set_hierarchical g (Z.min quota parent_quota) in ret 0
      else if u64 quota =? RUNTIME_INF then do! set_hierarchical g parent_quota in ret 0
      else if negb (u64 parent_quota =? RUNTIME_INF) && (parent_quota <? quota) then ret (- EINVAL)
      else do! set_hierarchical g quota in ret 0
  end.

Definition __cfs_schedulable (fuel : nat) (g : tg) (period quota : Z) : G Z :=
  let d := if negb (quota =? RUNTIME_INF)
           then mk_cfs_schedulable_data g (period / NSEC_PER_USEC) (quota / NSEC_PER_USEC)
           else mk_cfs_schedulable_data g period quota in
  walk_tg_tree fuel (tg_cfs_schedulable_down d) tg_nop.

Definition set_cfs_rq (g : tg) (i : cpu) (f : cfs_rq -> cfs_rq) : G unit :=
  set_group g (fun t => t <| cfs_rqs ::= fun q => <[i := f (q i)]> q |>).

Definition tg_set_cfs_bandwidth (fuel : nat) (g : tg) (period new_quota : Z) : G Z :=
  if bool_decide (g = root_task_group) then ret (- EINVAL) else
  if (new_quota <? min_cfs_quota_period) || (period <? min_cfs_quota_period) then ret (- EINVAL) else
  if max_cfs_quota_period <? period then ret (- EINVAL) else
  let! r := __cfs_schedulable fuel g period new_quota in
  if negb (r =? 0) then ret r else
  let! t := get_group g in
  let enabled := negb (new_quota =? RUNTIME_INF) in
  let was_enabled := negb (quota (cfs_b t) =? RUNTIME_INF) in
  do! when (enabled && negb was_enabled) cfs_bandwidth_usage_inc in
  do! set_group g (fun t => t <| cfs_b ::= fun b => b <| cfs_period := s64 period |> |>) in
  do! set_group g (fun t => t <| cfs_b ::= fun b => b <| quota := new_quota |> |>) in
  do! __refill_cfs_bandwidth_runtime g in
  do! when enabled (start_cfs_bandwidth g) in
  let! s := gets (fun s => s) in
  do! foreach (online_cpus (kernel s)) (fun i =>
    do! set_cfs_rq g i (fun q => q <| runtime_enabled := b2z enabled |>) in
    do! set_cfs_rq g i (fun q => q <| runtime_remaining := 0 |>) in
    let! t := get_group g in
    when (negb (throttled (cfs_rqs t i) =? 0)) (unthrottle_cfs_rq g i)) in
  do! when (was_enabled && negb enabled) cfs_bandwidth_usage_dec in
  ret r.

Definition tg_set_cfs_quota (fuel : nat) (g : tg) (cfs_quota_us : Z) : G Z :=
  let! t := get_group g in
  let period := cfs_period_ns t in
  if cfs_quota_us <? 0 then tg_set_cfs_bandwidth fuel g period RUNTIME_INF else
  if u64 cfs_quota_us <=? U64_MAX / NSEC_PER_USEC
  then tg_set_cfs_bandwidth fuel g period (u64 (u64 cfs_quota_us * NSEC_PER_USEC))
  else ret (- EINVAL).

Definition tg_set_cfs_period (fuel : nat) (g : tg) (cfs_period_us : Z) : G Z :=
  if U64_MAX / NSEC_PER_USEC <? u64 cfs_period_us then ret (- EINVAL) else
  let! t := get_group g in
  tg_set_cfs_bandwidth fuel g (u64 (u64 cfs_period_us * NSEC_PER_USEC)) (quota (cfs_b t)).

(** What [sscanf] makes of the text written to [cpu.max]: its first word and
    the number behind it, and the number that the word begins with. *)
Definition cpu_period_quota_parse (tok : option (bool * option Z)) (number : option Z) (period : Z) : Z * Z * Z :=
  match tok with
  | None => (- EINVAL, period, 0)
  | Some (is_max, num) =>
      let period := u64 (match number with Some n => n | None => period end * NSEC_PER_USEC) in
      match num with
      | Some q => (0, period, u64 (q * NSEC_PER_USEC))
      | None => if is_max then (0, period, RUNTIME_INF) else (- EINVAL, period, 0)
      end
  end.

Definition cpu_max_write (fuel : nat) (g : tg) (tok : option (bool * option Z)) (number : option Z) (nbytes : Z) : G Z :=
  let! t := get_group g in
  let '(r, period, q) := cpu_period_quota_parse tok number (u64 (tg_get_cfs_period t)) in
  let! r := (if r =? 0 then tg_set_cfs_bandwidth fuel g period q else ret r) in
  ret (if r =? 0 then nbytes else r).

Definition cpu_cfs_quota_read_s64 (g : tg) : G Z := let! t := get_group g in ret (tg_get_cfs_quota t).
Definition cpu_cfs_quota_write_s64 (fuel : nat) (g : tg) (us : Z) : G Z := tg_set_cfs_quota fuel g us.
Definition cpu_cfs_period_read_u64 (g : tg) : G Z := let! t := get_group g in ret (u64 (tg_get_cfs_period t)).
Definition cpu_cfs_period_write_u64 (fuel : nat) (g : tg) (us : Z) : G Z := tg_set_cfs_period fuel g (s64 us).
Definition cpu_rt_runtime_write (fuel : nat) (g : tg) (v : Z) : G Z := sched_group_set_rt_runtime fuel g v.
Definition cpu_rt_runtime_read (g : tg) : G Z := sched_group_rt_runtime g.
Definition cpu_rt_period_write_uint (fuel : nat) (g : tg) (us : Z) : G Z := sched_group_set_rt_period fuel g us.
Definition cpu_rt_period_read_uint (g : tg) : G Z := let! r := sched_group_rt_period g in ret (u64 r).

(** ** Weights *)

Definition DIV_ROUND_CLOSEST_ULL (x divisor : Z) : Z := u64 (x + divisor / 2) / divisor.

Definition cpu_shares_write_u64 (g : tg) (shareval : Z) : G Z :=
  let v := if scale_load_down U64_MAX <? shareval then MAX_SHARES else shareval in
  sched_group_set_shares g (scale_load v).

Definition cpu_shares_read_u64 (g : tg) : G Z := let! t := get_group g in ret (scale_load_down (shares t)).

Definition cpu_weight_read_u64 (g : tg) : G Z :=
  let! t := get_group g in
  ret (DIV_ROUND_CLOSEST_ULL (u64 (scale_load_down (shares t) * CGROUP_WEIGHT_DFL)) 1024).

Definition cpu_weight_write_u64 (g : tg) (weight : Z) : G Z :=
  if (weight <? CGROUP_WEIGHT_MIN) || (CGROUP_WEIGHT_MAX <? weight) then ret (- ERANGE) else
  let weight := DIV_ROUND_CLOSEST_ULL (u64 (weight * 1024)) CGROUP_WEIGHT_DFL in
  sched_group_set_shares g (scale_load weight).

(** The loop over the table from index [prio] on; the result is the index at
    which it ends. *)
Fixpoint closest_weight (table : list Z) (prio last_delta weight : Z) : Z :=
  match table with
  | [] => prio
  | w :: table =>
      let delta := s32 (Z.abs (s64 (w - weight))) in
      if last_delta <=? delta then prio else closest_weight table (prio + 1) delta weight
  end.

Definition cpu_weight_nice_read_s64 (g : tg) : G Z :=
  let! t := get_group g in
  let prio := closest_weight sched_prio_to_weight 0 INT_MAX (scale_load_down (shares t)) in
  ret (PRIO_TO_NICE (prio - 1 + MAX_RT_PRIO)).

Definition cpu_weight_nice_write_s64 (g : tg) (nice : Z) : G Z :=
  if (nice <? MIN_NICE) || (MAX_NICE <? nice) then ret (- ERANGE) else
  let idx := NICE_TO_PRIO nice - MAX_RT_PRIO in
  let! weight := require BadIndex (sched_prio_to_weight !! Z.to_nat idx) in
  sched_group_set_shares g (scale_load weight).
End TaskGroups.
