(* ===== verification/GroupProps.v ===== *)
(** * Task groups: what the walk and the admission of bandwidth guarantee

    The walk over the pointers of the groups is a traversal of their tree; on
    it rest the theorems on the bandwidth that is admitted. *)

From S2P Require Import Prelude Sched Ts RtBandwidth Rt SchedClass TaskGroups.

Lemma bind_eq {St A B} (m : M St A) (k : A -> M St B) s :
  bind m k s = match m s with Done (a, s') => k a s' | Crash f => Crash f end.
Proof. done. Qed.

(** ** The tree *)

Inductive rose : Type := Node (g : tg) (l : list rose).

Definition root (T : rose) : tg := match T with Node g _ => g end.

Fixpoint ids (T : rose) : list tg :=
  match T with Node g l => g :: mjoin (ids <$> l) end.

Lemma rose_ind' (P : rose -> Prop) :
  (forall g l, Forall P l -> P (Node g l)) -> forall T, P T.
Proof.
  intros H. fix IH 1. intros [g l]. apply H. induction l as [|T l IHl]; constructor; [apply IH|exact IHl].
Qed.

(** [s] links the groups of [T] as it says. *)
Fixpoint links (s : gstate) (T : rose) : Prop :=
  match T with
  | Node g l => children (group s g) = (root <$> l) /\
      (fix all l := match l with
        | [] => True
        | c :: l => parent (group s (root c)) = Some g /\ links s c /\ all l
        end) l
  end.

Lemma links_node s g l : links s (Node g l) <->
  children (group s g) = (root <$> l) /\ Forall (fun c => parent (group s (root c)) = Some g /\ links s c) l.
Proof.
  cbn [links]. apply and_iff_compat_l. induction l as [|c l IH]; [by split|].
  rewrite Forall_cons, IH. tauto.
Qed.

(** The groups of several trees. *)
Definition all_ids (l : list rose) : list tg := mjoin (ids <$> l).

Lemma all_ids_cons c l : all_ids (c :: l) = ids c ++ all_ids l.
Proof. done. Qed.

Lemma all_ids_app l1 l2 : all_ids (l1 ++ l2) = all_ids l1 ++ all_ids l2.
Proof. unfold all_ids. by rewrite fmap_app, join_app. Qed.

Lemma ids_node g l : ids (Node g l) = g :: all_ids l.
Proof. done. Qed.

Lemma elem_of_all_ids x l : x ∈ all_ids l <-> exists c, c ∈ l /\ x ∈ ids c.
Proof.
  unfold all_ids. rewrite list_elem_of_join. split.
  - intros (k & Hx & (c & -> & Hc)%list_elem_of_fmap). by exists c.
  - intros (c & Hc & Hx). exists (ids c). split; [done|by apply list_elem_of_fmap_2].
Qed.

Lemma root_ids T : root T ∈ ids T.
Proof. destruct T. by left. Qed.

Lemma ids_child g l c x : c ∈ l -> x ∈ ids c -> x ∈ ids (Node g l).
Proof.
  intros Hc Hx. right. apply elem_of_all_ids. by exists c.
Qed.

(** What a visitor may not change. *)
Definition tree_kept (s s' : gstate) : Prop :=
  forall g, children (group s' g) = children (group s g) /\ parent (group s' g) = parent (group s g).

#[export] Instance tree_kept_preorder : PreOrder tree_kept.
Proof.
  split; [done|]. intros s1 s2 s3 A B g. destruct (A g) as [<- <-], (B g) as [-> ->]. done.
Qed.

Lemma links_kept s s' T : tree_kept s s' -> links s T -> links s' T.
Proof.
  intros Hk. induction T as [g l IH] using rose_ind'. rewrite !links_node. intros [Hc Hl].
  destruct (Hk g) as [-> _]. split; [done|].
  apply Forall_forall. intros c Hin. rewrite Forall_forall in IH, Hl. destruct (Hl c Hin) as [Hp Hs].
  destruct (Hk (root c)) as [_ ->]. split; [done|]. by apply IH.
Qed.

(** ** The walk as a traversal *)

Section Walk.
Context (down up : visitor).
Implicit Types (s : gstate) (T : rose).

Fixpoint walk_tree (T : rose) : G Z :=
  match T with
  | Node g l =>
      let! r := down g in
      if negb (r =? 0) then ret r else
      let! r := (fix go l := match l with
        | [] => ret 0
        | c :: l => let! r := walk_tree c in if negb (r =? 0) then ret r else go l
        end) l in
      if negb (r =? 0) then ret r else up g
  end.

Fixpoint walk_list (l : list rose) : G Z :=
  match l with
  | [] => ret 0
  | c :: l => let! r := walk_tree c in if negb (r =? 0) then ret r else walk_list l
  end.

Lemma walk_tree_eq g l :
  walk_tree (Node g l) =
  (let! r := down g in
   if negb (r =? 0) then ret r else
   let! r := walk_list l in
   if negb (r =? 0) then ret r else up g).
Proof. done. Qed.

(** The steps that the walk takes. *)
Fixpoint walk_cost (T : rose) : nat :=
  match T with Node g l => S (S (sum_list_with (fun c => S (walk_cost c)) l)) end.

Definition list_cost (l : list rose) : nat := sum_list_with (fun c => S (walk_cost c)) l.

Context (Hdown : forall g, frames tree_kept (down g)) (Hup : forall g, frames tree_kept (up g)).

Lemma walk_tree_kept T : frames tree_kept (walk_tree T).
Proof.
  induction T as [g l IH] using rose_ind'. rewrite walk_tree_eq.
  apply frames_bind; [exact _|apply Hdown|]. intros r. destruct (negb _); [by apply frames_ret, _|].
  apply frames_bind; [exact _| |].
  - induction IH as [|c l Hc _ IHl]; cbn [walk_list]; [by apply frames_ret, _|].
    apply frames_bind; [exact _|exact Hc|]. intros r'. destruct (negb _); [by apply frames_ret, _|exact IHl].
  - intros r'. destruct (negb _); [by apply frames_ret, _|apply Hup].
Qed.

Lemma walk_list_kept l : frames tree_kept (walk_list l).
Proof.
  induction l as [|c l IHl]; cbn [walk_list]; [by apply frames_ret, _|].
  apply frames_bind; [exact _|apply walk_tree_kept|]. intros r'. destruct (negb _); [by apply frames_ret, _|exact IHl].
Qed.

Lemma next_sibling_app x l1 l2 : x ∉ l1 -> next_sibling x (l1 ++ x :: l2) = head l2.
Proof.
  induction l1 as [|y l1 IH]; intros Hx; cbn [app next_sibling]; [by rewrite bool_decide_true|].
  rewrite bool_decide_false; [|intros ->; apply Hx; by left]. apply IH. intros H. apply Hx. by right.
Qed.

Lemma walk_down n from g : walk_loop (S n) from down up (Down g) =
  (let! r := down g in
   if negb (r =? 0) then ret r else
   let! t := get_group g in
   walk_loop n from down up (Each g (head (children t)))).
Proof. done. Qed.

Lemma walk_each n from g c : walk_loop (S n) from down up (Each g (Some c)) = walk_loop n from down up (Down c).
Proof. done. Qed.

(** A subtree that is not the whole. *)
Definition walks_subtree from T : Prop := forall p s fuel,
  from ∉ ids T -> NoDup (ids T) -> links s T -> parent (group s (root T)) = Some p ->
  walk_loop (walk_cost T + fuel) from down up (Down (root T)) s =
  match walk_tree T s with
  | Done (r, s') => if r =? 0 then walk_loop fuel from down up
                      (Each p (next_sibling (root T) (children (group s p)))) s'
                    else Done (r, s')
  | Crash f => Crash f
  end.

Lemma walk_children from g l2 : forall l1 s fuel,
  Forall (walks_subtree from) l2 -> links s (Node g (l1 ++ l2)) -> NoDup (ids (Node g (l1 ++ l2))) ->
  from ∉ all_ids l2 ->
  walk_loop (list_cost l2 + fuel) from down up (Each g (head (root <$> l2))) s =
  match walk_list l2 s with
  | Done (r, s') => if r =? 0 then walk_loop fuel from down up (Each g None) s' else Done (r, s')
  | Crash f => Crash f
  end.
Proof.
  induction l2 as [|c l2 IH]; intros l1 s fuel Hw Hl Hn Hf; [done|].
  apply Forall_cons in Hw as [Hc Hw]. pose proof Hl as [Hch Hall]%links_node.
  apply Forall_app in Hall as [_ [[Hp Hlc] _]%Forall_cons].
  rewrite all_ids_cons, not_elem_of_app in Hf. destruct Hf as [Hf1 Hf2].
  pose proof Hn as Hn'. rewrite ids_node, all_ids_app, all_ids_cons in Hn'.
  apply NoDup_cons in Hn' as [_ (_ & Hdis & (Hnc & _ & _)%NoDup_app)%NoDup_app].
  unfold list_cost. cbn [fmap list_fmap sum_list_with walk_list head Nat.add].
  fold (list_cost l2).
  rewrite walk_each, <- Nat.add_assoc. rewrite (Hc g); [|done..]. rewrite bind_eq.
  destruct (walk_tree c s) as [[r s']|f] eqn:E; [|done]. destruct (r =? 0) eqn:Er; cbn [negb]; [|by unfold ret; rewrite Er].
  pose proof (walk_tree_kept c s _ _ E) as Hk.
  assert (En : next_sibling (root c) (children (group s g)) = head (root <$> l2)).
  { rewrite Hch, fmap_app. cbn [fmap list_fmap]. apply next_sibling_app. intros Hin.
    apply list_elem_of_fmap in Hin as (c' & Ec & Hc'). apply (Hdis (root c)).
    - apply elem_of_all_ids. exists c'. split; [done|]. rewrite Ec. apply root_ids.
    - rewrite elem_of_app. left. apply root_ids. }
  rewrite En. apply (IH (l1 ++ [c])); [done| |by rewrite <- app_assoc|done].
  rewrite <- app_assoc. by eapply links_kept.
Qed.

Lemma walk_subtree from T : walks_subtree from T.
Proof.
  induction T as [g l IH] using rose_ind'. intros p s fuel Hf Hn Hl Hp. cbn [root] in *.
  rewrite ids_node, not_elem_of_cons in Hf. destruct Hf as [Hne Hf].
  rewrite walk_tree_eq. cbn [walk_cost]. cbn [Nat.add]. rewrite walk_down, !bind_eq.
  destruct (down g s) as [[r s1]|f] eqn:E1; [|done]. destruct (r =? 0) eqn:Er; cbn [negb]; [|by unfold ret; rewrite Er].
  pose proof (Hdown g s _ _ E1) as K1. pose proof (links_kept _ _ _ K1 Hl) as Hl1.
  unfold get_group. rewrite bind_gets. rewrite (proj1 (proj1 (links_node _ _ _) Hl1)).
  change (sum_list_with (fun c => S (walk_cost c)) l) with (list_cost l).
  rewrite <- Nat.add_succ_r. rewrite (walk_children from g l [] s1); [|done..]. rewrite bind_eq.
  destruct (walk_list l s1) as [[r2 s2]|f] eqn:E2; [|done]. destruct (r2 =? 0) eqn:Er2; cbn [negb]; [|by unfold ret; rewrite Er2].
  assert (K2 : tree_kept s1 s2) by exact (walk_list_kept l s1 _ _ E2).
  cbn [walk_loop]. rewrite bind_eq. destruct (up g s2) as [[r3 s3]|f] eqn:E3; [|done].
  rewrite (bool_decide_false (g = from)), orb_false_r by (by intros ->).
  destruct (r3 =? 0) eqn:Er3; cbn [negb]; [|done]. unfold get_group. rewrite bind_gets.
  assert (K3 : tree_kept s s3) by (etrans; [exact K1|]; etrans; [exact K2|]; exact (Hup g s2 _ _ E3)).
  destruct (K3 g) as [_ ->]. rewrite Hp, bind_gets. by destruct (K3 p) as [-> _].
Qed.

(** The whole tree. *)
Lemma walk_whole T fuel s :
  links s T -> NoDup (ids T) ->
  walk_tg_tree_from (walk_cost T + fuel) (root T) down up s = walk_tree T s.
Proof.
  destruct T as [g l]. intros Hl Hn. unfold walk_tg_tree_from. cbn [root].
  rewrite walk_tree_eq. cbn [walk_cost]. cbn [Nat.add]. rewrite walk_down, !bind_eq.
  destruct (down g s) as [[r s1]|f] eqn:E1; [|done]. destruct (r =? 0) eqn:Er; cbn [negb]; [|done].
  pose proof (links_kept _ _ _ (Hdown g s _ _ E1) Hl) as Hl1.
  unfold get_group. rewrite bind_gets. rewrite (proj1 (proj1 (links_node _ _ _) Hl1)).
  change (sum_list_with (fun c => S (walk_cost c)) l) with (list_cost l).
  rewrite ids_node in Hn. pose proof Hn as [Hg _]%NoDup_cons.
  rewrite <- Nat.add_succ_r. rewrite (walk_children g g l [] s1); [| |done..].
  2: { apply Forall_forall. intros c _. apply walk_subtree. }
  rewrite bind_eq. destruct (walk_list l s1) as [[r2 s2]|f] eqn:E2; [|done].
  destruct (r2 =? 0) eqn:Er2; cbn [negb]; [|done].
  cbn [walk_loop]. rewrite bind_eq. destruct (up g s2) as [[r3 s3]|f] eqn:E3; [|done].
  by rewrite bool_decide_true, orb_true_r by done.
Qed.
End Walk.

(** More fuel changes nothing. *)
Lemma walk_fuel from down up n : forall w s r,
  walk_loop n from down up w s = Done r -> forall k, walk_loop (n + k) from down up w s = Done r.
Proof.
  induction n as [|n IH]; intros w s r He k; [done|]. cbn [Nat.add walk_loop] in *. destruct w as [g|g [c|]].
  - apply bind_inv in He as (z & s1 & E1 & He). rewrite bind_eq, E1. destruct (negb _); [done|].
    apply bind_inv in He as (t & s2 & E2 & He). rewrite bind_eq, E2. by apply IH.
  - by apply IH.
  - apply bind_inv in He as (z & s1 & E1 & He). rewrite bind_eq, E1. destruct (_ || _); [done|].
    apply bind_inv in He as (t & s2 & E2 & He). rewrite bind_eq, E2. destruct (parent t) as [p|]; [|done].
    apply bind_inv in He as (t' & s3 & E3 & He). rewrite bind_eq, E3. by apply IH.
Qed.

(** What the walk returns, whatever fuel it was given. *)
Lemma walk_result from down up n T s r :
  (forall g, frames tree_kept (down g)) -> (forall g, frames tree_kept (up g)) ->
  links s T -> NoDup (ids T) -> root T = from ->
  walk_tg_tree_from n from down up s = Done r -> walk_tree down up T s = Done r.
Proof.
  intros Hd Hu Hl Hn <- He. rewrite <- (walk_whole down up Hd Hu T n s Hl Hn).
  unfold walk_tg_tree_from in *. rewrite Nat.add_comm. by apply walk_fuel.
Qed.

(** ** A visitor that only looks *)

Fixpoint first_error (f : tg -> Z) (l : list tg) : Z :=
  match l with
  | [] => 0
  | g :: l => if f g =? 0 then first_error f l else f g
  end.

Lemma first_error_app f l1 l2 :
  first_error f (l1 ++ l2) = if first_error f l1 =? 0 then first_error f l2 else first_error f l1.
Proof. induction l1 as [|g l1 IH]; [done|]. cbn [app first_error]. destruct (f g =? 0) eqn:E; [done|by rewrite E]. Qed.

Lemma first_error_0 f l : first_error f l = 0 <-> Forall (fun g => f g = 0) l.
Proof.
  induction l as [|g l IH]; [by split|]. cbn [first_error]. rewrite Forall_cons, <- IH.
  destruct (Z.eqb_spec (f g) 0); tauto.
Qed.

Lemma walk_tree_looks (f : tg -> Z) down s T :
  (forall g, down g s = Done (f g, s)) -> walk_tree down tg_nop T s = Done (first_error f (ids T), s).
Proof.
  intros Hd. induction T as [g l IH] using rose_ind'. rewrite walk_tree_eq, bind_eq, Hd, ids_node. cbn [first_error].
  destruct (f g =? 0) eqn:Eg; cbn [negb]; [|done].
  assert (E : walk_list down tg_nop l s = Done (first_error f (all_ids l), s)).
  { induction IH as [|c l Hc _ IHl]; [done|]. cbn [walk_list].
    rewrite bind_eq, Hc, all_ids_cons, first_error_app. destruct (first_error f (ids c) =? 0); cbn [negb]; [apply IHl|done]. }
  rewrite bind_eq, E. destruct (first_error f (all_ids l) =? 0) eqn:E0; cbn [negb]; [|done].
  apply Z.eqb_eq in E0. by rewrite E0.
Qed.

(** ** Real-time bandwidth *)

Section RtGroups.
Implicit Types (s : gstate) (T : rose) (d : rt_schedulable_data).

Definition global_ratio s : Z := to_ratio (global_rt_period (kernel s)) (global_rt_runtime (kernel s)).

(** What [tg_rt_schedulable] returns. *)
Definition rt_check s d (g : tg) : Z :=
  let '(period, runtime) := rt_setting s d g in
  if (period <? runtime) && negb (runtime =? RUNTIME_INF) then - EINVAL else
  if rt_bandwidth_enabled (kernel s) && (runtime =? 0) && tg_has_rt_tasks s g then - EBUSY else
  if global_ratio s <? to_ratio period runtime then - EINVAL else
  if to_ratio period runtime <? children_ratio s d (children (group s g)) then - EINVAL else 0.

Lemma tg_rt_schedulable_eq s d g : tg_rt_schedulable d g s = Done (rt_check s d g, s).
Proof.
  unfold tg_rt_schedulable, rt_check, global_ratio. rewrite bind_gets. destruct (rt_setting s d g) as [p r].
  destruct (_ && negb _); [done|]. destruct (_ && _); [done|]. destruct (_ <? to_ratio p r); [done|].
  by destruct (_ <? children_ratio _ _ _).
Qed.

Definition ratio_of (pr : Z * Z) : Z := to_ratio pr.1 pr.2.

(** The bandwidth of [g] is admissible. *)
Record rt_fits s d (g : tg) : Prop := {
  rf_runtime : (rt_setting s d g).2 <= (rt_setting s d g).1 \/ (rt_setting s d g).2 = RUNTIME_INF;
  rf_global : ratio_of (rt_setting s d g) <= global_ratio s;
  rf_children : children_ratio s d (children (group s g)) <= ratio_of (rt_setting s d g);
  rf_tasks : rt_bandwidth_enabled (kernel s) = true -> (rt_setting s d g).2 = 0 -> tg_has_rt_tasks s g = false
}.

Lemma rt_check_0 s d g : rt_check s d g = 0 <-> rt_fits s d g.
Proof.
  unfold rt_check. destruct (rt_setting s d g) as [p r] eqn:E.
  destruct ((p <? r) && negb (r =? RUNTIME_INF)) eqn:E1.
  { split; [done|]. intros [H _ _ _]. rewrite E in H. simpl in H. lia. }
  destruct (rt_bandwidth_enabled (kernel s) && (r =? 0) && tg_has_rt_tasks s g) eqn:E2.
  { split; [done|]. intros [_ _ _ H]. rewrite E in H. simpl in H.
    apply andb_true_iff in E2 as [[E2 E3]%andb_true_iff E4]. rewrite H in E4; [done|done|lia]. }
  destruct (Z.ltb_spec (global_ratio s) (to_ratio p r)).
  { split; [done|]. intros [_ H1 _ _]. rewrite E in H1. unfold ratio_of in H1. simpl in H1. lia. }
  destruct (Z.ltb_spec (to_ratio p r) (children_ratio s d (children (group s g)))).
  { split; [done|]. intros [_ _ H1 _]. rewrite E in H1. unfold ratio_of in H1. simpl in H1. lia. }
  split; [|done]. intros _. split; rewrite ?E; unfold ratio_of; simpl; try lia.
  intros He Hr. rewrite He in E2. simpl in E2. destruct (tg_has_rt_tasks s g); [|done].
  destruct (Z.eqb_spec r 0); done.
Qed.

Lemma rt_schedulable_result n o p r s T z s' :
  links s T -> NoDup (ids T) -> root T = root_task_group ->
  __rt_schedulable n o p r s = Done (z, s') ->
  s' = s /\ z = first_error (rt_check s (mk_rt_schedulable_data o p r)) (ids T).
Proof.
  intros Hl Hn Hr He.
  assert (Hd : forall g, frames tree_kept (tg_rt_schedulable (mk_rt_schedulable_data o p r) g)).
  { intros g s1 a s2. rewrite tg_rt_schedulable_eq. by intros [= _ <-]. }
  assert (Hu : forall g, frames tree_kept (tg_nop g)) by (intros g; by apply frames_ret, _).
  apply (walk_result _ _ _ _ T) in He; [|done..].
  rewrite (walk_tree_looks _ _ s T (tg_rt_schedulable_eq s _)) in He. by injection He as <- <-.
Qed.

Lemma rt_schedulable_run fuel o p r s T :
  links s T -> NoDup (ids T) -> root T = root_task_group ->
  __rt_schedulable (walk_cost T + fuel) o p r s =
    Done (first_error (rt_check s (mk_rt_schedulable_data o p r)) (ids T), s).
Proof.
  intros Hl Hn Hr. unfold __rt_schedulable, walk_tg_tree. rewrite <- Hr. rewrite walk_whole; [| | |done..].
  - apply walk_tree_looks, tg_rt_schedulable_eq.
  - intros g s1 a s2. rewrite tg_rt_schedulable_eq. by intros [= _ <-].
  - intros g. by apply frames_ret, _.
Qed.

(** The real-time settings of [g] change, and nothing else. *)
Record rt_only (g : tg) s s' : Prop := {
  ro_others : forall x, x <> g -> group s' x = group s x;
  ro_tree : tree_kept s s';
  ro_shares : shares (group s' g) = shares (group s g);
  ro_auto : autogroup (group s' g) = autogroup (group s g);
  ro_cfs : cfs_b (group s' g) = cfs_b (group s g) /\ cfs_rqs (group s' g) = cfs_rqs (group s g);
  ro_rest : s' <| group := group s |> = s
}.

Lemma rt_only_refl g s : rt_only g s s.
Proof. split; try done. by destruct s. Qed.

Lemma rt_only_trans g s1 s2 s3 : rt_only g s1 s2 -> rt_only g s2 s3 -> rt_only g s1 s3.
Proof.
  intros [A1 A2 A3 A4 [A5 A6] A7] [B1 B2 B3 B4 [B5 B6] B7]. split; try congruence.
  - intros x Hx. by rewrite B1, A1.
  - by etrans.
  - split; congruence.
  - by rewrite <- A7, <- B7.
Qed.

Lemma set_rt_only g f s :
  (forall t, shares (f t) = shares t /\ autogroup (f t) = autogroup t /\ cfs_b (f t) = cfs_b t /\
     cfs_rqs (f t) = cfs_rqs t /\ children (f t) = children t /\ parent (f t) = parent t) ->
  rt_only g s (s <| group ::= alter f g |>) /\ group (s <| group ::= alter f g |>) g = f (group s g).
Proof.
  intros Hf. assert (E : group (s <| group ::= alter f g |>) g = f (group s g)) by (simpl; by rewrite fn_lookup_alter).
  split; [|done]. destruct (Hf (group s g)) as (H1 & H2 & H3 & H4 & H5 & H6).
  split; rewrite ?E; [|..|by destruct s]; try done.
  - intros x Hx. simpl. by rewrite fn_lookup_alter_ne.
  - intros x. simpl. destruct (decide (g = x)) as [<-|Hne]; [by rewrite fn_lookup_alter|by rewrite fn_lookup_alter_ne].
Qed.

(** The runtime of every CPU. *)
Lemma set_runtimes_run g r l : forall s,
  wp (foreach l (fun i => set_group g (fun t => t <| rt_rq_runtime ::= fun f => <[i := r]> f |>)))
    (fun _ s' => rt_only g s s' /\ rt_bw (group s' g) = rt_bw (group s g) /\
       forall i, rt_rq_runtime (group s' g) i = if decide (i ∈ l) then r else rt_rq_runtime (group s g) i) s.
Proof.
  induction l as [|j l IH]; intros s; cbn [foreach].
  { wstep. split; [apply rt_only_refl|]. split; [done|]. intros i. by rewrite decide_False by apply not_elem_of_nil. }
  unfold set_group at 1. do 2 wstep.
  destruct (set_rt_only g (fun t => t <| rt_rq_runtime ::= fun f => <[j := r]> f |>) s ltac:(done)) as [H1 E1].
  eapply wp_mono; [apply IH|]. intros [] s' (H2 & H3 & H4). split; [by eapply rt_only_trans|].
  rewrite H3, E1. split; [done|]. intros i. rewrite H4, E1. simpl. destruct (decide (i ∈ l)) as [Hi|Hi].
  - rewrite decide_True; [done|by right].
  - destruct (decide (i = j)) as [->|Hne]; [rewrite fn_lookup_insert, decide_True; [done|by left]|].
    rewrite fn_lookup_insert_ne by done. rewrite decide_False; [done|]. by intros [|]%elem_of_cons.
Qed.

(** The whole change. *)
Definition rt_bandwidth_set (g : tg) (period runtime : Z) s s' : Prop :=
  rt_only g s s' /\ rt_period_ns (group s' g) = period /\ rt_bw_runtime (rt_bw (group s' g)) = runtime /\
  forall i, i ∈ possible_cpus (kernel s) -> rt_rq_runtime (group s' g) i = runtime.

Lemma u64_s64 z : 0 <= z < 2 ^ 64 -> u64 (s64 z) = z.
Proof.
  intros Hz. unfold u64, s64. destruct (Z.lt_ge_cases z (2 ^ 63)).
  - rewrite (Z.mod_small (z + 2 ^ 63)) by lia. rewrite Z.mod_small; lia.
  - replace (z + 2 ^ 63) with (z - 2 ^ 63 + 1 * 2 ^ 64) by lia.
    rewrite Z.mod_add, (Z.mod_small (z - 2 ^ 63)) by lia.
    replace (z - 2 ^ 63 - 2 ^ 63) with (z + (-1) * 2 ^ 64) by lia. rewrite Z.mod_add, Z.mod_small; lia.
Qed.

Lemma set_rt_bandwidth_run n g p r s T z s' :
  links s T -> NoDup (ids T) -> root T = root_task_group -> 0 <= p < 2 ^ 64 ->
  tg_set_rt_bandwidth n g p r s = Done (z, s') ->
  (z <> 0 /\ s' = s) \/
  (z = 0 /\ p <> 0 /\ (g = root_task_group -> r <> 0) /\ rt_bandwidth_set g p r s s' /\
   forall x, x ∈ ids T -> rt_fits s (mk_rt_schedulable_data (Some g) p r) x).
Proof.
  intros Hl Hn Hr Hp He. unfold tg_set_rt_bandwidth in He.
  destruct (bool_decide (g = root_task_group) && (r =? 0)) eqn:E1.
  { apply ret_inv in He as [-> ->]. by left. }
  destruct (Z.eqb_spec p 0); [apply ret_inv in He as [-> ->]; by left|].
  apply bind_inv in He as (err & s1 & H1 & He). apply (rt_schedulable_result _ _ _ _ _ T) in H1 as [-> Herr]; [|done..].
  destruct (Z.eqb_spec err 0) as [->|Hne]; cbn [negb] in He; [|apply ret_inv in He as [-> ->]; by left].
  right. unfold set_group in He at 1 2.
  pose proof (set_rt_only g (fun t => t <| rt_bw ::= fun b => b <| rt_period := s64 p |> |>) s ltac:(done)) as [A1 A2].
  set (s1 := s <| group ::= _ |>) in *.
  pose proof (set_rt_only g (fun t => t <| rt_bw ::= fun b => b <| rt_bw_runtime := r |> |>) s1 ltac:(done)) as [B1 B2].
  set (s2 := s1 <| group ::= _ |>) in *.
  assert (H : wp (do! foreach (possible_cpus (kernel s2)) (fun i =>
    set_group g (fun t => t <| rt_rq_runtime ::= fun f => <[i := r]> f |>)) in ret 0)
    (fun z s' => z = 0 /\ rt_bandwidth_set g p r s s') s2).
  { clear He. assert (Ek : kernel s2 = kernel s) by done. clearbody s2; clearbody s1.
    wstep. eapply wp_mono; [apply set_runtimes_run|]. intros [] s3 (C1 & C2 & C3). wstep. split; [done|].
    split; [by eapply rt_only_trans; [|eapply rt_only_trans]|]. unfold rt_period_ns. rewrite C2, B2. simpl. rewrite A2.
    split; [by apply u64_s64|]. split; [done|]. intros i Hi. rewrite C3. rewrite decide_True; [done|by rewrite Ek]. }
  change ((do! foreach (possible_cpus (kernel s2)) (fun i =>
    set_group g (fun t => t <| rt_rq_runtime ::= fun f => <[i := r]> f |>)) in ret 0) s2 = Done (z, s')) in He.
  destruct (wp_elim _ _ _ _ _ H He) as [-> Hb]. split_and!; [done|done| |done|].
  - intros ->. rewrite bool_decide_true in E1 by done. by apply Z.eqb_neq.
  - symmetry in Herr. apply first_error_0 in Herr. rewrite Forall_forall in Herr. intros x Hx. by apply rt_check_0, Herr.
Qed.

(** *** What is admitted *)

Definition group_bw s (g : tg) : Z * Z := (rt_period_ns (group s g), rt_bw_runtime (rt_bw (group s g))).
Definition ratio s (g : tg) : Z := ratio_of (group_bw s g).

Record rt_admitted s (g : tg) : Prop := {
  ra_runtime : (group_bw s g).2 <= (group_bw s g).1 \/ (group_bw s g).2 = RUNTIME_INF;
  ra_global : ratio s g <= global_ratio s;
  ra_children : sumZ (ratio s) (children (group s g)) <= ratio s g
}.

Record rt_tree T s : Prop := {
  rg_root : root T = root_task_group;
  rg_links : links s T;
  rg_nodup : NoDup (ids T);
  rg_size : Z.of_nat (length (ids T)) <= 2 ^ 40;
  rg_range : forall g, g ∈ ids T -> 0 <= (group_bw s g).2 < 2 ^ 64;
  rg_ok : forall g, g ∈ ids T -> rt_admitted s g
}.

Lemma links_children s T g :
  links s T -> g ∈ ids T ->
  (length (children (group s g)) <= length (ids T))%nat /\ forall c, c ∈ children (group s g) -> c ∈ ids T.
Proof.
  induction T as [x l IH] using rose_ind'. intros [Hc Hl]%links_node Hg. rewrite ids_node in *.
  assert (Hlen : (length l <= length (all_ids l))%nat).
  { clear. induction l as [|c l IHl]; [done|]. rewrite all_ids_cons, length_app.
    destruct c. rewrite ids_node. cbn [length]. lia. }
  apply elem_of_cons in Hg as [->|(c & Hin & Hg)%elem_of_all_ids].
  - rewrite Hc. split; [rewrite length_fmap; cbn [length]; lia|].
    intros y (c & -> & Hin)%list_elem_of_fmap. right. apply elem_of_all_ids. exists c.
    split; [done|apply root_ids].
  - rewrite Forall_forall in IH, Hl. destruct (IH c Hin (proj2 (Hl c Hin)) Hg) as [H1 H2].
    assert (Hsub : submseteq (ids c) (all_ids l)).
    { apply list_elem_of_split in Hin as (l1 & l2 & ->). rewrite all_ids_app, all_ids_cons.
      apply submseteq_inserts_l. by apply submseteq_inserts_r. }
    apply submseteq_length in Hsub as Hs. split; [cbn [length]; lia|].
    intros y Hy%H2. right. apply elem_of_all_ids. by exists c.
Qed.

Lemma to_ratio_range p r :
  0 <= p -> 0 <= r < 2 ^ 64 -> r <= p \/ r = RUNTIME_INF -> 0 <= to_ratio p r <= 2 ^ 20.
Proof.
  intros Hp Hr Hle. unfold to_ratio. destruct (Z.eqb_spec r RUNTIME_INF); [done|].
  destruct (Z.eqb_spec p 0); [lia|]. destruct Hle as [Hle|]; [|done].
  assert (Hu : 0 <= u64 (Z.shiftl r BW_SHIFT) <= r * 2 ^ 20).
  { split; [apply u64_range|]. unfold u64, BW_SHIFT. rewrite Z.shiftl_mul_pow2 by lia. apply Z.mod_le; lia. }
  split; [apply Z.div_pos; lia|]. apply Z.div_le_upper_bound; [lia|]. nia.
Qed.

Lemma children_ratio_sum s d l :
  (forall c, c ∈ l -> 0 <= ratio_of (rt_setting s d c) <= 2 ^ 20) -> Z.of_nat (length l) <= 2 ^ 40 ->
  children_ratio s d l = sumZ (fun c => ratio_of (rt_setting s d c)) l.
Proof.
  intros Hc Hl. unfold children_ratio.
  enough (H : forall a, 0 <= a -> a + 2 ^ 20 * Z.of_nat (length l) < 2 ^ 64 ->
    fold_left (fun sum child => let '(p, r) := rt_setting s d child in u64 (sum + to_ratio p r)) l a
    = a + sumZ (fun c => ratio_of (rt_setting s d c)) l) by (rewrite H; lia).
  clear Hl. induction l as [|c l IH]; intros a Ha Hl; [cbn; lia|]. cbn [fold_left length] in *.
  pose proof (Hc c ltac:(by left)) as H1. rewrite sumZ_cons. unfold ratio_of in *.
  destruct (rt_setting s d c) as [p r] eqn:E. simpl in H1. rewrite u64_small by lia.
  rewrite IH; [rewrite ?E; simpl; lia|intros; apply Hc; by right|lia..].
Qed.

Lemma rt_period_ns_range s g : 0 <= rt_period_ns (group s g) < 2 ^ 64.
Proof. apply u64_range. Qed.

(** A setting that passes the check is admitted, once it is in place. *)
Lemma fits_admitted T s s' d :
  root T = root_task_group -> links s T -> NoDup (ids T) -> Z.of_nat (length (ids T)) <= 2 ^ 40 ->
  tree_kept s s' -> global_ratio s' = global_ratio s ->
  (forall x, x ∈ ids T -> group_bw s' x = rt_setting s d x /\ 0 <= (rt_setting s d x).1 /\
     0 <= (rt_setting s d x).2 < 2 ^ 64) ->
  (forall x, x ∈ ids T -> rt_fits s d x) -> rt_tree T s'.
Proof.
  intros Hr Hl Hn Hs Hk Hg Hb Hf.
  assert (Hrat : forall x, x ∈ ids T -> ratio s' x = ratio_of (rt_setting s d x) /\ 0 <= ratio_of (rt_setting s d x) <= 2 ^ 20).
  { intros x Hx. destruct (Hb x Hx) as (E & H1 & H2). unfold ratio. rewrite E. split; [done|].
    apply to_ratio_range; [done..|]. apply (Hf x Hx). }
  split; [done|by eapply links_kept|done|done| |].
  - intros x Hx. destruct (Hb x Hx) as (-> & _ & H). done.
  - intros x Hx. destruct (Hb x Hx) as (E & _ & _), (Hrat x Hx) as [Ex _], (Hf x Hx) as [F1 F2 F3 _].
    destruct (links_children s T x Hl Hx) as [Hlen Hch].
    split; [by rewrite E|by rewrite Ex, Hg|]. rewrite Ex. destruct (Hk x) as [-> _].
    rewrite children_ratio_sum in F3; [|intros c Hc%Hch; by apply Hrat|lia].
    erewrite sumZ_ext; [exact F3|]. intros c Hc%Hch. by apply Hrat.
Qed.

Lemma bandwidth_set_tree T s s' g p r :
  rt_tree T s -> 0 <= p < 2 ^ 64 -> 0 <= r < 2 ^ 64 -> rt_bandwidth_set g p r s s' ->
  (forall x, x ∈ ids T -> rt_fits s (mk_rt_schedulable_data (Some g) p r) x) -> rt_tree T s'.
Proof.
  intros [H1 H2 H3 H4 H5 H6] Hp Hr (Ho & E1 & E2 & _) Hf. eapply fits_admitted; [done..|apply Ho| | |exact Hf].
  - unfold global_ratio. assert (E : kernel s' = kernel s) by (rewrite <- (ro_rest _ _ _ Ho); done). by rewrite E.
  - intros x Hx. unfold rt_setting, group_bw. cbn [d_tg d_rt_period d_rt_runtime]. case_bool_decide as Hxg.
    + injection Hxg as ->. rewrite E1, E2. simpl. split; [done|lia].
    + rewrite (ro_others _ _ _ Ho) by (intros ->; done). split; [done|]. split; [apply rt_period_ns_range|by apply H5].
Qed.

Lemma rt_only_rest g s s' : rt_only g s s' -> task_groups s' = task_groups s /\ kernel s' = kernel s.
Proof. intros [_ _ _ _ _ <-]. done. Qed.

(** A state like [s], with the same tree. *)
Definition tree_step T s s' : Prop := rt_tree T s' /\ task_groups s' = task_groups s /\ kernel s' = kernel s.

Lemma set_rt_bandwidth_tree T n g p r s z s' :
  rt_tree T s -> 0 <= p < 2 ^ 64 -> 0 <= r < 2 ^ 64 -> tg_set_rt_bandwidth n g p r s = Done (z, s') -> tree_step T s s'.
Proof.
  intros Ht Hp Hr He. apply (set_rt_bandwidth_run n g p r s T) in He; [|by destruct Ht..|done].
  destruct He as [[_ ->]|(_ & _ & _ & Hb & Hf)]; [done|].
  split; [exact (bandwidth_set_tree T s s' g p r Ht Hp Hr Hb Hf)|]. apply (rt_only_rest g), Hb.
Qed.

Lemma set_rt_runtime_tree T n g us s z s' :
  rt_tree T s -> sched_group_set_rt_runtime n g us s = Done (z, s') -> tree_step T s s'.
Proof.
  intros Ht. unfold sched_group_set_rt_runtime, get_group. rewrite bind_gets.
  destruct (us <? 0); [|destruct (_ <? _); [by intros [= _ <-]|]].
  - apply set_rt_bandwidth_tree; [done|apply rt_period_ns_range|done].
  - apply set_rt_bandwidth_tree; [done|apply rt_period_ns_range|apply u64_range].
Qed.

Lemma set_rt_period_tree T n g us s z s' :
  rt_tree T s -> 0 <= us -> g ∈ ids T -> sched_group_set_rt_period n g us s = Done (z, s') -> tree_step T s s'.
Proof.
  intros Ht Hus Hg. unfold sched_group_set_rt_period, get_group. destruct (_ <? us); [by intros [= _ <-]|].
  rewrite bind_gets. apply set_rt_bandwidth_tree; [done|apply u64_range|by apply (rg_range _ _ Ht g)].
Qed.
End RtGroups.
