(* ===== verification/GroupSteps.v ===== *)
(** * Task groups: the bandwidth that is admitted

    Creating and removing groups and writing their bandwidth, or the global
    one, as the steps of a system; over all of them the admitted bandwidth
    stays within the limits. *)

From S2P Require Import Prelude Sched Ts RtBandwidth Rt SchedClass TaskGroups GroupProps.

Implicit Types (s : gstate) (T : rose) (g p x : tg).

Lemma bind_modify {St B} f (k : unit -> M St B) (s : St) : bind (modify f) k s = k tt (f s).
Proof. done. Qed.

(** ** Trees with a group more or less *)

Definition new_leaf (p g x : tg) : list rose := if decide (x = p) then [Node g []] else [].

(** [g] as the first child of [p]. *)
Fixpoint graft p g T : rose :=
  match T with Node x l => Node x (new_leaf p g x ++ (graft p g <$> l)) end.

Lemma root_graft p g T : root (graft p g T) = root T.
Proof. by destruct T. Qed.

Lemma roots_graft p g (l : list rose) : root <$> (graft p g <$> l) = root <$> l.
Proof. rewrite <- list_fmap_compose. apply list_fmap_ext. intros i c _. apply root_graft. Qed.

Lemma fmap_self {A} (f : A -> A) (l : list A) : Forall (fun a : A => f a = a) l -> f <$> l = l.
Proof. induction 1 as [|a l Hx _ IH]; [done|]. cbn [fmap list_fmap]. by rewrite Hx, IH. Qed.

Lemma graft_absent p g T : p ∉ ids T -> graft p g T = T.
Proof.
  induction T as [x l IH] using rose_ind'. rewrite ids_node, not_elem_of_cons. intros [Hx Hl]. cbn [graft].
  unfold new_leaf. rewrite decide_False by congruence. f_equal. apply fmap_self.
  rewrite Forall_forall in *. intros c Hc. apply IH; [done|]. intros Hp. apply Hl, elem_of_all_ids. by exists c.
Qed.

Lemma graft_all_absent p g l : p ∉ all_ids l -> graft p g <$> l = l.
Proof.
  intros Hp. apply fmap_self, Forall_forall. intros c Hc. apply graft_absent. intros H. apply Hp, elem_of_all_ids.
  by exists c.
Qed.

Lemma ids_graft p g T : NoDup (ids T) -> p ∈ ids T -> ids (graft p g T) ≡ₚ g :: ids T.
Proof.
  induction T as [x l IH] using rose_ind'. cbn [graft]. rewrite !ids_node, all_ids_app. unfold new_leaf.
  intros [Hx Hl]%NoDup_cons Hp. destruct (decide (x = p)) as [->|Hxp].
  - rewrite graft_all_absent by done.
    change (all_ids [Node g []]) with [g]. cbn [app]. apply Permutation_swap.
  - apply elem_of_cons in Hp as [->|Hp]; [done|]. cbn [app]. rewrite (Permutation_swap x g). apply Permutation_skip.
    clear Hx Hxp. induction IH as [|c l Hc _ IHl]; [by apply elem_of_nil in Hp|].
    change (all_ids (graft p g <$> c :: l)) with (ids (graft p g c) ++ all_ids (graft p g <$> l)).
    rewrite all_ids_cons in *. apply NoDup_app in Hl as (Hn1 & Hdis & Hn2).
    destruct (decide (p ∈ ids c)) as [Hpc|Hpc].
    + rewrite Hc by done. rewrite graft_all_absent; [done|]. by apply Hdis.
    + rewrite graft_absent by done. apply elem_of_app in Hp as [Hp|Hp]; [done|].
      rewrite IHl by done. by rewrite Permutation_middle.
Qed.

Lemma links_graft p g s s' T :
  links s T -> g ∉ ids T ->
  (forall x, x ∈ ids T -> parent (group s' x) = parent (group s x)) ->
  (forall x, x ∈ ids T -> children (group s' x) = (if decide (x = p) then [g] else []) ++ children (group s x)) ->
  parent (group s' g) = Some p -> children (group s' g) = [] ->
  links s' (graft p g T).
Proof.
  intros Hl Hg Hpar Hch Hp Hc. induction T as [x l IH] using rose_ind'. cbn [graft].
  apply links_node in Hl as [Hx Hl]. apply links_node.
  rewrite Hch, Hx, fmap_app, roots_graft by exact (root_ids (Node x l)).
  split; [unfold new_leaf; by case_decide|]. apply Forall_app. split.
  - unfold new_leaf. case_decide; [|done]. apply Forall_singleton. cbn [root]. subst x. split; [done|].
    by apply links_node.
  - apply Forall_fmap, Forall_forall. intros c Hin. cbn. rewrite Forall_forall in IH, Hl.
    destruct (Hl c Hin) as [H1 H2]. rewrite root_graft, Hpar; [|by eapply ids_child, root_ids].
    split; [done|]. apply (IH c Hin); [done| | |].
    + intros H. apply Hg. by eapply ids_child.
    + intros y Hy. apply Hpar. by eapply ids_child.
    + intros y Hy. apply Hch. by eapply ids_child.
Qed.

(** Without the leaf [g]. *)
Fixpoint prune g T : rose :=
  match T with
  | Node x l => Node x ((fix go l := match l with
      | [] => []
      | c :: l => if decide (root c = g) then go l else prune g c :: go l
      end) l)
  end.

Fixpoint prune_list g (l : list rose) : list rose :=
  match l with
  | [] => []
  | c :: l => if decide (root c = g) then prune_list g l else prune g c :: prune_list g l
  end.

Lemma prune_eq g x l : prune g (Node x l) = Node x (prune_list g l).
Proof. cbn [prune]. f_equal. induction l as [|c l IH]; [done|]. cbn [prune_list]. by rewrite <- IH. Qed.

Lemma root_prune g T : root (prune g T) = root T.
Proof. by destruct T. Qed.

Lemma elem_of_prune_list g c l :
  c ∈ prune_list g l -> exists c', c' ∈ l /\ root c' <> g /\ c = prune g c'.
Proof.
  induction l as [|d l IH]; cbn [prune_list]; [by intros ?%elem_of_nil|].
  case_decide; [intros (c' & ? & ?)%IH; exists c'; split; [by right|done]|].
  intros [->|(c' & ? & ?)%IH]%elem_of_cons; [exists d; split; [by left|done]|].
  exists c'. split; [by right|done].
Qed.

Lemma roots_prune g (l : list rose) : root <$> prune_list g l = filter (fun x => x <> g) (root <$> l).
Proof.
  induction l as [|c l IH]; [done|]. cbn [prune_list fmap list_fmap]. rewrite filter_cons.
  destruct (decide (root c = g)) as [Hc|Hc].
  - rewrite decide_False by tauto. exact IH.
  - rewrite decide_True by done. cbn [fmap list_fmap]. by rewrite root_prune, <- IH.
Qed.

(** A subtree whose root has no children is a leaf. *)
Lemma links_leaf s T : links s T -> children (group s (root T)) = [] -> T = Node (root T) [].
Proof. destruct T as [x [|c l]]; [done|]. intros [E _]%links_node. cbn [root]. by rewrite E. Qed.

Lemma ids_prune g s T :
  links s T -> children (group s g) = [] -> root T <> g -> ids (prune g T) = filter (fun x => x <> g) (ids T).
Proof.
  intros Hl Hg. induction T as [x l IH] using rose_ind'. cbn [root]. intros Hx.
  apply links_node in Hl as [_ Hl]. rewrite prune_eq, !ids_node, filter_cons, decide_True by done. f_equal.
  induction l as [|c l IHl]; [done|]. apply Forall_cons in IH as [IHc IH]. apply Forall_cons in Hl as [[_ Hc] Hl].
  rewrite all_ids_cons, filter_app, <- (IHl IH Hl). cbn [prune_list]. case_decide as Hr.
  - subst g. apply links_leaf in Hc as Ec; [|done]. rewrite Ec. cbn [root]. rewrite ids_node.
    change (all_ids []) with (@nil tg). rewrite filter_cons_False, filter_nil by tauto. done.
  - rewrite all_ids_cons, IHc; done.
Qed.

Lemma links_prune g s s' T :
  links s T -> root T <> g ->
  (forall x, x ∈ ids T -> x <> g -> parent (group s' x) = parent (group s x)) ->
  (forall x, x ∈ ids T -> x <> g -> children (group s' x) = filter (fun y => y <> g) (children (group s x))) ->
  links s' (prune g T).
Proof.
  intros Hl Hr Hpar Hch. induction T as [x l IH] using rose_ind'. rewrite prune_eq.
  apply links_node in Hl as [Hx Hl]. apply links_node. cbn [root] in Hr.
  rewrite Hch, Hx, roots_prune by (done || exact (root_ids (Node x l))). split; [done|].
  apply Forall_forall. intros c (c' & Hin & Hc' & ->)%elem_of_prune_list. rewrite Forall_forall in IH, Hl.
  destruct (Hl c' Hin) as [H1 H2]. rewrite root_prune, Hpar; [|by eapply ids_child, root_ids|done].
  split; [done|]. apply (IH c' Hin); [done..| |].
  - intros y Hy. apply Hpar. by eapply ids_child.
  - intros y Hy. apply Hch. by eapply ids_child.
Qed.

(** Only the parent of a group has it among its children. *)
Lemma links_parent s T x c : links s T -> x ∈ ids T -> c ∈ children (group s x) -> parent (group s c) = Some x.
Proof.
  induction T as [y l IH] using rose_ind'. intros [Hy Hl]%links_node Hx Hc. rewrite Forall_forall in IH, Hl.
  rewrite ids_node in Hx. apply elem_of_cons in Hx as [->|(d & Hd & Hx)%elem_of_all_ids].
  - rewrite Hy in Hc. apply list_elem_of_fmap in Hc as (d & -> & Hd). by apply Hl.
  - apply (IH d Hd); [by apply Hl|done..].
Qed.

(** ** What an operation keeps *)

(** The links and the real-time bandwidth of the groups in [P], and what of
    the scheduler bounds them. *)
Record rt_keeps (P : tg -> Prop) s s' : Prop := {
  rk_groups : forall x, P x -> children (group s' x) = children (group s x) /\
    parent (group s' x) = parent (group s x) /\ rt_bw (group s' x) = rt_bw (group s x);
  rk_list : task_groups s' = task_groups s;
  rk_period : sysctl_sched_rt_period (kernel s') = sysctl_sched_rt_period (kernel s);
  rk_runtime : sysctl_sched_rt_runtime (kernel s') = sysctl_sched_rt_runtime (kernel s)
}.

#[export] Instance rt_keeps_preorder P : PreOrder (rt_keeps P).
Proof.
  split; [by split|]. intros s1 s2 s3 [A1 A2 A3 A4] [B1 B2 B3 B4]. split; [|congruence..].
  intros x Hx. destruct (A1 x Hx) as (<- & <- & <-). by apply B1.
Qed.

Definition all_groups : tg -> Prop := fun _ => True.
Definition but (g : tg) : tg -> Prop := fun x => x <> g.

Lemma keeps_all P s s' : rt_keeps all_groups s s' -> rt_keeps P s s'.
Proof. intros [A1 A2 A3 A4]. split; [|done..]. intros x _. by apply A1. Qed.

Lemma frames_all P {A} (m : G A) : frames (rt_keeps all_groups) m -> frames (rt_keeps P) m.
Proof. intros H s a s' He. apply keeps_all. by eapply H. Qed.

Lemma set_group_all P g f :
  (forall t, children (f t) = children t /\ parent (f t) = parent t /\ rt_bw (f t) = rt_bw t) ->
  frames (rt_keeps P) (set_group g f).
Proof.
  intros Hf. apply frames_modify. intros s. split; [|done..]. intros x _. simpl.
  destruct (decide (g = x)) as [<-|Hne]; [rewrite fn_lookup_alter; apply Hf|by rewrite fn_lookup_alter_ne].
Qed.

Lemma set_group_but g f : frames (rt_keeps (but g)) (set_group g f).
Proof.
  apply frames_modify. intros s. split; [|done..]. intros x Hx. simpl. by rewrite fn_lookup_alter_ne by congruence.
Qed.

#[local] Hint Extern 1 (frames _ (set_group _ _)) =>
  first [apply set_group_but | apply set_group_all; done] : frames.
#[local] Hint Resolve frames_all : frames.

(** What [fair.c] and the allocators leave alone. *)
Class GroupLaws `{FairGroups} : Prop := {
  gl_fresh s g : kmem_cache_alloc s = Some g -> g ∉ task_groups s;
  gl_kzalloc : frames (rt_keeps all_groups) kzalloc_ok;
  gl_alloc g p : frames (rt_keeps all_groups) (alloc_fair_sched_group g p);
  gl_online g : frames (rt_keeps all_groups) (online_fair_sched_group g);
  gl_unregister g : frames (rt_keeps all_groups) (unregister_fair_sched_group g);
  gl_free g : frames (rt_keeps (but g)) (free_fair_sched_group g);
  gl_autogroup g : frames (rt_keeps (but g)) (autogroup_free g);
  gl_cache_free g : frames (rt_keeps (but g)) (kmem_cache_free g)
}.

(** ** Creating and removing a group *)

Section Groups.
Context `{Hlaws : GroupLaws}.
#[local] Hint Resolve gl_free gl_autogroup gl_cache_free : frames.
#[local] Hint Extern 1 (frames (rt_keeps _) _) =>
  apply frames_all; first [apply gl_kzalloc | apply gl_alloc | apply gl_online | apply gl_unregister] : frames.

Ltac keeps_tac := repeat frames_step ltac:(done).

Lemma free_group_keeps g : frames (rt_keeps (but g)) (sched_free_group g).
Proof. keeps_tac. Qed.

Lemma alloc_rt_rqs_keeps g l : frames (rt_keeps all_groups) (alloc_rt_rqs g l).
Proof. induction l as [|i l IH]; cbn [alloc_rt_rqs]; keeps_tac. Qed.
#[local] Hint Resolve free_group_keeps alloc_rt_rqs_keeps : frames.

Lemma alloc_rt_keeps g p : frames (rt_keeps (but g)) (alloc_rt_sched_group g p).
Proof. keeps_tac. Qed.

Lemma alloc_rt_spec g p s b s' :
  alloc_rt_sched_group g p s = Done (b, s') ->
  rt_keeps (but g) s s' /\ (b = true -> rt_bw_runtime (rt_bw (group s' g)) = 0).
Proof.
  intros He. split; [by eapply alloc_rt_keeps|].
  unfold alloc_rt_sched_group in He.
  apply bind_inv in He as (ok1 & s1 & _ & He). destruct ok1; cbn [negb] in He; [|by apply ret_inv in He as [-> _]].
  apply bind_inv in He as (ok2 & s2 & _ & He). destruct ok2; cbn [negb] in He; [|by apply ret_inv in He as [-> _]].
  rewrite bind_gets in He. apply bind_inv in He as ([] & s3 & H3 & He). injection H3 as <-.
  apply alloc_rt_rqs_keeps in He as [Hg _ _ _]. destruct (Hg g I) as (_ & _ & ->). simpl. by rewrite fn_lookup_alter.
Qed.

Lemma create_group_spec p s o s' :
  sched_create_group p s = Done (o, s') ->
  (s' = s /\ o = inl (- ENOMEM)) \/
  exists g, kmem_cache_alloc s = Some g /\ rt_keeps (but g) s s' /\
    (o = inl (- ENOMEM) \/ o = inr g /\ rt_bw_runtime (rt_bw (group s' g)) = 0).
Proof.
  intros He. unfold sched_create_group in He. rewrite bind_gets in He.
  destruct (kmem_cache_alloc s) as [g|]; [|apply ret_inv in He as [-> ->]; by left].
  right. exists g. split; [done|].
  apply bind_inv in He as ([] & s1 & H1 & He). apply set_group_but in H1.
  apply bind_inv in He as (fair & s2 & H2 & He). apply gl_alloc, (keeps_all (but g)) in H2.
  apply bind_inv in He as (ok & s3 & H3 & He).
  assert (H4 : rt_keeps (but g) s2 s3 /\ (ok = true -> rt_bw_runtime (rt_bw (group s3 g)) = 0)).
  { destruct fair; [by apply alloc_rt_spec in H3|]. by apply ret_inv in H3 as [-> ->]. }
  destruct H4 as [H4 Hr]. assert (H5 : rt_keeps (but g) s s3) by (etrans; [exact H1|]; by etrans).
  destruct ok; [apply ret_inv in He as [-> ->]; split; [done|]; right; by split; [|apply Hr]|].
  apply bind_inv in He as ([] & s4 & H6 & He). apply ret_inv in He as [-> ->]. apply free_group_keeps in H6.
  split; [by etrans|by left].
Qed.

Lemma ratio_same s s' x : rt_bw (group s' x) = rt_bw (group s x) ->
  group_bw s' x = group_bw s x /\ ratio s' x = ratio s x.
Proof. intros E. unfold ratio, group_bw, rt_period_ns. by rewrite E. Qed.

Lemma ratio_0 s x : rt_bw_runtime (rt_bw (group s x)) = 0 -> (group_bw s x).2 = 0 /\ ratio s x = 0.
Proof.
  intros E. unfold ratio, ratio_of, group_bw. rewrite E. split; [done|]. unfold to_ratio. cbn [fst snd].
  change (0 =? RUNTIME_INF) with false. cbn iota. destruct (Z.eqb_spec (rt_period_ns (group s x)) 0); [done|].
  by apply Zdiv_0_l.
Qed.

Lemma to_ratio_nonneg a b : 0 <= a -> 0 <= to_ratio a b.
Proof.
  intros Ha. unfold to_ratio. destruct (b =? RUNTIME_INF); [done|]. destruct (Z.eqb_spec a 0); [done|].
  apply Z.div_pos; [apply u64_range|lia].
Qed.

Lemma ratio_nonneg s x : 0 <= ratio s x.
Proof. apply to_ratio_nonneg, u64_range. Qed.

Lemma global_ratio_same s s' :
  sysctl_sched_rt_period (kernel s') = sysctl_sched_rt_period (kernel s) ->
  sysctl_sched_rt_runtime (kernel s') = sysctl_sched_rt_runtime (kernel s) -> global_ratio s' = global_ratio s.
Proof. intros E1 E2. unfold global_ratio, global_rt_period, global_rt_runtime. by rewrite E1, E2. Qed.

(** A group without runtime and without children. *)
Lemma admitted_idle s x : rt_bw_runtime (rt_bw (group s x)) = 0 -> children (group s x) = [] -> rt_admitted s x.
Proof.
  intros Hr Hc. destruct (ratio_0 s x Hr) as [E1 E2]. split; rewrite ?E1, ?E2, ?Hc.
  - left. apply u64_range.
  - apply to_ratio_nonneg, u64_range.
  - done.
Qed.

(** The groups of the tree are those of the list, and their bandwidth is
    admitted. *)
Definition groups_ok s : Prop := exists T,
  rt_tree T s /\ task_groups s ≡ₚ ids T /\ 0 <= sysctl_sched_rt_period (kernel s) < 2 ^ 32.

Lemma online_group_ok g p s z s' :
  groups_ok s -> g ∉ task_groups s -> p ∈ task_groups s -> Z.of_nat (length (task_groups s)) < 2 ^ 40 ->
  rt_bw_runtime (rt_bw (group s g)) = 0 ->
  cpu_cgroup_css_online g (Some p) s = Done (z, s') -> groups_ok s'.
Proof.
  intros (T & [Hroot Hl Hnd Hsz Hr Hok] & Hperm & Hper) Hg Hp Hlen Hbw He. unfold cpu_cgroup_css_online in He.
  cbn [css_tg] in He. apply bind_inv in He as ([] & s1 & H1 & He). apply ret_inv in He as [_ ->].
  unfold sched_online_group, set_group in H1. rewrite !bind_modify in H1. apply gl_online in H1 as [Kg Kl Kp Kr].
  rewrite Hperm in Hg, Hp.
  assert (Hgp : g <> p) by congruence.
  assert (Eo : forall x, x <> g -> parent (group s1 x) = parent (group s x) /\ rt_bw (group s1 x) = rt_bw (group s x) /\
    children (group s1 x) = (if decide (x = p) then [g] else []) ++ children (group s x)).
  { intros x Hx. destruct (Kg x I) as (-> & -> & ->). simpl. destruct (decide (x = p)) as [->|Hxp].
    - rewrite !fn_lookup_alter, !fn_lookup_alter_ne by congruence. done.
    - rewrite !fn_lookup_alter_ne by congruence. done. }
  assert (Eg : parent (group s1 g) = Some p /\ rt_bw (group s1 g) = rt_bw (group s g) /\ children (group s1 g) = []).
  { destruct (Kg g I) as (-> & -> & ->). simpl.
    rewrite (fn_lookup_alter_ne _ _ p g), !fn_lookup_alter by congruence. done. }
  assert (Hb : forall x, x ∈ ids T -> group_bw s1 x = group_bw s x /\ ratio s1 x = ratio s x).
  { intros x Hx. apply ratio_same, Eo. by intros ->. }
  assert (H0 : rt_bw_runtime (rt_bw (group s1 g)) = 0) by (destruct Eg as (_ & -> & _); done).
  assert (Hids : ids (graft p g T) ≡ₚ g :: ids T) by by apply ids_graft.
  exists (graft p g T). split; [split|split].
  - by rewrite root_graft.
  - apply links_graft with s; [done|done| | |apply Eg..]; intros x Hx; apply Eo; by intros ->.
  - rewrite Hids. by apply NoDup_cons.
  - rewrite Hids. cbn [length]. rewrite <- Hperm. lia.
  - intros x. rewrite Hids. intros [->|Hx]%elem_of_cons; [by rewrite (proj1 (ratio_0 _ _ H0))|].
    rewrite (proj1 (Hb x Hx)). by apply Hr.
  - intros x. rewrite Hids. intros [->|Hx]%elem_of_cons; [by apply admitted_idle; [|apply Eg]|].
    destruct (Hok x Hx) as [A1 A2 A3], (Hb x Hx) as [B1 B2]. split; rewrite ?B1, ?B2; [done| |].
    + by rewrite (global_ratio_same s s1).
    + destruct (Eo x ltac:(by intros ->)) as (_ & _ & ->). etrans; [|exact A3]. rewrite sumZ_app.
      rewrite (sumZ_ext (ratio s1) (ratio s) (children (group s x))).
      * case_decide; [rewrite sumZ_cons, (proj2 (ratio_0 s1 g H0))|]; cbn; lia.
      * intros c Hc. apply Hb. by eapply links_children.
  - rewrite Kl, Hids. simpl. by rewrite Hperm.
  - by rewrite Kp.
Qed.

Lemma sumZ_filter f (P : tg -> Prop) `{forall x, Decision (P x)} l :
  (forall x, x ∈ l -> 0 <= f x) -> sumZ f (filter P l) <= sumZ f l.
Proof.
  induction l as [|x l IH]; intros Hf; [done|]. rewrite filter_cons.
  assert (IH' := IH ltac:(intros; apply Hf; by right)). assert (Hx := Hf x ltac:(by left)).
  case_decide; rewrite !sumZ_cons; lia.
Qed.

Lemma filter_absent g (l : list tg) : g ∉ l -> filter (fun x => x <> g) l = l.
Proof.
  induction l as [|x l IH]; [done|]. rewrite not_elem_of_cons. intros [Hx Hl].
  by rewrite filter_cons_True, IH by congruence.
Qed.

Lemma offline_group_ok g s s' :
  groups_ok s -> g <> root_task_group -> children (group s g) = [] ->
  sched_offline_group g s = Done (tt, s') -> groups_ok s'.
Proof.
  intros (T & [Hroot Hl Hnd Hsz Hr Hok] & Hperm & Hper) Hg Hc He. unfold sched_offline_group in He.
  apply bind_inv in He as ([] & s1 & H1 & He). apply gl_unregister in H1 as [Kg Kl Kp Kr].
  rewrite bind_modify in He. unfold get_group in He. rewrite bind_gets in He.
  change (group (s1 <| task_groups ::= unlink_group g |>)) with (group s1) in He.
  destruct (parent (group s1 g)) as [p|] eqn:Ep; [|done]. injection He as He.
  set (s2 := s1 <| task_groups ::= unlink_group g |> <| group ::= alter (fun t => t <| children ::= unlink_group g |>) p |>).
  assert (s2 = s') as <- by exact He. clear He.
  assert (Eb : forall x, rt_bw (group s2 x) = rt_bw (group s x)).
  { intros x. destruct (Kg x I) as (_ & _ & <-). simpl.
    destruct (decide (p = x)) as [<-|Hx]; [by rewrite fn_lookup_alter|by rewrite fn_lookup_alter_ne]. }
  assert (Ech : forall x, x ∈ ids T -> parent (group s2 x) = parent (group s x) /\
    children (group s2 x) = filter (fun y => y <> g) (children (group s x))).
  { intros x Hx. destruct (Kg x I) as (<- & <- & _). simpl.
    destruct (decide (p = x)) as [<-|Hpx]; [by rewrite fn_lookup_alter|]. rewrite fn_lookup_alter_ne by done.
    split; [done|]. symmetry. apply filter_absent. intros Hgx. apply Hpx.
    destruct (Kg x I) as (Ec & _). rewrite Ec in Hgx. apply (links_parent s T) in Hgx; [|done..].
    destruct (Kg g I) as (_ & Eg & _). congruence. }
  assert (Hids : ids (prune g T) = filter (fun x => x <> g) (ids T)) by (apply ids_prune with s; congruence).
  assert (Hb : forall x, group_bw s2 x = group_bw s x /\ ratio s2 x = ratio s x) by (intros x; by apply ratio_same).
  exists (prune g T). split; [split|split].
  - by rewrite root_prune.
  - apply links_prune with s; [done|congruence|intros; by apply Ech..].
  - rewrite Hids. by apply NoDup_filter.
  - rewrite Hids. pose proof (length_filter (fun x => x <> g) (ids T)). lia.
  - intros x. rewrite Hids. intros [_ Hx]%list_elem_of_filter. rewrite (proj1 (Hb x)). by apply Hr.
  - intros x. rewrite Hids. intros [_ Hx]%list_elem_of_filter.
    destruct (Hok x Hx) as [A1 A2 A3], (Hb x) as [B1 B2]. split; rewrite ?B1, ?B2; [done| |].
    + by rewrite (global_ratio_same s s2).
    + destruct (Ech x Hx) as [_ ->]. etrans; [|exact A3]. etrans; [apply sumZ_filter; intros; apply ratio_nonneg|].
      rewrite (sumZ_ext (ratio s2) (ratio s)); [done|]. intros c _. apply Hb.
  - rewrite Hids. change (task_groups s2) with (unlink_group g (task_groups s1)). unfold unlink_group.
    by rewrite Kl, Hperm.
  - change (0 <= sysctl_sched_rt_period (kernel s1) < 2 ^ 32). by rewrite Kp.
Qed.

(** Whatever keeps the groups that are linked. *)
Lemma keeps_ok P s s' : (forall x, x ∈ task_groups s -> P x) -> rt_keeps P s s' -> groups_ok s -> groups_ok s'.
Proof.
  intros HP [Kg Kl Kp Kr] (T & [Hroot Hl Hnd Hsz Hr Hok] & Hperm & Hper).
  assert (HT : forall x, x ∈ ids T -> P x) by (intros x Hx; apply HP; by rewrite Hperm).
  assert (Hb : forall x, x ∈ ids T -> group_bw s' x = group_bw s x /\ ratio s' x = ratio s x).
  { intros x Hx. by apply ratio_same, Kg, HT. }
  exists T. split; [split|split]; [done| |done|done| | |by rewrite Kl|by rewrite Kp].
  - assert (Hk : forall x, x ∈ ids T -> children (group s' x) = children (group s x) /\ parent (group s' x) = parent (group s x))
      by (intros x Hx%HT; by destruct (Kg x Hx) as (? & ? & _)).
    clear -Hl Hk. induction T as [x l IH] using rose_ind'. rewrite links_node in *. destruct Hl as [Hx Hl].
    destruct (Hk x (root_ids (Node x l))) as [-> _]. split; [done|]. rewrite Forall_forall in *. intros c Hin.
    destruct (Hl c Hin) as [H1 H2]. destruct (Hk (root c)) as [_ ->]; [by eapply ids_child, root_ids|].
    split; [done|]. apply IH; [done..|]. intros y Hy. apply Hk. by eapply ids_child.
  - intros x Hx. rewrite (proj1 (Hb x Hx)). by apply Hr.
  - intros x Hx. destruct (Hok x Hx) as [A1 A2 A3], (Hb x Hx) as [B1 B2]. split; rewrite ?B1, ?B2; [done| |].
    + by rewrite (global_ratio_same s s').
    + destruct (Kg x (HT x Hx)) as (-> & _). rewrite (sumZ_ext (ratio s') (ratio s)); [done|].
      intros c Hc. apply Hb. by eapply links_children.
Qed.

(** ** The global bandwidth *)

(** The functions that [sched_rt_handler] calls: [proc_dointvec] writes the
    two sysctls if it returns 0 for a write, and nothing otherwise; the
    deadline class leaves them alone. *)
Record handler_laws (dl_validate : K Z) (dl_do_global : K unit) (write : bool) (proc : K Z) : Prop := {
  hl_validate k a k' : dl_validate k = Done (a, k') -> k' = k;
  hl_do_global k k' : dl_do_global k = Done (tt, k') ->
    sysctl_sched_rt_period k' = sysctl_sched_rt_period k /\ sysctl_sched_rt_runtime k' = sysctl_sched_rt_runtime k;
  hl_proc k a k' : proc k = Done (a, k') ->
    if (a =? 0) && write then exists p r, 0 <= p < 2 ^ 32 /\
      k' = k <| sysctl_sched_rt_period := p |> <| sysctl_sched_rt_runtime := r |>
    else k' = k
}.

Lemma kern_inv {A} (m : K A) s a s' : kern m s = Done (a, s') ->
  exists k, m (kernel s) = Done (a, k) /\ s' = s <| kernel := k |>.
Proof. unfold kern. destruct (m (kernel s)) as [[b k]|]; [|done]. intros [= -> <-]. by exists k. Qed.

Lemma kernel_again s k1 k2 : s <| kernel := k1 |> <| kernel := k2 |> = s <| kernel := k2 |>.
Proof. done. Qed.

Lemma kernel_self s : s <| kernel := kernel s |> = s.
Proof. by destruct s. Qed.

Lemma global_validate_same k a k' : sched_rt_global_validate k = Done (a, k') -> k' = k.
Proof.
  unfold sched_rt_global_validate. rewrite bind_gets. intros He.
  destruct (_ <=? 0); [|destruct (_ && _)]; by apply ret_inv in He as [_ ->].
Qed.

(** What [goto undo] does. *)
Lemma undo_run s k p r :
  0 <= sysctl_sched_rt_period (kernel s) < 2 ^ 32 ->
  k = kernel s <| sysctl_sched_rt_period := p |> <| sysctl_sched_rt_runtime := r |> ->
  kern (do! modify (fun k => k <| sysctl_sched_rt_period := u32 (s32 (sysctl_sched_rt_period (kernel s))) |>) in
        modify (fun k => k <| sysctl_sched_rt_runtime := sysctl_sched_rt_runtime (kernel s) |>)) (s <| kernel := k |>)
  = Done (tt, s).
Proof. intros Hp ->. rewrite u32_s32 by done. destruct s as [? ? [] ? ? ? ?]. done. Qed.

(** How the handler ends: as if nothing had been written, or with values
    that were checked in a state [s2] in which they were in force. *)
Lemma handler_run fuel dlv dlg write proc s z s' T :
  handler_laws dlv dlg write proc -> links s T -> NoDup (ids T) -> root T = root_task_group ->
  0 <= sysctl_sched_rt_period (kernel s) < 2 ^ 32 ->
  sched_rt_handler fuel dlv dlg write proc s = Done (z, s') ->
  s' = s \/
  z = 0 /\ 0 <= sysctl_sched_rt_period (kernel s') < 2 ^ 32 /\ exists k2,
    (exists k', s' = s <| kernel := k' |> /\ sysctl_sched_rt_period k' = sysctl_sched_rt_period k2 /\
      sysctl_sched_rt_runtime k' = sysctl_sched_rt_runtime k2) /\
    forall x, x ∈ ids T -> rt_fits (s <| kernel := k2 |>) (mk_rt_schedulable_data None 0 0) x.
Proof.
  intros [Hv Hd Hpr] Hl Hn Hr Hper He. unfold sched_rt_handler in He. rewrite bind_gets in He.
  apply bind_inv in He as (a & s1 & (k1 & Hk1 & ->)%kern_inv & He). apply Hpr in Hk1.
  destruct ((a =? 0) && write); cbn [negb] in He.
  2: { apply ret_inv in He as [_ ->]. rewrite Hk1, kernel_self. by left. }
  destruct Hk1 as (p & r & Hp & Ek1).
  apply bind_inv in He as (b & s2 & (k2 & ->%global_validate_same & ->)%kern_inv & He). rewrite kernel_self in He.
  destruct (b =? 0); cbn [negb] in He; [|rewrite bind_eq, (undo_run s k1 p r) in He by done; injection He as _ <-; by left].
  apply bind_inv in He as (c & s3 & (k3 & ->%Hv & ->)%kern_inv & He). rewrite kernel_self in He.
  destruct (c =? 0); cbn [negb] in He; [|rewrite bind_eq, (undo_run s k1 p r) in He by done; injection He as _ <-; by left].
  apply bind_inv in He as (d & s4 & H4 & He). unfold sched_rt_global_constraints in H4.
  apply (rt_schedulable_result _ _ _ _ _ T) in H4 as [-> Ed]; [|by apply links_kept with s|done..].
  destruct (Z.eqb_spec d 0) as [->|]; cbn [negb] in He;
    [|rewrite bind_eq, (undo_run s k1 p r) in He by done; injection He as _ <-; by left].
  right. symmetry in Ed. apply first_error_0 in Ed. rewrite Forall_forall in Ed.
  apply bind_inv in He as ([] & s5 & (k5 & H5 & ->)%kern_inv & He). injection H5 as <-.
  apply bind_inv in He as ([] & s6 & (k6 & H6 & ->)%kern_inv & He). apply ret_inv in He as [-> ->].
  destruct (Hd _ _ H6) as [E1 E2]. split; [done|]. rewrite !kernel_again. split; [|exists k1; split].
  - change (0 <= sysctl_sched_rt_period k6 < 2 ^ 32). rewrite E1, Ek1. done.
  - exists k6. split; [done|]. by rewrite E1, E2.
  - intros x Hx. by apply rt_check_0, Ed.
Qed.

Lemma handler_ok fuel dlv dlg write proc s z s' :
  handler_laws dlv dlg write proc -> groups_ok s ->
  sched_rt_handler fuel dlv dlg write proc s = Done (z, s') -> groups_ok s'.
Proof.
  intros Hlaw (T & Ht & Hperm & Hper) He. pose proof Ht as [Hroot Hl Hnd Hsz Hr Hok].
  apply (handler_run _ _ _ _ _ _ _ _ T) in He; [|done..].
  destruct He as [->|(_ & Hper' & k2 & (k' & -> & E1 & E2) & Hf)].
  { by exists T. }
  exists T. split; [|done]. apply (fits_admitted T (s <| kernel := k2 |>)) with (mk_rt_schedulable_data None 0 0);
    [done|by apply links_kept with s|done|done|done| | |done].
  - by apply global_ratio_same.
  - intros x Hx. unfold rt_setting. cbn [d_tg]. rewrite bool_decide_false by done.
    split; [done|]. split; [apply rt_period_ns_range|by apply Hr].
Qed.

(** ** The steps *)

Inductive group_step (n : nat) : gstate -> gstate -> Prop :=
| step_runtime g us s z s' :
    g ∈ task_groups s -> cpu_rt_runtime_write n g us s = Done (z, s') -> group_step n s s'
| step_period g us s z s' :
    g ∈ task_groups s -> 0 <= us -> cpu_rt_period_write_uint n g us s = Done (z, s') -> group_step n s s'
| step_handler dlv dlg write proc s z s' :
    handler_laws dlv dlg write proc -> sched_rt_handler n dlv dlg write proc s = Done (z, s') -> group_step n s s'
| step_mkdir_fails p s e s' :
    cpu_cgroup_css_alloc (Some p) s = Done (inl e, s') -> group_step n s s'
| step_mkdir p g s s1 z s' :
    p ∈ task_groups s -> Z.of_nat (length (task_groups s)) < 2 ^ 40 ->
    cpu_cgroup_css_alloc (Some p) s = Done (inr g, s1) ->
    cpu_cgroup_css_online g (Some p) s1 = Done (z, s') -> group_step n s s'
| step_released g s s' :
    g ∈ task_groups s -> g <> root_task_group -> children (group s g) = [] ->
    cpu_cgroup_css_released g s = Done (tt, s') -> group_step n s s'
| step_free g s s' :
    g ∉ task_groups s -> cpu_cgroup_css_free g s = Done (tt, s') -> group_step n s s'.

Lemma css_alloc_spec p s o s' : cpu_cgroup_css_alloc (Some p) s = Done (o, s') -> groups_ok s ->
  groups_ok s' /\ task_groups s' = task_groups s /\
  forall g, o = inr g -> g ∉ task_groups s /\ rt_bw_runtime (rt_bw (group s' g)) = 0.
Proof.
  unfold cpu_cgroup_css_alloc. cbn [css_tg]. intros (o' & s1 & H1 & He)%bind_inv Hok.
  assert (E : s' = s1 /\ (o' = o \/ exists e, o = inl e)).
  { destruct o'; apply ret_inv in He as [-> ->]; split; [done|by right; eexists|done|by left]. }
  destruct E as [-> Eo]. apply create_group_spec in H1 as [[-> ->]|(g & Hg & Hk & Ho)].
  - split; [done|]. split; [done|]. intros g ->. by destruct Eo as [|[]].
  - apply gl_fresh in Hg. split; [|split].
    + apply keeps_ok with (but g) s; [|done..]. intros x Hx ->. done.
    + apply Hk.
    + intros g' ->. destruct Eo as [->|[]]; [|done]. destruct Ho as [|[[= ->] Ho]]; done.
Qed.

Lemma in_tree T s g : task_groups s ≡ₚ ids T -> g ∈ task_groups s -> g ∈ ids T.
Proof. by intros ->. Qed.

Lemma group_step_ok n s s' : groups_ok s -> group_step n s s' -> groups_ok s'.
Proof.
  intros Hok Hst. pose proof Hok as (T & Ht & Hperm & Hper). destruct Hst as
    [g us s z s' Hg He|g us s z s' Hg Hus He|dlv dlg write proc s z s' Hl He|p s e s' He|p g s s1 z s' Hp Hsz He Hon
    |g s s' Hg Hr Hc He|g s s' Hg He].
  - destruct (set_rt_runtime_tree T _ _ _ _ _ _ Ht He) as (Ht' & E1 & E2). exists T. by rewrite E1, E2.
  - destruct (set_rt_period_tree T _ _ _ _ _ _ Ht Hus (in_tree _ _ _ Hperm Hg) He) as (Ht' & E1 & E2). exists T. by rewrite E1, E2.
  - by eapply handler_ok.
  - by eapply css_alloc_spec.
  - destruct (css_alloc_spec _ _ _ _ He Hok) as (Hok' & E & Hg). destruct (Hg g eq_refl) as [Hg1 Hg2].
    rewrite <- E in Hg1, Hp, Hsz. by eapply online_group_ok.
  - by eapply offline_group_ok.
  - apply keeps_ok with (but g) s; [by intros x Hx ->|by eapply free_group_keeps|done].
Qed.

(** C7: Over every sequence of writes of groups' runtimes and periods and of
    the global sysctls, of groups being made and of empty ones being
    released and freed, the admission control holds: in every group the
    runtime is at most the period or unlimited, its ratio is at most the
    global one, and the ratios of its children add up to at most its own. *)
Theorem rt_groups_admitted n s s' :
  groups_ok s -> rtc (group_step n) s s' ->
  groups_ok s' /\ forall g, g ∈ task_groups s' -> rt_admitted s' g.
Proof.
  intros Hok Hr. assert (Hok' : groups_ok s') by (induction Hr; [done|]; eauto using group_step_ok).
  split; [done|]. destruct Hok' as (T & Ht & Hperm & _). intros g Hg. apply Ht. by eapply in_tree.
Qed.
End Groups.

(** ** Single writes *)

Section Writes.
Implicit Types (d : rt_schedulable_data).

Lemma set_rt_bandwidth_result k T g p r s :
  links s T -> NoDup (ids T) -> root T = root_task_group -> p <> 0 -> (g = root_task_group -> r <> 0) ->
  let z := first_error (rt_check s (mk_rt_schedulable_data (Some g) p r)) (ids T) in
  exists s', tg_set_rt_bandwidth (walk_cost T + k) g p r s = Done (z, s') /\ (z <> 0 -> s' = s).
Proof.
  intros Hl Hn Hr Hp Hg. unfold tg_set_rt_bandwidth.
  assert (E : bool_decide (g = root_task_group) && (r =? 0) = false).
  { case_bool_decide as Hd; [|done]. cbn [andb]. by apply Z.eqb_neq, Hg. }
  rewrite E. destruct (Z.eqb_spec p 0); [done|]. rewrite bind_eq, rt_schedulable_run by done.
  set (z := first_error _ _). destruct (Z.eqb_spec z 0) as [->|Hz]; cbn [negb]; [|by exists s].
  unfold set_group at 1 2. rewrite !bind_modify, bind_gets.
  set (s0 := s <| group ::= _ |> <| group ::= _ |>).
  destruct (proj1 (wp_done _ _ _) (set_runtimes_run g r (possible_cpus (kernel s0)) s0)) as ([] & s1 & E1 & _).
  exists s1. by rewrite bind_eq, E1.
Qed.

(** C22: [tg_set_rt_bandwidth] returns, and 0 exactly if the period is not 0,
    the root group would not lose its runtime, and with the new setting every
    group of the tree passes the check; then the period, the runtime and the
    runtime on every CPU of that group are the new ones, and nothing else has
    changed.  An error changes nothing at all. *)
Theorem set_rt_bandwidth_spec k T g p r s :
  links s T -> NoDup (ids T) -> root T = root_task_group -> 0 <= p < 2 ^ 64 ->
  exists z s', tg_set_rt_bandwidth (walk_cost T + k) g p r s = Done (z, s') /\
    (z = 0 <-> p <> 0 /\ (g = root_task_group -> r <> 0) /\
       forall x, x ∈ ids T -> rt_fits s (mk_rt_schedulable_data (Some g) p r) x) /\
    (z <> 0 -> s' = s) /\ (z = 0 -> rt_bandwidth_set g p r s s').
Proof.
  intros Hl Hn Hr Hp.
  assert (Hd : (p <> 0 /\ (g = root_task_group -> r <> 0)) \/ tg_set_rt_bandwidth (walk_cost T + k) g p r s = Done (- EINVAL, s)
    /\ ~ (p <> 0 /\ (g = root_task_group -> r <> 0))).
  { unfold tg_set_rt_bandwidth. case_bool_decide as Hg; cbn [andb]; [destruct (Z.eqb_spec r 0); [right; tauto|]|];
      (destruct (Z.eqb_spec p 0); [right; tauto|by left]). }
  destruct Hd as [[Hp0 Hg]|[-> Hd]]; [|exists (- EINVAL), s; split; [done|]; split; [|done]; split; [done|tauto]].
  destruct (set_rt_bandwidth_result k T g p r s) as (s' & He & Hne); [done..|].
  set (z := first_error _ _) in *. exists z, s'. split; [done|]. split; [|split; [done|]].
  - unfold z. rewrite first_error_0, Forall_forall. setoid_rewrite rt_check_0. tauto.
  - intros Hz. apply (set_rt_bandwidth_run _ _ _ _ _ T) in He; [|done..].
    destruct He as [[Hz' _]|(_ & _ & _ & Hb & _)]; [by rewrite Hz in Hz'|exact Hb].
Qed.

(** A setting that changes no ratio is admitted again. *)
Lemma admitted_fits T s d :
  rt_tree T s ->
  (forall x, x ∈ ids T -> ratio_of (rt_setting s d x) = ratio s x /\
     ((rt_setting s d x).2 <= (rt_setting s d x).1 \/ (rt_setting s d x).2 = RUNTIME_INF) /\
     ((rt_setting s d x).2 = 0 -> tg_has_rt_tasks s x = false)) ->
  forall x, x ∈ ids T -> rt_fits s d x.
Proof.
  intros Ht Hd x Hx. pose proof Ht as [Hroot Hl Hnd Hsz Hr Hok].
  destruct (Hd x Hx) as (E & Hle & Ht0), (Hok x Hx) as [A1 A2 A3].
  destruct (links_children s T x Hl Hx) as [Hlen Hch].
  split; [done|by rewrite E| |by intros _]. rewrite E.
  rewrite children_ratio_sum; [| |lia].
  - rewrite (sumZ_ext _ (ratio s)); [done|]. intros c Hc%Hch. by apply Hd.
  - intros c Hc%Hch. destruct (Hd c Hc) as (-> & _). apply to_ratio_range; [apply u64_range|by apply Hr|apply (Hok c Hc)].
Qed.

(** A write that changes no ratio succeeds. *)
Lemma set_rt_bandwidth_admitted k T g p r s :
  rt_tree T s -> g ∈ ids T -> g <> root_task_group -> 0 < p < 2 ^ 64 -> r <= p -> to_ratio p r = ratio s g ->
  (r = 0 -> tg_has_rt_tasks s g = false) ->
  (forall x, x ∈ ids T -> x <> g -> (group_bw s x).2 = 0 -> tg_has_rt_tasks s x = false) ->
  exists s', tg_set_rt_bandwidth (walk_cost T + k) g p r s = Done (0, s') /\ rt_bandwidth_set g p r s s'.
Proof.
  intros Ht Hg Hne Hp Hr Hrat H0 Htasks. pose proof Ht as [Hroot Hl Hnd Hsz _ Hok].
  assert (Hf : forall x, x ∈ ids T -> rt_fits s (mk_rt_schedulable_data (Some g) p r) x).
  { apply admitted_fits; [done|]. intros x Hx. unfold rt_setting. cbn [d_tg d_rt_period d_rt_runtime].
    case_bool_decide as Hxg; [injection Hxg as ->; split; [done|]; split; [by left|done]|].
    split; [done|]. split; [apply (Hok x Hx)|]. apply Htasks; [done|congruence]. }
  destruct (set_rt_bandwidth_result k T g p r s) as (s' & He & _); [done..|lia|done|].
  assert (Ez : first_error (rt_check s (mk_rt_schedulable_data (Some g) p r)) (ids T) = 0).
  { apply first_error_0, Forall_forall. intros x Hx. by apply rt_check_0, Hf. }
  rewrite Ez in He. exists s'. split; [done|].
  apply (set_rt_bandwidth_run _ _ _ _ _ T) in He; [|done..|lia]. destruct He as [[]|(_ & _ & _ & Hb & _)]; done.
Qed.

Lemma rt_only_tasks g s s' x : rt_only g s s' -> tg_has_rt_tasks s' x = tg_has_rt_tasks s x.
Proof.
  intros Ho. pose proof (ro_rest _ _ _ Ho) as E. unfold tg_has_rt_tasks.
  assert (Ea : autogroup (group s' x) = autogroup (group s x)).
  { destruct (decide (x = g)) as [->|Hx]; [apply (ro_auto _ _ _ Ho)|by rewrite (ro_others _ _ _ Ho)]. }
  assert (E1 : processes s' = processes s) by (rewrite <- E; done).
  assert (E2 : kernel s' = kernel s) by (rewrite <- E; done).
  assert (E3 : sched_task_group s' = sched_task_group s) by (rewrite <- E; done).
  by rewrite Ea, E1, E2, E3.
Qed.

Lemma to_ratio_wraps p : p <> 0 -> to_ratio p (2 ^ 41 * 1000) = 0.
Proof.
  intros Hp. unfold to_ratio. change (2 ^ 41 * 1000 =? RUNTIME_INF) with false. cbn iota.
  destruct (Z.eqb_spec p 0); [done|]. change (u64 (Z.shiftl (2 ^ 41 * 1000) BW_SHIFT)) with 0. by apply Zdiv_0_l.
Qed.

(** C23: The admission control can be fooled: [to_ratio] shifts the runtime
    out of its 64 bits.  Whatever else has been admitted, a new group without
    children can be given 2^41 microseconds of every 2^41, the whole CPU;
    it is counted as nothing, and the tree is admitted as before. *)
Theorem rt_admission_overflow k T g s :
  rt_tree T s -> g ∈ ids T -> g <> root_task_group ->
  rt_bw_runtime (rt_bw (group s g)) = 0 ->
  (forall x, x ∈ ids T -> (group_bw s x).2 = 0 -> tg_has_rt_tasks s x = false) ->
  exists s1 s2, cpu_rt_period_write_uint (walk_cost T + k) g (2 ^ 41) s = Done (0, s1) /\
    cpu_rt_runtime_write (walk_cost T + k) g (2 ^ 41) s1 = Done (0, s2) /\
    group_bw s2 g = (2 ^ 41 * 1000, 2 ^ 41 * 1000) /\ ratio s2 g = 0 /\ rt_tree T s2.
Proof.
  intros Ht Hg Hne H0 Htasks. destruct (ratio_0 s g H0) as [E1 E2].
  destruct (set_rt_bandwidth_admitted k T g (2 ^ 41 * 1000) 0 s) as (s1 & He1 & Hb1);
    [done..|by rewrite E2|by intros _; apply Htasks|by intros; apply Htasks|].
  assert (R1 : cpu_rt_period_write_uint (walk_cost T + k) g (2 ^ 41) s = Done (0, s1)).
  { unfold cpu_rt_period_write_uint, sched_group_set_rt_period, get_group.
    change (U64_MAX / NSEC_PER_USEC <? 2 ^ 41) with false. cbn iota. rewrite bind_gets, H0. exact He1. }
  destruct (set_rt_period_tree T _ _ (2 ^ 41) _ _ _ Ht ltac:(done) Hg R1) as (Ht1 & _).
  destruct Hb1 as (Ho & P1 & P2 & _). pose proof (ro_others _ _ _ Ho) as Hoth.
  assert (Htk : forall x, x ∈ ids T -> x <> g -> (group_bw s1 x).2 = 0 -> tg_has_rt_tasks s1 x = false).
  { intros x Hx Hxg. unfold group_bw. rewrite Hoth by done. intros Hz. rewrite <- (Htasks x Hx Hz).
    by eapply rt_only_tasks. }
  destruct (set_rt_bandwidth_admitted k T g (2 ^ 41 * 1000) (2 ^ 41 * 1000) s1) as (s2 & He2 & Hb2); [done..| |done|done|].
  { unfold ratio, ratio_of, group_bw. rewrite P1, P2. by rewrite to_ratio_wraps. }
  assert (R2 : cpu_rt_runtime_write (walk_cost T + k) g (2 ^ 41) s1 = Done (0, s2)).
  { unfold cpu_rt_runtime_write, sched_group_set_rt_runtime, get_group. rewrite bind_gets, P1. exact He2. }
  destruct (set_rt_runtime_tree T _ _ _ _ _ _ Ht1 R2) as (Ht2 & _). destruct Hb2 as (_ & Q1 & Q2 & _).
  assert (Eb : group_bw s2 g = (2 ^ 41 * 1000, 2 ^ 41 * 1000)) by (unfold group_bw; by rewrite Q1, Q2).
  exists s1, s2. split_and!; [done..| |done]. unfold ratio, ratio_of. rewrite Eb. by apply to_ratio_wraps.
Qed.

(** C24: [walk_tg_tree_from], which follows the pointers of the groups with
    [goto]s, is the recursive traversal of the tree that they span, whatever
    the two visitors do, as long as they keep the tree: [down] on the way into
    a group and [up] on the way out, up to the first error.  It ends within
    two steps for a group and one for a child. *)
Theorem walk_is_traversal down up k T s :
  (forall x, frames tree_kept (down x)) -> (forall x, frames tree_kept (up x)) ->
  links s T -> NoDup (ids T) ->
  walk_tg_tree_from (walk_cost T + k) (root T) down up s = walk_tree down up T s.
Proof. intros Hd Hu. by apply walk_whole. Qed.
End Writes.

(** *** Concrete instances *)

Module GroupExample.
(** The allocator returns the next number, and [fair.c] has nothing to do. *)
#[export] Instance quiet_fair : FairGroups := {
  kmem_cache_alloc s := Some (1 + foldr Z.max 0 (task_groups s));
  kmem_cache_free _ := ret tt;
  kzalloc_ok := ret true;
  alloc_fair_sched_group _ _ := ret true;
  free_fair_sched_group _ := ret tt;
  online_fair_sched_group _ := ret tt;
  unregister_fair_sched_group _ := ret tt;
  sched_group_set_shares g v :=
    if bool_decide (g = root_task_group) then ret (- EINVAL)
    else do! set_group g (fun t => t <| shares := Z.max (scale_load MIN_SHARES) (Z.min v (scale_load MAX_SHARES)) |>) in ret 0;
  task_change_group _ := None;
  set_task_rq _ _ := ret tt;
  cfs_bandwidth_usage_inc := ret tt;
  cfs_bandwidth_usage_dec := ret tt;
  __refill_cfs_bandwidth_runtime _ := ret tt;
  start_cfs_bandwidth _ := ret tt;
  unthrottle_cfs_rq _ _ := ret tt;
  autogroup_task_group _ g _ := g;
  autogroup_free _ := ret tt;
  cgroup_on_dfl := false
}.

Lemma foldr_max l x : x ∈ l -> x <= foldr Z.max 0 l.
Proof. induction l as [|y l IH]; [by intros ?%elem_of_nil|]. cbn. intros [->|H%IH]%elem_of_cons; lia. Qed.

#[export] Instance quiet_laws : GroupLaws.
Proof.
  split; try (intros; by apply frames_ret, _). intros s g [= <-] H%foldr_max. lia.
Qed.

(** The root group with 0.95 s of every second, and group 1 in it. *)
Definition bandwidth0 (runtime : Z) : rt_bandwidth := mk_rt_bandwidth 1000000000 runtime 0 false.

Definition groups0 : gstate :=
  mk_gstate
    (fun g => if g =? 0 then zeroed_group <| rt_bw := bandwidth0 950000000 |> <| children := [1] |> <| shares := 1048576 |>
              else if g =? 1 then zeroed_group <| rt_bw := bandwidth0 0 |> <| parent := Some 0 |> <| shares := 1048576 |>
              else zeroed_group)
    [1; 0] Machine.machine0 [] (fun _ => 0) (fun _ => 0) [].

Definition tree0 : rose := Node 0 [Node 1 []].

Lemma links0 : links groups0 tree0.
Proof. by vm_compute. Qed.

Lemma nodup0 : NoDup (ids tree0).
Proof. apply (bool_decide_unpack _). by vm_compute. Qed.

Lemma rt_tree0 : rt_tree tree0 groups0.
Proof.
  split; [done|exact links0|exact nodup0|by vm_compute| |].
  - intros g. change (ids tree0) with [0; 1]. intros [->|[->|[]%elem_of_nil]%elem_of_cons]%elem_of_cons; by vm_compute.
  - intros g. change (ids tree0) with [0; 1].
    intros [->|[->|[]%elem_of_nil]%elem_of_cons]%elem_of_cons; split; try (by vm_compute); left; by vm_compute.
Qed.

Lemma groups0_ok : groups_ok groups0.
Proof. exists tree0. split; [exact rt_tree0|]. split; [apply Permutation_swap|by vm_compute]. Qed.

Definition gafter {A} (m : G A) (s : gstate) : gstate :=
  match m s with Done (_, s') => s' | Crash _ => s end.

(** Half a second for group 1. *)
Definition groups1 : gstate := gafter (cpu_rt_runtime_write 10 1 500000) groups0.

Lemma groups1_step : group_step 10 groups0 groups1.
Proof. apply step_runtime with 1 500000 0; [by left|]. by vm_compute. Qed.

Lemma rt_groups_admitted_witness :
  rt_bw_runtime (rt_bw (group groups1 1)) = 500000000 /\ rt_admitted groups1 1.
Proof.
  split; [by vm_compute|].
  apply (rt_groups_admitted 10 groups0 groups1 groups0_ok (rtc_once _ _ groups1_step)). by left.
Defined.

(** Two seconds of every second are refused. *)
Lemma set_rt_bandwidth_spec_witness :
  exists z s', tg_set_rt_bandwidth (walk_cost tree0 + 5) 1 1000000000 2000000000 groups0 = Done (z, s') /\ (z <> 0 -> s' = groups0).
Proof.
  destruct (set_rt_bandwidth_spec 5 tree0 1 1000000000 2000000000 groups0 links0 nodup0) as (z & s' & H1 & _ & H2 & _);
    [done|done|]. exists z, s'; split; [exact H1|exact H2].
Defined.

Lemma rt_admission_overflow_witness :
  exists s1 s2, cpu_rt_period_write_uint (walk_cost tree0 + 5) 1 (2 ^ 41) groups0 = Done (0, s1) /\
    cpu_rt_runtime_write (walk_cost tree0 + 5) 1 (2 ^ 41) s1 = Done (0, s2) /\ ratio s2 1 = 0.
Proof.
  destruct (rt_admission_overflow 5 tree0 1 groups0 rt_tree0) as (s1 & s2 & H1 & H2 & _ & H3 & _);
    [right; by left|done|done|intros x _ _; unfold tg_has_rt_tasks; by destruct (autogroup _)|]. exists s1, s2; split; [exact H1|]; split; [exact H2|exact H3].
Defined.

Lemma walk_is_traversal_witness :
  walk_tg_tree_from (walk_cost tree0 + 5) (root tree0) tg_nop tg_nop groups0 = Done (0, groups0).
Proof.
  rewrite (walk_is_traversal tg_nop tg_nop 5 tree0 groups0 (fun x => frames_ret tree_kept 0) (fun x => frames_ret tree_kept 0)
    links0 nodup0). done.
Defined.
End GroupExample.
