(* ===== verification/GroupCfs.v ===== *)
(** * Task groups: CFS quotas and weights

    What [__cfs_schedulable] computes for the groups of a tree, on the legacy
    hierarchy of cgroups and on the unified one, and reading a weight back
    that was written to [cpu.weight] or [cpu.weight.nice]. *)

From S2P Require Import Prelude Sched Ts RtBandwidth Rt SchedClass TaskGroups GroupProps GroupSteps.

Implicit Types (s : gstate) (T : rose) (g p x : tg).

Section Quotas.
Context `{Hfair : FairGroups}.
Implicit Types (d : cfs_schedulable_data).

Definition hq s x : Z := hierarchical_quota (cfs_b (group s x)).

Definition set_hq (q : Z) (t : task_group) : task_group :=
  t <| cfs_b ::= fun b => b <| hierarchical_quota := q |> |>.

(** Only the hierarchical quotas of [l] change. *)
Record hq_only (l : list tg) s s' : Prop := {
  ho_group : forall x, group s' x = set_hq (hq s' x) (group s x);
  ho_others : forall x, x ∉ l -> hq s' x = hq s x;
  ho_rest : s' <| group := group s |> = s
}.

Lemma set_hq_self t : set_hq (hierarchical_quota (cfs_b t)) t = t.
Proof. by destruct t as [? ? ? ? ? ? [] ?]. Qed.

Lemma hq_only_refl l s : hq_only l s s.
Proof. split; [|done|by destruct s]. intros x. unfold hq. by rewrite set_hq_self. Qed.

Lemma hq_only_trans l1 l2 s1 s2 s3 : hq_only l1 s1 s2 -> hq_only l2 s2 s3 -> hq_only (l1 ++ l2) s1 s3.
Proof.
  intros [A1 A2 A3] [B1 B2 B3]. split.
  - intros x. by rewrite B1, A1.
  - intros x. rewrite not_elem_of_app. intros [H1 H2]. by rewrite B2, A2.
  - by rewrite <- A3, <- B3.
Qed.

Lemma hq_only_more l l' s s' : l ⊆ l' -> hq_only l s s' -> hq_only l' s s'.
Proof. intros Hl [A1 A2 A3]. split; [done| |done]. intros x Hx. apply A2. set_solver. Qed.

Lemma hq_only_tree l s s' : hq_only l s s' -> tree_kept s s'.
Proof. intros [A _ _] x. by rewrite (A x). Qed.

Lemma set_hierarchical_run g q s : exists s', set_hierarchical g q s = Done (tt, s') /\ hq_only [g] s s' /\ hq s' g = q.
Proof.
  eexists. split; [done|]. split; [split|].
  - intros x. unfold hq. simpl. destruct (decide (g = x)) as [<-|Hx].
    + by rewrite fn_lookup_alter.
    + rewrite fn_lookup_alter_ne by done. by rewrite set_hq_self.
  - intros x Hx. rewrite list_elem_of_singleton in Hx. unfold hq. simpl. by rewrite fn_lookup_alter_ne.
  - by destruct s.
  - unfold hq. simpl. by rewrite fn_lookup_alter.
Qed.

(** The own quota of a group, as the check sees it. *)
Definition own_quota s d x : Z := s64 (normalize_cfs_quota s d x).

Lemma own_quota_kept l s s' d x : hq_only l s s' -> own_quota s' d x = own_quota s d x.
Proof.
  intros Ho. unfold own_quota, normalize_cfs_quota, tg_get_cfs_period, tg_get_cfs_quota, cfs_period_ns.
  by rewrite (ho_group _ _ _ Ho x).
Qed.

(** The share of a CPU that a quota per period is, both in ns: in units of
    2^-20, of whole microseconds, or none when it is unlimited. *)
Definition cfs_share (p q : Z) : option Z :=
  if q =? RUNTIME_INF then None
  else Some (s64 (if p / 1000 =? 0 then 0 else u64 (q / 1000 * 2 ^ 20) / (p / 1000))).

(** The share of a group when [g] gets the quota [q] per period [p]. *)
Definition share_with g (p q : Z) s x : option Z :=
  if decide (x = g) then cfs_share p q
  else cfs_share (cfs_period_ns (group s x)) (quota (cfs_b (group s x))).

Definition quotas_u64 (T : rose) s : Prop := forall x, x ∈ ids T -> 0 <= quota (cfs_b (group s x)) < 2 ^ 64.

Lemma to_ratio_us p q : 0 <= q < 2 ^ 64 -> q <> RUNTIME_INF ->
  s64 (if (q / 1000 =? RUNTIME_INF) || (q / 1000 =? u64 (-1)) then RUNTIME_INF else to_ratio (p / 1000) (q / 1000)) =
    default (-1) (cfs_share p q).
Proof.
  intros Hq Hinf. change (u64 (-1)) with RUNTIME_INF.
  assert (q / 1000 < 2 ^ 63) by (apply Z.div_lt_upper_bound; lia).
  assert (q / 1000 <> RUNTIME_INF) by (change RUNTIME_INF with (2 ^ 64 - 1); lia).
  unfold cfs_share, to_ratio. rewrite !(proj2 (Z.eqb_neq _ RUNTIME_INF)) by done. cbn [orb default].
  by rewrite Z.shiftl_mul_pow2 by done.
Qed.

Lemma own_quota_share g (p q : Z) s x : 0 <= q < 2 ^ 64 -> 0 <= quota (cfs_b (group s x)) < 2 ^ 64 ->
  own_quota s (if q =? RUNTIME_INF then mk_cfs_schedulable_data g p q
               else mk_cfs_schedulable_data g (p / NSEC_PER_USEC) (q / NSEC_PER_USEC)) x =
    default (-1) (share_with g p q s x).
Proof.
  intros Hq Hx. unfold own_quota, normalize_cfs_quota, share_with.
  replace (d_cfs_tg _) with g by (by destruct (_ =? _)). rewrite bool_decide_decide.
  destruct (decide (x = g)).
  - destruct (Z.eqb_spec q RUNTIME_INF) as [->|Hinf]; [done|]. by apply to_ratio_us.
  - unfold tg_get_cfs_quota, tg_get_cfs_period. set (q' := quota _) in *. set (p' := cfs_period_ns _).
    destruct (Z.eqb_spec q' RUNTIME_INF) as [->|Hinf]; [done|].
    assert (Hp : 0 <= p' < 2 ^ 64) by apply u64_range. change NSEC_PER_USEC with 1000.
    assert (Hdiv : forall a, 0 <= a < 2 ^ 64 -> u64 (s64 (a / 1000)) = a / 1000).
    { intros a Ha. assert (0 <= a / 1000 < 2 ^ 63) by (split; [apply Z.div_pos|apply Z.div_lt_upper_bound]; lia).
      by rewrite s64_small, u64_small by lia. }
    rewrite !Hdiv by done. by apply to_ratio_us.
Qed.

(** A share is not the number that stands for unlimited. *)
Lemma cfs_share_limited p q r : 0 <= p -> cfs_share p q = Some r -> u64 r <> RUNTIME_INF.
Proof.
  unfold cfs_share. destruct (q =? RUNTIME_INF); [done|]. intros Hp [= <-].
  assert (Hs : forall v, 0 <= v < 2 ^ 64 -> u64 (s64 v) = v).
  { intros v Hv. unfold u64, s64. destruct (Z.lt_ge_cases v (2 ^ 63)).
    - rewrite (Z.mod_small (v + 2 ^ 63)) by lia. rewrite Z.mod_small by lia. lia.
    - replace (v + 2 ^ 63) with (v - 2 ^ 63 + 1 * 2 ^ 64) by lia. rewrite Z.mod_add, (Z.mod_small (v - _)) by lia.
      replace (v - 2 ^ 63 - 2 ^ 63) with (v + (-1) * 2 ^ 64) by lia. by rewrite Z.mod_add, Z.mod_small by lia. }
  destruct (Z.eqb_spec (p / 1000) 0) as [|Hp0]; [done|].
  assert (0 < p / 1000) by (pose proof (Z.div_pos p 1000 Hp ltac:(lia)); lia).
  pose proof (u64_range (q / 1000 * 2 ^ 20)) as Hu.
  assert (Hr : 0 <= u64 (q / 1000 * 2 ^ 20) / (p / 1000) <= u64 (q / 1000 * 2 ^ 20)).
  { split; [apply Z.div_pos; lia|]. apply Z.div_le_upper_bound; nia. }
  rewrite Hs by lia. change RUNTIME_INF with (2 ^ 64 - 1). intros E.
  assert (Em : u64 (q / 1000 * 2 ^ 20) = (q / 1000) mod 2 ^ 44 * 2 ^ 20).
  { unfold u64. replace (2 ^ 64) with (2 ^ 44 * 2 ^ 20) by lia. by rewrite Z.mul_mod_distr_r. }
  assert (u64 (q / 1000 * 2 ^ 20) = 2 ^ 64 - 1) by lia. lia.
Qed.

(** When the quotas of a group and of its parent go together, and what then
    holds for the group. *)
Definition quota_fits (q pq : Z) : bool :=
  cgroup_on_dfl || (u64 q =? RUNTIME_INF) || (u64 pq =? RUNTIME_INF) || (q <=? pq).
Definition quota_below (q pq : Z) : Z :=
  if cgroup_on_dfl then Z.min q pq else if u64 q =? RUNTIME_INF then pq else q.

Definition hq_ok d s x : Prop := exists p, parent (group s x) = Some p /\
  quota_fits (own_quota s d x) (hq s p) = true /\ hq s x = quota_below (own_quota s d x) (hq s p).

Lemma hq_ok_kept l d s s' x : hq_only l s s' -> x ∉ l ->
  (forall p, parent (group s x) = Some p -> p ∉ l) -> hq_ok d s x -> hq_ok d s' x.
Proof.
  intros Ho Hx Hp (p & E1 & E2 & E3). exists p. rewrite (own_quota_kept _ _ _ _ _ Ho).
  rewrite !(ho_others _ _ _ Ho) by (done || by apply Hp). split; [|done].
  by rewrite (proj2 (hq_only_tree _ _ _ Ho x)).
Qed.

Lemma down_run d g p s : parent (group s g) = Some p ->
  exists z s', tg_cfs_schedulable_down d g s = Done (z, s') /\ hq_only [g] s s' /\
    (g <> p -> z = 0 -> hq_ok d s' g).
Proof.
  intros Hp. unfold tg_cfs_schedulable_down. rewrite bind_gets, Hp.
  change (s64 (normalize_cfs_quota s d g)) with (own_quota s d g).
  change (hierarchical_quota (cfs_b (group s p))) with (hq s p).
  assert (Hset : forall q, quota_fits (own_quota s d g) (hq s p) = true -> q = quota_below (own_quota s d g) (hq s p) ->
    exists z s', (do! set_hierarchical g q in ret 0) s = Done (z, s') /\ hq_only [g] s s' /\
      (g <> p -> z = 0 -> hq_ok d s' g)).
  { intros q Hf Hq. destruct (set_hierarchical_run g q s) as (s' & E & Ho & Eq).
    exists 0, s'. split; [by rewrite bind_eq, E|]. split; [done|]. intros Hgp _. exists p.
    rewrite (own_quota_kept _ _ _ _ _ Ho), (proj2 (hq_only_tree _ _ _ Ho g)).
    rewrite (ho_others _ _ _ Ho p), Eq by (rewrite list_elem_of_singleton; congruence). done. }
  unfold quota_fits, quota_below in Hset. destruct cgroup_on_dfl; [by apply Hset|].
  destruct (u64 (own_quota s d g) =? RUNTIME_INF); [by apply Hset|].
  destruct (u64 (hq s p) =? RUNTIME_INF); cbn [negb andb orb] in *; [by apply Hset|].
  destruct (Z.ltb_spec (hq s p) (own_quota s d g)).
  - exists (- EINVAL), s. split; [done|]. split; [apply hq_only_refl|done].
  - apply Hset; [by apply Z.leb_le|done].
Qed.

Lemma down_keeps d x : frames tree_kept (tg_cfs_schedulable_down d x).
Proof.
  intros s a s' He. destruct (parent (group s x)) as [p|] eqn:E.
  - destruct (down_run d x p s E) as (z & s1 & E1 & O1 & _). rewrite E1 in He. injection He as _ <-.
    by eapply hq_only_tree.
  - unfold tg_cfs_schedulable_down in He. rewrite bind_gets, E in He.
    destruct (set_hierarchical_run x (s64 RUNTIME_INF) s) as (s1 & E1 & O1 & _). rewrite bind_eq, E1 in He.
    injection He as _ <-. by eapply hq_only_tree.
Qed.

(** The walk through a subtree: on success all its groups are right. *)
Definition quotas_walked d s l (m : G Z) : Prop := exists z s', m s = Done (z, s') /\ hq_only l s s' /\
  (z = 0 -> forall x, x ∈ l -> hq_ok d s' x).

Definition walks_quotas d T : Prop := forall s p,
  links s T -> NoDup (ids T) -> parent (group s (root T)) = Some p -> p ∉ ids T ->
  quotas_walked d s (ids T) (walk_tree (tg_cfs_schedulable_down d) tg_nop T).

(** The parent of a group of a subtree is in the subtree or above it. *)
Lemma links_up s T x p : links s T -> x ∈ ids T -> parent (group s x) = Some p ->
  p ∈ ids T \/ x = root T.
Proof.
  induction T as [y l IH] using rose_ind'. intros [Hy Hl]%links_node Hx Hp. cbn [root].
  rewrite ids_node in Hx. apply elem_of_cons in Hx as [->|(c & Hc & Hx)%elem_of_all_ids]; [by right|].
  left. rewrite Forall_forall in IH, Hl. destruct (Hl c Hc) as [Hcy Hcl].
  destruct (IH c Hc Hcl Hx Hp) as [Hin| ->]; [by eapply ids_child|]. simplify_eq. apply (root_ids (Node p l)).
Qed.

Lemma children_quotas d g l : Forall (walks_quotas d) l -> forall s,
  Forall (fun c => parent (group s (root c)) = Some g /\ links s c) l -> NoDup (g :: all_ids l) ->
  quotas_walked d s (all_ids l) (walk_list (tg_cfs_schedulable_down d) tg_nop l).
Proof.
  induction l as [|c l IH]; intros Hw s Hl Hn.
  { exists 0, s. split; [done|]. split; [apply hq_only_refl|]. by intros _ x ?%elem_of_nil. }
  apply Forall_cons in Hw as [Hc Hw]. apply Forall_cons in Hl as [[Hp Hlc] Hl].
  rewrite all_ids_cons in *. apply NoDup_cons in Hn as [Hg (Hn1 & Hdis & Hn2)%NoDup_app].
  rewrite not_elem_of_app in Hg. destruct Hg as [Hg1 Hg2].
  destruct (Hc s g Hlc Hn1 Hp Hg1) as (z1 & s1 & E1 & O1 & Q1). cbn [walk_list].
  unfold quotas_walked. rewrite bind_eq, E1. destruct (Z.eqb_spec z1 0) as [->|Hz]; cbn [negb].
  2: { exists z1, s1. split; [done|]. split; [|done]. eapply hq_only_more; [|exact O1]. set_solver. }
  pose proof (hq_only_tree _ _ _ O1) as K1.
  destruct (IH Hw s1) as (z2 & s2 & E2 & O2 & Q2); [|by apply NoDup_cons|].
  { apply Forall_forall. rewrite Forall_forall in Hl. intros c' Hc'. destruct (Hl c' Hc') as [H1 H2].
    rewrite (proj2 (K1 (root c'))). split; [done|]. by eapply links_kept. }
  exists z2, s2. split; [done|]. split; [by eapply hq_only_trans|]. intros Hz x [Hx|Hx]%elem_of_app; [|by apply Q2].
  apply hq_ok_kept with (all_ids l) s1; [done|by apply Hdis| |by apply Q1]. intros p Hpx Hpl.
  rewrite (proj2 (K1 x)) in Hpx. destruct (links_up s c x p Hlc Hx Hpx) as [Hpc| ->]; [by apply (Hdis p)|].
  rewrite Hp in Hpx. injection Hpx as ->. done.
Qed.

Lemma subtree_quotas d T : walks_quotas d T.
Proof.
  induction T as [g l IH] using rose_ind'. intros s p Hl Hn Hp Hpn. cbn [root] in Hp. rewrite ids_node in *.
  unfold quotas_walked. rewrite walk_tree_eq, bind_eq.
  destruct (down_run d g p s Hp) as (z & s1 & -> & O1 & Q1).
  destruct (Z.eqb_spec z 0) as [->|Hz]; cbn [negb].
  2: { exists z, s1. split; [done|]. split; [|done]. eapply hq_only_more; [|exact O1]. set_solver. }
  apply not_elem_of_cons in Hpn as [Hpg Hpn]. pose proof (hq_only_tree _ _ _ O1) as K1.
  destruct (children_quotas d g l IH s1) as (z2 & s2 & E2 & O2 & Q2); [|done|].
  { eapply links_kept in Hl; [|exact K1]. by apply links_node in Hl as [_ Hl]. }
  rewrite bind_eq, E2.
  assert (Ho : hq_only (g :: all_ids l) s s2) by exact (hq_only_trans _ _ _ _ _ O1 O2).
  destruct (Z.eqb_spec z2 0) as [->|Hz2]; cbn [negb]; [|by exists z2, s2].
  exists 0, s2. split; [done|]. split; [done|]. intros _ x [->|Hx]%elem_of_cons; [|by apply Q2].
  apply NoDup_cons in Hn as [Hgl _]. apply hq_ok_kept with (all_ids l) s1; [done|done| |by apply Q1; congruence].
  intros p' Hp'. rewrite (proj2 (K1 g)), Hp in Hp'. by injection Hp' as <-.
Qed.

(** The whole tree; its root has no quota. *)
Lemma cfs_schedulable_run n g period quota s T :
  links s T -> NoDup (ids T) -> root T = root_task_group -> parent (group s (root T)) = None ->
  exists z s' d, __cfs_schedulable (walk_cost T + n) g period quota s = Done (z, s') /\
    d = (if quota =? RUNTIME_INF then mk_cfs_schedulable_data g period quota
         else mk_cfs_schedulable_data g (period / NSEC_PER_USEC) (quota / NSEC_PER_USEC)) /\
    hq_only (ids T) s s' /\
    (z = 0 -> hq s' (root T) = -1 /\ forall x, x ∈ ids T -> x <> root T -> hq_ok d s' x).
Proof.
  destruct T as [r l]. cbn [root]. intros Hl Hn -> Hp. unfold __cfs_schedulable, walk_tg_tree.
  set (d := if negb (quota =? RUNTIME_INF) then _ else _).
  change root_task_group with (root (Node root_task_group l)) at 1.
  rewrite walk_whole; [|apply down_keeps|intros x; by apply frames_ret, _|done..].
  set (r := root_task_group) in *. rewrite walk_tree_eq, bind_eq. cbn [root].
  assert (Ed : exists s1, tg_cfs_schedulable_down d r s = Done (0, s1) /\ hq_only [r] s s1 /\ hq s1 r = -1).
  { unfold tg_cfs_schedulable_down. rewrite bind_gets, Hp.
    destruct (set_hierarchical_run r (s64 RUNTIME_INF) s) as (s1 & E1 & O1 & Eq). exists s1. by rewrite bind_eq, E1. }
  destruct Ed as (s1 & -> & O1 & Eq1). cbn [negb Z.eqb].
  destruct (children_quotas d r l ltac:(apply Forall_forall; intros; apply subtree_quotas) s1) as (z2 & s2 & E2 & O2 & Q2).
  { eapply links_kept in Hl; [|by eapply hq_only_tree]. by apply links_node in Hl as [_ Hl]. }
  { done. }
  rewrite bind_eq, E2. exists z2, s2, d. split; [by destruct (Z.eqb_spec z2 0) as [->|]|].
  split; [unfold d; by destruct (quota =? RUNTIME_INF)|].
  split; [exact (hq_only_trans _ _ _ _ _ O1 O2)|]. intros Hz.
  rewrite ids_node in Hn. apply NoDup_cons in Hn as [Hr _].
  split; [by rewrite (ho_others _ _ _ O2)|]. rewrite ids_node. intros x [->|Hx]%elem_of_cons ?; [done|by apply Q2].
Qed.

Definition unlimited (q : Z) : Prop := u64 q = RUNTIME_INF.

(** Group [x] lies below [y], or is [y]. *)
Definition below s : tg -> tg -> Prop := rtc (fun a b => parent (group s a) = Some b).

Lemma below_bounded T s s' x y d :
  cgroup_on_dfl = false -> links s T -> hq_only (ids T) s s' -> parent (group s (root T)) = None ->
  (forall x, x ∈ ids T -> x <> root T -> hq_ok d s' x) ->
  below s x y -> x ∈ ids T -> ~ unlimited (hq s' y) -> ~ unlimited (hq s' x) /\ hq s' x <= hq s' y.
Proof.
  intros Hv1 Hl Ho Hroot Hq Hb. induction Hb as [x|x p y Hp _ IH]; intros Hx Hy; [done|].
  assert (Hxr : x <> root T) by (intros ->; by rewrite Hroot in Hp).
  assert (Hpt : p ∈ ids T) by (destruct (links_up s T x p Hl Hx Hp); done).
  destruct (IH Hpt Hy) as [H1 H2], (Hq x Hx Hxr) as (p' & Hp' & Hfit & Hqx).
  rewrite (proj2 (hq_only_tree _ _ _ Ho x)), Hp in Hp'. injection Hp' as <-.
  unfold quota_fits, quota_below, unlimited in *. rewrite Hv1 in *. cbn [orb] in Hfit.
  destruct (Z.eqb_spec (u64 (own_quota s' d x)) RUNTIME_INF) as [E|E]; rewrite Hqx; [done|].
  split; [done|]. destruct (Z.eqb_spec (u64 (hq s' p)) RUNTIME_INF); [done|]. cbn [orb] in Hfit. lia.
Qed.

(** C25: On the legacy hierarchy, [__cfs_schedulable] returns, and touches
    nothing but the hierarchical quotas.  If it accepts the quota [q] per
    period [p] for [g], the hierarchical quota of every group is the share of a
    CPU that its quota per period is, for [g] the new one, or that of its parent
    if it has none; and below a group whose quota is limited no group is
    unlimited or may use more. *)
Theorem cfs_quotas_nest n g p q s T :
  cgroup_on_dfl = false -> links s T -> NoDup (ids T) -> root T = root_task_group ->
  parent (group s (root T)) = None -> 0 <= p < 2 ^ 64 -> 0 <= q < 2 ^ 64 -> quotas_u64 T s ->
  exists z s', __cfs_schedulable (walk_cost T + n) g p q s = Done (z, s') /\ hq_only (ids T) s s' /\
    (z = 0 ->
      (forall x y, x ∈ ids T -> parent (group s x) = Some y ->
        hq s' x = match share_with g p q s x with None => hq s' y | Some r => r end) /\
      (forall x y, x ∈ ids T -> below s x y -> ~ unlimited (hq s' y) ->
        ~ unlimited (hq s' x) /\ hq s' x <= hq s' y)).
Proof.
  intros Hv1 Hl Hn Hr Hroot Hp Hq Hu64.
  destruct (cfs_schedulable_run n g p q s T Hl Hn Hr Hroot) as (z & s' & d & He & Ed & Ho & Hz).
  exists z, s'. split; [done|]. split; [done|]. intros Hz0. destruct (Hz Hz0) as [_ Hok]. split.
  - intros x y Hx Hxy. destruct (Hok x Hx) as (y' & Hy' & _ & Hqx); [intros ->; congruence|].
    rewrite (proj2 (hq_only_tree _ _ _ Ho x)), Hxy in Hy'. injection Hy' as <-.
    rewrite (own_quota_kept _ _ _ _ _ Ho), Ed, own_quota_share in Hqx by (done || by apply Hu64).
    unfold quota_below in Hqx. rewrite Hv1 in Hqx. rewrite Hqx.
    destruct (share_with g p q s x) as [r|] eqn:E; [|done]. cbn [default].
    rewrite (proj2 (Z.eqb_neq _ _)); [done|]. unfold share_with in E.
    destruct (decide (x = g)); eapply cfs_share_limited; [|exact E| |exact E]; [lia|apply u64_range].
  - intros x y Hx Hb. by eapply below_bounded.
Qed.

Lemma walk_tree_zero down T : (forall x s z s', down x s = Done (z, s') -> z = 0) ->
  forall s z s', walk_tree down tg_nop T s = Done (z, s') -> z = 0.
Proof.
  intros Hd. induction T as [g l IH] using rose_ind'. intros s z s'. rewrite walk_tree_eq.
  intros (z1 & s1 & H1 & He)%bind_inv. rewrite (Hd _ _ _ _ H1) in He. cbn [negb Z.eqb] in He.
  apply bind_inv in He as (z2 & s2 & H2 & He).
  assert (E2 : z2 = 0); [|rewrite E2 in He; by injection He as <- _].
  clear H1 He. revert s1 H2. induction IH as [|c l Hc _ IHl]; intros s1; [by intros [= <- _]|].
  cbn [walk_list]. intros (z3 & s3 & H3 & He)%bind_inv. rewrite (Hc _ _ _ H3) in He. by apply (IHl s3).
Qed.

Lemma own_quota_low s d x :
  2000 <= cfs_period (cfs_b (group s x)) < 2 ^ 63 -> (x = d_cfs_tg d -> d_cfs_quota d <> RUNTIME_INF -> 2 <= d_cfs_period d) ->
  -1 <= own_quota s d x.
Proof.
  intros Hper Hd. unfold own_quota, normalize_cfs_quota.
  assert (Hp : forall p q, 2 <= p -> q <> RUNTIME_INF -> -1 <= s64 (to_ratio p q)).
  { intros p q Hp Hq. unfold to_ratio. destruct (Z.eqb_spec q RUNTIME_INF); [done|]. destruct (Z.eqb_spec p 0); [lia|].
    pose proof (u64_range (Z.shiftl q BW_SHIFT)) as Hu.
    assert (0 <= u64 (Z.shiftl q BW_SHIFT) / p < 2 ^ 63).
    { split; [apply Z.div_pos; lia|]. apply Z.div_lt_upper_bound; [lia|]. nia. }
    unfold s64. rewrite Z.mod_small; lia. }
  case_bool_decide as Hx.
  - destruct (Z.eqb_spec (d_cfs_quota d) RUNTIME_INF) as [E|E]; cbn [orb]; [done|].
    destruct (d_cfs_quota d =? u64 (-1)); [done|]. by apply Hp; [apply Hd|].
  - set (q := u64 (tg_get_cfs_quota (group s x))).
    destruct (Z.eqb_spec q RUNTIME_INF) as [E|E]; cbn [orb]; [done|]. destruct (q =? u64 (-1)); [done|].
    apply Hp; [|done]. unfold tg_get_cfs_period, cfs_period_ns. rewrite (u64_small (cfs_period _)) by lia.
    assert (2 <= cfs_period (cfs_b (group s x)) / NSEC_PER_USEC < 2 ^ 63).
    { split; [apply Z.div_le_lower_bound; unfold NSEC_PER_USEC; lia|].
      apply Z.div_lt_upper_bound; unfold NSEC_PER_USEC; lia. }
    rewrite u64_small; unfold s64; rewrite Z.mod_small; lia.
Qed.

Lemma vanish d s T :
  cgroup_on_dfl = true -> links s T -> NoDup (ids T) -> hq s (root T) = -1 ->
  (forall x, x ∈ ids T -> x <> root T -> hq_ok d s x) -> (forall x, x ∈ ids T -> -1 <= own_quota s d x) ->
  forall x, x ∈ ids T -> hq s x = -1.
Proof.
  intros Hv2. induction T as [g l IH] using rose_ind'. cbn [root]. intros [_ Hl]%links_node Hn Hg Hq Hlow x Hx.
  rewrite ids_node in *. apply NoDup_cons in Hn as [Hgl Hn].
  apply elem_of_cons in Hx as [->|(c & Hc & Hx)%elem_of_all_ids]; [done|].
  rewrite Forall_forall in IH, Hl. destruct (Hl c Hc) as [Hp Hlc].
  assert (Hin : forall y, y ∈ ids c -> y ∈ g :: all_ids l /\ y <> g).
  { intros y Hy. assert (y ∈ all_ids l) by (apply elem_of_all_ids; by exists c). split; [by right|by intros ->]. }
  apply (IH c Hc); [done| | | | |done].
  - apply list_elem_of_split in Hc as (l1 & l2 & ->). rewrite all_ids_app, all_ids_cons in Hn.
    apply NoDup_app in Hn as (_ & _ & Hn). by apply NoDup_app in Hn as [Hn _].
  - destruct (Hin _ (root_ids c)) as [Hr Hrg]. destruct (Hq _ Hr Hrg) as (p & Hp' & _ & ->).
    rewrite Hp in Hp'. injection Hp' as <-. unfold quota_below. rewrite Hv2, Hg. pose proof (Hlow _ Hr). lia.
  - intros y Hy _. by apply Hq; apply Hin.
  - intros y Hy. by apply Hlow, Hin.
Qed.

(** On the unified hierarchy the check of quotas does nothing:
    [__cfs_schedulable] takes the minimum of the quotas on the way down, as
    signed numbers, but unlimited is -1.  It accepts every quota, and leaves
    every group of the tree with an unlimited hierarchical quota. *)
Theorem cfs_quotas_vanish n g period quota s T :
  cgroup_on_dfl = true -> links s T -> NoDup (ids T) -> root T = root_task_group ->
  parent (group s (root T)) = None -> 2000 <= period ->
  (forall x, x ∈ ids T -> 2000 <= cfs_period (cfs_b (group s x)) < 2 ^ 63) ->
  exists s', __cfs_schedulable (walk_cost T + n) g period quota s = Done (0, s') /\
    forall x, x ∈ ids T -> hq s' x = -1.
Proof.
  intros Hv2 Hl Hn Hr Hp Hper Hpers.
  destruct (cfs_schedulable_run n g period quota s T Hl Hn Hr Hp) as (z & s' & d & He & Ed & Ho & Hz).
  assert (Ez : z = 0).
  { unfold __cfs_schedulable, walk_tg_tree in He. apply (walk_result _ _ _ _ T) in He; [|apply down_keeps|intros x; by apply frames_ret, _|done..].
    eapply walk_tree_zero; [|exact He]. intros x s1 a s2. unfold tg_cfs_schedulable_down. rewrite bind_gets, Hv2.
    by destruct (parent (group s1 x)); intros (u & s3 & _ & [-> _]%ret_inv)%bind_inv. }
  subst z. exists s'. split; [done|]. destruct (Hz eq_refl) as [Hroot Hq].
  assert (Hlow : forall x, x ∈ ids T -> -1 <= own_quota s d x).
  { intros x Hx. apply own_quota_low; [by apply Hpers|]. intros _. rewrite Ed.
    destruct (Z.eqb_spec quota RUNTIME_INF); [done|]. intros _. cbn. apply Z.div_le_lower_bound; unfold NSEC_PER_USEC; lia. }
  apply (vanish d s' T); [done| |done|done| |].
  - eapply links_kept; [by eapply hq_only_tree|done].
  - intros x Hx Hxr. by apply Hq.
  - intros x Hx. rewrite (own_quota_kept _ _ _ _ _ Ho). by apply Hlow.
Qed.
End Quotas.

(** ** Weights *)

(** What [fair.c] does with the shares of a group: it clamps and stores them.
    The root group has no entity, and keeps its own. *)
Class SharesLaw `{FairGroups} : Prop := {
  sl_store g v s : g <> root_task_group -> 0 <= v -> exists s', sched_group_set_shares g v s = Done (0, s') /\
    shares (group s' g) = Z.max (scale_load MIN_SHARES) (Z.min v (scale_load MAX_SHARES))
}.

Section Weights.
Context `{Hshares : SharesLaw}.

Lemma stored g v s : g <> root_task_group -> MIN_SHARES <= v <= MAX_SHARES ->
  exists s', sched_group_set_shares g (scale_load v) s = Done (0, s') /\ scale_load_down (shares (group s' g)) = v.
Proof.
  intros Hg Hv. destruct (sl_store g (scale_load v) s Hg) as (s' & He & E).
  { apply u64_range. }
  exists s'. split; [done|]. rewrite E. unfold scale_load, scale_load_down, MIN_SHARES, MAX_SHARES in *.
  change SCHED_FIXEDPOINT_SHIFT with 10. change (u64 (Z.shiftl 2 10)) with 2048.
  change (u64 (Z.shiftl (Z.shiftl 1 18) 10)) with 268435456. change (Z.shiftl 1 18) with 262144 in *.
  rewrite Z.shiftl_mul_pow2, u64_small by lia. rewrite Z.min_l, Z.max_r by lia.
  rewrite Z.shiftr_div_pow2, Z.div_mul by lia. destruct (Z.eqb_spec (v * 2 ^ 10) 0); cbn [negb]; lia.
Qed.

Lemma weight_rounds w : CGROUP_WEIGHT_MIN <= w <= CGROUP_WEIGHT_MAX ->
  let v := DIV_ROUND_CLOSEST_ULL (u64 (w * 1024)) CGROUP_WEIGHT_DFL in
  MIN_SHARES <= v <= MAX_SHARES /\ DIV_ROUND_CLOSEST_ULL (u64 (v * CGROUP_WEIGHT_DFL)) 1024 = w.
Proof.
  unfold CGROUP_WEIGHT_MIN, CGROUP_WEIGHT_MAX, CGROUP_WEIGHT_DFL, MIN_SHARES, MAX_SHARES, DIV_ROUND_CLOSEST_ULL.
  change (Z.shiftl 1 18) with 262144. change (100 / 2) with 50. change (1024 / 2) with 512. cbv zeta. intros Hw.
  rewrite (u64_small (w * 1024)), (u64_small (w * 1024 + 50)) by lia.
  assert (Hv : 10 <= (w * 1024 + 50) / 100 <= 102401) by (Z.to_euclidean_division_equations; lia).
  split; [lia|]. rewrite (u64_small (_ * 100)), u64_small by lia. Z.to_euclidean_division_equations; lia.
Qed.

Lemma nice_found i : 0 <= i < 40 -> exists w, sched_prio_to_weight !! Z.to_nat i = Some w /\
  MIN_SHARES <= w <= MAX_SHARES /\ closest_weight sched_prio_to_weight 0 INT_MAX w = i + 1.
Proof.
  intros Hi. assert (Hall : Forall (fun j => exists w, sched_prio_to_weight !! j = Some w /\
    MIN_SHARES <= w <= MAX_SHARES /\ closest_weight sched_prio_to_weight 0 INT_MAX w = Z.of_nat j + 1) (seq 0 40)).
  { cbn [seq]. repeat (constructor; [eexists; split; [reflexivity|]; by vm_compute|]). constructor. }
  rewrite Forall_forall in Hall. destruct (Hall (Z.to_nat i)) as (w & H1 & H2 & H3); [apply elem_of_seq; lia|].
  exists w. rewrite H3. split; [done|]. split; [done|lia].
Qed.

(** The weight of a group is read back as it was written, both in the
    units of [cpu.weight], where it is scaled to shares and rounded twice, and
    as a nice value in [cpu.weight.nice], where it is looked up in the table of
    weights by the nearest entry.  Values out of range are refused and change
    nothing. *)
Theorem group_weight_roundtrip g w nice s :
  g <> root_task_group ->
  (if (CGROUP_WEIGHT_MIN <=? w) && (w <=? CGROUP_WEIGHT_MAX)
   then exists s', cpu_weight_write_u64 g w s = Done (0, s') /\ cpu_weight_read_u64 g s' = Done (w, s')
   else cpu_weight_write_u64 g w s = Done (- ERANGE, s)) /\
  (if (MIN_NICE <=? nice) && (nice <=? MAX_NICE)
   then exists s', cpu_weight_nice_write_s64 g nice s = Done (0, s') /\ cpu_weight_nice_read_s64 g s' = Done (nice, s')
   else cpu_weight_nice_write_s64 g nice s = Done (- ERANGE, s)).
Proof.
  intros Hg. split.
  - unfold cpu_weight_write_u64. destruct ((CGROUP_WEIGHT_MIN <=? w) && (w <=? CGROUP_WEIGHT_MAX)) eqn:E.
    + apply andb_true_iff in E as [E1%Z.leb_le E2%Z.leb_le].
      rewrite (proj2 (Z.ltb_ge _ _)), (proj2 (Z.ltb_ge _ _)) by lia. cbn [orb].
      destruct (weight_rounds w (conj E1 E2)) as [Hv Hback].
      destruct (stored g _ s Hg Hv) as (s' & He & Es). exists s'. split; [exact He|].
      unfold cpu_weight_read_u64, get_group. by rewrite bind_gets, Es, Hback.
    + destruct (Z.ltb_spec w CGROUP_WEIGHT_MIN), (Z.ltb_spec CGROUP_WEIGHT_MAX w); try done. lia.
  - unfold cpu_weight_nice_write_s64. destruct ((MIN_NICE <=? nice) && (nice <=? MAX_NICE)) eqn:E.
    + apply andb_true_iff in E as [E1%Z.leb_le E2%Z.leb_le].
      rewrite (proj2 (Z.ltb_ge _ _)), (proj2 (Z.ltb_ge _ _)) by lia. cbn [orb].
      destruct (nice_found (NICE_TO_PRIO nice - MAX_RT_PRIO)) as (v & Ew & Hv & Hc).
      { unfold NICE_TO_PRIO, MIN_NICE, MAX_NICE, DEFAULT_PRIO, MAX_RT_PRIO in *. lia. }
      rewrite Ew. destruct (stored g _ s Hg Hv) as (s' & He & Es). exists s'. split; [exact He|].
      unfold cpu_weight_nice_read_s64, get_group. rewrite bind_gets, Es, Hc. unfold ret. do 2 f_equal.
      unfold PRIO_TO_NICE, NICE_TO_PRIO. lia.
    + destruct (Z.ltb_spec nice MIN_NICE), (Z.ltb_spec MAX_NICE nice); try done. lia.
Qed.
End Weights.

(** *** Concrete instances *)

Module CfsExample.
Import GroupExample.

(** No quotas, and periods of 100 ms. *)
Definition cfs0 : gstate :=
  groups0 <| group ::= fun f g => f g <| cfs_b := mk_cfs_bandwidth 100000000 RUNTIME_INF (-1) |> |>.

Lemma cfs0_links : links cfs0 tree0.
Proof. by vm_compute. Qed.

(** Group 2 in group 1, which has 20 ms of every 100 ms. *)
Definition cfs2 : gstate :=
  cfs0 <| group ::= fun f g =>
    if g =? 1 then f g <| children := [2] |> <| cfs_b := mk_cfs_bandwidth 100000000 20000000 (-1) |>
    else if g =? 2 then f g <| parent := Some 1 |> else f g |>.

Definition tree2 : rose := Node 0 [Node 1 [Node 2 []]].

Lemma cfs2_links : links cfs2 tree2.
Proof. by vm_compute. Qed.

Lemma nodup2 : NoDup (ids tree2).
Proof. apply (bool_decide_unpack _). by vm_compute. Qed.

Lemma quotas2 : quotas_u64 tree2 cfs2.
Proof.
  intros x. change (ids tree2) with [0; 1; 2].
  intros [->|[->|[->|[]%elem_of_nil]%elem_of_cons]%elem_of_cons]%elem_of_cons; by vm_compute.
Qed.

Lemma in2 : 1 ∈ ids tree2 /\ 2 ∈ ids tree2.
Proof. apply (bool_decide_unpack _). by vm_compute. Qed.

Lemma shares2 : share_with 2 50000000 10000000 cfs2 2 = Some 209715 /\ share_with 2 50000000 10000000 cfs2 1 = Some 209715.
Proof. by vm_compute. Qed.

Definition answer {A} (r : outcome (Z * A)) : option Z := match r with Done (z, _) => Some z | Crash _ => None end.

(** 10 ms of every 50 ms for group 2 is as much as group 1 has; 11 ms are
    refused. *)
Lemma cfs_quotas_nest_witness :
  answer (__cfs_schedulable (walk_cost tree2 + 5) 2 50000000 11000000 cfs2) = Some (- EINVAL) /\
  exists s', __cfs_schedulable (walk_cost tree2 + 5) 2 50000000 10000000 cfs2 = Done (0, s') /\
    hq s' 2 = 209715 /\ hq s' 1 = 209715 /\ ~ unlimited (hq s' 2) /\ hq s' 2 <= hq s' 1.
Proof.
  split; [by vm_compute|].
  destruct (@cfs_quotas_nest quiet_fair 5 2 50000000 10000000 cfs2 tree2 eq_refl cfs2_links nodup2 eq_refl eq_refl
    ltac:(lia) ltac:(lia) quotas2) as (z & s' & H1 & _ & H2).
  assert (z = 0) as ->.
  { assert (answer (Done (z, s')) = answer (__cfs_schedulable (walk_cost tree2 + 5) 2 50000000 10000000 cfs2)) as E by (by rewrite H1).
    vm_compute in E. by injection E. }
  destruct (H2 eq_refl) as [H3 H4]. exists s'. split; [exact H1|]. destruct in2 as [I1 I2], shares2 as [S2 S1].
  pose proof (H3 2 1 I2 eq_refl) as E2. rewrite S2 in E2. pose proof (H3 1 0 I1 eq_refl) as E1. rewrite S1 in E1.
  split; [exact E2|]. split; [exact E1|]. apply (H4 2 1 I2); [by apply rtc_once|]. rewrite E1. by vm_compute.
Defined.

(** The same on the unified hierarchy. *)
Definition unified_fair : FairGroups := {|
  kmem_cache_alloc := @kmem_cache_alloc quiet_fair;
  kmem_cache_free := @kmem_cache_free quiet_fair;
  kzalloc_ok := @kzalloc_ok quiet_fair;
  alloc_fair_sched_group := @alloc_fair_sched_group quiet_fair;
  free_fair_sched_group := @free_fair_sched_group quiet_fair;
  online_fair_sched_group := @online_fair_sched_group quiet_fair;
  unregister_fair_sched_group := @unregister_fair_sched_group quiet_fair;
  sched_group_set_shares := @sched_group_set_shares quiet_fair;
  task_change_group := @task_change_group quiet_fair;
  set_task_rq := @set_task_rq quiet_fair;
  cfs_bandwidth_usage_inc := @cfs_bandwidth_usage_inc quiet_fair;
  cfs_bandwidth_usage_dec := @cfs_bandwidth_usage_dec quiet_fair;
  __refill_cfs_bandwidth_runtime := @__refill_cfs_bandwidth_runtime quiet_fair;
  start_cfs_bandwidth := @start_cfs_bandwidth quiet_fair;
  unthrottle_cfs_rq := @unthrottle_cfs_rq quiet_fair;
  autogroup_task_group := @autogroup_task_group quiet_fair;
  autogroup_free := @autogroup_free quiet_fair;
  cgroup_on_dfl := true
|}.

Lemma cfs_quotas_vanish_witness :
  exists s', @__cfs_schedulable unified_fair (walk_cost tree0 + 5) 1 100000000 10000000 cfs0 = Done (0, s') /\
    hq s' 1 = -1.
Proof.
  destruct (@cfs_quotas_vanish unified_fair 5 1 100000000 10000000 cfs0 tree0 eq_refl cfs0_links nodup0 eq_refl eq_refl)
    as (s' & H1 & H2).
  - by vm_compute.
  - intros x _. by vm_compute.
  - exists s'. split; [exact H1|]. apply H2. right. by left.
Defined.

#[export] Instance quiet_shares : SharesLaw.
Proof.
  split. intros g v s Hg Hv. cbn [sched_group_set_shares quiet_fair]. rewrite bool_decide_false by done.
  eexists. split; [done|]. simpl. by rewrite fn_lookup_alter.
Qed.

Lemma group_weight_roundtrip_witness :
  exists s', cpu_weight_write_u64 1 500 groups0 = Done (0, s') /\ cpu_weight_read_u64 1 s' = Done (500, s').
Proof.
  exact (proj1 (group_weight_roundtrip 1 500 0 groups0 ltac:(done))).
Defined.
End CfsExample.
