(* ===== verification/Scull.v ===== *)
(** * The scull driver ([lab09-examples/scull.c])

    A character device that keeps what is written to it in memory: a list of
    quantum sets, each an array of [qset] pointers to quanta of [quantum]
    bytes.  The nodes, arrays and quanta have one owner each, so the list is a
    value; an allocated byte that was never written is [None].  [kmalloc] is a
    parameter, and what a process can access of its buffer is an argument of
    [scull_read] and [scull_write]. *)

From S2P Require Import Prelude Sched.
From Stdlib Require Import Strings.Byte.

(** ** Data *)

(** The bytes of a kmalloc'ed block. *)
Abbreviation block := (list (option byte)).

(** [data] is the array of quanta. *)
Record scull_qset : Type := mk_scull_qset {
  data : option (list (option block))
}.

(** [data_list] is the list from [dev->data] on. *)
Record scull_dev : Type := mk_scull_dev {
  data_list : list scull_qset;
  quantum : Z;
  qset : Z;
  size : Z
}.

(** The device, the module parameters, the number of [kmalloc] calls so far and
    of the blocks that are allocated. *)
Record scull_state : Type := mk_scull_state {
  scull_device : scull_dev;
  scull_quantum : Z;
  scull_qset_param : Z;
  nr_kmalloc : nat;
  live : Z
}.

Definition eta_scull_dev (r : scull_dev) : scull_dev :=
  mk_scull_dev (data_list r) (quantum r) (qset r) (size r).
#[export] Instance data_list_field : Field data_list. Proof. solve_field eta_scull_dev. Defined.
#[export] Instance quantum_field : Field quantum. Proof. solve_field eta_scull_dev. Defined.
#[export] Instance qset_field : Field qset. Proof. solve_field eta_scull_dev. Defined.
#[export] Instance size_field : Field size. Proof. solve_field eta_scull_dev. Defined.

Definition eta_scull_state (r : scull_state) : scull_state :=
  mk_scull_state (scull_device r) (scull_quantum r) (scull_qset_param r) (nr_kmalloc r) (live r).
#[export] Instance scull_device_field : Field scull_device. Proof. solve_field eta_scull_state. Defined.
#[export] Instance scull_quantum_field : Field scull_quantum. Proof. solve_field eta_scull_state. Defined.
#[export] Instance scull_qset_param_field : Field scull_qset_param. Proof. solve_field eta_scull_state. Defined.
#[export] Instance nr_kmalloc_field : Field nr_kmalloc. Proof. solve_field eta_scull_state. Defined.
#[export] Instance live_field : Field live. Proof. solve_field eta_scull_state. Defined.

Definition SCULL_QUANTUM : Z := 4000.
Definition SCULL_QSET : Z := 1000.
Definition O_ACCMODE : Z := 3.
Definition O_WRONLY : Z := 1.

(** The state of the module when it is loaded: [scull_device] is static. *)
Definition scull_loaded : scull_state :=
  mk_scull_state (mk_scull_dev [] 0 0 0) SCULL_QUANTUM SCULL_QSET 0 0.

(** Whether the [n]-th call of [kmalloc] returns memory, for a size. *)
Class Kmalloc : Type := kmalloc_ok : nat -> Z -> bool.

(** ** Operations *)

Section Driver.
Context `{Hkmalloc : Kmalloc}.

Definition get_dev : M scull_state scull_dev := gets scull_device.
Definition set_dev (f : scull_dev -> scull_dev) : M scull_state unit :=
  modify (fun s => s <| scull_device ::= f |>).

Definition kmalloc (sz : Z) : M scull_state bool :=
  let! n := gets nr_kmalloc in
  do! modify (fun s => s <| nr_kmalloc := S n |>) in
  do! when (kmalloc_ok n sz) (modify (fun s => s <| live ::= Z.succ |>)) in
  ret (kmalloc_ok n sz).

(** [kfree] of a pointer; [false] is NULL. *)
Definition kfree (p : bool) : M scull_state unit :=
  when p (modify (fun s => s <| live ::= Z.pred |>)).

(** The index [i] of a C array. *)
Definition index {A} (l : list A) (i : Z) : M scull_state A :=
  require BadIndex (if i <? 0 then None else l !! Z.to_nat i).

(** [for (i = 0; i < qset; ++i) kfree(dptr->data[i])], from [i] on; [n] is
    the number of iterations left. *)
Fixpoint free_quanta (arr : list (option block)) (i : Z) (n : nat) : M scull_state unit :=
  match n with
  | O => ret tt
  | S n =>
      let! q := index arr i in
      do! kfree (bool_decide (is_Some q)) in
      free_quanta arr (i + 1) n
  end.

Fixpoint trim_list (n : Z) (l : list scull_qset) : M scull_state unit :=
  match l with
  | [] => ret tt
  | dptr :: next =>
      do! (match data dptr with
           | Some arr => do! free_quanta arr 0 (Z.to_nat n) in kfree true
           | None => ret tt
           end) in
      do! kfree true in
      trim_list n next
  end.

Definition scull_trim : M scull_state Z :=
  let! dev := get_dev in
  do! trim_list (qset dev) (data_list dev) in
  do! set_dev (fun d => d <| size := 0 |>) in
  let! quantum' := gets scull_quantum in
  do! set_dev (fun d => d <| quantum := quantum' |>) in
  let! qset' := gets scull_qset_param in
  do! set_dev (fun d => d <| qset := qset' |>) in
  do! set_dev (fun d => d <| data_list := [] |>) in
  ret 0.

(** [f_flags] are the flags of the opened file. *)
Definition scull_open (f_flags : Z) : M scull_state Z :=
  do! (if Z.land f_flags O_ACCMODE =? O_WRONLY then let! _ := scull_trim in ret tt else ret tt) in
  ret 0.

Definition scull_release : M scull_state Z := ret 0.

(** Allocate a node at the end of the list. *)
Definition add_node : M scull_state bool :=
  let! ok := kmalloc 16 in
  do! when ok (set_dev (fun d => d <| data_list ::= fun l => l ++ [mk_scull_qset None] |>)) in
  ret ok.

(** [for (; n--; qs = qs->next)], [i] being the index of [qs]. *)
Fixpoint follow_loop (n : nat) (i : nat) : M scull_state (option nat) :=
  match n with
  | O => ret (Some i)
  | S n =>
      let! dev := get_dev in
      if (S i <? length (data_list dev))%nat then follow_loop n (S i)
      else
        let! ok := add_node in
        if ok then follow_loop n (S i) else ret None
  end.

(** The node number [n], as its index in the list.  The loop counts the [int]
    [n] down to 0, a negative one through all of its values. *)
Definition scull_follow (n : Z) : M scull_state (option nat) :=
  let! dev := get_dev in
  let! ok := (match data_list dev with [] => add_node | _ => ret true end) in
  if ok then follow_loop (Z.to_nat (u32 n)) 0 else ret None.

(** The division of [a] by [b] rounds to zero. *)
Definition quot (a b : Z) : M scull_state Z :=
  if b =? 0 then crash DivByZero else ret (Z.quot a b).
Definition rem (a b : Z) : M scull_state Z :=
  if b =? 0 then crash DivByZero else ret (Z.rem a b).

(** Where a position is: node, quantum and offset. *)
Definition locate (f_pos : Z) : M scull_state (Z * Z * Z) :=
  let! dev := get_dev in
  let itemsize := s32 (quantum dev * qset dev) in
  let! item := quot f_pos itemsize in
  let! rest := rem f_pos itemsize in
  let! s_pos := quot (s32 rest) (quantum dev) in
  let! q_pos := rem (s32 rest) (quantum dev) in
  ret (s32 item, s_pos, q_pos).

(** [memcpy] out of and into a block. *)
Definition peek (b : block) (off n : Z) : M scull_state block :=
  if (0 <=? off) && (off + n <=? Z.of_nat (length b))
  then ret (take (Z.to_nat n) (drop (Z.to_nat off) b)) else crash BadIndex.

Definition poke (b : block) (off : Z) (bytes : list byte) : M scull_state block :=
  if (0 <=? off) && (off + Z.of_nat (length bytes) <=? Z.of_nat (length b))
  then ret (take (Z.to_nat off) b ++ map Some bytes ++ drop (Z.to_nat off + length bytes) b)
  else crash BadIndex.

(** [room] is the number of bytes that can be written at [buf].  The result is
    the return value, the new [*f_pos] and the bytes stored at [buf]. *)
Definition scull_read (room count f_pos : Z) : M scull_state (Z * Z * block) :=
  let! dev := get_dev in
  if size dev <=? u64 f_pos then ret (0, f_pos, []) else
  let count := if size dev <? u64 (f_pos + count) then u64 (size dev - f_pos) else count in
  let! (item, s_pos, q_pos) := locate f_pos in
  let! dptr := scull_follow item in
  match dptr with
  | None => ret (0, f_pos, [])
  | Some i =>
      let! dev := get_dev in
      let! node := require NullDeref (data_list dev !! i) in
      match data node with
      | None => ret (0, f_pos, [])
      | Some arr =>
          let! q := index arr s_pos in
          match q with
          | None => ret (0, f_pos, [])
          | Some b =>
              let count := if u64 (quantum dev - q_pos) <? count then quantum dev - q_pos else count in
              if room <? count then
                let! out := peek b q_pos room in
                ret (- EFAULT, f_pos, out)
              else
                let! out := peek b q_pos count in
                ret (count, s64 (f_pos + count), out)
          end
      end
  end.

(** The array of node [i], allocated if need be. *)
Definition get_array (i : nat) : M scull_state (option (list (option block))) :=
  let! dev := get_dev in
  let! node := require NullDeref (data_list dev !! i) in
  match data node with
  | Some arr => ret (Some arr)
  | None =>
      let! ok := kmalloc (u64 (qset dev * 8)) in
      if ok then
        let arr := replicate (Z.to_nat (u64 (qset dev * 8) / 8)) None in
        do! set_dev (fun d => d <| data_list ::= alter (fun _ => mk_scull_qset (Some arr)) i |>) in
        ret (Some arr)
      else ret None
  end.

Definition set_quantum (i : nat) (s_pos : Z) (b : block) : M scull_state unit :=
  set_dev (fun d => d <| data_list ::= alter (fun node =>
    mk_scull_qset (match data node with
                   | Some arr => Some (<[Z.to_nat s_pos := Some b]> arr)
                   | None => None end)) i |>).

(** The end of [scull_write], once the quantum [b] is there. *)
Definition copy_in (buf : list byte) (count f_pos : Z) (i : nat) (s_pos q_pos : Z) (b : block)
    : M scull_state (Z * Z) :=
  let! dev := get_dev in
  let count := if u64 (quantum dev - q_pos) <? count then quantum dev - q_pos else count in
  if Z.of_nat (length buf) <? count then
    let! b := poke b q_pos (buf ++ replicate (Z.to_nat count - length buf) x00) in
    do! set_quantum i s_pos b in
    ret (- EFAULT, f_pos)
  else
    let! b := poke b q_pos (take (Z.to_nat count) buf) in
    do! set_quantum i s_pos b in
    let f_pos := s64 (f_pos + count) in
    do! when (size dev <? u64 f_pos) (set_dev (fun d => d <| size := u64 f_pos |>)) in
    ret (count, f_pos).

(** [buf] are the bytes that can be read at the user's pointer, up to [count].
    [copy_from_user] clears the rest of the destination when it fails. *)
Definition scull_write (buf : list byte) (count f_pos : Z) : M scull_state (Z * Z) :=
  let! (item, s_pos, q_pos) := locate f_pos in
  let! dptr := scull_follow item in
  match dptr with
  | None => ret (- ENOMEM, f_pos)
  | Some i =>
      let! arr := get_array i in
      match arr with
      | None => ret (- ENOMEM, f_pos)
      | Some arr =>
          let! dev := get_dev in
          let! q := index arr s_pos in
          let! b := (match q with
                     | Some b => ret (Some b)
                     | None =>
                         let! ok := kmalloc (u64 (quantum dev)) in
                         ret (if ok then Some (replicate (Z.to_nat (u64 (quantum dev))) None) else None)
                     end) in
          match b with
          | None => ret (- ENOMEM, f_pos)
          | Some b =>
              do! set_quantum i s_pos b in
              copy_in buf count f_pos i s_pos q_pos b
          end
      end
  end.
End Driver.

(** ** The file that the device holds *)

(** The byte [q] of quantum [j] of node [i]: [None] in a hole, [Some None] if it
    was allocated and never written. *)
Definition byte_at (l : list scull_qset) (i j q : nat) : option (option byte) :=
  node ← l !! i; arr ← data node; b ← mjoin (arr !! j); b !! q.

(** The byte at position [x]. *)
Definition cell (d : scull_dev) (x : Z) : option (option byte) :=
  byte_at (data_list d) (Z.to_nat (x / quantum d / qset d)) (Z.to_nat ((x / quantum d) mod qset d))
    (Z.to_nat (x mod quantum d)).

(** The allocated blocks of a node. *)
Definition blocks_in (arr : list (option block)) : Z :=
  sumZ (fun q => b2z (bool_decide (is_Some q))) arr.
Definition blocks (node : scull_qset) : Z :=
  1 + match data node with Some arr => 1 + blocks_in arr | None => 0 end.

Definition node_ok (d : scull_dev) (node : scull_qset) : Prop :=
  forall arr, data node = Some arr ->
    length arr = Z.to_nat (qset d) /\
    forall b, Some b ∈ arr -> length b = Z.to_nat (quantum d).

(** Arrays and quanta have the sizes of the device, and no other block is
    allocated. *)
Definition scull_shape (s : scull_state) : Prop :=
  (forall node, node ∈ data_list (scull_device s) -> node_ok (scull_device s) node) /\
  live s = sumZ blocks (data_list (scull_device s)).

(** The sizes of the device are set and make sense. *)
Definition scull_sizes (d : scull_dev) : Prop :=
  0 < quantum d /\ 0 < qset d /\ quantum d * qset d < 2 ^ 31.

(** Positions that the [int] arithmetic of the driver can locate. *)
Definition in_range (d : scull_dev) (x : Z) : Prop :=
  0 <= x < 2 ^ 31 * (quantum d * qset d).

(** An operation that changes no byte of the file. *)
Record quiet (s s' : scull_state) : Prop := {
  qt_shape : scull_shape s -> scull_shape s';
  qt_quantum : quantum (scull_device s') = quantum (scull_device s);
  qt_qset : qset (scull_device s') = qset (scull_device s);
  qt_size : size (scull_device s') = size (scull_device s);
  qt_cell : forall x, cell (scull_device s') x = cell (scull_device s) x
}.

#[global] Instance quiet_preorder : PreOrder quiet.
Proof.
  split; [by intros s; split|].
  intros s1 s2 s3 [] []. split; [tauto|congruence..].
Qed.

Section Coordinates.
Context (d : scull_dev) (Hd : scull_sizes d).

Lemma item_of x : x / (quantum d * qset d) = x / quantum d / qset d.
Proof. destruct Hd. symmetry. apply Z.div_div; lia. Qed.

Lemma rest_of x : x mod (quantum d * qset d) = x mod quantum d + quantum d * ((x / quantum d) mod qset d).
Proof. destruct Hd. apply Z.rem_mul_r; lia. Qed.

Lemma spos_of x : x mod (quantum d * qset d) / quantum d = (x / quantum d) mod qset d.
Proof.
  destruct Hd. rewrite rest_of, Z.mul_comm, Z.div_add, Z.div_small; [lia| |lia].
  apply Z.mod_pos_bound. lia.
Qed.

Lemma qpos_of x : (x mod (quantum d * qset d)) mod quantum d = x mod quantum d.
Proof.
  destruct Hd. rewrite rest_of, (Z.mul_comm (quantum d)), Z.mod_add by lia.
  apply Z.mod_mod. lia.
Qed.

Lemma item_small x : in_range d x -> 0 <= x / quantum d / qset d < 2 ^ 31.
Proof.
  intros [H0 H1]. destruct Hd. rewrite <- item_of. split; [apply Z.div_pos; lia|].
  apply Z.div_lt_upper_bound; lia.
Qed.

(** Positions of one quantum differ as their offsets do. *)
Lemma same_quantum x y : x / quantum d = y / quantum d -> x - y = x mod quantum d - y mod quantum d.
Proof.
  intros H. destruct Hd.
  rewrite (Z.div_mod x (quantum d)), (Z.div_mod y (quantum d)) at 1 by lia. rewrite H. lia.
Qed.

Lemma near_quantum x y : x <= y < x + (quantum d - x mod quantum d) -> y / quantum d = x / quantum d.
Proof.
  intros H. destruct Hd. symmetry. apply (Z.div_unique _ _ _ (y - quantum d * (x / quantum d))); [|lia].
  left. pose proof (Z.div_mod x (quantum d) ltac:(lia)). pose proof (Z.mod_pos_bound x (quantum d) ltac:(lia)).
  lia.
Qed.

Lemma block_of_inj x y :
  x / quantum d / qset d = y / quantum d / qset d ->
  (x / quantum d) mod qset d = (y / quantum d) mod qset d -> x / quantum d = y / quantum d.
Proof.
  intros H1 H2. destruct Hd.
  rewrite (Z.div_mod (x / quantum d) (qset d)), (Z.div_mod (y / quantum d) (qset d)) by lia. congruence.
Qed.
End Coordinates.

(** ** Walking the list *)

Section Calls.
Context `{Hkmalloc : Kmalloc}.
Implicit Types s : scull_state.

(** Some call of [kmalloc] returns NULL. *)
Definition out_of_memory : Prop := exists n sz, kmalloc_ok n sz = false.

Lemma kmalloc_run sz (Q : bool -> scull_state -> Prop) s :
  (kmalloc_ok (nr_kmalloc s) sz = true ->
     Q true (s <| nr_kmalloc ::= S |> <| live ::= Z.succ |>)) ->
  (out_of_memory -> Q false (s <| nr_kmalloc ::= S |>)) -> wp (kmalloc sz) Q s.
Proof.
  intros H1 H2. unfold kmalloc. wgo. destruct (kmalloc_ok (nr_kmalloc s) sz) eqn:E.
  - by apply H1.
  - apply H2. by exists (nr_kmalloc s), sz.
Qed.

(** Compute the updates of a state given by its fields. *)
Ltac scull_simpl s :=
  destruct s as [[] ? ? ? ?];
  unfold upd, live_field, data_list_field, scull_device_field, nr_kmalloc_field; simpl.

(** [k] nodes were added. *)
Definition grown (k : nat) s s' : Prop :=
  exists n, s' = s <| scull_device ::= fun d => d <| data_list ::= fun l => l ++ replicate k (mk_scull_qset None) |> |>
                   <| nr_kmalloc := n |> <| live ::= Z.add (Z.of_nat k) |>.

Lemma grown_quiet k s s' : grown k s s' -> quiet s s'.
Proof.
  intros [n ->]. split; simpl; try done.
  - intros [Hn Hl]. split; simpl.
    + intros node [Hin|[-> _]%elem_of_replicate]%elem_of_app.
      * exact (Hn node Hin).
      * intros arr Harr. discriminate Harr.
    + rewrite Hl, sumZ_app. enough (sumZ blocks (replicate k (mk_scull_qset None)) = Z.of_nat k) by lia.
      clear. induction k as [|k IH]; [done|]. cbn [replicate]. rewrite sumZ_cons, IH. unfold blocks. simpl. lia.
  - intros x. unfold cell, byte_at. simpl.
    set (i := Z.to_nat (x / quantum (scull_device s) / qset (scull_device s))).
    destruct (decide (i < length (data_list (scull_device s)))%nat) as [Hi|Hi].
    + by rewrite lookup_app_l.
    + rewrite lookup_app_r by lia. rewrite (proj2 (lookup_ge_None _ i)) by lia.
      destruct (replicate _ _ !! _) as [node|] eqn:E; [|done].
      by apply lookup_replicate in E as [-> _].
Qed.

Lemma grown_refl s : grown 0 s s.
Proof.
  exists (nr_kmalloc s). scull_simpl s. by rewrite app_nil_r.
Qed.

Lemma grown_trans k k' s s1 s2 : grown k s s1 -> grown k' s1 s2 -> grown (k + k') s s2.
Proof.
  intros [n ->] [n' ->]. exists n'. scull_simpl s.
  f_equal; [|lia]. f_equal. by rewrite replicate_add, app_assoc.
Qed.

Definition nodes s : nat := length (data_list (scull_device s)).

Lemma grown_nodes k s s' : grown k s s' -> nodes s' = (nodes s + k)%nat.
Proof. intros [n ->]. unfold nodes. simpl. by rewrite length_app, length_replicate. Qed.

Lemma add_node_run s :
  wp add_node (fun ok s' => if ok then grown 1 s s' else grown 0 s s' /\ out_of_memory) s.
Proof.
  unfold add_node. wstep. apply kmalloc_run.
  - intros _. wgo. simpl. wgo. exists (S (nr_kmalloc s)). scull_simpl s. f_equal. lia.
  - intros Hoom. wgo. simpl. wgo. split; [|done]. exists (S (nr_kmalloc s)). scull_simpl s. by rewrite app_nil_r.
Qed.

(** What is returned by a walk that should end at node [i]. *)
Definition found (i : nat) (r : option nat) s s' : Prop :=
  (exists k, grown k s s') /\
  match r with Some j => j = i /\ (i < nodes s')%nat | None => out_of_memory end.

Lemma found_after k i r s s1 s2 : grown k s s1 -> found i r s1 s2 -> found i r s s2.
Proof. intros H [[k' H'] Hr]. split; [|done]. exists (k + k')%nat. by eapply grown_trans. Qed.

Lemma follow_loop_run n i s :
  (i < nodes s)%nat -> wp (follow_loop n i) (fun r => found (i + n) r s) s.
Proof.
  revert i s. induction n as [|n IH]; intros i s Hi; cbn [follow_loop].
  - wgo. rewrite Nat.add_0_r. split; [|done]. exists 0%nat. apply grown_refl.
  - unfold get_dev. wgo. rewrite <- Nat.add_succ_comm. apply wp_if; intros Hlt.
    + apply IH. by apply Nat.ltb_lt in Hlt.
    + wstep. wcall add_node_run. intros [] s1.
      * intros Hg. wcall IH; [apply grown_nodes in Hg; lia|]. intros r s2. by apply found_after with 1%nat.
      * intros [Hg Hoom]. split; [by exists 0%nat|done].
Qed.

Lemma scull_follow_run n s :
  0 <= n < 2 ^ 31 -> wp (scull_follow n) (fun r => found (Z.to_nat n) r s) s.
Proof.
  intros Hn. unfold scull_follow, get_dev. wgo. rewrite u32_small by lia.
  destruct (data_list (scull_device s)) as [|x l] eqn:E.
  - wcall add_node_run. intros [] s1.
    + intros Hg. wcall follow_loop_run; [apply grown_nodes in Hg; lia|].
      intros r s2. by apply found_after with 1%nat.
    + intros [Hg Hoom]. split; [by exists 0%nat | done].
  - wgo. apply (follow_loop_run _ 0). unfold nodes. rewrite E. simpl. lia.
Qed.

(** Where the code looks for the byte at [x]. *)
Lemma locate_run x s :
  scull_sizes (scull_device s) -> in_range (scull_device s) x ->
  wp (locate x) (fun r s' => s' = s /\
    let d := scull_device s in
    r = (x / quantum d / qset d, (x / quantum d) mod qset d, x mod quantum d)) s.
Proof.
  intros Hd Hx. pose proof (item_small _ Hd x Hx) as Hi. pose proof (item_of _ Hd x) as Hio.
  pose proof (spos_of _ Hd x) as Hs. pose proof (qpos_of _ Hd x) as Hq.
  destruct Hd as (H1 & H2 & H3), Hx as [H0 _].
  unfold locate, get_dev, quot, rem. wgo. set (d := scull_device s) in *.
  assert (0 < quantum d * qset d) by lia.
  pose proof (Z.mod_pos_bound x (quantum d * qset d) ltac:(lia)).
  rewrite (s32_small (_ * _)) by lia.
  rewrite (proj2 (Z.eqb_neq (quantum d * qset d) 0)) by lia.
  rewrite (proj2 (Z.eqb_neq (quantum d) 0)) by lia. wgo. split; [done|].
  rewrite (Z.quot_div_nonneg x), (Z.rem_mod_nonneg x) by lia. rewrite (s32_small (x mod _)) by lia.
  rewrite Z.quot_div_nonneg, Z.rem_mod_nonneg by lia. rewrite Hio, Hs, Hq, s32_small by lia. done.
Qed.

(** [e] blocks are allocated and not yet in the list. *)
Definition owned (e : Z) s : Prop :=
  (forall node, node ∈ data_list (scull_device s) -> node_ok (scull_device s) node) /\
  live s = sumZ blocks (data_list (scull_device s)) + e.

Lemma owned_0 s : owned 0 s <-> scull_shape s.
Proof. unfold owned, scull_shape. by rewrite Z.add_0_r. Qed.

(** Quantum [j] of node [i] is [q]. *)
Definition slot (i j : nat) (q : option block) s : Prop :=
  exists arr, data_list (scull_device s) !! i = Some (mk_scull_qset (Some arr)) /\ arr !! j = Some q.

Lemma put_slot_run i sp j b q e s (Q : unit -> scull_state -> Prop) :
  j = Z.to_nat sp -> owned e s -> slot i j q s -> e = 1 - b2z (bool_decide (is_Some q)) ->
  length b = Z.to_nat (quantum (scull_device s)) ->
  (forall s', owned 0 s' -> slot i j (Some b) s' ->
     quantum (scull_device s') = quantum (scull_device s) ->
     qset (scull_device s') = qset (scull_device s) ->
     size (scull_device s') = size (scull_device s) ->
     (forall i' j' k, byte_at (data_list (scull_device s')) i' j' k
        = if decide (i' = i /\ j' = j) then b !! k else byte_at (data_list (scull_device s)) i' j' k) ->
     Q tt s') ->
  wp (set_quantum i sp b) Q s.
Proof.
  intros -> [Hn Hl] (arr & Hi & Hj) He Hb HQ. unfold set_quantum, set_dev. wgo.
  pose proof (lookup_lt_Some _ _ _ Hi) as Hlti. pose proof (lookup_lt_Some _ _ _ Hj) as Hltj.
  set (j := Z.to_nat sp) in *. set (l := data_list (scull_device s)) in *. set (node := mk_scull_qset (Some (<[j := Some b]> arr))).
  set (s' := s <| scull_device ::= fun d => d <| data_list := <[i := node]> l |> |>).
  replace (s <| scull_device ::= _ |>) with s'.
  2: { scull_simpl s. unfold upd. simpl in *. unfold scull_device_field. simpl. do 2 f_equal.
       by rewrite (alter_insert _ _ _ _ Hi). }
  assert (Hblk : blocks node = blocks (mk_scull_qset (Some arr)) + e).
  { unfold blocks, blocks_in. simpl. rewrite (sumZ_insert _ _ _ _ _ Hj). simpl. lia. }
  apply HQ; simpl; try done.
  - split; simpl.
    + intros node' [->|Hin]%elem_of_list_insert; [|by apply Hn].
      intros arr' Harr'. simplify_eq/=.
      destruct (Hn _ (list_elem_of_lookup_2 _ _ _ Hi) arr eq_refl) as [H1 H2].
      split; [by rewrite length_insert|]. intros b' [[= ->]|Hb']%elem_of_list_insert; [done | by apply H2].
    + rewrite Hl, (sumZ_insert _ _ _ _ _ Hi), Hblk. fold l. lia.
  - exists (<[j := Some b]> arr). split; [exact (list_lookup_insert_eq l i node Hlti)|].
    by apply list_lookup_insert_eq.
  - intros i' j' k. unfold byte_at. destruct (decide (i' = i)) as [->|Hne].
    + rewrite list_lookup_insert_eq by done. simpl. destruct (decide (j' = j)) as [->|Hnj].
      * rewrite list_lookup_insert_eq by done. by rewrite decide_True.
      * rewrite list_lookup_insert_ne by done. rewrite decide_False by naive_solver. by rewrite Hi.
    + rewrite list_lookup_insert_ne by done. by rewrite decide_False by naive_solver.
Qed.

(** An array of no quanta in place of none. *)
Lemma put_array_quiet n i s s' :
  data_list (scull_device s) !! i = Some (mk_scull_qset None) -> n = Z.to_nat (qset (scull_device s)) ->
  scull_device s' = scull_device s
    <| data_list ::= alter (fun _ => mk_scull_qset (Some (replicate n None))) i |> ->
  live s' = Z.succ (live s) -> quiet s s'.
Proof.
  intros Hi Hlen Hd Hl. split; rewrite ?Hd; try done.
  - intros [Hn Hlive]. unfold scull_shape. rewrite Hd. simpl. rewrite (alter_insert _ _ _ _ Hi). split.
    + intros node [->|Hin]%elem_of_list_insert; [|by apply Hn].
      intros arr Harr. simplify_eq/=. split; [by rewrite length_replicate|].
      intros b [Hb _]%elem_of_replicate. done.
    + rewrite (sumZ_insert _ _ _ _ _ Hi), Hl, Hlive.
      enough (blocks_in (replicate n None) = 0) by (unfold blocks; simpl; lia).
      unfold blocks_in. clear. induction n as [|n IH]; [done|]. cbn [replicate]. rewrite sumZ_cons, IH. done.
  - intros x. unfold cell. simpl. generalize (Z.to_nat (x / quantum (scull_device s) / qset (scull_device s))).
    intros k. unfold byte_at. rewrite (alter_insert _ _ _ _ Hi). destruct (decide (k = i)) as [->|Hne].
    + rewrite list_lookup_insert_eq by (by eapply lookup_lt_Some). rewrite Hi. simpl.
      destruct (replicate n None !! _) as [q|] eqn:E; [|done].
      by apply lookup_replicate in E as [-> _].
    + by rewrite list_lookup_insert_ne.
Qed.

Lemma get_array_run i s (Q : option (list (option block)) -> scull_state -> Prop) :
  (i < nodes s)%nat -> scull_sizes (scull_device s) -> scull_shape s ->
  (forall arr s', quiet s s' -> length arr = Z.to_nat (qset (scull_device s)) ->
     data_list (scull_device s') !! i = Some (mk_scull_qset (Some arr)) -> Q (Some arr) s') ->
  (forall s', quiet s s' -> out_of_memory -> Q None s') -> wp (get_array i) Q s.
Proof.
  intros Hi (H1 & H2 & H3) [Hn Hl] Hsome Hnone. unfold get_array, get_dev. wgo.
  destruct (lookup_lt_is_Some_2 _ _ Hi) as [node Hnode]. rewrite Hnode. simpl. wgo.
  destruct node as [[arr|]]; simpl.
  - wgo. apply Hsome; [done| |done].
    by destruct (Hn _ (list_elem_of_lookup_2 _ _ _ Hnode) arr eq_refl).
  - wstep. assert (Hq : Z.to_nat (u64 (qset (scull_device s) * 8) / 8) = Z.to_nat (qset (scull_device s))).
    { rewrite u64_small by lia. by rewrite Z.div_mul. }
    rewrite Hq. apply kmalloc_run.
    + intros _. unfold set_dev. wgo. apply Hsome.
      * by apply (put_array_quiet (Z.to_nat (qset (scull_device s))) i); rewrite ?Hq.
      * by rewrite length_replicate.
      * simpl. by rewrite (alter_insert _ _ _ _ Hnode), list_lookup_insert_eq.
    + intros Hoom. wgo. apply Hnone; [|done]. split; try done.
Qed.

Definition poked (b : block) (off : nat) (bytes : list byte) : block :=
  take off b ++ map Some bytes ++ drop (off + length bytes) b.

Lemma poke_run b off bytes s (Q : block -> scull_state -> Prop) :
  0 <= off -> off + Z.of_nat (length bytes) <= Z.of_nat (length b) ->
  Q (poked b (Z.to_nat off) bytes) s -> wp (poke b off bytes) Q s.
Proof.
  intros H0 H1 HQ. unfold poke.
  rewrite (proj2 (Z.leb_le _ _) H0), (proj2 (Z.leb_le _ _) H1). exact HQ.
Qed.

Lemma length_poked b off bytes :
  (off + length bytes <= length b)%nat -> length (poked b off bytes) = length b.
Proof. intros H. unfold poked. rewrite !length_app, length_map, length_take, length_drop. lia. Qed.

Lemma lookup_poked b off bytes k :
  (off + length bytes <= length b)%nat ->
  poked b off bytes !! k
  = if decide (off <= k < off + length bytes)%nat then Some (bytes !! (k - off)%nat) else b !! k.
Proof.
  intros H. unfold poked. destruct (decide (k < off)%nat) as [Hk|Hk].
  - rewrite lookup_app_l by (rewrite length_take; lia). rewrite lookup_take_lt by done.
    by rewrite decide_False by lia.
  - rewrite lookup_app_r by (rewrite length_take; lia). rewrite length_take, (Nat.min_l off) by lia.
    destruct (decide (k < off + length bytes)%nat) as [Hk'|Hk'].
    + rewrite lookup_app_l by (rewrite length_map; lia). rewrite decide_True by lia.
      destruct (lookup_lt_is_Some_2 bytes (k - off)%nat) as [x Hx]; [lia|].
      rewrite Hx. by rewrite list_lookup_fmap, Hx.
    + rewrite lookup_app_r by (rewrite length_map; lia). rewrite length_map, lookup_drop.
      rewrite decide_False by lia. f_equal. lia.
Qed.

(** What [scull_write] stores at position [x] for a user buffer of which
    [buf] can be read. *)
Definition quantum_room (d : scull_dev) (x : Z) : Z := quantum d - x mod quantum d.
Definition written (d : scull_dev) (buf : list byte) (count x : Z) : list byte :=
  let n := Z.to_nat (Z.min count (quantum_room d x)) in
  take n buf ++ replicate (n - length buf) x00.

(** The bytes [bytes] at position [x] and a quantum allocated there. *)
Definition stored (x : Z) (bytes : list byte) s s' : Prop :=
  let d := scull_device s in
  scull_shape s' /\ quantum (scull_device s') = quantum d /\ qset (scull_device s') = qset d /\
  forall y, 0 <= y -> cell (scull_device s') y =
    if decide (x <= y < x + Z.of_nat (length bytes)) then Some (bytes !! Z.to_nat (y - x))
    else if decide (y / quantum d = x / quantum d) then Some (mjoin (cell d y))
    else cell d y.

Lemma quiet_range s s' x :
  quiet s s' -> in_range (scull_device s) x -> in_range (scull_device s') x.
Proof. unfold in_range. intros [_ -> -> _ _]. done. Qed.

Lemma quiet_sizes s s' : quiet s s' -> scull_sizes (scull_device s) -> scull_sizes (scull_device s').
Proof. unfold scull_sizes. intros [_ -> -> _ _]. done. Qed.

(** Every byte of a filled slot. *)
Lemma slot_cell i j q s k :
  slot i j q s -> byte_at (data_list (scull_device s)) i j k = b ← q; b !! k.
Proof. intros (arr & Hi & Hj). unfold byte_at. rewrite Hi. simpl. by rewrite Hj. Qed.

Lemma length_written d buf count x :
  0 <= count -> scull_sizes d -> Z.of_nat (length (written d buf count x)) = Z.min count (quantum_room d x).
Proof.
  intros Hc (H1 & _). unfold written, quantum_room. rewrite length_app, length_replicate, length_take.
  pose proof (Z.mod_pos_bound x (quantum d) H1). lia.
Qed.

(** The slot of position [x] filled with [b], and [bytes] put at its place. *)
Lemma stored_at x bytes b i j q s s' :
  0 <= x -> scull_sizes (scull_device s) ->
  i = Z.to_nat (x / quantum (scull_device s) / qset (scull_device s)) ->
  j = Z.to_nat ((x / quantum (scull_device s)) mod qset (scull_device s)) ->
  slot i j q s -> b = default (replicate (Z.to_nat (quantum (scull_device s))) None) q ->
  length b = Z.to_nat (quantum (scull_device s)) ->
  Z.of_nat (length bytes) <= quantum_room (scull_device s) x ->
  owned 0 s' -> quantum (scull_device s') = quantum (scull_device s) ->
  qset (scull_device s') = qset (scull_device s) ->
  (forall i' j' k, byte_at (data_list (scull_device s')) i' j' k =
    if decide (i' = i /\ j' = j) then poked b (Z.to_nat (x mod quantum (scull_device s))) bytes !! k
    else byte_at (data_list (scull_device s)) i' j' k) ->
  stored x bytes s s'.
Proof.
  intros Hx Hd Hi Hj Hsl Hb Hlen Hroom Hown Hqn Hqs Hcell. unfold stored.
  split; [by apply owned_0|]. split; [done|]. split; [done|]. intros y Hy.
  set (d := scull_device s) in *. pose proof Hd as (H1 & H2 & _).
  pose proof (Z.mod_pos_bound x (quantum d) H1) as Hxm. pose proof (Z.mod_pos_bound y (quantum d) H1) as Hym.
  unfold quantum_room in Hroom.
  assert (Hblk : (Z.to_nat (y / quantum d / qset d) = i /\ Z.to_nat ((y / quantum d) mod qset d) = j)
                 <-> y / quantum d = x / quantum d).
  { split; [|by intros ->]. intros [Ei Ej]. apply (block_of_inj d Hd).
    - subst i. apply Z2Nat.inj in Ei; [done|..]; repeat apply Z.div_pos; lia.
    - subst j. apply Z2Nat.inj in Ej; [done|..]; by apply Z.mod_pos_bound. }
  unfold cell at 1. rewrite Hcell, Hqn, Hqs. destruct (decide (y / quantum d = x / quantum d)) as [E|E].
  - rewrite decide_True by (by apply Hblk). rewrite lookup_poked by lia.
    pose proof (same_quantum d Hd y x E) as Hdiff.
    destruct (decide (x <= y < x + Z.of_nat (length bytes))) as [Hin|Hin].
    + rewrite decide_True by lia. do 2 f_equal. lia.
    + rewrite decide_False by lia. unfold cell. fold d. destruct (proj2 Hblk E) as [-> ->].
      pose proof (fun k => slot_cell i j q s k Hsl) as Hc. fold d in Hc. rewrite Hc. subst b. destruct q as [b|]; simpl in *.
      * destruct (lookup_lt_is_Some_2 b (Z.to_nat (y mod quantum d))) as [c ->]; [lia|]. done.
      * by rewrite lookup_replicate_2 by lia.
  - rewrite decide_False by (by rewrite Hblk). rewrite decide_False; [done|].
    intros Hin. apply E, (near_quantum d Hd). lia.
Qed.

(** The same file, whatever is allocated. *)
Definition same_file s s' : Prop :=
  quantum (scull_device s') = quantum (scull_device s) /\
  qset (scull_device s') = qset (scull_device s) /\ size (scull_device s') = size (scull_device s) /\
  forall x, cell (scull_device s') x = cell (scull_device s) x.

Lemma quiet_same s s' : quiet s s' -> same_file s s'.
Proof. by intros []. Qed.

Lemma stored_same x bytes s s1 s' : same_file s s1 -> stored x bytes s1 s' -> stored x bytes s s'.
Proof.
  intros (Hq & Hs & _ & Hc) (H1 & H2 & H3 & H4). unfold stored. split_and!; [done|congruence..|].
  intros y Hy. rewrite H4, Hq by done. by rewrite Hc.
Qed.

(** The two ways in which [scull_write] returns once the quantum is there. *)
Definition copied buf count x s (r pos : Z) s' : Prop :=
  let n := Z.min count (quantum_room (scull_device s) x) in
  (r = - EFAULT /\ pos = x /\ Z.of_nat (length buf) < n /\
     size (scull_device s') = size (scull_device s) /\
     stored x (written (scull_device s) buf count x) s s') \/
  (r = n /\ pos = x + n /\ n <= Z.of_nat (length buf) /\
     size (scull_device s') = Z.max (size (scull_device s)) (x + n) /\
     stored x (written (scull_device s) buf count x) s s').

Lemma copied_same buf count x s s1 s' r pos :
  same_file s s1 -> copied buf count x s1 r pos s' -> copied buf count x s r pos s'.
Proof.
  intros Hq. unfold copied, quantum_room, written, quantum_room. pose proof Hq as (-> & _ & -> & _).
  intros [(-> & -> & ? & ? & H)|(-> & -> & ? & ? & H)].
  - left. split_and!; try done. by eapply stored_same.
  - right. split_and!; try done. by eapply stored_same.
Qed.

(** What [scull_write] returns and does. *)
Definition write_result buf count x s (r pos : Z) s' : Prop :=
  (r = - ENOMEM /\ pos = x /\ quiet s s' /\ out_of_memory) \/ copied buf count x s r pos s'.

(** Setting the size of the device changes no byte. *)
Lemma stored_size x bytes s s' n :
  stored x bytes s s' -> stored x bytes s (s' <| scull_device ::= fun d => d <| size := n |> |>).
Proof. done. Qed.

Lemma copy_in_run buf count x i sp qp j q e b s :
  0 <= x < 2 ^ 62 -> scull_sizes (scull_device s) -> 0 <= count < 2 ^ 64 ->
  0 <= size (scull_device s) < 2 ^ 62 ->
  i = Z.to_nat (x / quantum (scull_device s) / qset (scull_device s)) ->
  j = Z.to_nat sp -> sp = (x / quantum (scull_device s)) mod qset (scull_device s) ->
  qp = x mod quantum (scull_device s) ->
  owned e s -> slot i j q s -> e = 1 - b2z (bool_decide (is_Some q)) ->
  b = default (replicate (Z.to_nat (quantum (scull_device s))) None) q ->
  length b = Z.to_nat (quantum (scull_device s)) ->
  wp (do! set_quantum i sp b in copy_in buf count x i sp qp b)
    (fun '(r, pos) => copied buf count x s r pos) s.
Proof.
  intros Hx Hd Hcount Hsize Hi Hj Hsp Hqp Hown Hsl He Hb Hlen. pose proof Hd as (H1 & H2 & H3).
  set (d := scull_device s) in *. pose proof (Z.mod_pos_bound x (quantum d) H1) as Hxm. rewrite <- Hqp in Hxm.
  wstep. apply (put_slot_run i sp j b q e); [done..|]. fold d. intros s1 Hown1 Hsl1 Hq1 Hs1 Hz1 Hc1.
  unfold copy_in, get_dev. wgo. rewrite Hq1, Hz1.
  assert (quantum d < 2 ^ 31) by nia. rewrite (u64_small (quantum d - qp)) by lia.
  set (n := if quantum d - qp <? count then quantum d - qp else count).
  assert (Hn : n = Z.min count (quantum_room d x)).
  { unfold n, quantum_room. rewrite <- Hqp. destruct (Z.ltb_spec (quantum d - qp) count); lia. }
  assert (Hroom : 0 <= n <= quantum d - qp) by (unfold quantum_room in Hn; rewrite <- Hqp in Hn; lia).
  (* the bytes [bytes] of that length are stored *)
  assert (Hput : forall bytes (rest : M scull_state (Z * Z)) Q,
    Z.of_nat (length bytes) = n ->
    (forall s2, stored x bytes s s2 -> size (scull_device s2) = size d -> wp rest Q s2) ->
    wp (let! b := poke b qp bytes in do! set_quantum i sp b in rest) Q s1).
  { intros bytes rest Q Hbytes HQ. wstep. apply poke_run; [lia..|]. wstep.
    apply (put_slot_run i sp j _ (Some b) 0); [done..| |].
    - rewrite length_poked by lia. by rewrite Hq1.
    - intros s2 Hown2 _ Hq2 Hs2 Hz2 Hc2. apply HQ; [|congruence].
      apply (stored_at x bytes b i j q); try done; fold d; [lia|congruence| |congruence..|].
      { unfold quantum_room. rewrite <- Hqp. lia. }
      intros i' j' k. rewrite Hc2, Hc1, <- Hqp. by destruct (decide _). }
  assert (Hw : take (Z.to_nat n) buf ++ replicate (Z.to_nat n - length buf) x00 = written d buf count x)
    by (unfold written; by rewrite <- Hn).
  pose proof (length_written d buf count x (proj1 Hcount) Hd) as Hlw. rewrite <- Hn in Hlw.
  apply wp_if; intros Hlb.
  - apply Z.ltb_lt in Hlb. apply Hput.
    + rewrite length_app, length_replicate. lia.
    + intros s2 Hst Hz2. rewrite (take_ge buf) in Hw by lia. rewrite Hw in Hst. wgo.
      left. fold d. rewrite <- Hn. by split_and!.
  - apply Z.ltb_ge in Hlb.
    replace (Z.to_nat n - length buf)%nat with 0%nat in Hw by lia. rewrite app_nil_r in Hw.
    rewrite Hw. apply Hput; [done|]. intros s2 Hst Hz2.
    rewrite (s64_small (x + n)), (u64_small (x + n)) by lia. wstep. apply wp_when; intros Hsz.
    + apply Z.ltb_lt in Hsz. unfold set_dev. wgo. right. fold d. rewrite <- Hn.
      split_and!; [done..| |by apply stored_size]. simpl. lia.
    + apply Z.ltb_ge in Hsz. wgo. right. fold d. rewrite <- Hn. split_and!; try done. lia.
Qed.

Lemma scull_write_run buf count x s :
  scull_shape s -> scull_sizes (scull_device s) -> in_range (scull_device s) x ->
  0 <= count < 2 ^ 64 -> 0 <= size (scull_device s) < 2 ^ 62 ->
  wp (scull_write buf count x) (fun '(r, pos) => write_result buf count x s r pos) s.
Proof.
  intros Hsh Hd Hx Hcount Hsize.
  pose proof (item_small _ Hd x Hx) as Hitem. pose proof Hd as (H1 & H2 & H3).
  assert (Hx62 : 0 <= x < 2 ^ 62) by (destruct Hx; lia).
  set (item := x / quantum (scull_device s) / qset (scull_device s)) in *.
  set (sp := (x / quantum (scull_device s)) mod qset (scull_device s)) in *.
  set (qp := x mod quantum (scull_device s)) in *.
  pose proof (Z.mod_pos_bound (x / quantum (scull_device s)) (qset (scull_device s)) H2) as Hj. fold sp in Hj.
  unfold scull_write. wstep. wcall locate_run; [done..|]. intros [[? ?] ?] s0 (-> & [= -> -> ->]).
  fold item sp qp. wstep. wcall scull_follow_run; [done|].
  intros [i|] s1 ([k Hg%grown_quiet] & Hi); cycle 1.
  { wgo. left. by split_and!. }
  destruct Hi as [-> Hi]. pose proof (qt_shape _ _ Hg Hsh) as Hsh1.
  pose proof (quiet_sizes _ _ Hg Hd) as Hd1. wstep. apply get_array_run; [done..| |].
  2: { intros s2 Hq2 Hoom. wgo. left. split_and!; [done|done|by transitivity s1|done]. }
  intros arr s2 Hq2 Harr Hnode. assert (Hq : quiet s s2) by by transitivity s1.
  unfold get_dev. wstep. wstep.
  destruct (lookup_lt_is_Some_2 arr (Z.to_nat sp)) as [q Hs].
  { rewrite Harr. destruct Hg as [_ _ -> _ _]. lia. }
  assert (Hsl : slot (Z.to_nat item) (Z.to_nat sp) q s2) by by exists arr.
  wstep. unfold index. rewrite (proj2 (Z.ltb_ge _ _)) by lia. rewrite Hs. wgo.
  assert (Hfin : forall b e s3, scull_device s3 = scull_device s2 -> owned e s3 ->
    e = 1 - b2z (bool_decide (is_Some q)) ->
    b = default (replicate (Z.to_nat (quantum (scull_device s))) None) q ->
    length b = Z.to_nat (quantum (scull_device s)) ->
    wp (do! set_quantum (Z.to_nat item) sp b in
        copy_in buf count x (Z.to_nat item) sp qp b)
      (fun '(r, pos) => write_result buf count x s r pos) s3).
  { intros b e s3 Hs3 Hown He Hb Hlen.
    assert (Hsame : same_file s s3) by (pose proof (quiet_same _ _ Hq) as H; unfold same_file in *; by rewrite Hs3).
    pose proof Hsame as (E1 & E2 & E3 & _).
    wcall (copy_in_run buf count x (Z.to_nat item) sp qp (Z.to_nat sp) q e b s3);
      rewrite ?E1, ?E2, ?E3; try done.
    - unfold scull_sizes. by rewrite E1, E2.
    - unfold slot. by rewrite Hs3.
    - intros [r pos] s' Hc. right. by eapply copied_same. }
  assert (E : quantum (scull_device s2) = quantum (scull_device s)) by apply Hq.
  assert (Hqn : quantum (scull_device s) < 2 ^ 31) by nia.
  pose proof (qt_shape _ _ Hq Hsh) as Hown%owned_0. destruct q as [b|].
  - wgo. apply (Hfin b 0); try done. destruct Hown as [Hn _].
    destruct (Hn _ (list_elem_of_lookup_2 _ _ _ Hnode) arr eq_refl) as [_ Hb].
    rewrite <- E. by apply Hb, (list_elem_of_lookup_2 _ (Z.to_nat sp)).
  - rewrite E, u64_small by lia. cbn [require]. wgo. apply wp_bind, kmalloc_run.
    + intros _. wgo. apply (Hfin (replicate (Z.to_nat (quantum (scull_device s))) None) 1).
      * done.
      * destruct Hown as [Hn Hl]. split; [exact Hn|]. simpl. rewrite Hl. lia.
      * done.
      * done.
      * by rewrite length_replicate.
    + intros Hoom. wgo. left. split_and!; [done|done| |done].
      transitivity s2; [done|]. by split.
Qed.

(** [out] are the bytes of the file from [x] on, of which there are [n]. *)
Definition file_bytes (d : scull_dev) (x n : Z) (out : block) : Prop :=
  Z.of_nat (length out) = n /\ forall k, 0 <= k < n -> out !! Z.to_nat k = cell d (x + k).

(** How much of [count] bytes one call reads. *)
Definition read_count (d : scull_dev) (count x : Z) : Z :=
  Z.min (Z.min count (size d - x)) (quantum_room d x).

Lemma peek_run d x b n s (Q : block -> scull_state -> Prop) :
  scull_sizes d -> 0 <= n <= quantum_room d x -> length b = Z.to_nat (quantum d) -> 0 <= x ->
  (forall y, 0 <= y -> y / quantum d = x / quantum d -> cell d y = b !! Z.to_nat (y mod quantum d)) ->
  (forall out, file_bytes d x n out -> Q out s) -> wp (peek b (x mod quantum d) n) Q s.
Proof.
  intros Hd Hn Hlen Hx Hcell HQ. unfold quantum_room in Hn. pose proof Hd as (H1 & _).
  pose proof (Z.mod_pos_bound x (quantum d) H1) as Hm. unfold peek.
  rewrite (proj2 (Z.leb_le 0 _)) by lia. rewrite (proj2 (Z.leb_le _ (Z.of_nat (length b)))) by lia.
  apply HQ. split; [rewrite length_take, length_drop; lia|]. intros k Hk.
  assert (Hb : (x + k) / quantum d = x / quantum d) by (apply (near_quantum d Hd); lia).
  rewrite lookup_take_lt by lia. rewrite lookup_drop, Hcell by (done || lia). f_equal.
  pose proof (same_quantum d Hd _ _ Hb). pose proof (Z.mod_pos_bound (x + k) (quantum d) H1). lia.
Qed.

Lemma file_bytes_same s s' x n out :
  same_file s s' -> file_bytes (scull_device s') x n out -> file_bytes (scull_device s) x n out.
Proof. intros (_ & _ & _ & H) [H1 H2]. split; [done|]. intros k Hk. by rewrite H2, H. Qed.

(** What [scull_read] returns: past the end or in a hole nothing, else the
    bytes of the file up to the end of the quantum or of the file. *)
Definition read_result room count x s (r pos : Z) (out : block) : Prop :=
  let n := read_count (scull_device s) count x in
  if size (scull_device s) <=? x then r = 0 /\ pos = x /\ out = []
  else
    (r = 0 /\ pos = x /\ out = [] /\ (cell (scull_device s) x = None \/ out_of_memory)) \/
    (r = - EFAULT /\ pos = x /\ room < n /\ file_bytes (scull_device s) x room out) \/
    (r = n /\ pos = x + n /\ n <= room /\ file_bytes (scull_device s) x n out).

Lemma scull_read_run room count x s :
  scull_shape s -> scull_sizes (scull_device s) -> in_range (scull_device s) x ->
  0 <= count < 2 ^ 62 -> 0 <= room -> 0 <= size (scull_device s) < 2 ^ 62 ->
  wp (scull_read room count x) (fun '(r, pos, out) s' =>
    quiet s s' /\ read_result room count x s r pos out) s.
Proof.
  intros Hsh Hd Hx Hcount Hroom Hsize.
  pose proof (item_small _ Hd x Hx) as Hitem. pose proof Hd as (H1 & H2 & H3).
  assert (Hx62 : 0 <= x < 2 ^ 62) by (destruct Hx; lia).
  set (item := x / quantum (scull_device s) / qset (scull_device s)) in *.
  set (sp := (x / quantum (scull_device s)) mod qset (scull_device s)) in *.
  pose proof (Z.mod_pos_bound (x / quantum (scull_device s)) (qset (scull_device s)) H2) as Hj. fold sp in Hj.
  unfold scull_read, get_dev. wgo. rewrite u64_small by lia. unfold read_result.
  destruct (Z.leb_spec (size (scull_device s)) x) as [Hsz|Hsz].
  { by wgo. }
  rewrite (u64_small (x + count)), (u64_small (size _ - x)) by lia.
  set (n1 := if _ <? _ then size (scull_device s) - x else count).
  assert (Hn1 : n1 = Z.min count (size (scull_device s) - x)).
  { unfold n1. destruct (Z.ltb_spec (size (scull_device s)) (x + count)); lia. }
  wstep. wcall locate_run; [done..|]. intros [[? ?] ?] s0 (-> & [= -> -> ->]).
  fold item sp. wstep. wcall scull_follow_run; [done|].
  intros [i|] s1 ([k Hg%grown_quiet] & Hi); cycle 1.
  { wgo. split; [done|]. left. split_and!; auto. }
  destruct Hi as [-> Hi]. pose proof (qt_shape _ _ Hg Hsh) as [Hn Hl]. wgo.
  destruct (lookup_lt_is_Some_2 _ _ Hi) as [node Hnode]. rewrite Hnode. cbn [require]. wgo.
  (* what the node says about the file *)
  assert (Hcell : forall y, y / quantum (scull_device s) = x / quantum (scull_device s) ->
    cell (scull_device s) y = arr ← data node; b ← mjoin (arr !! Z.to_nat sp);
                              b !! Z.to_nat (y mod quantum (scull_device s))).
  { intros y Hy. rewrite <- (qt_cell _ _ Hg). unfold cell, byte_at.
    rewrite (qt_quantum _ _ Hg), (qt_qset _ _ Hg), Hy. fold item sp. by rewrite Hnode. }
  pose proof (Hn node (list_elem_of_lookup_2 _ _ _ Hnode)) as Hok.
  destruct (data node) as [arr|] eqn:Harr; cycle 1.
  { wgo. split; [done|]. left. split_and!; try done. left. by rewrite Hcell. }
  destruct (Hok arr Harr) as [Hlen Hblk]. wstep. unfold index. rewrite (proj2 (Z.ltb_ge _ _)) by lia.
  destruct (lookup_lt_is_Some_2 arr (Z.to_nat sp)) as [q Hq]; [rewrite Hlen, (qt_qset _ _ Hg); lia|].
  simpl in Hcell. rewrite Hq in Hcell |- *. cbn [require]. wgo. destruct q as [b|]; cycle 1.
  { wgo. split; [done|]. left. split_and!; try done. left. by rewrite Hcell. }
  pose proof (Hblk b (list_elem_of_lookup_2 _ _ _ Hq)) as Hb.
  rewrite (qt_quantum _ _ Hg) in Hb |- *. pose proof (Z.mod_pos_bound x (quantum (scull_device s)) H1) as Hm.
  assert (quantum (scull_device s) < 2 ^ 31) by nia. rewrite u64_small by lia.
  set (n := if _ <? n1 then _ else n1).
  assert (En : n = read_count (scull_device s) count x).
  { unfold n, read_count, quantum_room. rewrite <- Hn1.
    destruct (Z.ltb_spec (quantum (scull_device s) - x mod quantum (scull_device s)) n1); lia. }
  rewrite <- En. assert (Hnr : 0 <= n <= quantum_room (scull_device s) x).
  { rewrite En. unfold read_count, quantum_room. lia. }
  apply wp_if; intros Hr.
  - apply Z.ltb_lt in Hr. wstep. apply (peek_run (scull_device s) x); [done|lia|done|lia|auto|].
    intros out Hout. wgo. split; [done|]. right; left. by split_and!.
  - apply Z.ltb_ge in Hr. wstep. apply (peek_run (scull_device s) x); [done|lia|done|lia|auto|].
    intros out Hout. wgo. split; [done|]. right; right. split_and!; try done.
    rewrite s64_small; [done|]. assert (n <= size (scull_device s) - x) by (rewrite En; unfold read_count; lia). lia.
Qed.

(** [scull_write] puts up to one quantum of the user's bytes at the file
    position and moves the position and the size past them; no other byte of
    the file changes, but for the rest of a quantum that had to be allocated.
    Without memory it returns -ENOMEM and the file is what it was; with a
    buffer that cannot be read it returns -EFAULT and stores zeros for what
    could not be read. *)
Theorem scull_write_spec buf count x s :
  scull_shape s -> scull_sizes (scull_device s) -> in_range (scull_device s) x ->
  0 <= count < 2 ^ 64 -> 0 <= size (scull_device s) < 2 ^ 62 ->
  exists r pos s', scull_write buf count x s = Done ((r, pos), s') /\
    write_result buf count x s r pos s'.
Proof.
  intros H1 H2 H3 H4 H5. pose proof (scull_write_run buf count x s H1 H2 H3 H4 H5) as H.
  apply wp_done in H as ([r pos] & s' & ? & ?). eauto.
Qed.

(** [scull_read] changes no byte of the file and returns what the file holds
    from the position on, up to [count] bytes, to the end of the quantum and to
    the size; it returns 0 at the end and in a hole. *)
Theorem scull_read_spec room count x s :
  scull_shape s -> scull_sizes (scull_device s) -> in_range (scull_device s) x ->
  0 <= count < 2 ^ 62 -> 0 <= room -> 0 <= size (scull_device s) < 2 ^ 62 ->
  exists r pos out s', scull_read room count x s = Done ((r, pos, out), s') /\
    quiet s s' /\ read_result room count x s r pos out.
Proof.
  intros H1 H2 H3 H4 H5 H6. pose proof (scull_read_run room count x s H1 H2 H3 H4 H5 H6) as H.
  apply wp_done in H as ([[r pos] out] & s' & ? & ?). by exists r, pos, out, s'.
Qed.

(** ** Trimming *)

Definition freed (k : Z) s : scull_state := s <| live ::= fun z => z - k |>.

Lemma freed_freed k k' s : freed k' (freed k s) = freed (k + k') s.
Proof. unfold freed. scull_simpl s. f_equal. lia. Qed.

Lemma freed_0 s : freed 0 s = s.
Proof. unfold freed. scull_simpl s. f_equal. lia. Qed.

Lemma kfree_run p s (Q : unit -> scull_state -> Prop) :
  Q tt (freed (b2z p) s) -> wp (kfree p) Q s.
Proof.
  destruct p; unfold kfree, when, b2z; intros H; [wgo|by rewrite freed_0 in H].
  replace (s <| live ::= Z.pred |>) with (freed 1 s); [done|]. unfold freed. by scull_simpl s.
Qed.

Lemma free_quanta_run (arr : list (option block)) n i s :
  (i + n = length arr)%nat ->
  wp (free_quanta arr (Z.of_nat i) n) (fun _ s' => s' = freed (blocks_in (drop i arr)) s) s.
Proof.
  revert i s. induction n as [|n IH]; intros i s Hi; cbn [free_quanta].
  - wgo. rewrite drop_ge by lia. by rewrite freed_0.
  - destruct (lookup_lt_is_Some_2 arr i) as [q Hq]; [lia|].
    unfold index. rewrite (proj2 (Z.ltb_ge _ _)), Nat2Z.id, Hq by lia. cbn [require]. wgo.
    apply kfree_run. replace (Z.of_nat i + 1) with (Z.of_nat (S i)) by lia.
    wcall IH; [lia|]. intros _ s' ->. rewrite freed_freed, (drop_S arr q i Hq).
    unfold blocks_in. by rewrite sumZ_cons.
Qed.

Lemma trim_list_run n l s :
  (forall node arr, node ∈ l -> data node = Some arr -> length arr = Z.to_nat n) ->
  wp (trim_list n l) (fun _ s' => s' = freed (sumZ blocks l) s) s.
Proof.
  revert s. induction l as [|node l IH]; intros s Hl; cbn [trim_list].
  - wgo. by rewrite freed_0.
  - rewrite sumZ_cons. wstep. eapply wp_mono with (Q := fun _ s' => s' = freed (blocks node - 1) s).
    + unfold blocks. destruct (data node) as [arr|] eqn:Harr.
      * wstep. wcall (free_quanta_run arr (Z.to_nat n) 0); [by rewrite (Hl node arr) by (by left || done)|].
        intros _ s' ->. apply kfree_run. rewrite freed_freed. f_equal. simpl. rewrite drop_0. lia.
      * wgo. by rewrite freed_0.
    + intros [] s1 ->. wstep. apply kfree_run. wcall IH; [intros; eapply Hl; [by right|done]|].
      intros [] s2 ->. rewrite !freed_freed. f_equal. simpl. lia.
Qed.

Lemma scull_trim_run s :
  scull_shape s ->
  wp scull_trim (fun r s' => r = 0 /\ live s' = 0 /\ nr_kmalloc s' = nr_kmalloc s /\
    scull_quantum s' = scull_quantum s /\ scull_qset_param s' = scull_qset_param s /\
    scull_device s' = mk_scull_dev [] (scull_quantum s) (scull_qset_param s) 0) s.
Proof.
  intros [Hn Hl]. unfold scull_trim, get_dev, set_dev. wgo.
  wcall trim_list_run; [intros node arr Hin Harr; by destruct (Hn node Hin arr Harr)|].
  intros [] s1 ->. wgo. split_and!; try done. simpl. lia.
Qed.

(** C30: [scull_trim] frees every node, array and quantum once: whatever was
    written, no memory of the driver is left, the file is empty, and the sizes
    are those of the module parameters. *)
Theorem scull_trim_frees s :
  scull_shape s ->
  exists s', scull_trim s = Done (0, s') /\ live s' = 0 /\ scull_shape s' /\
    scull_device s' = mk_scull_dev [] (scull_quantum s) (scull_qset_param s) 0.
Proof.
  intros H%scull_trim_run. apply wp_done in H as (r & s' & He & -> & Hl & _ & _ & _ & Hd).
  exists s'. split_and!; try done. split; rewrite Hd; simpl; [|done]. by intros node ?%not_elem_of_nil.
Qed.

(** ** A file written and read back *)

(** A process that writes [buf] from position [x] on, as [cp] does. *)
Fixpoint write_all (fuel : nat) (buf : list byte) (x : Z) : M scull_state Z :=
  match fuel with
  | O => ret x
  | S fuel =>
      match buf with
      | [] => ret x
      | _ =>
          let! (r, x) := scull_write buf (Z.of_nat (length buf)) x in
          if r <? 0 then ret r else write_all fuel (drop (Z.to_nat r) buf) x
      end
  end.

(** A process that reads from position [x] to the end, as [cat] does, with a
    buffer of [count] bytes. *)
Fixpoint read_all (fuel : nat) (count x : Z) : M scull_state block :=
  match fuel with
  | O => crash OutOfFuel
  | S fuel =>
      let! (r, x, out) := scull_read count count x in
      if r <=? 0 then ret [] else
      let! rest := read_all fuel count x in
      ret (out ++ rest)
  end.

(** The file starts with [bytes] and ends there. *)
Definition holds (bytes : list byte) s : Prop :=
  scull_shape s /\ scull_sizes (scull_device s) /\ size (scull_device s) = Z.of_nat (length bytes) /\
  forall k, (k < length bytes)%nat -> cell (scull_device s) (Z.of_nat k) = Some (bytes !! k).

(** A write at the end of the file appends. *)
Lemma append_run bytes buf s :
  ~ out_of_memory -> holds bytes s -> buf <> [] -> Z.of_nat (length buf) < 2 ^ 62 ->
  in_range (scull_device s) (Z.of_nat (length bytes)) ->
  wp (scull_write buf (Z.of_nat (length buf)) (Z.of_nat (length bytes))) (fun '(r, x) s' =>
    0 < r <= Z.of_nat (length buf) /\ x = Z.of_nat (length bytes) + r /\
    quantum (scull_device s') = quantum (scull_device s) /\
    qset (scull_device s') = qset (scull_device s) /\
    holds (bytes ++ take (Z.to_nat r) buf) s') s.
Proof.
  intros Hoom (Hsh & Hd & Hsz & Hc) Hne Hlen Hx. pose proof Hd as (H1 & H2 & H3).
  assert (Hpos : (0 < length buf)%nat) by (destruct buf; [done|simpl; lia]).
  assert (Hx62 : 0 <= Z.of_nat (length bytes) < 2 ^ 62) by (destruct Hx; lia).
  wcall scull_write_run; [done..|lia|lia|]. intros [r x] s' [(_ & _ & _ & ?)|Hcp]; [done|].
  pose proof (Z.mod_pos_bound (Z.of_nat (length bytes)) (quantum (scull_device s)) H1) as Hm.
  assert (Hroom : 0 < quantum_room (scull_device s) (Z.of_nat (length bytes))) by (unfold quantum_room; lia).
  destruct Hcp as [(_ & _ & ? & _)|(-> & -> & Hn & Hz & Hst)]; [lia|].
  set (n := Z.min _ _) in *. assert (Hn0 : 0 < n) by (unfold n; lia).
  destruct Hst as (Hsh' & Hq & Hqs & Hcell).
  assert (Hw : written (scull_device s) buf (Z.of_nat (length buf)) (Z.of_nat (length bytes))
               = take (Z.to_nat n) buf).
  { unfold written. fold n. replace (Z.to_nat n - length buf)%nat with 0%nat by lia. by rewrite app_nil_r. }
  rewrite Hw in Hcell. assert (Hlt : length (take (Z.to_nat n) buf) = Z.to_nat n) by (rewrite length_take; lia).
  split_and!; [lia..|done|done|]. unfold holds. split_and!; [done| |rewrite length_app; lia|].
  - unfold scull_sizes. by rewrite Hq, Hqs.
  - intros k Hk. rewrite length_app in Hk. rewrite Hcell by lia. rewrite Hlt.
    destruct (decide (k < length bytes)%nat) as [Hkb|Hkb].
    + rewrite decide_False by lia. rewrite lookup_app_l, (Hc k Hkb) by done. simpl. by destruct (decide _).
    + rewrite decide_True by lia. rewrite lookup_app_r by lia. f_equal. f_equal. lia.
Qed.

Lemma write_all_run fuel buf bytes s :
  ~ out_of_memory -> holds bytes s -> (length buf <= fuel)%nat ->
  in_range (scull_device s) (Z.of_nat (length bytes + length buf)) ->
  wp (write_all fuel buf (Z.of_nat (length bytes))) (fun r s' =>
    r = Z.of_nat (length (bytes ++ buf)) /\ holds (bytes ++ buf) s' /\
    quantum (scull_device s') = quantum (scull_device s) /\
    qset (scull_device s') = qset (scull_device s)) s.
Proof.
  intros Hoom. revert buf bytes s. induction fuel as [|fuel IH]; intros buf bytes s Hh Hf Hx.
  { destruct buf; [|simpl in Hf; lia]. wgo. by rewrite app_nil_r. }
  cbn [write_all]. destruct buf as [|b0 buf0]; [wgo; by rewrite app_nil_r|].
  set (buf := b0 :: buf0) in *.
  assert (Hx62 : Z.of_nat (length bytes + length buf) < 2 ^ 62).
  { destruct Hx as [_ Hx], Hh as (_ & (_ & _ & ?) & _). lia. }
  wstep. wcall append_run; [done..|lia|unfold in_range in *; lia|].
  intros [r x] s1 (Hr & -> & Hq & Hqs & Hh1). rewrite (proj2 (Z.ltb_ge r 0)) by lia.
  assert (Hl : length (bytes ++ take (Z.to_nat r) buf) = (length bytes + Z.to_nat r)%nat)
    by (rewrite length_app, length_take; lia).
  replace (Z.of_nat (length bytes) + r) with (Z.of_nat (length (bytes ++ take (Z.to_nat r) buf))) by lia.
  assert (E : (bytes ++ take (Z.to_nat r) buf) ++ drop (Z.to_nat r) buf = bytes ++ buf)
    by (by rewrite <- app_assoc, take_drop).
  wcall IH; [done|rewrite length_drop; lia| |].
  - unfold in_range in *. rewrite Hq, Hqs, Hl, length_drop. lia.
  - rewrite E. intros r' s2 (-> & ? & ? & ?). split_and!; [done..|congruence|congruence].
Qed.

Lemma read_all_run fuel count bytes x s :
  ~ out_of_memory -> holds bytes s -> 0 < count < 2 ^ 62 -> (x <= length bytes)%nat ->
  in_range (scull_device s) (Z.of_nat (length bytes)) -> (length bytes - x < fuel)%nat ->
  wp (read_all fuel count (Z.of_nat x)) (fun out s' => out = map Some (drop x bytes)) s.
Proof.
  intros Hoom. revert x s. induction fuel as [|fuel IH]; intros x s Hh Hcount Hx Hrange Hf; [lia|].
  pose proof Hh as (Hsh & Hd & Hsz & Hc). pose proof Hd as (H1 & H2 & H3).
  assert (Hx62 : Z.of_nat (length bytes) < 2 ^ 62) by (destruct Hrange; lia).
  cbn [read_all]. wstep. wcall scull_read_run; [done..|unfold in_range in *; lia|lia|lia|lia|].
  intros [[r x'] out] s1 [Hq Hr]. unfold read_result in Hr. rewrite Hsz in Hr.
  destruct (Z.leb_spec (Z.of_nat (length bytes)) (Z.of_nat x)) as [Hend|Hend].
  { destruct Hr as (-> & -> & ->). wgo. by rewrite drop_ge by lia. }
  pose proof (Z.mod_pos_bound (Z.of_nat x) (quantum (scull_device s)) H1) as Hm.
  set (n := read_count (scull_device s) count (Z.of_nat x)) in *.
  assert (Hn : 0 < n <= count /\ n <= Z.of_nat (length bytes) - Z.of_nat x).
  { unfold n, read_count, quantum_room. rewrite Hsz. lia. }
  destruct Hr as [(_ & _ & _ & [Hhole|?])|[(_ & _ & ? & _)|(-> & -> & _ & Hout)]]; [|done|lia|].
  { by rewrite Hc in Hhole by lia. }
  rewrite (proj2 (Z.leb_gt n 0)) by lia. wstep.
  replace (Z.of_nat x + n) with (Z.of_nat (x + Z.to_nat n)) by lia.
  wcall (IH (x + Z.to_nat n)%nat); [|done|lia| |lia|].
  - unfold holds. destruct Hq as [Hsh' Eq Eqs Esz Ec]. split_and!; [by apply Hsh'| |congruence|].
    + unfold scull_sizes. by rewrite Eq, Eqs.
    + intros k Hk. by rewrite Ec, Hc.
  - by eapply quiet_range.
  - intros rest s2 ->. wgo. destruct Hout as [Hlen Hout].
    assert (E : out = map Some (take (Z.to_nat n) (drop x bytes))).
    { apply list_eq_same_length with (Z.to_nat n).
      - rewrite length_map, length_take, length_drop. lia.
      - lia.
      - intros k c c' Hk Hc1 Hc2. specialize (Hout (Z.of_nat k)). rewrite Nat2Z.id in Hout.
        rewrite Hout in Hc1 by lia. replace (Z.of_nat x + Z.of_nat k) with (Z.of_nat (x + k)) in Hc1 by lia.
        rewrite Hc in Hc1 by lia. change (map Some) with (fmap (M := list) (@Some byte)) in Hc2.
        rewrite list_lookup_fmap, lookup_take_lt, lookup_drop in Hc2 by lia.
        destruct (bytes !! (x + k)%nat); simplify_eq/=. done. }
    rewrite E, <- map_app. f_equal. by rewrite <- drop_drop, take_drop.
Qed.

(** C29: What [cp] writes to the device [cat] reads back: a file opened for
    writing and filled by as many calls of [scull_write] as it takes is returned
    byte for byte by the calls of [scull_read], whatever was in the device
    before and whatever the sizes of quanta and sets, as long as there is
    memory. *)
Theorem scull_roundtrip buf count fl s :
  ~ out_of_memory -> scull_shape s -> 0 < scull_quantum s -> 0 < scull_qset_param s ->
  scull_quantum s * scull_qset_param s < 2 ^ 31 ->
  Z.of_nat (length buf) < 2 ^ 31 * (scull_quantum s * scull_qset_param s) ->
  Z.land fl O_ACCMODE = O_WRONLY -> 0 < count < 2 ^ 62 ->
  exists s1 s2,
    (do! scull_open fl in write_all (length buf) buf 0) s = Done (Z.of_nat (length buf), s1) /\
    read_all (S (length buf)) count 0 s1 = Done (map Some buf, s2).
Proof.
  intros Hoom Hsh H1 H2 H3 Hlen Hfl Hcount.
  enough (H : wp (do! scull_open fl in write_all (length buf) buf 0) (fun r s1 =>
    r = Z.of_nat (length buf) /\ wp (read_all (S (length buf)) count 0)
      (fun out _ => out = map Some buf) s1) s).
  { apply wp_done in H as (r & s1 & He & -> & (out & s2 & He' & ->)%wp_done). by exists s1, s2. }
  unfold scull_open. rewrite Hfl, Z.eqb_refl. wgo. wcall scull_trim_run; [done|].
  intros r s0 (_ & Hl & _ & Eq & Eqs & Hd). wgo.
  assert (Hh : holds [] s0).
  { unfold holds, scull_shape, scull_sizes. rewrite Hd. simpl. split_and!; try done; [|lia].
    by intros node ?%not_elem_of_nil. }
  wcall (write_all_run (length buf) buf []); [done|done|lia|unfold in_range; rewrite Hd; simpl; lia|].
  intros r1 s1 (-> & Hh1 & Eq1 & Eqs1). simpl in *. split; [done|].
  wcall (read_all_run (S (length buf)) count buf 0); [done|done|done|lia| |lia|done].
  unfold in_range. rewrite Eq1, Eqs1, Hd. simpl. lia.
Qed.

(** A device that was never opened for writing only has no sizes: a process
    that opens it for reading and writing and writes makes the kernel divide by
    zero. *)
Theorem scull_unopened_write_crashes fl buf count x s :
  scull_device s = scull_device scull_loaded -> Z.land fl O_ACCMODE <> O_WRONLY ->
  (do! scull_open fl in scull_write buf count x) s = Crash DivByZero.
Proof.
  intros Hs Hfl%Z.eqb_neq. unfold scull_open, bind. rewrite Hfl. simpl.
  unfold scull_write, locate, get_dev, quot, bind, gets. by rewrite Hs.
Qed.
End Calls.

(** ** Concrete instances *)

Module Example.
#[local] Instance plenty : Kmalloc := fun _ _ => true.

Lemma plenty_of_memory : ~ out_of_memory.
Proof. by intros (? & ? & ?). Qed.

(** A device opened for writing, with two sets of two quanta of four bytes. *)
Definition small : scull_state :=
  mk_scull_state (mk_scull_dev [] 4 2 0) 4 2 0 0.

Lemma small_ok : scull_shape small /\ scull_sizes (scull_device small).
Proof. split; [split; [by intros node ?%not_elem_of_nil|done]|done]. Qed.

Lemma scull_roundtrip_witness :
  exists s1 s2, (do! scull_open O_WRONLY in write_all 6 [x61; x62; x63; x64; x65; x66] 0) small = Done (6, s1) /\
    read_all 7 3 0 s1 = Done (map Some [x61; x62; x63; x64; x65; x66], s2).
Proof.
  apply (scull_roundtrip [x61; x62; x63; x64; x65; x66] 3 O_WRONLY small); try (by vm_compute).
  - apply plenty_of_memory.
  - apply small_ok.
Defined.

(** Three bytes fit into the quantum of position 5, of four bytes offered. *)
Lemma scull_write_spec_witness :
  exists s', scull_write [x61; x62; x63; x64] 4 5 small = Done ((3, 8), s') /\
    cell (scull_device s') 6 = Some (Some x62) /\ cell (scull_device s') 4 = Some None.
Proof.
  destruct (scull_write_spec [x61; x62; x63; x64] 4 5 small) as (r & pos & s' & He & Hr); try (by vm_compute).
  { apply small_ok. }
  exists s'. destruct Hr as [(_ & _ & _ & ?)|[(_ & _ & ? & _)|(-> & -> & _ & _ & Hst)]].
  - by destruct plenty_of_memory.
  - exfalso. by vm_compute in H.
  - split; [exact He|]. destruct Hst as (_ & _ & _ & Hc). rewrite !Hc by lia. by vm_compute.
Defined.

Definition filled : scull_state :=
  match scull_write [x61; x62; x63; x64] 4 5 small with Done (_, s') => s' | Crash _ => small end.

Lemma filled_ok : scull_shape filled /\ size (scull_device filled) = 8.
Proof.
  split; [|by vm_compute]. split; [|by vm_compute].
  intros node Hin arr Harr. vm_compute in Hin. apply list_elem_of_singleton in Hin as ->.
  vm_compute in Harr. simplify_eq. split; [done|].
  intros b [E|[E|E%not_elem_of_nil]%elem_of_cons]%elem_of_cons; by simplify_eq.
Qed.

(** The byte at position 4 was never written. *)
Lemma scull_read_spec_witness :
  exists s', scull_read 10 2 4 filled = Done ((2, 6, [None; Some x61]), s') /\ quiet filled s'.
Proof.
  destruct (scull_read_spec 10 2 4 filled) as (r & pos & out & s' & He & Hq & _); try (by vm_compute).
  { apply filled_ok. }
  exists s'. split; [|exact Hq]. rewrite He. vm_compute in He. by simplify_eq.
Defined.

Lemma scull_trim_frees_witness :
  exists s', scull_trim filled = Done (0, s') /\ live filled = 3 /\ live s' = 0.
Proof.
  destruct (scull_trim_frees filled) as (s' & He & Hl & _); [apply filled_ok|].
  exists s'. split_and!; [exact He|by vm_compute|exact Hl].
Defined.

(** [O_RDWR] *)
Lemma scull_unopened_write_crashes_witness :
  (do! scull_open 2 in scull_write [x61] 1 0) scull_loaded = Crash DivByZero.
Proof. by apply scull_unopened_write_crashes. Defined.
End Example.
