(* ===== verification/CharDevs.v ===== *)
(** * Loading and unloading the character drivers

    [myfirst.c], [mynull.c], [hellodev.c], [devnum.c] and the module functions
    of [scull.c] register a device number, a class, a device and a [cdev], and
    unregister what they have when a step fails.  The kernel's answers are a
    parameter; what a driver does is the sequence of its calls. *)

From S2P Require Import Prelude Sched.
From Stdlib Require Import Strings.Byte.

(** ** The kernel's interface *)

(** What a driver holds. *)
Inductive resource : Type := Region | DevClass | Device | Cdev.

#[global] Instance resource_eq_dec : EqDecision resource.
Proof. solve_decision. Defined.

Inductive call : Type :=
| call_alloc_chrdev_region | call_register_chrdev_region | call_class_create
| call_device_create | call_cdev_add
| call_unregister_chrdev_region | call_class_destroy | call_device_destroy | call_cdev_del.

(** The calls so far and their results, the last one first, and the number that
    [alloc_chrdev_region] stored in [dev], if any. *)
Record driver : Type := mk_driver {
  calls : list (call * Z);
  major : Z
}.

Definition eta_driver (r : driver) : driver := mk_driver (calls r) (major r).
#[export] Instance calls_field : Field calls. Proof. solve_field eta_driver. Defined.
#[export] Instance major_field : Field major. Proof. solve_field eta_driver. Defined.

(** What the kernel answers to a call, after others: an error code or a pointer,
    and the allocated major number. *)
Class Kernel : Type := {
  answer : list (call * Z) -> call -> Z;
  new_major : list (call * Z) -> Z
}.

(** [IS_ERR] of the 64-bit pointer whose value, as a [long], is [z]. *)
Definition IS_ERR (z : Z) : bool := (-4095 <=? z) && (z <? 0).

Section Drivers.
Context `{Hkernel : Kernel}.

Definition ask (c : call) : M driver Z :=
  let! h := gets calls in
  let r := answer h c in
  do! modify (fun s => s <| calls := (c, r) :: h |>) in
  ret r.

(** A call that returns nothing. *)
Definition tell (c : call) : M driver unit :=
  let! _ := ask c in ret tt.

(** ** [mynull.c], [myfirst.c] and [scull.c] *)

(** The three module functions are the same but for the name of the device. *)
Definition chrdev_init : M driver Z :=
  let! r := ask call_alloc_chrdev_region in
  if r <? 0 then ret r else
  let! cl := ask call_class_create in
  if IS_ERR cl then
    do! tell call_unregister_chrdev_region in
    ret cl
  else
  let! device := ask call_device_create in
  if IS_ERR device then
    do! tell call_class_destroy in
    do! tell call_unregister_chrdev_region in
    ret device
  else
  let! r := ask call_cdev_add in
  if r <? 0 then
    do! tell call_device_destroy in
    do! tell call_class_destroy in
    do! tell call_unregister_chrdev_region in
    ret r
  else ret 0.

Definition chrdev_exit : M driver unit :=
  do! tell call_cdev_del in
  do! tell call_device_destroy in
  do! tell call_class_destroy in
  tell call_unregister_chrdev_region.

Definition mynull_init : M driver Z := chrdev_init.
Definition mynull_exit : M driver unit := chrdev_exit.
Definition myfirst_init : M driver Z := chrdev_init.
Definition myfirst_exit : M driver unit := chrdev_exit.
Definition scull_init : M driver Z := chrdev_init.

(** [scull_exit] after its call of [Scull.scull_trim]. *)
Definition scull_unregister : M driver unit := chrdev_exit.

(** ** [hellodev.c] and [devnum.c] *)

(** Registering the numbers; [major] is a module parameter. *)
Definition register_number : M driver Z :=
  let! m := gets major in
  if 0 <? m then ask call_register_chrdev_region
  else
    let! h := gets calls in
    let! r := ask call_alloc_chrdev_region in
    do! modify (fun s => s <| major := new_major h |>) in
    ret r.

Definition hellodev_init : M driver Z :=
  let! r := register_number in
  if negb (r =? 0) then ret r else
  let! cl := ask call_class_create in
  if IS_ERR cl then
    do! tell call_unregister_chrdev_region in
    ret cl
  else
  let! device := ask call_device_create in
  if IS_ERR device then
    do! tell call_class_destroy in
    do! tell call_unregister_chrdev_region in
    ret device
  else ret 0.

Definition hellodev_exit : M driver unit :=
  do! tell call_device_destroy in
  do! tell call_class_destroy in
  tell call_unregister_chrdev_region.

Definition devnum_init : M driver Z := register_number.
Definition devnum_exit : M driver unit := tell call_unregister_chrdev_region.
End Drivers.

(** ** [mynull.c]: the operations *)

(** The results are the return value and, for [read], the bytes stored at the
    user's buffer. *)
Definition mynull_open : Z := 0.
Definition mynull_release : Z := 0.
Definition mynull_read (count f_pos : Z) : Z := 0.
Definition mynull_write (count f_pos : Z) : Z := count.

(** ** [myfirst.c]: the operations

    The device keeps one byte.  [room] is the number of bytes that can be
    written at the user's buffer, [buf] the bytes that can be read there. *)

Definition myfirst_open : Z := 0.
Definition myfirst_release : Z := 0.

(** The return value, the new [*f_pos] and the bytes stored at the buffer. *)
Definition myfirst_read (room count f_pos : Z) : M byte (Z * Z * list byte) :=
  let! first := gets (fun b => b) in
  if f_pos =? 0 then
    if room <? 1 then ret (- EFAULT, f_pos, [])
    else ret (1, f_pos + 1, [first])
  else ret (0, f_pos, []).

(** A byte that cannot be read is cleared by [copy_from_user]. *)
Definition myfirst_write (buf : list byte) (count f_pos : Z) : M byte Z :=
  match buf with
  | [] => do! modify (fun _ => x00) in ret (- EFAULT)
  | b :: _ => do! modify (fun _ => b) in ret count
  end.

(** Neither looks at [count]: a read of 0 bytes stores one and returns 1, and a
    write of many keeps the first one and reports all of them written. *)
Lemma myfirst_ignores_count b0 b buf n :
  myfirst_read 1 0 0 b0 = Done ((1, 1, [b0]), b0) /\
  myfirst_write (b :: buf) n 0 b0 = Done (n, b).
Proof. done. Qed.

(** ** What a driver holds *)

(** A call that succeeds acquires, and the other calls release. *)
Definition acquires (c : call) (r : Z) : option resource :=
  match c with
  | call_alloc_chrdev_region | call_register_chrdev_region => if r <? 0 then None else Some Region
  | call_class_create => if IS_ERR r then None else Some DevClass
  | call_device_create => if IS_ERR r then None else Some Device
  | call_cdev_add => if r <? 0 then None else Some Cdev
  | _ => None
  end.

Definition releases (c : call) : option resource :=
  match c with
  | call_unregister_chrdev_region => Some Region
  | call_class_destroy => Some DevClass
  | call_device_destroy => Some Device
  | call_cdev_del => Some Cdev
  | _ => None
  end.

(** The stack of what is held after the calls; [None] if something was released
    that was not held or not the last one acquired. *)
Fixpoint held (h : list (call * Z)) : option (list resource) :=
  match h with
  | [] => Some []
  | (c, r) :: h =>
      st ← held h;
      match releases c with
      | Some x =>
          match st with
          | y :: st => if decide (x = y) then Some st else None
          | [] => None
          end
      | None => Some (match acquires c r with Some x => x :: st | None => st end)
      end
  end.

Section HeldFacts.
Context `{Hkernel : Kernel}.

(** The number of a region is 0 or an error, as [register_chrdev_region] and
    [alloc_chrdev_region] document. *)
Definition documented : Prop :=
  forall h, answer h call_register_chrdev_region <= 0 /\ answer h call_alloc_chrdev_region <= 0.
End HeldFacts.

(** Loading succeeds and unloading then releases everything, or loading fails
    with an error and nothing is held. *)
Definition loads `{Kernel} (init : M driver Z) (exit : M driver unit) (m : Z) : Prop :=
  exists r d, init (mk_driver [] m) = Done (r, d) /\
    if r =? 0 then
      (exists x st, held (calls d) = Some (x :: st)) /\
      exists d', exit d = Done (tt, d') /\ held (calls d') = Some []
    else r < 0 /\ held (calls d) = Some [].

(** The module functions of the five drivers. *)
Definition module_functions `{Kernel} : list (M driver Z * M driver unit) :=
  [(mynull_init, mynull_exit); (myfirst_init, myfirst_exit); (scull_init, scull_unregister);
   (hellodev_init, hellodev_exit); (devnum_init, devnum_exit)].

Section Loading.
Context `{Hkernel : Kernel}.
Implicit Types d : driver.

Definition holds (st : list resource) d : Prop := held (calls d) = Some st.

Lemma ask_run c st d (Q : Z -> driver -> Prop) :
  holds st d -> releases c = None ->
  (forall d', holds (match acquires c (answer (calls d) c) with Some x => x :: st | None => st end) d' ->
     Q (answer (calls d) c) d') -> wp (ask c) Q d.
Proof.
  intros Hh Hc HQ. unfold ask. wgo. apply HQ. unfold holds. simpl. unfold holds in Hh. rewrite Hh, Hc. done.
Qed.

Lemma tell_run c x st d (Q : unit -> driver -> Prop) :
  holds (x :: st) d -> releases c = Some x -> (forall d', holds st d' -> Q tt d') -> wp (tell c) Q d.
Proof.
  intros Hh Hc HQ. unfold tell, ask. wgo. apply HQ. unfold holds in *. simpl. rewrite Hh, Hc. simpl.
  by rewrite decide_True.
Qed.

Lemma is_err_neg z : IS_ERR z = true -> z < 0.
Proof. unfold IS_ERR. lia. Qed.

(** What [loads] asks of a module function. *)
Definition loaded (exit : M driver unit) (r : Z) d : Prop :=
  if r =? 0 then (exists x st, holds (x :: st) d) /\ wp exit (fun _ => holds []) d
  else r < 0 /\ holds [] d.

Lemma loads_run init exit m :
  (forall d, holds [] d -> wp init (loaded exit) d) -> loads init exit m.
Proof.
  intros H. specialize (H (mk_driver [] m) eq_refl). apply wp_done in H as (r & d & He & Hr).
  exists r, d. split; [done|]. unfold loaded in Hr. destruct (r =? 0); [|done].
  destruct Hr as [Hst ([] & d' & ? & ?)%wp_done]. eauto.
Qed.

Lemma loaded_err exit r d : r < 0 -> holds [] d -> loaded exit r d.
Proof. intros Hr Hd. unfold loaded. by rewrite (proj2 (Z.eqb_neq r 0)) by lia. Qed.

(** The next call acquires: case analysis on its answer. *)
Ltac acquire E :=
  wstep; eapply ask_run; [eassumption|reflexivity|]; simpl;
  match goal with |- context [if ?b then None else _] => destruct b eqn:E end; intros ? ?.
(** The next call releases the top of the stack. *)
Ltac release := eapply tell_run; [eassumption|reflexivity|]; intros ? ?.

Lemma chrdev_loads m : loads chrdev_init chrdev_exit m.
Proof.
  apply loads_run. intros d Hd. unfold chrdev_init.
  acquire E1; [wgo; apply loaded_err; [lia|done]|].
  acquire E2; [wstep; release; wgo; apply loaded_err; [by apply is_err_neg|done]|].
  acquire E3; [do 2 (wstep; release); wgo; apply loaded_err; [by apply is_err_neg|done]|].
  acquire E4; [do 3 (wstep; release); wgo; apply loaded_err; [lia|done]|].
  wgo. split; [eauto|]. unfold chrdev_exit. do 3 (wstep; release). by release.
Qed.

Lemma number_run d (Q : Z -> driver -> Prop) :
  documented -> holds [] d ->
  (forall r d', (r < 0 /\ holds [] d' \/ r = 0 /\ holds [Region] d') -> Q r d') ->
  wp register_number Q d.
Proof.
  intros Hdoc Hd HQ. unfold register_number. wgo. pose proof (Hdoc (calls d)) as [H1 H2].
  apply wp_if; intros _.
  - eapply ask_run; [done|done|]. simpl. intros d' Hd'. apply HQ.
    destruct (Z.ltb_spec (answer (calls d) call_register_chrdev_region) 0); [by left | right; split; [lia|done]].
  - wgo. eapply ask_run; [done|done|]. simpl. intros d' Hd'. wgo. apply HQ.
    destruct (Z.ltb_spec (answer (calls d) call_alloc_chrdev_region) 0); [by left | right; split; [lia|done]].
Qed.

Lemma hellodev_loads m : documented -> loads hellodev_init hellodev_exit m.
Proof.
  intros Hdoc. apply loads_run. intros d Hd. unfold hellodev_init. wstep. apply number_run; [done..|].
  intros r d1 [[Hr Hd1]|[-> Hd1]].
  { rewrite (proj2 (Z.eqb_neq r 0)) by lia. wgo. by apply loaded_err. }
  simpl. acquire E1; [wstep; release; wgo; apply loaded_err; [by apply is_err_neg|done]|].
  acquire E2; [do 2 (wstep; release); wgo; apply loaded_err; [by apply is_err_neg|done]|].
  wgo. split; [eauto|]. unfold hellodev_exit. do 2 (wstep; release). by release.
Qed.

Lemma devnum_loads m : documented -> loads devnum_init devnum_exit m.
Proof.
  intros Hdoc. apply loads_run. intros d Hd. apply number_run; [done..|].
  intros r d1 [[Hr Hd1]|[-> Hd1]]; [by apply loaded_err|]. split; [eauto|]. by release.
Qed.

(** C31: Whatever the kernel answers, loading a driver either succeeds, and
    unloading it then releases all that it registered, the last acquired first,
    or fails with a negative error and leaves nothing registered. *)
Theorem drivers_load_or_clean_up m :
  documented -> forall init exit, (init, exit) ∈ module_functions -> loads init exit m.
Proof.
  intros Hdoc init exit Hin. unfold module_functions in Hin.
  repeat (apply elem_of_cons in Hin as [[= -> ->]|Hin]); [by apply chrdev_loads..|by apply hellodev_loads
    |by apply devnum_loads|by apply not_elem_of_nil in Hin].
Qed.
End Loading.

Module Example.
(** A kernel without memory for the third call. *)
#[local] Instance third_fails : Kernel :=
  {| answer h c := match c with
       | call_alloc_chrdev_region | call_register_chrdev_region => 0
       | call_class_create => 64
       | call_device_create => - ENOMEM
       | _ => 0 end;
     new_major _ := 250 |}.

Lemma drivers_load_or_clean_up_witness : loads mynull_init mynull_exit 0.
Proof.
  apply drivers_load_or_clean_up.
  - by intros h.
  - by left.
Defined.
End Example.
