(* ===== verification/CStrings.v ===== *)
(** * Strings of C

    Characters and the functions of libc that the programs call on strings. *)

From S2P Require Import Prelude.
From Stdlib Require Import Ascii String.
From stdpp Require Import strings.

#[global] Open Scope Z_scope.

Abbreviation str := (list ascii).

Definition NUL : ascii := "000".
Definition SPACE : ascii := " ".
Definition TAB : ascii := "009".
Definition LF : ascii := "010".

(** The characters of a string constant. *)
Definition chars (s : string) : str := list_ascii_of_string s.

Fixpoint strlen (l : str) : nat :=
  match l with
  | [] => O
  | c :: l => if decide (c = NUL) then O else S (strlen l)
  end.

(** The string that a pointer points to. *)
Definition cstr (l : str) : str := take (strlen l) l.

Definition is_blank (c : ascii) : bool := bool_decide (c = SPACE) || bool_decide (c = TAB).

(** The number of leading characters with a property. *)
Fixpoint prefix_len (f : ascii -> bool) (l : str) : nat :=
  match l with
  | [] => O
  | c :: l => if f c then S (prefix_len f l) else O
  end.

(** [strtok(l, d)] for one delimiter, until it returns NULL; [cur] is the token
    that has begun. *)
Fixpoint strtok_all (d : ascii) (l cur : str) : list str :=
  match l with
  | [] => match cur with [] => [] | _ => [cur] end
  | c :: l =>
      if decide (c = d) then
        match cur with [] => strtok_all d l [] | _ => cur :: strtok_all d l [] end
      else strtok_all d l (cur ++ [c])
  end.

(** *** Numbers *)

Definition digit (c : ascii) : Z := Z.of_nat (nat_of_ascii c) - 48.
Definition is_digit (c : ascii) : bool := (0 <=? digit c) && (digit c <=? 9).

(** The leading digits, after [n]. *)
Fixpoint digits (l : str) (n : Z) : Z :=
  match l with
  | c :: l => if is_digit c then digits l (n * 10 + digit c) else n
  | [] => n
  end.

Definition is_space (c : ascii) : bool := let n := nat_of_ascii c in (n =? 32)%nat || (9 <=? n)%nat && (n <=? 13)%nat.

(** [atoi]: white space, a sign, digits. *)
Definition atoi (l : str) : Z :=
  match drop (prefix_len is_space l) l with
  | c :: l' => if decide (c = "-"%char) then - digits l' 0
               else if decide (c = "+"%char) then digits l' 0 else digits (c :: l') 0
  | [] => 0
  end.

(** [sscanf(l, "%d", ...)]: nothing without a digit. *)
Definition scan_int (l : str) : option Z :=
  let l := drop (prefix_len is_space l) l in
  let '(sign, l) := match l with
    | c :: l' => if decide (c = "-"%char) then (-1, l') else if decide (c = "+"%char) then (1, l') else (1, l)
    | [] => (1, [])
    end in
  match l with
  | c :: _ => if is_digit c then Some (s32 (sign * digits l 0)) else None
  | [] => None
  end.

(** [strtoul(l, NULL, 10)]: a negative number wraps, one that does not fit is
    the largest. *)
Definition strtoul (l : str) : Z :=
  let n := atoi l in if 2 ^ 64 <=? Z.abs n then 2 ^ 64 - 1 else u64 n.

(** ** Tokens *)

Section Tokens.
Implicit Types (l cur : str) (d c : ascii).

(** Nonempty words, each with [d] behind it. *)
Fixpoint joined d (ws : list str) : str :=
  match ws with
  | [] => []
  | w :: ws => w ++ d :: joined d ws
  end.

Definition word d (w : str) : Prop := w <> [] /\ d ∉ w.

Lemma strtok_word d w l cur : d ∉ w -> strtok_all d (w ++ l) cur = strtok_all d l (cur ++ w).
Proof.
  revert cur. induction w as [|c w IH]; intros cur Hw; simpl; [by rewrite app_nil_r|].
  rewrite decide_False by set_solver. rewrite IH by set_solver. by rewrite <- (assoc_L (++)).
Qed.

Lemma strtok_joined d ws l : Forall (word d) ws -> strtok_all d (joined d ws ++ l) [] = ws ++ strtok_all d l [].
Proof.
  induction 1 as [|w ws [Hn Hw] H IH]; simpl; [done|].
  rewrite <- (assoc_L (++)), strtok_word by done. simpl. rewrite decide_True by done.
  destruct w as [|c w]; [done|]. by rewrite IH.
Qed.
End Tokens.
