(* ===== verification/ShellParse.v ===== *)
(** * The command line of the shell ([myshell.c])

    Reading a line, splitting it at the pipe symbols, and what a child makes of
    its part of it: the argument vector and the redirections.  A [char *] into
    the line buffer is the contents of the buffer from there on, so that reads
    past the terminating NUL are what they are in the code; a read or write
    outside of a buffer crashes. *)

From S2P Require Import Prelude CStrings.
From Stdlib Require Import Ascii String.
From stdpp Require Import strings pretty.

#[global] Open Scope Z_scope.

(** ** The line and its characters *)

Definition QUOTE : ascii := "'".
Definition DQUOTE : ascii := "034".

Definition MAX_CMDLINE_LEN : nat := 1024.
Definition MAX_ARG_LEN : nat := 512.
Definition MAX_ARGC : nat := 128.
Definition PATH_MAX : nat := 128.
Definition MAX_PIPE : nat := 128.

Definition is_delim (c delim : ascii) : bool :=
  if decide (delim = c) then true
  else if decide (delim = SPACE /\ c = TAB) then true
  else false.

(** ** What a child does with its command *)

(** [dup2(open(path, ...), fd)] for the [fds]. *)
Record redirection : Type := mk_redirection {
  fds : list Z;
  path : str;
  appending : bool
}.

(** The local variables of [process_cmd], with what [process_redirection] has
    done so far. *)
Record parser : Type := mk_parser {
  pos : nat;
  arg : str;
  delim : ascii;
  argv : list str;
  redirs : list redirection
}.

Definition eta_parser (r : parser) : parser :=
  mk_parser (pos r) (arg r) (delim r) (argv r) (redirs r).
#[export] Instance pos_field : Field pos. Proof. solve_field eta_parser. Defined.
#[export] Instance arg_field : Field arg. Proof. solve_field eta_parser. Defined.
#[export] Instance delim_field : Field delim. Proof. solve_field eta_parser. Defined.
#[export] Instance argv_field : Field argv. Proof. solve_field eta_parser. Defined.
#[export] Instance redirs_field : Field redirs. Proof. solve_field eta_parser. Defined.

(** What [getpid] returns and the variable [exit_status]. *)
Class ShellVars : Type := { shell_pid : Z; exit_status : Z }.

(** Compute updates of a parser given by its fields. *)
Ltac parser_simpl :=
  unfold bind, modify, ret, upd, pos_field, arg_field, delim_field, argv_field, redirs_field;
  cbn beta iota zeta delta [pos arg delim argv redirs].

Section Parser.
Context `{Hvars : ShellVars}.
Context (cmdline : str).

(** [cmdline[i]] *)
Definition char_at (i : nat) : M parser ascii := require BadIndex (cmdline !! i).

(** [while (is_delim(cmdline[i], ' ')) i++], to the value of [i] after it. *)
Definition skip_blanks (i : nat) : M parser nat :=
  let k := (i + prefix_len is_blank (drop i cmdline))%nat in
  let! _ := char_at k in ret k.

(** The path from the first character after position [i] that is no blank to
    the next blank, and the position after it. *)
Definition get_path (i : nat) : M parser (nat * str) :=
  let! j := skip_blanks (S i) in
  let n := strlen cmdline in
  let i := if (j <? n)%nat
           then (S j + prefix_len (fun c => negb (is_delim c SPACE)) (drop (S j) (take n cmdline)))%nat
           else j in
  if (PATH_MAX <=? i - j)%nat then crash BadIndex
  else ret (i, take (i - j) (drop j cmdline)).

Definition redirect (r : redirection) : M parser unit :=
  modify (fun p => p <| redirs ::= fun l => l ++ [r] |>).

Definition process_redirection (i : nat) : M parser nat :=
  let! c := char_at i in
  if decide (c = ">"%char) then
    let! c' := char_at (S i) in
    let mode := bool_decide (c' = ">"%char) in
    let i := if mode then S i else i in
    let! (i, path) := get_path i in
    do! redirect (mk_redirection [1] path mode) in
    skip_blanks (S i)
  else
  let! amp := (if decide (c = "&"%char) then
                 let! c' := char_at (S i) in ret (bool_decide (c' = ">"%char))
               else ret false) in
  if (amp : bool) then
    let! (i, path) := get_path (S i) in
    do! redirect (mk_redirection [1; 2] path false) in
    skip_blanks (S i)
  else
  if decide (c = "<"%char) then
    let! (i, path) := get_path i in
    do! redirect (mk_redirection [0] path false) in
    skip_blanks (S i)
  else ret i.

(** [arg[j++] = c] *)
Definition add_chars (l : str) : M parser unit :=
  let! p := gets (fun p => p) in
  if (MAX_ARG_LEN <=? length (arg p) + length l)%nat then crash BadIndex
  else modify (fun p => p <| arg ::= fun a => a ++ l |>).

(** [arg[j] = '\0'; argv[argc++] = arg] *)
Definition push_arg : M parser unit :=
  let! p := gets (fun p => p) in
  if (MAX_ARGC <=? length (argv p))%nat then crash BadIndex
  else modify (fun p => p <| argv ::= fun l => l ++ [arg p] |>).

(** One iteration of the loop of [process_cmd]; [false] is [break]. *)
Definition parse_step : M parser bool :=
  let! p := gets (fun p => p) in
  let i := pos p in
  let! c := char_at i in
  if is_delim c (delim p) then
    do! (if decide (delim p = QUOTE \/ delim p = DQUOTE)
         then modify (fun p => p <| delim := SPACE |>) else ret tt) in
    do! push_arg in
    do! modify (fun p => p <| arg := [] |>) in
    let! i := skip_blanks (S i) in
    do! modify (fun p => p <| pos := i |>) in
    ret true
  else if (i =? strlen cmdline - 1)%nat then
    do! (if decide (delim p = SPACE) then add_chars [c] else ret tt) in
    do! push_arg in
    ret false
  else if (bool_decide (c = DQUOTE) || bool_decide (c = QUOTE)) && bool_decide (delim p = SPACE) then
    do! modify (fun p => p <| delim := c |>) in
    do! modify (fun p => p <| pos := S i |>) in
    ret true
  else
  let! c' := (if decide (delim p <> QUOTE /\ c = "$"%char) then char_at (S i) else ret NUL) in
  if decide (c' = "$"%char \/ c' = "?"%char) then
    do! add_chars (chars (pretty (if decide (c' = "$"%char) then shell_pid else exit_status))) in
    do! modify (fun p => p <| pos := (i + 2)%nat |>) in
    do! when (strlen cmdline <=? i + 2)%nat push_arg in
    ret true
  else
    let! tmp := process_redirection i in
    if (tmp =? i)%nat then
      do! add_chars [c] in
      do! modify (fun p => p <| pos := S i |>) in
      ret true
    else
      do! modify (fun p => p <| pos := tmp |>) in
      ret true.

(** [while (i < strlen(cmdline))] *)
Fixpoint parse_loop (fuel : nat) : M parser unit :=
  match fuel with
  | O => crash OutOfFuel
  | S fuel =>
      let! p := gets (fun p => p) in
      if (pos p <? strlen cmdline)%nat then
        let! again := parse_step in
        if again then parse_loop fuel else ret tt
      else ret tt
  end.
End Parser.

(** [process_cmd] up to its call of [execvpe]: the argument vector and the
    redirections.  Every iteration moves on, so there are no more of them than
    characters. *)
Definition process_cmd `{ShellVars} (cmdline : str) : outcome (list str * list redirection) :=
  let m :=
    let! i := skip_blanks cmdline 0 in
    do! modify (fun p => p <| pos := i |>) in
    do! parse_loop cmdline (S (strlen cmdline)) in
    let! p := gets (fun p => p) in
    if (MAX_ARGC <=? length (argv p))%nat then crash BadIndex else ret (argv p, redirs p) in
  match m (mk_parser 0 [] SPACE [] []) with
  | Done (r, _) => Done r
  | Crash f => Crash f
  end.

(** ** Reading a line *)

(** [while (cmdline[--n] == ' ' || cmdline[--n] == '\t') cmdline[n] = '\0']:
    [n] goes down once or twice per turn. *)
Fixpoint trim_trailing (n : nat) (buf : str) : outcome str :=
  match n with
  | O => Crash BadIndex
  | S n =>
      if decide (buf !! n = Some SPACE) then trim_trailing n (<[n := NUL]> buf)
      else
        match n with
        | O => Crash BadIndex
        | S n =>
            if decide (buf !! n = Some TAB) then trim_trailing n (<[n := NUL]> buf)
            else Done buf
        end
  end.

(** [input] is what [fgets] stores in the line buffer [buf], with the newline;
    [None] is the end of the input. *)
Definition get_cmd_line (input : option str) (buf : str) : outcome (Z * str) :=
  match input with
  | None => Done (-1, buf)
  | Some line =>
      let buf := line ++ NUL :: drop (S (length line)) buf in
      match strlen buf with
      | O => Crash BadIndex
      | S n =>
          let buf := <[n := NUL]> buf in
          if (prefix_len is_blank (take n buf) =? n)%nat then Done (-1, buf)
          else match trim_trailing n buf with
               | Done buf => Done (0, buf)
               | Crash f => Crash f
               end
      end
  end.

(** ** Splitting a line *)

(** The last of the first [n] characters that is no blank. *)
Fixpoint last_nonblank (n : nat) (buf : str) : option (nat * ascii) :=
  match n with
  | O => None
  | S i =>
      match buf !! i with
      | Some c => if is_blank c then last_nonblank i buf else Some (i, c)
      | None => None
      end
  end.

(** The loop over [strchr(tmp, '|')]: the part that starts at [tmp] and the
    later ones, as offsets into the line, and the line cut at the pipes. *)
Fixpoint split_pipes (fuel : nat) (buf : str) (tmp : nat) (cmdlines : list nat) : outcome (str * list nat) :=
  match fuel with
  | O => Crash OutOfFuel
  | S fuel =>
      if (MAX_PIPE <=? length cmdlines)%nat then Crash BadIndex else
      let p := (tmp + prefix_len (fun c => negb (bool_decide (c = "|"%char))) (cstr (drop tmp buf)))%nat in
      if (p <? tmp + strlen (drop tmp buf))%nat then
        let buf := <[p := NUL]> buf in
        let tmp' := (S p + prefix_len is_blank (drop (S p) buf))%nat in
        split_pipes fuel buf tmp' (cmdlines ++ [tmp])
      else Done (buf, cmdlines ++ [tmp])
  end.

(** The start of [exec_job]: whether the job is asynchronous, the line as it is
    then and the commands of the pipeline as offsets into it. *)
Definition split_job (cmdline : str) : outcome (bool * str * list nat) :=
  match strlen cmdline with
  | O => Crash BadIndex
  | n =>
      let '(async, buf) :=
        match last_nonblank n cmdline with
        | Some (i, c) => if decide (c = "&"%char) then (true, <[i := NUL]> cmdline) else (false, cmdline)
        | None => (false, cmdline)
        end in
      match split_pipes (S n) buf 0 [] with
      | Done (buf, cmdlines) => Done (async, buf, cmdlines)
      | Crash f => Crash f
      end
  end.

(** ** Internal commands *)

Inductive internal : Type :=
| cmd_exit | cmd_jobs | cmd_cd (argv : list str) | cmd_bg (argv : list str) | cmd_fg (argv : list str)
| cmd_external.

(** The command that [exec_internal_cmd] finds.  The array [cmd] has room for
    [room] characters; a call of it declares [strlen(cmdline)]. *)
Definition internal_cmd (room : nat) (cmdline : str) : outcome internal :=
  let cmd := cstr cmdline in
  if (room <? S (length cmd))%nat then Crash BadIndex else
  if decide (cmd = chars "exit" \/ cmd = chars "exit &") then Done cmd_exit else
  if decide (cmd = chars "jobs") then Done cmd_jobs else
  let argv := strtok_all SPACE cmd [] in
  if (MAX_ARG_LEN <=? length argv)%nat then Crash BadIndex else
  match argv with
  | [] => Crash NullDeref
  | a :: _ =>
      if decide (a = chars "cd") then Done (cmd_cd argv)
      else if decide (a = chars "bg") then Done (cmd_bg argv)
      else if decide (a = chars "fg") then Done (cmd_fg argv)
      else Done cmd_external
  end.

(** ** Words and quoted strings *)

Lemma strlen_text text z : NUL ∉ text -> strlen (text ++ NUL :: z) = length text.
Proof.
  induction text as [|c text IH]; intros Hn; simpl; [done|].
  rewrite decide_False by (intros ->; apply Hn; by left).
  f_equal. apply IH. intros Hin. apply Hn. by right.
Qed.

Lemma drop_lookup {A} (l : list A) i x t : drop i l = x :: t -> l !! i = Some x.
Proof. intros H. by rewrite <- (Nat.add_0_r i), <- lookup_drop, H. Qed.

Lemma drop_next {A} (l : list A) i x t : drop i l = x :: t -> drop (S i) l = t.
Proof. intros H. by rewrite <- Nat.add_1_r, <- drop_drop, H. Qed.

Lemma drop_length {A} (l : list A) i t : drop i l = t -> t <> [] -> length l = (i + length t)%nat.
Proof.
  intros <- Hne. rewrite length_drop. destruct (decide (i < length l)%nat); [lia|].
  by rewrite drop_ge in Hne by lia.
Qed.

(** What a user can type: a word, or a text in single or double quotes. *)
Inductive token : Type :=
| Word (w : str)
| Quoted (q : ascii) (w : str).

Definition special : str := [NUL; "$"%char; "<"%char; ">"%char; "&"%char].
Definition plain (c : ascii) : Prop := c ∉ SPACE :: TAB :: QUOTE :: DQUOTE :: special.
Definition quotable (q c : ascii) : Prop := c ∉ q :: special.

Definition token_ok (t : token) : Prop :=
  match t with
  | Word w => w <> [] /\ Forall plain w /\ (length w < MAX_ARG_LEN)%nat
  | Quoted q w => (q = QUOTE \/ q = DQUOTE) /\ Forall (quotable q) w /\ (length w < MAX_ARG_LEN)%nat
  end.

Definition render (t : token) : str :=
  match t with Word w => w | Quoted q w => q :: w ++ [q] end.
Definition contents (t : token) : str :=
  match t with Word w => w | Quoted _ w => w end.

(** A line: every token after some blanks, at least one but for the first. *)
Fixpoint line_of (l : list (str * token)) : str :=
  match l with
  | [] => []
  | (bs, t) :: l => bs ++ render t ++ line_of l
  end.

Definition blanks (bs : str) : Prop := Forall (fun c => is_blank c = true) bs.

Definition gap_ok (x : str * token) : Prop := x.1 <> [] /\ blanks x.1 /\ token_ok x.2.

Section Tokens.
Context `{Hvars : ShellVars} (text z : str).
Hypothesis Htext : NUL ∉ text.
Implicit Types p : parser.

Abbreviation l := (text ++ NUL :: z).

Lemma drop_text i t : drop i text = t -> t <> [] -> drop i l = t ++ NUL :: z.
Proof.
  intros Ht Hne. pose proof (drop_length _ _ _ Ht Hne). rewrite drop_app_le by lia. by rewrite Ht.
Qed.

Lemma drop_text_end i : (i = length text)%nat -> drop i l = NUL :: z.
Proof. intros ->. by rewrite drop_app_length. Qed.

(** What follows in the text from position [i] on, and in memory. *)
Definition from i t : Prop := (i + length t = length text)%nat /\ drop i text = t.

Lemma from_mem i t : from i t -> drop i l = t ++ NUL :: z.
Proof. intros [H1 H2]. rewrite drop_app_le by lia. by rewrite H2. Qed.

Lemma from_next i c t : from i (c :: t) -> from (S i) t.
Proof. intros [H1 H2]. split; [simpl in H1; lia | by apply (drop_next _ _ c)]. Qed.

Lemma from_app i a t : from i (a ++ t) -> from (i + length a) t.
Proof.
  intros [H1 H2]. rewrite length_app in H1. split; [lia|].
  by rewrite <- drop_drop, H2, drop_app_length.
Qed.

Lemma from_char i c t : from i (c :: t) -> l !! i = Some c.
Proof. intros H%from_mem. by eapply drop_lookup. Qed.

Definition starts (t : str) : Prop :=
  match t with [] => True | c :: _ => is_blank c = false end.

Lemma skip_blanks_run i bs t p :
  from i (bs ++ t) -> blanks bs -> starts t -> skip_blanks l i p = Done ((i + length bs)%nat, p).
Proof.
  intros Hf Hbs Hst. unfold skip_blanks. pose proof (from_mem _ _ Hf) as Hm. rewrite Hm.
  assert (Hp : prefix_len is_blank ((bs ++ t) ++ NUL :: z) = length bs).
  { clear Hf Hm. induction Hbs as [|c bs Hc Hbs IH]; simpl; [|by rewrite Hc, IH].
    destruct t as [|c t]; simpl in *; [done|]. by rewrite Hst. }
  rewrite Hp. apply from_app in Hf. unfold char_at, bind.
  destruct t as [|c t]; [|by rewrite (from_char _ c t)].
  pose proof (from_mem _ _ Hf) as Hm'. by rewrite (drop_lookup _ _ _ _ Hm').
Qed.

Lemma loop_step fuel p p' :
  (pos p < length text)%nat -> parse_step l p = Done (true, p') ->
  parse_loop l (S fuel) p = parse_loop l fuel p'.
Proof.
  intros Hi Hs. cbn [parse_loop]. unfold bind, gets.
  rewrite strlen_text by done. rewrite (proj2 (Nat.ltb_lt _ _) Hi). by rewrite Hs.
Qed.

Definition harmless (c : ascii) : Prop := c <> "$"%char /\ c <> "<"%char /\ c <> ">"%char /\ c <> "&"%char.

Lemma add_chars_run w i a d v r :
  (length a + length w < MAX_ARG_LEN)%nat ->
  add_chars w (mk_parser i a d v r) = Done (tt, mk_parser i (a ++ w) d v r).
Proof. intros H. unfold add_chars, bind, gets. cbn [arg]. by rewrite (proj2 (Nat.leb_gt _ _) H). Qed.

Lemma push_arg_run i a d v r :
  (length v < MAX_ARGC)%nat ->
  push_arg (mk_parser i a d v r) = Done (tt, mk_parser i a d (v ++ [a]) r).
Proof. intros H. unfold push_arg, bind, gets. cbn [argv]. by rewrite (proj2 (Nat.leb_gt _ _) H). Qed.

Lemma no_redirection i c p :
  l !! i = Some c -> harmless c -> process_redirection l i p = Done (i, p).
Proof.
  intros Hc (_ & H2 & H3 & H4). unfold process_redirection, char_at, bind. rewrite Hc. simpl.
  rewrite (decide_False (P := c = ">"%char)) by done. unfold bind.
  rewrite (decide_False (P := c = "&"%char)) by done. simpl.
  by rewrite (decide_False (P := c = "<"%char)) by done.
Qed.

Lemma ordinary_step i a d v r c t :
  from i (c :: t) -> t <> [] -> is_delim c d = false ->
  (bool_decide (c = DQUOTE) || bool_decide (c = QUOTE)) && bool_decide (d = SPACE) = false ->
  harmless c -> (length a + 1 < MAX_ARG_LEN)%nat ->
  parse_step l (mk_parser i a d v r) = Done (true, mk_parser (S i) (a ++ [c]) d v r).
Proof.
  intros Hf Ht Hd Hq (H1 & H2 & H3 & H4) Ha. pose proof (from_char _ _ _ Hf) as Hc.
  destruct Hf as [Hlen _]. assert (length t <> 0)%nat by (by destruct t). simpl in Hlen.
  unfold parse_step, char_at. run. rewrite Hc. run. rewrite Hd, strlen_text by done.
  rewrite (proj2 (Nat.eqb_neq i (length text - 1))) by lia. rewrite Hq.
  rewrite decide_False by tauto.
  run. unfold bind at 1. rewrite (no_redirection i c) by done.
  rewrite Nat.eqb_refl. unfold bind. by rewrite add_chars_run.
Qed.

(** The characters of a word or of a quoted text, before the last character of
    the line. *)
Lemma ordinary_loop fuel i a d v r w t :
  from i (w ++ t) -> t <> [] ->
  Forall (fun c => is_delim c d = false /\ harmless c /\
    (bool_decide (c = DQUOTE) || bool_decide (c = QUOTE)) && bool_decide (d = SPACE) = false) w ->
  (length a + length w < MAX_ARG_LEN)%nat ->
  parse_loop l (length w + fuel) (mk_parser i a d v r)
  = parse_loop l fuel (mk_parser (i + length w) (a ++ w) d v r).
Proof.
  intros Hf Ht Hw. revert i a Hf. induction Hw as [|c w (H1 & H2 & H3) Hw IH]; intros i a Hf Ha.
  { simpl. by rewrite Nat.add_0_r, app_nil_r. }
  simpl in Hf, Ha. cbn [length Nat.add]. rewrite (loop_step _ _ (mk_parser (S i) (a ++ [c]) d v r)).
  - rewrite IH; [|by apply from_next in Hf|rewrite length_app; simpl; lia].
    rewrite <- app_assoc. do 2 f_equal. lia.
  - destruct Hf as [Hf _]. simpl in *. lia.
  - apply (ordinary_step _ _ _ _ _ c (w ++ t)); try done; [by destruct w|lia].
Qed.

Definition after_quote (d : ascii) : ascii := if decide (d = QUOTE \/ d = DQUOTE) then SPACE else d.

(** The end of an argument: the delimiter, some blanks and the next token. *)
Lemma delim_step i a d v r c bs t :
  from i (c :: bs ++ t) -> blanks bs -> starts t -> is_delim c d = true ->
  (length v < MAX_ARGC)%nat ->
  parse_step l (mk_parser i a d v r)
  = Done (true, mk_parser (S i + length bs) [] (after_quote d) (v ++ [a]) r).
Proof.
  intros Hf Hbs Hst Hd Hv. pose proof (from_char _ _ _ Hf) as Hc.
  unfold parse_step, char_at. run. rewrite Hc. run. rewrite Hd. unfold after_quote.
  destruct (decide (d = QUOTE \/ d = DQUOTE)); parser_simpl; rewrite push_arg_run by done; parser_simpl;
    by rewrite (skip_blanks_run _ bs t) by (by eapply from_next || done).
Qed.

(** The last character of a line that ends with a word. *)
Lemma last_step i a v r c :
  from i [c] -> is_delim c SPACE = false -> (length v < MAX_ARGC)%nat ->
  (length a + 1 < MAX_ARG_LEN)%nat ->
  parse_step l (mk_parser i a SPACE v r) = Done (false, mk_parser i (a ++ [c]) SPACE (v ++ [a ++ [c]]) r).
Proof.
  intros Hf Hd Hv Ha. pose proof (from_char _ _ _ Hf) as Hc. destruct Hf as [Hlen _]. simpl in Hlen.
  unfold parse_step, char_at. run. rewrite Hc. run. rewrite Hd, strlen_text by done.
  rewrite (proj2 (Nat.eqb_eq i (length text - 1))) by lia. run.
  unfold bind. rewrite add_chars_run by done. by rewrite push_arg_run.
Qed.

Lemma open_step i v r q t :
  from i (q :: t) -> t <> [] -> q = QUOTE \/ q = DQUOTE ->
  parse_step l (mk_parser i [] SPACE v r) = Done (true, mk_parser (S i) [] q v r).
Proof.
  intros Hf Ht Hq. pose proof (from_char _ _ _ Hf) as Hc. destruct Hf as [Hlen _].
  assert (length t <> 0)%nat by (by destruct t). simpl in Hlen.
  unfold parse_step, char_at. run. rewrite Hc. run.
  assert (Hd : is_delim q SPACE = false) by (by destruct Hq as [-> | ->]).
  rewrite Hd, strlen_text by done. rewrite (proj2 (Nat.eqb_neq i (length text - 1))) by lia.
  by destruct Hq as [-> | ->].
Qed.

Lemma plain_ordinary c :
  plain c -> is_delim c SPACE = false /\ harmless c /\
    (bool_decide (c = DQUOTE) || bool_decide (c = QUOTE)) && bool_decide (SPACE = SPACE) = false.
Proof.
  unfold plain, special, is_delim, harmless. rewrite !not_elem_of_cons.
  intros (H1 & H2 & H3 & H4 & H5 & H6 & H7 & H8 & H9 & _).
  rewrite (decide_False (P := SPACE = c)), decide_False by tauto || congruence.
  rewrite (bool_decide_eq_false_2 (c = DQUOTE)), (bool_decide_eq_false_2 (c = QUOTE)) by done.
  by split_and!.
Qed.

Lemma quotable_ordinary q c :
  q = QUOTE \/ q = DQUOTE -> quotable q c -> is_delim c q = false /\ harmless c /\
    (bool_decide (c = DQUOTE) || bool_decide (c = QUOTE)) && bool_decide (q = SPACE) = false.
Proof.
  unfold quotable, special, is_delim, harmless. rewrite !not_elem_of_cons.
  intros Hq (H1 & H2 & H3 & H4 & H5 & H6 & _).
  assert (Hs : q <> SPACE) by (by destruct Hq as [-> | ->]).
  rewrite (decide_False (P := q = c)), decide_False by tauto || congruence.
  by rewrite (bool_decide_eq_false_2 (q = SPACE)), andb_false_r.
Qed.

(** A token that is followed by another one, or is quoted. *)
Lemma token_steps i v r t bs rest :
  from i (render t ++ bs ++ rest) -> token_ok t -> blanks bs -> starts rest ->
  match t with Word _ => bs <> [] | Quoted _ _ => True end -> (length v < MAX_ARGC)%nat ->
  exists n, (n <= length (render t ++ bs))%nat /\
    forall fuel, parse_loop l (n + fuel) (mk_parser i [] SPACE v r)
    = parse_loop l fuel (mk_parser (i + length (render t ++ bs)) [] SPACE (v ++ [contents t]) r).
Proof.
  intros Hf Ht Hbs Hst Hne Hv. destruct t as [w|q w]; simpl in *.
  - destruct Ht as (_ & Hw & Hlen). destruct bs as [|b bs]; [done|]. apply Forall_cons in Hbs as [Hb Hbs].
    exists (length w + 1)%nat. split; [rewrite length_app; simpl; lia|]. intros fuel. rewrite <- Nat.add_assoc.
    rewrite (ordinary_loop _ i [] SPACE v r w ((b :: bs) ++ rest)); [|done|done| |simpl; lia].
    2: { eapply Forall_impl; [exact Hw|]. apply plain_ordinary. }
    apply from_app in Hf. cbn [Nat.add app].
    rewrite (loop_step _ _ (mk_parser (S (i + length w) + length bs) [] (after_quote SPACE) (v ++ [w]) r)).
    + do 2 f_equal. rewrite length_app. simpl. lia.
    + destruct Hf as [Hf _]. simpl in *. lia.
    + apply (delim_step _ _ _ _ _ b bs rest); try done. clear -Hb. unfold is_blank in Hb.
      apply orb_true_iff in Hb as [->%bool_decide_eq_true | ->%bool_decide_eq_true]; done.
  - destruct Ht as (Hq & Hw & Hlen).
    exists (length w + 2)%nat. split; [rewrite length_app; simpl; rewrite length_app; simpl; lia|].
    intros fuel. replace (length w + 2 + fuel)%nat with (S (length w + S fuel)) by lia.
    rewrite <- app_assoc in Hf. pose proof Hf as [Hpos _]. simpl in Hpos. rewrite !length_app in Hpos. simpl in Hpos.
    rewrite (loop_step _ _ (mk_parser (S i) [] q v r)); [|simpl; lia|].
    2: { apply (open_step _ _ _ _ (w ++ [q] ++ bs ++ rest)); [done|by destruct w|done]. }
    apply from_next in Hf.
    rewrite (ordinary_loop _ (S i) [] q v r w ([q] ++ bs ++ rest)); [|done|done| |simpl; lia].
    2: { eapply Forall_impl; [exact Hw|]. intros c. by apply quotable_ordinary. }
    apply from_app in Hf. cbn [app] in Hf |- *.
    rewrite (loop_step _ _ (mk_parser (S (S i + length w) + length bs) [] (after_quote q) (v ++ [w]) r)).
    + assert (Hd : after_quote q = SPACE) by (unfold after_quote; by rewrite decide_True).
      rewrite Hd. do 2 f_equal. rewrite !length_app. simpl. lia.
    + simpl. lia.
    + apply (delim_step _ _ _ _ _ q bs rest); try done. unfold is_delim. by rewrite decide_True.
Qed.

Lemma token_run fuel i v r t bs rest :
  from i (render t ++ bs ++ rest) -> token_ok t -> blanks bs -> starts rest ->
  match t with Word _ => bs <> [] | Quoted _ _ => True end -> (length v < MAX_ARGC)%nat ->
  (length (render t ++ bs) <= fuel)%nat ->
  exists fuel', (fuel - length (render t ++ bs) <= fuel')%nat /\
    parse_loop l fuel (mk_parser i [] SPACE v r)
    = parse_loop l fuel' (mk_parser (i + length (render t ++ bs)) [] SPACE (v ++ [contents t]) r).
Proof.
  intros Hf Ht Hbs Hst Hne Hv Hfuel.
  destruct (token_steps i v r t bs rest) as (n & Hn & He); try done.
  exists (fuel - n)%nat. split; [lia|]. rewrite <- He. do 2 f_equal. lia.
Qed.

(** A word at the end of the line. *)
Lemma last_word_run fuel i v r w :
  from i w -> token_ok (Word w) -> (length v < MAX_ARGC)%nat -> (length w <= fuel)%nat ->
  exists p, parse_loop l fuel (mk_parser i [] SPACE v r) = Done (tt, p) /\
    argv p = v ++ [w] /\ redirs p = r.
Proof.
  intros Hf (Hne & Hw & Hlen) Hv Hfuel. destruct w as [|c w _] using rev_ind; [done|].
  rewrite length_app in Hlen, Hfuel. simpl in Hlen, Hfuel. apply Forall_app in Hw as [Hw Hc].
  replace fuel with (length w + S (fuel - length w - 1))%nat by lia.
  rewrite (ordinary_loop _ i [] SPACE v r w [c]); [|done|done| |simpl; lia].
  2: { eapply Forall_impl; [exact Hw|]. apply plain_ordinary. }
  apply from_app in Hf. pose proof Hf as [Hpos _]. simpl in Hpos.
  exists (mk_parser (i + length w) (([] ++ w) ++ [c]) SPACE (v ++ [([] ++ w) ++ [c]]) r).
  split; [|done]. cbn [parse_loop]. unfold bind at 1, gets. rewrite strlen_text by done. cbn [pos].
  rewrite (proj2 (Nat.ltb_lt _ _)) by lia. unfold bind. rewrite (last_step _ _ _ _ c); try done.
  by apply plain_ordinary, (Forall_inv Hc).
Qed.

Lemma render_starts t rest : token_ok t -> starts (render t ++ rest).
Proof.
  destruct t as [[|c w]|q w]; simpl.
  - by intros [? _].
  - intros (_ & Hw & _). apply Forall_inv in Hw. unfold is_blank.
    apply orb_false_iff. split; apply bool_decide_eq_false; intros ->; apply Hw;
      unfold plain, special; rewrite !elem_of_cons; tauto.
  - by intros ([-> | ->] & _).
Qed.

Lemma tokens_run toks t i v r fuel :
  from i (render t ++ line_of toks) -> token_ok t -> Forall gap_ok toks ->
  (length v + S (length toks) < MAX_ARGC)%nat -> (length (render t ++ line_of toks) < fuel)%nat ->
  exists p, parse_loop l fuel (mk_parser i [] SPACE v r) = Done (tt, p) /\
    argv p = v ++ map contents (t :: toks.*2) /\ redirs p = r.
Proof.
  revert t i v fuel. induction toks as [|[bs t'] toks IH]; intros t i v fuel Hf Ht Htoks Hv Hfuel.
  - cbn [line_of] in *. simpl in Hv. destruct t as [w|q w].
    + simpl in *. rewrite app_nil_r in *. apply last_word_run; try done; simpl in *; lia.
    + destruct (token_run fuel i v r (Quoted q w) [] []) as (fuel' & Hf' & He); try done; [by constructor|lia|lia|].
      rewrite He. exists (mk_parser (i + length (render (Quoted q w) ++ [])) [] SPACE (v ++ [w]) r).
      split; [|done]. destruct fuel' as [|fuel']; [lia|]. cbn [parse_loop].
      unfold bind, gets. rewrite strlen_text by done. cbn [pos].
      rewrite (proj2 (Nat.ltb_ge _ _)); [done|]. apply from_app in Hf as [Hlen _].
      rewrite app_nil_r. cbn [length] in Hlen. lia.
  - apply Forall_cons in Htoks as [(Hne & Hbs & Ht') Htoks]. simpl in Hne, Hbs, Ht', Hv. cbn [line_of] in *.
    pose proof (render_starts t' (line_of toks) Ht') as Hst. rewrite !length_app in Hfuel.
    destruct (token_run fuel i v r t bs (render t' ++ line_of toks)) as (fuel' & Hf' & He);
      [done|done|done|done|by destruct t|lia|rewrite length_app; lia|].
    rewrite He. destruct (IH t' (i + length (render t ++ bs))%nat (v ++ [contents t]) fuel') as (p & Hp & Hv' & Hr);
      [|done|done|rewrite length_app; simpl; lia| |].
    + rewrite app_assoc in Hf. by apply from_app in Hf.
    + rewrite length_app in Hf' |- *. lia.
    + exists p. split; [done|]. split; [|done]. rewrite Hv', <- app_assoc. done.
Qed.
End Tokens.

Lemma token_no_nul t : token_ok t -> NUL ∉ render t.
Proof.
  assert (Hpl : forall P w, (P = plain \/ exists q, P = quotable q) -> Forall P w -> NUL ∉ w).
  { intros P w HP Hw Hin. rewrite Forall_forall in Hw. specialize (Hw NUL Hin).
    destruct HP as [-> | [q ->]]; apply Hw; unfold plain, quotable, special; rewrite !elem_of_cons; tauto. }
  destruct t as [w|q w]; simpl.
  - intros (_ & Hw & _). by apply (Hpl plain); [left|].
  - intros (Hq & Hw & _) [<-|[Hin|[<-|Hin%not_elem_of_nil]%elem_of_cons]%elem_of_app]%elem_of_cons; try done;
      [by destruct Hq| |by destruct Hq].
    by apply (Hpl (quotable q) w); [right; eauto|..].
Qed.

Lemma blanks_no_nul bs : blanks bs -> NUL ∉ bs.
Proof. intros Hbs Hin. unfold blanks in Hbs. rewrite Forall_forall in Hbs. by specialize (Hbs _ Hin). Qed.

Lemma line_no_nul toks : Forall gap_ok toks -> NUL ∉ line_of toks.
Proof.
  induction 1 as [|[bs t] toks (_ & Hbs & Ht) _ IH]; [apply not_elem_of_nil|]. simpl in *.
  rewrite !not_elem_of_app. split_and!; [by apply blanks_no_nul|by apply token_no_nul|done].
Qed.

(** C34: A child runs what the user typed: for a line of words and of texts in
    single or double quotes, with any blanks before and between them,
    [process_cmd] passes the words and the texts without their quotes to
    [execvpe], and redirects nothing. *)
Theorem process_cmd_words `{ShellVars} bs t toks z :
  blanks bs -> token_ok t -> Forall gap_ok toks -> (S (length toks) < MAX_ARGC)%nat ->
  process_cmd ((bs ++ render t ++ line_of toks) ++ NUL :: z)
  = Done (map contents (t :: toks.*2), []).
Proof.
  intros Hbs Ht Htoks Hlen. set (text := bs ++ render t ++ line_of toks).
  assert (Htext : NUL ∉ text).
  { unfold text. rewrite !not_elem_of_app.
    split_and!; [by apply blanks_no_nul|by apply token_no_nul|by apply line_no_nul]. }
  assert (Hf : from text 0 text) by (split; [done|by rewrite drop_0]).
  unfold process_cmd, bind. rewrite (skip_blanks_run text z 0 bs (render t ++ line_of toks)); [|done|done|].
  2: by apply render_starts.
  parser_simpl. rewrite strlen_text by done.
  destruct (tokens_run text z Htext toks t (0 + length bs) [] [] (S (length text))) as (p & Hp & Hv & Hr);
    [by apply (from_app text 0 bs)|done|done|done|unfold text; rewrite (length_app bs); lia|].
  rewrite Hp. unfold gets. simpl in Hv. rewrite Hv, Hr.
  rewrite (proj2 (Nat.leb_gt _ _)); [done|]. simpl. rewrite length_map, length_fmap. lia.
Qed.

(** ** Termination *)

(** Partial correctness of computations that never run out of fuel. *)
Definition lwp {St A} (m : M St A) (Q : A -> St -> Prop) (s : St) : Prop :=
  match m s with Done (a, s') => Q a s' | Crash f => f <> OutOfFuel end.

Section Lwp.
Context {St : Type}.

Lemma lwp_bind {A B} (m : M St A) (k : A -> M St B) Q s :
  lwp m (fun a => lwp (k a) Q) s -> lwp (bind m k) Q s.
Proof. unfold lwp, bind. by destruct (m s) as [[a s']|]. Qed.

Lemma lwp_mono {A} (m : M St A) (Q Q' : A -> St -> Prop) s :
  lwp m Q s -> (forall a s', Q a s' -> Q' a s') -> lwp m Q' s.
Proof. unfold lwp. destruct (m s) as [[a s']|]; auto. Qed.

Lemma lwp_ret {A} (a : A) (Q : A -> St -> Prop) s : Q a s -> lwp (ret a) Q s.
Proof. done. Qed.

Lemma lwp_gets {A} (f : St -> A) Q s : Q (f s) s -> lwp (gets f) Q s.
Proof. done. Qed.

Lemma lwp_modify (f : St -> St) (Q : unit -> St -> Prop) s : Q tt (f s) -> lwp (modify f) Q s.
Proof. done. Qed.

Lemma lwp_crash {A} f (Q : A -> St -> Prop) s : f <> OutOfFuel -> lwp (crash f) Q s.
Proof. done. Qed.

Lemma lwp_if {A} (b : bool) (m m' : M St A) Q s : lwp m Q s -> lwp m' Q s -> lwp (if b then m else m') Q s.
Proof. by destruct b. Qed.
End Lwp.

(** The steps of a goal [lwp m Q s] up to a call. *)
Ltac lgo :=
  repeat match goal with
  | |- lwp (bind _ _) _ _ => apply lwp_bind
  | |- lwp (ret _) _ _ => apply lwp_ret
  | |- lwp (crash _) _ _ => apply lwp_crash; done
  | |- lwp (gets _) _ _ => apply lwp_gets
  | |- lwp (modify _) _ _ => apply lwp_modify
  | |- lwp (match ?x with left _ => _ | right _ => _ end) _ _ => destruct x
  | |- lwp (if _ then _ else _) _ _ => apply lwp_if
  end.

Section Progress.
Context `{Hvars : ShellVars} (cmdline : str).
Implicit Types p : parser.

(** A step keeps [pos] or moves it as it says; the other fields do not matter. *)
Lemma char_at_lwp i (Q : ascii -> parser -> Prop) p : (forall c, Q c p) -> lwp (char_at cmdline i) Q p.
Proof. intros H. unfold char_at, lwp. by destruct (cmdline !! i); simpl. Qed.

Lemma skip_blanks_lwp i p : lwp (skip_blanks cmdline i) (fun k p' => (i <= k)%nat /\ p' = p) p.
Proof. unfold skip_blanks. lgo. apply char_at_lwp. intros _. lgo. split; [lia|done]. Qed.

Lemma get_path_lwp i p : lwp (get_path cmdline i) (fun r p' => (i < r.1)%nat /\ p' = p) p.
Proof.
  unfold get_path. lgo. eapply lwp_mono; [apply skip_blanks_lwp|]. intros j p' [Hj ->]. lgo.
  split; [simpl|done]. destruct (_ <? _)%nat; lia.
Qed.

Lemma redirect_lwp r p : lwp (redirect r) (fun _ p' => pos p' = pos p) p.
Proof. done. Qed.

Lemma process_redirection_lwp i p :
  lwp (process_redirection cmdline i) (fun k p' => (k = i \/ (i < k)%nat) /\ pos p' = pos p) p.
Proof.
  assert (Hpath : forall j fds b, (i <= j)%nat ->
    lwp (get_path cmdline j) (fun r => lwp (let '(i, path) := r in
         do! redirect (mk_redirection fds path b) in skip_blanks cmdline (S i))
      (fun k p' => (k = i \/ (i < k)%nat) /\ pos p' = pos p)) p).
  { intros j fds b Hij. eapply lwp_mono; [apply get_path_lwp|]. intros [k path] p1 [Hk ->].
    simpl in Hk. lgo. eapply lwp_mono; [apply redirect_lwp|]. intros [] p2 Hp2. simpl in Hp2.
    eapply lwp_mono; [apply skip_blanks_lwp|]. intros k' p3 [Hk' ->]. split; [right; lia|done]. }
  unfold process_redirection. lgo. apply char_at_lwp. intros c. lgo.
  - apply char_at_lwp. intros c'. lgo. apply Hpath. destruct (bool_decide _); lia.
  - apply char_at_lwp. intros c'. lgo; try (apply Hpath; lia). by split; [left|].
  - apply Hpath. lia.
  - by split; [left|].
Qed.

Lemma add_chars_lwp w p : lwp (add_chars w) (fun _ p' => pos p' = pos p) p.
Proof. unfold add_chars. by lgo. Qed.

Lemma push_arg_lwp p : lwp push_arg (fun _ p' => pos p' = pos p) p.
Proof. unfold push_arg. by lgo. Qed.

Lemma when_push_lwp b p : lwp (when b push_arg) (fun _ p' => pos p' = pos p) p.
Proof. destruct b; [apply push_arg_lwp | done]. Qed.

(** As [lgo], through the calls. *)
Ltac pgo :=
  repeat progress (lgo; try lazymatch goal with
  | |- lwp push_arg _ _ => eapply lwp_mono; [apply push_arg_lwp|]; intros [] ? ?
  | |- lwp (when _ push_arg) _ _ => eapply lwp_mono; [apply when_push_lwp|]; intros [] ? ?
  | |- lwp (add_chars _) _ _ => eapply lwp_mono; [apply add_chars_lwp|]; intros [] ? ?
  | |- lwp (char_at _ _) _ _ => apply char_at_lwp; intros ?
  | |- lwp (skip_blanks _ _) _ _ => eapply lwp_mono; [apply skip_blanks_lwp|]; intros ? ? [? ->]
  end).

Lemma parse_step_lwp p :
  lwp (parse_step cmdline) (fun again p' => again = true -> (pos p < pos p')%nat) p.
Proof.
  assert (Hred : forall c, lwp (process_redirection cmdline (pos p)) (fun tmp =>
    lwp (if (tmp =? pos p)%nat
         then do! add_chars [c] in do! modify (fun p' => p' <| pos := S (pos p) |>) in ret true
         else do! modify (fun p' => p' <| pos := tmp |>) in ret true)
      (fun again p' => again = true -> (pos p < pos p')%nat)) p).
  { intros c. eapply lwp_mono; [apply process_redirection_lwp|]. intros k p1 [Hk Hp1].
    destruct (Nat.eqb_spec k (pos p)); pgo; intros _; simpl; lia. }
  unfold parse_step. lgo. apply char_at_lwp. intros c.
  pgo; try apply Hred. all: intros Hb; simpl in *; done || lia.
Qed.

Lemma parse_loop_lwp fuel p :
  (strlen cmdline - pos p < fuel)%nat -> lwp (parse_loop cmdline fuel) (fun _ _ => True) p.
Proof.
  revert p. induction fuel as [|fuel IH]; intros p Hf; cbn [parse_loop].
  - lia.
  - apply lwp_bind, lwp_gets. destruct (Nat.ltb_spec (pos p) (strlen cmdline)); [|done].
    lgo. eapply lwp_mono; [apply parse_step_lwp|]. intros [] p1 Hp1; cbv iota; [|by apply lwp_ret].
    apply IH. specialize (Hp1 eq_refl). lia.
Qed.
End Progress.

(** *** The pipes *)

Lemma strlen_drop k buf : (k <= strlen buf)%nat -> strlen (drop k buf) = (strlen buf - k)%nat.
Proof.
  revert k. induction buf as [|c buf IH]; intros [|k] Hk; simpl in *; try done; [by rewrite Nat.sub_0_r|].
  destruct (decide (c = NUL)); [lia|]. rewrite IH by lia. lia.
Qed.

Lemma blanks_le_strlen buf : (prefix_len is_blank buf <= strlen buf)%nat.
Proof.
  induction buf as [|c buf IH]; simpl; [done|]. destruct (is_blank c) eqn:E; [|lia].
  destruct (decide (c = NUL)) as [->|]; [done|lia].
Qed.

Lemma drop_insert_next {A} (l : list A) p x : drop (S p) (<[p := x]> l) = drop (S p) l.
Proof. apply drop_insert_lt. lia. Qed.

Lemma strlen_insert i buf : (strlen (<[i := NUL]> buf) <= strlen buf)%nat.
Proof.
  revert i. induction buf as [|c buf IH]; intros [|i]; [done|done|simpl; lia|].
  change (strlen (c :: <[i := NUL]> buf) <= strlen (c :: buf))%nat. simpl.
  destruct (decide (c = NUL)); [done|]. pose proof (IH i). lia.
Qed.

Lemma split_pipes_fuel fuel buf tmp acc :
  (tmp + strlen (drop tmp buf) < fuel + tmp)%nat -> split_pipes fuel buf tmp acc <> Crash OutOfFuel.
Proof.
  revert buf tmp acc. induction fuel as [|fuel IH]; intros buf tmp acc Hf; [lia|].
  cbn [split_pipes]. destruct (_ <=? _)%nat; [done|].
  set (p := (tmp + prefix_len _ _)%nat). destruct (Nat.ltb_spec p (tmp + strlen (drop tmp buf))) as [Hp|]; [|done].
  apply IH. set (k := prefix_len is_blank _).
  assert (Hd : strlen (drop (S p) buf) = (tmp + strlen (drop tmp buf) - S p)%nat).
  { replace (S p) with (tmp + (S p - tmp))%nat at 1 by lia. rewrite <- drop_drop, strlen_drop by lia. lia. }
  assert (Hk : (k <= strlen (drop (S p) buf))%nat).
  { unfold k. rewrite drop_insert_next. apply blanks_le_strlen. }
  rewrite <- drop_drop, drop_insert_next, strlen_drop by done. lia.
Qed.

(** Every command line is taken apart in finitely many steps: neither the
    splitting at the pipes nor the parser of a child runs for more iterations
    than the line has characters, whatever the line. *)
Theorem parsing_terminates `{ShellVars} cmdline :
  process_cmd cmdline <> Crash OutOfFuel /\ split_job cmdline <> Crash OutOfFuel.
Proof.
  split.
  - assert (H1 : lwp (let! i := skip_blanks cmdline 0 in
                 do! modify (fun p => p <| pos := i |>) in
                 do! parse_loop cmdline (S (strlen cmdline)) in
                 let! p := gets (fun p => p) in
                 if (MAX_ARGC <=? length (argv p))%nat then crash BadIndex else ret (argv p, redirs p))
      (fun _ _ => True) (mk_parser 0 [] SPACE [] [])).
    { apply lwp_bind. eapply lwp_mono; [apply skip_blanks_lwp|]. intros i p1 [_ ->].
      apply lwp_bind, lwp_modify, lwp_bind. eapply lwp_mono; [apply parse_loop_lwp; lia|].
      intros [] p2 _. lgo; done. }
    revert H1. unfold lwp, process_cmd. cbv zeta.
    match goal with |- match ?m with _ => _ end -> _ => destruct m as [[r p]|f] end; [done|].
    by intros ? [= ->].
  - unfold split_job. destruct (strlen cmdline) as [|n] eqn:En; [done|].
    set (x := match last_nonblank _ _ with Some _ => _ | None => _ end).
    assert (Hx : (strlen x.2 <= S n)%nat).
    { unfold x. destruct (last_nonblank _ _) as [[i c]|]; [|simpl; lia].
      destruct (decide _); simpl; [|lia]. rewrite <- En. apply strlen_insert. }
    destruct x as [async buf]. simpl in Hx.
    pose proof (split_pipes_fuel (S (S n)) buf 0 []) as Hs. rewrite drop_0 in Hs.
    destruct (split_pipes _ _ _ _) as [[? ?]|f]; [done|]. intros [= ->]. apply Hs; [lia|done].
Qed.

(** ** The line that is read *)

Definition NEWLINE : ascii := "010".

Lemma trim_spaces k w z :
  trim_trailing (length w + k) (w ++ replicate k SPACE ++ z)
  = trim_trailing (length w) (w ++ replicate k NUL ++ z).
Proof.
  revert z. induction k as [|k IH]; intros z; [by rewrite Nat.add_0_r|].
  rewrite Nat.add_succ_r. cbn [trim_trailing]. rewrite (replicate_S_end _ SPACE), (replicate_S_end _ NUL), <- !app_assoc.
  assert (Hl : (w ++ replicate k SPACE ++ [SPACE] ++ z) !! (length w + k)%nat = Some SPACE).
  { rewrite lookup_app_r by lia. rewrite lookup_app_r; rewrite length_replicate; [|lia].
    by replace (length w + k - length w - k)%nat with 0%nat by lia. }
  rewrite decide_True by done.
  replace (<[(length w + k)%nat := NUL]> (w ++ replicate k SPACE ++ [SPACE] ++ z))
    with (w ++ replicate k SPACE ++ NUL :: z); [apply IH|].
  rewrite insert_app_r_alt by lia. f_equal. rewrite insert_app_r_alt by (rewrite length_replicate; lia).
  rewrite length_replicate. by replace (length w + k - length w - k)%nat with 0%nat by lia.
Qed.

Lemma prefix_len_stop f (a : str) c b : f c = false -> (prefix_len f (a ++ c :: b) <= length a)%nat.
Proof.
  intros Hc. induction a as [|x a IH]; simpl; [by rewrite Hc|]. destruct (f x); lia.
Qed.

Lemma cstr_text text z : NUL ∉ text -> cstr (text ++ NUL :: z) = text.
Proof. intros H. unfold cstr. by rewrite strlen_text, take_app_length. Qed.

(** A line of [text], whose last character is no blank, [k] spaces and the
    newline, up to the end of the trimming. *)
Lemma get_cmd_line_text buf text c k :
  NUL ∉ text ++ [c] -> is_blank c = false ->
  exists z, get_cmd_line (Some (text ++ [c] ++ replicate k SPACE ++ [NEWLINE])) buf
    = match trim_trailing (length (text ++ [c])) ((text ++ [c]) ++ replicate k NUL ++ NUL :: z) with
      | Done buf => Done (0, buf)
      | Crash f => Crash f
      end.
Proof.
  intros Hn Hc. set (line := text ++ [c] ++ replicate k SPACE ++ [NEWLINE]). unfold get_cmd_line.
  set (body := (text ++ [c]) ++ replicate k SPACE).
  assert (El : line = body ++ [NEWLINE]) by (unfold line, body; by rewrite <- !app_assoc).
  assert (Hb : NUL ∉ body).
  { unfold body. intros [H|[H _]%elem_of_replicate]%elem_of_app; [by apply Hn|done]. }
  assert (Hl : NUL ∉ line) by (rewrite El; intros [H|H%list_elem_of_singleton]%elem_of_app; done).
  cbv zeta. rewrite strlen_text by done. assert (Hlen : length line = S (length body)) by (rewrite El, length_app; simpl; lia).
  set (rest := drop (S (length line)) buf). exists (NUL :: rest). rewrite Hlen.
  assert (Ei : <[length body := NUL]> (line ++ NUL :: rest) = body ++ NUL :: NUL :: rest).
  { rewrite El, <- app_assoc, insert_app_r_alt by lia. by rewrite Nat.sub_diag. }
  rewrite Ei, take_app_length.
  assert (Hp : (prefix_len is_blank body < length body)%nat).
  { unfold body. rewrite <- app_assoc. pose proof (prefix_len_stop is_blank text c (replicate k SPACE) Hc).
    rewrite !length_app. simpl. lia. }
  rewrite (proj2 (Nat.eqb_neq _ _)) by lia.
  assert (Eb : length body = (length (text ++ [c]) + k)%nat) by (unfold body; by rewrite length_app, length_replicate).
  rewrite Eb. unfold body. rewrite <- (app_assoc (text ++ [c])), trim_spaces. done.
Qed.

(** [get_cmd_line] stores the command without the newline and without the
    spaces behind it, and returns 0, for every command of two characters or
    more whose last character but one is no tab.  For a command of one
    character its loop reads in front of the buffer. *)
Theorem get_cmd_line_spec buf text d c k :
  NUL ∉ text ++ [d; c] -> is_blank c = false ->
  (d <> TAB -> exists buf', get_cmd_line (Some (text ++ [d; c] ++ replicate k SPACE ++ [NEWLINE])) buf
     = Done (0, buf') /\ cstr buf' = text ++ [d; c]) /\
  get_cmd_line (Some ([c] ++ replicate k SPACE ++ [NEWLINE])) buf = Crash BadIndex.
Proof.
  intros Hn Hc. assert (Hsp : c <> SPACE) by (by intros ->). split.
  - intros Hd. assert (E : text ++ [d; c] = (text ++ [d]) ++ [c]) by (by rewrite <- app_assoc).
    rewrite E in Hn |- *.
    destruct (get_cmd_line_text buf (text ++ [d]) c k) as [z Hz]; [done|done|].
    replace (text ++ [d; c] ++ replicate k SPACE ++ [NEWLINE])
      with ((text ++ [d]) ++ [c] ++ replicate k SPACE ++ [NEWLINE]) by (by rewrite <- app_assoc).
    rewrite Hz. set (rest := replicate k NUL ++ NUL :: z).
    assert (El : length ((text ++ [d]) ++ [c]) = S (S (length text))) by (rewrite !length_app; simpl; lia).
    rewrite El. cbn [trim_trailing].
    assert (H : forall i l, (text ++ l) !! (i + length text)%nat = l !! i).
    { intros i l. rewrite lookup_app_r by lia. f_equal. lia. }
    rewrite <- !app_assoc. rewrite (H 1%nat), (H 0%nat). cbn [app lookup list_lookup].
    rewrite !decide_False by congruence. eexists. split; [done|].
    replace (text ++ d :: c :: rest) with ((text ++ [d; c]) ++ rest) by (by rewrite <- app_assoc).
    rewrite E. unfold rest. destruct k as [|k]; simpl; by apply cstr_text.
  - destruct (get_cmd_line_text buf [] c k) as [z Hz]; [|done|].
    + intros <-%list_elem_of_singleton. apply Hn. rewrite elem_of_app, !elem_of_cons. tauto.
    + cbn [app] in Hz |- *. rewrite Hz. simpl. by rewrite decide_False by congruence.
Qed.

(** A tab before the last character takes that character for a blank: the last
    word is lost. *)
Lemma get_cmd_line_tab buf text a b c :
  NUL ∉ text ++ [a; b; TAB; c] -> is_blank b = false -> is_blank c = false -> a <> TAB ->
  exists buf', get_cmd_line (Some (text ++ [a; b; TAB; c; NEWLINE])) buf = Done (0, buf') /\
    cstr buf' = text ++ [a; b].
Proof.
  intros Hn Hb Hc Ha.
  destruct (get_cmd_line_text buf (text ++ [a; b; TAB]) c 0) as [z Hz]; [by rewrite <- app_assoc|done|].
  rewrite <- !app_assoc in Hz. cbn [app replicate] in Hz. rewrite Hz. cbn [app].
  rewrite !length_app. cbn [length]. rewrite Nat.add_comm. cbn [Nat.add trim_trailing].
  assert (H : forall i l, (text ++ l) !! (i + length text)%nat = l !! i).
  { intros i l. rewrite lookup_app_r by lia. f_equal. lia. }
  assert (Hi : forall i x l, <[(i + length text)%nat := x]> (text ++ l) = text ++ <[i := x]> l).
  { intros i x l. rewrite Nat.add_comm. apply insert_app_r. }
  rewrite (H 3%nat), (H 2%nat). simpl. assert (c <> SPACE /\ b <> SPACE) as [? ?] by (split; by intros ->).
  rewrite decide_False by congruence. rewrite (Hi 2%nat). cbn [insert list_insert].
  rewrite (H 1%nat), (H 0%nat). simpl. rewrite !decide_False by congruence.
  eexists. split; [done|].
  replace (text ++ a :: b :: NUL :: c :: NUL :: z) with ((text ++ [a; b]) ++ NUL :: c :: NUL :: z) by (by rewrite <- app_assoc).
  apply cstr_text. intros Hin. apply Hn.
  apply elem_of_app in Hin as [Hin|Hin]; apply elem_of_app; [by left|right].
  rewrite !elem_of_cons in Hin |- *. rewrite elem_of_nil in Hin. tauto.
Qed.

(** ** Pipelines *)

Definition PIPE : ascii := "|".
Definition AMP : ascii := "&".

(** A command of a pipeline, and a pipeline: every later command after a pipe
    symbol and some blanks. *)
Definition command (s : str) : Prop := NUL ∉ s /\ PIPE ∉ s.
Definition piped (x : str * str) : Prop := blanks x.1 /\ command x.2 /\ starts x.2.

Fixpoint pipeline (s : str) (l : list (str * str)) : str :=
  s ++ match l with [] => [] | (bs, s') :: l => PIPE :: bs ++ pipeline s' l end.

Definition not_pipe (c : ascii) : bool := negb (bool_decide (c = PIPE)).

Lemma pipeline_no_nul s l : command s -> Forall piped l -> NUL ∉ pipeline s l.
Proof.
  intros Hs Hl. revert s Hs. induction Hl as [|[bs s'] l (Hbs & Hs' & _) Hl IH]; intros s [Hs _]; simpl in *.
  - by rewrite app_nil_r.
  - rewrite not_elem_of_app, not_elem_of_cons, not_elem_of_app.
    split_and!; [done|done|by apply blanks_no_nul|by apply IH].
Qed.

Lemma prefix_not_pipe s z : PIPE ∉ s -> prefix_len not_pipe (s ++ PIPE :: z) = length s.
Proof.
  induction s as [|c s IH]; intros H; [done|]. apply not_elem_of_cons in H as [Hc Hs]. simpl.
  unfold not_pipe at 1. rewrite bool_decide_eq_false_2 by congruence. simpl. by rewrite IH.
Qed.

Lemma prefix_not_pipe_end s : PIPE ∉ s -> prefix_len not_pipe s = length s.
Proof.
  induction s as [|c s IH]; intros H; [done|]. apply not_elem_of_cons in H as [Hc Hs]. simpl.
  unfold not_pipe at 1. rewrite bool_decide_eq_false_2 by congruence. simpl. by rewrite IH.
Qed.

Lemma prefix_blanks bs s l z :
  blanks bs -> starts s -> prefix_len is_blank (bs ++ pipeline s l ++ NUL :: z) = length bs.
Proof.
  intros Hbs Hst. induction Hbs as [|c bs Hc Hbs IH]; simpl; [|by rewrite Hc, IH].
  destruct s as [|c s]; simpl in *.
  - by destruct l as [|[bs' s'] l].
  - by destruct l as [|[bs' s'] l]; simpl; rewrite Hst.
Qed.

Lemma split_pipes_run l s pre z acc fuel :
  command s -> Forall piped l -> (length l < fuel)%nat -> (length acc + length l < MAX_PIPE)%nat ->
  exists rest offs, split_pipes fuel (pre ++ pipeline s l ++ NUL :: z) (length pre) acc
      = Done (pre ++ rest, acc ++ offs) /\
    map (fun o => cstr (drop o (pre ++ rest))) offs = s :: l.*2.
Proof.
  revert s pre acc fuel. induction l as [|[bs s'] l IH]; intros s pre acc fuel Hs Hl Hf Hacc;
    (destruct fuel as [|fuel]; [lia|]); cbn [split_pipes];
    rewrite (proj2 (Nat.leb_gt _ _)) by (simpl in Hacc; lia); rewrite drop_app_length;
    fold not_pipe PIPE; fold (not_pipe); pose proof (pipeline_no_nul s _ Hs Hl) as Hn;
    rewrite cstr_text, strlen_text by done.
  - cbn [pipeline]. rewrite app_nil_r in *. change (fun c => negb (bool_decide (c = "|"%char))) with not_pipe.
    rewrite prefix_not_pipe_end by apply Hs. rewrite Nat.ltb_irrefl.
    exists (s ++ NUL :: z), [length pre]. split; [done|]. simpl. rewrite drop_app_length. by rewrite cstr_text by apply Hs.
  - apply Forall_cons in Hl as [(Hbs & Hs' & Hst) Hl]. simpl in Hbs, Hs', Hst, Hacc, Hf. cbn [pipeline].
    change (fun c => negb (bool_decide (c = "|"%char))) with not_pipe.
    rewrite prefix_not_pipe by apply Hs. rewrite length_app. simpl.
    rewrite (proj2 (Nat.ltb_lt _ _)) by lia.
    set (pre' := pre ++ s ++ [NUL] ++ bs).
    assert (Eb : <[(length pre + length s)%nat := NUL]> (pre ++ (s ++ PIPE :: bs ++ pipeline s' l) ++ NUL :: z)
                 = pre' ++ pipeline s' l ++ NUL :: z).
    { rewrite insert_app_r, <- app_assoc. rewrite <- (Nat.add_0_r (length s)), insert_app_r. simpl.
      unfold pre'. by rewrite <- !app_assoc. }
    rewrite Eb.
    assert (Ed : drop (S (length pre + length s)) (pre' ++ pipeline s' l ++ NUL :: z)
                 = bs ++ pipeline s' l ++ NUL :: z).
    { unfold pre'. rewrite <- !app_assoc. rewrite <- Nat.add_succ_r, <- drop_drop, drop_app_length.
      rewrite <- Nat.add_1_r, <- drop_drop, drop_app_length. done. }
    rewrite Ed, prefix_blanks by done.
    replace (S (length pre + length s + length bs)) with (length pre')
      by (unfold pre'; rewrite !length_app; simpl; lia).
    destruct (IH s' pre' (acc ++ [length pre]) fuel) as (rest & offs & He & Ho);
      [done|done|lia|rewrite length_app; simpl; lia|].
    exists (s ++ [NUL] ++ bs ++ rest), (length pre :: offs).
    assert (Er : pre' ++ rest = pre ++ s ++ [NUL] ++ bs ++ rest) by (unfold pre'; by rewrite <- !app_assoc).
    rewrite <- Er. split; [by rewrite He, <- app_assoc|]. cbn [map fmap list_fmap]. f_equal; [|exact Ho].
    rewrite Er, drop_app_length. simpl. by rewrite cstr_text by apply Hs.
Qed.

Lemma last_nonblank_run a c bs z :
  is_blank c = false -> blanks bs ->
  last_nonblank (length (a ++ c :: bs)) ((a ++ c :: bs) ++ z) = Some (length a, c).
Proof.
  intros Hc Hbs. revert z. induction bs as [|b bs IH] using rev_ind; intros z.
  - rewrite length_app, Nat.add_1_r. cbn [last_nonblank]. rewrite <- app_assoc, lookup_app_r by lia.
    rewrite Nat.sub_diag. simpl. by rewrite Hc.
  - apply Forall_app in Hbs as [Hbs Hb]. apply Forall_inv in Hb.
    replace (a ++ c :: bs ++ [b]) with ((a ++ c :: bs) ++ [b]) by (by rewrite <- app_assoc).
    rewrite length_app, Nat.add_1_r. cbn [last_nonblank]. rewrite <- app_assoc.
    rewrite (lookup_app_r (a ++ c :: bs)) by lia. rewrite Nat.sub_diag. simpl. rewrite Hb. by apply IH.
Qed.

Lemma pipeline_length s l : (length l <= length (pipeline s l))%nat.
Proof.
  revert s. induction l as [|[bs s'] l IH]; intros s; simpl; rewrite !length_app; simpl; [lia|].
  rewrite length_app. pose proof (IH s'). lia.
Qed.

(** [exec_job] takes a line apart as a shell does: it starts the commands
    between the pipe symbols, without the blanks before them, in order, and
    the job is asynchronous exactly if the line ends with an ampersand, which
    belongs to no command. *)
Theorem split_job_pipeline s l (amp : bool) bs z :
  command s -> Forall piped l -> (length l < MAX_PIPE)%nat -> blanks bs ->
  (if amp then True else exists a c, pipeline s l = a ++ [c] /\ is_blank c = false /\ c <> AMP) ->
  exists buf offs,
    split_job (pipeline s l ++ (if amp then AMP :: bs else []) ++ NUL :: z) = Done (amp, buf, offs) /\
    map (fun o => cstr (drop o buf)) offs = s :: l.*2.
Proof.
  intros Hs Hl Hlen Hbs Hlast. pose proof (pipeline_no_nul s l Hs Hl) as Hn.
  pose proof (pipeline_length s l) as Hpl. unfold split_job. destruct amp.
  - rewrite app_assoc, strlen_text.
    2: { rewrite not_elem_of_app, not_elem_of_cons. split_and!; [done|done|by apply blanks_no_nul]. }
    pose proof (last_nonblank_run (pipeline s l) AMP bs (NUL :: z) eq_refl Hbs) as Hlb.
    destruct (length (pipeline s l ++ AMP :: bs)) as [|n] eqn:En; [rewrite length_app in En; simpl in En; lia|].
    rewrite Hlb.
    rewrite decide_True by done. rewrite <- app_assoc.
    rewrite <- (Nat.add_0_r (length (pipeline s l))), insert_app_r.
    destruct (split_pipes_run l s [] (bs ++ NUL :: z) [] (S (S n))) as (rest & offs & He & Ho);
      [done|done| |simpl; lia|].
    { rewrite length_app in En. simpl in En. lia. }
    cbn [app length insert list_insert] in He |- *. rewrite He. exists rest, offs. by split.
  - destruct Hlast as (a & c & Ea & Hc & Ham). cbn [app]. rewrite strlen_text by done.
    assert (Hlb : last_nonblank (length (pipeline s l)) (pipeline s l ++ NUL :: z) = Some (length a, c)).
    { rewrite Ea. apply (last_nonblank_run a c []); [done|by constructor]. }
    destruct (length (pipeline s l)) as [|n] eqn:En; [rewrite Ea, length_app in En; simpl in En; lia|].
    rewrite Hlb.
    rewrite decide_False by done.
    destruct (split_pipes_run l s [] z [] (S (S n))) as (rest & offs & He & Ho); [done|done|lia|simpl; lia|].
    cbn [app length] in He. rewrite He. exists rest, offs. by split.
Qed.

(** ** Concrete instances *)

Module Example.
#[local] Instance shell : ShellVars := {| shell_pid := 4711; exit_status := 0 |}.

(** [echo 'a b'   c] *)
Lemma process_cmd_words_witness :
  process_cmd (chars "echo 'a b'   c" ++ [NUL]) = Done ([chars "echo"; chars "a b"; chars "c"], []).
Proof.
  assert (Hp : forall w, forallb (fun c => bool_decide (c ∉ SPACE :: TAB :: QUOTE :: DQUOTE :: special)) w = true ->
    Forall plain w).
  { intros w H. apply Forall_forall. intros c Hc. rewrite forallb_forall in H.
    by apply (bool_decide_eq_true (c ∉ _)), H, list_elem_of_In. }
  apply (process_cmd_words [] (Word (chars "echo"))
    [([SPACE], Quoted QUOTE (chars "a b")); ([SPACE; SPACE; SPACE], Word (chars "c"))] []).
  - constructor.
  - split; [done|]. split; [by apply Hp|by vm_compute; lia].
  - repeat constructor; try done; unfold MAX_ARG_LEN; simpl; try lia; try (by apply (bool_decide_unpack _); vm_compute).
  - unfold MAX_ARGC. simpl. lia.
Defined.

Lemma get_cmd_line_spec_witness :
  exists buf', get_cmd_line (Some (chars "ls -l  " ++ [NEWLINE])) (repeat NUL 20) = Done (0, buf') /\
    cstr buf' = chars "ls -l".
Proof.
  destruct (get_cmd_line_spec (repeat NUL 20) (chars "ls ") "-"%char "l"%char 2) as [H _].
  - apply (bool_decide_unpack _). by vm_compute.
  - done.
  - by apply H.
Defined.

(** [ls | wc &] *)
Lemma split_job_pipeline_witness :
  exists buf offs, split_job (chars "ls | wc & " ++ [NUL]) = Done (true, buf, offs) /\
    map (fun o => cstr (drop o buf)) offs = [chars "ls "; chars "wc "].
Proof.
  apply (split_job_pipeline (chars "ls ") [([SPACE], chars "wc ")] true [SPACE] []).
  - split; apply (bool_decide_unpack _); by vm_compute.
  - repeat constructor; apply (bool_decide_unpack _); by vm_compute.
  - unfold MAX_PIPE. simpl. lia.
  - by repeat constructor.
  - done.
Defined.

(** A redirection that follows a word without a blank takes the place of the
    word, and one in quotes is taken for one. *)
Lemma redirection_glued :
  process_cmd (chars "echo hi>out" ++ [NUL; NUL])
  = Done ([chars "echo"], [mk_redirection [1] (chars "out") false]).
Proof. by vm_compute. Qed.

Lemma redirection_quoted :
  process_cmd (chars "echo 'a > b' c" ++ [NUL; NUL])
  = Done ([chars "echo"; chars "a "], [mk_redirection [1] (chars "b'") false]).
Proof. by vm_compute. Qed.

(** The array of [exec_internal_cmd] has no room for the NUL, and a line that
    is an ampersand has no first word. *)
Lemma internal_cmd_overflow cmdline :
  internal_cmd (strlen cmdline) cmdline = Crash BadIndex.
Proof.
  unfold internal_cmd. rewrite (proj2 (Nat.ltb_lt _ _)); [done|].
  assert (H : forall l, (strlen l <= length l)%nat).
  { induction l as [|c l IH]; simpl; [done|]. destruct (decide _); lia. }
  unfold cstr. rewrite length_take. pose proof (H cmdline). lia.
Qed.

Lemma internal_cmd_ampersand : internal_cmd 1 [NUL] = Crash NullDeref.
Proof. by vm_compute. Qed.
End Example.
