(* ===== verification/ShellJobs.v ===== *)
(** * The jobs of the shell ([myshell.c])

    The list of jobs with their processes, the job that [fg] and [bg] mean by
    default, starting a pipeline, collecting the children, and waiting for a
    job.  Jobs are allocated and linked by pointers, which a removed job keeps:
    a job is an address in a heap, and the list is the sequence of addresses
    from [head] on.  What the operating system answers is a parameter. *)

From S2P Require Import Prelude CStrings ShellParse.
From Stdlib Require Import Ascii String.
From stdpp Require Import strings gmap.

#[global] Open Scope Z_scope.

(** ** Data *)

(** [status]: running (0), stopped (1) or terminated (2). *)
Record process : Type := mk_process {
  pid : Z;
  status : Z
}.

(** [list] is named [procs]. *)
Record job : Type := mk_job {
  procs : list process;
  pgid : Z;
  cmd : str
}.

Definition eta_job (r : job) : job := mk_job (procs r) (pgid r) (cmd r).
#[export] Instance procs_field : Field procs. Proof. solve_field eta_job. Defined.
#[export] Instance pgid_field : Field pgid. Proof. solve_field eta_job. Defined.
#[export] Instance cmd_field : Field cmd. Proof. solve_field eta_job. Defined.

(** The globals [head], as the sequence of jobs from it on, and [current]; the
    allocated jobs and the next address; the foreground process group of the
    terminal; the pipe ends that the shell has open; the number of system calls
    so far. *)
Record shell : Type := mk_shell {
  heap : gmap nat job;
  jobs : list nat;
  current : option nat;
  next_job : nat;
  terminal : Z;
  pipe_ends : Z;
  clock : nat
}.

Definition eta_shell (r : shell) : shell :=
  mk_shell (heap r) (jobs r) (current r) (next_job r) (terminal r) (pipe_ends r) (clock r).
#[export] Instance heap_field : Field heap. Proof. solve_field eta_shell. Defined.
#[export] Instance jobs_field : Field jobs. Proof. solve_field eta_shell. Defined.
#[export] Instance current_field : Field current. Proof. solve_field eta_shell. Defined.
#[export] Instance next_job_field : Field next_job. Proof. solve_field eta_shell. Defined.
#[export] Instance terminal_field : Field terminal. Proof. solve_field eta_shell. Defined.
#[export] Instance pipe_ends_field : Field pipe_ends. Proof. solve_field eta_shell. Defined.
#[export] Instance clock_field : Field clock. Proof. solve_field eta_shell. Defined.

Definition shell_start : shell := mk_shell ∅ [] None 0 0 0 0.

(** What the operating system answers to the call number [n]: the process that
    [fork] returns in the parent, the status that [waitpid] stores for a process
    ([None] if it fails), the children that [waitpid(-1, &status, WNOHANG)]
    reports one after the other, whether [kill] succeeds; the value of an
    uninitialised [int], and the room in an array of [n] characters. *)
Class Os : Type := {
  fork_pid : nat -> Z;
  wait_status : nat -> Z -> option Z;
  children : nat -> list (Z * Z);
  kill_ok : nat -> Z -> bool;
  junk_int : Z;
  own_pid : Z;
  array_room : nat -> nat
}.

(** The macros of [sys/wait.h] on the wait status of Linux. *)
Definition WIFEXITED (s : Z) : bool := Z.land s 127 =? 0.
Definition WIFSTOPPED (s : Z) : bool := Z.land s 255 =? 127.
Definition WIFSIGNALED (s : Z) : bool := negb (WIFEXITED s) && negb (Z.land s 127 =? 127).

(** ** Operations *)

Definition change_status (ps : process) (st : Z) : process :=
  if WIFEXITED st || WIFSIGNALED st then mk_process (pid ps) 2
  else if WIFSTOPPED st then mk_process (pid ps) 1
  else mk_process (pid ps) 0.

(** [terminated &= (ps->status == 2)] over the list, and the same for [stopped]. *)
Definition all_terminated (l : list process) : bool := forallb (fun ps => status ps =? 2) l.
Definition all_stopped (l : list process) : bool := forallb (fun ps => status ps =? 1) l.

Section Shell.
Context `{Hos : Os}.

(** [*jb] *)
Definition load_job (a : nat) : M shell job :=
  let! s := gets (fun s => s) in
  require NullDeref (heap s !! a).

Definition set_job (a : nat) (f : job -> job) : M shell unit :=
  modify (fun s => s <| heap ::= alter f a |>).

(** The next system call. *)
Definition tick : M shell nat :=
  let! n := gets clock in
  do! modify (fun s => s <| clock := S n |>) in
  ret n.

(** The inner loop of [update_process_status]: the processes with [p] changed,
    and whether it was there. *)
Definition mark (p st : Z) (l : list process) : list process :=
  map (fun ps => if pid ps =? p then change_status ps st else ps) l.
Definition has_pid (p : Z) (l : list process) : bool := existsb (fun ps => pid ps =? p) l.

(** The outer loop: the job of process [p] and the one after it, with the
    status stored in the job. *)
Fixpoint find_process (p st : Z) (l : list nat) : M shell (option (nat * option nat)) :=
  match l with
  | [] => ret None
  | cur :: next =>
      let! jb := load_job cur in
      do! set_job cur (fun jb => jb <| procs ::= mark p st |>) in
      if has_pid p (procs jb) then ret (Some (cur, hd_error next)) else find_process p st next
  end.

(** With [cur == NULL] the flag [terminated] is set, and every way on
    dereferences it or [head], which is NULL if there was no [prev]. *)
Definition update_process_status (p st : Z) : M shell unit :=
  let! l := gets jobs in
  let! r := find_process p st l in
  match r with
  | None => crash NullDeref
  | Some (cur, next) =>
      let! jb := load_job cur in
      if all_terminated (procs jb) then
        let! c := gets current in
        do! (if decide (c = Some cur) then modify (fun s => s <| current := next |>) else ret tt) in
        modify (fun s => s <| jobs ::= filter (fun a => a <> cur) |>)
      else if all_stopped (procs jb) then modify (fun s => s <| current := Some cur |>)
      else ret tt
  end.

Definition reap : M shell unit :=
  let! n := tick in
  foreach (children n) (fun '(p, st) => update_process_status p st).

(** The loop of [wait_job] over the processes; [st] is the variable [status]. *)
Fixpoint wait_procs (l : list process) (st : Z) : M shell (list process) :=
  match l with
  | [] => ret []
  | ps :: l =>
      let! n := tick in
      let st := match wait_status n (pid ps) with Some st => st | None => st end in
      let! l := wait_procs l st in
      ret (change_status ps st :: l)
  end.

Definition wait_job (a : nat) : M shell unit :=
  let! jb := load_job a in
  do! modify (fun s => s <| terminal := pgid jb |>) in
  let! l := wait_procs (procs jb) junk_int in
  do! set_job a (fun jb => jb <| procs := l |>) in
  do! (if all_terminated l then
         let! js := gets jobs in
         match js with
         | [] => crash NullDeref
         | _ :: js => modify (fun s => s <| jobs := js |>)
         end
       else if all_stopped l then modify (fun s => s <| current := Some a |>)
       else ret tt) in
  modify (fun s => s <| terminal := own_pid |>).

Fixpoint get_job_loop (g : Z) (l : list nat) : M shell (option nat) :=
  match l with
  | [] => ret None
  | a :: l =>
      let! jb := load_job a in
      if pgid jb =? g then ret (Some a) else get_job_loop g l
  end.

Definition get_job (g : Z) : M shell (option nat) :=
  let! l := gets jobs in get_job_loop g l.

(** It stores 1, which means stopped. *)
Definition mark_job_running (a : option nat) : M shell unit :=
  match a with
  | None => crash NullDeref
  | Some a =>
      let! _ := load_job a in
      set_job a (fun jb => jb <| procs ::= map (fun ps => mk_process (pid ps) 1) |>)
  end.

(** [kind] is false for [bg]; [pgid] is not set for more than one argument. *)
Definition resume (argv : list str) (kind : bool) : M shell unit :=
  let! s := gets (fun s => s) in
  let! g := (match argv with
             | [_] => match current s, jobs s with
                      | Some a, _ => let! jb := load_job a in ret (Some (pgid jb))
                      | None, a :: _ => let! jb := load_job a in ret (Some (pgid jb))
                      | None, [] => ret None
                      end
             | [_; n] => ret (Some (atoi n))
             | _ => ret (Some junk_int)
             end) in
  match g with
  | None => ret tt
  | Some g =>
      let! a := get_job g in
      let! n := tick in
      when (kill_ok n (- g))
        (do! mark_job_running a in
         match kind, a with
         | true, Some a => wait_job a
         | true, None => crash NullDeref
         | false, _ => ret tt
         end)
  end.

(** One child of a pipeline, in the parent; [g] is the variable [pgid] and the
    result its new value.  A pipe is opened, and of its ends one is closed. *)
Definition spawn (c : str) (g : Z) : M shell Z :=
  do! modify (fun s => s <| pipe_ends ::= Z.add 2 |>) in
  let! n := tick in
  let p := fork_pid n in
  let! s := gets (fun s => s) in
  let! g := (if g =? 0 then
               let a := next_job s in
               do! modify (fun s => s <| heap ::= <[a := mk_job [mk_process p 0] p c]> |>) in
               do! modify (fun s => s <| next_job := S a |>) in
               do! modify (fun s => s <| jobs ::= cons a |>) in
               ret p
             else
               match jobs s with
               | a :: _ =>
                   let! _ := load_job a in
                   do! set_job a (fun jb => jb <| procs ::= cons (mk_process p 0) |>) in
                   ret g
               | [] => crash NullDeref
               end) in
  do! modify (fun s => s <| pipe_ends ::= Z.pred |>) in
  ret g.

Fixpoint spawn_all (c : str) (count : nat) (g : Z) : M shell Z :=
  match count with
  | O => ret g
  | S count => let! g := spawn c g in spawn_all c count g
  end.

(** The end of [exec_job]: [jb] is the job that the first child made. *)
Definition run_job (c : str) (count : nat) (async : bool) : M shell unit :=
  do! reap in
  let! a := gets next_job in
  let! _ := spawn_all c count 0 in
  if async then ret tt else wait_job a.

(** The lines that [print_jobs] prints: number, group and command. *)
Fixpoint print_jobs_from (i : Z) (l : list nat) : M shell (list (Z * Z * str)) :=
  match l with
  | [] => ret []
  | a :: l =>
      let! jb := load_job a in
      let! rest := print_jobs_from (i + 1) l in
      ret ((i, pgid jb, cmd jb) :: rest)
  end.
Definition print_jobs : M shell (list (Z * Z * str)) :=
  let! l := gets jobs in print_jobs_from 1 l.

(** The directory that [cd] changes to; [None] without an argument is the home
    directory, and more than one is refused. *)
Definition cd (argv : list str) : option (option str) :=
  match argv with
  | [_] => Some None
  | [_; d] => Some (Some d)
  | _ => None
  end.

(** What an internal command did: the shell ends, the command was done, or it
    is none. *)
Inductive done : Type := Exited | Handled | NotInternal.

Definition exec_internal_cmd (cmdline : str) : M shell done :=
  let! c := (fun s => match internal_cmd (array_room (strlen cmdline)) cmdline with
                      | Done c => Done (c, s) | Crash f => Crash f end) in
  do! reap in
  match c with
  | cmd_exit => ret Exited
  | cmd_jobs => let! _ := print_jobs in ret Handled
  | cmd_cd argv => let _ := cd argv in ret Handled
  | cmd_bg argv => do! resume argv false in ret Handled
  | cmd_fg argv => do! resume argv true in ret Handled
  | cmd_external => ret NotInternal
  end.

(** [exec_job]; the result says whether the shell goes on. *)
Definition exec_job (cmdline : str) : M shell bool :=
  let! r := (fun s => match split_job cmdline with Done r => Done (r, s) | Crash f => Crash f end) in
  let '(async, buf, cmdlines) := r in
  let! d := (match cmdlines with
             | [o] => exec_internal_cmd (drop o buf)
             | _ => ret NotInternal
             end) in
  match d with
  | Exited => ret false
  | Handled => ret true
  | NotInternal => do! run_job (cstr cmdline) (length cmdlines) async in ret true
  end.

(** Not called: it applies [WIFSTOPPED] to the shell's own codes. *)
Definition is_stopped (jb : job) : bool := forallb (fun ps => WIFSTOPPED (status ps)) (procs jb).
End Shell.

(** ** The table of jobs

    What the list of jobs means: a sequence of process groups with the states
    of their processes. *)

Definition entry : Type := Z * list process.

Definition job_at (h : gmap nat job) (a : nat) : entry :=
  match h !! a with Some jb => (pgid jb, procs jb) | None => (0, []) end.
Definition table (s : shell) : list entry := map (job_at (heap s)) (jobs s).
Definition pids (t : list entry) : list Z := concat (map (fun e => map pid (snd e)) t).

(** Some process of the job has not terminated. *)
Definition alive (e : entry) : bool := negb (all_terminated (snd e)).

(** The change of state of one process, for the whole table. *)
Definition refresh (p st : Z) (t : list entry) : list entry :=
  filter (fun e => alive e = true) (map (fun e => (fst e, mark p st (snd e))) t).

(** The list is well formed, no process is in it twice, and every job has a
    process that has not terminated. *)
Record shell_ok (s : shell) : Prop := {
  so_nodup : NoDup (jobs s);
  so_heap : forall a, a ∈ jobs s -> is_Some (heap s !! a);
  so_next : forall a, a ∈ jobs s -> (a < next_job s)%nat;
  so_pids : NoDup (pids (table s));
  so_alive : forall e, e ∈ table s -> alive e = true
}.

Section Marks.
Implicit Types (l : list process) (p st : Z).

Lemma mark_other p st l : has_pid p l = false -> mark p st l = l.
Proof.
  induction l as [|ps l IH]; intros H; [done|]. simpl in *. apply orb_false_iff in H as [-> H].
  by rewrite (IH H).
Qed.

Lemma has_pid_elem p l : has_pid p l = true <-> p ∈ map pid l.
Proof.
  induction l as [|ps l IH]; simpl; [split; [done|by intros ?%not_elem_of_nil]|].
  rewrite orb_true_iff, IH, Z.eqb_eq, elem_of_cons. naive_solver.
Qed.

Lemma change_pid ps st : pid (change_status ps st) = pid ps.
Proof. unfold change_status. by destruct (_ || _), (WIFSTOPPED st). Qed.

Lemma mark_pids p st l : map pid (mark p st l) = map pid l.
Proof.
  induction l as [|ps l IH]; [done|]. simpl. rewrite IH. f_equal.
  destruct (_ =? _); [apply change_pid | done].
Qed.

Lemma has_pid_mark p q st l : has_pid q (mark p st l) = has_pid q l.
Proof. apply eq_true_iff_eq. by rewrite !has_pid_elem, mark_pids. Qed.

Lemma pids_app t t' : pids (t ++ t') = pids t ++ pids t'.
Proof. unfold pids. by rewrite map_app, concat_app. Qed.

(** A job without the process stays as it is. *)
Lemma refresh_skip p st t :
  p ∉ pids t -> (forall e, e ∈ t -> alive e = true) -> refresh p st t = t.
Proof.
  induction t as [|e t IH]; intros Hp Ha; [done|]. unfold pids in Hp. simpl in Hp.
  apply not_elem_of_app in Hp as [Hp1 Hp2]. unfold refresh. simpl.
  assert (Hm : mark p st (snd e) = snd e).
  { apply mark_other, not_true_iff_false. by rewrite has_pid_elem. }
  rewrite Hm, filter_cons, decide_True by (destruct e; apply Ha; by left).
  rewrite <- surjective_pairing. f_equal. apply IH; [done|]. intros e' He'. apply Ha. by right.
Qed.

Lemma refresh_app p st t t' : refresh p st (t ++ t') = refresh p st t ++ refresh p st t'.
Proof. unfold refresh. by rewrite map_app, filter_app. Qed.

Lemma refresh_pids p st t : sublist (pids (refresh p st t)) (pids t).
Proof.
  induction t as [|e t IH]; [done|]. unfold refresh, pids in *. simpl.
  rewrite filter_cons. case_decide.
  - simpl. rewrite mark_pids. by apply sublist_app.
  - by apply sublist_inserts_l.
Qed.

Lemma refresh_alive p st t e : e ∈ refresh p st t -> alive e = true.
Proof. by intros [? _]%list_elem_of_filter. Qed.
End Marks.

(** A state with another heap. *)
Lemma heap_id s h : h = heap s -> s <| heap := h |> = s.
Proof. intros ->. by destruct s. Qed.

Section Collect.
Context `{Hos : Os}.
Implicit Types s : shell.

Lemma load_job_run a jb (Q : job -> shell -> Prop) s : heap s !! a = Some jb -> Q jb s -> wp (load_job a) Q s.
Proof. intros H HQ. unfold load_job. wgo. by rewrite H. Qed.

(** The job of [p] is found if it is in the list, and then only it changes. *)
Lemma find_process_run p st l s :
  (forall a, a ∈ l -> is_Some (heap s !! a)) -> NoDup l ->
  wp (find_process p st l) (fun r s' =>
    match r with
    | None => s' = s /\ p ∉ pids (map (job_at (heap s)) l)
    | Some (cur, next) => exists l1 l2, l = l1 ++ cur :: l2 /\ next = hd_error l2 /\
        p ∉ pids (map (job_at (heap s)) l1) /\ p ∈ map pid (snd (job_at (heap s) cur)) /\
        s' = s <| heap ::= alter (fun jb => jb <| procs ::= mark p st |>) cur |>
    end) s.
Proof.
  revert s. induction l as [|cur l IH]; intros s Hh Hnd; cbn [find_process].
  { wgo. split; [done|apply not_elem_of_nil]. }
  destruct (Hh cur ltac:(by left)) as [jb Hjb]. apply NoDup_cons in Hnd as [Hcur Hnd].
  wstep. apply (load_job_run _ jb); [done|]. unfold set_job. wgo. apply wp_if; intros Hp.
  - wgo. exists [], l. split_and!; try done; [apply not_elem_of_nil|].
    unfold job_at. rewrite Hjb. by apply has_pid_elem.
  - assert (E : s <| heap ::= alter (fun jb => jb <| procs ::= mark p st |>) cur |> = s).
    { destruct s as [h ? ? ? ? ? ?]. unfold upd, heap_field. simpl. f_equal. simpl in Hjb.
      apply map_eq. intros a. destruct (decide (a = cur)) as [->|Hne].
      - rewrite lookup_alter_eq, Hjb. simpl. unfold upd, procs_field. rewrite (mark_other _ _ _ Hp). by destruct jb.
      - by rewrite lookup_alter_ne. }
    rewrite E. wcall IH; [intros a Ha; apply Hh; by right|done|].
    assert (Hpc : p ∉ map pid (snd (job_at (heap s) cur))).
    { unfold job_at. rewrite Hjb. simpl. rewrite <- has_pid_elem. by rewrite Hp. }
    intros [[cur' next]|] s'.
    + intros (l1 & l2 & -> & -> & Hl1 & Hin & ->). exists (cur :: l1), l2. split_and!; try done.
      unfold pids. simpl. rewrite elem_of_app. naive_solver.
    + intros [-> Hl]. split; [done|]. unfold pids. simpl. rewrite elem_of_app. naive_solver.
Qed.

Lemma job_at_alter f a h b :
  job_at (alter f a h) b = if decide (a = b) then match h !! b with Some jb => (pgid (f jb), procs (f jb)) | None => (0, []) end
                           else job_at h b.
Proof.
  unfold job_at. destruct (decide (a = b)) as [->|Hne].
  - rewrite lookup_alter_eq. by destruct (h !! b).
  - by rewrite lookup_alter_ne.
Qed.

Lemma table_other f a (h : gmap nat job) l : a ∉ l -> map (job_at (alter f a h)) l = map (job_at h) l.
Proof.
  intros Ha. apply map_ext_in. intros b Hb. rewrite job_at_alter, decide_False; [done|].
  intros ->. by apply Ha, list_elem_of_In.
Qed.

(** [current] points to a job of the list. *)
Definition current_ok s : Prop := forall a, current s = Some a -> a ∈ jobs s.

Lemma filter_other (a : nat) (l : list nat) : a ∉ l -> filter (fun b => b <> a) l = l.
Proof.
  induction l as [|b l IH]; intros H; [done|]. apply not_elem_of_cons in H as [H1 H2].
  rewrite filter_cons, decide_True by done. by rewrite IH.
Qed.

(** The list of [s'] as that of [s], but for what happened to job [cur]. *)
Lemma shell_ok_shrink s s' :
  shell_ok s -> sublist (jobs s') (jobs s) -> dom (heap s') = dom (heap s) -> next_job s' = next_job s ->
  sublist (pids (table s')) (pids (table s)) -> (forall e, e ∈ table s' -> alive e = true) -> shell_ok s'.
Proof.
  intros [H1 H2 H3 H4 H5] Hj Hd Hn Hp Ha. split; [by eapply sublist_NoDup| | |by eapply sublist_NoDup|done].
  - intros a Hin. apply elem_of_dom. rewrite Hd. apply elem_of_dom, H2. by eapply elem_of_sublist.
  - intros a Hin. rewrite Hn. apply H3. by eapply elem_of_sublist.
Qed.

(** What stays as it was: the rest of the shell's state. *)
Definition same_shell s s' : Prop :=
  next_job s' = next_job s /\ clock s' = clock s /\ pipe_ends s' = pipe_ends s /\ terminal s' = terminal s.

(** The job of [p], found and marked; the others are as they were. *)
Lemma refresh_at p st cur l1 l2 jb s :
  shell_ok s -> jobs s = l1 ++ cur :: l2 -> heap s !! cur = Some jb ->
  p ∉ pids (map (job_at (heap s)) l1) -> p ∈ map pid (procs jb) ->
  let h' := alter (fun jb => jb <| procs ::= mark p st |>) cur (heap s) in
  refresh p st (table s) = map (job_at h') l1 ++
    filter (fun e => alive e = true) [(pgid jb, mark p st (procs jb))] ++ map (job_at h') l2 /\
  job_at h' cur = (pgid jb, mark p st (procs jb)).
Proof.
  intros [Hnd Hheap Hnext Hpids Halive] El Hjb Hl1 Hcur h'.
  rewrite El in Hnd. apply NoDup_app in Hnd as (Hnd1 & Hdis & [Hc2 Hnd2]%NoDup_cons).
  assert (Hc1 : cur ∉ l1) by (intros ?; apply (Hdis cur); [done|by left]).
  assert (Ej0 : job_at (heap s) cur = (pgid jb, procs jb)) by (unfold job_at; by rewrite Hjb).
  assert (Et : table s = map (job_at (heap s)) l1 ++ (pgid jb, procs jb) :: map (job_at (heap s)) l2).
  { unfold table. rewrite El, map_app. simpl. by rewrite Ej0. }
  assert (Hl2 : p ∉ pids (map (job_at (heap s)) l2)).
  { intros Hin. rewrite Et, pids_app in Hpids. apply NoDup_app in Hpids as (_ & _ & Hpids).
    unfold pids in Hpids. simpl in Hpids. apply NoDup_app in Hpids as (_ & Hd & _). by apply (Hd p). }
  split; [|unfold h'; rewrite job_at_alter, decide_True, Hjb by done; done].
  unfold h'. rewrite !table_other by done. rewrite Et, refresh_app.
  rewrite (refresh_skip p st _ Hl1) by (intros e He; apply Halive; rewrite Et; set_solver).
  f_equal. change (_ :: map (job_at (heap s)) l2) with ([(pgid jb, procs jb)] ++ map (job_at (heap s)) l2).
  rewrite refresh_app. rewrite (refresh_skip p st _ Hl2) by (intros e He; apply Halive; rewrite Et; set_solver).
  done.
Qed.

(** A shell whose table is the refreshed one. *)
Lemma refreshed_ok p st s s' :
  shell_ok s -> sublist (jobs s') (jobs s) -> dom (heap s') = dom (heap s) -> same_shell s s' ->
  table s' = refresh p st (table s) -> shell_ok s'.
Proof.
  intros Hok Hj Hd Hs Ht. apply (shell_ok_shrink s); [done|done|done|apply Hs|..]; rewrite Ht.
  - apply refresh_pids.
  - apply refresh_alive.
Qed.

Lemma update_process_status_run p st s :
  shell_ok s -> p ∈ pids (table s) ->
  wp (update_process_status p st) (fun _ s' => shell_ok s' /\ table s' = refresh p st (table s) /\
    (current_ok s -> current_ok s') /\ same_shell s s') s.
Proof.
  intros Hok Hp. pose proof Hok as [Hnd Hheap _ _ _]. unfold update_process_status. wgo.
  wcall find_process_run; [done|done|]. intros [[cur next]|] s1; [|by intros [_ ?]].
  intros (l1 & l2 & El & -> & Hl1 & Hcur & ->).
  destruct (Hheap cur) as [jb Hjb]; [rewrite El; set_solver|]. unfold job_at in Hcur. rewrite Hjb in Hcur.
  destruct (refresh_at p st cur l1 l2 jb s Hok El Hjb Hl1 Hcur) as [Er Ej].
  set (h' := alter (fun jb => jb <| procs ::= mark p st |>) cur (heap s)) in *.
  assert (Hdom : dom h' = dom (heap s)) by apply dom_alter_L.
  wstep. apply (load_job_run _ (jb <| procs ::= mark p st |>)); [simpl; by rewrite lookup_alter_eq, Hjb|].
  unfold alive in Er. rewrite filter_cons, filter_nil in Er. simpl in Er.
  apply wp_if; intros Hterm; simpl in Hterm; rewrite Hterm in Er; simpl in Er.
  - (* the job is removed *)
    rewrite El in Hnd. apply NoDup_app in Hnd as (_ & Hdis & [Hc2 _]%NoDup_cons).
    assert (Ef : filter (fun a => a <> cur) (jobs s) = l1 ++ l2).
    { rewrite El, filter_app, filter_cons, decide_False by tauto. rewrite !filter_other; [done|done|].
      intros ?. apply (Hdis cur); [done|by left]. }
    assert (Hend : forall s2, heap s2 = h' -> jobs s2 = jobs s -> same_shell s s2 ->
      (current_ok s -> forall a, current s2 = Some a -> a ∈ l1 ++ l2) ->
      let s3 := s2 <| jobs ::= filter (fun a => a <> cur) |> in
      shell_ok s3 /\ table s3 = refresh p st (table s) /\ (current_ok s -> current_ok s3) /\ same_shell s s3).
    { intros s2 Hh Hj Hsame Hc s3. assert (Hj3 : jobs s3 = l1 ++ l2) by (unfold s3; simpl; by rewrite Hj).
      assert (Ht3 : table s3 = refresh p st (table s)).
      { unfold table. rewrite Hj3. unfold s3. simpl. by rewrite Hh, map_app. }
      split_and!; [|done|intros Hcur0 a Ha; rewrite Hj3; by apply Hc|done].
      apply (refreshed_ok p st s); [done| |unfold s3; simpl; by rewrite Hh|done..].
      rewrite Hj3, El. apply sublist_app; [done|by apply sublist_cons]. }
    wgo. destruct (decide _) as [Hcu|Hcu]; wgo; apply Hend; try done; simpl.
    + intros _ a Ha. destruct l2; simplify_eq/=. set_solver.
    + intros Hc a Ha. specialize (Hc a Ha). rewrite El in Hc. set_solver.
  - (* the job stays, perhaps as the current one *)
    assert (Hend : forall s2, heap s2 = h' -> jobs s2 = jobs s -> same_shell s s2 ->
      (current_ok s -> current_ok s2) ->
      shell_ok s2 /\ table s2 = refresh p st (table s) /\ (current_ok s -> current_ok s2) /\ same_shell s s2).
    { intros s2 Hh Hj Hsame Hc. assert (Ht2 : table s2 = refresh p st (table s)).
      { rewrite Er. unfold table. rewrite Hj, El, Hh, map_app. cbn [map]. by rewrite Ej. }
      split_and!; [|done|done|done]. apply (refreshed_ok p st s); [done|by rewrite Hj|by rewrite Hh|done..]. }
    apply wp_if; intros _; wgo; apply Hend; try done.
    intros _ a [= <-]. simpl. rewrite El. set_solver.
Qed.

(** C32: [update_process_status] implements a table of process groups: the
    report of a child changes the state of that process wherever it is, and a
    job leaves the table when all of its processes have terminated, the others
    staying in order; [current] keeps pointing to a listed job. *)
Theorem update_process_status_refines p st s :
  shell_ok s -> current_ok s -> p ∈ pids (table s) ->
  exists s', update_process_status p st s = Done (tt, s') /\
    shell_ok s' /\ current_ok s' /\ table s' = refresh p st (table s).
Proof.
  intros Hok Hc Hp. pose proof (update_process_status_run p st s Hok Hp) as H.
  apply wp_done in H as ([] & s' & ? & ? & ? & ? & _). exists s'. auto.
Qed.

(** The report of a child that is in no job crashes the shell, whatever the
    list: after its message the code dereferences a null pointer on every
    path. *)
Theorem unknown_child_crashes p st s :
  (forall a, a ∈ jobs s -> is_Some (heap s !! a)) -> NoDup (jobs s) -> p ∉ pids (table s) ->
  update_process_status p st s = Crash NullDeref.
Proof.
  intros Hh Hnd Hp. unfold update_process_status, bind, gets.
  pose proof (find_process_run p st (jobs s) s Hh Hnd) as H.
  apply wp_done in H as ([[cur next]|] & s' & -> & H); [|done]. exfalso. apply Hp.
  destruct H as (l1 & l2 & El & _ & _ & Hin & _). unfold table. rewrite El, map_app, pids_app. simpl.
  unfold pids. simpl. rewrite !elem_of_app. by right; left.
Qed.

(** The reports are about processes of the table, as it is by then. *)
Fixpoint known (l : list (Z * Z)) (t : list entry) : Prop :=
  match l with
  | [] => True
  | (p, st) :: l => p ∈ pids t /\ known l (refresh p st t)
  end.
Definition collect (l : list (Z * Z)) (t : list entry) : list entry :=
  foldl (fun t '(p, st) => refresh p st t) t l.

Lemma reports_run l s :
  shell_ok s -> known l (table s) ->
  wp (foreach l (fun '(p, st) => update_process_status p st)) (fun _ s' =>
    shell_ok s' /\ table s' = collect l (table s) /\ (current_ok s -> current_ok s') /\ same_shell s s') s.
Proof.
  revert s. induction l as [|[p st] l IH]; intros s Hok Hk; cbn [foreach]; [by wgo|].
  destruct Hk as [Hp Hk]. wstep. wcall update_process_status_run; [done|done|].
  intros [] s1 (Hok1 & Ht1 & Hc1 & Hs1). wcall IH; [done|by rewrite Ht1|].
  intros [] s2 (Hok2 & Ht2 & Hc2 & Hs2). rewrite Ht1 in Ht2. unfold same_shell in *.
  split_and!; try naive_solver congruence; intuition congruence.
Qed.

Lemma tick_run s (Q : nat -> shell -> Prop) : Q (clock s) (s <| clock := S (clock s) |>) -> wp tick Q s.
Proof. done. Qed.

(** What [reap] does; the reports of one call are one system call of the model. *)
Lemma reap_run s :
  shell_ok s -> known (children (clock s)) (table s) ->
  wp reap (fun _ s' => shell_ok s' /\ table s' = collect (children (clock s)) (table s) /\
    (current_ok s -> current_ok s') /\ clock s' = S (clock s) /\ next_job s' = next_job s /\
    pipe_ends s' = pipe_ends s) s.
Proof.
  intros Hok Hk. unfold reap. wstep. apply tick_run. wcall reports_run; [by destruct Hok; split|done|].
  intros [] s' (? & ? & Hc & ? & ? & ? & ?). by split_and!.
Qed.

(** ** Starting a pipeline *)

Lemma table_head s a js : jobs s = a :: js -> table s = job_at (heap s) a :: map (job_at (heap s)) js.
Proof. intros H. unfold table. by rewrite H. Qed.

(** The head of the list with other processes. *)
Lemma shell_ok_head s s' a js f :
  shell_ok s -> jobs s = a :: js -> jobs s' = jobs s -> next_job s' = next_job s ->
  heap s' = alter f a (heap s) -> (forall jb, pgid (f jb) = pgid jb) ->
  NoDup (pids (table s')) -> alive (job_at (heap s') a) = true ->
  shell_ok s' /\ table s' = job_at (heap s') a :: map (job_at (heap s)) js.
Proof.
  intros Hok Hj Hj' Hn Hh Hf Hp Ha. pose proof Hok as [Hnd Hheap Hnext Hpids Halive].
  assert (Hajs : a ∉ js) by (rewrite Hj in Hnd; by apply NoDup_cons in Hnd as [? _]).
  assert (Ht : table s' = job_at (heap s') a :: map (job_at (heap s)) js).
  { rewrite (table_head s' a js) by congruence. f_equal. rewrite Hh. by apply table_other. }
  split; [|done]. split; [by rewrite Hj'| |by rewrite Hj', Hn|done|].
  - intros b Hb. rewrite Hj' in Hb. rewrite Hh. apply elem_of_dom. rewrite dom_alter_L. by apply elem_of_dom, Hheap.
  - rewrite Ht. intros e [->|He]%elem_of_cons; [done|]. apply Halive. rewrite (table_head s a js Hj). by right.
Qed.

Lemma spawn_first_run c s :
  shell_ok s -> fork_pid (clock s) ∉ pids (table s) ->
  wp (spawn c 0) (fun g s' => g = fork_pid (clock s) /\ shell_ok s' /\
    table s' = (g, [mk_process g 0]) :: table s /\ jobs s' = next_job s :: jobs s /\
    clock s' = S (clock s) /\ pipe_ends s' = pipe_ends s + 1 /\ current s' = current s) s.
Proof.
  intros [Hnd Hheap Hnext Hpids Halive] Hp. unfold spawn, tick. wgo. apply wp_if; intros He; [clear He|done]. wgo.
  set (p := fork_pid _) in *. set (a := next_job _) in *.
  assert (Ha : next_job s ∉ jobs s) by (intros H%Hnext; lia).
  set (h' := <[next_job s := mk_job [mk_process p 0] p c]> (heap s)).
  assert (Ht : map (job_at h') (next_job s :: jobs s) = (p, [mk_process p 0]) :: table s).
  { simpl. unfold h' at 1, job_at at 1. rewrite lookup_insert_eq. f_equal. unfold table. apply map_ext_in.
    intros b Hb. unfold job_at, h'. rewrite lookup_insert_ne; [done|]. intros <-. by apply Ha, list_elem_of_In. }
  split; [done|]. split; [|split_and!; try done; simpl; lia]. split; simpl.
  - by apply NoDup_cons.
  - intros b [->|Hb]%elem_of_cons; [by rewrite lookup_insert_eq|].
    rewrite lookup_insert_ne by (intros <-; contradiction). by apply Hheap.
  - intros b [->|Hb]%elem_of_cons; [unfold a; simpl; lia|]. apply Hnext in Hb. unfold a. simpl. lia.
  - change (NoDup (pids (map (job_at h') (next_job s :: jobs s)))). rewrite Ht. unfold pids. simpl. by apply NoDup_cons.
  - change (forall e, e ∈ map (job_at h') (next_job s :: jobs s) -> alive e = true). rewrite Ht.
    intros e [->|He]%elem_of_cons; [done|by apply Halive].
Qed.

Lemma spawn_next_run c g s a js l t :
  shell_ok s -> fork_pid (clock s) ∉ pids (table s) -> g <> 0 ->
  jobs s = a :: js -> table s = (g, l) :: t ->
  wp (spawn c g) (fun g' s' => g' = g /\ shell_ok s' /\
    table s' = (g, mk_process (fork_pid (clock s)) 0 :: l) :: t /\ jobs s' = jobs s /\
    clock s' = S (clock s) /\ pipe_ends s' = pipe_ends s + 1 /\ current s' = current s) s.
Proof.
  intros Hok Hp Hg Hj Ht. unfold spawn, tick. wgo. rewrite (proj2 (Z.eqb_neq g 0)) by done. simpl. rewrite Hj.
  set (p := fork_pid _) in *. pose proof Ht as Et. rewrite (table_head s a js Hj) in Et. injection Et as Ea Ejs.
  destruct (so_heap s Hok a) as [jb Hjb]; [rewrite Hj; by left|].
  assert (Eg : pgid jb = g /\ procs jb = l) by (unfold job_at in Ea; rewrite Hjb in Ea; by injection Ea).
  destruct Eg as [Eg El]. wstep. apply (load_job_run _ jb); [done|]. unfold set_job. wgo.
  set (f := fun jb0 : job => jb0 <| procs ::= cons (mk_process p 0) |>).
  match goal with |- context [shell_ok ?x] => set (s' := x) end.
  assert (Eh : heap s' = alter f a (heap s)) by done.
  assert (Ej : job_at (heap s') a = (g, mk_process p 0 :: l)).
  { rewrite Eh, job_at_alter, decide_True, Hjb by done. unfold f. simpl. by rewrite Eg, El. }
  assert (Etab : table s' = (g, mk_process p 0 :: l) :: t).
  { rewrite (table_head s' a js) by done. rewrite Ej. f_equal. rewrite <- Ejs, Eh. apply table_other.
    pose proof (so_nodup s Hok) as H. rewrite Hj in H. by apply NoDup_cons in H as [? _]. }
  destruct (shell_ok_head s s' a js f) as [Hok' _]; try done.
  - rewrite Etab. pose proof (so_pids s Hok) as H. rewrite Ht in H, Hp. unfold pids in *. simpl in *. by apply NoDup_cons.
  - by rewrite Ej.
  - split_and!; try done. simpl. lia.
Qed.

(** The children that [fork] returns from call [n] on. *)
Definition forked (n k : nat) : list Z := map fork_pid (seq n k).

Lemma spawn_rest_run k c g s a js l t :
  shell_ok s -> g <> 0 -> jobs s = a :: js -> table s = (g, l) :: t ->
  NoDup (forked (clock s) k) -> (forall p, p ∈ forked (clock s) k -> p ∉ pids (table s)) ->
  wp (spawn_all c k g) (fun g' s' => g' = g /\ shell_ok s' /\
    table s' = (g, rev (map (fun p => mk_process p 0) (forked (clock s) k)) ++ l) :: t /\ jobs s' = jobs s /\
    clock s' = (clock s + k)%nat /\ pipe_ends s' = pipe_ends s + Z.of_nat k /\ current s' = current s) s.
Proof.
  revert s l. induction k as [|k IH]; intros s l Hok Hg Hj Ht Hnd Hfresh; cbn [spawn_all].
  { wgo. split_and!; try done; lia. }
  unfold forked in Hnd, Hfresh. cbn [seq map] in Hnd, Hfresh. apply NoDup_cons in Hnd as [Hnotin Hnd].
  wstep. wcall (spawn_next_run c g s a js l t); try done; [apply Hfresh; by left|].
  intros g' s1 (-> & Hok1 & Ht1 & Hj1 & Hc1 & Hp1 & Hcu1).
  wcall (IH s1 (mk_process (fork_pid (clock s)) 0 :: l)); rewrite ?Hc1; try done; [by rewrite Hj1| |].
  { intros p Hin. rewrite Ht1. specialize (Hfresh p ltac:(by right)). rewrite Ht in Hfresh.
    unfold pids in *. simpl in *. apply not_elem_of_cons. split; [|done]. intros ->. by apply Hnotin. }
  intros g' s2 (-> & Hok2 & Ht2 & Hj2 & Hc2 & Hp2 & Hcu2). split_and!; try done; try congruence; try lia.
  rewrite Ht2. unfold forked. cbn [seq map rev]. by rewrite <- app_assoc.
Qed.

Lemma spawn_all_run k c s :
  shell_ok s -> NoDup (forked (clock s) (S k)) ->
  (forall p, p ∈ forked (clock s) (S k) -> p <> 0 /\ p ∉ pids (table s)) ->
  wp (spawn_all c (S k) 0) (fun g s' => g = fork_pid (clock s) /\ shell_ok s' /\
    table s' = (g, rev (map (fun p => mk_process p 0) (forked (clock s) (S k)))) :: table s /\
    jobs s' = next_job s :: jobs s /\ clock s' = (clock s + S k)%nat /\
    pipe_ends s' = pipe_ends s + Z.of_nat (S k) /\ current s' = current s) s.
Proof.
  intros Hok Hnd Hfresh. cbn [spawn_all]. unfold forked in Hnd, Hfresh. cbn [seq map] in Hnd, Hfresh.
  apply NoDup_cons in Hnd as [Hnotin Hnd]. destruct (Hfresh (fork_pid (clock s)) ltac:(by left)) as [Hne Hp].
  wstep. wcall spawn_first_run; [done|done|]. intros g s1 (-> & Hok1 & Ht1 & Hj1 & Hc1 & Hp1 & Hcu1).
  wcall (spawn_rest_run k c (fork_pid (clock s)) s1 (next_job s) (jobs s) [mk_process (fork_pid (clock s)) 0] (table s));
    rewrite ?Hc1; try done.
  { intros p Hin. rewrite Ht1. destruct (Hfresh p ltac:(by right)) as [_ Hpf].
    unfold pids in *. simpl. apply not_elem_of_cons. split; [|done]. intros ->. by apply Hnotin. }
  intros g s2 (-> & Hok2 & Ht2 & Hj2 & Hc2 & Hp2 & Hcu2). split_and!; try done; try congruence; try lia.
Qed.

(** ** Waiting *)

(** The processes of a job after [wait_job], the first call being number [n]:
    a failing call leaves the status of the one before. *)
Fixpoint waited (n : nat) (l : list process) (st : Z) : list process :=
  match l with
  | [] => []
  | ps :: l =>
      let st := default st (wait_status n (pid ps)) in
      change_status ps st :: waited (S n) l st
  end.

Lemma wait_procs_run l st s :
  wp (wait_procs l st) (fun l' s' => l' = waited (clock s) l st /\ s' = s <| clock := (clock s + length l)%nat |>) s.
Proof.
  revert st s. induction l as [|ps l IH]; intros st s; cbn [wait_procs].
  { wgo. split; [done|]. rewrite Nat.add_0_r. by destruct s. }
  wstep. apply tick_run. wstep. wcall IH. intros l' s' [-> ->]. wgo. split.
  - simpl. by destruct (wait_status (clock s) (pid ps)).
  - destruct s as [? ? ? ? ? ? n]. unfold upd, clock_field. simpl. f_equal. lia.
Qed.

Lemma waited_pids n l st : map pid (waited n l st) = map pid l.
Proof. revert n st. induction l as [|ps l IH]; intros n st; [done|]. simpl. by rewrite change_pid, IH. Qed.

Lemma wait_job_run a s g l :
  heap s !! a <> None -> job_at (heap s) a = (g, l) ->
  (all_terminated (waited (clock s) l junk_int) = true -> jobs s <> []) ->
  wp (wait_job a) (fun _ s' => let l' := waited (clock s) l junk_int in
    heap s' = alter (fun jb => jb <| procs := l' |>) a (heap s) /\
    jobs s' = (if all_terminated l' then tail (jobs s) else jobs s) /\
    current s' = (if all_terminated l' then current s else if all_stopped l' then Some a else current s) /\
    next_job s' = next_job s /\ pipe_ends s' = pipe_ends s /\ terminal s' = own_pid) s.
Proof.
  intros Hh Hj Hne. unfold wait_job. destruct (heap s !! a) as [jb|] eqn:E; [|done].
  unfold job_at in Hj. rewrite E in Hj. injection Hj as Hg Hl.
  wstep. apply (load_job_run _ jb); [done|]. unfold set_job. wgo. wcall wait_procs_run. intros l' s1 [-> ->].
  rewrite Hl. wgo. simpl. destruct (all_terminated _) eqn:Eterm.
  - wgo. simpl. destruct (jobs s) as [|b js]; [by destruct (Hne eq_refl)|]. wgo. by split_and!.
  - apply wp_if; intros ->; wgo; by split_and!.
Qed.

(** Waiting for the first job. *)
Lemma wait_head_run a js g l t s :
  shell_ok s -> jobs s = a :: js -> table s = (g, l) :: t ->
  wp (wait_job a) (fun _ s' => shell_ok s' /\
    table s' = filter (fun e => alive e = true) [(g, waited (clock s) l junk_int)] ++ t /\
    terminal s' = own_pid /\ pipe_ends s' = pipe_ends s) s.
Proof.
  intros Hok Hj Ht. pose proof Ht as Et. rewrite (table_head s _ _ Hj) in Et. injection Et as Ea Ejs.
  destruct (so_heap s Hok a) as [jb Hjb]; [rewrite Hj; by left|].
  wcall (wait_job_run a s g l); [by rewrite Hjb|done|by rewrite Hj|].
  set (l' := waited _ _ _). cbv zeta. intros [] s' (Hh & Hj' & _ & Hn & Hp & Hterm).
  set (f := fun jb0 : job => jb0 <| procs := l' |>) in *.
  assert (Ej : job_at (heap s') a = (g, l')).
  { rewrite Hh, job_at_alter, decide_True, Hjb by done. unfold f. simpl.
    unfold job_at in Ea. rewrite Hjb in Ea. by injection Ea as -> _. }
  assert (Hpids : pids ((g, l') :: t) = pids (table s)).
  { rewrite Ht. unfold pids. simpl. unfold l'. by rewrite waited_pids. }
  assert (Hajs : a ∉ js).
  { pose proof (so_nodup s Hok) as H. rewrite Hj in H. by apply NoDup_cons in H as [? _]. }
  assert (Hrest : map (job_at (heap s')) js = t) by (by rewrite Hh, table_other).
  assert (Ef : filter (fun e => alive e = true) [(g, l')] = if all_terminated l' then [] else [(g, l')]).
  { rewrite filter_cons, filter_nil. case_decide as Hal; unfold alive in Hal; simpl in Hal;
      by destruct (all_terminated l'). }
  rewrite Ef. clear Ef. destruct (all_terminated l') eqn:El'; simpl.
  - assert (Ht' : table s' = t) by (unfold table; rewrite Hj', Hj; exact Hrest).
    split_and!; try done. apply (shell_ok_shrink s); [done| |rewrite Hh; apply dom_alter_L|done| |]; rewrite ?Ht', ?Ht.
    + rewrite Hj', Hj. by apply sublist_cons.
    + unfold pids. simpl. by apply sublist_inserts_l.
    + intros e He. apply (so_alive s Hok). rewrite Ht. by right.
  - assert (Ht' : table s' = (g, l') :: t).
    { rewrite (table_head s' a js) by congruence. by rewrite Ej, Hrest. }
    split_and!; try done. destruct (shell_ok_head s s' a js f) as [? _]; try done.
    + rewrite Ht', Hpids. apply Hok.
    + rewrite Ej. unfold alive. simpl. by rewrite El'.
Qed.

Lemma run_job_run c k async s :
  shell_ok s -> known (children (clock s)) (table s) ->
  let t := collect (children (clock s)) (table s) in
  let n := S (clock s) in
  NoDup (forked n (S k)) -> (forall p, p ∈ forked n (S k) -> p <> 0 /\ p ∉ pids t) ->
  wp (run_job c (S k) async) (fun _ s' => shell_ok s' /\
    let running := rev (map (fun p => mk_process p 0) (forked n (S k))) in
    table s' = filter (fun e => alive e = true)
      [(fork_pid n, if async then running else waited (n + S k) running junk_int)] ++ t /\
    (async = false -> terminal s' = own_pid) /\ pipe_ends s' = pipe_ends s + Z.of_nat (S k)) s.
Proof.
  intros Hok Hk t n Hnd Hfresh. unfold run_job. wstep. wcall reap_run; [done|done|].
  intros [] s1 (Hok1 & Ht1 & _ & Hc1 & Hn1 & Hp1). fold t in Ht1. fold n in Hc1. wgo.
  wcall (spawn_all_run k c s1); rewrite ?Hc1, ?Ht1; [done|done|done|].
  intros g' s2 (-> & Hok2 & Ht2 & Hj2 & Hc2 & Hp2 & Hcu2). destruct async.
  - assert (Ealive : alive (fork_pid n, rev (map (fun p => mk_process p 0) (forked n (S k)))) = true).
    { apply (so_alive s2 Hok2). rewrite Ht2. by left. }
    wgo. rewrite filter_cons, decide_True by done. split_and!; [done|by rewrite Ht2|done|lia].
  - wcall wait_head_run; [done|done|done|]. intros [] s3 (Hok3 & Ht3 & Hterm & Hp3).
    rewrite Hc2 in Ht3. split_and!; [done|done|done|lia].
Qed.

(** C33: A command line with [count] commands adds one job in front of the table,
    after the children that had terminated were collected: its group is that
    of the first child, its processes those children.  In the background they
    run; in the foreground the shell waits for each, and the job is gone if
    all have terminated and stays, with their states, if not; the other jobs
    stay as they are, and the terminal goes back to the shell.  Each command
    leaves one more end of a pipe open in the shell. *)
Theorem run_job_spec c count async s :
  shell_ok s -> known (children (clock s)) (table s) -> (0 < count)%nat ->
  let t := collect (children (clock s)) (table s) in
  let n := S (clock s) in
  NoDup (forked n count) -> (forall p, p ∈ forked n count -> p <> 0 /\ p ∉ pids t) ->
  exists s', run_job c count async s = Done (tt, s') /\ shell_ok s' /\
    let running := rev (map (fun p => mk_process p 0) (forked n count)) in
    table s' = filter (fun e => alive e = true)
      [(fork_pid n, if async then running else waited (n + count) running junk_int)] ++ t /\
    (async = false -> terminal s' = own_pid) /\ pipe_ends s' = pipe_ends s + Z.of_nat count.
Proof.
  intros Hok Hk Hcount t n Hnd Hfresh. destruct count as [|k]; [lia|].
  pose proof (run_job_run c k async s Hok Hk Hnd Hfresh) as H.
  apply wp_done in H as ([] & s' & ? & ?). eauto.
Qed.

(** [fg] of a job that is not the first one removes the wrong job: when all
    processes of [a] have terminated, [wait_job] takes the head off the list,
    and [a], of which nothing runs, stays. *)
Theorem wait_job_removes_head a b js s :
  jobs s = b :: js -> a ∈ js -> is_Some (heap s !! a) ->
  all_terminated (waited (clock s) (snd (job_at (heap s) a)) junk_int) = true ->
  exists s', wait_job a s = Done (tt, s') /\ jobs s' = js /\ a ∈ jobs s' /\
    alive (job_at (heap s') a) = false.
Proof.
  intros Hj Ha [jb Hjb] Hterm. destruct (job_at (heap s) a) as [g l] eqn:Ej. simpl in Hterm.
  pose proof (wait_job_run a s g l) as H. cbv zeta in H. rewrite Hterm in H.
  apply wp_done in H as ([] & s' & He & Hh & Hjs & _); [|by rewrite Hjb|done|by rewrite Hj].
  exists s'. rewrite Hjs, Hj. split_and!; [done|done|done|].
  rewrite Hh, job_at_alter, decide_True, Hjb by done. unfold alive. simpl. by rewrite Hterm.
Qed.
End Collect.

(** ** Concrete instances *)

Module Example.
(** Children get the number of the call plus 100; the child 101 is reported
    by the call 6, and every child that is waited for exits. *)
#[local] Instance os : Os :=
  {| fork_pid n := 100 + Z.of_nat n; wait_status _ _ := Some 0;
     children n := if (n =? 6)%nat then [(101, 0)] else [];
     kill_ok _ _ := true; junk_int := -1; own_pid := 42; array_room n := S n |}.

Lemma shell_start_ok : shell_ok shell_start.
Proof.
  split; simpl; try (by constructor); intros ? H; by apply not_elem_of_nil in H.
Qed.

Definition ran (m : M shell unit) (s : shell) : shell := match m s with Done (_, s') => s' | Crash _ => s end.
Definition one_job : shell := ran (run_job (chars "sleep 9 &") 1 true) shell_start.
Definition two_jobs : shell := ran (run_job (chars "cat | wc &") 2 true) one_job.

Lemma ran_ok m s : wp m (fun _ => shell_ok) s -> shell_ok (ran m s).
Proof. unfold ran, wp. by destruct (m s) as [[[] s']|]. Qed.

Lemma one_job_ok : shell_ok one_job.
Proof.
  apply ran_ok. eapply wp_mono; [apply (run_job_run _ 0 true shell_start)|by intros ? ? [? _]].
  - apply shell_start_ok.
  - done.
  - apply (bool_decide_unpack _). by vm_compute.
  - intros p Hp. vm_compute in Hp. apply list_elem_of_singleton in Hp as ->. split; [done|apply not_elem_of_nil].
Qed.

Lemma two_jobs_ok : shell_ok two_jobs.
Proof.
  apply ran_ok. eapply wp_mono; [apply (run_job_run _ 1 true one_job)|by intros ? ? [? _]].
  - apply one_job_ok.
  - done.
  - apply (bool_decide_unpack _). by vm_compute.
  - intros p Hp. apply (bool_decide_unpack (p <> 0 /\ _)).
    vm_compute in Hp. repeat (apply elem_of_cons in Hp as [->|Hp]; [by vm_compute|]). by apply not_elem_of_nil in Hp.
Qed.

Lemma update_process_status_refines_witness :
  exists s', update_process_status 101 0 two_jobs = Done (tt, s') /\
    table s' = [(103, [mk_process 104 0; mk_process 103 0])].
Proof.
  destruct (update_process_status_refines 101 0 two_jobs) as (s' & He & _ & _ & Ht).
  - apply two_jobs_ok.
  - intros a Ha. by vm_compute in Ha.
  - apply (bool_decide_unpack _). by vm_compute.
  - exists s'. split; [exact He|]. rewrite Ht. by vm_compute.
Defined.

Lemma unknown_child_crashes_witness : update_process_status 7 0 two_jobs = Crash NullDeref.
Proof.
  apply (unknown_child_crashes 7 0 two_jobs).
  - apply two_jobs_ok.
  - apply two_jobs_ok.
  - apply (bool_decide_unpack _). by vm_compute.
Defined.

(** A foreground command, after child 101 was collected. *)
Lemma run_job_spec_witness :
  exists s', run_job (chars "ls") 1 false (two_jobs <| clock := 6%nat |>) = Done (tt, s') /\
    table s' = [(103, [mk_process 104 0; mk_process 103 0])] /\ pipe_ends s' = 4.
Proof.
  destruct (run_job_spec (chars "ls") 1 false (two_jobs <| clock := 6%nat |>)) as (s' & He & _ & Ht & _ & Hp).
  - destruct two_jobs_ok. by split.
  - split; [|done]. apply (bool_decide_unpack _). by vm_compute.
  - lia.
  - apply (bool_decide_unpack _). by vm_compute.
  - intros p Hpin. vm_compute in Hpin. apply list_elem_of_singleton in Hpin as ->.
    split; [done|]. apply (bool_decide_unpack _). by vm_compute.
  - exists s'. split; [exact He|]. rewrite Ht, Hp. by vm_compute.
Defined.

(** [fg 101], the second job: job 103 is forgotten, and the shell dies of the
    report of its child. *)
Lemma wait_job_removes_head_witness :
  exists s', wait_job 0 two_jobs = Done (tt, s') /\ jobs s' = [0%nat] /\ alive (job_at (heap s') 0) = false /\
    update_process_status 103 0 s' = Crash NullDeref.
Proof.
  destruct (wait_job_removes_head 0 1 [0%nat] two_jobs) as (s' & He & Hj & _ & Ha).
  - by vm_compute.
  - by left.
  - apply (bool_decide_unpack _). by vm_compute.
  - by vm_compute.
  - exists s'. split_and!; [exact He|exact Hj|exact Ha|].
    assert (E : s' = ran (wait_job 0) two_jobs) by (unfold ran; by rewrite He). rewrite E. by vm_compute.
Defined.
End Example.
