(* ===== verification/Xmerge.v ===== *)
(** * The system call xmerge ([xmerge.c], [test_xmerge.c])

    Concatenating files into one.  The file system is a parameter: a state and
    the functions [ksys_open], [ksys_read], [ksys_write] and [ksys_close] on
    it.  The model keeps the descriptors that are open and the address limit
    that [set_fs] changes. *)

From S2P Require Import Prelude Sched CStrings ShellParse.
From Stdlib Require Import Strings.Byte Ascii.
From stdpp Require Import list.

#[global] Open Scope Z_scope.

(** ** Parameters and data *)

(** The results are what the functions return, an [int] or a negative error
    code; [ksys_read] also yields the bytes it stored. *)
Class Vfs : Type := {
  fs : Type;
  ksys_open : str -> Z -> Z -> fs -> Z * fs;
  ksys_read : Z -> Z -> fs -> Z * list byte * fs;
  ksys_write : Z -> list byte -> fs -> Z * fs;
  ksys_close : Z -> fs -> Z * fs
}.

Record xmerge_params : Type := mk_xmerge_params {
  outfile : str;
  infiles : list str;
  num_files : Z;
  oflags : Z;
  mode : Z
}.

(** The descriptors that the call has opened and not closed, whether the
    address limit is the kernel's, the value stored at [p->ofile_count], and
    the variable [errno] of a process. *)
Record merge_state `{Vfs} : Type := mk_merge_state {
  files : fs;
  opened : list Z;
  kernel_ds : bool;
  ofile_count : option Z;
  errno : Z
}.
Arguments merge_state {_}.
Arguments mk_merge_state {_}.

Definition O_RDONLY : Z := 0.
Definition O_WRONLY : Z := 1.
Definition O_CREAT : Z := 64.
Definition O_EXCL : Z := 128.
Definition O_TRUNC : Z := 512.
Definition O_APPEND : Z := 1024.
Definition EBADF : Z := 9.
Definition PAGE_SIZE : Z := 4096.
Definition BUFSIZE : Z := 1024.
Definition MAX_FILENAME : nat := 128.

Section Xmerge.
Context `{Hvfs : Vfs}.

Definition set_files (x : fs) (s : merge_state) : merge_state :=
  mk_merge_state x (opened s) (kernel_ds s) (ofile_count s) (errno s).
Definition set_opened (l : list Z) (s : merge_state) : merge_state :=
  mk_merge_state (files s) l (kernel_ds s) (ofile_count s) (errno s).
Definition set_fs (b : bool) : M merge_state unit :=
  modify (fun s => mk_merge_state (files s) (opened s) b (ofile_count s) (errno s)).
Definition get_fs : M merge_state bool := gets kernel_ds.
Definition put_count (n : Z) : M merge_state unit :=
  modify (fun s => mk_merge_state (files s) (opened s) (kernel_ds s) (Some n) (errno s)).
Definition set_errno (n : Z) : M merge_state unit :=
  modify (fun s => mk_merge_state (files s) (opened s) (kernel_ds s) (ofile_count s) n).

Definition k_open (path : str) (flags md : Z) : M merge_state Z := fun s =>
  let (fd, x) := ksys_open path flags md (files s) in
  Done (fd, set_opened (if fd <? 0 then opened s else fd :: opened s) (set_files x s)).

Definition k_read (fd n : Z) : M merge_state (Z * list byte) := fun s =>
  let '(r, l, x) := ksys_read fd n (files s) in Done ((r, l), set_files x s).

Definition k_write (fd : Z) (l : list byte) : M merge_state Z := fun s =>
  let (r, x) := ksys_write fd l (files s) in Done (r, set_files x s).

(** Closing takes one occurrence of the descriptor off the list. *)
Fixpoint remove_one (fd : Z) (l : list Z) : list Z :=
  match l with
  | [] => []
  | x :: l => if x =? fd then l else x :: remove_one fd l
  end.

Definition k_close (fd : Z) : M merge_state Z := fun s =>
  let (r, x) := ksys_close fd (files s) in
  Done (r, set_opened (remove_one fd (opened s)) (set_files x s)).

(** ** The system call *)

(** [while (1)]: the result is the error, if any, and [num_bytes]. *)
Fixpoint copy_loop (fuel : nat) (fd out num_bytes : Z) : M merge_state (option Z * Z) :=
  match fuel with
  | O => crash OutOfFuel
  | S fuel =>
      let! (bytes_read, buffer) := k_read fd PAGE_SIZE in
      if bytes_read <? 0 then ret (Some bytes_read, num_bytes) else
      if bytes_read =? 0 then ret (None, num_bytes) else
      let! bytes_write := k_write out (take (Z.to_nat bytes_read) buffer) in
      if bytes_write <? 0 then ret (Some bytes_write, num_bytes) else
      copy_loop fuel fd out (s32 (num_bytes + bytes_write))
  end.

(** The labels at the end, from [close1_and_quit] on. *)
Definition close1_and_quit (old_fs : bool) (out ofc err : Z) : M merge_state Z :=
  let! _ := k_close out in
  do! put_count ofc in
  do! set_fs old_fs in
  ret err.

(** [for (i = 0; i < p->num_files; i++)] and the end of the function. *)
Fixpoint merge_loop (fuel : nat) (old_fs : bool) (l : list str) (out num_bytes ofc : Z) : M merge_state Z :=
  match l with
  | [] =>
      do! set_fs old_fs in
      let! _ := k_close out in
      do! put_count ofc in
      ret num_bytes
  | path :: l =>
      let! fd := k_open path O_RDONLY 292 in
      if fd <? 0 then close1_and_quit old_fs out ofc fd else
      let! (err, num_bytes) := copy_loop fuel fd out num_bytes in
      match err with
      | Some e =>
          let! _ := k_close fd in
          close1_and_quit old_fs out ofc e
      | None =>
          let! _ := k_close fd in
          merge_loop fuel old_fs l out num_bytes (ofc + 1)
      end
  end.

(** [mem] is whether [kmalloc] returns memory; [infiles] are the pointers that
    [copy_from_user] can read.  [fuel] bounds the reads of one file. *)
Definition xmerge (fuel : nat) (mem : bool) (p : xmerge_params) : M merge_state Z :=
  if negb mem && (0 <? num_files p) then crash NullDeref else
  if Z.of_nat (length (infiles p)) <? num_files p then ret (- EFAULT) else
  let! out := k_open (outfile p) (oflags p) (mode p) in
  if out <? 0 then ret out else
  let! old_fs := get_fs in
  do! set_fs true in
  merge_loop fuel old_fs (take (Z.to_nat (num_files p)) (infiles p)) out 0 0.

(** ** The function of the test program *)

(** The C library returns -1 for an error of the kernel and sets [errno]. *)
Definition libc (r : Z) : M merge_state Z :=
  if r <? 0 then do! set_errno (- r) in ret (-1) else ret r.

Definition u_open (path : str) (flags md : Z) : M merge_state Z :=
  let! r := k_open path flags md in libc r.
Definition u_close (fd : Z) : M merge_state Z :=
  let! r := k_close fd in libc r.
Definition u_write (fd : Z) (l : list byte) : M merge_state Z :=
  let! r := k_write fd l in libc r.
Definition u_read (fd n : Z) : M merge_state (Z * list byte) :=
  let! (r, l) := k_read fd n in
  let! r := libc r in
  ret (r, l).

(** [quit]: [in] is closed whether it is open or not. *)
Definition usr_quit (fd out ofc : Z) : M merge_state Z :=
  let! _ := u_close fd in
  let! _ := u_close out in
  do! put_count ofc in
  let! s := gets (fun s => s) in
  ret (- errno s).

Fixpoint usr_copy (fuel : nat) (fd out num_bytes : Z) : M merge_state (option Z) :=
  match fuel with
  | O => crash OutOfFuel
  | S fuel =>
      let! (bytes_read, buffer) := u_read fd BUFSIZE in
      if bytes_read <? 0 then ret None else
      if bytes_read =? 0 then ret (Some num_bytes) else
      let! bytes_write := u_write out (take (Z.to_nat bytes_read) buffer) in
      if bytes_write <? 0 then ret None else
      usr_copy fuel fd out (s32 (num_bytes + bytes_write))
  end.

Fixpoint usr_loop (fuel : nat) (l : list str) (out num_bytes ofc : Z) : M merge_state Z :=
  match l with
  | [] =>
      let! _ := u_close out in
      do! put_count ofc in
      ret num_bytes
  | path :: l =>
      let! fd := u_open path O_RDONLY 0 in
      if fd <? 0 then usr_quit fd out ofc else
      let! r := usr_copy fuel fd out num_bytes in
      match r with
      | None => usr_quit fd out ofc
      | Some num_bytes =>
          let! _ := u_close fd in
          usr_loop fuel l out num_bytes (ofc + 1)
      end
  end.

Definition usr_xmerge (fuel : nat) (p : xmerge_params) : M merge_state Z :=
  let! out := u_open (outfile p) (oflags p) (mode p) in
  if out <? 0 then let! s := gets (fun s => s) in ret (- errno s)
  else usr_loop fuel (take (Z.to_nat (num_files p)) (infiles p)) out 0 0.
End Xmerge.

(** ** The command line of the test program *)

(** The options that [getopt] finds, [m] with the value of [strtol]. *)
Inductive opt : Type := opt_a | opt_c | opt_t | opt_e | opt_m (md : Z) | opt_other.

Definition set_opt (p : Z * Z) (o : opt) : Z * Z :=
  let '(fl, md) := p in
  match o with
  | opt_a => (Z.lor fl O_APPEND, md)
  | opt_c => (Z.lor fl O_CREAT, md)
  | opt_t => (Z.lor fl O_TRUNC, md)
  | opt_e => (Z.lor fl O_EXCL, md)
  | opt_m m => (fl, m)
  | opt_other => (fl, md)
  end.

(** The parameters that [main] passes for the operands [args]; a name that does
    not fit its array crashes. *)
Definition main_params (opts : list opt) (args : list str) : outcome xmerge_params :=
  let '(fl, md) := foldl set_opt (Z.lor O_WRONLY (Z.lor O_CREAT O_APPEND), 384) opts in
  match args with
  | [] => Crash NullDeref
  | o :: l =>
      if existsb (fun a => (MAX_FILENAME <=? length a)%nat) (o :: l) then Crash BadIndex
      else Done (mk_xmerge_params o l (Z.of_nat (length l)) fl md)
  end.

(** What [main] prints for the value that [syscall] returned: the bytes, or
    the error; no bytes count as an error. *)
Definition main_prints (bytes_num : Z) : bool := 0 <? bytes_num.

(** ** Descriptors and the address limit *)

Section Safety.
Context `{Hvfs : Vfs}.
Implicit Types s : merge_state.

(** What a computation does to the state that callers rely on. *)
Definition balanced {A} (m : M merge_state A) (s : merge_state) : Prop :=
  forall a s', m s = Done (a, s') -> opened s' = opened s /\ kernel_ds s' = kernel_ds s.

Lemma remove_one_cons fd l : remove_one fd (fd :: l) = l.
Proof. simpl. by rewrite Z.eqb_refl. Qed.

Lemma copy_loop_balanced fuel fd out n s : balanced (copy_loop fuel fd out n) s.
Proof.
  revert n s. induction fuel as [|fuel IH]; intros n s a s' H; [done|]. cbn [copy_loop] in H.
  apply bind_inv in H as ([r l] & s1 & H1 & H). unfold k_read in H1.
  destruct (ksys_read _ _ _) as [[r' l'] x]. simplify_eq/=.
  destruct (r <? 0); [by (unfold ret in H; simplify_eq)|]. destruct (r =? 0); [by (unfold ret in H; simplify_eq)|].
  apply bind_inv in H as (r2 & s1 & H1 & H). unfold k_write in H1.
  destruct (ksys_write _ _ _) as [r2' x']. simplify_eq/=.
  destruct (r2 <? 0); [by (unfold ret in H; simplify_eq)|]. exact (IH _ _ _ _ H).
Qed.

(** The output is on top of the open descriptors, and the process had [l] and
    the limit [b]. *)
Definition restored (l : list Z) (b : bool) (s' : merge_state) : Prop :=
  opened s' = l /\ kernel_ds s' = b.

Lemma close1_restores b out ofc err l s a s' :
  opened s = out :: l -> close1_and_quit b out ofc err s = Done (a, s') -> restored l b s'.
Proof.
  intros Ho H. unfold close1_and_quit, k_close, put_count, set_fs, bind, modify, ret in H.
  destruct (ksys_close _ _) as [r x]. cbn in H. simplify_eq/=. split; [|done].
  cbn [opened set_opened set_files]. rewrite Ho. apply remove_one_cons.
Qed.

Lemma merge_loop_restores fuel b files out n ofc l s a s' :
  opened s = out :: l -> merge_loop fuel b files out n ofc s = Done (a, s') -> restored l b s'.
Proof.
  revert n ofc s. induction files as [|path files IH]; intros n ofc s Ho H; cbn [merge_loop] in H.
  - unfold k_close, put_count, set_fs, bind, modify, ret in H. cbn in H. destruct (ksys_close _ _) as [r x]. cbn in H.
    simplify_eq/=. split; [|done]. cbn. rewrite Ho. apply remove_one_cons.
  - apply bind_inv in H as (fd & s1 & H1 & H). unfold k_open in H1.
    destruct (ksys_open _ _ _ _) as [fd' x]. simplify_eq/=.
    destruct (fd <? 0) eqn:Hfd; [eapply close1_restores, H; exact Ho|].
    apply bind_inv in H as ([err n'] & s1 & H1 & H).
    apply copy_loop_balanced in H1 as [Ho1 _]. cbn in Ho1.
    destruct err as [e|]; apply bind_inv in H as (r & s2 & H2 & H); unfold k_close in H2;
      destruct (ksys_close _ _) as [r' x2]; simplify_eq/=.
    + eapply close1_restores, H. cbn. by rewrite Ho1, remove_one_cons.
    + eapply IH, H. cbn. by rewrite Ho1, remove_one_cons.
Qed.

(** C37: Whatever the file system does and however the call ends, with the
    bytes merged or with an error of any of its files, [xmerge] has closed
    each descriptor that it opened and restored the address limit that it
    found. *)
Theorem xmerge_releases (fuel : nat) (mem : bool) (p : xmerge_params) (s s' : merge_state) (r : Z) :
  xmerge fuel mem p s = Done (r, s') ->
  opened s' = opened s /\ kernel_ds s' = kernel_ds s.
Proof.
  intros H. unfold xmerge in H. destruct (negb mem && _); [done|].
  destruct (_ <? num_files p); [by (unfold ret in H; simplify_eq)|].
  apply bind_inv in H as (out & s1 & H1 & H). unfold k_open in H1.
  destruct (ksys_open _ _ _ _) as [out' x]. simplify_eq/=.
  destruct (out <? 0) eqn:Hout; [by (unfold ret in H; simplify_eq)|].
  eapply (merge_loop_restores _ (kernel_ds s) _ out _ _ (opened s)); [|exact H]. reflexivity.
Qed.
End Safety.

(** ** What the call concatenates *)

(** Opening a name for reading fails with an error code, or gives the bytes
    that reading yields before the end of the file or an error. *)
Definition contents : Type := str -> Z + list byte * option Z.

(** Why a merge stopped. *)
Inductive stop : Type := merged_all | open_failed (e : Z) | read_failed (e : Z).

(** The bytes of the files up to the first that fails, the number of files
    read to the end, and the failure. *)
Fixpoint merged (inp : contents) (l : list str) : list byte * Z * stop :=
  match l with
  | [] => ([], 0, merged_all)
  | path :: l =>
      match inp path with
      | inl e => ([], 0, open_failed e)
      | inr (b, Some e) => (b, 0, read_failed e)
      | inr (b, None) => let '(b', n, e) := merged inp l in (b ++ b', 1 + n, e)
      end
  end.

(** The behaviour of the file system that the functions rely on: [ofd] is open
    for writing; no file that is read changes meanwhile; a read returns some
    of the bytes that are left, 0 at the end; a write takes all of its bytes or
    the first of them, or none with an error. *)
Class VfsLaws `{Vfs} (ofd : Z) (inp : contents) : Type := {
  writing : fs -> list byte -> Prop;
  reading : fs -> Z -> list byte -> option Z -> list byte -> Prop;
  stored : fs -> list byte -> Prop;
  open_error x w path md e :
    writing x w -> inp path = inl e ->
    e < 0 /\ exists x', ksys_open path O_RDONLY md x = (e, x') /\ writing x' w;
  open_file x w path md l e :
    writing x w -> inp path = inr (l, e) ->
    exists fd x', ksys_open path O_RDONLY md x = (fd, x') /\ 0 <= fd /\ reading x' fd l e w;
  read_some x fd l e w n :
    reading x fd l e w -> l <> [] -> 0 < n ->
    exists b l' x', l = b ++ l' /\ 0 < Z.of_nat (length b) <= n /\
      ksys_read fd n x = (Z.of_nat (length b), b, x') /\ reading x' fd l' e w;
  read_end x fd w n :
    reading x fd [] None w -> 0 < n ->
    exists x', ksys_read fd n x = (0, [], x') /\ reading x' fd [] None w;
  read_error x fd w n e :
    reading x fd [] (Some e) w -> 0 < n ->
    e < 0 /\ exists x', ksys_read fd n x = (e, [], x') /\ reading x' fd [] (Some e) w;
  write_some x fd l e w b :
    reading x fd l e w ->
    exists r x', ksys_write ofd b x = (r, x') /\ r <= Z.of_nat (length b) /\
      reading x' fd l e (w ++ take (Z.to_nat r) b);
  close_input x fd l e w :
    reading x fd l e w -> exists x', ksys_close fd x = (0, x') /\ writing x' w;
  close_output x w :
    writing x w -> exists x', ksys_close ofd x = (0, x') /\ stored x' w;
  close_bad x w fd :
    writing x w -> fd < 0 -> exists x', ksys_close fd x = (- EBADF, x') /\ writing x' w
}.

(** What [xmerge] returns for [n] bytes, and what [usr_xmerge] returns: its
    [close(in)] with [in] = -1 overwrites the error of [open]. *)
Definition merge_result (n : Z) (e : stop) : Z :=
  match e with merged_all => s32 n | open_failed e | read_failed e => e end.
Definition usr_result (n : Z) (e : stop) : Z :=
  match e with merged_all => s32 n | open_failed _ => - EBADF | read_failed e => e end.

(** [fuel] reads are enough for every file. *)
Definition enough (inp : contents) (fuel : nat) (l : list str) : Prop :=
  forall path b e, path ∈ l -> inp path = inr (b, e) -> (length b < fuel)%nat.

(** *** The writes of a merge

    What it asked to write, in order, with the results. *)
Definition writes : Type := list (list byte * Z).

Definition asked (ws : writes) : list byte := concat (map fst ws).
Definition taken (ws : writes) : list byte := concat (map (fun '(b, r) => take (Z.to_nat r) b) ws).
Definition counted (ws : writes) : Z := sumZ snd ws.

Definition complete (ws : writes) : Prop := Forall (fun '(b, r) => r = Z.of_nat (length b)) ws.

Section Writes.
Context `{Hvfs : Vfs} (ofd : Z).

(** A result that [ksys_write] gives; no write failed; the last one failed. *)
Definition answer (b : list byte) (r : Z) : Prop := exists x x', ksys_write ofd b x = (r, x').
Definition accepted (ws : writes) : Prop := Forall (fun '(b, r) => answer b r /\ 0 <= r <= Z.of_nat (length b)) ws.
Definition refused (ws : writes) (e : Z) : Prop :=
  exists ws' b, ws = ws' ++ [(b, e)] /\ accepted ws' /\ answer b e /\ b <> [] /\ e < 0.

(** The merge of [l] into an output that held [w], after [n] bytes of [ofc]
    files: either each write was accepted, and the result is [res] of the bytes
    that were counted and of why the merge stopped, or a write into which the
    bytes of one of the files went failed, and the result is its error. *)
Definition merges (inp : contents) (kept : fs -> list byte -> Prop) (res : Z -> stop -> Z) (w : list byte)
    (n ofc : Z) (l : list str) (ws : writes) (r : Z) (s : merge_state) : Prop :=
  kept (files s) (w ++ taken ws) /\
  ((let '(b, k, e) := merged inp l in
    accepted ws /\ asked ws = b /\ ofile_count s = Some (ofc + k) /\ r = res (n + counted ws) e) \/
   (exists l1 path l2 b1 k1 c c' e, l = l1 ++ path :: l2 /\ merged inp l1 = (b1, k1, merged_all) /\
     inp path = inr (c ++ c', e) /\ c <> [] /\
     asked ws = b1 ++ c /\ refused ws r /\ ofile_count s = Some (ofc + k1))).

Lemma refused_cons b r ws e : answer b r -> 0 <= r <= Z.of_nat (length b) -> refused ws e -> refused ((b, r) :: ws) e.
Proof.
  intros Hb' Hr (ws' & b' & -> & Ha & Hb & He). exists ((b, r) :: ws'), b'. split; [done|]. split; [by constructor|done].
Qed.

Lemma refused_app ws ws' e : accepted ws -> refused ws' e -> refused (ws ++ ws') e.
Proof. induction 1 as [|[b r] ws [Hb Hr] Hws IH]; intros H; [done|]. simpl. apply refused_cons; auto. Qed.

Lemma complete_not_refused ws e : complete ws -> refused ws e -> False.
Proof.
  intros Hc (ws' & b & -> & _ & _ & _ & He). apply Forall_app in Hc as [_ Hc]. rewrite Forall_singleton in Hc. lia.
Qed.
End Writes.

Lemma asked_app ws ws' : asked (ws ++ ws') = asked ws ++ asked ws'.
Proof. unfold asked. by rewrite map_app, concat_app. Qed.

Lemma taken_app ws ws' : taken (ws ++ ws') = taken ws ++ taken ws'.
Proof. unfold taken. by rewrite map_app, concat_app. Qed.

Lemma counted_app ws ws' : counted (ws ++ ws') = counted ws + counted ws'.
Proof. apply sumZ_app. Qed.

(** Complete writes take what they are asked to. *)
Lemma complete_spec ws :
  complete ws -> taken ws = asked ws /\ counted ws = Z.of_nat (length (asked ws)).
Proof.
  induction 1 as [|[b r] ws -> H [IH1 IH2]]; [done|].
  unfold asked, taken, counted in *. simpl. rewrite length_app, Nat2Z.id, firstn_all, IH1, IH2. split; [done|lia].
Qed.

Lemma s32_add_l a b : s32 (s32 a + b) = s32 (a + b).
Proof.
  unfold s32. f_equal. replace (_ - 2 ^ 31 + b + 2 ^ 31) with ((a + 2 ^ 31) mod 2 ^ 32 + b) by lia.
  rewrite Zplus_mod_idemp_l. f_equal. lia.
Qed.

Section Spec.
Context `{Hvfs : Vfs} (ofd : Z) (inp : contents) `{!VfsLaws ofd inp}.
Implicit Types s : merge_state.


Abbreviation merges := (merges ofd inp stored).
Abbreviation accepted := (accepted ofd).
Abbreviation refused := (refused ofd).

Lemma merges_nil res w n ofc s : stored (files s) w -> ofile_count s = Some ofc -> merges res w n ofc [] [] (res n merged_all) s.
Proof. intros H1 H2. split; [by rewrite app_nil_r|]. left. unfold counted. simpl. rewrite !Z.add_0_r. split_and!; done || constructor. Qed.

(** The first file was merged whole. *)
Lemma merges_cons res w n ofc path b l ws ws' r s :
  inp path = inr (b, None) -> accepted ws -> asked ws = b ->
  merges res (w ++ taken ws) (n + counted ws) (ofc + 1) l ws' r s -> merges res w n ofc (path :: l) (ws ++ ws') r s.
Proof.
  intros Hp Ha Hb [H1 H2]. split; [by rewrite taken_app, app_assoc|]. destruct H2 as [H2|H2].
  - left. simpl. rewrite Hp. destruct (merged inp l) as [[b' k] e]. destruct H2 as (H2 & H3 & H4 & H5).
    rewrite asked_app, counted_app, Hb, H3, H4, H5. split_and!; [by apply Forall_app|done|f_equal; lia|f_equal; lia].
  - right. destruct H2 as (l1 & p & l2 & b1 & k1 & c & c' & e & -> & H3 & H4 & H5 & H6 & H7 & H8).
    exists (path :: l1), p, l2, (b ++ b1), (1 + k1), c, c', e. simpl. rewrite Hp, H3, asked_app, Hb, H6, H8.
    split_and!; try done; [by rewrite app_assoc|by apply refused_app|f_equal; lia].
Qed.

(** The first file did not open, stopped with an error or a failing write. *)
Lemma merges_open_failed res w n ofc path e l s :
  inp path = inl e -> stored (files s) w -> ofile_count s = Some ofc ->
  merges res w n ofc (path :: l) [] (res n (open_failed e)) s.
Proof. intros Hp H1 H2. split; [by rewrite app_nil_r|]. left. unfold counted. simpl. rewrite Hp, !Z.add_0_r. split_and!; done || constructor. Qed.

Lemma merges_read_failed res w n ofc path b e l ws s :
  inp path = inr (b, Some e) -> accepted ws -> asked ws = b -> stored (files s) (w ++ taken ws) -> ofile_count s = Some ofc ->
  merges res w n ofc (path :: l) ws (res (n + counted ws) (read_failed e)) s.
Proof. intros Hp Ha Hb H1 H2. split; [done|]. left. simpl. by rewrite Hp, Z.add_0_r. Qed.

Lemma merges_refused res w n ofc path b e l ws r s :
  inp path = inr (b, e) -> refused ws r -> asked ws `prefix_of` b -> stored (files s) (w ++ taken ws) -> ofile_count s = Some ofc ->
  merges res w n ofc (path :: l) ws r s.
Proof.
  intros Hp Hr [c' Hb] H1 H2. split; [done|]. right. exists [], path, l, [], 0, (asked ws), c', e. subst b.
  simpl. rewrite Z.add_0_r. split_and!; try done.
  destruct Hr as (ws' & b & -> & _ & _ & Hb & _). rewrite asked_app. unfold asked at 2. simpl. rewrite app_nil_r.
  by intros [_ ?]%app_eq_nil.
Qed.

(** One file, of which [l] is left: [f] is the error of the write that failed. *)
Definition copied (fd : Z) (l : list byte) (e : option Z) (w : list byte) (ws : writes) (f : option Z) (s : merge_state) : Prop :=
  exists l', reading (files s) fd l' e (w ++ taken ws) /\
  match f with
  | None => asked ws = l /\ l' = [] /\ accepted ws
  | Some r => asked ws `prefix_of` l /\ refused ws r
  end.

Lemma copied_nil fd e w s : reading (files s) fd [] e w -> copied fd [] e w [] None s.
Proof. intros H. exists []. rewrite app_nil_r. split; [done|]. split_and!; [done..|constructor]. Qed.

Lemma copied_cons fd b r l e w ws f s :
  answer ofd b r -> 0 <= r <= Z.of_nat (length b) -> copied fd l e (w ++ take (Z.to_nat r) b) ws f s ->
  copied fd (b ++ l) e w ((b, r) :: ws) f s.
Proof.
  intros Hb Hr (l' & H1 & H2). exists l'. unfold taken, asked in *. simpl. rewrite app_assoc. split; [done|].
  destruct f as [f|].
  - destruct H2 as [H2 H3]. split; [by apply prefix_app|by apply refused_cons].
  - destruct H2 as (-> & H2 & H3). split_and!; [done..|]. by constructor.
Qed.

Lemma copied_refused fd b l e w r s :
  answer ofd b r -> b <> [] -> r < 0 -> reading (files s) fd l e w -> copied fd (b ++ l) e w [(b, r)] (Some r) s.
Proof.
  intros Ha Hb Hr H. exists l. unfold taken, asked. simpl. rewrite Z2Nat.nonpos, take_0, !app_nil_r by lia. split; [done|].
  split; [by eexists|]. exists [], b. split_and!; done || constructor.
Qed.

Lemma enough_cons fuel path l :
  enough inp fuel (path :: l) ->
  (forall b e, inp path = inr (b, e) -> (length b < fuel)%nat) /\ enough inp fuel l.
Proof.
  intros H. split; [intros b e; apply H; by left|]. intros p' b e Hp. apply H. by right.
Qed.

(** *** The calls of the kernel *)

Lemma k_open_run path md s w (Q : Z -> merge_state -> Prop) :
  writing (files s) w ->
  (forall e s', inp path = inl e -> e < 0 -> writing (files s') w -> Q e s') ->
  (forall l e fd s', inp path = inr (l, e) -> 0 <= fd -> reading (files s') fd l e w -> Q fd s') ->
  wp (k_open path O_RDONLY md) Q s.
Proof.
  intros Hw H1 H2. unfold k_open, wp. destruct (inp path) as [e|[l e]] eqn:Hp.
  - destruct (open_error _ _ _ md _ Hw Hp) as (He & x & -> & Hw'). by apply H1.
  - destruct (open_file _ _ _ md _ _ Hw Hp) as (fd & x & -> & Hfd & Hr). by eapply H2.
Qed.

Lemma k_close_run fd l e w s (Q : Z -> merge_state -> Prop) :
  reading (files s) fd l e w -> (forall s', writing (files s') w -> errno s' = errno s -> Q 0 s') ->
  wp (k_close fd) Q s.
Proof.
  intros Hr HQ. unfold k_close, wp. destruct (close_input _ _ _ _ _ Hr) as (x & -> & Hw). by apply HQ.
Qed.

Lemma k_close_bad_run w s (Q : Z -> merge_state -> Prop) :
  writing (files s) w -> (forall s', writing (files s') w -> Q (- EBADF) s') ->
  wp (k_close (-1)) Q s.
Proof.
  intros Hw HQ. unfold k_close, wp. destruct (close_bad _ _ (-1) Hw ltac:(done)) as (x & -> & Hw').
  by apply HQ.
Qed.

Lemma k_close_output_run w s (Q : Z -> merge_state -> Prop) :
  writing (files s) w -> (forall s', stored (files s') w -> errno s' = errno s -> Q 0 s') ->
  wp (k_close ofd) Q s.
Proof.
  intros Hr HQ. unfold k_close, wp. destruct (close_output _ _ Hr) as (x & -> & Hw). by apply HQ.
Qed.

(** One [read] of [n] bytes: some of the bytes that are left, the end of the
    file or the error. *)
Lemma k_read_run fd n l e w s (Q : Z * list byte -> merge_state -> Prop) :
  reading (files s) fd l e w -> 0 < n ->
  (forall b l' s', l = b ++ l' -> (0 < length b)%nat -> Z.of_nat (length b) <= n ->
     reading (files s') fd l' e w -> Q (Z.of_nat (length b), b) s') ->
  (forall s', l = [] -> e = None -> reading (files s') fd l e w -> Q (0, []) s') ->
  (forall r s', l = [] -> e = Some r -> r < 0 -> reading (files s') fd l e w -> Q (r, []) s') ->
  wp (k_read fd n) Q s.
Proof.
  intros Hr Hn H1 H2 H3. unfold k_read, wp. destruct l as [|x l].
  - destruct e as [e|].
    + destruct (read_error _ _ _ _ _ Hr Hn) as (He & x & -> & Hr'). by apply H3.
    + destruct (read_end _ _ _ _ Hr Hn) as (x & -> & Hr'). by apply H2.
  - destruct (read_some _ _ _ _ _ _ Hr ltac:(done) Hn) as (b & l' & x' & Hl & Hb & -> & Hr').
    eapply H1; [exact Hl|lia|lia|done].
Qed.

Lemma k_write_run fd l e w b s (Q : Z -> merge_state -> Prop) :
  reading (files s) fd l e w ->
  (forall r s', answer ofd b r -> 0 <= r <= Z.of_nat (length b) ->
     reading (files s') fd l e (w ++ take (Z.to_nat r) b) -> Q r s') ->
  (forall r s', answer ofd b r -> r < 0 -> reading (files s') fd l e w -> Q r s') ->
  wp (k_write ofd b) Q s.
Proof.
  intros Hr H1 H2. unfold k_write, wp. destruct (write_some _ _ _ _ _ b Hr) as (r & x & E & Hb & Hw). rewrite E.
  assert (Ha : answer ofd b r) by by eexists _, _.
  destruct (Z.le_gt_cases 0 r); [by apply H1|]. rewrite Z2Nat.nonpos, take_0, app_nil_r in Hw by lia. by apply H2.
Qed.

(** *** The loops of the system call *)

Lemma copy_loop_run fuel fd l e w n s :
  (length l < fuel)%nat -> reading (files s) fd l e w ->
  wp (copy_loop fuel fd ofd (s32 n))
    (fun r s' => exists ws f, copied fd l e w ws f s' /\
       match f with None => r = (e, s32 (n + counted ws)) | Some err => r.1 = Some err end) s.
Proof.
  revert l w n s. induction fuel as [|fuel IH]; intros l w n s Hf Hr; [lia|]. cbn [copy_loop].
  wstep. eapply k_read_run; [exact Hr|reflexivity|..].
  - intros b l' s1 -> Hb _ Hr1. rewrite length_app in *.
    rewrite (proj2 (Z.ltb_ge _ 0)), (proj2 (Z.eqb_neq _ 0)) by lia. wstep.
    rewrite Nat2Z.id, firstn_all. eapply k_write_run; [exact Hr1|..].
    + intros r s2 Ha Hn Hr2. rewrite (proj2 (Z.ltb_ge _ 0)), s32_add_l by lia.
      wcall (IH l'); [lia|exact Hr2|]. intros r' s3 (ws & f & Hc & H). exists ((b, r) :: ws), f.
      split; [by apply copied_cons|]. destruct f; [done|]. rewrite H. unfold counted. simpl. do 2 f_equal. lia.
    + intros r s2 Ha Hneg Hr2. rewrite (proj2 (Z.ltb_lt r 0)) by done. wgo. exists [(b, r)], (Some r).
      split; [|done]. apply copied_refused; [done|by intros ->; simpl in Hb; lia|done..].
  - intros s1 -> -> Hr1. cbn. exists [], None. rewrite Z.add_0_r. split; [by apply copied_nil|done].
  - intros r s1 -> -> Hneg Hr1. rewrite (proj2 (Z.ltb_lt r 0)) by done. cbn. exists [], None.
    rewrite Z.add_0_r. split; [by apply copied_nil|done].
Qed.

Lemma close1_run old_fs ofc err w s :
  writing (files s) w ->
  wp (close1_and_quit old_fs ofd ofc err)
    (fun r s' => r = err /\ stored (files s') w /\ ofile_count s' = Some ofc) s.
Proof.
  intros Hw. unfold close1_and_quit. wstep. eapply k_close_output_run; [exact Hw|].
  intros s1 Hs _. unfold put_count, set_fs. by wgo.
Qed.

Lemma merge_loop_run fuel old_fs l n ofc w s :
  enough inp fuel l -> writing (files s) w ->
  wp (merge_loop fuel old_fs l ofd (s32 n) ofc) (fun r s' => exists ws, merges merge_result w n ofc l ws r s') s.
Proof.
  revert n ofc w s. induction l as [|path l IH]; intros n ofc w s Hf Hw; cbn [merge_loop].
  - unfold put_count, set_fs. wgo. eapply k_close_output_run; [exact Hw|]. intros s1 Hs _. wgo.
    exists []. by apply (merges_nil merge_result).
  - apply enough_cons in Hf as [Hf1 Hf]. wstep. eapply k_open_run; [exact Hw|..].
    + intros e s1 Hp He Hw1. rewrite (proj2 (Z.ltb_lt _ _)) by done.
      wcall close1_run; [exact Hw1|]. intros r s2 (-> & Hs & Hc). exists []. by apply (merges_open_failed merge_result).
    + intros b e fd s1 Hp Hfd Hr1. rewrite (proj2 (Z.ltb_ge _ _)) by done. wstep.
      wcall copy_loop_run; [by eapply Hf1|exact Hr1|]. intros [o m] s2 (ws & f & (l' & Hr2 & Hc) & H). cbn in H.
      destruct f as [f|].
      * subst o. wstep. eapply k_close_run; [exact Hr2|]. intros s3 Hw3 _.
        wcall close1_run; [exact Hw3|]. intros r s4 (-> & Hs & Hk). exists ws. destruct Hc as [Hc Hr].
        by eapply merges_refused.
      * destruct Hc as (Hc & -> & Ha). injection H as -> ->.
        destruct e as [e|]; wstep; (eapply k_close_run; [exact Hr2|]); intros s3 Hw3 _.
        -- wcall close1_run; [exact Hw3|]. intros r s4 (-> & Hs & Hk). exists ws.
           by eapply (merges_read_failed merge_result).
        -- wcall IH; [done|exact Hw3|]. intros r s4 [ws' H]. exists (ws ++ ws'). by eapply merges_cons.
Qed.

(** *** The loops of the test program *)

Lemma libc_ok r s (Q : Z -> merge_state -> Prop) : 0 <= r -> Q r s -> wp (libc r) Q s.
Proof. intros H HQ. unfold libc. by rewrite (proj2 (Z.ltb_ge _ _)). Qed.

Lemma libc_err r s (Q : Z -> merge_state -> Prop) :
  r < 0 -> (forall s', files s' = files s -> errno s' = - r -> Q (-1) s') -> wp (libc r) Q s.
Proof.
  intros H HQ. unfold libc. rewrite (proj2 (Z.ltb_lt _ _)) by done. unfold set_errno. wgo. by apply HQ.
Qed.

(** [quit], with [errno] as the last failing call left it: [close(in)] fails
    when [in] is not a descriptor. *)
Lemma usr_quit_run fd ofc err w s :
  (writing (files s) w /\ fd = -1 /\ err = EBADF) \/
  ((exists l e, reading (files s) fd l e w) /\ errno s = err) ->
  wp (usr_quit fd ofd ofc)
    (fun r s' => r = - err /\ stored (files s') w /\ ofile_count s' = Some ofc) s.
Proof.
  intros H. unfold usr_quit. wstep.
  enough (wp (u_close fd) (fun _ s' => writing (files s') w /\ errno s' = err) s) as Hc.
  { wcall Hc. intros _ s1 [Hw1 <-]. unfold u_close. wgo.
    eapply k_close_output_run; [exact Hw1|]. intros s2 Hs He. apply libc_ok; [done|].
    unfold put_count. wgo. cbn. by rewrite He. }
  unfold u_close. wgo. destruct H as [(Hw & -> & ->)|[(l & e & Hr) <-]].
  - eapply k_close_bad_run; [exact Hw|]. intros s1 Hw1. apply libc_err; [done|].
    intros s2 Hf He. by rewrite Hf.
  - eapply k_close_run; [exact Hr|]. intros s1 Hw1 He. by apply libc_ok.
Qed.

Lemma usr_copy_run fuel fd l e w n s :
  (length l < fuel)%nat -> reading (files s) fd l e w ->
  wp (usr_copy fuel fd ofd (s32 n))
    (fun r s' => exists ws f, copied fd l e w ws f s' /\
       match f, e with
       | None, None => r = Some (s32 (n + counted ws))
       | None, Some err | Some err, _ => r = None /\ errno s' = - err
       end) s.
Proof.
  revert l w n s. induction fuel as [|fuel IH]; intros l w n s Hf Hr; [lia|]. cbn [usr_copy].
  unfold u_read, u_write. wgo. eapply k_read_run; [exact Hr|reflexivity|..].
  - intros b l' s1 -> Hb _ Hr1. rewrite length_app in *. wgo. apply libc_ok; [lia|]. wgo. cbv iota.
    rewrite (proj2 (Z.ltb_ge _ 0)), (proj2 (Z.eqb_neq _ 0)) by lia. wgo.
    rewrite Nat2Z.id, firstn_all. eapply k_write_run; [exact Hr1|..].
    + intros r s2 Ha Hn Hr2. apply libc_ok; [lia|]. rewrite (proj2 (Z.ltb_ge _ 0)), s32_add_l by lia.
      wcall (IH l'); [lia|exact Hr2|]. intros r' s3 (ws & f & Hc & H). exists ((b, r) :: ws), f.
      split; [by apply copied_cons|]. destruct f, e; try done. rewrite H. unfold counted. simpl. do 2 f_equal. lia.
    + intros r s2 Ha Hneg Hr2. apply libc_err; [done|]. intros s3 Hf3 He. wgo. exists [(b, r)], (Some r).
      split; [|by destruct e]. apply copied_refused; [done|by intros ->; simpl in Hb; lia|done|by rewrite Hf3].
  - intros s1 -> -> Hr1. wgo. apply libc_ok; [done|]. wgo. cbn. exists [], None. rewrite Z.add_0_r.
    split; [by apply copied_nil|done].
  - intros r s1 -> -> Hneg Hr1. wgo. apply libc_err; [done|]. intros s2 Hf2 He. wgo. cbn. exists [], None.
    split; [|done]. apply copied_nil. by rewrite Hf2.
Qed.

Lemma usr_loop_run fuel l n ofc w s :
  enough inp fuel l -> writing (files s) w ->
  wp (usr_loop fuel l ofd (s32 n) ofc) (fun r s' => exists ws, merges usr_result w n ofc l ws r s') s.
Proof.
  revert n ofc w s. induction l as [|path l IH]; intros n ofc w s Hf Hw; cbn [usr_loop].
  - unfold u_close, put_count. wgo. eapply k_close_output_run; [exact Hw|]. intros s1 Hs _.
    apply libc_ok; [done|]. wgo. exists []. by apply (merges_nil usr_result).
  - apply enough_cons in Hf as [Hf1 Hf]. unfold u_open. wgo. eapply k_open_run; [exact Hw|..].
    + intros e s1 Hp He Hw1. apply libc_err; [done|]. intros s2 Hf2 _. cbn.
      wcall (usr_quit_run (-1) ofc EBADF w); [rewrite Hf2; by left|]. intros r s3 (-> & Hs & Hc).
      exists []. by apply (merges_open_failed usr_result _ _ _ _ e).
    + intros b e fd s1 Hp Hfd Hr1. apply libc_ok; [done|].
      rewrite (proj2 (Z.ltb_ge _ _)) by done. wstep.
      wcall usr_copy_run; [by eapply Hf1|exact Hr1|]. intros r s2 (ws & f & (l' & Hr2 & Hc) & H).
      assert (Hquit : forall err, r = None -> errno s2 = - err ->
        (forall s3, stored (files s3) (w ++ taken ws) -> ofile_count s3 = Some ofc ->
           merges usr_result w n ofc (path :: l) ws err s3) ->
        wp match r with None => usr_quit fd ofd ofc | Some n' => let! _ := u_close fd in usr_loop fuel l ofd n' (ofc + 1) end
          (fun r s' => exists ws, merges usr_result w n ofc (path :: l) ws r s') s2).
      { intros err -> He HQ. wcall (usr_quit_run fd ofc (- err) (w ++ taken ws)); [right; split; [by eexists _, _|done]|].
        intros r s3 (-> & Hs & Hk). rewrite Z.opp_involutive. eauto. }
      destruct f as [f|]; [destruct Hc, H; apply (Hquit f); [done..|]; intros; by eapply merges_refused|].
      destruct Hc as (Hc & -> & Ha). destruct e as [e|].
      * destruct H. apply (Hquit e); [done..|]. intros. by eapply (merges_read_failed usr_result).
      * rewrite H. unfold u_close. wgo. eapply k_close_run; [exact Hr2|]. intros s3 Hw3 _.
        apply libc_ok; [done|]. wcall IH; [done|exact Hw3|]. intros r' s4 [ws' H']. exists (ws ++ ws').
        by eapply merges_cons.
Qed.

(** *** The calls *)

(** The names of [p] are all there, the output opens as [ofd] with [w] in it. *)
Definition opens (p : xmerge_params) (w : list byte) (s : merge_state) : Prop :=
  num_files p = Z.of_nat (length (infiles p)) /\ 0 <= ofd /\
  exists x, ksys_open (outfile p) (oflags p) (mode p) (files s) = (ofd, x) /\ writing x w.

Lemma take_names p w s :
  opens p w s -> take (Z.to_nat (num_files p)) (infiles p) = infiles p.
Proof. intros [-> _]. by rewrite Nat2Z.id, firstn_all. Qed.

Lemma opens_run p w s (Q : Z -> merge_state -> Prop) :
  opens p w s -> (forall s', writing (files s') w -> Q ofd s') ->
  wp (k_open (outfile p) (oflags p) (mode p)) Q s.
Proof. intros (_ & Ho & x & E & Hw) HQ. unfold k_open, wp. rewrite E. by apply HQ. Qed.

Lemma xmerge_run fuel p w s :
  opens p w s -> enough inp fuel (infiles p) ->
  wp (xmerge fuel true p) (fun r s' => exists ws, merges merge_result w 0 0 (infiles p) ws r s') s.
Proof.
  intros Hop Hf. unfold xmerge. rewrite (take_names _ _ _ Hop). cbn [negb andb].
  rewrite (proj2 (Z.ltb_ge _ (num_files p))) by (destruct Hop; lia). wstep.
  eapply opens_run; [exact Hop|]. intros s1 Hw1.
  rewrite (proj2 (Z.ltb_ge _ _)) by (destruct Hop; lia). unfold get_fs, set_fs. wgo.
  by apply (merge_loop_run fuel _ _ 0 0 w).
Qed.

Lemma usr_xmerge_run fuel p w s :
  opens p w s -> enough inp fuel (infiles p) ->
  wp (usr_xmerge fuel p) (fun r s' => exists ws, merges usr_result w 0 0 (infiles p) ws r s') s.
Proof.
  intros Hop Hf. unfold usr_xmerge, u_open. rewrite (take_names _ _ _ Hop). wgo.
  eapply opens_run; [exact Hop|]. intros s1 Hw1. apply libc_ok; [by destruct Hop as (_ & ? & _)|].
  rewrite (proj2 (Z.ltb_ge _ _)) by (destruct Hop; lia).
  by apply (usr_loop_run fuel _ 0 0 w).
Qed.

(** With complete writes, all that was read is stored and counted. *)
Lemma merges_complete res w l ws r s :
  merges res w 0 0 l ws r s -> complete ws ->
  let '(b, k, e) := merged inp l in
  stored (files s) (w ++ b) /\ ofile_count s = Some k /\ r = res (Z.of_nat (length b)) e.
Proof.
  intros [H1 H2] Hc. destruct (complete_spec _ Hc) as [Ht Hn]. destruct H2 as [H2|H2].
  - destruct (merged inp l) as [[b k] e]. destruct H2 as (_ & <- & H3 & ->). by rewrite <- Ht at 1; rewrite Hn.
  - destruct H2 as (l1 & path & l2 & b1 & k1 & c & c' & e & _ & _ & _ & _ & _ & H2 & _).
    destruct (complete_not_refused ofd _ _ Hc H2).
Qed.

(** C35: [xmerge] asks to write the files to the output in the order of their
    names, up to the first that cannot be opened or read or to a write that
    fails; the output gets what the writes took.  It returns the number of
    bytes written, in an [int], or the error of the open, the read or the write
    that stopped it, and stores the number of files whose bytes were all written
    before.  If the writes were complete, the output has all bytes and the
    result is their number.  As many reads as the longest file has bytes and
    one more are enough for each file. *)
Theorem xmerge_spec (fuel : nat) (p : xmerge_params) (w : list byte) (s : merge_state) :
  opens p w s -> enough inp fuel (infiles p) ->
  exists r s' ws, xmerge fuel true p s = Done (r, s') /\
    merges merge_result w 0 0 (infiles p) ws r s' /\
    (complete ws -> let '(b, k, e) := merged inp (infiles p) in
       stored (files s') (w ++ b) /\ ofile_count s' = Some k /\ r = merge_result (Z.of_nat (length b)) e).
Proof.
  intros Hop Hf. destruct (proj1 (wp_done _ _ _) (xmerge_run _ _ _ _ Hop Hf)) as (r & s' & E & ws & H).
  exists r, s', ws. split_and!; [done..|]. by apply merges_complete.
Qed.

(** C36: The function of the test program does what the system call does with
    the same files, though it reads through a smaller buffer.  With complete
    writes: the same bytes in the output, the same count, the same result or the
    same read error; only the error differs when an input does not open:
    [usr_xmerge] returns [-EBADF], the error of closing the descriptor -1.  And
    when writes fail or take a part, each of the two stores what its writes took
    and ends with the error of the write that failed. *)
Theorem usr_xmerge_agrees (fuel : nat) (p : xmerge_params) (w : list byte) (s : merge_state) :
  opens p w s -> enough inp fuel (infiles p) ->
  exists r s' ws r' s'' ws', xmerge fuel true p s = Done (r, s') /\ usr_xmerge fuel p s = Done (r', s'') /\
    merges merge_result w 0 0 (infiles p) ws r s' /\ merges usr_result w 0 0 (infiles p) ws' r' s'' /\
    (complete ws -> complete ws' ->
       let '(b, k, e) := merged inp (infiles p) in
       stored (files s') (w ++ b) /\ stored (files s'') (w ++ b) /\
       ofile_count s'' = ofile_count s' /\
       (r' = r \/ exists err, e = open_failed err /\ r = err /\ r' = - EBADF)).
Proof.
  intros Hop Hf. pose proof (xmerge_run _ _ _ _ Hop Hf) as Hx.
  pose proof (usr_xmerge_run _ _ _ _ Hop Hf) as Hu.
  apply wp_done in Hx as (r & s' & Ex & ws & Hx), Hu as (r' & s'' & Eu & ws' & Hu).
  exists r, s', ws, r', s'', ws'. split_and!; [done..|]. intros Hc Hc'.
  apply merges_complete in Hx, Hu; [|done..].
  destruct (merged inp (infiles p)) as [[b k] e], Hx as (? & -> & ->), Hu as (? & -> & ->).
  split_and!; [done..|]. destruct e; [by left| |by left]. right. by eexists.
Qed.

End Spec.

(** ** A file system

    Two files that can be read, of 7 and 2 bytes, a directory that opens and
    whose read fails, and an output, for which there may be a limit; reads yield
    at most 3 bytes, and a write takes what there is room for. *)

Module Example.
Definition bytes (l : list Z) : list byte :=
  map (fun z => default x00 (Byte.of_N (Z.to_N z))) l.

Definition name_a : str := ["a"%char].
Definition name_b : str := ["b"%char].
Definition name_c : str := ["c"%char].
Definition name_d : str := ["d"%char].
Definition name_o : str := ["o"%char].

Definition EISDIR : Z := 21.
Definition ENOENT : Z := 2.

Definition inputs : contents := fun path =>
  match path with
  | ["a"%char] => inr (bytes [1; 2; 3; 4; 5; 6; 7], None)
  | ["b"%char] => inr (bytes [8; 9], None)
  | ["d"%char] => inr ([], Some (- EISDIR))
  | _ => inl (- ENOENT)
  end.

Definition disk : Type := option (list byte * option Z) * list byte.

Definition disk_read (fd n : Z) (x : disk) : Z * list byte * disk :=
  match x with
  | (Some ([], Some e), w) => if fd =? 4 then (e, [], x) else (- EBADF, [], x)
  | (Some ([], None), w) => if fd =? 4 then (0, [], x) else (- EBADF, [], x)
  | (Some (l, e), w) =>
      if fd =? 4 then
        let k := Z.to_nat (Z.min n 3) in
        (Z.of_nat (length (take k l)), take k l, (Some (drop k l, e), w))
      else (- EBADF, [], x)
  | (None, w) => (- EBADF, [], x)
  end.

Definition ENOSPC : Z := 28.

Definition disk_write (limit : option nat) (fd : Z) (b : list byte) (x : disk) : Z * disk :=
  let room := match limit with None => length b | Some n => (n - length x.2)%nat end in
  if negb (fd =? 3) then (- EBADF, x)
  else if (room =? 0)%nat && negb (bool_decide (b = [])) then (- ENOSPC, x)
  else (Z.of_nat (length (take room b)), (x.1, x.2 ++ take room b)).

#[local] Instance disk_vfs (limit : option nat) : Vfs := {
  fs := disk;
  ksys_open path flags md x :=
    if flags =? O_RDONLY then
      match inputs path with
      | inl e => (e, x)
      | inr c => (4, (Some c, x.2))
      end
    else (3, x);
  ksys_read := disk_read;
  ksys_write := disk_write limit;
  ksys_close fd x :=
    if fd =? 3 then (0, x) else if fd =? 4 then (0, (None, x.2)) else (- EBADF, x)
}.

Lemma inputs_errors path :
  match inputs path with inl e => e < 0 | inr (_, Some e) => e < 0 | inr _ => True end.
Proof. unfold inputs. by repeat case_match; simplify_eq/=. Qed.

Lemma disk_read_some l e w n :
  l <> [] -> 0 < n ->
  exists b l', l = b ++ l' /\ 0 < Z.of_nat (length b) <= n /\
    disk_read 4 n (Some (l, e), w) = (Z.of_nat (length b), b, (Some (l', e), w)).
Proof.
  intros Hl Hn. set (k := Z.to_nat (Z.min n 3)).
  exists (take k l), (drop k l). rewrite take_drop. split; [done|]. split.
  - destruct l as [|x l]; [done|]. rewrite length_take. simpl. lia.
  - by destruct l, e.
Qed.

Lemma disk_write_spec limit b x :
  exists r, ksys_write (Vfs := disk_vfs limit) 3 b x = (r, (x.1, x.2 ++ take (Z.to_nat r) b)) /\ r <= Z.of_nat (length b) /\
    (limit = None -> r = Z.of_nat (length b)).
Proof.
  cbn. unfold disk_write. set (room := match limit with None => _ | Some _ => _ end). cbn [negb Z.eqb Pos.eqb].
  destruct (_ && _) eqn:E.
  - exists (- ENOSPC). rewrite Z2Nat.nonpos, take_0, app_nil_r by done. split; [by destruct x|]. split; [unfold ENOSPC; lia|].
    intros Hl. apply andb_true_iff in E as [E1 E2]. unfold room in E1. rewrite Hl in E1. by destruct b.
  - exists (Z.of_nat (length (take room b))). rewrite Nat2Z.id, length_take.
    assert (Ht : take (room `min` length b) b = take room b).
    { destruct (Nat.le_gt_cases room (length b)); [by rewrite Nat.min_l|].
      rewrite Nat.min_r by lia. by rewrite firstn_all, take_ge by lia. }
    rewrite Ht. split; [done|]. split; [lia|]. intros Hl. unfold room. rewrite Hl. lia.
Qed.

#[local] Program Instance disk_laws (limit : option nat) : VfsLaws (H := disk_vfs limit) 3 inputs := {
  writing x w := x.2 = w;
  reading x fd l e w := fd = 4 /\ x = (Some (l, e), w) /\ (forall r, e = Some r -> r < 0);
  stored x w := x.2 = w
}.
Next Obligation.
  intros limit x w path md e <- Hp. pose proof (inputs_errors path) as He. rewrite Hp in He.
  split; [done|]. cbn. rewrite Hp. by eexists.
Qed.
Next Obligation.
  intros limit x w path md l e <- Hp. pose proof (inputs_errors path) as He. rewrite Hp in He.
  eexists 4, _. cbn. rewrite Hp. split_and!; [done..|]. intros r ->. done.
Qed.
Next Obligation.
  intros limit x fd l e w n (-> & -> & He) Hl Hn. destruct (disk_read_some l e w n Hl Hn) as (b & l' & H1 & H2 & H3).
  by exists b, l', (Some (l', e), w).
Qed.
Next Obligation. intros limit x fd w n (-> & -> & He) Hn. by eexists. Qed.
Next Obligation. intros limit x fd w n e (-> & -> & He) Hn. split; [by apply He|]. by eexists. Qed.
Next Obligation.
  intros limit x fd l e w b (-> & -> & He). destruct (disk_write_spec limit b (Some (l, e), w)) as (r & E & Hr & _).
  exists r, (Some (l, e), w ++ take (Z.to_nat r) b). by rewrite E.
Qed.
Next Obligation. intros limit x fd l e w (-> & -> & He). by eexists. Qed.
Next Obligation. intros limit x w <-. by eexists. Qed.
Next Obligation.
  intros limit x w fd <- Hfd. exists x. cbn. rewrite (proj2 (Z.eqb_neq fd 3)), (proj2 (Z.eqb_neq fd 4)) by lia.
  done.
Qed.

Definition params (l : list str) : xmerge_params :=
  mk_xmerge_params name_o l (Z.of_nat (length l)) (Z.lor O_WRONLY (Z.lor O_CREAT O_APPEND)) 384.

Definition start (limit : option nat) : @merge_state (disk_vfs limit) :=
  mk_merge_state (H := disk_vfs limit) (None, bytes [0]) [0; 1; 2] false None 0.

Lemma enough_inputs (l : list str) : enough inputs 10 l.
Proof. intros path b e _. unfold inputs. repeat case_match; intros; simplify_eq/=; lia. Qed.

Lemma opens_start limit (l : list str) : opens (Hvfs := disk_vfs limit) 3 inputs (params l) (bytes [0]) (start limit).
Proof. split; [done|]. split; [done|]. by eexists. Qed.

Definition value {limit} (r : outcome (Z * @merge_state (disk_vfs limit))) : option (Z * disk * list Z * option Z) :=
  match r with Done (a, s) => Some (a, files s, opened s, ofile_count s) | Crash _ => None end.

(** Without a limit every write is complete. *)
Lemma unlimited_complete ws : accepted (Hvfs := disk_vfs None) 3 ws -> complete ws.
Proof.
  intros H. unfold complete. eapply Forall_impl; [exact H|]. intros [b r] [(x & x' & E) _].
  destruct (disk_write_spec None b x) as (r' & E' & _ & Hr). rewrite E in E'. injection E' as -> _. by apply Hr.
Qed.

Lemma unlimited_not_refused ws e : refused (Hvfs := disk_vfs None) 3 ws e -> False.
Proof.
  intros (ws' & b & _ & _ & (x & x' & E) & _ & He). destruct (disk_write_spec None b x) as (r' & E' & _ & Hr).
  rewrite E in E'. injection E' as -> _. specialize (Hr eq_refl). lia.
Qed.

Lemma unlimited_merges (kept : disk -> list byte -> Prop) res w l ws r s :
  merges (Hvfs := disk_vfs None) 3 inputs kept res w 0 0 l ws r s -> complete ws.
Proof.
  intros [_ H]. destruct (merged inputs l) as [[b k] e].
  destruct H as [(Ha & _)|(? & ? & ? & ? & ? & ? & ? & ? & _ & _ & _ & _ & _ & Hr & _)]; [by apply unlimited_complete|].
  destruct (unlimited_not_refused _ _ Hr).
Qed.

(** The files a, b and the directory d; a and b, also with room for six bytes;
    b and the missing c. *)
Lemma xmerge_releases_witness :
  exists s', xmerge 10 true (params [name_a; name_b; name_d]) (start None) = Done (- EISDIR, s') /\
  opened s' = [0; 1; 2] /\ kernel_ds s' = false.
Proof.
  destruct (xmerge 10 true (params [name_a; name_b; name_d]) (start None)) as [[r s']|f] eqn:E.
  - assert (r = - EISDIR) as ->.
    { assert (value (Done (r, s')) = value (xmerge 10 true (params [name_a; name_b; name_d]) (start None)))
        as H by (by rewrite E). vm_compute in H. by injection H. }
    exists s'. split; [done|].
    exact (xmerge_releases 10 true (params [name_a; name_b; name_d]) (start None) s' (- EISDIR) E).
  - exfalso. assert (value (xmerge 10 true (params [name_a; name_b; name_d]) (start None)) = None) as H
      by (by rewrite E). by vm_compute in H.
Defined.

Lemma xmerge_spec_witness :
  (exists s', xmerge 10 true (params [name_a; name_b]) (start None) = Done (9, s') /\
     stored (VfsLaws := disk_laws None) (files s') (bytes [0; 1; 2; 3; 4; 5; 6; 7; 8; 9]) /\ ofile_count s' = Some 2) /\
  value (xmerge 10 true (params [name_a; name_b]) (start (Some 6%nat))) =
    Some (- ENOSPC, (None, bytes [0; 1; 2; 3; 4; 5]), [0; 1; 2], Some 0) /\
  exists s' ws, xmerge 10 true (params [name_a; name_b]) (start (Some 6%nat)) = Done (- ENOSPC, s') /\
    merges (Hvfs := disk_vfs (Some 6%nat)) 3 inputs stored merge_result (bytes [0]) 0 0 [name_a; name_b] ws (- ENOSPC) s'.
Proof.
  split; [|split; [by vm_compute|]].
  - destruct (xmerge_spec (Hvfs := disk_vfs None) 3 inputs 10 (params [name_a; name_b]) (bytes [0]) (start None)
      (opens_start None _) (enough_inputs _)) as (r & s' & ws & E & Hm & Hc).
    apply unlimited_merges in Hm. destruct (Hc Hm) as (H1 & H2 & ->). by exists s'.
  - destruct (xmerge_spec (Hvfs := disk_vfs (Some 6%nat)) 3 inputs 10 (params [name_a; name_b]) (bytes [0]) (start (Some 6%nat))
      (opens_start (Some 6%nat) _) (enough_inputs _)) as (r & s' & ws & E & Hm & _).
    assert (r = - ENOSPC) as ->.
    { assert (value (Done (r, s')) = value (xmerge 10 true (params [name_a; name_b]) (start (Some 6%nat))))
        as H by (by rewrite E). vm_compute in H. by injection H. }
    by exists s', ws.
Defined.

Lemma usr_xmerge_agrees_witness :
  value (xmerge 10 true (params [name_b; name_c]) (start None)) =
    Some (- ENOENT, (None, bytes [0; 8; 9]), [0; 1; 2], Some 1) /\
  value (usr_xmerge 10 (params [name_b; name_c]) (start None)) =
    Some (- EBADF, (None, bytes [0; 8; 9]), [0; 1; 2], Some 1) /\
  value (usr_xmerge 10 (params [name_a; name_b]) (start (Some 6%nat))) =
    Some (- ENOSPC, (None, bytes [0; 1; 2; 3; 4; 5]), [0; 1; 2], Some 0) /\
  exists r s' r' s'', xmerge 10 true (params [name_b; name_c]) (start None) = Done (r, s') /\
    usr_xmerge 10 (params [name_b; name_c]) (start None) = Done (r', s'') /\
    let '(b, k, e) := merged inputs [name_b; name_c] in
    stored (VfsLaws := disk_laws None) (files s') (bytes [0] ++ b) /\
    stored (VfsLaws := disk_laws None) (files s'') (bytes [0] ++ b) /\
    ofile_count s'' = ofile_count s' /\
    (r' = r \/ exists err, e = open_failed err /\ r = err /\ r' = - EBADF).
Proof.
  split; [by vm_compute|]. split; [by vm_compute|]. split; [by vm_compute|].
  destruct (usr_xmerge_agrees (Hvfs := disk_vfs None) 3 inputs 10 (params [name_b; name_c]) (bytes [0]) (start None)
    (opens_start None _) (enough_inputs _)) as (r & s' & ws & r' & s'' & ws' & E & E' & Hm & Hm' & H).
  exists r, s', r', s''. split; [done|]. split; [done|]. apply H; by eapply unlimited_merges.
Defined.
End Example.
