(* ===== verification/Procfs.v ===== *)
(** * The process lister ([myps.c]) and the load display ([info.c])

    What the two tools compute from the files of [/proc]: the processes with
    their owner, size and time, the order in which they are printed, and the
    split of seconds into days, hours, minutes and seconds.  The files, the
    users and [qsort] are parameters, and a line that is printed is the record
    of its columns. *)

From S2P Require Import Prelude CStrings.
From Stdlib Require Import Ascii String.
From stdpp Require Import strings sorting.

#[global] Open Scope Z_scope.

(** ** Parameters *)

(** The lines of [/proc/<pid>/status], as [fgets] reads them, with their
    newlines, and the line [/proc/<pid>/stat], if they open; the name of a user; [sysconf(_SC_CLK_TCK)]; [qsort] with a comparison. *)
Class Proc : Type := {
  status_file : Z -> option (list str);
  stat_file : Z -> option str;
  getpwuid : Z -> option str;
  clk_tck : Z;
  qsort : forall {A}, (A -> A -> Z) -> list A -> list A
}.

(** ** Processes *)

Record psinfo : Type := mk_psinfo {
  pid : Z;
  name : str;
  vsize : Z;
  cputime : Z;
  user : str
}.

Definition psinfo_cmp_cputime (a b : psinfo) : Z :=
  let a_ := s64 (cputime a) in
  let b_ := s64 (cputime b) in
  s32 (s64 (b_ - a_)).

Definition psinfo_cmp_vsize (a b : psinfo) : Z :=
  let a_ := s64 (vsize a) in
  let b_ := s64 (vsize b) in
  s32 (s64 (b_ - a_)).

(** The columns of a line. *)
Record ps_line : Type := mk_ps_line {
  col_pid : Z;
  col_user : str;
  hour : Z;
  minute : Z;
  second : Z;
  col_vsize : Z;
  col_name : str
}.

Definition print_ps (ps : psinfo) : ps_line :=
  let hour := s32 (cputime ps / 3600) in
  let t := u64 (cputime ps - s32 (hour * 3600)) in
  let minute := s32 (t / 60) in
  let t := u64 (t - s32 (minute * 60)) in
  let second := s32 t in
  mk_ps_line (pid ps) (user ps) hour minute second (vsize ps) (name ps).

Definition print_all_ps (pses : list psinfo) : list ps_line := map print_ps pses.

Declare Scope outcome_scope.

(** A value, or a crash without one. *)
Definition get {A} (f : fault) (o : option A) : outcome A :=
  match o with Some a => Done a | None => Crash f end.

Definition obind {A B} (m : outcome A) (k : A -> outcome B) : outcome B :=
  match m with Done a => k a | Crash f => Crash f end.
Notation "'let?' x := m 'in' k" := (obind m (fun x => k)) (at level 10, x binder, k at level 200) : outcome_scope.
#[local] Open Scope outcome_scope.

(** [strcpy] into an array of [n]. *)
Definition fits (n : nat) (s : str) : outcome unit :=
  if (length s <? n)%nat then Done tt else Crash BadIndex.

(** The search for the line of the user.  The condition of the loop is the
    address of an array, so that without such a line the loop does not end. *)
Fixpoint find_uid (lines : list str) : outcome Z :=
  match lines with
  | [] => Crash OutOfFuel
  | line :: lines =>
      let? token := get NullDeref (head (strtok_all TAB (take 1023 line) [])) in
      if decide (token = chars "Uid:") then
        let? token := get NullDeref (strtok_all TAB (take 1023 line) [] !! 2%nat) in
        Done (strtoul token)
      else find_uid lines
  end.

(** The fields of [/proc/<pid>/stat]; those that are missing stay
    uninitialised. *)
Record stat_fields : Type := mk_stat_fields {
  f_name : option str;
  f_utime : option Z;
  f_stime : option Z;
  f_vsize : option Z
}.

Definition parse_stat (data : str) : outcome stat_fields :=
  let tokens := strtok_all SPACE (take 2047 data) [] in
  let? name := (match tokens !! 1%nat with
    | None => Done None
    | Some token =>
        let len := length token in
        if (len <? 2)%nat || (65 <=? len - 2)%nat then Crash BadIndex
        else Done (Some (take (len - 2) (drop 1 token)))
    end) in
  Done (mk_stat_fields name (strtoul <$> tokens !! 13%nat) (strtoul <$> tokens !! 14%nat) (strtoul <$> tokens !! 22%nat)).

Section Myps.
Context `{Proc}.

(** One round of the loop over [/proc], with the user to show, if any. *)
Definition read_entry (filter : option str) (d_name : str) : outcome (option psinfo) :=
  match scan_int d_name with
  | None => Done None
  | Some pid =>
      let? status := get NullDeref (status_file pid) in
      let? uid := find_uid status in
      let? skip := (match filter with
        | None => Done false
        | Some user => let? pw_name := get NullDeref (getpwuid uid) in Done (negb (bool_decide (user = pw_name)))
        end) in
      if (skip : bool) then Done None else
      let? data := get NullDeref (stat_file pid) in
      let? f := parse_stat data in
      let? name := get BadIndex (f_name f) in
      let? utime := get BadIndex (f_utime f) in
      let? stime := get BadIndex (f_stime f) in
      let? vsize := get BadIndex (f_vsize f) in
      let? pw_name := get NullDeref (getpwuid uid) in
      let? _ := fits 128 pw_name in
      Done (Some (mk_psinfo pid name (vsize / 1000) (u64 (utime + stime) / clk_tck) pw_name))
  end.

(** [pses] has room for 1024 pointers. *)
Fixpoint read_all (filter : option str) (names : list str) (pses : list psinfo) : outcome (list psinfo) :=
  match names with
  | [] => if (length pses <? 1024)%nat then Done pses else Crash BadIndex
  | d_name :: names =>
      let? e := read_entry filter d_name in
      match e with
      | None => read_all filter names pses
      | Some ps => if (length pses <? 1024)%nat then read_all filter names (pses ++ [ps]) else Crash BadIndex
      end
  end.

Record options : Type := mk_options {
  opt_sort : Z;
  opt_filter : option str
}.

(** What [getopt] returned, with [optarg]. *)
Definition set_option (o : outcome options) (arg : ascii * str) : outcome options :=
  let? o := o in
  if decide (arg.1 = "m"%char) then Done (mk_options 1 (opt_filter o))
  else if decide (arg.1 = "p"%char) then Done (mk_options 2 (opt_filter o))
  else if decide (arg.1 = "u"%char) then let? _ := fits 65 arg.2 in Done (mk_options (opt_sort o) (Some arg.2))
  else Done o.

Inductive output : Type :=
| INVALID_USER (user : str)
| LISTING (lines : list ps_line).

Definition main (args : list (ascii * str)) (names : list str) : outcome output :=
  let? o := foldl set_option (Done (mk_options 0 None)) args in
  let? pses := read_all (opt_filter o) names [] in
  match opt_filter o, pses with
  | Some user, [] => Done (INVALID_USER user)
  | _, _ =>
      let pses := if opt_sort o =? 1 then qsort psinfo_cmp_vsize pses
                  else if opt_sort o =? 2 then qsort psinfo_cmp_cputime pses
                  else pses in
      Done (LISTING (print_all_ps pses))
  end.
End Myps.

(** ** The load display *)

(** [seconds] as days, hours, minutes and seconds. *)
Definition uptime (seconds : Z) : Z * Z * Z * Z :=
  let day := seconds `quot` (24 * 3600) in
  let seconds := seconds - day * (24 * 3600) in
  let hour := seconds `quot` 3600 in
  let seconds := seconds - hour * 3600 in
  let minute := seconds `quot` 60 in
  let second := seconds - minute * 60 in
  (day, hour, minute, second).

(** Used and total memory from the first two lines; [memtotal] has room for 25
    characters and [memfree] for 128. *)
Definition meminfo (line1 line2 : str) : outcome (Z * Z) :=
  let? _ := fits 25 (take 255 line1) in
  let? _ := fits 128 (take 255 line2) in
  let? num_total := get BadIndex (strtok_all SPACE line1 [] !! 1%nat ≫= scan_int) in
  let? num_free := get BadIndex (strtok_all SPACE line2 [] !! 1%nat ≫= scan_int) in
  Done (s32 (num_total - num_free), num_total).

Record cpustat : Type := mk_cpustat {
  total : Z;
  used : Z
}.

(** The numbers behind [cpu<n>], in the order of the variables: [t_idle] and
    [t_iowait] are the fourth and the fifth.  A number that is missing is that
    of the CPU before. *)
Fixpoint get_cpu_usage (lines : list str) (vars : list Z) : list cpustat :=
  match lines with
  | [] => []
  | line :: lines =>
      let scanned := take 10 (map atoi (tail (strtok_all SPACE (take 255 line) []))) in
      let vars := scanned ++ drop (length scanned) vars in
      let t_total := u64 (sumZ (fun n => n) vars) in
      let t_used := u64 (t_total - nth 4 vars 0 - nth 3 vars 0) in
      mk_cpustat t_total t_used :: get_cpu_usage lines vars
  end.

(** How many lines of a CPU follow one another. *)
Fixpoint count_cpus (lines : list str) : nat :=
  match lines with
  | [] => O
  | l :: lines => if decide (take 3 l = chars "cpu") then S (count_cpus lines) else O
  end.

(** The lines of the CPUs follow the first line of [/proc/stat]; [vars] are the
    contents of the uninitialised variables. *)
Definition cpu_usage (stat : list str) (vars : list Z) : list cpustat :=
  let lines := tail stat in
  get_cpu_usage (take (count_cpus lines) lines) vars.

(** ** What is printed *)

(** A process, and what [/proc] shows of it: among other lines, one of its four
    user numbers, real, effective, saved and of the file system, and one line of
    words, the second of which is its name in parentheses. *)
Record process : Type := mk_process {
  p_pid : Z;
  comm : str;
  owner : str;
  utime : Z;
  stime : Z;
  vsize_bytes : Z
}.

Record shown `{Proc} (q : process) (uid : Z) (before after : list str) (ruid euid suid fsuid : str) (words : list str) (rest : str) : Prop := {
  sh_status : status_file (p_pid q) = Some (before ++ (joined TAB [chars "Uid:"; ruid; euid; suid] ++ fsuid ++ [LF]) :: after);
  sh_before : forall l, l ∈ before -> exists t, head (strtok_all TAB (take 1023 l) []) = Some t /\ t <> chars "Uid:";
  sh_uids : Forall (word TAB) [ruid; euid; suid] /\ (length ruid + length euid + length suid + length fsuid < 1000)%nat;
  sh_uid : strtoul euid = uid;
  sh_owner : getpwuid uid = Some (owner q) /\ (length (owner q) < 128)%nat;
  sh_stat : stat_file (p_pid q) = Some (joined SPACE words ++ rest);
  sh_words : Forall (word SPACE) words;
  sh_length : (length (joined SPACE words ++ rest) < 2048)%nat;
  sh_name : words !! 1%nat = Some (chars "(" ++ comm q ++ chars ")") /\ (length (comm q) < 65)%nat;
  sh_utime : strtoul <$> words !! 13%nat = Some (utime q);
  sh_stime : strtoul <$> words !! 14%nat = Some (stime q);
  sh_vsize : strtoul <$> words !! 22%nat = Some (vsize_bytes q)
}.

Definition in_proc `{Proc} (q : process) : Prop :=
  exists uid before after ruid euid suid fsuid words rest, shown q uid before after ruid euid suid fsuid words rest.

Section Spec.
Context `{Hproc : Proc}.
Implicit Types (q : process) (l : str).

(** What the lister keeps of a process. *)
Definition ps_of q : psinfo :=
  mk_psinfo (p_pid q) (comm q) (vsize_bytes q / 1000) (u64 (utime q + stime q) / clk_tck) (owner q).

(** The processes of one user. *)
Definition of_user (u : option str) (qs : list process) : list process :=
  match u with
  | None => qs
  | Some u => filter (fun q => u = owner q) qs
  end.

Lemma find_uid_spec before line after (u e : str) (rest : list str) :
  (forall l, l ∈ before -> exists t, head (strtok_all TAB (take 1023 l) []) = Some t /\ t <> chars "Uid:") ->
  strtok_all TAB (take 1023 line) [] = chars "Uid:" :: u :: e :: rest ->
  find_uid (before ++ line :: after) = Done (strtoul e).
Proof.
  intros Hb Hl. induction before as [|b before IH]; simpl.
  - by rewrite Hl.
  - destruct (Hb b ltac:(by left)) as (x & -> & Hx). simpl. rewrite decide_False by done.
    apply IH. intros y Hy. apply Hb. by right.
Qed.

Lemma joined_uid (u e v f : str) :
  Forall (word TAB) [u; e; v] -> (length u + length e + length v + length f < 1000)%nat ->
  strtok_all TAB (take 1023 (joined TAB [chars "Uid:"; u; e; v] ++ f ++ [LF])) [] =
    chars "Uid:" :: u :: e :: v :: strtok_all TAB (f ++ [LF]) [].
Proof.
  intros Hw Hl. rewrite take_ge by (simpl; repeat (rewrite !length_app; simpl); lia).
  rewrite strtok_joined; [done|]. constructor; [|exact Hw]. split; [done|]. by apply (bool_decide_unpack _).
Qed.

Lemma parse_stat_spec (words : list str) rest (nm : str) :
  Forall (word SPACE) words -> (length (joined SPACE words ++ rest) < 2048)%nat ->
  words !! 1%nat = Some (chars "(" ++ nm ++ chars ")") -> (length nm < 65)%nat -> is_Some (words !! 22%nat) ->
  parse_stat (joined SPACE words ++ rest) =
    Done (mk_stat_fields (Some nm) (strtoul <$> words !! 13%nat) (strtoul <$> words !! 14%nat) (strtoul <$> words !! 22%nat)).
Proof.
  intros Hw Hl Hn Hs Hlong. unfold parse_stat. rewrite take_ge by lia. rewrite strtok_joined by done.
  assert (Hi : forall i, (i <= 22)%nat -> (words ++ strtok_all SPACE rest []) !! i = words !! i).
  { intros i Hi. apply lookup_app_l. apply lookup_lt_is_Some in Hlong. lia. }
  rewrite !Hi, Hn by lia. assert (El : length (chars "(" ++ nm ++ chars ")") = S (S (length nm))).
  { rewrite !length_app. simpl. lia. }
  rewrite El. replace (S (S (length nm)) - 2)%nat with (length nm) by lia.
  destruct (Nat.ltb_spec (S (S (length nm))) 2); [lia|]. destruct (Nat.leb_spec 65 (length nm)); [lia|]. cbn [orb obind].
  change (drop 1 (chars "(" ++ nm ++ chars ")")) with (nm ++ chars ")"). by rewrite take_app_length.
Qed.

(** One entry of [/proc]. *)
Lemma read_entry_spec u d_name q :
  scan_int d_name = Some (p_pid q) -> in_proc q ->
  read_entry u d_name = Done (if decide (u = None \/ u = Some (owner q)) then Some (ps_of q) else None).
Proof.
  intros Hd (uid & before & after & r & e & v & f & words & rest & [H1 H2 [H3 H4] H6 [H7 H7'] H8 H9 H10 [H11 H11'] H12 H13 H14]).
  unfold read_entry. rewrite Hd, H1. cbn [get obind].
  rewrite (find_uid_spec _ _ _ r e (v :: strtok_all TAB (f ++ [LF]) [])) by (done || by apply joined_uid). rewrite H6. cbn [obind]. rewrite H7, H8.
  assert (Hr : (let? f := parse_stat (joined SPACE words ++ rest) in
    let? name := get BadIndex (f_name f) in let? ut := get BadIndex (f_utime f) in
    let? st := get BadIndex (f_stime f) in let? vs := get BadIndex (f_vsize f) in
    let? pw := Done (owner q) in let? _ := fits 128 pw in
    Done (Some (mk_psinfo (p_pid q) name (vs / 1000) (u64 (ut + st) / clk_tck) pw))) = Done (Some (ps_of q))).
  { rewrite (parse_stat_spec words rest (comm q)); [|done..|by destruct (words !! 22%nat)].
    cbn [obind f_name f_utime f_stime f_vsize]. rewrite H12, H13, H14. cbn [get obind]. unfold fits.
    by rewrite (proj2 (Nat.ltb_lt _ _)) by done. }
  destruct u as [u|]; cbn [obind get].
  - case_bool_decide as Hu; cbn [negb]; [rewrite decide_True by (right; congruence); exact Hr|].
    rewrite decide_False; [done|]. intros [?|[= ->]]; done.
  - rewrite decide_True by by left. exact Hr.
Qed.

Lemma read_all_spec u names : forall (qs : list process) pses,
  omap scan_int names = map p_pid qs -> Forall in_proc qs -> (length pses + length qs < 1024)%nat ->
  read_all u names pses = Done (pses ++ map ps_of (of_user u qs)).
Proof.
  induction names as [|d names IH]; intros qs pses Hn Hq Hl; simpl in *.
  - destruct qs; [|done]. rewrite (proj2 (Nat.ltb_lt _ _)) by (simpl in Hl; lia).
    destruct u; by rewrite app_nil_r.
  - destruct (scan_int d) as [p|] eqn:E; cycle 1.
    { unfold read_entry at 1. rewrite E. cbn [obind]. by apply IH. }
    destruct qs as [|q qs]; [done|]. injection Hn as -> Hn. apply Forall_cons in Hq as [Hq Hqs]. simpl in Hl.
    rewrite (read_entry_spec u d q) by done. cbn [obind]. case_decide as Hu.
    + rewrite (proj2 (Nat.ltb_lt _ _)) by lia.
      rewrite (IH qs) by (done || rewrite length_app; simpl; lia). rewrite <- (assoc_L (++)). do 2 f_equal.
      destruct u as [u|]; [|done]. cbn [of_user]. rewrite filter_cons_True; [done|]. by destruct Hu as [|[= ->]].
    + rewrite (IH qs) by (done || lia). do 2 f_equal. destruct u as [u|]; [|by destruct Hu; left].
      cbn [of_user]. rewrite filter_cons_False; [done|]. intros ->. apply Hu. by right.
Qed.
(** What [qsort] promises: a permutation, and a sorted one when the comparison
    orders the elements. *)
Class ProcLaws : Prop := {
  qsort_perm {A} (cmp : A -> A -> Z) (l : list A) : qsort cmp l ≡ₚ l;
  qsort_sorted {A} (cmp : A -> A -> Z) (l : list A) :
    (forall x y, x ∈ l -> y ∈ l -> cmp x y <= 0 \/ cmp y x <= 0) ->
    (forall x y z, x ∈ l -> y ∈ l -> z ∈ l -> cmp x y <= 0 -> cmp y z <= 0 -> cmp x z <= 0) ->
    StronglySorted (fun x y => cmp x y <= 0) (qsort cmp l)
}.
Context {Hlaws : ProcLaws}.

(** The comparisons order what fits into an [int]. *)
Definition int_key (key : psinfo -> Z) (ps : psinfo) : Prop := 0 <= key ps < 2 ^ 31.

Lemma cmp_small x y : 0 <= x < 2 ^ 31 -> 0 <= y < 2 ^ 31 -> s32 (s64 (s64 y - s64 x)) = y - x.
Proof. intros Hx Hy. rewrite (s64_small x), (s64_small y), s64_small, s32_small by lia. done. Qed.

Lemma qsort_by (key : psinfo -> Z) cmp (l : list psinfo) :
  (forall a b, int_key key a -> int_key key b -> cmp a b = key b - key a) -> (forall a, a ∈ l -> int_key key a) ->
  StronglySorted (fun a b => key b <= key a) (qsort cmp l).
Proof.
  intros Hc Hl. assert (Hq : forall a, a ∈ qsort cmp l -> a ∈ l) by (intros a; by rewrite qsort_perm).
  assert (H : StronglySorted (fun x y => cmp x y <= 0) (qsort cmp l)).
  { apply qsort_sorted.
    - intros x y Hx Hy. rewrite !Hc by auto. lia.
    - intros x y z Hx Hy Hz. rewrite !Hc by auto. lia. }
  revert Hq. induction H as [|a l' H IH Ha]; intros Hq; constructor.
  - apply IH. intros b Hb. apply Hq. by right.
  - rewrite Forall_forall in Ha |- *. intros b Hb. specialize (Ha b Hb).
    rewrite Hc in Ha by (apply Hl, Hq; (by left) || by right). lia.
Qed.

Lemma print_ps_time ps :
  int_key cputime ps ->
  let r := print_ps ps in
  cputime ps = 3600 * hour r + 60 * minute r + second r /\ 0 <= minute r < 60 /\ 0 <= second r < 60.
Proof.
  intros [H1 H2]. cbn [print_ps hour minute second].
  assert (Eh : s32 (cputime ps / 3600) = cputime ps / 3600) by (rewrite s32_small; [done|]; Z.to_euclidean_division_equations; lia).
  rewrite Eh. set (h := cputime ps / 3600). assert (Hh : 0 <= cputime ps - h * 3600 < 3600) by (unfold h; Z.to_euclidean_division_equations; lia).
  assert (Hh0 : 0 <= h) by (unfold h; Z.to_euclidean_division_equations; lia).
  rewrite (s32_small (h * 3600)), (u64_small (cputime ps - h * 3600)) by lia. set (t := cputime ps - h * 3600) in *.
  assert (Hm : 0 <= t - t / 60 * 60 < 60) by (Z.to_euclidean_division_equations; lia).
  assert (Hm0 : 0 <= t / 60 < 60) by (Z.to_euclidean_division_equations; lia).
  rewrite (s32_small (t / 60)) by lia. rewrite (s32_small (t / 60 * 60)), u64_small, s32_small by lia. lia.
Qed.

(** C38: The process lister prints one line for each process of [/proc] that
    belongs to the user asked for, or for each process: its number, owner,
    size in kB, time and name as the files show them; sorted by size or time,
    largest first, if asked for, as long as the sizes or times fit into an
    [int]; and the time split into hours, minutes and seconds.  Without such a
    process the user is called invalid. *)
Theorem myps_spec args names qs o :
  foldl set_option (Done (mk_options 0 None)) args = Done o ->
  omap scan_int names = map p_pid qs -> Forall in_proc qs -> (length qs < 1024)%nat ->
  match opt_filter o, of_user (opt_filter o) qs with
  | Some u, [] => main args names = Done (INVALID_USER u)
  | _, qs' => exists l : list psinfo, main args names = Done (LISTING (map print_ps l)) /\ l ≡ₚ map ps_of qs' /\
      (opt_sort o = 1 -> (forall ps, ps ∈ l -> int_key vsize ps) -> StronglySorted (fun a b => vsize b <= vsize a) l) /\
      (opt_sort o = 2 -> (forall ps, ps ∈ l -> int_key cputime ps) ->
         StronglySorted (fun a b => cputime b <= cputime a) l) /\
      forall ps, ps ∈ l -> int_key cputime ps ->
        let r := print_ps ps in
        cputime ps = 3600 * hour r + 60 * minute r + second r /\ 0 <= minute r < 60 /\ 0 <= second r < 60
  end.
Proof.
  intros Ho Hn Hq Hl. unfold main. rewrite Ho. cbn [obind].
  rewrite (read_all_spec _ names qs []) by (done || simpl; lia). cbn [obind app].
  set (qs' := of_user (opt_filter o) qs). set (pses := map ps_of qs').
  assert (Hsort : forall l : list psinfo, l = (if opt_sort o =? 1 then qsort psinfo_cmp_vsize pses
      else if opt_sort o =? 2 then qsort psinfo_cmp_cputime pses else pses) ->
    l ≡ₚ pses /\
    (opt_sort o = 1 -> (forall ps, ps ∈ l -> int_key vsize ps) -> StronglySorted (fun a b => vsize b <= vsize a) l) /\
    (opt_sort o = 2 -> (forall ps, ps ∈ l -> int_key cputime ps) ->
       StronglySorted (fun a b => cputime b <= cputime a) l)).
  { intros l ->. split; [|split].
    - destruct (_ =? 1); [apply qsort_perm|]. destruct (_ =? 2); [apply qsort_perm|done].
    - intros ->. simpl. intros Hk. apply qsort_by; [by intros; apply cmp_small|]. intros a Ha. apply Hk. by rewrite qsort_perm.
    - intros ->. simpl. intros Hk. apply qsort_by; [by intros; apply cmp_small|]. intros a Ha. apply Hk. by rewrite qsort_perm. }
  destruct (Hsort _ eq_refl) as (S1 & S2 & S3). clear Hsort.
  assert (Hres : match opt_filter o, qs' with Some _, [] => False | _, _ => True end ->
    match opt_filter o, pses with
    | Some user, [] => Done (INVALID_USER user)
    | _, _ => Done (LISTING (print_all_ps (if opt_sort o =? 1 then qsort psinfo_cmp_vsize pses
      else if opt_sort o =? 2 then qsort psinfo_cmp_cputime pses else pses)))
    end = Done (LISTING (map print_ps (if opt_sort o =? 1 then qsort psinfo_cmp_vsize pses
      else if opt_sort o =? 2 then qsort psinfo_cmp_cputime pses else pses)))).
  { destruct (opt_filter o); [|done]. unfold pses. by destruct qs'. }
  destruct (opt_filter o) as [u|]; [destruct qs' as [|q qs'']; [done|]|];
    (eexists; split; [by apply Hres|]; split; [exact S1|]; split; [exact S2|]; split; [exact S3|]; intros ps _; apply print_ps_time).
Qed.
End Spec.

(** The difference of two sizes may not fit into an [int]: a process larger by
    2^31 kB or more may come last. *)
Lemma psinfo_cmp_vsize_wraps a b :
  0 <= vsize a < 2 ^ 31 -> vsize b = vsize a + 2 ^ 31 -> psinfo_cmp_vsize a b < 0.
Proof.
  intros Ha Hb. unfold psinfo_cmp_vsize. rewrite Hb, (s64_small (vsize a)), (s64_small (_ + _)), s64_small by lia.
  replace (vsize a + 2 ^ 31 - vsize a) with (2 ^ 31) by lia. by vm_compute.
Qed.

(** ** Splitting seconds, and what the arrays hold *)

Lemma uptime_spec seconds : 0 <= seconds ->
  let '(d, h, m, s) := uptime seconds in
  seconds = 86400 * d + 3600 * h + 60 * m + s /\ 0 <= h < 24 /\ 0 <= m < 60 /\ 0 <= s < 60.
Proof.
  intros H. unfold uptime. rewrite Z.quot_div_nonneg by lia. set (d := seconds / (24 * 3600)).
  assert (Hd : 0 <= seconds - d * (24 * 3600) < 86400) by (unfold d; Z.to_euclidean_division_equations; lia).
  set (t := seconds - d * (24 * 3600)) in *. rewrite Z.quot_div_nonneg by lia. set (h := t / 3600).
  assert (Hh : 0 <= t - h * 3600 < 3600 /\ 0 <= h < 24) by (unfold h; Z.to_euclidean_division_equations; lia).
  set (u := t - h * 3600) in *. rewrite Z.quot_div_nonneg by lia.
  assert (Hm : 0 <= u - u / 60 * 60 < 60 /\ 0 <= u / 60 < 60) by (Z.to_euclidean_division_equations; lia). lia.
Qed.

(** The array for the first line of [/proc/meminfo] is shorter than the line. *)
Lemma meminfo_overflows line1 line2 : (25 <= length line1)%nat -> meminfo line1 line2 = Crash BadIndex.
Proof.
  intros H. unfold meminfo, fits. rewrite length_take.
  destruct (Nat.ltb_spec (255 `min` length line1) 25); [lia|done].
Qed.

(** ** Two processes *)

Module PsExample.
(** Insertion sort, as [qsort]. *)
Fixpoint insert {A} (cmp : A -> A -> Z) (x : A) (l : list A) : list A :=
  match l with
  | [] => [x]
  | y :: l' => if cmp x y <=? 0 then x :: l else y :: insert cmp x l'
  end.
Definition isort {A} (cmp : A -> A -> Z) (l : list A) : list A := foldr (insert cmp) [] l.

Lemma insert_perm {A} cmp (x : A) l : insert cmp x l ≡ₚ x :: l.
Proof.
  induction l as [|y l IH]; simpl; [done|]. destruct (_ <=? _); [done|]. rewrite IH. by apply perm_swap.
Qed.

Lemma isort_perm {A} cmp (l : list A) : isort cmp l ≡ₚ l.
Proof. induction l as [|x l IH]; simpl; [done|]. by rewrite insert_perm, IH. Qed.

Lemma insert_sorted {A} (cmp : A -> A -> Z) x l (P : A -> Prop) :
  (forall x y, P x -> P y -> cmp x y <= 0 \/ cmp y x <= 0) ->
  (forall x y z, P x -> P y -> P z -> cmp x y <= 0 -> cmp y z <= 0 -> cmp x z <= 0) ->
  P x -> (forall y, y ∈ l -> P y) -> StronglySorted (fun x y => cmp x y <= 0) l ->
  StronglySorted (fun x y => cmp x y <= 0) (insert cmp x l).
Proof.
  intros Ht Htr Hx Hl H. induction H as [|y l H IH Hy]; simpl; [by repeat constructor|].
  assert (Py : P y) by (apply Hl; by left). rewrite Forall_forall in Hy.
  destruct (Z.leb_spec (cmp x y) 0) as [Hc|Hc].
  - constructor; [by constructor; [|by rewrite Forall_forall]|]. rewrite Forall_forall.
    intros z [->|Hz]%elem_of_cons; [done|]. apply (Htr _ y); auto. apply Hl. by right.
  - constructor; [apply IH; intros z Hz; apply Hl; by right|]. rewrite Forall_forall. intros z.
    rewrite insert_perm. intros [->|Hz]%elem_of_cons; [|auto]. destruct (Ht x y Hx Py); [lia|done].
Qed.

(** The shell of root and an editor of user 1000. *)
Definition status (uid : string) : list str :=
  let line l := chars l ++ [LF] in
  [line "Name:	x"; line "Umask:	0022"; line "State:	S (sleeping)";
   line ("Uid:	" +:+ uid +:+ "	" +:+ uid +:+ "	" +:+ uid +:+ "	" +:+ uid)%string;
   line "Gid:	0	0	0	0"].
Definition stat (pid comm utime vsize : string) : str :=
  chars pid ++ chars " (" ++ chars comm ++ chars ") S 1 2 3 4 5 6 7 8 9 10 " ++ chars utime ++
  chars " 14 15 16 17 18 19 20 21 " ++ chars vsize ++ chars " 23 ".

#[local] Instance proc : Proc := {|
  status_file p := if p =? 7 then Some (status "0") else if p =? 8 then Some (status "1000") else None;
  stat_file p := if p =? 7 then Some (stat "7" "sh" "300" "5000000")
                 else if p =? 8 then Some (stat "8" "vi" "732500" "9000000") else None;
  getpwuid u := if u =? 0 then Some (chars "root") else if u =? 1000 then Some (chars "max") else None;
  clk_tck := 100;
  qsort := fun A => @isort A
|}.

Instance proc_laws : ProcLaws.
Proof.
  split; [intros; apply isort_perm|]. intros A cmp l Ht Htr. cbn [qsort proc].
  assert (H : forall l', (forall x, x ∈ l' -> x ∈ l) -> StronglySorted (fun x y => cmp x y <= 0) (isort cmp l')).
  { induction l' as [|x l' IH]; intros Hi; simpl; [constructor|].
    apply (insert_sorted cmp x _ (fun y => y ∈ l)); [done|done|apply Hi; by left| |].
    - intros y. rewrite isort_perm. intros Hy. apply Hi. by right.
    - apply IH. intros y Hy. apply Hi. by right. }
  by apply H.
Qed.

Definition sh : process := mk_process 7 (chars "sh") (chars "root") 300 14 5000000.
Definition vi : process := mk_process 8 (chars "vi") (chars "max") 732500 14 9000000.

Definition words (l : str) : list str := strtok_all SPACE l [].

Lemma words_ok (l : list str) : forallb (fun w => negb (bool_decide (w = [])) && bool_decide (SPACE ∉ w)) l = true ->
  Forall (word SPACE) l.
Proof.
  rewrite forallb_forall. intros H. apply Forall_forall. intros w Hw%list_elem_of_In. specialize (H w Hw).
  apply andb_true_iff in H as [H1 H2]. apply negb_true_iff, bool_decide_eq_false in H1.
  apply bool_decide_eq_true in H2. by split.
Qed.

Lemma heads_ok (ls : list str) :
  forallb (fun l => match head (strtok_all TAB (take 1023 l) []) with
    | Some t => negb (bool_decide (t = chars "Uid:")) | None => false end) ls = true ->
  forall l, l ∈ ls -> exists t, head (strtok_all TAB (take 1023 l) []) = Some t /\ t <> chars "Uid:".
Proof.
  rewrite forallb_forall. intros H l Hl%list_elem_of_In. specialize (H l Hl).
  destruct (head _) as [t|]; [|done]. exists t. split; [done|]. by apply negb_true_iff, bool_decide_eq_false in H.
Qed.

Lemma digits_word d (w : str) : bool_decide (w <> []) && bool_decide (d ∉ w) = true -> word d w.
Proof. by intros [H1%bool_decide_eq_true H2%bool_decide_eq_true]%andb_true_iff. Qed.

Lemma both_in_proc : Forall in_proc [sh; vi].
Proof.
  constructor; [|constructor; [|done]].
  - exists 0, (take 3 (status "0")), (drop 4 (status "0")), (chars "0"), (chars "0"), (chars "0"), (chars "0"), (words (stat "7" "sh" "300" "5000000")), [].
    split; try (by vm_compute).
    + by apply heads_ok; vm_compute.
    + split; [by repeat (apply Forall_cons; split; [by apply digits_word|]); apply Forall_nil|simpl; lia].
    + split; [done|simpl; lia].
    + by apply words_ok; vm_compute.
    + apply Nat.ltb_lt. by vm_compute.
    + split; [done|simpl; lia].
  - exists 1000, (take 3 (status "1000")), (drop 4 (status "1000")), (chars "1000"), (chars "1000"), (chars "1000"), (chars "1000"),
      (words (stat "8" "vi" "732500" "9000000")), [].
    split; try (by vm_compute).
    + by apply heads_ok; vm_compute.
    + split; [by repeat (apply Forall_cons; split; [by apply digits_word|]); apply Forall_nil|simpl; lia].
    + split; [done|simpl; lia].
    + by apply words_ok; vm_compute.
    + apply Nat.ltb_lt. by vm_compute.
    + split; [done|simpl; lia].
Qed.

(** [ps -m] prints the editor first. *)
Lemma myps_spec_witness :
  exists l, main [("m"%char, [])] [chars "."; chars "7"; chars "8"; chars "version"] = Done (LISTING (map print_ps l)) /\
    l ≡ₚ [ps_of sh; ps_of vi] /\ print_ps (ps_of vi) = mk_ps_line 8 (chars "max") 2 2 5 9000 (chars "vi").
Proof.
  destruct (myps_spec [("m"%char, [])] [chars "."; chars "7"; chars "8"; chars "version"] [sh; vi] (mk_options 1 None))
    as (l & H1 & H2 & _).
  - by vm_compute.
  - by vm_compute.
  - exact both_in_proc.
  - simpl; lia.
  - exists l. split; [exact H1|]. split; [exact H2|]. by vm_compute.
Defined.

(** The blank in the name of a process moves the fields behind it. *)
Example blank_in_name : parse_stat (stat "9" "a b" "300" "5000000") =
  Done (mk_stat_fields (Some []) (Some 10) (Some 300) (Some 21)).
Proof. by vm_compute. Qed.
End PsExample.
